(* ===== verification/_CoqProject ===== *)
-Q . S2P
Prelude.v
GoStd.v
Util.v
Json.v
GoStrings.v
Netip.v
Proto.v
Codec.v
CodecLaws.v
Schema.v
SchemaGraph.v
SchemaWf.v
SchemaValue.v
SchemaDefault.v
SchemaSpec.v
Engine.v
Model.v
Cache.v
Convert.v
Requests.v
World.v
WorldLaws.v
RepoScope.v
Permission.v
RepoConfig.v
RepoChild.v
RepoSnapshot.v
RepoLaws.v
Credential.v
Password.v
Jwt.v
CredentialLaws.v
RepoProject.v
RepoIdentity.v
RepoSession.v
LogicBase.v
LogicIdentity.v
LogicProject.v
LogicAuth.v
Middleware.v
Browser.v
BrowserSpec.v
ObjectStore.v
LogicPublish.v
LogicConfig.v
LogicSnapshot.v
LogicTransfer.v
LogicDefinition.v
Service.v
Assets.v
LocalStore.v
Config.v
S3Store.v
PublishLaws.v
Evolution.v
Coherence.v
SampleWorld.v
CodecSpec.v
PermissionSpec.v
Ledger.v
LedgerOps.v
PublishSpec.v
ScopeSpec.v
Handlers.v
Secure.v
HandlersAccess.v
HandlersTransfer.v
Server.v
ServerSpec.v
AccessSpec.v
ServiceSpec.v
LimitSpec.v
ImportSpec.v
LifetimeSpec.v
SessionSpec.v
ObjectKeySpec.v
LocalSpec.v
AssetSpec.v
S3Spec.v
Transports.v
