(* ===== verification/Prelude.v ===== *)
(** * Kirby: a configuration server, its publication protocol and its schemas

    Kirby keeps typed configurations.  An editor defines structures and
    enumerations, gives a configuration a JSON value of a declared type, takes
    snapshots of the whole, and releases one snapshot per configuration; client
    programs read the released value with an API key.  This library models the
    Go code of that core ([server/internal/]) and proves what makes it correct.

    ** How the program is put together, and where its parts are

    A request passes the middleware ([middleware/]: the rules of its message,
    rate limits, bearer tokens, API keys) and reaches a method of the interface
    ([service/]), which enters the logic layer ([logic/]); that asks the permission
    resolver ([permission/]), opens a transaction, calls the repositories
    ([repository/], SQL through the third-party library lorm), validates with
    the entities ([entity/]), writes an audit record, and after the commit
    removes stale cache entries ([infra/cache/]).  The method converts the
    result to a message ([converter/]) and an error to a public one.

    Foundations.
    - [Prelude] (this file): errors as data, the result monad, tactics.
    - [GoStd], [GoStrings], [Json], [Util]: bytes, runes, [strconv],
      [strings], [encoding/json] v1, [time.Parse] layouts, [util/safeint] and
      [util/set].
    - [Engine]: tables known through the statements the repositories issue
      (classes [Engine], [EngineLaws]) with a concrete engine [map_engine];
      [Model]: rows and unique constraints ([model/], [model/sql/]).
    - [Cache]: the class [Store] with its laws, and the in-process store.
    - [World]: the state (database, cache, clock, randomness, schedule of
      failures), the monad [M], statements and transactions; [WorldLaws]:
      inversion of runs, statements as maps of rows, frames.

    Entities and converters.
    - [Proto], [Schema]: the messages and [entity/schema.go].  [SchemaGraph]
      (reference cycles), [SchemaWf] (what [NewSchema] accepts), [SchemaValue]
      (typing of values), [SchemaDefault] (defaults and trees), [SchemaSpec]
      (the properties and a sample schema).
    - [Codec], [CodecLaws], [CodecSpec]: [converter/json.go] and
      [entity/snapshot.go]; [Convert]: rows to API messages.

    Repositories, one Module per Go repository.
    - [RepoScope], [RepoConfig], [RepoChild], [RepoSnapshot], [RepoProject]:
      configurations, definitions, snapshots, projects, environments, API keys;
      [RepoLaws]: the integrity of publication, and what each does to the rows.
    - [RepoIdentity], [RepoSession]: accounts, roles and memberships; refresh
      tokens and import records; the first administrator ([LogicAuth]).

    Authentication and authorization.
    - [Permission], [PermissionSpec]: the resolver, and what a check decides.
    - [Credential], [CredentialLaws], [Password], [Jwt]: [auth/api_key/],
      [auth/password/], [auth/jwt/].
    - [Middleware]: [middleware/], the translation of errors into responses,
      and the order in which [server/http.go] runs the checks.

    Logic, one definition per Go function.
    - [LogicBase] (with the interface [AuthorizerLaws] the resolver offers the
      logic layer), [LogicPublish] (publication and runtime reads),
      [LogicConfig], [LogicSnapshot], [LogicDefinition]: the configuration core.
    - [LogicIdentity], [LogicProject], [LogicAuth], [LogicTransfer]: users,
      roles, environments; projects and API keys; login, refresh and setup; import
      and export.

    Assets.
    - [ObjectStore]: the names of assets ([infra/object/key.go]),
      [mime.ParseMediaType], the records, checks and the interface
      [ObjectStorage] of [infra/object/storage.go], and the monad [OM] of
      functions that use both the server and the provider's state.
    - [Assets]: [logic/asset.go] and [service/asset.go] over any provider.
    - [LocalStore]: the provider of [infra/object/local.go], a state of files and
      a signing key: tickets, uploads, reads and the HTTP routes.
    - [S3Store]: the provider of [infra/object/s3.go] over the calls of the
      MinIO client (class [S3Client], with the records of its policies and
      options), and the choice between the providers.
    - [LocalSpec]: what calls do to the files; [AssetSpec]: who may upload, and
      the life of an asset; [S3Spec]: the same over any bucket that keeps the
      documented laws [S3Laws], and what a loaded configuration guarantees.

    Startup.
    - [Config]: [conf/config.go] and [conf/load.go], the settings and every rule
      of their validation; the secrets generated once
      ([infra/application_secrets.go]); the managers, the database and the cache
      that are opened from them.

    The interface.
    - [Netip]: addresses, their text and networks ([net/netip]).  [Browser]: what
      a browser's request says of its client, its origin and its cookies, behind
      trusted proxies ([conf/config.go], [middleware/client_ip.go],
      [auth/session/session.go], [server/filter.go]); [BrowserSpec]: what these
      policies decide.
    - [Requests]: the request messages with their generated validation
      ([api/admin/*.pb.validate.go]).
    - [Service]: the methods of [service/] and the middleware [server/http.go]
      puts around them; [ServiceSpec]: what a client can do and learn.
    - [Transports]: the way in ([server/], [health/], [api/*_http.pb.go]): the
      table of routes and whatever else is registered, its dispatch over a
      router (class [Mux]), the boundary filter, the probes, the browser
      application and the gRPC chain, with what they guarantee.

    Proofs about the whole.
    - [PublishLaws], [PublishSpec]: publication as a transition.
    - [Evolution]: [Good], the integrity of one database, [evolves], the
      relation to any later one, and [sound] operations; [Coherence]: the names
      of cache entries and cached released content; [Ledger], [LedgerOps]: the same for the rows of
      accounts, sessions, keys, import records and the setup marker.
    - [Secure]: an operation that changes the database or answers has
      made its permission check ([secure]).
    - [Handlers], [HandlersAccess], [HandlersTransfer]: every operation is
      sound, confines its use of the cache and is secure.
    - [Server]: the server as the relation [step]; [ServerSpec], [AccessSpec],
      [SessionSpec], [ImportSpec], [LifetimeSpec]: what holds of every
      reachable state.
    - [LimitSpec], [ObjectKeySpec]: the rate limiter, asset names; tokens and
      passwords are in [SessionSpec].  [ScopeSpec]: the queries of an
      environment and the loops over pages.  [SampleWorld]: an installation on
      which the operations are evaluated.

    ** What the theorems show

    - The server ([ServerSpec]).  For all interleavings of the operations, all
      arguments and all failures: the integrity of publication is kept;
      snapshots are immutable; a runtime generation identifies the released
      content; a read with an API key returns the released value of the
      requested configuration and only to an authentic client; publication is
      visible to the next read of that configuration; a reader between whose
      accesses other requests are served ([LogicPublish.readConfig_among])
      neither spoils the cache nor answers with content of another generation;
      a configuration that has snapshots is permanent.
    - Access ([AccessSpec], [PermissionSpec]): an operation that demands a
      permission, the checks of the asset endpoints included, neither answers
      nor changes rows unless the rows of users, memberships, roles and
      permissions allow it, whatever the permission cache holds; the three that
      demand none (the catalogue of roles, the list of environments, the own
      permissions) change nothing and tell what is stated; all others belong to
      sign-in, session and setup.  An administration request needs
      a valid token of an enabled account; the check is sound whatever fails
      and complete when nothing fails.
    - The interface ([ServiceSpec]).  An administration request that succeeds
      had a valid message and a valid token of an account allowed what the
      endpoint demands; every request, to the asset endpoints over any provider
      that keeps to itself ([StorageLaws]) too, is a sequence of steps of
      [Server], so what is proved of reachable states holds of the server its
      clients see; once a message could be read, the errors of the interface are
      public ones (what the transport library says of one it cannot decode is
      its own text); page arithmetic is exact.  Sessions can be used from the
      server's own origin only and their cookie is confined to it; where trusted
      proxies are configured, a client cannot choose its address
      ([BrowserSpec]); without the setting it can, since everything is trusted.
    - The network ([Transports]): a path has at most one route; an operation of
      the administration is reached through the API prefix, the origin check and
      the authentication only; a runtime read with a key that names its client
      is the same over gRPC and HTTP (gRPC knows no peer, so that other keys are
      limited together).
    - Sessions and keys ([SessionSpec], [LifetimeSpec]): refresh tokens are
      used once, a replay ends the session, a sign-out is final for the refresh
      tokens and a disabled account for its access tokens too, a revoked key is
      final, an installation that has been set up keeps an administrator.
    - Assets ([AssetSpec], [LocalSpec]): tickets and completions are given only
      to accounts that may write the assets of the project, for any provider,
      and what is completed is within the policy.  On the local provider a
      ticket verifies to what it was issued for until it expires, nothing is
      stored or appears under a key without one, nothing is overwritten, and an
      accepted upload is served unchanged for ever after.  On S3 ([S3Spec]) what
      is published is the content of the upload that was checked, and nothing that is
      published is replaced or removed, whatever browsers upload.
    - Startup ([S3Spec]): a configuration that loads is refused by no
      constructor but for what lies outside (the answer of Redis, the client
      library of S3, the database itself) and for the lifetimes of tokens:
      access tokens need 15 minutes, which the validation does not demand.
    - Publication ([PublishSpec]): what publish and unpublish require and
      exactly what they change, and that they are all or nothing.  Imports
      ([ImportSpec]) take effect at most once per idempotency key, even if the
      first one answered an error after its commit.
    - Schemas ([SchemaSpec]): constructor, cycle search, value validation,
      default values, trees and offered choices against declarative
      specifications, with no panic and enough fuel.
    - Data: documents and columns round-trip ([CodecSpec]), and so do tokens
      and passwords ([SessionSpec]) and asset names ([ObjectKeySpec]);
      credentials are accepted exactly when they were issued
      ([CredentialLaws]); cache keys are injective ([Coherence]); pages are
      complete ([ScopeSpec]); integer conversions are exact ([Util]); the rate
      limiter implements fixed windows ([LimitSpec]).

    ** How the code is represented

    - A Go function returning [(A, error)] is [M A], a function from [World] to
      a result and a world; pure functions return [result A].  Errors are data
      ([Err]) with the wrapping that [errors.Is] looks through; only the texts
      of standard-library errors are left out.  [EPanic] stands for a run-time
      panic and [EFuel] for an exhausted recursion bound.
    - A schedule [faults] decides of every statement and commit whether it
      fails, before or after taking effect.  Theorems hold for all schedules.
    - The database engine is a parameter.  Its laws speak of the map of rows a
      table denotes; the number of affected rows is the number of matched ones;
      a query that takes one row without an order takes the first by key.
    - A transaction is atomic: the code serialises transactions on a
      configuration by [FOR UPDATE] locks.  Operations follow each other in one
      world; [slow_reader_coherent] lets others run between the accesses of a
      runtime reader to the database and to the cache, which is outside
      transactions.
    - The file system is a map from paths to nodes whose calls may fail like
      statements do; a file that has been published is written no more.  Calls
      of one request are not interleaved with those of another.
    - [protojson], HMAC, SHA-256, argon2, golang-jwt, the parsing of UUIDs,
      letter case beyond ASCII, the order in which Go visits a map, the YAML
      decoder, the MinIO client and the router are parameters.  [map_engine], the
      in-process cache, the instances of [SampleWorld], a bucket in memory
      ([S3Spec]) and a router that tries the routes in order ([Transports])
      instantiate them in the witnesses.
    - Fuel: [cycle_fuel] and [graph_fuel] are two more than the number of
      structures, [value_fuel] one more than the nesting of the value, and
      [all_pages] one more than the rows of the table; the theorems on
      [NewSchema], [ValidateConfig], [BuildTree] and the pages show that these
      bounds are never reached.  [max_nesting] is encoding/json's own limit.
    - Integers are [Z] with Go's conversions where they can matter: checked
      conversions, 64-bit runtime generations, 32-bit tags, [strconv] ranges.

    ** What is not modelled

    Redis beyond the laws of a cache; the wire formats (protobuf, the binding of
    requests to messages, YAML) and TLS; range and conditional requests for an
    object and the bytes of static files ([http.ServeContent],
    [http.FileServerFS]); the forwarding of the storage proxy; listeners,
    timeouts and the order of shutdown ([server/server.go], [cmd/]); logging;
    the DDL of the schema and its vendor locks ([model/schema.go],
    [schema_lock.go]) and generated database code.  This is I/O, third-party
    code and what rests on it.  Concurrency inside one request is not modelled
    beyond [slow_reader_coherent]. *)

From stdpp Require Export base list strings gmap pretty.
From Stdlib Require Export ZArith Lia.
From Stdlib Require Import Ascii.

(** ** Errors

    Go returns [error] values and classifies them with [errors.Is].  The
    sentinels of the packages are constructors; [EWrap] is
    [fmt.Errorf("...: %w", err)] and [EOther] an error that wraps no sentinel.
    [EPanic] is a run-time panic (nil dereference, index out of range) and
    [EFuel] the exhaustion of a recursion bound of the model; theorems show
    neither is produced where the code cannot produce it. *)
Inductive ApiCode :=
  | BadRequest | InvalidParam | Unauthorized | Forbidden | NotFound | Conflict | TooManyRequests
  | Internal.
#[export] Instance ApiCode_eq_dec : EqDecision ApiCode.
Proof. solve_decision. Defined.

(** The sentinels of infra/object/storage.go and of logic/asset.go. *)
Inductive ObjectError :=
  | ObjectInvalid | ObjectMissing | ObjectConflicting | ObjectIntegrity | StorageUnavailable.
#[export] Instance ObjectError_eq_dec : EqDecision ObjectError.
Proof. solve_decision. Defined.
Inductive AssetError :=
  | AssetInvalid | AssetForbidden | AssetProjectMissing | AssetMissing | AssetConflicting
  | AssetIntegrity | AssetDependency.
#[export] Instance AssetError_eq_dec : EqDecision AssetError.
Proof. solve_decision. Defined.

Inductive Err :=
  (* entity/errors.go *)
  | EInvalid (msg : string)
  | EConflict (msg : string)
  (* repository/errors.go, repository/conflict.go *)
  | ENotFound (resource : string)
  | ENoRowsAffected (resource : string)
  | EInvalidArgument (name : string)
  | EKeyConflict (resource : string)
  (* permission/permission.go *)
  | EForbidden
  | EEnvironmentNotFound
  | EConcurrentChange
  (* infra/cache/cache.go *)
  | ECacheNotFound
  | EInvalidTTL
  (* logic/runtime.go *)
  | EUnauthenticated
  | EProjectMismatch
  (* repository/user.go, repository/role.go *)
  | EUserNotFound
  | ELastSystemAdmin
  | EUserVersionConflict
  | EUserListLimit
  | ERoleInUse
  | EBuiltinRole
  | ESystemRolePermission
  | EPermissionSetMismatch
  (* repository/refresh_token.go *)
  | ERefreshTokenNotFound
  | ERefreshTokenExpired
  | ERefreshTokenReplay
  (* repository/setup.go *)
  | EAlreadyInitialized
  (* logic/auth.go; authUnavailable wraps the sentinel and the cause *)
  | EAuthFailed
  | EAuthRateLimited
  | EAuthUnavailable (operation : string) (cause : Err)
  (* infra/object/storage.go, logic/asset.go *)
  | EObject (kind : ObjectError) (msg : string)
  | EAsset (kind : AssetError) (msg : string)
  (* errors.Join *)
  | EJoin (a b : Err)
  (* a failed SQL statement as the driver reports it, and WrapDatabaseError *)
  | EDriver (cause : string)
  | ECanceled
  | EDuplicateKey
  | EDatabase (cause : string)
  (* the generated constructors of api/errors: what a response may say *)
  | EApi (code : ApiCode) (message : string)
  | EOther (msg : string)
  | EWrap (msg : string) (cause : Err)
  | EPanic (msg : string)
  | EFuel.

#[export] Instance Err_eq_dec : EqDecision Err.
Proof. solve_decision. Defined.

(** [errors.Is(err, target)] walks the wrap chain; each sentinel is a test on
    the innermost error. *)
Fixpoint cause_of (e : Err) : Err :=
  match e with EWrap _ c => cause_of c | _ => e end.

(** [errors.Is] on the errors that wrap several: [p] tells the sentinel. *)
Fixpoint errors_is (p : Err → bool) (e : Err) : bool :=
  p e || match e with
         | EWrap _ c | EAuthUnavailable _ c => errors_is p c
         | EJoin a b => errors_is p a || errors_is p b
         | _ => false
         end.

Definition is_NotFound (e : Err) : bool :=
  match cause_of e with ENotFound _ => true | _ => false end.
Definition is_Forbidden (e : Err) : bool :=
  match cause_of e with EForbidden => true | _ => false end.
Definition is_ConcurrentChange (e : Err) : bool :=
  match cause_of e with EConcurrentChange => true | _ => false end.
Definition is_CacheNotFound (e : Err) : bool :=
  match cause_of e with ECacheNotFound => true | _ => false end.
Definition is_Invalid (e : Err) : bool :=
  match cause_of e with EInvalid _ => true | _ => false end.
Definition is_Conflict (e : Err) : bool :=
  match cause_of e with EConflict _ => true | _ => false end.
Definition is_KeyConflict (e : Err) : bool :=
  match cause_of e with EKeyConflict _ => true | _ => false end.

(** ** Results: [(value, error)] pairs of which exactly one is meaningful *)
Inductive result (A : Type) :=
  | Ok (a : A)
  | Er (e : Err).
Arguments Ok {A} a.
Arguments Er {A} e.

#[export] Instance result_ret : MRet result := λ A a, Ok a.
#[export] Instance result_bind : MBind result := λ A B f m,
  match m with Ok a => f a | Er e => Er e end.
#[export] Instance result_fmap : FMap result := λ A B f m,
  match m with Ok a => Ok (f a) | Er e => Er e end.

Definition is_ok {A} (r : result A) : bool :=
  match r with Ok _ => true | Er _ => false end.

Lemma bind_Ok {A B} (m : result A) (f : A → result B) (b : B) :
  (m ≫= f) = Ok b ↔ ∃ a, m = Ok a ∧ f a = Ok b.
Proof. destruct m; naive_solver. Qed.

Lemma bind_Er {A B} (m : result A) (f : A → result B) (e : Err) :
  (m ≫= f) = Er e ↔ m = Er e ∨ ∃ a, m = Ok a ∧ f a = Er e.
Proof. destruct m; naive_solver. Qed.

Lemma is_ok_Ok {A} (r : result A) : is_ok r = true ↔ ∃ a, r = Ok a.
Proof. destruct r; naive_solver. Qed.

(** [if cond { return err }] *)
Definition guard_err (b : bool) (e : Err) : result unit :=
  if b then Er e else Ok tt.

Lemma guard_err_Ok b e u : guard_err b e = Ok u ↔ b = false.
Proof. destruct b, u; naive_solver. Qed.

(** [for _, x := range l { if err := f(x); err != nil { return err } }] *)
Fixpoint each {A} (f : A → result unit) (l : list A) : result unit :=
  match l with
  | [] => Ok tt
  | x :: l => f x;; each f l
  end.

Lemma each_Ok {A} (f : A → result unit) (l : list A) :
  each f l = Ok tt ↔ ∀ x, x ∈ l → f x = Ok tt.
Proof.
  induction l as [|x l IH]; simpl; [set_solver|].
  rewrite bind_Ok. setoid_rewrite elem_of_cons. split.
  - intros ([] & Hx & Hl) y [->|?]; [done|]. by apply IH.
  - intros H. exists tt. split; [by apply H; left|].
    apply IH. naive_solver.
Qed.

(** [for _, x := range l { y, err := f(x); if err != nil { return err };
    result = append(result, y) }] *)
Fixpoint collect {A B} (f : A → result B) (l : list A) : result (list B) :=
  match l with
  | [] => Ok []
  | x :: l => y ← f x; ys ← collect f l; Ok (y :: ys)
  end.

Lemma collect_Ok {A B} (f : A → result B) (l : list A) (k : list B) :
  collect f l = Ok k ↔ Forall2 (λ x y, f x = Ok y) l k.
Proof.
  revert k; induction l as [|x l IH]; intros k; simpl.
  - split; [intros [= <-]; constructor|by inversion 1].
  - rewrite bind_Ok. setoid_rewrite bind_Ok. split.
    + intros (y & Hy & ys & Hys & [= <-]). constructor; [done|by apply IH].
    + inversion 1 as [|? y ? ys Hy Hys]; subst. exists y; split; [done|].
      exists ys; split; [by apply IH|done].
Qed.

(** A loop that updates local variables [s] and may return an error. *)
Fixpoint fold_m {S A} (f : S → A → result S) (l : list A) (s : S) : result S :=
  match l with
  | [] => Ok s
  | x :: l => s ← f s x; fold_m f l s
  end.

(** A loop with its index. *)
Fixpoint each_from {A} (i : nat) (f : nat → A → result unit) (l : list A) :
    result unit :=
  match l with
  | [] => Ok tt
  | x :: l => f i x;; each_from (S i) f l
  end.

Lemma each_from_Ok {A} i (f : nat → A → result unit) l :
  each_from i f l = Ok tt ↔ ∀ j x, l !! j = Some x → f (i + j)%nat x = Ok tt.
Proof.
  revert i; induction l as [|x l IH]; intros i; simpl.
  { split; [by intros _ j y Hj|done]. }
  rewrite bind_Ok. split.
  - intros ([] & Hx & Hl) [|j] y Hy; simpl in Hy.
    + injection Hy as <-. by rewrite Nat.add_0_r.
    + rewrite <-Nat.add_succ_comm. by apply (proj1 (IH (S i)) Hl).
  - intros H. exists tt. split.
    + specialize (H 0%nat x eq_refl). by rewrite Nat.add_0_r in H.
    + apply IH. intros j y Hy. specialize (H (S j) y Hy).
      by rewrite <-Nat.add_succ_comm in H.
Qed.

(** ** Tactics *)

(** Destruct every hypothesis of the form [bind .. = Ok ..] and its guards. *)
Ltac inv_ok :=
  repeat match goal with
  | H : (_ ≫= _) = Ok _ |- _ =>
      apply bind_Ok in H; destruct H as (? & ? & ?)
  | H : guard_err _ _ = Ok _ |- _ => apply guard_err_Ok in H
  | H : Ok _ = Ok _ |- _ => injection H as H; try subst
  | H : Er _ = Ok _ |- _ => discriminate H
  | x : unit |- _ => destruct x
  end.

(** Turn boolean hypotheses into propositions. *)
Ltac bool_hyps :=
  repeat match goal with
  | H : (_ || _)%bool = false |- _ => apply orb_false_iff in H; destruct H
  | H : (_ && _)%bool = true |- _ => apply andb_true_iff in H; destruct H
  | H : negb _ = false |- _ => apply negb_false_iff in H
  | H : negb _ = true |- _ => apply negb_true_iff in H
  | H : bool_decide _ = true |- _ => apply bool_decide_eq_true in H
  | H : bool_decide _ = false |- _ => apply bool_decide_eq_false in H
  | H : Z.ltb _ _ = true |- _ => apply Z.ltb_lt in H
  | H : Z.ltb _ _ = false |- _ => apply Z.ltb_ge in H
  | H : Z.leb _ _ = true |- _ => apply Z.leb_le in H
  | H : Z.leb _ _ = false |- _ => apply Z.leb_gt in H
  | H : Z.eqb _ _ = true |- _ => apply Z.eqb_eq in H
  | H : Z.eqb _ _ = false |- _ => apply Z.eqb_neq in H
  end.
