(* ===== verification/GoStd.v ===== *)
(** The parts of the Go language and standard library the server relies on:
    bytes and UTF-8 runes ([unicode/utf8], [strings.TrimSpace]), decimal
    integers ([strconv]), fixed-width integers.  Strings are byte strings:
    an [ascii] is one byte. *)

From stdpp Require Import sorting.
From S2P Require Import Prelude.
From Stdlib Require Import Ascii.

Local Open Scope Z_scope.

(** ** Bytes *)

Definition byte (c : ascii) : Z := Z.of_N (N_of_ascii c).
Definition chr (z : Z) : ascii := ascii_of_N (Z.to_N z).
Definition in_range (lo hi z : Z) : bool := (lo <=? z) && (z <=? hi).

Definition is_digit (c : ascii) : bool := in_range 48 57 (byte c).
Definition is_upper (c : ascii) : bool := in_range 65 90 (byte c).
Definition is_lower (c : ascii) : bool := in_range 97 122 (byte c).
Definition is_letter (c : ascii) : bool := is_upper c || is_lower c.
Definition is_alnum (c : ascii) : bool := is_letter c || is_digit c.

(** [len(s)] *)
Definition len (s : string) : Z := Z.of_nat (String.length s).

Fixpoint forall_bytes (p : ascii → bool) (s : string) : bool :=
  match s with
  | EmptyString => true
  | String c s => p c && forall_bytes p s
  end.

(** ** [unicode/utf8]: decoding as Go's [range] over a string does it; an
    invalid byte is the rune U+FFFD of width one. *)

Definition RuneError : Z := 65533.

Definition cont (lo hi : Z) (c : ascii) : bool := in_range lo hi (byte c).
Definition low6 (c : ascii) : Z := Z.land (byte c) 63.

Definition decode_rune (c : ascii) (s : string) : Z * string :=
  let b := byte c in
  if b <? 128 then (b, s)
  else if in_range 194 223 b then
    match s with
    | String c1 s1 =>
        if cont 128 191 c1
        then (Z.lor (Z.shiftl (Z.land b 31) 6) (low6 c1), s1)
        else (RuneError, s)
    | _ => (RuneError, s)
    end
  else if in_range 224 239 b then
    let lo := if b =? 224 then 160 else 128 in
    let hi := if b =? 237 then 159 else 191 in
    match s with
    | String c1 (String c2 s2) =>
        if cont lo hi c1 && cont 128 191 c2
        then (Z.lor (Z.shiftl (Z.land b 15) 12)
                    (Z.lor (Z.shiftl (low6 c1) 6) (low6 c2)), s2)
        else (RuneError, s)
    | _ => (RuneError, s)
    end
  else if in_range 240 244 b then
    let lo := if b =? 240 then 144 else 128 in
    let hi := if b =? 244 then 143 else 191 in
    match s with
    | String c1 (String c2 (String c3 s3)) =>
        if cont lo hi c1 && cont 128 191 c2 && cont 128 191 c3
        then (Z.lor (Z.shiftl (Z.land b 7) 18)
               (Z.lor (Z.shiftl (low6 c1) 12)
                 (Z.lor (Z.shiftl (low6 c2) 6) (low6 c3))), s3)
        else (RuneError, s)
    | _ => (RuneError, s)
    end
  else (RuneError, s).

Fixpoint runes_fuel (n : nat) (s : string) : list Z :=
  match n, s with
  | S n, String c s' =>
      let '(r, rest) := decode_rune c s' in r :: runes_fuel n rest
  | _, _ => []
  end.
Definition runes (s : string) : list Z := runes_fuel (String.length s) s.

(** [utf8.RuneCountInString] *)
Definition rune_count (s : string) : Z := Z.of_nat (length (runes s)).

(** [utf8.AppendRune] for a rune in range; surrogates are replaced. *)
Definition encode_rune (r : Z) : string :=
  let r := if in_range 55296 57343 r || (r <? 0) || (1114111 <? r)
           then RuneError else r in
  let tail k := chr (Z.lor 128 (Z.land (Z.shiftr r k) 63)) in
  if r <? 128 then String (chr r) ""
  else if r <? 2048 then
    String (chr (Z.lor 192 (Z.shiftr r 6))) (String (tail 0) "")
  else if r <? 65536 then
    String (chr (Z.lor 224 (Z.shiftr r 12)))
      (String (tail 6) (String (tail 0) ""))
  else
    String (chr (Z.lor 240 (Z.shiftr r 18)))
      (String (tail 12) (String (tail 6) (String (tail 0) ""))).

(** [utf8.ValidString]: an invalid byte decodes to [RuneError], whose encoding
    is longer. *)
Definition valid_utf8 (s : string) : bool :=
  bool_decide (foldr (λ r acc, encode_rune r +:+ acc) "" (runes s) = s).
(** [unicode.IsControl] *)
Definition unicode_is_control (r : Z) : bool := in_range 0 31 r || in_range 127 159 r.

(** [unicode.IsSpace] *)
Definition unicode_is_space (r : Z) : bool :=
  in_range 9 13 r || (r =? 32) || (r =? 133) || (r =? 160) || (r =? 5760)
  || in_range 8192 8202 r || (r =? 8232) || (r =? 8233) || (r =? 8239)
  || (r =? 8287) || (r =? 12288).

(** [strings.TrimSpace(s) == ""]: every rune is white space. *)
Definition blank (s : string) : bool := forallb unicode_is_space (runes s).

(** [strings.TrimSpace] *)
Fixpoint trim_left_fuel (n : nat) (s : string) : string :=
  match n, s with
  | S n, String c s' =>
      let '(r, rest) := decode_rune c s' in
      if unicode_is_space r then trim_left_fuel n rest else s
  | _, _ => s
  end.
Definition trim_left (s : string) : string :=
  trim_left_fuel (String.length s) s.

(** The text up to the last rune that is not white space. *)
Fixpoint trim_right_fuel (n : nat) (s : string) : string :=
  match n, s with
  | S n, String c s' =>
      let '(r, rest) := decode_rune c s' in
      let kept := trim_right_fuel n rest in
      let width := (String.length s - String.length rest)%nat in
      match kept with
      | EmptyString =>
          if unicode_is_space r then "" else String.substring 0 width s
      | _ => String.substring 0 width s +:+ kept
      end
  | _, _ => ""
  end.
Definition trim_right (s : string) : string :=
  trim_right_fuel (String.length s) s.
Definition trim_space (s : string) : string := trim_right (trim_left s).

(** ** Fixed-width integers *)

Definition max_uint32 : Z := 2 ^ 32 - 1.
Definition max_int64 : Z := 2 ^ 63 - 1.
Definition min_int64 : Z := - 2 ^ 63.
Definition max_uint64 : Z := 2 ^ 64 - 1.
Definition is_int64 (z : Z) : bool := in_range min_int64 max_int64 z.

(** Two's complement wrap-around of [int64] arithmetic. *)
Definition wrap64 (z : Z) : Z := (z + 2 ^ 63) mod 2 ^ 64 - 2 ^ 63.

Lemma in_range_spec lo hi z : in_range lo hi z = true ↔ lo ≤ z ≤ hi.
Proof. unfold in_range. rewrite andb_true_iff, !Z.leb_le. done. Qed.

Lemma wrap64_id z : is_int64 z = true → wrap64 z = z.
Proof.
  unfold is_int64, wrap64. rewrite in_range_spec.
  unfold min_int64, max_int64. intros H. rewrite Z.mod_small; lia.
Qed.

Lemma wrap64_range z : is_int64 (wrap64 z) = true.
Proof.
  unfold is_int64, wrap64. apply in_range_spec. unfold min_int64, max_int64.
  pose proof (Z.mod_pos_bound (z + 2 ^ 63) (2 ^ 64)). lia.
Qed.

(** ** [strconv.FormatInt(z, 10)] and [strconv.ParseInt(s, 10, 64)] *)

Definition format_int (z : Z) : string := pretty z.

Fixpoint parse_digits (acc : Z) (s : string) : option Z :=
  match s with
  | EmptyString => Some acc
  | String c s =>
      if is_digit c then parse_digits (acc * 10 + (byte c - 48)) s else None
  end.

Definition parse_uint (s : string) : option Z :=
  match s with EmptyString => None | _ => parse_digits 0 s end.

(** [None] is [ErrSyntax] or [ErrRange]. *)
Definition parse_int64 (s : string) : option Z :=
  match s with
  | String "-" s =>
      n ← parse_uint s; if n <=? 2 ^ 63 then Some (- n) else None
  | String "+" s =>
      n ← parse_uint s; if n <? 2 ^ 63 then Some n else None
  | s => n ← parse_uint s; if n <? 2 ^ 63 then Some n else None
  end.

Lemma pretty_char_digit x : (x < 10)%N →
  is_digit (pretty_N_char x) = true ∧
  byte (pretty_N_char x) - 48 = Z.of_N x.
Proof.
  intros H.
  assert (x = 0 ∨ x = 1 ∨ x = 2 ∨ x = 3 ∨ x = 4 ∨ x = 5 ∨ x = 6 ∨ x = 7
          ∨ x = 8 ∨ x = 9)%N as Hx by lia.
  naive_solver.
Qed.

Lemma parse_digits_pretty x s acc :
  parse_digits acc (pretty_N_go x s) =
  parse_digits (acc * 10 ^ Z.of_nat (String.length (pretty_N_go x "")) + Z.of_N x) s.
Proof.
  assert (Hlen : ∀ x s, String.length (pretty_N_go x s) =
    (String.length (pretty_N_go x "") + String.length s)%nat).
  { clear. intros x. induction (N.lt_wf_0 x) as [x _ IH]; intros s.
    assert (x = 0 ∨ 0 < x)%N as [->|?] by lia; [done|].
    rewrite (pretty_N_go_step x s), (pretty_N_go_step x "") by done.
    rewrite (IH (x `div` 10)%N (N.div_lt x 10 ltac:(lia) eq_refl) (String _ s)),
      (IH (x `div` 10)%N (N.div_lt x 10 ltac:(lia) eq_refl) (String _ "")).
    simpl. lia. }
  revert s acc. induction (N.lt_wf_0 x) as [x _ IH]; intros s acc.
  assert (x = 0 ∨ 0 < x)%N as [->|?] by lia.
  { rewrite !pretty_N_go_0. simpl. f_equal. lia. }
  rewrite (pretty_N_go_step x s), (pretty_N_go_step x "") by done.
  rewrite (IH (x `div` 10)%N (N.div_lt x 10 ltac:(lia) eq_refl)).
  rewrite (Hlen _ (String _ "")). cbn [parse_digits String.length].
  destruct (pretty_char_digit (x `mod` 10)) as [-> ->].
  { by apply N.mod_lt. }
  f_equal. rewrite Nat2Z.inj_add, Z.pow_add_r by lia.
  change (10 ^ Z.of_nat 1) with 10.
  rewrite N2Z.inj_div, N2Z.inj_mod.
  pose proof (Z.div_mod (Z.of_N x) 10 ltac:(lia)) as Hdm.
  change (Z.of_N 10) with 10. nia.
Qed.

Lemma pretty_N_go_nonempty m c s : pretty_N_go m (String c s) ≠ "".
Proof.
  revert s c. induction (N.lt_wf_0 m) as [m _ IH]; intros s c.
  assert (m = 0 ∨ 0 < m)%N as [->|?] by lia; [done|].
  rewrite pretty_N_go_step by done. apply IH. by apply N.div_lt.
Qed.

Lemma parse_uint_pretty (n : N) : parse_uint (pretty n) = Some (Z.of_N n).
Proof.
  unfold pretty, pretty_N. case_decide as Hn; [by subst|].
  unfold parse_uint. destruct (pretty_N_go n "") eqn:E.
  { rewrite pretty_N_go_step in E by lia. by destruct (pretty_N_go_nonempty _ _ _ E). }
  rewrite <-E, parse_digits_pretty. simpl. f_equal; lia.
Qed.

Lemma parse_digits_bytes s acc n : parse_digits acc s = Some n → forall_bytes is_digit s = true.
Proof.
  revert acc. induction s as [|c s IH]; intros acc; simpl; [done|].
  destruct (is_digit c); [|done]. simpl. apply IH.
Qed.
(** The text of a number that is not negative. *)
Lemma format_uint z : 0 ≤ z →
  parse_uint (format_int z) = Some z ∧ forall_bytes is_digit (format_int z) = true.
Proof.
  intros Hz. assert (format_int z = pretty (Z.to_N z)) as ->
    by (unfold format_int, pretty, pretty_Z; by destruct z).
  pose proof (parse_uint_pretty (Z.to_N z)) as Hp. rewrite Z2N.id in Hp by done. split; [done|].
  destruct (pretty (Z.to_N z)) as [|c s]; [done|]. by eapply parse_digits_bytes.
Qed.

Lemma parse_uint_head c s n : parse_uint (String c s) = Some n → is_digit c = true.
Proof. simpl. destruct (is_digit c); done. Qed.

Lemma parse_int64_format z :
  is_int64 z = true → parse_int64 (format_int z) = Some z.
Proof.
  unfold is_int64. rewrite in_range_spec. unfold min_int64, max_int64.
  intros Hz. unfold format_int, pretty, pretty_Z.
  destruct z as [|p|p]; [done| |].
  - change (pretty p) with (pretty (Npos p)).
    pose proof (parse_uint_pretty (Npos p)) as Hp.
    destruct (pretty (Npos p)) as [|c s] eqn:E; [done|].
    pose proof (parse_uint_head _ _ _ Hp) as Hc.
    assert (parse_int64 (String c s) =
      (n ← parse_uint (String c s); if n <? 2 ^ 63 then Some n else None)) as ->.
    { destruct c as [[] [] [] [] [] [] [] []]; try done. }
    rewrite Hp. simpl. case_match eqn:Hlt; [done|].
    apply Z.ltb_ge in Hlt. lia.
  - change ((n ← parse_uint (pretty (Npos p));
             if n <=? 2 ^ 63 then Some (- n) else None) = Some (Z.neg p)).
    rewrite parse_uint_pretty. cbn [mbind option_bind].
    case_match eqn:Hle; [done|]. apply Z.leb_gt in Hle. lia.
Qed.

Lemma parse_int64_range s z : parse_int64 s = Some z → is_int64 z = true.
Proof.
  assert (Hd : ∀ s acc n, 0 ≤ acc → parse_digits acc s = Some n → 0 ≤ n).
  { clear. induction s as [|c s IH]; simpl; intros acc n Hacc H; [naive_solver|].
    destruct (is_digit c) eqn:Hc; [|done]. apply IH in H; [done|].
    apply in_range_spec in Hc. lia. }
  assert (Hu : ∀ s n, parse_uint s = Some n → 0 ≤ n).
  { intros s' n. destruct s'; [done|]. by apply Hd. }
  unfold is_int64. rewrite in_range_spec. unfold min_int64, max_int64.
  assert (H1 : (n ← parse_uint s; if n <? 2 ^ 63 then Some n else None) = Some z →
               - 2 ^ 63 ≤ z ≤ 2 ^ 63 - 1).
  { intros (n & Hn & Hb)%bind_Some. apply Hu in Hn.
    case_match eqn:Hlt; simplify_eq. apply Z.ltb_lt in Hlt. lia. }
  intros H. destruct s as [|c s]; [by apply H1|].
  destruct (decide (c = "-"%char)) as [->|Hm].
  { simpl in H. apply bind_Some in H as (n & Hn & Hb). apply Hu in Hn.
    case_match eqn:Hlt; simplify_eq. apply Z.leb_le in Hlt. lia. }
  destruct (decide (c = "+"%char)) as [->|Hp].
  { simpl in H. apply bind_Some in H as (n & Hn & Hb). apply Hu in Hn.
    case_match eqn:Hlt; simplify_eq. apply Z.ltb_lt in Hlt. lia. }
  apply H1. rewrite <-H. destruct c as [[] [] [] [] [] [] [] []]; done.
Qed.

(** ** Laws of bytes *)

Lemma chr_byte c : chr (byte c) = c.
Proof. unfold chr, byte. rewrite N2Z.id. apply ascii_N_embedding. Qed.
Lemma byte_chr z : 0 ≤ z < 256 → byte (chr z) = z.
Proof. intros Hz. unfold byte, chr. rewrite N_ascii_embedding; lia. Qed.
Lemma forall_bytes_impl (p q : ascii → bool) s : (∀ c, p c = true → q c = true) →
  forall_bytes p s = true → forall_bytes q s = true.
Proof.
  intros Hpq. induction s as [|c s IH]; simpl; [done|]. intros [Hc Hs]%andb_true_iff.
  by rewrite (Hpq c Hc), IH.
Qed.

(** ** [sort.Strings] *)

Definition string_le (a b : string) : Prop := String.leb a b = true.
#[export] Instance string_le_dec a b : Decision (string_le a b) := bool_eq_dec _ _.
#[export] Instance string_le_total : Total string_le.
Proof. intros a b. apply String.leb_total. Qed.

Definition sort_strings (l : list string) : list string := merge_sort string_le l.
