(* ===== verification/Util.v ===== *)
(** [util/safeint] and [util/set]: checked integer conversions, with Go's
    truncating conversions written out, and the generic hash set. *)

From S2P Require Import Prelude GoStd.

Local Open Scope Z_scope.

Module Safeint.

(** Go's conversions between integer types keep the low bits. *)
Definition uint32 (v : Z) : Z := v mod 2 ^ 32.
Definition uint64 (v : Z) : Z := v mod 2 ^ 64.
Definition int64 (v : Z) : Z := wrap64 v.

(** [int] has [strconv.IntSize] bits. *)
Definition int_of (size v : Z) : Z :=
  (v + 2 ^ (size - 1)) mod 2 ^ size - 2 ^ (size - 1).

Definition no_fit (v : Z) (ty : string) : Err :=
  EOther (format_int v +:+ " does not fit in " +:+ ty).

Definition Uint32FromInt64 (value : Z) : result Z :=
  if (value <? 0) || (max_uint32 <? value) then Er (no_fit value "uint32")
  else Ok (uint32 value).

Definition Uint32FromInt (IntSize value : Z) : result Z :=
  if (value <? 0) || ((IntSize =? 64) && (max_uint32 <? uint64 value))
  then Er (no_fit value "uint32")
  else Ok (uint32 value).

Definition Uint64FromInt64 (value : Z) : result Z :=
  if value <? 0 then Er (no_fit value "uint64") else Ok (uint64 value).

Definition Uint64FromInt (value : Z) : result Z :=
  if value <? 0 then Er (no_fit value "uint64") else Ok (uint64 value).

Definition Int64FromUint64 (value : Z) : result Z :=
  if max_int64 <? value then Er (no_fit value "int64") else Ok (int64 value).

Definition IntFromUint64 (IntSize value : Z) : result Z :=
  if ((IntSize =? 32) && (2 ^ 31 - 1 <? value))
     || ((IntSize =? 64) && (max_int64 <? value))
  then Er (no_fit value "int")
  else Ok (int_of IntSize value).

Definition IntFromUint32 (IntSize value : Z) : result Z :=
  if (IntSize =? 32) && (2 ^ 31 - 1 <? value) then Er (no_fit value "int")
  else Ok (int_of IntSize value).

(** A checked conversion [f] is exact towards [lo .. hi] when it succeeds on
    exactly the source values in range, and then returns the value itself. *)
Definition exact (f : Z → result Z) (src : Z → Prop) (lo hi : Z) : Prop :=
  ∀ v, src v →
    (lo ≤ v ≤ hi → f v = Ok v) ∧
    (¬ (lo ≤ v ≤ hi) → ∃ e, f v = Er e).

Definition signed (size v : Z) : Prop := - 2 ^ (size - 1) ≤ v < 2 ^ (size - 1).
Definition unsigned (size v : Z) : Prop := 0 ≤ v < 2 ^ size.

(* [0 ≤ v < 2 ^ n] makes every conversion of this file the identity *)
Lemma uint32_id v : unsigned 32 v → uint32 v = v.
Proof. apply Z.mod_small. Qed.
Lemma uint64_id v : unsigned 64 v → uint64 v = v.
Proof. apply Z.mod_small. Qed.
Lemma int_of_id size v : 1 ≤ size → signed size v → int_of size v = v.
Proof.
  unfold signed, int_of. intros Hs Hv. rewrite Z.mod_small; [lia|].
  replace (2 ^ size) with (2 * 2 ^ (size - 1)); [lia|].
  rewrite <-Z.pow_succ_r by lia. f_equal. lia.
Qed.

Ltac conv :=
  repeat match goal with
  | |- context [if ?b then _ else _] => destruct b eqn:?
  end; bool_hyps;
  repeat match goal with
  | H : (_ || _)%bool = true |- _ => apply orb_true_iff in H; destruct H
  | H : (_ && _)%bool = false |- _ => apply andb_false_iff in H; destruct H
  end; bool_hyps.

End Safeint.

(** [set.Set[T]]: a pointer to a map with empty values.  The sets of this
    program are local to one call, so a value that is threaded stands for the
    pointer.  [Values] returns the members in an unspecified order and has no
    definition here. *)
Module Set_.
Section set.
Context {T : Type} `{Countable T}.

Definition Add (s : gset T) (items : list T) : gset T :=
  fold_left (λ s item, {[item]} ∪ s) items s.
Definition New (items : list T) : gset T := Add ∅ items.
Definition Remove (s : gset T) (items : list T) : gset T :=
  fold_left (λ s item, s ∖ {[item]}) items s.
Definition Contains (s : gset T) (item : T) : bool := bool_decide (item ∈ s).
Definition Size (s : gset T) : nat := size s.

Lemma elem_of_Add s items x : x ∈ Add s items ↔ x ∈ s ∨ x ∈ items.
Proof.
  revert s; induction items as [|y l IH]; intros s; cbn [Add fold_left].
  - split; [by left|]. by intros [?|?%elem_of_nil].
  - change (fold_left _ l ?s') with (Add s' l). rewrite IH.
    rewrite elem_of_union, elem_of_singleton, elem_of_cons. tauto.
Qed.
Lemma elem_of_New items x : x ∈ New items ↔ x ∈ items.
Proof. unfold New. rewrite elem_of_Add. set_solver. Qed.
Lemma elem_of_Remove s items x : x ∈ Remove s items ↔ x ∈ s ∧ x ∉ items.
Proof.
  revert s; induction items as [|y l IH]; intros s; cbn [Remove fold_left].
  - split; [by split; [|apply not_elem_of_nil]|]. by intros [? _].
  - change (fold_left _ l ?s') with (Remove s' l). rewrite IH.
    rewrite elem_of_difference, elem_of_singleton, elem_of_cons. tauto.
Qed.
Lemma Contains_true s x : Contains s x = true ↔ x ∈ s.
Proof. apply bool_decide_eq_true. Qed.
Lemma Contains_false s x : Contains s x = false ↔ x ∉ s.
Proof. apply bool_decide_eq_false. Qed.
End set.
#[global] Arguments Add : simpl never.
#[global] Arguments New : simpl never.
#[global] Arguments Remove : simpl never.
#[global] Arguments Contains : simpl never.
End Set_.

#[export] Hint Rewrite @Set_.elem_of_Add @Set_.elem_of_New @Set_.elem_of_Remove
  @Set_.Contains_true @Set_.Contains_false : go_set.

(** The checked conversions of util/safeint/convert.go are exact on 32-bit
    and 64-bit platforms.  Each accepts exactly the source values that fit the
    target type, returns such a value unchanged, and otherwise returns an
    error instead of Go's silently truncated value. *)
Theorem safeint_exact (IntSize : Z) (Hsize : IntSize = 32 ∨ IntSize = 64) :
  Safeint.exact Safeint.Uint32FromInt64 (Safeint.signed 64) 0 max_uint32 ∧
  Safeint.exact (Safeint.Uint32FromInt IntSize) (Safeint.signed IntSize) 0 max_uint32 ∧
  Safeint.exact Safeint.Uint64FromInt64 (Safeint.signed 64) 0 max_uint64 ∧
  Safeint.exact Safeint.Uint64FromInt (Safeint.signed IntSize) 0 max_uint64 ∧
  Safeint.exact Safeint.Int64FromUint64 (Safeint.unsigned 64) min_int64 max_int64 ∧
  Safeint.exact (Safeint.IntFromUint64 IntSize) (Safeint.unsigned 64)
    (- 2 ^ (IntSize - 1)) (2 ^ (IntSize - 1) - 1) ∧
  Safeint.exact (Safeint.IntFromUint32 IntSize) (Safeint.unsigned 32)
    (- 2 ^ (IntSize - 1)) (2 ^ (IntSize - 1) - 1).
Proof.
  unfold Safeint.exact, Safeint.signed, Safeint.unsigned.
  assert (Hw : ∀ v, 0 ≤ v < 2 ^ 63 → Safeint.int64 v = v).
  { intros v Hv. apply wrap64_id, in_range_spec. unfold min_int64, max_int64. lia. }
  unfold max_uint32, max_uint64, max_int64, min_int64.
  destruct Hsize as [->| ->];
  (repeat split; intros; unfold Safeint.Uint32FromInt64, Safeint.Uint32FromInt,
    Safeint.Uint64FromInt64, Safeint.Uint64FromInt, Safeint.Int64FromUint64,
    Safeint.IntFromUint64, Safeint.IntFromUint32, max_uint32, max_int64;
   Safeint.conv; try (by eauto); simpl in *;
   try discriminate;
   rewrite ?Safeint.uint32_id, ?Safeint.uint64_id, ?Safeint.int_of_id, ?Hw in *
     by (unfold Safeint.signed, Safeint.unsigned; simpl; lia);
   first [done | exfalso; lia]).
Qed.

Lemma safeint_exact_witness :
  Safeint.exact (Safeint.IntFromUint32 32) (Safeint.unsigned 32) (- 2 ^ (32 - 1)) (2 ^ (32 - 1) - 1).
Proof. exact (proj2 (proj2 (proj2 (proj2 (proj2 (proj2 (safeint_exact 32 (or_introl eq_refl)))))))). Defined.
