(* ===== verification/Json.v ===== *)
(** [encoding/json] as the server uses it: values of type [any] with
    [UseNumber], [entity.decodeJSON]'s decoder with its nesting limit, string
    unquoting and the encoder behind [json.Marshal], which sorts object keys
    and escapes HTML.  The texts of the decoder's syntax errors are not
    modelled: a failure is [None]. *)

From S2P Require Import Prelude GoStd.
From Stdlib Require Import Ascii.

Local Open Scope Z_scope.

(** A decoded [any]: [json.Number] keeps its text; an object is the list of
    the map's entries, keys distinct. *)
Inductive json :=
  | JNull
  | JBool (b : bool)
  | JNumber (text : string)
  | JString (s : string)
  | JArray (items : list json)
  | JObject (entries : list (string * json)).

Section json_ind.
Variable P : json → Prop.
Hypothesis Hnull : P JNull.
Hypothesis Hbool : ∀ b, P (JBool b).
Hypothesis Hnumber : ∀ t, P (JNumber t).
Hypothesis Hstring : ∀ s, P (JString s).
Hypothesis Harray : ∀ l, Forall P l → P (JArray l).
Hypothesis Hobject : ∀ l, Forall (λ kv, P kv.2) l → P (JObject l).

Fixpoint json_deep_ind (j : json) : P j :=
  match j with
  | JNull => Hnull
  | JBool b => Hbool b
  | JNumber t => Hnumber t
  | JString s => Hstring s
  | JArray l => Harray l
      ((fix go l := match l return Forall P l with
        | [] => Forall_nil_2 _
        | x :: l => Forall_cons_2 _ _ _ (json_deep_ind x) (go l)
        end) l)
  | JObject l => Hobject l
      ((fix go l := match l return Forall (λ kv, P kv.2) l with
        | [] => Forall_nil_2 _
        | x :: l => Forall_cons_2 _ _ _ (json_deep_ind x.2) (go l)
        end) l)
  end.
End json_ind.

(** Assignment into a Go map. *)
Fixpoint alist_set {A} (k : string) (v : A) (l : list (string * A)) :
    list (string * A) :=
  match l with
  | [] => [(k, v)]
  | (k', v') :: l =>
      if bool_decide (k = k') then (k, v) :: l else (k', v') :: alist_set k v l
  end.
Fixpoint alist_get {A} (k : string) (l : list (string * A)) : option A :=
  match l with
  | [] => None
  | (k', v') :: l => if bool_decide (k = k') then Some v' else alist_get k l
  end.

(** ** Scanner *)

(** [json.isSpace] *)
Definition is_ws (c : ascii) : bool :=
  (byte c =? 32) || (byte c =? 9) || (byte c =? 10) || (byte c =? 13).
Fixpoint skip_ws (s : string) : string :=
  match s with
  | String c s' => if is_ws c then skip_ws s' else s
  | _ => s
  end.

Fixpoint take_digits (s : string) : string * string :=
  match s with
  | String c s' =>
      if is_digit c then let '(d, r) := take_digits s' in (String c d, r)
      else ("", s)
  | _ => ("", s)
  end.

Definition take_int (s : string) : option (string * string) :=
  match s with
  | String "0" s' => Some ("0", s')
  | String c _ => if is_digit c then Some (take_digits s) else None
  | _ => None
  end.

Definition take_frac (s : string) : option (string * string) :=
  match s with
  | String "." s' =>
      let '(d, r) := take_digits s' in
      match d with "" => None | _ => Some (String "." d, r) end
  | _ => Some ("", s)
  end.

Definition take_sign (s : string) : string * string :=
  match s with
  | String "+" s' => ("+", s')
  | String "-" s' => ("-", s')
  | _ => ("", s)
  end.

Definition take_exp (s : string) : option (string * string) :=
  match s with
  | String c s' =>
      if (byte c =? 101) || (byte c =? 69) then
        let '(sg, s1) := take_sign s' in
        let '(d, r) := take_digits s1 in
        match d with "" => None | _ => Some (String c "" +:+ sg +:+ d, r) end
      else Some ("", s)
  | _ => Some ("", s)
  end.

(** A number: its text and what follows it. *)
Definition take_number (s : string) : option (string * string) :=
  let '(m, s0) := match s with
                  | String "-" s' => ("-", s') | _ => ("", s) end in
  '(i, s1) ← take_int s0;
  '(f, s2) ← take_frac s1;
  '(e, s3) ← take_exp s2;
  Some (m +:+ i +:+ f +:+ e, s3).

(** ** Strings *)

Definition hex_val (c : ascii) : option Z :=
  if is_digit c then Some (byte c - 48)
  else if in_range 97 102 (byte c) then Some (byte c - 87)
  else if in_range 65 70 (byte c) then Some (byte c - 55)
  else None.

(** Four hexadecimal digits. *)
Definition take_hex4 (s : string) : option (Z * string) :=
  match s with
  | String a (String b (String c (String d r))) =>
      a ← hex_val a; b ← hex_val b; c ← hex_val c; d ← hex_val d;
      Some (a * 4096 + b * 256 + c * 16 + d, r)
  | _ => None
  end.

Definition utf16_pair (hi lo : Z) : option Z :=
  if in_range 55296 56319 hi && in_range 56320 57343 lo
  then Some ((hi - 55296) * 1024 + (lo - 56320) + 65536) else None.

(** [unquote] of a [\u] escape: a valid surrogate pair is one rune, a lone
    surrogate is U+FFFD. *)
Definition take_unicode (s : string) : option (Z * string) :=
  '(r, s1) ← take_hex4 s;
  if in_range 55296 57343 r then
    match s1 with
    | String "\" (String "u" s2) =>
        match take_hex4 s2 with
        | Some (r2, s3) =>
            match utf16_pair r r2 with
            | Some p => Some (p, s3)
            | None => Some (RuneError, s1)
            end
        | None => Some (RuneError, s1)
        end
    | _ => Some (RuneError, s1)
    end
  else Some (r, s1).

Definition quote : ascii := chr 34.
Definition backslash : ascii := chr 92.

Definition simple_escape (c : ascii) : option ascii :=
  if decide (c = quote) then Some quote
  else if decide (c = backslash) then Some backslash
  else if decide (c = "/"%char) then Some "/"%char
  else if decide (c = "b"%char) then Some (chr 8)
  else if decide (c = "f"%char) then Some (chr 12)
  else if decide (c = "n"%char) then Some (chr 10)
  else if decide (c = "r"%char) then Some (chr 13)
  else if decide (c = "t"%char) then Some (chr 9)
  else None.

(** The body of a string, after the opening quote: the unquoted text and what
    follows the closing quote.  Bytes that are not UTF-8 become U+FFFD. *)
Fixpoint string_body (n : nat) (s : string) : option (string * string) :=
  match n, s with
  | S n, String c s' =>
      if decide (c = quote) then Some ("", s')
      else if decide (c = backslash) then
        match s' with
        | String "u" s2 =>
            '(r, s3) ← take_unicode s2;
            '(t, rest) ← string_body n s3;
            Some (encode_rune r +:+ t, rest)
        | String e s2 =>
            x ← simple_escape e;
            '(t, rest) ← string_body n s2;
            Some (String x t, rest)
        | EmptyString => None
        end
      else if byte c <? 32 then None
      else
        let '(r, s2) := decode_rune c s' in
        '(t, rest) ← string_body n s2;
        Some (encode_rune r +:+ t, rest)
  | _, _ => None
  end.

(** ** Values *)

Fixpoint take_literal (lit s : string) : option string :=
  match lit, s with
  | EmptyString, _ => Some s
  | String a lit, String b s => if decide (a = b) then take_literal lit s else None
  | _, _ => None
  end.

(** Skip white space and consume the byte [c]. *)
Definition eat (c : ascii) (s : string) : option string :=
  match skip_ws s with
  | String c' s' => if decide (c' = c) then Some s' else None
  | EmptyString => None
  end.

(** [n] bounds the recursion (twice the length of the text is enough); [d] is
    how many more arrays and objects may be opened: the scanner fails beyond
    [maxNestingDepth] = 10000. *)
Fixpoint scan_value (n : nat) (d : Z) (s : string) {struct n} :
    option (json * string) :=
  match n with
  | O => None
  | S n =>
      match skip_ws s with
      | EmptyString => None
      | String c r =>
          if decide (c = "{"%char) then
            if d <=? 0 then None else
            match eat "}" r with
            | Some r' => Some (JObject [], r')
            | None => scan_members n (d - 1) [] r
            end
          else if decide (c = "["%char) then
            if d <=? 0 then None else
            match eat "]" r with
            | Some r' => Some (JArray [], r')
            | None => scan_elements n (d - 1) r
            end
          else if decide (c = quote) then
            '(t, rest) ← string_body (S (String.length r)) r;
            Some (JString t, rest)
          else if decide (c = "t"%char) then
            rest ← take_literal "true" (String c r); Some (JBool true, rest)
          else if decide (c = "f"%char) then
            rest ← take_literal "false" (String c r); Some (JBool false, rest)
          else if decide (c = "n"%char) then
            rest ← take_literal "null" (String c r); Some (JNull, rest)
          else
            '(t, rest) ← take_number (String c r);
            Some (JNumber t, rest)
      end
  end
(** The elements of an array, after [\[] or a comma. *)
with scan_elements (n : nat) (d : Z) (s : string) {struct n} :
    option (json * string) :=
  match n with
  | O => None
  | S n =>
      '(x, s1) ← scan_value n d s;
      match eat "]" s1 with
      | Some s2 => Some (JArray [x], s2)
      | None =>
          s2 ← eat "," s1;
          '(tl, s3) ← scan_elements n d s2;
          match tl with
          | JArray l => Some (JArray (x :: l), s3)
          | _ => None
          end
      end
  end
(** The members of an object, after [{] or a comma; a later duplicate of a
    key replaces the earlier one. *)
with scan_members (n : nat) (d : Z) (acc : list (string * json)) (s : string)
    {struct n} : option (json * string) :=
  match n with
  | O => None
  | S n =>
      r ← eat quote s;
      '(k, s1) ← string_body (S (String.length r)) r;
      s2 ← eat ":" s1;
      '(x, s3) ← scan_value n d s2;
      let acc := alist_set k x acc in
      match eat "}" s3 with
      | Some s4 => Some (JObject acc, s4)
      | None => s4 ← eat "," s3; scan_members n d acc s4
      end
  end.

Definition max_nesting : Z := 10000.

(** [Decoder.Decode] into an [any]. *)
Definition decode_value (s : string) : option (json * string) :=
  scan_value (2 * String.length s + 2) max_nesting s.

(** ** [json.Marshal] *)

Definition hex_digit (z : Z) : ascii :=
  if z <? 10 then chr (48 + z) else chr (87 + z).

(** [htmlSafeSet] *)
Definition html_safe (c : ascii) : bool :=
  (32 <=? byte c) && (byte c <? 128) && negb (byte c =? 34)
  && negb (byte c =? 92) && negb (byte c =? 60) && negb (byte c =? 62)
  && negb (byte c =? 38).

Definition escape_byte (c : ascii) : string :=
  let esc c := String backslash (String c "") in
  if (byte c =? 34) || (byte c =? 92) then esc c
  else if byte c =? 8 then esc "b"%char
  else if byte c =? 12 then esc "f"%char
  else if byte c =? 10 then esc "n"%char
  else if byte c =? 13 then esc "r"%char
  else if byte c =? 9 then esc "t"%char
  else String backslash ("u00" +:+
         String (hex_digit (byte c / 16)) (String (hex_digit (byte c mod 16)) "")).

Fixpoint escape_body (n : nat) (s : string) : string :=
  match n, s with
  | S n, String c s' =>
      if byte c <? 128 then
        (if html_safe c then String c "" else escape_byte c) +:+ escape_body n s'
      else
        let '(r, rest) := decode_rune c s' in
        (if (r =? RuneError) && bool_decide (rest = s')
         then String backslash "ufffd"
         else if (r =? 8232) || (r =? 8233)
         then String backslash "u202" +:+ String (hex_digit (r mod 16)) ""
         else String.substring 0 (String.length (String c s') - String.length rest)
                (String c s'))
        +:+ escape_body n rest
  | _, _ => ""
  end.

Definition marshal_string (s : string) : string :=
  String quote (escape_body (String.length s) s +:+ String quote "").

(** Object keys are sorted by their bytes. *)
Fixpoint insert_sorted {A} (kv : string * A) (l : list (string * A)) :
    list (string * A) :=
  match l with
  | [] => [kv]
  | kv' :: l' => if String.leb kv.1 kv'.1 then kv :: l
                 else kv' :: insert_sorted kv l'
  end.
Definition sort_entries {A} (l : list (string * A)) : list (string * A) :=
  foldr insert_sorted [] l.

Fixpoint sep_concat (sep : string) (l : list string) : string :=
  match l with
  | [] => ""
  | [x] => x
  | x :: l => x +:+ sep +:+ sep_concat sep l
  end.

Fixpoint marshal (j : json) : string :=
  match j with
  | JNull => "null"
  | JBool true => "true"
  | JBool false => "false"
  | JNumber t => t
  | JString s => marshal_string s
  | JArray l => "[" +:+ sep_concat "," (marshal <$> l) +:+ "]"
  | JObject l =>
      let encoded := (λ '(k, v), (k, marshal v)) <$> l in
      "{" +:+ sep_concat ","
        ((λ '(k, t), marshal_string k +:+ ":" +:+ t) <$> sort_entries encoded)
      +:+ "}"
  end.

(** ** The text that [marshal] produces decodes to the value. *)

Fixpoint nesting (j : json) : Z :=
  match j with
  | JArray l => 1 + foldr (λ x m, Z.max (nesting x) m) 0 l
  | JObject l => 1 + foldr (λ kv m, Z.max (nesting kv.2) m) 0 l
  | _ => 0
  end.

(** Text that is encoded as it is. *)
Definition plain (s : string) : Prop := forall_bytes html_safe s = true.

(** Values in the form in which they are decoded again: plain strings, the
    number the server encodes, and objects whose entries are sorted by distinct
    keys. *)
Inductive canonical : json → Prop :=
  | canonical_null : canonical JNull
  | canonical_bool b : canonical (JBool b)
  | canonical_zero : canonical (JNumber "0")
  | canonical_string s : plain s → canonical (JString s)
  | canonical_array l : Forall canonical l → canonical (JArray l)
  | canonical_object l :
      Forall (λ kv, plain kv.1) l →
      Forall (λ kv, canonical kv.2) l →
      NoDup l.*1 → sort_entries l = l →
      canonical (JObject l).

Definition closes (r : string) : Prop :=
  match r with
  | EmptyString => True
  | String c _ => c = ","%char ∨ c = "]"%char ∨ c = "}"%char
  end.

Lemma app_assoc_s (a b c : string) : (a +:+ b) +:+ c = a +:+ (b +:+ c).
Proof. induction a as [|x a IH]; [done|]. by apply (f_equal (String x)). Qed.

Lemma app_nil_s (a : string) : a +:+ "" = a.
Proof. induction a as [|x a IH]; [done|]. by apply (f_equal (String x)). Qed.

Lemma app_length_s (a b : string) :
  String.length (a +:+ b) = (String.length a + String.length b)%nat.
Proof. induction a as [|x a IH]; [done|]. by apply (f_equal S). Qed.

Lemma html_safe_spec c : html_safe c = true →
  32 <= byte c < 128 ∧ c ≠ quote ∧ c ≠ backslash.
Proof.
  unfold html_safe. intros H. bool_hyps.
  split; [lia|]. split; intros ->; done.
Qed.

Lemma encode_ascii c : byte c < 128 → encode_rune (byte c) = String c "".
Proof.
  intros H. assert (0 <= byte c) by (unfold byte; lia).
  unfold encode_rune.
  assert (in_range 55296 57343 (byte c) = false) as ->.
  { apply not_true_iff_false. rewrite in_range_spec. lia. }
  rewrite (proj2 (Z.ltb_ge (byte c) 0)), (proj2 (Z.ltb_ge 1114111 (byte c))) by lia.
  simpl. rewrite (proj2 (Z.ltb_lt (byte c) 128)) by lia. by rewrite chr_byte.
Qed.

Lemma escape_plain s n : plain s → (String.length s ≤ n)%nat → escape_body n s = s.
Proof.
  revert n. induction s as [|c s IH]; intros n Hp Hn.
  { by destruct n. }
  destruct n as [|n]; simpl in Hn; [lia|].
  unfold plain in Hp. simpl in Hp. apply andb_true_iff in Hp as [Hc Hp].
  pose proof (html_safe_spec c Hc) as (Hb & _). cbn [escape_body].
  rewrite (proj2 (Z.ltb_lt (byte c) 128)), Hc by lia. simpl. f_equal.
  apply IH; [done|lia].
Qed.

Lemma string_body_plain s n r : plain s → (String.length s < n)%nat →
  string_body n (s +:+ String quote r) = Some (s, r).
Proof.
  revert n. induction s as [|c s IH]; intros n Hp Hn;
    (destruct n as [|n]; simpl in Hn; [lia|]).
  { done. }
  unfold plain in Hp. simpl in Hp. apply andb_true_iff in Hp as [Hc Hp].
  pose proof (html_safe_spec c Hc) as (Hb & Hq & Hbs).
  change (String c s +:+ String quote r) with (String c (s +:+ String quote r)).
  cbn [string_body]. rewrite !decide_False by done.
  rewrite (proj2 (Z.ltb_ge (byte c) 32)) by lia.
  unfold decode_rune. rewrite (proj2 (Z.ltb_lt (byte c) 128)) by lia.
  rewrite (IH n Hp) by lia. cbn. by rewrite encode_ascii by lia.
Qed.

Lemma marshal_string_decodes s r : plain s →
  marshal_string s +:+ r = String quote (s +:+ String quote r).
Proof.
  intros Hp. unfold marshal_string. rewrite escape_plain by done.
  change (String quote ?a +:+ ?b) with (String quote (a +:+ b)).
  by rewrite app_assoc_s.
Qed.

Lemma sort_entries_map {A B} (f : A → B) (l : list (string * A)) :
  sort_entries ((λ '(k, v), (k, f v)) <$> l) =
  (λ '(k, v), (k, f v)) <$> sort_entries l.
Proof.
  induction l as [|[k v] l IH]; [done|].
  change (insert_sorted (k, f v) (sort_entries ((λ '(k, v), (k, f v)) <$> l)) =
    (λ '(k, v), (k, f v)) <$> insert_sorted (k, v) (sort_entries l)).
  rewrite IH. generalize (sort_entries l) as m. clear.
  induction m as [|[k' v'] m IH]; [done|]. csimpl.
  destruct (String.leb k k'); [done|]. csimpl. by f_equal.
Qed.

(** The encoded members of an object. *)
Definition member_text (kv : string * json) : string :=
  marshal_string kv.1 +:+ ":" +:+ marshal kv.2.

Lemma marshal_object l : sort_entries l = l →
  marshal (JObject l) = "{" +:+ sep_concat "," (member_text <$> l) +:+ "}".
Proof.
  intros Hs. cbn [marshal].
  rewrite (sort_entries_map marshal l), Hs, <-list_fmap_compose.
  f_equal. f_equal. f_equal. apply list_fmap_ext. by intros ? [k v] ?.
Qed.

Lemma alist_set_fresh {A} k (v : A) l : k ∉ l.*1 → alist_set k v l = l ++ [(k, v)].
Proof.
  induction l as [|[k' v'] l IH]; intros Hk; [done|]. csimpl in *.
  apply not_elem_of_cons in Hk as [Hne Hk].
  rewrite bool_decide_false by done. by rewrite IH.
Qed.

(** The first byte of an encoded value is neither white space nor closing. *)
Lemma marshal_head j : canonical j → ∃ c s, marshal j = String c s ∧
  is_ws c = false ∧ c ≠ "]"%char ∧ c ≠ "}"%char ∧ c ≠ ","%char.
Proof.
  destruct 1 as [|[]| | | |l ? ? ? Hs]; [by eauto 10..|].
  rewrite marshal_object by done. by eauto 10.
Qed.

Lemma skip_ws_marshal j r : canonical j →
  skip_ws (marshal j +:+ r) = marshal j +:+ r.
Proof.
  intros (c & s & -> & Hw & _)%marshal_head.
  change (String c s +:+ r) with (String c (s +:+ r)). simpl. by rewrite Hw.
Qed.

(** What [scan_value] does on the encoding of [j], for every sufficient fuel. *)
Definition decodes (j : json) : Prop := ∀ n d r,
  nesting j ≤ d → (2 * String.length (marshal j) < n)%nat → closes r →
  scan_value n d (marshal j +:+ r) = Some (j, r).

Definition max_nest {A} (f : A → json) (l : list A) : Z :=
  foldr (λ x m, Z.max (nesting (f x)) m) 0 l.

Lemma nesting_nonneg j : 0 ≤ nesting j.
Proof.
  induction j using json_deep_ind; simpl; try lia;
    match goal with H : Forall _ _ |- _ => induction H; simpl; lia end.
Qed.

Lemma app_cons_s c (a b : string) : String c a +:+ b = String c (a +:+ b).
Proof. done. Qed.

Lemma app_empty_s (b : string) : "" +:+ b = b.
Proof. done. Qed.

Lemma eat_hit c s : is_ws c = false → eat c (String c s) = Some s.
Proof. intros H. unfold eat. simpl. rewrite H. by rewrite decide_True. Qed.

Lemma eat_miss c c' s : is_ws c' = false → c' ≠ c → eat c (String c' s) = None.
Proof. intros H Hne. unfold eat. simpl. rewrite H. by rewrite decide_False. Qed.

Lemma eat_marshal c j r : canonical j → c = "]"%char ∨ c = "}"%char →
  eat c (marshal j +:+ r) = None.
Proof.
  intros (c' & s & -> & Hw & H1 & H2 & _)%marshal_head Hc.
  rewrite app_cons_s. apply eat_miss; [done|]. by destruct Hc as [->| ->].
Qed.

Lemma elements_marshal l n d r :
  l ≠ [] → Forall decodes l → max_nest id l ≤ d →
  (2 * String.length (sep_concat "," (marshal <$> l)) + 1 < n)%nat →
  scan_elements n d (sep_concat "," (marshal <$> l) +:+ String "]" r) = Some (JArray l, r).
Proof.
  revert n. induction l as [|x l IH]; [done|].
  intros n _ [Hdx Hdl]%Forall_cons Hd Hn.
  destruct n as [|n]; [lia|]. cbn [scan_elements].
  unfold max_nest in Hd. simpl in Hd.
  destruct l as [|y l].
  - cbn [fmap list_fmap sep_concat] in *.
    rewrite (Hdx n d) by first [done | simpl; tauto | lia]. cbn [mbind option_bind].
    by rewrite eat_hit.
  - change (sep_concat "," (marshal <$> (x :: y :: l))) with
      (marshal x +:+ "," +:+ sep_concat "," (marshal <$> (y :: l))) in *.
    rewrite !app_length_s in Hn. simpl String.length in Hn at 2.
    rewrite !app_assoc_s, app_cons_s, app_empty_s.
    rewrite (Hdx n d) by first [done | simpl; tauto | lia].
    cbn [mbind option_bind]. rewrite eat_miss, eat_hit by done.
    cbn [mbind option_bind].
    rewrite IH; [done|done|done|unfold max_nest; simpl in *; lia|lia].
Qed.

Lemma member_text_head kv r : plain kv.1 →
  member_text kv +:+ r =
  String quote (kv.1 +:+ String quote (String ":" (marshal kv.2 +:+ r))).
Proof.
  intros Hp. unfold member_text. rewrite !app_assoc_s.
  by rewrite marshal_string_decodes.
Qed.

Lemma member_text_length kv : plain kv.1 →
  String.length (member_text kv) =
  (3 + String.length kv.1 + String.length (marshal kv.2))%nat.
Proof.
  intros Hp. rewrite <-(app_nil_s (member_text kv)), member_text_head by done.
  simpl. rewrite app_length_s. simpl. rewrite app_length_s. simpl. lia.
Qed.

(** One member, up to what follows its value. *)
Lemma members_step kv acc n d r : plain kv.1 → decodes kv.2 → kv.1 ∉ acc.*1 →
  nesting kv.2 ≤ d → (2 * String.length (member_text kv) < n)%nat → closes r →
  scan_members (S n) d acc (member_text kv +:+ r) =
  (let acc := acc ++ [kv] in
   match eat "}" r with
   | Some s4 => Some (JObject acc, s4)
   | None => s4 ← eat "," r; scan_members n d acc s4
   end).
Proof.
  destruct kv as [k x]. simpl fst. simpl snd. intros Hp Hdx Hk Hd Hn Hr.
  rewrite member_text_length in Hn by done. simpl in Hn.
  rewrite member_text_head by done. cbn [scan_members]. rewrite eat_hit by done.
  cbn [mbind option_bind].
  rewrite string_body_plain by (rewrite ?app_length_s; simpl; done || lia).
  cbn [mbind option_bind]. rewrite eat_hit by done. cbn [mbind option_bind].
  rewrite (Hdx n d) by (done || lia). cbn [mbind option_bind].
  by rewrite alist_set_fresh.
Qed.

Lemma members_marshal l acc n d r :
  l ≠ [] → Forall (λ kv, plain kv.1) l → Forall (λ kv, decodes kv.2) l →
  NoDup (acc ++ l).*1 → max_nest snd l ≤ d →
  (2 * String.length (sep_concat "," (member_text <$> l)) + 1 < n)%nat →
  scan_members n d acc (sep_concat "," (member_text <$> l) +:+ String "}" r) =
  Some (JObject (acc ++ l), r).
Proof.
  revert acc n. induction l as [|kv l IH]; [done|].
  intros acc n _ [Hp Hpl]%Forall_cons [Hdx Hdl]%Forall_cons Hnd Hd Hn.
  unfold max_nest in Hd. simpl in Hd.
  assert (kv.1 ∉ acc.*1) as Hk.
  { rewrite fmap_app in Hnd. apply NoDup_app in Hnd as (_ & Hnd & _).
    intros Hin. apply (Hnd _ Hin). by left. }
  destruct n as [|n]; [lia|].
  destruct l as [|y l].
  - cbn [fmap list_fmap sep_concat] in *.
    rewrite members_step by first [done | simpl; tauto | lia]. cbv zeta.
    by rewrite eat_hit.
  - change (sep_concat "," (member_text <$> (kv :: y :: l))) with
      (member_text kv +:+ "," +:+ sep_concat "," (member_text <$> (y :: l))) in *.
    rewrite !app_length_s in Hn. simpl String.length in Hn at 2.
    rewrite !app_assoc_s, app_cons_s, app_empty_s.
    rewrite members_step by first [done | simpl; tauto | lia]. cbv zeta.
    rewrite eat_miss, eat_hit by done. cbn [mbind option_bind].
    rewrite (IH (acc ++ [kv]) n);
      [by rewrite <-app_assoc|done|done|done|by rewrite <-app_assoc| |lia].
    unfold max_nest. simpl in *. lia.
Qed.

Lemma max_nest_nonneg {A} (f : A → json) l : 0 ≤ max_nest f l.
Proof. induction l; simpl; lia. Qed.

Lemma value_open c r n d : c = "{"%char ∨ c = "["%char → 0 < d →
  scan_value (S n) d (String c r) =
  if decide (c = "{"%char) then
    match eat "}" r with
    | Some r' => Some (JObject [], r')
    | None => scan_members n (d - 1) [] r
    end
  else
    match eat "]" r with
    | Some r' => Some (JArray [], r')
    | None => scan_elements n (d - 1) r
    end.
Proof.
  intros Hc Hd. cbn [scan_value]. destruct Hc as [->| ->]; simpl;
    by rewrite (proj2 (Z.leb_gt d 0)) by lia.
Qed.

Lemma value_marshal j : canonical j → decodes j.
Proof.
  induction j as [|b|t|s|l IH|l IH] using json_deep_ind;
    intros Hc n d r Hd Hn Hr; inversion Hc as [| | |? Hp|? Hl|? Hp Hl Hnd Hs]; subst;
    (destruct n as [|n]; [lia|]).
  - done.
  - by destruct b.
  - destruct r as [|c r]; [done|]. by destruct Hr as [->|[->| ->]].
  - cbn [marshal]. rewrite marshal_string_decodes by done. cbn [scan_value].
    change (skip_ws (String quote ?s)) with (String quote s). cbv iota.
    rewrite string_body_plain by (rewrite ?app_length_s; simpl; done || lia). done.
  - assert (Forall decodes l) as Hdl.
    { rewrite Forall_forall in *. naive_solver. }
    cbn [marshal nesting] in *. rewrite !app_length_s in Hn.
    change (foldr _ 0 l) with (max_nest id l) in Hd.
    pose proof (max_nest_nonneg id l) as Hnn. simpl String.length in Hn.
    rewrite !app_assoc_s, app_cons_s, !app_empty_s.
    rewrite value_open by (auto || lia). rewrite decide_False by done.
    destruct l as [|x l]; [done|].
    rewrite (app_cons_s _ "" r), app_empty_s.
    rewrite elements_marshal by (done || lia).
    destruct (marshal_head x) as (c & s & Hx & Hw & Hne & _).
    { by apply Forall_cons in Hl as [? _]. }
    assert (∃ t, sep_concat "," (marshal <$> (x :: l)) = String c t) as [t ->].
    { cbn [fmap list_fmap]. rewrite Hx. destruct l; eexists; [done|]; reflexivity. }
    rewrite app_cons_s. by rewrite eat_miss.
  - assert (Forall (λ kv, decodes kv.2) l) as Hdl.
    { rewrite Forall_forall in *. naive_solver. }
    rewrite marshal_object in * by done. cbn [nesting] in *.
    rewrite !app_length_s in Hn.
    change (foldr _ 0 l) with (max_nest snd l) in Hd.
    pose proof (max_nest_nonneg snd l) as Hnn. simpl String.length in Hn.
    rewrite !app_assoc_s, app_cons_s, !app_empty_s.
    rewrite value_open by (auto || lia). rewrite decide_True by done.
    destruct l as [|x l]; [done|].
    rewrite (app_cons_s _ "" r), app_empty_s.
    rewrite members_marshal by (done || lia).
    assert (∃ t, sep_concat "," (member_text <$> (x :: l)) = String quote t) as [t ->].
    { cbn [fmap list_fmap]. apply Forall_cons in Hp as [Hp _].
      destruct l; eexists; [|reflexivity].
      cbn [sep_concat]. rewrite <-(app_nil_s (member_text x)).
      by rewrite member_text_head by done. }
    rewrite app_cons_s. by rewrite eat_miss.
Qed.

(** [json.Marshal] followed by the decoder is the identity. *)
Lemma decode_marshal j : canonical j → nesting j ≤ max_nesting →
  decode_value (marshal j) = Some (j, "").
Proof.
  intros Hc Hd. unfold decode_value.
  rewrite <-(app_nil_s (marshal j)) at 2. apply value_marshal; [done|done| |done].
  lia.
Qed.
