(* ===== verification/GoStrings.v ===== *)
(** The functions of package [strings] that several components use, with their
    laws; [strconv.ParseFloat] on JSON numbers, and [time.Parse] on the layouts
    of the configuration value types. *)

From S2P Require Import Prelude GoStd Json.
From Stdlib Require Import Ascii.

Local Open Scope Z_scope.

(** [strings.Cut]: around the first occurrence of a byte. *)
Fixpoint cut (sep : ascii) (s : string) : option (string * string) :=
  match s with
  | EmptyString => None
  | String c s =>
      if decide (c = sep) then Some ("", s)
      else '(a, b) ← cut sep s; Some (String c a, b)
  end.

Fixpoint count_byte (sep : ascii) (s : string) : Z :=
  match s with
  | EmptyString => 0
  | String c s => (if decide (c = sep) then 1 else 0) + count_byte sep s
  end.

(** [strings.CutPrefix] *)
Fixpoint cut_prefix (p s : string) : option string :=
  match p, s with
  | EmptyString, _ => Some s
  | String a p, String b s => if decide (a = b) then cut_prefix p s else None
  | _, _ => None
  end.

(** ** [strings.Split] by a byte *)

Fixpoint split_on (sep : ascii) (s : string) : list string :=
  match s with
  | EmptyString => [""]
  | String c s =>
      if decide (c = sep) then "" :: split_on sep s
      else match split_on sep s with
           | x :: l => String c x :: l
           | [] => [String c ""]
           end
  end.

(** [strings.ContainsAny] with ASCII characters, [strings.TrimSuffix] *)
Definition contains_any (l : list ascii) (s : string) : bool :=
  existsb (λ c, 0 <? count_byte c s) l.
Definition trim_suffix (s suffix : string) : string :=
  let n := (String.length s - String.length suffix)%nat in
  if decide (s = String.substring 0 n s +:+ suffix) then String.substring 0 n s else s.

(** ** Mapping and letter case *)

Fixpoint map_bytes (f : ascii → ascii) (s : string) : string :=
  match s with EmptyString => "" | String c s => String (f c) (map_bytes f s) end.

Definition lower_char (c : ascii) : ascii := if is_upper c then chr (byte c + 32) else c.
(** [unicode.ToLower] beyond ASCII. *)
Class UnicodeLower := unicode_lower : Z → Z.
Definition rune_lower `{UnicodeLower} (r : Z) : Z :=
  if r <? 128 then (if in_range 65 90 r then r + 32 else r) else unicode_lower r.
Definition to_lower `{UnicodeLower} (s : string) : string :=
  foldr (λ r acc, encode_rune (rune_lower r) +:+ acc) "" (runes s).

(** ** [strings.Fields] *)

(** [field] is the text since the last white space. *)
Fixpoint fields_fuel (n : nat) (field s : string) : list string :=
  let flush := if decide (field = "") then [] else [field] in
  match n, s with
  | S n, String c s' =>
      let '(r, rest) := decode_rune c s' in
      let width := (String.length s - String.length rest)%nat in
      if unicode_is_space r then flush ++ fields_fuel n "" rest
      else fields_fuel n (field +:+ String.substring 0 width s) rest
  | _, _ => flush
  end.
Definition fields (s : string) : list string := fields_fuel (String.length s) "" s.

(** ** Laws *)

Lemma forall_bytes_app p a b : forall_bytes p (a +:+ b) = forall_bytes p a && forall_bytes p b.
Proof. induction a as [|c a IH]; simpl; [done|]. by rewrite IH, andb_assoc. Qed.

Lemma count_nonneg c s : 0 ≤ count_byte c s.
Proof. induction s as [|x s IH]; simpl; [done|]. case_decide; lia. Qed.
Lemma count_app c a b : count_byte c (a +:+ b) = count_byte c a + count_byte c b.
Proof. induction a as [|x a IH]; simpl; [done|]. rewrite IH. lia. Qed.

Lemma count_same c s : count_byte c (String c s) = 1 + count_byte c s.
Proof. simpl. by rewrite decide_True. Qed.

Lemma cut_app c a b : count_byte c a = 0 → cut c (a +:+ String c b) = Some (a, b).
Proof.
  induction a as [|x a IH]; simpl; [by rewrite decide_True|].
  pose proof (count_nonneg c a). case_decide; [lia|]. intros Ha. by rewrite IH.
Qed.
Lemma cut_Some c s a b : cut c s = Some (a, b) → s = a +:+ String c b.
Proof.
  revert a. induction s as [|x s IH]; intros a; simpl; [done|].
  case_decide; [intros [= <- <-]; by subst|].
  destruct (cut c s) as [[a' b']|]; [|done]. intros [= <- <-]. simpl. by rewrite (IH a').
Qed.
Lemma cut_prefix_app p s : cut_prefix p (p +:+ s) = Some s.
Proof. induction p as [|c p IH]; simpl; [done|]. by rewrite decide_True. Qed.
Lemma cut_prefix_Some p s r : cut_prefix p s = Some r → s = p +:+ r.
Proof.
  revert s. induction p as [|c p IH]; intros s Hs; [by injection Hs|].
  destruct s as [|c' s]; [done|]. simpl in Hs. case_decide; [|done]. subst.
  by rewrite (IH s), app_cons_s.
Qed.

Lemma split_on_last c s : count_byte c s = 0 → split_on c s = [s].
Proof.
  induction s as [|x s IH]; simpl; [done|]. pose proof (count_nonneg c s).
  case_decide; [lia|]. intros Hs. by rewrite IH.
Qed.
Lemma split_on_app c a b : count_byte c a = 0 →
  split_on c (a +:+ String c b) = a :: split_on c b.
Proof.
  induction a as [|x a IH]; simpl; [by rewrite decide_True|]. pose proof (count_nonneg c a).
  case_decide; [lia|]. intros Ha. by rewrite IH.
Qed.
Lemma count_none c p s : forall_bytes p s = true → p c = false → count_byte c s = 0.
Proof.
  intros Hs Hc. induction s as [|x s IH]; simpl in *; [done|].
  apply andb_true_iff in Hs as [Hx Hs]. rewrite IH by done. case_decide; [congruence|done].
Qed.

(** ASCII texts without white space are not trimmed. *)
Definition dense (c : ascii) : bool := (byte c <? 128) && negb (unicode_is_space (byte c)).

Lemma decode_dense c s : dense c = true → decode_rune c s = (byte c, s).
Proof. unfold dense, decode_rune. intros [-> _]%andb_true_iff. done. Qed.

Lemma trim_right_dense n s : forall_bytes dense s = true → (String.length s ≤ n)%nat →
  trim_right_fuel n s = s.
Proof.
  revert s. induction n as [|n IH]; intros [|c s] Hs Hn; simpl in *; try done; [lia|].
  apply andb_true_iff in Hs as [Hc Hs]. rewrite decode_dense by done.
  rewrite IH by (done || lia). unfold dense in Hc. bool_hyps.
  replace (S (String.length s) - String.length s)%nat with 1%nat by lia.
  destruct s as [|c' s]; [|done].
  by match goal with Hx : unicode_is_space _ = false |- _ => rewrite Hx end.
Qed.

Lemma trim_left_dense n s : forall_bytes dense s = true → trim_left_fuel n s = s.
Proof.
  destruct n as [|n], s as [|c s]; try done. simpl. intros Hs. bool_hyps.
  rewrite decode_dense by done. unfold dense in *. bool_hyps.
  by match goal with Hx : unicode_is_space _ = false |- _ => rewrite Hx end.
Qed.

Lemma trim_space_dense s : forall_bytes dense s = true → trim_space s = s.
Proof.
  intros Hs. unfold trim_space, trim_left. rewrite trim_left_dense by done.
  by apply trim_right_dense.
Qed.
(** Nor is the text after white space that begins it. *)
Lemma trim_space_front s : forall_bytes dense s = true → trim_space (String " " s) = s.
Proof.
  intros Hs. unfold trim_space, trim_left. simpl. rewrite trim_left_dense by done.
  by apply trim_right_dense.
Qed.

Lemma split_on_cons c s : ∃ x l, split_on c s = x :: l.
Proof.
  destruct s as [|d s]; simpl; [eauto|]. case_decide; [eauto|].
  destruct (split_on c s); eauto.
Qed.
Lemma split_on_sep c a b : split_on c (a +:+ String c b) = split_on c a ++ split_on c b.
Proof.
  induction a as [|d a IH]; simpl; [by rewrite decide_True|]. case_decide; [by rewrite IH|].
  rewrite IH. destruct (split_on_cons c a) as (x & l & ->). done.
Qed.

(** ** [strconv.ParseFloat(text, 64)] *)

(** The exponent as [readFloat] accumulates it: it stops growing once it has
    reached 10000. *)
Fixpoint read_exp (e : Z) (s : string) : Z :=
  match s with
  | EmptyString => e
  | String c s => read_exp (if e <? 10000 then e * 10 + (byte c - 48) else e) s
  end.

(** Mantissa and decimal exponent of a JSON number. *)
Definition read_float (s : string) : option (Z * Z) :=
  let s0 := match s with String "-" s' => s' | _ => s end in
  '(i, s1) ← take_int s0;
  '(f, s2) ← take_frac s1;
  '(e, s3) ← take_exp s2;
  if decide (s3 = "") then
    let frac := match f with String _ d => d | _ => "" end in
    m ← parse_digits 0 (i +:+ frac);
    let x := match e with
             | String _ e => match take_sign e with
                             | (String "-" _, d) => - read_exp 0 d
                             | (_, d) => read_exp 0 d
                             end
             | _ => 0
             end in
    Some (m, x - len frac)
  else None.

(** Half a unit in the last place above the largest [float64]: from there on
    rounding yields an infinity, which is [ErrRange]. *)
Definition float_overflow : Z := 2 ^ 1024 - 2 ^ 970.

Definition parse_float_ok (s : string) : bool :=
  match read_float s with
  | None => false
  | Some (m, x) =>
      (m =? 0) ||
      (if 0 <=? x then m * 10 ^ x <? float_overflow
       else m <? float_overflow * 10 ^ (- x))
  end.

Example float_zero : parse_float_ok "0" = true. Proof. reflexivity. Qed.
Example float_ok : parse_float_ok "-12.5e+3" = true. Proof. reflexivity. Qed.
Example float_max : parse_float_ok "1.7976931348623157e308" = true.
Proof. reflexivity. Qed.
Example float_range : parse_float_ok "1e309" = false. Proof. reflexivity. Qed.

(** ** [time.Parse] *)

(** The elements of a layout; a literal holds no space, [Space] is the layout's
    single space. *)
Inductive chunk :=
  | Lit (c : ascii) | Space
  | LongYear | ZeroMonth | ZeroDay | Hour | ZeroMinute | ZeroSecond | Zone.

Definition date_layout : list chunk :=     (* "2006-01-02" *)
  [LongYear; Lit "-"; ZeroMonth; Lit "-"; ZeroDay].
Definition time_layout : list chunk :=     (* "15:04:05" *)
  [Hour; Lit ":"; ZeroMinute; Lit ":"; ZeroSecond].
Definition datetime_layout : list chunk := (* "2006-01-02 15:04:05" *)
  date_layout ++ [Space] ++ time_layout.

Definition rfc3339_layout : list chunk :=  (* "2006-01-02T15:04:05Z07:00" *)
  date_layout ++ [Lit "T"] ++ time_layout ++ [Zone].

Fixpoint cut_space (s : string) : string :=
  match s with String " " s' => cut_space s' | _ => s end.

(** [getnum] *)
Definition getnum (fixed : bool) (s : string) : option (Z * string) :=
  match s with
  | String a s1 =>
      if is_digit a then
        match s1 with
        | String b s2 =>
            if is_digit b then Some ((byte a - 48) * 10 + (byte b - 48), s2)
            else if fixed then None else Some (byte a - 48, s1)
        | _ => if fixed then None else Some (byte a - 48, s1)
        end
      else None
  | _ => None
  end.

Definition get_year (s : string) : option (Z * string) :=
  match s with
  | String a (String b (String c (String d r))) =>
      y ← parse_digits 0 (String a (String b (String c (String d ""))));
      Some (y, r)
  | _ => None
  end.

(** A fraction after the seconds is accepted although no layout has one. *)
Definition skip_fraction (s : string) : string :=
  match s with
  | String p (String a r) =>
      if (bool_decide (p = "."%char) || bool_decide (p = ","%char)) && is_digit a
      then (take_digits (String a r)).2 else s
  | _ => s
  end.

Record clock_fields := { cf_year : Z; cf_month : Z; cf_day : Z }.

Definition within (lo hi : Z) (r : option (Z * string)) : option (Z * string) :=
  '(n, s) ← r; if in_range lo hi n then Some (n, s) else None.

(** A zone is Z or an offset, of at most 24 hours and 60 minutes. *)
Definition get_zone (s : string) : option string :=
  match s with
  | String "Z" r => Some r
  | String sign (String a (String b (String ":" (String c (String d r))))) =>
      if bool_decide (sign = "+"%char) || bool_decide (sign = "-"%char) then
        _ ← within 0 24 (getnum true (String a (String b "")));
        _ ← within 0 60 (getnum true (String c (String d "")));
        Some r
      else None
  | _ => None
  end.

Fixpoint parse_chunks (l : list chunk) (f : clock_fields) (s : string) :
    option clock_fields :=
  match l with
  | [] => if decide (s = "") then Some f else None
  | Lit c :: l =>
      match s with
      | String c' s' => if decide (c = c') then parse_chunks l f s' else None
      | _ => None
      end
  | Space :: l =>
      match s with
      | String " " _ | "" => parse_chunks l f (cut_space s)
      | _ => None
      end
  | LongYear :: l => '(y, s) ← get_year s;
      parse_chunks l {| cf_year := y; cf_month := cf_month f; cf_day := cf_day f |} s
  | ZeroMonth :: l => '(m, s) ← within 1 12 (getnum true s);
      parse_chunks l {| cf_year := cf_year f; cf_month := m; cf_day := cf_day f |} s
  | ZeroDay :: l => '(d, s) ← getnum true s;
      parse_chunks l {| cf_year := cf_year f; cf_month := cf_month f; cf_day := d |} s
  | Hour :: l => '(_, s) ← within 0 23 (getnum false s); parse_chunks l f s
  | ZeroMinute :: l => '(_, s) ← within 0 59 (getnum true s); parse_chunks l f s
  | ZeroSecond :: l => '(_, s) ← within 0 59 (getnum true s);
      parse_chunks l f (skip_fraction s)
  | Zone :: l => s ← get_zone s; parse_chunks l f s
  end.

Definition is_leap (y : Z) : bool :=
  (y mod 4 =? 0) && (negb (y mod 100 =? 0) || (y mod 400 =? 0)).
Definition days_in (m y : Z) : Z :=
  if m =? 2 then (if is_leap y then 29 else 28)
  else if (m =? 4) || (m =? 6) || (m =? 9) || (m =? 11) then 30 else 31.

(** [_, err := time.Parse(layout, text); err == nil] *)
Definition time_parse_ok (layout : list chunk) (text : string) : bool :=
  match parse_chunks layout {| cf_year := 0; cf_month := 1; cf_day := 1 |} text with
  | Some f => in_range 1 (days_in (cf_month f) (cf_year f)) (cf_day f)
  | None => false
  end.

Example date_ok : time_parse_ok date_layout "2024-02-29" = true. Proof. reflexivity. Qed.
Example date_bad : time_parse_ok date_layout "2023-02-29" = false. Proof. reflexivity. Qed.
Example time_ok : time_parse_ok time_layout "9:05:07.25" = true. Proof. reflexivity. Qed.
Example datetime_ok : time_parse_ok datetime_layout "2024-01-31   23:59:59" = true.
Proof. reflexivity. Qed.
Example instant_ok : time_parse_ok rfc3339_layout "2024-02-29T12:34:56.789+02:00" = true.
Proof. reflexivity. Qed.
Example instant_bad : time_parse_ok rfc3339_layout "2024-02-29T12:34:56" = false.
Proof. reflexivity. Qed.
Example datetime_bad : time_parse_ok datetime_layout "2024-01-31" = false.
Proof. reflexivity. Qed.

(** ** Runes beyond ASCII *)

Lemma lor_high a b : 0 ≤ a → 0 ≤ b → 128 ≤ a ∨ 128 ≤ b → 128 ≤ Z.lor a b.
Proof.
  intros Ha Hb Hab. change 128 with (2 ^ 7) in *.
  assert (0 ≤ Z.lor a b) as Hn by (apply Z.lor_nonneg; lia).
  assert (Z.lor a b ≠ 0) as Hz by (intros [? ?]%Z.lor_eq_0_iff; lia).
  apply Z.log2_le_pow2; [lia|]. rewrite Z.log2_lor by lia.
  destruct Hab as [Hx|Hx]; apply Z.log2_le_pow2 in Hx; lia.
Qed.
Lemma low6_spec c : low6 c = byte c mod 64.
Proof. unfold low6. by rewrite (Z.land_ones _ 6). Qed.

Lemma shift_high a n : 0 ≤ a → 0 ≤ n → 128 ≤ a * 2 ^ n → 128 ≤ Z.shiftl a n.
Proof. intros. by rewrite Z.shiftl_mul_pow2. Qed.

Lemma decode_high c s r rest : 128 ≤ byte c → decode_rune c s = (r, rest) → 128 ≤ r.
Proof.
  intros Hc. unfold decode_rune, RuneError. destruct (Z.ltb_spec (byte c) 128); [lia|].
  destruct (in_range 194 223 (byte c)) eqn:H2; [|destruct (in_range 224 239 (byte c)) eqn:H3;
    [|destruct (in_range 240 244 (byte c)) eqn:H4]].
  - destruct s as [|c1 s]; [by intros [= <- _]|].
    destruct (cont 128 191 c1); intros [= <- _]; [|done]. apply in_range_spec in H2.
    apply lor_high; [apply Z.shiftl_nonneg, Z.land_nonneg; lia|
      rewrite low6_spec; apply Z.mod_pos_bound; lia|]. left.
    apply shift_high; [apply Z.land_nonneg; lia|done|]. change 31 with (Z.ones 5).
    rewrite Z.land_ones by done. change (2 ^ 5) with 32. 
    assert (byte c mod 32 = byte c - 192) as ->; [|lia].
    symmetry. apply (Z.mod_unique_pos _ _ 6); lia.
  - destruct s as [|c1 [|c2 s]]; [by intros [= <- _]..|].
    destruct (cont _ _ c1 && cont 128 191 c2) eqn:Hk; intros [= <- _]; [|done].
    apply in_range_spec in H3. apply andb_true_iff in Hk as [Hk _]. unfold cont in Hk.
    apply in_range_spec in Hk. rewrite !low6_spec.
    assert (∀ x, 0 ≤ byte x mod 64) as Hm by (intros x; apply Z.mod_pos_bound; lia).
    apply lor_high; [apply Z.shiftl_nonneg, Z.land_nonneg; lia|
      apply Z.lor_nonneg; split; [apply Z.shiftl_nonneg|]; apply Hm|].
    change 15 with (Z.ones 4). rewrite Z.land_ones by done. change (2 ^ 4) with 16.
    assert (byte c mod 16 = byte c - 224) as ->
      by (symmetry; apply (Z.mod_unique_pos _ _ 14); lia).
    destruct (Z.eqb_spec (byte c) 224) as [Heq|Hne]; [rewrite Heq in *|].
    + right. apply lor_high; [apply Z.shiftl_nonneg; apply Hm|apply Hm|]. left.
      apply shift_high; [apply Hm|done|].
      assert (byte c1 mod 64 = byte c1 - 128) as ->
        by (symmetry; apply (Z.mod_unique_pos _ _ 2); simpl in Hk; lia).
      lia.
    + left. apply shift_high; [lia|done|lia].
  - destruct s as [|c1 [|c2 [|c3 s]]]; [by intros [= <- _]..|].
    destruct (cont _ _ c1 && _ && _) eqn:Hk; intros [= <- _]; [|done].
    apply in_range_spec in H4. apply andb_true_iff in Hk as [[Hk _]%andb_true_iff _].
    unfold cont in Hk. apply in_range_spec in Hk. rewrite !low6_spec.
    assert (∀ x, 0 ≤ byte x mod 64) as Hm by (intros x; apply Z.mod_pos_bound; lia).
    assert (∀ x y n, 0 ≤ n → 0 ≤ Z.lor (Z.shiftl (byte x mod 64) n) (byte y mod 64)) as Hm2
      by (intros; apply Z.lor_nonneg; split; [apply Z.shiftl_nonneg|]; apply Hm).
    apply lor_high; [apply Z.shiftl_nonneg, Z.land_nonneg; lia|
      apply Z.lor_nonneg; split; [apply Z.shiftl_nonneg; apply Hm|by apply Hm2]|].
    change 7 with (Z.ones 3). rewrite Z.land_ones by done. change (2 ^ 3) with 8.
    assert (byte c mod 8 = byte c - 240) as ->
      by (symmetry; apply (Z.mod_unique_pos _ _ 30); lia).
    destruct (Z.eqb_spec (byte c) 240) as [Heq|Hne]; [rewrite Heq in *|].
    + right. apply lor_high; [apply Z.shiftl_nonneg; apply Hm|by apply Hm2|]. left.
      apply shift_high; [apply Hm|done|].
      assert (byte c1 mod 64 = byte c1 - 128) as ->
        by (symmetry; apply (Z.mod_unique_pos _ _ 2); simpl in Hk; lia).
      lia.
    + left. apply shift_high; [lia|done|lia].
  - by intros [= <- _].
Qed.

Lemma decode_rune_ascii c s : byte c < 128 → decode_rune c s = (byte c, s).
Proof. intros Hc. unfold decode_rune. by rewrite (proj2 (Z.ltb_lt _ _) Hc). Qed.

(** A test that only ASCII runes pass can be made on the bytes. *)
Lemma runes_fuel_ascii (p : Z → bool) n s : (∀ r, p r = true → r < 128) →
  (String.length s ≤ n)%nat → forallb p (runes_fuel n s) = forall_bytes (λ c, p (byte c)) s.
Proof.
  intros Hp. revert s. induction n as [|n IH]; intros [|c s] Hn; simpl in *; try done; [lia|].
  destruct (Z.ltb_spec (byte c) 128) as [Hc|Hc].
  - rewrite decode_rune_ascii by done. simpl. by rewrite IH by lia.
  - assert (p (byte c) = false) as -> by (apply not_true_iff_false; intros ?%Hp; lia).
    destruct (decode_rune c s) as [r rest] eqn:Hr. apply decode_high in Hr; [|done]. simpl.
    assert (p r = false) as -> by (apply not_true_iff_false; intros ?%Hp; lia). done.
Qed.
Lemma runes_ascii (p : Z → bool) s : (∀ r, p r = true → r < 128) →
  forallb p (runes s) = forall_bytes (λ c, p (byte c)) s.
Proof. intros Hp. by apply runes_fuel_ascii. Qed.

(** ** Lower case of ASCII text *)

Definition ascii_byte (c : ascii) : bool := byte c <? 128.
Definition lower_ascii (c : ascii) : bool := ascii_byte c && negb (is_upper c).

Lemma to_lower_bytes `{UnicodeLower} s : forall_bytes ascii_byte s = true →
  to_lower s = map_bytes lower_char s.
Proof.
  unfold to_lower, runes. generalize (Nat.le_refl (String.length s)).
  generalize (String.length s) at 2 3 as n. revert s.
  intros s n. revert s. induction n as [|n IH]; intros [|c s] Hn; simpl in *; try done; [lia|].
  intros [Hc Hs]%andb_true_iff. unfold ascii_byte in Hc. bool_hyps.
  rewrite decode_rune_ascii by lia. simpl. rewrite IH by (done || lia).
  unfold rune_lower, lower_char, is_upper. rewrite (proj2 (Z.ltb_lt _ _)) by lia.
  destruct (in_range 65 90 (byte c)) eqn:Hu; [|by rewrite encode_ascii by lia].
  apply in_range_spec in Hu. rewrite <-(byte_chr (byte c + 32)), encode_ascii at 1;
    rewrite ?byte_chr; done || lia.
Qed.

Lemma lower_char_lower c : ascii_byte c = true → lower_ascii (lower_char c) = true.
Proof.
  unfold ascii_byte, lower_ascii, ascii_byte, lower_char, is_upper. intros Hc. bool_hyps.
  destruct (in_range 65 90 (byte c)) eqn:Hu; [|rewrite Hu; lia].
  apply in_range_spec in Hu. rewrite byte_chr by lia. unfold in_range. lia.
Qed.
Lemma to_lower_lower `{UnicodeLower} s : forall_bytes ascii_byte s = true →
  forall_bytes lower_ascii (to_lower s) = true.
Proof.
  intros Hs. rewrite to_lower_bytes by done. induction s as [|c s IH]; [done|].
  simpl in *. apply andb_true_iff in Hs as [Hc Hs]. by rewrite lower_char_lower, IH.
Qed.
Lemma to_lower_ascii `{UnicodeLower} s : forall_bytes lower_ascii s = true → to_lower s = s.
Proof.
  intros Hs. rewrite to_lower_bytes.
  - induction s as [|c s IH]; [done|]. simpl in *. apply andb_true_iff in Hs as [Hc Hs].
    rewrite IH by done. unfold lower_ascii in Hc. bool_hyps. unfold lower_char.
    by match goal with Hx : is_upper _ = false |- _ => rewrite Hx end.
  - induction s as [|c s IH]; [done|]. simpl in *. apply andb_true_iff in Hs as [Hc Hs].
    unfold lower_ascii in Hc. bool_hyps. by rewrite IH, andb_true_r.
Qed.
