(* ===== verification/Netip.v ===== *)
(** Package [net/netip] as the server uses it: textual addresses, ports and
    networks.  An IPv4 address is its 32-bit number, an IPv6 address its
    128-bit number with a zone. *)

From S2P Require Import Prelude GoStd Json GoStrings.
From Stdlib Require Import Ascii.

Local Open Scope Z_scope.

Inductive Addr :=
  | V4 (v : Z)
  | V6 (v : Z) (zone : string).
#[export] Instance Addr_eq_dec : EqDecision Addr.
Proof. solve_decision. Defined.

Definition Zone (a : Addr) : string := match a with V4 _ => "" | V6 _ z => z end.
Definition Is4 (a : Addr) : bool := match a with V4 _ => true | V6 _ _ => false end.
Definition Is4In6 (a : Addr) : bool :=
  match a with V4 _ => false | V6 v _ => Z.shiftr v 32 =? 65535 end.
Definition Unmap (a : Addr) : Addr :=
  match a with
  | V6 v _ => if Is4In6 a then V4 (Z.land v 4294967295) else a
  | V4 _ => a
  end.
Definition BitLen (a : Addr) : Z := if Is4 a then 32 else 128.
Definition bits_of (a : Addr) : Z := match a with V4 v => v | V6 v _ => v end.
Definition with_bits (a : Addr) (v : Z) : Addr :=
  match a with V4 _ => V4 v | V6 _ z => V6 v z end.

(** ** Searching from the right *)

(** Around the last occurrence of a byte. *)
Fixpoint cut_last (sep : ascii) (s : string) : option (string * string) :=
  match s with
  | EmptyString => None
  | String c s =>
      match cut_last sep s with
      | Some (a, b) => Some (String c a, b)
      | None => if decide (c = sep) then Some ("", s) else None
      end
  end.

(** Without a last byte that is [sep]. *)
Definition without_last (sep : ascii) (s : string) : option string :=
  match cut_last sep s with Some (a, EmptyString) => Some a | _ => None end.

Lemma cut_last_none c s : count_byte c s = 0 → cut_last c s = None.
Proof.
  induction s as [|d s IH]; simpl; [done|]. pose proof (count_nonneg c s).
  destruct (decide (d = c)); intros Hc; [lia|]. by rewrite IH by lia.
Qed.
Lemma cut_last_app c a b : count_byte c b = 0 → cut_last c (a +:+ String c b) = Some (a, b).
Proof.
  intros Hb. induction a as [|d a IH]; simpl.
  - rewrite cut_last_none by done. by rewrite decide_True.
  - by rewrite IH.
Qed.
Lemma cut_last_Some c s a b : cut_last c s = Some (a, b) →
  s = a +:+ String c b ∧ count_byte c b = 0.
Proof.
  revert a b. induction s as [|d s IH]; intros a b; simpl; [done|].
  destruct (cut_last c s) as [[a' b']|] eqn:Hs.
  - intros [= <- <-]. destruct (IH _ _ eq_refl) as [-> Hb]. done.
  - destruct (decide (d = c)) as [->|]; [|done]. intros [= <- <-]. split; [done|].
    clear IH. induction s as [|e s IH]; [done|]. simpl in *.
    destruct (cut_last c s) as [[]|]; [done|]. destruct (decide (e = c)); [done|]. by rewrite IH.
Qed.

(** ** [parseIPv4Fields] *)

(** One decimal field: at most 255, without a leading zero. *)
Definition octet (s : string) : option Z :=
  v ← parse_uint s;
  if (match s with String "0" (String _ _) => true | _ => false end) || (255 <? v)
  then None else Some v.
Definition parse_v4 (s : string) : option Z :=
  match split_on "." s with
  | [a; b; c; d] =>
      a ← octet a; b ← octet b; c ← octet c; d ← octet d;
      Some (a * 2 ^ 24 + b * 2 ^ 16 + c * 2 ^ 8 + d)
  | _ => None
  end.

(** ** [parseIPv6] *)

Definition hex_value (c : ascii) : option Z :=
  if is_digit c then Some (byte c - 48)
  else if in_range 97 102 (byte c) then Some (byte c - 87)
  else if in_range 65 70 (byte c) then Some (byte c - 55)
  else None.

(** A group of one to four hexadecimal digits; [n] more may follow. *)
Fixpoint hex_digits (n : nat) (acc : Z) (s : string) {struct s} : option (Z * string) :=
  match s with
  | EmptyString => Some (acc, "")
  | String c r =>
      match hex_value c, n with
      | Some _, O => None
      | Some d, S n => hex_digits n (acc * 16 + d) r
      | None, _ => Some (acc, s)
      end
  end.
Definition hex_group (s : string) : option (Z * string) :=
  match s with
  | String c _ => match hex_value c with Some _ => hex_digits 4 0 s | None => None end
  | EmptyString => None
  end.

(** The loop over the groups; [n] groups still fit, [ellipsis] is the number of
    groups before the [::]. *)
Fixpoint parse_groups (n : nat) (groups : list Z) (ellipsis : option nat) (s : string) :
    option (list Z * option nat) :=
  match n with
  | O => None
  | S n' =>
      '(g, rest) ← hex_group s;
      match rest with
      | EmptyString => Some (groups ++ [g], ellipsis)
      | String "." _ =>
          if (match ellipsis with None => negb (n =? 2)%nat | Some _ => (n <? 2)%nat end) then None
          else v ← parse_v4 s; Some (groups ++ [Z.shiftr v 16; Z.land v 65535], ellipsis)
      | String ":" (String ":" EmptyString) =>
          match ellipsis with
          | None => Some (groups ++ [g], Some (S (length groups)))
          | Some _ => None
          end
      | String ":" (String ":" s) =>
          match ellipsis with
          | None => parse_groups n' (groups ++ [g]) (Some (S (length groups))) s
          | Some _ => None
          end
      | String ":" EmptyString => None
      | String ":" s => parse_groups n' (groups ++ [g]) ellipsis s
      | _ => None
      end
  end.

Definition number (groups : list Z) : Z := foldl (λ v g, v * 2 ^ 16 + g) 0 groups.

(** Fewer than eight groups are filled up at the [::], which stands for one
    group at least. *)
Definition expand (groups : list Z) (ellipsis : option nat) : option Z :=
  match ellipsis with
  | None => if (length groups =? 8)%nat then Some (number groups) else None
  | Some k =>
      if (length groups <? 8)%nat then
        Some (number (take k groups ++ replicate (8 - length groups) 0 ++ drop k groups))
      else None
  end.

Definition parse_v6 (s : string) : option Addr :=
  '(s, zone) ← match cut "%" s with
               | Some (s, zone) => if bool_decide (zone = "") then None else Some (s, zone)
               | None => Some (s, "")
               end;
  '(groups, ellipsis) ← match cut_prefix "::" s with
                        | Some EmptyString => Some ([], Some O)
                        | Some s => parse_groups 8 [] (Some O) s
                        | None => parse_groups 8 [] None s
                        end;
  v ← expand groups ellipsis;
  Some (V6 v zone).

(** The first of [.], [:] and [%] tells the family. *)
Fixpoint family (s : string) : option ascii :=
  match s with
  | EmptyString => None
  | String c s => if bool_decide (c ∈ ["."; ":"; "%"]%char) then Some c else family s
  end.
Definition ParseAddr (s : string) : option Addr :=
  match family s with
  | Some "."%char => V4 <$> parse_v4 s
  | Some ":"%char => parse_v6 s
  | _ => None
  end.

(** The address of [ParseAddrPort]; the port is a 16-bit decimal. *)
Definition ParseAddrPort (s : string) : option Addr :=
  '(ip, port) ← cut_last ":" s;
  p ← parse_uint port;
  match ip with
  | EmptyString => None
  | String "[" r =>
      ip ← without_last "]" r; a ← ParseAddr ip;
      if (65535 <? p) || Is4 a then None else Some a
  | _ => a ← ParseAddr ip; if (65535 <? p) || negb (Is4 a) then None else Some a
  end.

(** ** Text *)

Definition format_v4 (v : Z) : string :=
  let field k := format_int (Z.land (Z.shiftr v k) 255) in
  field 24 +:+ "." +:+ field 16 +:+ "." +:+ field 8 +:+ "." +:+ field 0.

Definition hex_digit (d : Z) : ascii := if d <? 10 then chr (48 + d) else chr (87 + d).
(** [appendHex]: without leading zeros. *)
Definition format_group (g : Z) : string :=
  let d k := String (hex_digit (Z.land (Z.shiftr g k) 15)) in
  if 4096 <=? g then d 12 (d 8 (d 4 (d 0 "")))
  else if 256 <=? g then d 8 (d 4 (d 0 ""))
  else if 16 <=? g then d 4 (d 0 "")
  else d 0 "".

Definition groups_of (v : Z) : list Z :=
  (λ i : nat, Z.land (Z.shiftr v (112 - 16 * Z.of_nat i)) 65535) <$> seq 0 8.

Fixpoint zero_run (l : list Z) : nat :=
  match l with g :: l => if g =? 0 then S (zero_run l) else O | [] => O end.
(** The first of the longest runs of two or more zero groups, as its start and
    length. *)
Fixpoint longest_run (i : nat) (l : list Z) (best : nat * nat) : nat * nat :=
  match l with
  | [] => best
  | _ :: r =>
      let n := zero_run l in
      longest_run (S i) r (if (2 <=? n)%nat && (best.2 <? n)%nat then (i, n) else best)
  end.

Fixpoint join (sep : string) (l : list string) : string :=
  match l with
  | [] => ""
  | [x] => x
  | x :: l => x +:+ sep +:+ join sep l
  end.

Definition format_v6 (v : Z) : string :=
  let groups := groups_of v in
  match longest_run 0 groups (O, O) with
  | (_, O) => join ":" (format_group <$> groups)
  | (i, n) => join ":" (format_group <$> take i groups) +:+ "::"
              +:+ join ":" (format_group <$> drop (i + n) groups)
  end.

Definition addr_String (a : Addr) : string :=
  match a with
  | V4 v => format_v4 v
  | V6 v zone =>
      (if Is4In6 a then "::ffff:" +:+ format_v4 (Z.land v 4294967295) else format_v6 v)
      +:+ (if bool_decide (zone = "") then "" else "%" +:+ zone)
  end.

(** ** Networks *)

Record Prefix := { pfx_Addr : Addr; pfx_Bits : Z }.
#[export] Instance Prefix_eq_dec : EqDecision Prefix.
Proof. solve_decision. Defined.

(** A length is decimal, without a sign or leading zeros. *)
Definition ParsePrefix (s : string) : option Prefix :=
  '(ip, bits) ← cut_last "/" s;
  a ← ParseAddr ip;
  n ← parse_uint bits;
  if negb (bool_decide (Zone a = "")) || (match bits with String "0" (String _ _) => true | _ => false end)
     || (BitLen a <? n)
  then None else Some {| pfx_Addr := a; pfx_Bits := n |}.

(** The address without the bits after the first [pfx_Bits]. *)
Definition Masked (p : Prefix) : Prefix :=
  let k := BitLen (pfx_Addr p) - pfx_Bits p in
  {| pfx_Addr := with_bits (pfx_Addr p) (Z.shiftl (Z.shiftr (bits_of (pfx_Addr p)) k) k);
     pfx_Bits := pfx_Bits p |}.
Definition prefix_String (p : Prefix) : string :=
  addr_String (pfx_Addr p) +:+ "/" +:+ format_int (pfx_Bits p).

(** The bits of the prefix agree; an address with a zone is in no network. *)
Definition Contains (p : Prefix) (a : Addr) : bool :=
  bool_decide (Zone a = "") && Bool.eqb (Is4 a) (Is4 (pfx_Addr p))
  && (Z.shiftr (Z.lxor (bits_of a) (bits_of (pfx_Addr p))) (BitLen a - pfx_Bits p) =? 0).

(** ** Examples *)

Example parse_loopback : ParseAddr "127.0.0.1" = Some (V4 2130706433).
Proof. reflexivity. Qed.
Example parse_short : ParseAddr "2001:db8::1" = Some (V6 (2 ^ 125 + 2 ^ 112 + 0x0db8 * 2 ^ 96 + 1) "").
Proof. vm_compute. reflexivity. Qed.
Example parse_mapped : Unmap <$> ParseAddr "::ffff:10.0.0.7" = Some (V4 (10 * 2 ^ 24 + 7)).
Proof. vm_compute. reflexivity. Qed.
Example parse_zone : ParseAddr "fe80::1%eth0" = Some (V6 (0xfe80 * 2 ^ 112 + 1) "eth0").
Proof. vm_compute. reflexivity. Qed.
Example parse_rejected : Forall (λ s, ParseAddr s = None)
  ["1.2.3"; "1.2.3.04"; "1.2.3.256"; "1.2.3.4.5"; ".1.2.3"; "1::2::3"; "12345::"; "1:2:3:4:5:6:7:8:9";
   "1:2:3:4:5:6:7::8"; "::1."; "1:"; ":1"; "%eth0"; "::1%"; ""; "localhost"; "1:2:3:4:5:6:7:1.2.3.4"].
Proof. repeat constructor. Qed.
Example print_v6 : addr_String <$> ParseAddr "2001:0DB8:0:0:1:0:0:1" = Some "2001:db8::1:0:0:1".
Proof. vm_compute. reflexivity. Qed.
Example print_edges : omap (λ s, addr_String <$> ParseAddr s)
    ["::"; "::1"; "1::"; "1:2:3:4:5:6:7:8"; "1:2:3:0:5:6:7:8"; "::ffff:1.2.3.4"; "255.0.10.1"] =
  ["::"; "::1"; "1::"; "1:2:3:4:5:6:7:8"; "1:2:3:0:5:6:7:8"; "::ffff:1.2.3.4"; "255.0.10.1"].
Proof. vm_compute. reflexivity. Qed.
Example parse_port : ParseAddrPort "[::1]:8080" = Some (V6 1 "") ∧ ParseAddrPort "::1:8080" = None
  ∧ ParseAddrPort "10.0.0.1:65536" = None.
Proof. by vm_compute. Qed.
Example in_network : (λ p, Contains p (V4 (10 * 2 ^ 24 + 7))) <$> ParsePrefix "10.0.0.0/8" = Some true.
Proof. reflexivity. Qed.

(** ** The text of an address is read back *)

Definition valid_addr (a : Addr) : Prop := 0 ≤ bits_of a < 2 ^ BitLen a ∧ Zone a = "".

(** Facts about small numbers, by evaluation. *)
Lemma below (P : Z → bool) (n : nat) d :
  forallb P (Z.of_nat <$> seq 0 n) = true → 0 ≤ d < Z.of_nat n → P d = true.
Proof.
  intros HP Hd. rewrite forallb_forall in HP. apply HP, list_elem_of_In, list_elem_of_fmap.
  exists (Z.to_nat d). split; [lia|]. apply elem_of_seq. lia.
Qed.

Lemma octet_format d : 0 ≤ d < 256 →
  octet (format_int d) = Some d ∧ count_byte "." (format_int d) = 0
  ∧ forall_bytes is_digit (format_int d) = true ∧ (format_int d =? "")%string = false.
Proof.
  intros Hd. set (P d := bool_decide (octet (format_int d) = Some d)
    && (count_byte "." (format_int d) =? 0) && forall_bytes is_digit (format_int d)
    && negb (format_int d =? "")%string).
  assert (P d = true) as HP by (apply (below P 256); [vm_compute; reflexivity|done]).
  unfold P in HP. by bool_hyps.
Qed.

Lemma land_field v k n : 0 ≤ n → 0 ≤ k → Z.land (Z.shiftr v k) (Z.ones n) = (v / 2 ^ k) mod 2 ^ n.
Proof. intros Hn Hk. by rewrite Z.land_ones, Z.shiftr_div_pow2. Qed.
Lemma field_range v k n : 0 ≤ n → 0 ≤ k → 0 ≤ Z.land (Z.shiftr v k) (Z.ones n) < 2 ^ n.
Proof. intros Hn Hk. rewrite land_field by done. apply Z.mod_pos_bound. lia. Qed.

Lemma parse_format_v4 v : 0 ≤ v < 2 ^ 32 → parse_v4 (format_v4 v) = Some v.
Proof.
  intros Hv. unfold parse_v4, format_v4. change 255 with (Z.ones 8).
  assert (∀ k, 0 ≤ k → 0 ≤ Z.land (Z.shiftr v k) (Z.ones 8) < 256) as Hf
    by (intros k Hk; by apply (field_range v k 8)).
  assert (∀ a b, a +:+ "." +:+ b = a +:+ String "." b) as Hdot by done. rewrite !Hdot.
  rewrite !split_on_app, split_on_last by (by apply octet_format, Hf).
  assert (∀ k, 0 ≤ k → octet (format_int (Z.land (Z.shiftr v k) (Z.ones 8))) =
    Some (Z.land (Z.shiftr v k) (Z.ones 8))) as Ho by (intros k Hk; by apply octet_format, Hf).
  rewrite !Ho by done. simpl. f_equal.
  rewrite !land_field by done. rewrite Z.div_1_r. Z.to_euclidean_division_equations. lia.
Qed.

(** *** Groups *)

Definition hex_byte (c : ascii) : bool := match hex_value c with Some _ => true | None => false end.

Lemma hex_value_digit d : 0 ≤ d < 16 → hex_value (hex_digit d) = Some d.
Proof.
  intros Hd. set (P d := bool_decide (hex_value (hex_digit d) = Some d)).
  assert (P d = true) as HP by (apply (below P 16); [vm_compute; reflexivity|done]).
  unfold P in HP. by bool_hyps.
Qed.

(** [rest] begins with no digit. *)
Definition stops (rest : string) : Prop :=
  match rest with String c _ => hex_value c = None | EmptyString => True end.

Lemma hex_digits_stop n acc rest : stops rest → hex_digits n acc rest = Some (acc, rest).
Proof. unfold stops. destruct rest as [|c r]; simpl; [done|]. by intros ->. Qed.
Lemma hex_digits_step n acc d r : 0 ≤ d < 16 →
  hex_digits (S n) acc (String (hex_digit d) r) = hex_digits n (acc * 16 + d) r.
Proof. intros Hd. simpl. by rewrite hex_value_digit. Qed.

Lemma hex_group_format g rest : 0 ≤ g < 65536 → stops rest →
  hex_group (format_group g +:+ rest) = Some (g, rest).
Proof.
  intros Hg Hr. unfold format_group. cbv beta zeta. change 15 with (Z.ones 4).
  assert (∀ k, 0 ≤ k → 0 ≤ Z.land (Z.shiftr g k) (Z.ones 4) < 16) as Hf
    by (intros k Hk; by apply (field_range g k 4)).
  destruct (Z.leb_spec 4096 g); [|destruct (Z.leb_spec 256 g); [|destruct (Z.leb_spec 16 g)]];
    rewrite !app_cons_s; change ("" +:+ rest) with rest;
    cbv beta iota zeta delta [hex_group]; rewrite hex_value_digit by (by apply Hf);
    rewrite !hex_digits_step by (by apply Hf); rewrite hex_digits_stop by done;
    rewrite !land_field by done; do 2 f_equal;
    rewrite ?Z.div_1_r; Z.to_euclidean_division_equations; lia.
Qed.

Lemma format_group_head g : 0 ≤ g < 65536 → ∃ c s, format_group g = String c s ∧ hex_byte c = true
  ∧ forall_bytes hex_byte s = true.
Proof.
  intros Hg. assert (∀ k, 0 ≤ k → hex_byte (hex_digit (Z.land (Z.shiftr g k) 15)) = true) as Hh.
  { intros k Hk. unfold hex_byte. by rewrite hex_value_digit by (by apply (field_range g k 4)). }
  unfold format_group. cbv beta zeta. repeat case_match; eexists _, _; (split; [done|]); simpl; rewrite !Hh by done; done.
Qed.

Definition is_group (g : Z) : Prop := 0 ≤ g < 65536.

(** A group and a colon; a group and the [::]. *)
Lemma parse_step n groups e s g c r :
  hex_group s = Some (g, String ":" (String c r)) → c ≠ ":"%char →
  parse_groups (S n) groups e s = parse_groups n (groups ++ [g]) e (String c r).
Proof.
  intros Hs Hc. cbn [parse_groups]. rewrite Hs.
  destruct c as [[] [] [] [] [] [] [] []]; done.
Qed.
Lemma parse_gap n groups s g t : hex_group s = Some (g, "::" +:+ t) →
  parse_groups (S n) groups None s =
    if bool_decide (t = "") then Some (groups ++ [g], Some (S (length groups)))
    else parse_groups n (groups ++ [g]) (Some (S (length groups))) t.
Proof. intros Hs. cbn [parse_groups]. rewrite Hs. destruct t as [|c t]; done. Qed.

Definition text (gs : list Z) : string := join ":" (format_group <$> gs).

Lemma text_cons g h gs : text (g :: h :: gs) = format_group g +:+ String ":" (text (h :: gs)).
Proof. done. Qed.
Lemma text_head g gs : is_group g → ∃ c r, text (g :: gs) = String c r ∧ hex_byte c = true.
Proof.
  intros Hg. destruct (format_group_head g Hg) as (c & s & Hs & Hc & _).
  destruct gs as [|h gs]; [|rewrite text_cons]; unfold text; simpl; rewrite Hs; eauto.
Qed.
Lemma hex_not_colon c : hex_byte c = true → c ≠ ":"%char.
Proof. by intros Hc ->. Qed.

Lemma parse_text gs groups n e : Forall is_group gs → gs ≠ [] → (length gs ≤ n)%nat →
  parse_groups n groups e (text gs) = Some (groups ++ gs, e).
Proof.
  revert groups n. induction gs as [|g gs IH]; intros groups n Hgs Hne Hn; [done|].
  apply Forall_cons in Hgs as [Hg Hgs]. destruct n as [|n]; simpl in Hn; [lia|].
  destruct gs as [|h gs].
  - unfold text. simpl. rewrite <-(app_nil_s (format_group g)), (hex_group_format g "") by done. done.
  - rewrite text_cons. pose proof (Forall_inv Hgs) as Hh.
    destruct (text_head h gs Hh) as (c & r & Ht & Hc). rewrite Ht.
    erewrite parse_step by (try apply hex_group_format; try apply hex_not_colon; done).
    rewrite <-Ht, IH by (done || lia). by rewrite <-app_assoc.
Qed.

Lemma parse_text_gap gs groups n t : Forall is_group gs → gs ≠ [] → (length gs ≤ n)%nat →
  parse_groups n groups None (text gs +:+ "::" +:+ t) =
    if bool_decide (t = "") then Some (groups ++ gs, Some (length (groups ++ gs)))
    else parse_groups (n - length gs) (groups ++ gs) (Some (length (groups ++ gs))) t.
Proof.
  revert groups n. induction gs as [|g gs IH]; intros groups n Hgs Hne Hn; [done|].
  apply Forall_cons in Hgs as [Hg Hgs]. destruct n as [|n]; simpl in Hn; [lia|].
  destruct gs as [|h gs].
  - unfold text. simpl fmap. cbn [join]. erewrite parse_gap by (by apply hex_group_format).
    rewrite length_app, Nat.add_1_r. by replace (S n - length [g])%nat with n by (simpl; lia).
  - rewrite text_cons, app_assoc_s, app_cons_s. pose proof (Forall_inv Hgs) as Hh.
    destruct (text_head h gs Hh) as (c & r & Ht & Hc). rewrite Ht, app_cons_s.
    erewrite parse_step by (try apply hex_group_format; try apply hex_not_colon; done).
    rewrite <-app_cons_s, <-Ht, IH by (done || lia). rewrite <-app_assoc. done.
Qed.

(** *** The longest run of zeros *)

Lemma zero_run_spec l : take (zero_run l) l = replicate (zero_run l) 0 ∧ (zero_run l ≤ length l)%nat.
Proof.
  induction l as [|g l IH]; simpl; [split; [done|lia]|].
  destruct (Z.eqb_spec g 0) as [->|]; simpl; [|split; [done|lia]].
  destruct IH as [-> ?]. split; [done|lia].
Qed.

Lemma longest_run_spec gs i l best n k :
  gs = take i gs ++ l → (i ≤ length gs)%nat →
  (best.2 = 0%nat ∨ (2 ≤ best.2)%nat ∧ (best.1 + best.2 ≤ length gs)%nat
    ∧ take best.2 (drop best.1 gs) = replicate best.2 0) →
  longest_run i l best = (k, n) →
  n = 0%nat ∨ (2 ≤ n)%nat ∧ (k + n ≤ length gs)%nat ∧ take n (drop k gs) = replicate n 0.
Proof.
  revert i best. induction l as [|g l IH]; intros i best Hgs Hi Hbest Hrun.
  { simpl in Hrun. by subst best. }
  cbn [longest_run] in Hrun. assert (drop i gs = g :: l) as Hdrop.
  { rewrite Hgs at 1. rewrite drop_app_length'; [done|]. rewrite length_take. lia. }
  assert (length (drop i gs) = S (length l)) as Hlen by (by rewrite Hdrop). rewrite length_drop in Hlen.
  apply IH in Hrun; [done| |lia|].
  - assert (i < length gs)%nat as Hlt by lia. apply lookup_lt_is_Some in Hlt as [x Hx].
    rewrite (take_S_r _ _ x Hx), <-app_assoc. simpl. rewrite (drop_S _ x i Hx) in Hdrop.
    injection Hdrop as -> Hd. done.
  - destruct ((2 <=? zero_run (g :: l))%nat && _) eqn:Hlong; [|done]. right.
    apply andb_true_iff in Hlong as [H2%Nat.leb_le _].
    pose proof (zero_run_spec (g :: l)) as [Hz Hl]. cbn [fst snd]. rewrite Hdrop.
    cbn [length] in Hl. split_and!; [done|lia|done].
Qed.

(** *** Addresses *)

Lemma groups_of_spec v : length (groups_of v) = 8%nat ∧ Forall is_group (groups_of v).
Proof.
  split; [done|]. unfold groups_of. apply Forall_fmap, Forall_forall. intros i Hi%elem_of_seq.
  unfold is_group. simpl. apply (field_range v _ 16); lia.
Qed.

Lemma number_groups v : 0 ≤ v < 2 ^ 128 → number (groups_of v) = v.
Proof.
  intros Hv. assert (∀ k, (k ≤ 8)%nat →
    number ((λ i : nat, Z.land (Z.shiftr v (112 - 16 * Z.of_nat i)) 65535) <$> seq 0 k) =
    v / 2 ^ (128 - 16 * Z.of_nat k)) as H.
  { induction k as [|k IH]; intros Hk.
    - simpl. rewrite Z.div_small; [done|]. by change (128 - 0) with 128.
    - rewrite seq_S, fmap_app. unfold number in *. rewrite foldl_app, IH by lia. cbn [fmap list_fmap foldl].
      change 65535 with (Z.ones 16). rewrite land_field by lia.
      replace (128 - 16 * Z.of_nat k) with ((112 - 16 * Z.of_nat k) + 16) by lia.
      replace (128 - 16 * Z.of_nat (S k)) with (112 - 16 * Z.of_nat k) by lia.
      rewrite Nat.add_0_l, Z.pow_add_r, <-Z.div_div by lia.
      pose proof (Z.div_mod (v / 2 ^ (112 - 16 * Z.of_nat k)) (2 ^ 16)). lia. }
  unfold groups_of. rewrite H by lia. apply Z.div_1_r.
Qed.

Lemma cut_none c s : count_byte c s = 0 → cut c s = None.
Proof.
  induction s as [|d s IH]; simpl; [done|]. pose proof (count_nonneg c s).
  case_decide; [lia|]. intros Hs. by rewrite IH.
Qed.

Definition group_byte (c : ascii) : bool := hex_byte c || bool_decide (c = ":"%char).
Lemma format_group_bytes g : is_group g → forall_bytes group_byte (format_group g) = true.
Proof.
  intros Hg. destruct (format_group_head g Hg) as (c & s & -> & Hc & Hs). simpl.
  unfold group_byte at 1. rewrite Hc. simpl. apply (forall_bytes_impl hex_byte); [|done].
  intros d Hd. unfold group_byte. by rewrite Hd.
Qed.
Lemma text_bytes gs : Forall is_group gs → forall_bytes group_byte (text gs) = true.
Proof.
  induction 1 as [|g [|h gs] Hg Hgs IH]; [done|by apply format_group_bytes|].
  rewrite text_cons, forall_bytes_app, format_group_bytes by done. simpl. by rewrite IH.
Qed.
Lemma text_empty gs : Forall is_group gs → text gs = "" → gs = [].
Proof. destruct 1 as [|g gs Hg]; [done|]. destruct (text_head g gs Hg) as (c & r & -> & _). done. Qed.

(** The text as its two halves. *)
Lemma format_v6_cases v :
  (format_v6 v = text (groups_of v)) ∨
  ∃ A B n, (2 ≤ n)%nat ∧ groups_of v = A ++ replicate n 0 ++ B
    ∧ format_v6 v = text A +:+ "::" +:+ text B.
Proof.
  unfold format_v6. destruct (longest_run 0 (groups_of v) (0%nat, 0%nat)) as [k n] eqn:Hrun.
  destruct n as [|n]; [by left|right].
  eapply (longest_run_spec (groups_of v)) in Hrun as [?|(H2 & Hk & Hz)]; [done| |done|lia|by left].
  exists (take k (groups_of v)), (drop (k + S n) (groups_of v)), (S n).
  split; [done|]. split; [|done]. rewrite <-Hz, <-(drop_drop _ (S n)), take_drop, take_drop. done.
Qed.

Lemma format_v6_bytes v : forall_bytes group_byte (format_v6 v) = true.
Proof.
  destruct (groups_of_spec v) as [_ Hall].
  destruct (format_v6_cases v) as [->|(A & B & n & _ & Hg & ->)]; [by apply text_bytes|].
  rewrite Hg in Hall. apply Forall_app in Hall as [HA [_ HB]%Forall_app].
  rewrite !forall_bytes_app, !text_bytes by done. done.
Qed.

Lemma group_prefix g gs t : is_group g → cut_prefix "::" (text (g :: gs) +:+ t) = None.
Proof.
  intros Hg. destruct (text_head g gs Hg) as (c & r & -> & Hc). rewrite app_cons_s. simpl.
  case_decide; [|done]. subst. done.
Qed.

Lemma parse_format_v6 v : 0 ≤ v < 2 ^ 128 → parse_v6 (format_v6 v) = Some (V6 v "").
Proof.
  intros Hv. unfold parse_v6. rewrite cut_none by (by apply (count_none _ group_byte), eq_refl; apply format_v6_bytes).
  cbn [mbind option_bind]. destruct (groups_of_spec v) as [Hlen Hall].
  destruct (format_v6_cases v) as [->|(A & B & n & Hn & Hg & ->)].
  - destruct (groups_of v) as [|g gs] eqn:Hgs; [done|].
    rewrite <-(app_nil_s (text _)), group_prefix, app_nil_s by (by apply Forall_inv in Hall).
    rewrite parse_text by (done || lia). cbn [mbind option_bind]. rewrite app_nil_l.
    unfold expand. rewrite Hlen, <-Hgs, number_groups by done. done.
  - assert (length A + n + length B = 8)%nat as Hl
      by (rewrite <-Hlen, Hg, !length_app, length_replicate; lia).
    rewrite Hg in Hall. apply Forall_app in Hall as [HA [_ HB]%Forall_app].
    assert (expand (A ++ B) (Some (length A)) = Some v) as Hexp.
    { unfold expand. rewrite length_app, (proj2 (Nat.ltb_lt _ _)) by lia.
      rewrite take_app_length, drop_app_length. replace (8 - (length A + length B))%nat with n by lia.
      by rewrite <-Hg, number_groups. }
    destruct A as [|g gs].
    + change (text [] +:+ "::" +:+ text B) with ("::" +:+ text B). rewrite cut_prefix_app.
      destruct (text B) as [|c r] eqn:Ht.
      * apply text_empty in Ht as ->; [|done]. cbn [mbind option_bind app length] in *. by rewrite Hexp.
      * rewrite <-Ht, parse_text by (try (intros ->; done); done || lia). cbn [mbind option_bind app length] in *. by rewrite Hexp.
    + rewrite group_prefix by (by apply Forall_inv in HA).
      rewrite parse_text_gap by (done || (simpl in *; lia)). rewrite app_nil_l.
      case_bool_decide as HB0.
      * apply text_empty in HB0 as ->; [|done]. rewrite app_nil_r in Hexp. cbn [mbind option_bind]. by rewrite Hexp.
      * rewrite parse_text by (try (intros ->; done); done || lia). cbn [mbind option_bind]. by rewrite Hexp.
Qed.

(** *** Families *)

Lemma family_first (p : ascii → bool) s c r : forall_bytes p s = true →
  (∀ d, p d = true → d ∉ ["."; ":"; "%"]%char) → c ∈ ["."; ":"; "%"]%char →
  family (s +:+ String c r) = Some c.
Proof.
  intros Hs Hp Hc. induction s as [|d s IH]; simpl in *; [by rewrite bool_decide_true|].
  bool_hyps. rewrite bool_decide_false by auto. auto.
Qed.

Lemma family_v4 v : 0 ≤ v < 2 ^ 32 → family (format_v4 v) = Some "."%char.
Proof.
  intros Hv. unfold format_v4. apply (family_first is_digit).
  - apply octet_format. by apply (field_range v 24 8).
  - intros d Hd Hin. apply list_elem_of_In in Hin. simpl in Hin. by destruct Hin as [<-|[<-|[<-|[]]]].
  - set_solver.
Qed.
Lemma hex_family d : hex_byte d = true → d ∉ ["."; ":"; "%"]%char.
Proof. intros Hd Hin. apply list_elem_of_In in Hin. simpl in Hin. by destruct Hin as [<-|[<-|[<-|[]]]]. Qed.
Lemma format_group_hex g : is_group g → forall_bytes hex_byte (format_group g) = true.
Proof. intros Hg. destruct (format_group_head g Hg) as (c & s & -> & Hc & Hs). simpl. by rewrite Hc. Qed.

Lemma family_v6 v : family (format_v6 v) = Some ":"%char.
Proof.
  destruct (groups_of_spec v) as [Hlen Hall].
  assert (∀ g r, is_group g → family (format_group g +:+ String ":" r) = Some ":"%char) as Hfam.
  { intros g r Hg. apply (family_first hex_byte); [by apply format_group_hex|apply hex_family|set_solver]. }
  destruct (format_v6_cases v) as [->|(A & B & n & Hn & Hg & ->)].
  - destruct (groups_of v) as [|g [|h gs]]; try done. rewrite text_cons. apply Hfam.
    by apply Forall_inv in Hall.
  - rewrite Hg in Hall. destruct A as [|g [|h gs]]; [done| |].
    + apply Hfam. by apply Forall_inv in Hall.
    + rewrite text_cons, app_assoc_s, app_cons_s. apply Hfam. by apply Forall_inv in Hall.
Qed.

Theorem addr_roundtrip a : valid_addr a → Is4In6 a = false → ParseAddr (addr_String a) = Some a.
Proof.
  intros [Hv Hz] H46. destruct a as [v|v zone]; cbn [bits_of BitLen Is4 Zone addr_String] in *.
  - unfold ParseAddr. rewrite family_v4, parse_format_v4 by exact Hv. reflexivity.
  - subst zone. rewrite H46, bool_decide_true, app_nil_s by reflexivity.
    unfold ParseAddr. rewrite family_v6. exact (parse_format_v6 v Hv).
Qed.

(** The text has no white space and no comma. *)
Definition addr_byte (c : ascii) : bool := group_byte c || bool_decide (c = "."%char).
Lemma addr_bytes a : valid_addr a → Is4In6 a = false → forall_bytes addr_byte (addr_String a) = true.
Proof.
  intros [Hv Hz] H46. destruct a as [v|v zone]; cbn [bits_of BitLen Is4 Zone addr_String] in *.
  - assert (∀ k, 0 ≤ k → forall_bytes addr_byte (format_int (Z.land (Z.shiftr v k) 255)) = true) as Hf.
    { intros k Hk. apply (forall_bytes_impl is_digit).
      - intros c Hc. unfold addr_byte, group_byte, hex_byte, hex_value. by rewrite Hc.
      - apply octet_format. by apply (field_range v k 8). }
    unfold format_v4. rewrite !forall_bytes_app, !Hf by done. done.
  - subst. rewrite H46, bool_decide_true, app_nil_s by done.
    apply (forall_bytes_impl group_byte); [|apply format_v6_bytes].
    intros c Hc. unfold addr_byte. by rewrite Hc.
Qed.
Lemma addr_byte_dense c : addr_byte c = true → dense c = true ∧ c ≠ ","%char.
Proof.
  assert (∀ c, implb (addr_byte c) (dense c && negb (bool_decide (c = ","%char))) = true) as H.
  { intros [[] [] [] [] [] [] [] []]; vm_compute; reflexivity. }
  specialize (H c). intros Hc. rewrite Hc in H. simpl in H. bool_hyps. done.
Qed.
