(* ===== verification/Proto.v ===== *)
(** The messages of [server/api/common]: generated Go structs as records.  A
    message pointer is an [option] where the code can meet nil; a oneof is an
    optional variant. *)

From S2P Require Import Prelude GoStd.

Local Open Scope Z_scope.

(** [Field.BaseType] *)
Definition STRING : Z := 1.
Definition INT : Z := 2.
Definition DECIMAL : Z := 3.
Definition BOOLEAN : Z := 4.
Definition TIME : Z := 5.
Definition DATE : Z := 6.
Definition DATETIME : Z := 7.
Definition TIME_RANGE : Z := 8.
Definition DATE_RANGE : Z := 9.
Definition DATETIME_RANGE : Z := 10.
Definition IMAGE : Z := 11.
Definition VIDEO : Z := 12.
Definition FILE : Z := 13.

(** [Field_BaseType.String()] *)
Definition base_type_names : list string :=
  ["BASE_TYPE_UNSPECIFIED"; "STRING"; "INT"; "DECIMAL"; "BOOLEAN"; "TIME"; "DATE";
   "DATETIME"; "TIME_RANGE"; "DATE_RANGE"; "DATETIME_RANGE"; "IMAGE"; "VIDEO"; "FILE"].
Definition base_type_string (b : Z) : string :=
  if in_range 0 13 b then base_type_names !!! Z.to_nat b else format_int b.

Inductive Field_Kind :=
  | Field_Type_BaseType (BaseType : Z)
  | Field_Type_StructureKey (StructureKey : string)
  | Field_Type_EnumKey (EnumKey : string).

Record Field_Type := { Kind : option Field_Kind }.

Record Field := {
  Field_Key : string;
  Field_Name : string;
  Field_Description : string;
  Field_IsArray : bool;
  Field_type : option Field_Type;
}.

Record SelectOption := {
  Option_Label : string;
  Option_Value : string;
  Option_Description : string;
}.

(** The metadata the messages share, fields 51 to 55. *)
Record Audit := {
  m_CreatedBy : string;
  m_UpdatedBy : string;
  m_CreatedAt : string;
  m_UpdatedAt : string;
  m_Version : Z;
}.
Definition no_audit : Audit :=
  {| m_CreatedBy := ""; m_UpdatedBy := ""; m_CreatedAt := ""; m_UpdatedAt := ""; m_Version := 0 |}.

Record Structure := {
  Structure_Id : Z;
  Structure_ConfigId : Z;
  Structure_Key : string;
  Structure_Name : string;
  Structure_Description : string;
  Structure_Fields : list (option Field);
  Structure_Audit : Audit;
}.

Record ConfigEnum := {
  Enum_Id : Z;
  Enum_ConfigId : Z;
  Enum_Key : string;
  Enum_Name : string;
  Enum_Description : string;
  Enum_Values : list (option SelectOption);
  Enum_Audit : Audit;
}.

Record Config := {
  Config_Id : Z;
  Config_ProjectId : Z;
  Config_Key : string;
  Config_Description : string;
  Config_IsArray : bool;
  Config_Type : option Field_Type;
  Config_Value : string;
  Config_RuntimeVersion : Z;
  Config_Audit : Audit;
}.

Inductive TreeNode :=
  | Node (Value : option Field) (Children : list TreeNode).

(** The generated getters accept nil receivers. *)
Definition Field_GetType (f : option Field) : option Field_Type :=
  f ← f; Field_type f.
Definition GetStructureKey (t : option Field_Type) : string :=
  match t with
  | Some {| Kind := Some (Field_Type_StructureKey k) |} => k
  | _ => ""
  end.

#[export] Instance Field_Kind_eq_dec : EqDecision Field_Kind.
Proof. solve_decision. Defined.
#[export] Instance Field_Type_eq_dec : EqDecision Field_Type.
Proof. solve_decision. Defined.
#[export] Instance Field_eq_dec : EqDecision Field.
Proof. solve_decision. Defined.
#[export] Instance SelectOption_eq_dec : EqDecision SelectOption.
Proof. solve_decision. Defined.
#[export] Instance Audit_eq_dec : EqDecision Audit.
Proof. solve_decision. Defined.
#[export] Instance Structure_eq_dec : EqDecision Structure.
Proof. solve_decision. Defined.
#[export] Instance ConfigEnum_eq_dec : EqDecision ConfigEnum.
Proof. solve_decision. Defined.
#[export] Instance Config_eq_dec : EqDecision Config.
Proof. solve_decision. Defined.

(** A field of which only the declared shape matters. *)
Definition mk_field (key name description : string) (is_array : bool)
    (ty : option Field_Type) : Field :=
  {| Field_Key := key; Field_Name := name; Field_Description := description;
     Field_IsArray := is_array; Field_type := ty |}.
