(* ===== verification/Codec.v ===== *)
(** [server/internal/converter/json.go] and [entity/snapshot.go]: the JSON
    documents the database stores.  The messages inside them are written and
    read by [protojson], a parameter; the arrays, the object around them, the
    splitting into raw messages and the strictness of the decoder are
    modelled. *)

From S2P Require Import Prelude GoStd GoStrings Json Proto.
From Stdlib Require Import Ascii.

Local Open Scope Z_scope.

(** [protojson.Marshal] (the flag is [UseProtoNames]) and
    [protojson.Unmarshal] for one message type. *)
Class ProtoJSON (A : Type) := {
  proto_marshal : bool → A → result string;
  proto_unmarshal : string → result A;
}.

Class Protojson := {
  field_type_json :: ProtoJSON Field_Type;
  field_json :: ProtoJSON Field;
  config_json :: ProtoJSON Config;
  structure_json :: ProtoJSON Structure;
  enum_json :: ProtoJSON ConfigEnum;
  tree_json :: ProtoJSON TreeNode;
}.

(** [if err != nil { return fmt.Errorf("...: %w", err) }] *)
Definition wrap_err {A} (msg : string) (r : result A) : result A :=
  match r with Ok a => Ok a | Er e => Er (EWrap msg e) end.

Definition of_option {A} (e : Err) (r : option A) : result A :=
  match r with Some a => Ok a | None => Er e end.

(** ** Raw values: [json.RawMessage] keeps the text of a value *)

(** What [s] has before its suffix [rest]. *)
Definition before (s rest : string) : string :=
  String.substring 0 (String.length s - String.length rest) s.

Definition raw_value (d : Z) (s : string) : option (string * string) :=
  let s := skip_ws s in
  '(_, rest) ← scan_value (2 * String.length s + 2) d s;
  Some (before s rest, rest).

Fixpoint raw_elements (n : nat) (d : Z) (s : string) : option (list string * string) :=
  match n with
  | O => None
  | S n =>
      '(x, s1) ← raw_value d s;
      match eat "]" s1 with
      | Some s2 => Some ([x], s2)
      | None =>
          s2 ← eat "," s1;
          '(l, s3) ← raw_elements n d s2;
          Some (x :: l, s3)
      end
  end.

(** The members in the order of the text, duplicates included. *)
Fixpoint raw_members (n : nat) (d : Z) (s : string) :
    option (list (string * string) * string) :=
  match n with
  | O => None
  | S n =>
      r ← eat quote s;
      '(k, s1) ← string_body (S (String.length r)) r;
      s2 ← eat ":" s1;
      '(x, s3) ← raw_value d s2;
      match eat "}" s3 with
      | Some s4 => Some ([(k, x)], s4)
      | None =>
          s4 ← eat "," s3;
          '(l, s5) ← raw_members n d s4;
          Some ((k, x) :: l, s5)
      end
  end.

(** A raw value taken apart one level. *)
Inductive raw :=
  | RNull
  | RScalar (text : string)
  | RArray (items : list string)
  | RObject (members : list (string * string)).

Definition open_raw (text : string) : option raw :=
  match text with
  | String c r =>
      if decide (c = "{"%char) then
        match eat "}" r with
        | Some _ => Some (RObject [])
        | None => '(l, _) ← raw_members (S (String.length r)) (max_nesting - 1) r;
                  Some (RObject l)
        end
      else if decide (c = "["%char) then
        match eat "]" r with
        | Some _ => Some (RArray [])
        | None => '(l, _) ← raw_elements (S (String.length r)) (max_nesting - 1) r;
                  Some (RArray l)
        end
      else if decide (text = "null") then Some RNull
      else Some (RScalar text)
  | EmptyString => None
  end.

(** [json.Unmarshal] accepts one value with nothing but white space after it. *)
Definition unmarshal_raw (s : string) : option raw :=
  '(text, rest) ← raw_value max_nesting s;
  if decide (skip_ws rest = "") then open_raw text else None.

(** A slice of raw messages: [null] is the nil slice. *)
Definition raw_slice (r : raw) : option (list string) :=
  match r with RNull => Some [] | RArray l => Some l | _ => None end.

(** [json.Marshal] of a raw message: [compact] with HTML escaping. *)
Fixpoint compact_text (inside : bool) (s : string) : string :=
  match s with
  | EmptyString => ""
  | String c r =>
      if inside && bool_decide (c = backslash) then
        match r with
        | String e r' => String c (String e (compact_text inside r'))
        | EmptyString => String c ""
        end
      else if bool_decide (c = quote) then String c (compact_text (negb inside) r)
      else if negb inside && is_ws c then compact_text inside r
      else if (byte c =? 60) || (byte c =? 62) || (byte c =? 38)
      then escape_byte c +:+ compact_text inside r
      else
        match r with
        | String a (String b r') =>
            if (byte c =? 226) && (byte a =? 128) && (Z.land (byte b) 254 =? 168)
            then String backslash "u202" +:+ String (hex_digit (Z.land (byte b) 15)) ""
                   +:+ compact_text inside r'
            else String c (compact_text inside r)
        | _ => String c (compact_text inside r)
        end
  end.
Definition compact (s : string) : option string :=
  _ ← unmarshal_raw s; Some (compact_text false s).

Definition json_array (l : list string) : string := "[" +:+ sep_concat "," l +:+ "]".
Definition json_object (l : list (string * string)) : string :=
  "{" +:+ sep_concat "," ((λ '(k, v), marshal_string k +:+ ":" +:+ v) <$> l) +:+ "}".

(** ** converter/json.go *)

Section converter.
Context `{Protojson}.

Definition EncodeFieldType (value : option Field_Type) : result string :=
  match value with
  | None => Er (EOther "field type is nil")
  | Some value => wrap_err "encode field type: " (proto_marshal false value)
  end.

Definition DecodeFieldType (value : string) : result Field_Type :=
  wrap_err "decode field type: " (proto_unmarshal value).

Definition compacted (msg : string) (l : list string) : result (list string) :=
  collect (λ s, of_option (EWrap msg (EOther "invalid raw message")) (compact s)) l.

Definition EncodeFields (values : list (option Field)) : result string :=
  encoded ← collect (λ value, match value with
    | None => Er (EOther "encode fields: nil field")
    | Some value => wrap_err "encode fields: " (proto_marshal true value)
    end) values;
  items ← compacted "encode fields: " encoded;
  Ok (json_array items).

Definition DecodeFields (value : string) : result (list (option Field)) :=
  encodedValues ← of_option (EWrap "decode fields: " (EOther "json"))
                    (unmarshal_raw value ≫= raw_slice);
  collect (λ encoded, item ← wrap_err "decode fields: " (proto_unmarshal encoded);
                      Ok (Some item)) encodedValues.
End converter.

(** [*SelectOption] by its struct tags: [label], [value] and [description],
    all omitted when empty. *)
Definition option_members (o : SelectOption) : list (string * string) :=
  List.filter (λ kv, negb (bool_decide (kv.2 = "")))
    [("label", Option_Label o); ("value", Option_Value o);
     ("description", Option_Description o)].
Definition marshal_option (o : option SelectOption) : string :=
  match o with
  | None => "null"
  | Some o => json_object ((λ '(k, v), (k, marshal_string v)) <$> option_members o)
  end.

(** [None] is the nil slice. *)
Definition EncodeOptions (values : option (list (option SelectOption))) : result string :=
  Ok (match values with
      | None => "null"
      | Some values => json_array (marshal_option <$> values)
      end).

(** [foldRune]: the least rune of the orbit, for the orbits that meet ASCII. *)
Definition fold_rune (r : Z) : Z :=
  if in_range 97 122 r then r - 32
  else if r =? 383 then 83          (* long s *)
  else if r =? 8490 then 75         (* Kelvin sign *)
  else r.
(** A member of the text matches a field exactly or up to case. *)
Definition names_field (key field : string) : bool :=
  bool_decide (fold_rune <$> runes key = fold_rune <$> runes field).

(** A string member of a struct: [null] leaves the field alone, another value
    is a type error. *)
Definition set_string (current : string) (text : string) : option string :=
  match decode_value text with
  | Some (JString s, _) => Some s
  | Some (JNull, _) => Some current
  | _ => None
  end.

Definition set_option_member (o : SelectOption) (kv : string * string) : option SelectOption :=
  let '(k, v) := kv in
  if names_field k "label" then
    s ← set_string (Option_Label o) v;
    Some {| Option_Label := s; Option_Value := Option_Value o;
            Option_Description := Option_Description o |}
  else if names_field k "value" then
    s ← set_string (Option_Value o) v;
    Some {| Option_Label := Option_Label o; Option_Value := s;
            Option_Description := Option_Description o |}
  else if names_field k "description" then
    s ← set_string (Option_Description o) v;
    Some {| Option_Label := Option_Label o; Option_Value := Option_Value o;
            Option_Description := s |}
  else Some o.

Definition fold_option {A B} (f : A → B → option A) : list B → A → option A :=
  fix go l a := match l with [] => Some a | x :: l => a ← f a x; go l a end.

Definition unmarshal_option (text : string) : option (option SelectOption) :=
  r ← open_raw text;
  match r with
  | RNull => Some None
  | RObject l =>
      o ← fold_option set_option_member l
            {| Option_Label := ""; Option_Value := ""; Option_Description := "" |};
      Some (Some o)
  | _ => None
  end.

Definition DecodeOptions (value : string) : result (list (option SelectOption)) :=
  of_option (EWrap "decode enum values: " (EOther "json"))
    (l ← unmarshal_raw value ≫= raw_slice; mapM unmarshal_option l).

(** [\[\]Snapshot_Tag]: int32 numbers. *)
Definition EncodeTags (values : option (list Z)) : result string :=
  Ok (match values with
      | None => "null"
      | Some values => json_array (format_int <$> values)
      end).

Definition unmarshal_tag (text : string) : option Z :=
  if decide (text = "null") then Some 0
  else
    '(c, _) ← match text with String c r => Some (c, r) | EmptyString => None end;
    if is_digit c || bool_decide (c = "-"%char) then
      n ← parse_int64 text;
      if in_range (- 2 ^ 31) (2 ^ 31 - 1) n then Some n else None
    else None.

Definition DecodeTags (value : string) : result (list Z) :=
  of_option (EWrap "decode snapshot tags: " (EOther "json"))
    (l ← unmarshal_raw value ≫= raw_slice; mapM unmarshal_tag l).

(** ** entity/snapshot.go *)

Record ConfigSnapshot := {
  sc_Config : option Config;
  sc_Structures : list (option Structure);
  sc_Enums : list (option ConfigEnum);
  sc_Tree : option TreeNode;
}.

(** The raw members collected so far; an absent or empty text is the nil
    [RawMessage]. *)
Record configSnapshotJSON := {
  wire_Config : string;
  wire_Structures : list string;
  wire_Enums : list string;
  wire_Tree : string;
}.
Definition no_wire : configSnapshotJSON :=
  {| wire_Config := ""; wire_Structures := []; wire_Enums := []; wire_Tree := "" |}.

Definition set_wire_member (w : configSnapshotJSON) (kv : string * string) :
    option configSnapshotJSON :=
  let '(k, v) := kv in
  if names_field k "config" then
    Some {| wire_Config := v; wire_Structures := wire_Structures w;
            wire_Enums := wire_Enums w; wire_Tree := wire_Tree w |}
  else if names_field k "structures" then
    l ← open_raw v ≫= raw_slice;
    Some {| wire_Config := wire_Config w; wire_Structures := l;
            wire_Enums := wire_Enums w; wire_Tree := wire_Tree w |}
  else if names_field k "enums" then
    l ← open_raw v ≫= raw_slice;
    Some {| wire_Config := wire_Config w; wire_Structures := wire_Structures w;
            wire_Enums := l; wire_Tree := wire_Tree w |}
  else if names_field k "tree" then
    Some {| wire_Config := wire_Config w; wire_Structures := wire_Structures w;
            wire_Enums := wire_Enums w; wire_Tree := v |}
  else None.                          (* DisallowUnknownFields *)

(** [decoder.Decode(&wire)]: the wire value and the rest of the text. *)
Definition decode_wire (content : string) : option (configSnapshotJSON * string) :=
  '(text, rest) ← raw_value max_nesting content;
  r ← open_raw text;
  match r with
  | RNull => Some (no_wire, rest)
  | RObject l => w ← fold_option set_wire_member l no_wire; Some (w, rest)
  | _ => None
  end.

(** [decoder.Decode(&struct{}{})] after the document: [None] at the end of the
    text, otherwise the error to report. *)
Definition trailing (rest : string) : option Err :=
  let bad := EWrap "decode snapshot content: " (EOther "json") in
  if decide (skip_ws rest = "") then None
  else
    Some (match (raw_value max_nesting rest) ≫= (λ '(text, _), open_raw text) with
          | Some RNull | Some (RObject []) =>
              EInvalid "snapshot content contains trailing JSON"
          | _ => bad
          end).

Section snapshot.
Context `{Protojson}.

Definition marshalProto {A} `{ProtoJSON A} (value : option A) : result string :=
  match value with
  | None => Er (EInvalid "snapshot contains a nil message")
  | Some value => wrap_err "encode snapshot message: " (proto_marshal true value)
  end.

Definition unmarshalProto {A} `{ProtoJSON A} (encoded : string) : result A :=
  if bool_decide (encoded = "") || bool_decide (encoded = "null")
  then Er (EInvalid "snapshot content is incomplete")
  else wrap_err "decode snapshot message: " (proto_unmarshal encoded).

Definition EncodeConfigSnapshot (value : option ConfigSnapshot) : result string :=
  match value with
  | Some value =>
      if bool_decide (is_Some (sc_Config value)) && bool_decide (is_Some (sc_Tree value)) then
        config ← marshalProto (sc_Config value);
        tree ← marshalProto (sc_Tree value);
        structures ← collect marshalProto (sc_Structures value);
        enums ← collect marshalProto (sc_Enums value);
        let failed := "encode snapshot content: " in
        config ← of_option (EWrap failed (EOther "invalid raw message")) (compact config);
        structures ← compacted failed structures;
        enums ← compacted failed enums;
        tree ← of_option (EWrap failed (EOther "invalid raw message")) (compact tree);
        Ok (json_object [("config", config); ("structures", json_array structures);
                         ("enums", json_array enums); ("tree", tree)])
      else Er (EInvalid "snapshot content is incomplete")
  | None => Er (EInvalid "snapshot content is incomplete")
  end.

Definition DecodeConfigSnapshot (content : string) : result ConfigSnapshot :=
  '(wire, rest) ← of_option (EWrap "decode snapshot content: " (EOther "json"))
                    (decode_wire content);
  match trailing rest with
  | Some e => Er e
  | None =>
      config ← unmarshalProto (wire_Config wire);
      tree ← unmarshalProto (wire_Tree wire);
      structures ← collect unmarshalProto (wire_Structures wire);
      enums ← collect unmarshalProto (wire_Enums wire);
      Ok {| sc_Config := Some config; sc_Structures := Some <$> structures;
            sc_Enums := Some <$> enums; sc_Tree := Some tree |}
  end.
End snapshot.
