(* ===== verification/CodecLaws.v ===== *)
(** The stored documents are read back as written: splitting into raw values
    inverts the encoders of [Codec]. *)

From S2P Require Import Prelude GoStd GoStrings Json Proto Codec.
From Stdlib Require Import Ascii.

Local Open Scope Z_scope.

(** ** Texts the scanner reads as one value wherever they stand *)

Definition opens (t : string) : Prop := ∃ c t', t = String c t' ∧
  is_ws c = false ∧ c ≠ "]"%char ∧ c ≠ "}"%char.

(** [k] is the nesting the text needs. *)
Definition raw_text (k : Z) (t : string) : Prop :=
  opens t ∧ ∀ n d r, k ≤ d → (2 * String.length t < n)%nat → closes r →
    ∃ j, scan_value n d (t +:+ r) = Some (j, r).

Lemma raw_text_weaken k k' t : k ≤ k' → raw_text k t → raw_text k' t.
Proof. intros Hk [Ho Ht]. split; [done|]. intros n d r Hd. apply Ht. lia. Qed.

Lemma canonical_raw j : canonical j → raw_text (nesting j) (marshal j).
Proof.
  intros Hc. split.
  - destruct (marshal_head j Hc) as (c & s & ? & ? & ? & ? & _). by exists c, s.
  - intros n d r Hd Hn Hr. exists j. by apply value_marshal.
Qed.

Lemma skip_ws_opens t r : opens t → skip_ws (t +:+ r) = t +:+ r.
Proof. intros (c & t' & -> & Hw & _). rewrite app_cons_s. simpl. by rewrite Hw. Qed.

Lemma eat_opens c t r : opens t → c = "]"%char ∨ c = "}"%char → eat c (t +:+ r) = None.
Proof.
  intros (c' & t' & -> & Hw & H1 & H2) Hc. rewrite app_cons_s. apply eat_miss; [done|].
  by destruct Hc as [->| ->].
Qed.

Lemma substring_prefix t r : String.substring 0 (String.length t) (t +:+ r) = t.
Proof. induction t as [|c t IH]; [by destruct r|]. simpl. by f_equal. Qed.

Lemma before_app t r : before (t +:+ r) r = t.
Proof.
  unfold before. rewrite app_length_s.
  replace (_ + _ - _)%nat with (String.length t) by lia. apply substring_prefix.
Qed.

Lemma raw_value_text k t d r : raw_text k t → k ≤ d → closes r →
  raw_value d (t +:+ r) = Some (t, r).
Proof.
  intros [Ho Ht] Hd Hr. unfold raw_value. rewrite skip_ws_opens by done.
  rewrite app_length_s.
  destruct (Ht (2 * (String.length t + String.length r) + 2)%nat d r) as [j Hj];
    [done|lia|done|].
  rewrite Hj. simpl. by rewrite before_app.
Qed.

(** ** Arrays *)

Lemma sep_concat_cons x y l :
  sep_concat "," (x :: y :: l) = x +:+ "," +:+ sep_concat "," (y :: l).
Proof. done. Qed.

Lemma raw_elements_texts k l d r n : l ≠ [] → Forall (raw_text k) l → k ≤ d →
  (length l ≤ n)%nat →
  raw_elements n d (sep_concat "," l +:+ String "]" r) = Some (l, r).
Proof.
  revert n. induction l as [|t l IH]; [done|]. intros n _ [Ht Hl]%Forall_cons Hd Hn.
  destruct n as [|n]; simpl in Hn; [lia|]. destruct l as [|u l].
  - cbn [sep_concat raw_elements]. rewrite (raw_value_text k) by (done || (simpl; auto)).
    cbn. by rewrite eat_hit.
  - rewrite sep_concat_cons, !app_assoc_s, app_cons_s, app_empty_s.
    cbn [raw_elements]. rewrite (raw_value_text k) by (done || (simpl; auto)).
    cbn [mbind option_bind]. rewrite eat_miss, eat_hit by done. cbn [mbind option_bind].
    rewrite (IH n) by (simpl in *; done || lia). done.
Qed.

Lemma scan_elements_texts k l d r n : l ≠ [] → Forall (raw_text k) l → k ≤ d →
  (2 * String.length (sep_concat "," l) + 1 < n)%nat →
  ∃ j, scan_elements n d (sep_concat "," l +:+ String "]" r) = Some (JArray j, r).
Proof.
  revert n. induction l as [|t l IH]; [done|]. intros n _ [[Ho Ht] Hl]%Forall_cons Hd Hn.
  destruct n as [|n]; [lia|]. destruct l as [|u l].
  - cbn [sep_concat scan_elements] in *.
    destruct (Ht n d (String "]" r)) as [j Hj]; [done|lia|simpl; auto|].
    rewrite Hj. cbn. rewrite eat_hit by done. eauto.
  - rewrite sep_concat_cons, !app_length_s in Hn. simpl String.length in Hn at 2.
    rewrite sep_concat_cons, !app_assoc_s, app_cons_s, app_empty_s. cbn [scan_elements].
    destruct (Ht n d (String "," (sep_concat "," (u :: l) +:+ String "]" r))) as [j Hj];
      [done|lia|simpl; auto|].
    rewrite Hj. cbn [mbind option_bind]. rewrite eat_miss, eat_hit by done.
    cbn [mbind option_bind].
    destruct (IH n) as [j' ->]; [done|done|done|lia|]. cbn. eauto.
Qed.

Lemma sep_concat_opens l : l ≠ [] → Forall opens l → opens (sep_concat "," l).
Proof.
  destruct l as [|t [|u l]]; [done|intros _ [Ht _]%Forall_cons; exact Ht|].
  intros _ [(c & t' & -> & ?) _]%Forall_cons. rewrite sep_concat_cons, app_cons_s.
  by exists c, (t' +:+ "," +:+ sep_concat "," (u :: l)).
Qed.

Lemma raw_texts_open k l : Forall (raw_text k) l → Forall opens l.
Proof. intros Hl. eapply Forall_impl; [done|]. by intros t [? _]. Qed.

Lemma json_array_text l : json_array l = String "[" (sep_concat "," l +:+ "]").
Proof. done. Qed.

Lemma array_raw k l : 0 ≤ k → Forall (raw_text k) l → raw_text (k + 1) (json_array l).
Proof.
  intros Hk Hl. rewrite json_array_text. split; [by eexists _, _|].
  intros n d r Hd Hn Hr. rewrite app_cons_s, app_assoc_s. simpl String.length in Hn.
  rewrite app_length_s in Hn. simpl in Hn.
  destruct n as [|n]; [lia|]. cbn [scan_value skip_ws].
  assert (is_ws "["%char = false) as -> by done. cbn [decide].
  rewrite decide_False, decide_True by done. rewrite (proj2 (Z.leb_gt d 0)) by lia.
  rewrite app_cons_s, app_empty_s.
  destruct l as [|t l].
  - cbn [sep_concat]. rewrite app_empty_s, eat_hit by done. eauto.
  - rewrite eat_opens; [|by apply sep_concat_opens, (raw_texts_open k)|by left].
    destruct (scan_elements_texts k (t :: l) (d - 1) r n) as [j ->]; [done|done|lia|lia|].
    eauto.
Qed.

Lemma open_array k l : k < max_nesting → Forall (raw_text k) l →
  open_raw (json_array l) = Some (RArray l).
Proof.
  intros Hk Hl. rewrite json_array_text. unfold open_raw.
  rewrite decide_False, decide_True by done. destruct l as [|t l].
  - cbn [sep_concat]. rewrite app_empty_s. by rewrite eat_hit.
  - rewrite eat_opens; [|by apply sep_concat_opens, (raw_texts_open k)|by left].
    rewrite (raw_elements_texts k); [done|done|done|lia|].
    rewrite app_length_s. generalize (raw_texts_open _ _ Hl). clear.
    revert t. induction l as [|u l IH]; intros t Hl; [simpl; lia|].
    apply Forall_cons in Hl as [_ Hl]. specialize (IH u Hl).
    rewrite sep_concat_cons, !app_length_s. simpl in *. lia.
Qed.

(** A document with nothing after it. *)
Lemma unmarshal_text k t : raw_text k t → k ≤ max_nesting → unmarshal_raw t = open_raw t.
Proof.
  intros Ht Hk. unfold unmarshal_raw. rewrite <-(app_nil_s t) at 1.
  by rewrite (raw_value_text k).
Qed.

Lemma slice_array k l : 0 ≤ k → k + 1 < max_nesting → Forall (raw_text k) l →
  unmarshal_raw (json_array l) ≫= raw_slice = Some l.
Proof.
  intros H0 Hk Hl. rewrite (unmarshal_text (k + 1)); [|by apply array_raw|lia].
  by rewrite (open_array k) by (done || lia).
Qed.

(** ** Objects *)

Definition member (kv : string * string) : string := marshal_string kv.1 +:+ ":" +:+ kv.2.
#[local] Arguments member : simpl never.
Definition raw_member (k : Z) (kv : string * string) : Prop := plain kv.1 ∧ raw_text k kv.2.

Lemma json_object_text l :
  json_object l = String "{" (sep_concat "," (member <$> l) +:+ "}").
Proof.
  unfold json_object. rewrite app_cons_s, app_empty_s. f_equal. f_equal. f_equal.
  apply list_fmap_ext. by intros ? [k v] ?.
Qed.

Lemma member_head kv r : plain kv.1 →
  member kv +:+ r = String quote (kv.1 +:+ String quote (String ":" (kv.2 +:+ r))).
Proof.
  intros Hp. unfold member. rewrite app_assoc_s, app_assoc_s, app_cons_s, app_empty_s.
  by apply marshal_string_decodes.
Qed.

Lemma member_opens kv : plain kv.1 → opens (member kv).
Proof.
  intros Hp. rewrite <-(app_nil_s (member kv)), member_head by done.
  by eexists _, _.
Qed.

Lemma member_length kv : plain kv.1 →
  String.length (member kv) = (3 + String.length kv.1 + String.length kv.2)%nat.
Proof.
  intros Hp. rewrite <-(app_nil_s (member kv)), member_head by done.
  simpl. rewrite app_length_s. simpl. rewrite app_length_s. simpl. lia.
Qed.

Lemma raw_members_texts k l d r n : l ≠ [] → Forall (raw_member k) l → k ≤ d →
  (length l ≤ n)%nat →
  raw_members n d (sep_concat "," (member <$> l) +:+ String "}" r) = Some (l, r).
Proof.
  revert n. induction l as [|[a v] l IH]; [done|].
  intros n _ [[Hp Ht] Hl]%Forall_cons Hd Hn. simpl in Hp, Ht.
  destruct n as [|n]; simpl in Hn; [lia|]. destruct l as [|u l]; rewrite ?fmap_cons, ?fmap_nil.
  - cbn [sep_concat]. rewrite member_head by done. cbn [raw_members].
    rewrite eat_hit by done. cbn [mbind option_bind].
    rewrite string_body_plain by (rewrite ?app_length_s; simpl; done || lia).
    cbn [mbind option_bind]. rewrite eat_hit by done. cbn [mbind option_bind].
    rewrite (raw_value_text k) by (done || (simpl; auto)). cbn. by rewrite eat_hit.
  - rewrite sep_concat_cons, !app_assoc_s, member_head, app_cons_s, app_empty_s by done.
    cbn [raw_members]. rewrite eat_hit by done. cbn [mbind option_bind].
    rewrite string_body_plain by (rewrite ?app_length_s; simpl; done || lia).
    cbn [mbind option_bind]. rewrite eat_hit by done. cbn [mbind option_bind].
    simpl snd. rewrite (raw_value_text k) by (done || (simpl; auto)).
    cbn [mbind option_bind]. rewrite eat_miss, eat_hit by done. cbn [mbind option_bind].
    rewrite <-fmap_cons.
    rewrite (IH n); [done|done|done|done|simpl in *; lia].
Qed.

Lemma scan_members_texts k l acc d r n : l ≠ [] → Forall (raw_member k) l → k ≤ d →
  (2 * String.length (sep_concat "," (member <$> l)) + 1 < n)%nat →
  ∃ j, scan_members n d acc (sep_concat "," (member <$> l) +:+ String "}" r)
       = Some (JObject j, r).
Proof.
  revert n acc. induction l as [|[a v] l IH]; [done|].
  intros n acc _ [[Hp [Ho Ht]] Hl]%Forall_cons Hd Hn. simpl in Hp, Ht.
  destruct n as [|n]; [lia|]. destruct l as [|u l]; rewrite ?fmap_cons, ?fmap_nil.
  - change (sep_concat "," (member <$> [(a, v)])) with (member (a, v)) in Hn.
    rewrite member_length in Hn by done. simpl in Hn.
    cbn [sep_concat]. rewrite member_head by done. cbn [scan_members].
    rewrite eat_hit by done. cbn [mbind option_bind].
    rewrite string_body_plain by (rewrite ?app_length_s; simpl; done || lia).
    cbn [mbind option_bind]. rewrite eat_hit by done. cbn [mbind option_bind].
    destruct (Ht n d (String "}" r)) as [j Hj]; [done|lia|simpl; auto|].
    simpl snd. rewrite Hj. cbn. rewrite eat_hit by done. eauto.
  - change (sep_concat "," (member <$> (a, v) :: u :: l)) with
      (member (a, v) +:+ "," +:+ sep_concat "," (member <$> (u :: l))) in Hn.
    rewrite !app_length_s, member_length in Hn by done.
    change (String.length ",") with 1%nat in Hn. cbn [fst snd] in Hn.
    rewrite sep_concat_cons, !app_assoc_s, member_head, app_cons_s, app_empty_s by done.
    cbn [scan_members]. rewrite eat_hit by done. cbn [mbind option_bind].
    rewrite string_body_plain by (rewrite ?app_length_s; simpl; done || lia).
    cbn [mbind option_bind]. rewrite eat_hit by done. cbn [mbind option_bind].
    rewrite <-fmap_cons. simpl snd.
    destruct (Ht n d (String "," (sep_concat "," (member <$> (u :: l)) +:+ String "}" r)))
      as [j Hj]; [done|lia|simpl; auto|].
    rewrite Hj. cbn [mbind option_bind]. cbv zeta.
    rewrite eat_miss, eat_hit by done. cbn [mbind option_bind].
    apply IH; [done|done|done|lia].
Qed.

Lemma members_open k l : l ≠ [] → Forall (raw_member k) l →
  opens (sep_concat "," (member <$> l)).
Proof.
  intros Hn Hl. apply sep_concat_opens; [by destruct l|].
  apply Forall_fmap. eapply Forall_impl; [done|]. intros kv [Hp _]. by apply member_opens.
Qed.

Lemma object_raw k l : 0 ≤ k → Forall (raw_member k) l → raw_text (k + 1) (json_object l).
Proof.
  intros Hk Hl. rewrite json_object_text. split; [by eexists _, _|].
  intros n d r Hd Hn Hr. rewrite app_cons_s, app_assoc_s. simpl String.length in Hn.
  rewrite app_length_s in Hn. simpl in Hn.
  destruct n as [|n]; [lia|]. cbn [scan_value skip_ws].
  assert (is_ws "{"%char = false) as -> by done. cbn [decide].
  rewrite decide_True by done. rewrite (proj2 (Z.leb_gt d 0)) by lia.
  rewrite app_cons_s, app_empty_s.
  destruct l as [|t l].
  - cbn [fmap list_fmap sep_concat]. rewrite app_empty_s, eat_hit by done. eauto.
  - rewrite eat_opens; [|by apply (members_open k)|by right].
    destruct (scan_members_texts k (t :: l) [] (d - 1) r n) as [j ->];
      [done|done|lia|lia|]. eauto.
Qed.

Lemma open_object k l : k < max_nesting → Forall (raw_member k) l →
  open_raw (json_object l) = Some (RObject l).
Proof.
  intros Hk Hl. rewrite json_object_text. unfold open_raw.
  rewrite decide_True by done. destruct l as [|t l].
  - cbn [fmap list_fmap sep_concat]. rewrite app_empty_s. by rewrite eat_hit.
  - rewrite eat_opens; [|by apply (members_open k)|by right].
    rewrite (raw_members_texts k); [done|done|done|lia|].
    rewrite app_length_s. clear Hk. revert t Hl. induction l as [|u l IH]; intros t Hl;
      [simpl; lia|].
    apply Forall_cons in Hl as [_ Hl]. specialize (IH u Hl).
    rewrite !fmap_cons, sep_concat_cons, <-fmap_cons, !app_length_s.
    change (String.length ",") with 1%nat. cbn [length] in *. lia.
Qed.

(** ** Messages *)

Definition message_nesting : Z := 9000.

(** What the program relies on for a message it stores: [protojson] encodes
    it, [encoding/json] accepts and compacts the text, the compact text is one
    value other than [null], and [protojson] reads it back. *)
Definition stored {A} `{ProtoJSON A} (names : bool) (m : A) (c : string) : Prop :=
  ∃ s, proto_marshal names m = Ok s ∧ compact s = Some c ∧
    raw_text message_nesting c ∧ c ≠ "null" ∧ proto_unmarshal c = Ok m.

Definition storable {A} `{ProtoJSON A} (names : bool) (m : A) : Prop :=
  ∃ c, stored names m c.

Lemma unmarshalProto_stored {A} `{ProtoJSON A} names (m : A) c :
  stored names m c → unmarshalProto c = Ok m.
Proof.
  intros (s & _ & _ & [Ho _] & Hn & Hu). unfold unmarshalProto.
  rewrite !bool_decide_false; [by rewrite Hu|done|].
  intros ->. by destruct Ho as (? & ? & ? & _).
Qed.

(** Encoding a list of messages and compacting, then decoding each. *)
Lemma stored_list {A} `{ProtoJSON A} names (l : list A) : Forall (storable names) l →
  ∃ ss cs, collect (proto_marshal names) l = Ok ss ∧
    (∀ msg, compacted msg ss = Ok cs) ∧ Forall (raw_text message_nesting) cs ∧
    collect unmarshalProto cs = Ok l ∧ collect (@proto_unmarshal A _) cs = Ok l.
Proof.
  induction 1 as [|m l [c Hm] _ (ss & cs & Hs & Hc & Hr & Hu & Hp)].
  { exists [], []. done. }
  pose proof (unmarshalProto_stored names m c Hm) as Hum.
  destruct Hm as (s & Hms & Hcs & Hrc & _ & Hpm). exists (s :: ss), (c :: cs).
  split_and!; [..|by constructor|simpl; by rewrite Hum, Hu|simpl; by rewrite Hpm, Hp].
  - simpl. by rewrite Hms, Hs.
  - intros msg. unfold compacted in *. simpl. by rewrite Hcs, Hc.
Qed.

(** ** The documents *)

Section documents.
Context `{Protojson}.

Lemma collect_present {A} `{ProtoJSON A} (f : option A → result string) (l : list A) ss :
  (∀ m s, proto_marshal true m = Ok s → f (Some m) = Ok s) →
  collect (proto_marshal true) l = Ok ss → collect f (Some <$> l) = Ok ss.
Proof.
  intros Hf. rewrite !collect_Ok, Forall2_fmap_l. intros Hl.
  eapply Forall2_impl; [exact Hl|]. simpl. eauto.
Qed.

Lemma fields_roundtrip (l : list Field) : Forall (storable true) l →
  ∃ text, EncodeFields (Some <$> l) = Ok text ∧ DecodeFields text = Ok (Some <$> l).
Proof.
  intros (ss & cs & Hs & Hc & Hr & _ & Hp)%stored_list. exists (json_array cs).
  unfold EncodeFields, DecodeFields. split.
  - rewrite (collect_present _ l ss);
      [cbn; by rewrite Hc|by intros m s ->|done].
  - rewrite (slice_array message_nesting) by done. simpl. clear -Hp.
    revert l Hp. induction cs as [|c cs IH]; intros l Hl; simpl in *.
    { by injection Hl as <-. }
    destruct (proto_unmarshal c) as [m|]; [|done]. simpl in *.
    destruct (collect _ cs) as [l'|] eqn:E; [|done]. injection Hl as <-.
    by rewrite (IH l').
Qed.

Lemma wire_members c st en t : Forall (raw_text message_nesting) st →
  Forall (raw_text message_nesting) en →
  fold_option set_wire_member
    [("config", c); ("structures", json_array st); ("enums", json_array en); ("tree", t)]
    no_wire =
  Some {| wire_Config := c; wire_Structures := st; wire_Enums := en; wire_Tree := t |}.
Proof.
  intros Hs He.
  assert (∀ v w, set_wire_member w ("config", v) =
    Some {| wire_Config := v; wire_Structures := wire_Structures w;
            wire_Enums := wire_Enums w; wire_Tree := wire_Tree w |}) as Hconfig by done.
  assert (∀ v w, set_wire_member w ("structures", v) = (l ← open_raw v ≫= raw_slice;
    Some {| wire_Config := wire_Config w; wire_Structures := l;
            wire_Enums := wire_Enums w; wire_Tree := wire_Tree w |})) as Hstructures by done.
  assert (∀ v w, set_wire_member w ("enums", v) = (l ← open_raw v ≫= raw_slice;
    Some {| wire_Config := wire_Config w; wire_Structures := wire_Structures w;
            wire_Enums := l; wire_Tree := wire_Tree w |})) as Henums by done.
  assert (∀ v w, set_wire_member w ("tree", v) =
    Some {| wire_Config := wire_Config w; wire_Structures := wire_Structures w;
            wire_Enums := wire_Enums w; wire_Tree := v |}) as Htree by done.
  unfold fold_option. rewrite Hconfig. cbn [mbind option_bind].
  rewrite Hstructures, (open_array message_nesting) by done. cbn [mbind option_bind raw_slice].
  rewrite Henums, (open_array message_nesting) by done. cbn [mbind option_bind raw_slice].
  by rewrite Htree.
Qed.

Lemma snapshot_roundtrip config tree (ss : list Structure) (es : list ConfigEnum) :
  storable true config → storable true tree →
  Forall (storable true) ss → Forall (storable true) es →
  let value := {| sc_Config := Some config; sc_Structures := Some <$> ss;
                  sc_Enums := Some <$> es; sc_Tree := Some tree |} in
  ∃ text, EncodeConfigSnapshot (Some value) = Ok text ∧
          DecodeConfigSnapshot text = Ok value.
Proof.
  intros [c Hc] [t Ht] (st & cst & Hst & Hcst & Hrst & Hust & _)%stored_list
    (en & cen & Hen & Hcen & Hren & Huen & _)%stored_list value.
  pose proof (unmarshalProto_stored _ _ _ Hc) as Huc.
  pose proof (unmarshalProto_stored _ _ _ Ht) as Hut.
  destruct Hc as (mc & Hmc & Hcc & Hrc & _), Ht as (mt & Hmt & Hct & Hrt & _).
  set (members := [("config", c); ("structures", json_array cst);
                   ("enums", json_array cen); ("tree", t)]).
  exists (json_object members). split.
  - unfold EncodeConfigSnapshot, value. cbn [sc_Config sc_Tree sc_Structures sc_Enums].
    rewrite !bool_decide_true by done. cbn [andb].
    cbn [marshalProto]. rewrite Hmc, Hmt. cbn [wrap_err mbind result_bind].
    rewrite (collect_present marshalProto ss st); [|by intros m s; simpl; intros ->|done].
    rewrite (collect_present marshalProto es en); [|by intros m s; simpl; intros ->|done].
    cbn [mbind result_bind].
    rewrite Hcc, Hct. cbn [of_option mbind result_bind].
    rewrite Hcst. cbn [mbind result_bind]. rewrite Hcen. done.
  - assert (Forall (raw_member (message_nesting + 1)) members) as Hm.
    { unfold members. rewrite !Forall_cons, Forall_nil. unfold raw_member. simpl.
      split_and!; try done;
        first [by apply array_raw | by apply (raw_text_weaken message_nesting)]. }
    unfold DecodeConfigSnapshot, decode_wire.
    rewrite <-(app_nil_s (json_object members)).
    rewrite (raw_value_text (message_nesting + 1 + 1)); [|by apply object_raw|done|done].
    cbn [mbind option_bind]. rewrite (open_object (message_nesting + 1)) by done.
    cbn [mbind option_bind]. unfold members. rewrite wire_members by done.
    cbn [mbind option_bind of_option result_bind wire_Config wire_Tree wire_Structures
         wire_Enums]. cbn. rewrite Huc, Hut. cbn. rewrite Hust. cbn. by rewrite Huen.
Qed.
End documents.
