(* ===== verification/Schema.v ===== *)
(** [server/internal/entity/schema.go]: configuration definitions, the graph
    of structure references, JSON values checked and built against a type.
    The definitions follow the file function by function; a function whose Go
    recursion is not structural takes its fuel as first argument. *)

From S2P Require Import Prelude GoStd GoStrings Util Json Proto.
From Stdlib Require Import Ascii.

Local Open Scope Z_scope.

Record Schema := {
  structures : gmap string Structure;
  enums : gmap string ConfigEnum;
}.

(** Go visits a map in an order of its own choice. *)
Class MapOrder := {
  map_keys : gmap string Structure → list string;
  map_keys_perm : ∀ m k, k ∈ map_keys m ↔ is_Some (m !! k);
}.

(** ^[A-Za-z][A-Za-z0-9]*$ *)
Definition schemaKeyPattern (s : string) : bool :=
  match s with
  | String c s => is_letter c && forall_bytes is_alnum s
  | EmptyString => false
  end.

(** ^[A-Z][A-Z0-9_]*$ *)
Definition enumValuePattern (s : string) : bool :=
  match s with
  | String c s =>
      is_upper c &&
      forall_bytes (λ c, is_upper c || is_digit c || bool_decide (c = "_"%char)) s
  | EmptyString => false
  end.

Definition validKey (value : string) : bool :=
  (len value <=? 64) && schemaKeyPattern value.

Definition validName (value : string) : bool :=
  let length := rune_count value in
  negb (blank value) && (length <=? 64).

(** ** Construction *)

Definition add_structure (m : gmap string Structure) (item : option Structure) :
    result (gmap string Structure) :=
  match item with
  | Some item =>
      if negb (validKey (Structure_Key item)) || negb (validName (Structure_Name item))
         || (255 <? rune_count (Structure_Description item))
      then Er (EInvalid "structure key is required")
      else if bool_decide (is_Some (m !! Structure_Key item))
      then Er (EConflict ("duplicate structure key " +:+ Structure_Key item))
      else Ok (<[Structure_Key item := item]> m)
  | None => Er (EInvalid "structure key is required")
  end.

Definition bad_option (seen : gset string) (option : option SelectOption) : bool :=
  match option with
  | None => true
  | Some option =>
      negb (enumValuePattern (Option_Value option))
      || negb (validName (Option_Label option))
      || (255 <? rune_count (Option_Description option))
      || Set_.Contains seen (Option_Value option)
  end.

Definition validateEnumValues (item : ConfigEnum) : result unit :=
  fold_m (λ seen option,
    if bad_option seen option
    then Er (EInvalid ("enum " +:+ Enum_Key item +:+ " contains an invalid or duplicate value"))
    else Ok (match option with
             | Some option => Set_.Add seen [Option_Value option] | None => seen end))
    (Enum_Values item) (Set_.New []);;
  Ok tt.

Definition add_enum (m : gmap string ConfigEnum) (item : option ConfigEnum) :
    result (gmap string ConfigEnum) :=
  match item with
  | Some item =>
      if negb (validKey (Enum_Key item)) || negb (validName (Enum_Name item))
         || (255 <? rune_count (Enum_Description item))
         || bool_decide (length (Enum_Values item) = 0%nat)
      then Er (EInvalid "enum key and values are required")
      else if bool_decide (is_Some (m !! Enum_Key item))
      then Er (EConflict ("duplicate enum key " +:+ Enum_Key item))
      else validateEnumValues item;; Ok (<[Enum_Key item := item]> m)
  | None => Er (EInvalid "enum key and values are required")
  end.

Definition validateType (s : Schema) (fieldType : option Field_Type) : result unit :=
  match fieldType with
  | None | Some {| Kind := None |} => Er (EInvalid "field type is required")
  | Some {| Kind := Some value |} =>
      match value with
      | Field_Type_BaseType b =>
          if (b <? STRING) || (FILE <? b)
          then Er (EInvalid "unsupported base type") else Ok tt
      | Field_Type_StructureKey k =>
          if bool_decide (is_Some (structures s !! k)) then Ok tt
          else Er (EInvalid ("referenced structure " +:+ k +:+ " does not exist"))
      | Field_Type_EnumKey k =>
          if bool_decide (is_Some (enums s !! k)) then Ok tt
          else Er (EInvalid ("referenced enum " +:+ k +:+ " does not exist"))
      end
  end.

Definition bad_field (seen : gset string) (field : Field) : bool :=
  negb (validKey (Field_Key field)) || negb (validName (Field_Name field))
  || (255 <? rune_count (Field_Description field))
  || Set_.Contains seen (Field_Key field).

Definition validateStructureFields (s : Schema) (item : Structure) : result unit :=
  let bad := EInvalid ("structure " +:+ Structure_Key item
                       +:+ " contains an invalid or duplicate field") in
  fold_m (λ seen field,
    match field with
    | None => Er bad
    | Some field =>
        if bad_field seen field then Er bad
        else
          validateType s (Field_type field);;
          Ok (Set_.Add seen [Field_Key field])
    end) (Structure_Fields item) (Set_.New []);;
  Ok tt.

(** The local variables of [validateCycles]. *)
Record Walk := { visiting : gset string; visited : gset string }.

(** The body of the closure's loop; [rec] is the recursive call. *)
Definition walk_field (rec : Walk → string → result Walk) (st : Walk)
    (field : option Field) : result Walk :=
  let dependency := GetStructureKey (Field_GetType field) in
  if bool_decide (dependency = "") then Ok st else rec st dependency.

(** The recursive closure [walk]. *)
Fixpoint walk (fuel : nat) (s : Schema) (path : list string) (st : Walk)
    (key : string) : result Walk :=
  match fuel with
  | O => Er EFuel
  | S fuel =>
      if Set_.Contains (visiting st) key
      then Er (EConflict ("structure cycle: " +:+ sep_concat " -> " (path ++ [key])))
      else if Set_.Contains (visited st) key then Ok st
      else
        match structures s !! key with
        | None => Er (EPanic "nil structure")
        | Some structure =>
            st ← fold_m (walk_field (walk fuel s (path ++ [key])))
                 (Structure_Fields structure)
                 {| visiting := Set_.Add (visiting st) [key]; visited := visited st |};
            Ok {| visiting := Set_.Remove (visiting st) [key];
                  visited := Set_.Add (visited st) [key] |}
        end
  end.

Definition cycle_fuel (s : Schema) : nat := 2 + size (structures s).

Definition validateCycles `{MapOrder} (s : Schema) : result unit :=
  fold_m (walk (cycle_fuel s) s []) (map_keys (structures s))
    {| visiting := Set_.New []; visited := Set_.New [] |};;
  Ok tt.

Definition NewSchema `{MapOrder} (items : list (option Structure))
    (enum_items : list (option ConfigEnum)) : result Schema :=
  ss ← fold_m add_structure items ∅;
  es ← fold_m add_enum enum_items ∅;
  let s := {| structures := ss; enums := es |} in
  each (λ item, match item with
                | Some item => validateStructureFields s item
                | None => Er (EPanic "nil structure")
                end) items;;
  validateCycles s;;
  Ok s.

(** ** Checking values *)

(** The dynamic type of a decoded value and its error text. *)
Definition does_not_match (path : string) (baseType : Z) : Err :=
  EInvalid (path +:+ " does not match " +:+ base_type_string baseType).

Definition validTime (value : json) (layout : list chunk) : bool :=
  match value with
  | JString text => time_parse_ok layout text
  | _ => false
  end.

Definition validRange (value : json) (layout : list chunk) : bool :=
  match value with
  | JArray [a; b] => validTime a layout && validTime b layout
  | _ => false
  end.

Definition validateBaseValue (baseType : Z) (value : json) (path : string) :
    result unit :=
  let valid :=
    if bool_decide (baseType ∈ [STRING; IMAGE; VIDEO; FILE]) then
      match value with JString _ => true | _ => false end
    else if baseType =? INT then
      match value with
      | JNumber t => bool_decide (is_Some (parse_int64 t)) | _ => false end
    else if baseType =? DECIMAL then
      match value with JNumber t => parse_float_ok t | _ => false end
    else if baseType =? BOOLEAN then
      match value with JBool _ => true | _ => false end
    else if baseType =? DATE then validTime value date_layout
    else if baseType =? TIME then validTime value time_layout
    else if baseType =? DATETIME then validTime value datetime_layout
    else if baseType =? DATE_RANGE then validRange value date_layout
    else if baseType =? TIME_RANGE then validRange value time_layout
    else if baseType =? DATETIME_RANGE then validRange value datetime_layout
    else false in
  if negb valid then Er (does_not_match path baseType) else Ok tt.

Definition validateEnumValue (s : Schema) (key : string) (value : json)
    (path : string) : result unit :=
  match value with
  | JString text =>
      match enums s !! key with
      | None => Er (EPanic "nil enum")
      | Some item =>
          if existsb (λ option, match option with
                       | Some option => bool_decide (Option_Value option = text)
                       | None => false end) (Enum_Values item)
          then Ok tt
          else Er (EInvalid (path +:+ " contains an unknown enum value"))
      end
  | _ => Er (EInvalid (path +:+ " must be an enum string"))
  end.

(** [validateValue] and the two functions it is mutually recursive with;
    [rec] is the recursive call. *)
Section validate.
Variable rec : Field → json → string → gset string → result unit.

Definition validateArrayValue (field : Field) (value : json) (path : string)
    (structures : gset string) : result unit :=
  match value with
  | JArray items =>
      let itemField := mk_field (Field_Key field) (Field_Name field)
        (Field_Description field) false (Field_type field) in
      each_from 0 (λ index item,
        rec itemField item
          (path +:+ "[" +:+ format_int (Z.of_nat index) +:+ "]") structures) items
  | _ => Er (EInvalid (path +:+ " must be an array"))
  end.

Definition validateStructureValue (s : Schema) (key : string) (value : json)
    (path : string) (visited : gset string) : result unit :=
  match value with
  | JObject object =>
      if Set_.Contains visited key
      then Er (EConflict ("structure cycle contains " +:+ key))
      else
        let visited := Set_.Add visited [key] in
        match structures s !! key with
        | None => Er (EPanic "nil structure")
        | Some definition =>
            if negb (bool_decide (length object = length (Structure_Fields definition)))
            then Er (EInvalid (path +:+ " does not match structure " +:+ key))
            else
              each (λ child,
                match child with
                | None => Er (EPanic "nil field")
                | Some child =>
                    match alist_get (Field_Key child) object with
                    | None => Er (EInvalid (path +:+ "." +:+ Field_Key child
                                            +:+ " is required"))
                    | Some childValue =>
                        rec child childValue (path +:+ "." +:+ Field_Key child) visited
                    end
                end) (Structure_Fields definition)
        end
  | _ => Er (EInvalid (path +:+ " must be an object"))
  end.
End validate.

Fixpoint validateValue (fuel : nat) (s : Schema) (field : Field) (value : json)
    (path : string) (structures : gset string) : result unit :=
  match fuel with
  | O => Er EFuel
  | S fuel =>
      if Field_IsArray field
      then validateArrayValue (validateValue fuel s) field value path structures
      else
        match Field_type field with
        | None => Er (EPanic "nil field type")
        | Some {| Kind := None |} => Er (EInvalid (path +:+ " has no field type"))
        | Some {| Kind := Some (Field_Type_BaseType b) |} =>
            validateBaseValue b value path
        | Some {| Kind := Some (Field_Type_EnumKey k) |} =>
            validateEnumValue s k value path
        | Some {| Kind := Some (Field_Type_StructureKey k) |} =>
            validateStructureValue (validateValue fuel s) s k value path structures
        end
  end.

(** [bytes.TrimSpace] leaves nothing of what follows the value. *)
Definition decodeJSON (value : string) : option json :=
  match decode_value value with
  | Some (v, rest) => if decide (skip_ws rest = "") then Some v else None
  | None => None
  end.

Definition value_fuel (value : json) : nat := S (Z.to_nat (nesting value)).

Definition ValidateConfig (s : Schema) (config : option Config) : result unit :=
  match config with
  | Some config =>
      if bool_decide (Config_Type config = None) || negb (validKey (Config_Key config))
      then Er (EInvalid "config and type are required")
      else
        validateType s (Config_Type config);;
        match decodeJSON (Config_Value config) with
        | None => Er (EInvalid "config value is not valid JSON")
        | Some value =>
            let root := mk_field (Config_Key config) (Config_Key config) ""
              (Config_IsArray config) (Config_Type config) in
            validateValue (value_fuel value) s root value "$" (Set_.New [])
        end
  | None => Er (EInvalid "config and type are required")
  end.

(** ** Default values *)

(** [defaultStructureValue], with [rec] for [defaultValue]. *)
Definition defaultStructureValue (rec : Field → gset string → result json)
    (s : Schema) (key : string) (visited : gset string) : result json :=
  if Set_.Contains visited key
  then Er (EConflict ("structure cycle contains " +:+ key))
  else
    let visited := Set_.Add visited [key] in
    match structures s !! key with
    | None => Er (EPanic "nil structure")
    | Some structure =>
        entries ← fold_m (λ entries child,
          match child with
          | None => Er (EPanic "nil field")
          | Some child =>
              value ← rec child visited;
              Ok (alist_set (Field_Key child) value entries)
          end) (Structure_Fields structure) [];
        Ok (JObject entries)
    end.

Fixpoint defaultValue (fuel : nat) (s : Schema) (field : Field)
    (visited : gset string) : result json :=
  match fuel with
  | O => Er EFuel
  | S fuel =>
      if Field_IsArray field then Ok (JArray [])
      else
        match Field_type field with
        | None => Er (EPanic "nil field type")
        | Some {| Kind := None |} => Er (EInvalid "field type is required")
        | Some {| Kind := Some (Field_Type_BaseType b) |} =>
            Ok (if bool_decide (b ∈ [INT; DECIMAL]) then JNumber "0"
                else if b =? BOOLEAN then JBool false
                else if bool_decide (b ∈ [TIME_RANGE; DATE_RANGE; DATETIME_RANGE])
                then JArray []
                else JString "")
        | Some {| Kind := Some (Field_Type_EnumKey k) |} =>
            match enums s !! k with
            | Some item =>
                match Enum_Values item with
                | Some option :: _ => Ok (JString (Option_Value option))
                | _ => Er (EPanic "no enum value")
                end
            | None => Er (EPanic "nil enum")
            end
        | Some {| Kind := Some (Field_Type_StructureKey k) |} =>
            defaultStructureValue (defaultValue fuel s) s k visited
        end
  end.

(** Every level of the recursion adds one structure to the path. *)
Definition graph_fuel (s : Schema) : nat := 2 + size (structures s).

Definition DefaultValue (s : Schema) (configType : option Field_Type)
    (isArray : bool) : result string :=
  validateType s configType;;
  let field := mk_field "value" "value" "" isArray configType in
  value ← defaultValue (graph_fuel s) s field (Set_.New []);
  Ok (marshal value).

(** ** The editor's tree *)

Fixpoint children (fuel : nat) (s : Schema) (path : gset string)
    (fieldType : option Field_Type) : result (list TreeNode) :=
  match fuel with
  | O => Er EFuel
  | S fuel =>
      let key := GetStructureKey fieldType in
      if bool_decide (key = "") then Ok []
      else if Set_.Contains path key
      then Er (EConflict ("structure cycle contains " +:+ key))
      else
        let path := Set_.Add path [key] in
        match structures s !! key with
        | None => Er (EPanic "nil structure")
        | Some structure =>
            collect (λ field,
              match field with
              | None => Er (EPanic "nil field")
              | Some f =>
                  nodes ← children fuel s path (Field_type f);
                  Ok (Node field nodes)
              end) (Structure_Fields structure)
        end
  end.

Definition BuildTree (s : Schema) (config : option Config) : result TreeNode :=
  match config with
  | Some config =>
      if bool_decide (Config_Type config = None)
      then Er (EInvalid "config and type are required")
      else
        validateType s (Config_Type config);;
        nodes ← children (graph_fuel s) s (Set_.New []) (Config_Type config);
        Ok (Node (Some (mk_field (Config_Key config) "配置值" (Config_Description config)
                          (Config_IsArray config) (Config_Type config))) nodes)
  | None => Er (EInvalid "config and type are required")
  end.

(** ** Choices that introduce no cycle *)

Definition referencesRejectedStructure (item : Structure) (rejected : gset string) :
    bool :=
  existsb (λ field, Set_.Contains rejected (GetStructureKey (Field_GetType field)))
    (Structure_Fields item).

(** One pass: whether something changed, and the enlarged set. *)
Definition rejectDependentStructures (items : list Structure) (rejected : gset string) :
    bool * gset string :=
  fold_left (λ '(changed, rejected) item,
    if Set_.Contains rejected (Structure_Key item)
       || negb (referencesRejectedStructure item rejected)
    then (changed, rejected)
    else (true, Set_.Add rejected [Structure_Key item])) items (false, rejected).

Fixpoint reject_all (fuel : nat) (items : list Structure) (rejected : gset string) :
    result (gset string) :=
  match fuel with
  | O => Er EFuel
  | S fuel =>
      let '(changed, rejected) := rejectDependentStructures items rejected in
      if changed then reject_all fuel items rejected else Ok rejected
  end.

Definition FilterStructureChoices (items : list Structure) (ignoreID : Z) :
    result (list Structure) :=
  if ignoreID <=? 0 then Ok items
  else
    match list_find (λ item, Structure_Id item = ignoreID) items with
    | None => Ok items
    | Some (_, ignored) =>
        rejected ← reject_all (S (length items)) items
                     (Set_.New [Structure_Key ignored]);
        Ok (List.filter (λ item, negb (Set_.Contains rejected (Structure_Key item))) items)
    end.
