(* ===== verification/SchemaGraph.v ===== *)
(** The structure-reference graph of a schema: [validateCycles] accepts exactly
    the acyclic graphs, whatever the order in which Go visits the map; the
    other traversals of the graph ([FilterStructureChoices]). *)

From stdpp Require Import relations fin_maps fin_sets.
From S2P Require Import Prelude GoStd GoStrings Util Json Proto Schema.

(** [k] has a field whose type is the structure [k']. *)
Definition refers (s : Schema) (k k' : string) : Prop :=
  ∃ structure field, structures s !! k = Some structure ∧
    field ∈ Structure_Fields structure ∧
    GetStructureKey (Field_GetType field) = k' ∧ k' ≠ "".

Definition closed_graph (s : Schema) : Prop :=
  ∀ k k', refers s k k' → is_Some (structures s !! k').

Definition acyclic (s : Schema) : Prop := ∀ k, ¬ tc (refers s) k k.

Section walk.
Context (s : Schema) (Hclosed : closed_graph s).
Local Notation D := (dom (structures s)).

(** The keys the walk has finished: closed under references, no cycle. *)
Definition finished (V : gset string) : Prop :=
  (∀ k k', k ∈ V → refers s k k' → k' ∈ V) ∧
  (∀ k, k ∈ V → ¬ tc (refers s) k k).

Lemma finished_tc V k k' : finished V → k ∈ V → tc (refers s) k k' → k' ∈ V.
Proof. intros [HV _] Hk Ht. induction Ht; eauto. Qed.

Lemma finished_add V key : finished V → key ∉ V →
  (∀ k', refers s key k' → k' ∈ V) → finished ({[key]} ∪ V).
Proof.
  intros HV Hkey Hsucc. split.
  - intros k k' [->%elem_of_singleton|Hk]%elem_of_union Hr; apply elem_of_union; right.
    + by apply Hsucc.
    + by eapply (proj1 HV).
  - intros k [->%elem_of_singleton|Hk]%elem_of_union Ht; [|by eapply (proj2 HV)].
    apply Hkey. inversion Ht as [? ? Hr|? y ? Hr Ht']; subst; [by apply Hsucc|].
    eapply finished_tc; [done| |done]. by apply Hsucc.
Qed.

Record state_ok (st : Walk) : Prop := {
  ok_visiting : visiting st ⊆ D;
  ok_disjoint : visiting st ## visited st;
  ok_finished : finished (visited st);
}.

Record extends (st st' : Walk) : Prop := {
  ext_visiting : visiting st' = visiting st;
  ext_visited : visited st ⊆ visited st';
}.

Lemma extends_refl st : extends st st.
Proof. done. Qed.
Lemma extends_trans a b c : extends a b → extends b c → extends a c.
Proof. intros [??] [??]. split; [congruence|set_solver]. Qed.

(** A run of the closure finishes its key or finds a cycle. *)
Definition walk_outcome (st : Walk) (keys : gset string) (r : result Walk) : Prop :=
  (∃ st', r = Ok st' ∧ state_ok st' ∧ extends st st' ∧ keys ⊆ visited st') ∨
  (∃ msg, r = Er (EConflict msg) ∧ ¬ acyclic s).

Definition reaches (st : Walk) (key : string) : Prop :=
  ∀ v, v ∈ visiting st → tc (refers s) v key.

Lemma walk_fields fuel path st fields :
  (∀ st key, state_ok st → is_Some (structures s !! key) → reaches st key →
     size (D ∖ visiting st) < fuel →
     walk_outcome st {[key]} (walk fuel s path st key)) →
  state_ok st → size (D ∖ visiting st) < fuel →
  (∀ f k, f ∈ fields → GetStructureKey (Field_GetType f) = k → k ≠ "" →
     is_Some (structures s !! k) ∧ reaches st k) →
  let r := fold_m (walk_field (walk fuel s path)) fields st in
  (∃ st', r = Ok st' ∧ state_ok st' ∧ extends st st' ∧
     ∀ f k, f ∈ fields → GetStructureKey (Field_GetType f) = k → k ≠ "" →
       k ∈ visited st') ∨
  (∃ msg, r = Er (EConflict msg) ∧ ¬ acyclic s).
Proof.
  intros Hwalk. revert st. induction fields as [|f fields IH]; intros st Hst Hfuel Hf r.
  { left. exists st. split_and!; [done..|]. intros f k []%elem_of_nil. }
  subst r. cbn [fold_m].
  set (dep := GetStructureKey (Field_GetType f)) in *.
  destruct (decide (dep = "")) as [Hdep|Hdep].
  - assert (walk_field (walk fuel s path) st f = Ok st) as ->.
    { unfold walk_field. by rewrite bool_decide_true. }
    cbn [mbind result_bind].
    destruct (IH st) as [(st' & -> & Hok & Hext & Hin)|?]; [done|done| |left|by right].
    { intros f' k Hf'. apply Hf. by right. }
    exists st'. split_and!; [done..|].
    intros f' k [->|Hf']%elem_of_cons Hk Hne; [by subst dep k|by eapply Hin].
  - assert (walk_field (walk fuel s path) st f = walk fuel s path st dep) as ->.
    { unfold walk_field. by rewrite bool_decide_false. }
    destruct (Hf f dep) as [Hdom Hreach]; [by left|done|done|].
    destruct (Hwalk st dep) as [(st1 & -> & Hok1 & Hext1 & Hin1)|(msg & -> & Hc)];
      [done..| |by right; exists msg].
    cbn [mbind result_bind]. pose proof Hext1 as [Hv1 Hs1].
    destruct (IH st1) as [(st' & -> & Hok & Hext & Hin)|?]; [done| | |left|by right].
    { by rewrite Hv1. }
    { intros f' k Hf' Hk Hne. destruct (Hf f' k) as [Hd Hr]; [by right|done|done|].
      split; [done|]. unfold reaches. by rewrite Hv1. }
    exists st'. split_and!; [done|done|by eapply extends_trans|].
    intros f' k [->|Hf']%elem_of_cons Hk Hne; [|by eapply Hin].
    destruct Hext as [_ Hs]. set_solver.
Qed.

Lemma walk_spec fuel path st key :
  state_ok st → is_Some (structures s !! key) → reaches st key →
  size (D ∖ visiting st) < fuel →
  walk_outcome st {[key]} (walk fuel s path st key).
Proof.
  revert path st key. induction fuel as [|fuel IH]; [lia|].
  intros path st key Hst [structure Hkey] Hreach Hfuel. cbn [walk].
  destruct (Set_.Contains (visiting st) key) eqn:Hvis.
  { right. eexists. split; [done|]. apply Set_.Contains_true in Hvis.
    intros Hac. by eapply Hac, Hreach. }
  apply Set_.Contains_false in Hvis.
  destruct (Set_.Contains (visited st) key) eqn:Hved.
  { left. exists st. apply Set_.Contains_true in Hved.
    split_and!; [done..|set_solver]. }
  apply Set_.Contains_false in Hved. rewrite Hkey.
  assert (key ∈ D) as HkD by by apply elem_of_dom_2 in Hkey.
  destruct Hst as [Hsub Hdis Hfin].
  assert (Set_.Add (visiting st) [key] = {[key]} ∪ visiting st) as Hadd by done.
  edestruct (walk_fields fuel (path ++ [key])
    {| visiting := Set_.Add (visiting st) [key]; visited := visited st |}
    (Structure_Fields structure)) as [(st' & Hr & Hok & Hext & Hin)|(msg & Hr & Hc)].
  - intros. by apply IH.
  - split; simpl; rewrite ?Hadd; [set_solver|set_solver|done].
  - change (size (D ∖ ({[key]} ∪ visiting st)) < fuel).
    assert (D ∖ ({[key]} ∪ visiting st) ⊂ D ∖ visiting st) as Hlt%subset_size
      by set_solver. lia.
  - intros f k Hf Hk Hne.
    assert (refers s key k) as Href by (by exists structure, f).
    split; [by eapply Hclosed|]. intros v. simpl. rewrite ?Hadd.
    intros [->%elem_of_singleton|Hv]%elem_of_union; [by apply tc_once|].
    eapply tc_r; [by apply Hreach|done].
  - left. rewrite Hr. cbn [mbind result_bind]. eexists. split; [done|].
    destruct Hext as [Hv' Hs']. simpl in Hv', Hs'. destruct Hok as [Hsub' Hdis' Hfin'].
    assert (key ∉ visited st') by set_solver.
    change (Set_.Add (visited st') [key]) with ({[key]} ∪ visited st').
    assert (Set_.Remove (visiting st') [key] = visiting st) as ->.
    { rewrite Hv'. change (({[key]} ∪ visiting st) ∖ {[key]} = visiting st). set_solver. }
    split_and!; [split; simpl|split; simpl|simpl; set_solver].
    + done.
    + set_solver.
    + apply finished_add; [done|done|]. intros k' Href.
      destruct Href as (str & f & Hstr & Hf & Hk & Hne).
      rewrite Hkey in Hstr. injection Hstr as <-. by eapply Hin.
    + done.
    + set_solver.
  - right. rewrite Hr. by exists msg.
Qed.

Lemma walk_keys fuel st keys :
  state_ok st → visiting st = ∅ → size D < fuel →
  (∀ k, k ∈ keys → is_Some (structures s !! k)) →
  (∃ st', fold_m (walk fuel s []) keys st = Ok st' ∧ state_ok st' ∧
     ∀ k, k ∈ keys ∨ k ∈ visited st → k ∈ visited st') ∨
  (∃ msg, fold_m (walk fuel s []) keys st = Er (EConflict msg) ∧ ¬ acyclic s).
Proof.
  revert st. induction keys as [|k keys IH]; intros st Hst Hv Hfuel Hkeys.
  { left. exists st. split_and!; [done..|]. by intros k [?%elem_of_nil|?]. }
  cbn [fold_m].
  destruct (walk_spec fuel [] st k) as [(st1 & -> & Hok1 & [Hv1 Hs1] & Hin1)|(msg & -> & Hc)];
    [done|apply Hkeys; by left|intros v; rewrite Hv; set_solver| | |by right; exists msg].
  { assert (size (D ∖ visiting st) ≤ size D); [|lia]. apply subseteq_size. set_solver. }
  cbn [mbind result_bind].
  destruct (IH st1) as [(st' & -> & Hok & Hin)|?]; [done|congruence|done| |left|by right].
  { intros k' Hk'. apply Hkeys. by right. }
  exists st'. split_and!; [done..|].
  intros k' [[->|Hk']%elem_of_cons|Hk']; apply Hin; set_solver.
Qed.

Lemma validateCycles_outcome `{MapOrder} :
  (validateCycles s = Ok tt ∧ acyclic s) ∨
  (∃ msg, validateCycles s = Er (EConflict msg) ∧ ¬ acyclic s).
Proof.
  unfold validateCycles.
  destruct (walk_keys (cycle_fuel s) {| visiting := Set_.New []; visited := Set_.New [] |}
    (map_keys (structures s))) as [(st' & Hr & Hok & Hin)|(msg & Hr & Hc)].
  - split; simpl; [apply empty_subseteq|set_solver|].
    split; intros k; [intros k'|]; by intros []%not_elem_of_empty.
  - done.
  - unfold cycle_fuel. rewrite size_dom. lia.
  - intros k. by rewrite map_keys_perm.
  - left. rewrite Hr. split; [done|]. intros k Ht.
    assert (is_Some (structures s !! k)) as Hk.
    { inversion Ht as [? ? Hrf|? ? ? Hrf]; destruct Hrf as (? & ? & ? & _); eauto. }
    apply map_keys_perm in Hk. destruct Hok as [_ _ [_ Hac]].
    eapply Hac; [|done]. apply Hin. by left.
  - right. rewrite Hr. by exists msg.
Qed.
End walk.

(** ** [FilterStructureChoices] *)

Section filter.
Context (items : list Structure).

(** Some structure with the key [a] has a field of the structure type [b]. *)
Definition depends (a b : string) : Prop :=
  ∃ item field, item ∈ items ∧ Structure_Key item = a ∧
    field ∈ Structure_Fields item ∧ GetStructureKey (Field_GetType field) = b.

Lemma references_spec item (R : gset string) :
  referencesRejectedStructure item R = true ↔
  ∃ field, field ∈ Structure_Fields item ∧ GetStructureKey (Field_GetType field) ∈ R.
Proof.
  unfold referencesRejectedStructure. rewrite existsb_exists.
  setoid_rewrite list_elem_of_In. by setoid_rewrite Set_.Contains_true.
Qed.

Definition reject_step : bool * gset string → Structure → bool * gset string :=
  λ '(changed, rejected) item,
    if Set_.Contains rejected (Structure_Key item)
       || negb (referencesRejectedStructure item rejected)
    then (changed, rejected)
    else (true, Set_.Add rejected [Structure_Key item]).

Lemma reject_step_spec c R item :
  reject_step (c, R) item = (c, R) ∧
    (Structure_Key item ∈ R ∨ referencesRejectedStructure item R = false) ∨
  reject_step (c, R) item = (true, {[Structure_Key item]} ∪ R) ∧
    Structure_Key item ∉ R ∧ referencesRejectedStructure item R = true.
Proof.
  simpl. destruct (Set_.Contains R (Structure_Key item)) eqn:HR; simpl.
  { apply Set_.Contains_true in HR. by left; auto. }
  apply Set_.Contains_false in HR.
  destruct (referencesRejectedStructure item R) eqn:Href; [by right|by left; auto].
Qed.

(** One pass only adds dependents; it reports a change exactly when it has
    added the key of an item, and otherwise nothing is left to add. *)
Lemma reject_pass l c R c' R' :
  (∀ item, item ∈ l → item ∈ items) →
  fold_left reject_step l (c, R) = (c', R') →
  R ⊆ R' ∧
  (∀ k, k ∈ R' → ∃ k0, k0 ∈ R ∧ rtc depends k k0) ∧
  (c' = true → c = true ∨ ∃ item, item ∈ l ∧ Structure_Key item ∈ R' ∖ R) ∧
  (c' = false → c = false ∧ R' = R ∧ ∀ item, item ∈ l →
     Structure_Key item ∈ R ∨ referencesRejectedStructure item R = false).
Proof.
  revert c R. induction l as [|item l IH]; intros c R Hl.
  { cbn [fold_left]. intros [= <- <-]. split_and!; [done| |auto|].
    - intros k Hk. exists k. split; [done|apply rtc_refl].
    - intros ->. split_and!; [done..|]. by intros item Hitem%elem_of_nil. }
  cbn [fold_left].
  destruct (reject_step_spec c R item) as [(-> & Hstay)|(-> & Hnew & Href)]; intros Hf.
  - apply IH in Hf as (Hsub & Hback & Ht & Hff); [|intros; apply Hl; by right].
    split_and!; [done|done| |].
    + intros Hc. destruct (Ht Hc) as [|(i & Hi & Hk)]; [by left|right].
      exists i. split; [by right|done].
    + intros Hc. destruct (Hff Hc) as (-> & -> & Hall). split_and!; [done..|].
      by intros i [->|Hi]%elem_of_cons; [|apply Hall].
  - apply IH in Hf as (Hsub & Hback & Ht & Hff); [|intros; apply Hl; by right].
    split_and!.
    + set_solver.
    + intros k Hk. destruct (Hback k Hk) as (k0 & Hk0 & Hr).
      apply elem_of_union in Hk0 as [->%elem_of_singleton|Hk0]; [|by exists k0].
      apply references_spec in Href as (f & Hin & HfR).
      exists (GetStructureKey (Field_GetType f)). split; [done|].
      eapply rtc_r; [done|]. exists item, f. split_and!; [|done..]. apply Hl. by left.
    + intros _. right. exists item. split; [by left|]. set_solver.
    + intros Hc. by destruct (Hff Hc) as [? _].
Qed.

Definition fresh (R : gset string) : list Structure :=
  List.filter (λ item, negb (Set_.Contains R (Structure_Key item))) items.

Lemma elem_of_fresh R item :
  item ∈ fresh R ↔ item ∈ items ∧ Structure_Key item ∉ R.
Proof.
  unfold fresh. rewrite !list_elem_of_In, filter_In, negb_true_iff.
  by rewrite Set_.Contains_false.
Qed.

Lemma fresh_shrinks R R' item : R ⊆ R' → item ∈ items →
  Structure_Key item ∈ R' ∖ R → length (fresh R') < length (fresh R).
Proof.
  intros Hsub Hitem Hk. unfold fresh. revert Hitem.
  assert (∀ l, length (List.filter (λ i, negb (Set_.Contains R' (Structure_Key i))) l)
    ≤ length (List.filter (λ i, negb (Set_.Contains R (Structure_Key i))) l)) as Hle.
  { intros l. induction l as [|i l IH]; [done|]. simpl.
    destruct (Set_.Contains R (Structure_Key i)) eqn:E; simpl.
    - apply Set_.Contains_true in E.
      rewrite (proj2 (Set_.Contains_true R' _)) by set_solver. done.
    - destruct (Set_.Contains R' _); simpl; lia. }
  induction items as [|i l IH]; intros Hin; [by apply elem_of_nil in Hin|].
  apply elem_of_cons in Hin as [<-|Hin]; simpl.
  - rewrite (proj2 (Set_.Contains_true R' _)) by set_solver.
    rewrite (proj2 (Set_.Contains_false R _)) by set_solver. simpl.
    specialize (Hle l). lia.
  - specialize (IH Hin).
    destruct (Set_.Contains R (Structure_Key i)) eqn:E; simpl.
    + apply Set_.Contains_true in E.
      rewrite (proj2 (Set_.Contains_true R' _)) by set_solver. done.
    + destruct (Set_.Contains R' _); simpl; lia.
Qed.

(** The loop terminates with the keys that reach the starting set. *)
Lemma reject_all_spec fuel R : length (fresh R) < fuel →
  ∃ R', reject_all fuel items R = Ok R' ∧ R ⊆ R' ∧
    (∀ k, k ∈ R' → ∃ k0, k0 ∈ R ∧ rtc depends k k0) ∧
    (∀ item, item ∈ items →
       Structure_Key item ∈ R' ∨ referencesRejectedStructure item R' = false).
Proof.
  revert R. induction fuel as [|fuel IH]; intros R Hfuel; [lia|]. cbn [reject_all].
  change (rejectDependentStructures items R) with
    (fold_left reject_step items (false, R)).
  destruct (fold_left reject_step items (false, R)) as [c R1] eqn:Hf.
  apply reject_pass in Hf as (Hsub & Hback & Ht & Hff); [|done].
  destruct c.
  - destruct (Ht eq_refl) as [|(item & Hitem & Hk)]; [done|].
    pose proof (fresh_shrinks R R1 item Hsub Hitem Hk) as Hlt.
    destruct (IH R1) as (R' & -> & Hsub' & Hback' & Hall); [lia|].
    exists R'. split_and!; [done|set_solver| |done].
    intros k Hk'. destruct (Hback' k Hk') as (k1 & Hk1 & Hr1).
    destruct (Hback k1 Hk1) as (k0 & Hk0 & Hr0). exists k0. split; [done|].
    by trans k1.
  - destruct (Hff eq_refl) as (_ & -> & Hall).
    exists R. split_and!; [done|done| |done].
    intros k Hk. exists k. split; [done|apply rtc_refl].
Qed.

Lemma reject_all_exact (key : string) (R' : gset string) :
  (∀ k, k ∈ R' → rtc depends k key) → key ∈ R' →
  (∀ item, item ∈ items →
     Structure_Key item ∈ R' ∨ referencesRejectedStructure item R' = false) →
  ∀ k, k ∈ R' ↔ rtc depends k key.
Proof.
  intros Hback Hkey Hall k. split; [apply Hback|]. intros Hr.
  induction Hr as [|k1 k2 k3 (item & f & Hitem & Hk & Hf & Hd) _ IH]; [done|].
  specialize (IH Hback Hkey). rewrite <-Hk.
  destruct (Hall item Hitem) as [|Hno]; [done|]. exfalso.
  rewrite (proj2 (references_spec item R')) in Hno; [done|].
  exists f. by rewrite Hd.
Qed.
End filter.

(** Adding the edge [a -> b] to an acyclic graph in which [b] does not reach
    [a] leaves it acyclic. *)
Lemma tc_add_edge {A} (R : A → A → Prop) (a b x y : A) :
  tc (λ u v, R u v ∨ u = a ∧ v = b) x y →
  tc R x y ∨ rtc R x a ∧ rtc R b y.
Proof.
  induction 1 as [x y [Hr|[-> ->]]|x y z [Hr|[-> ->]] Ht IH].
  - left. by apply tc_once.
  - right. split; apply rtc_refl.
  - destruct IH as [IH|[H1 H2]]; [left; by eapply tc_l|right; split; [by eapply rtc_l|done]].
  - right. destruct IH as [IH|[H1 H2]]; (split; [apply rtc_refl|]).
    + by apply tc_rtc.
    + done.
Qed.

Lemma tc_impl {A} (R Q : A → A → Prop) (x y : A) :
  (∀ a b, R a b → Q a b) → tc R x y → tc Q x y.
Proof. intros HRQ. induction 1; [apply tc_once|eapply tc_l]; eauto. Qed.
