(* ===== verification/SchemaWf.v ===== *)
(** What [NewSchema] accepts: a declarative well-formedness of definitions,
    and the equivalence of the constructor with it. *)

From stdpp Require Import relations fin_maps.
From S2P Require Import Prelude GoStd GoStrings Util Json Proto Schema SchemaGraph.

Local Open Scope Z_scope.

(** ** The declarative reading *)

(** A key, a name and a description as every definition carries them. *)
Definition head_ok (key name description : string) : Prop :=
  validKey key = true ∧ validName name = true ∧ rune_count description ≤ 255.

Definition type_ok (s : Schema) (ty : option Field_Type) : Prop :=
  match ty with
  | Some {| Kind := Some (Field_Type_BaseType b) |} => STRING ≤ b ≤ FILE
  | Some {| Kind := Some (Field_Type_StructureKey k) |} => is_Some (structures s !! k)
  | Some {| Kind := Some (Field_Type_EnumKey k) |} => is_Some (enums s !! k)
  | _ => False
  end.

Definition option_ok (o : SelectOption) : Prop :=
  enumValuePattern (Option_Value o) = true ∧ validName (Option_Label o) = true ∧
  rune_count (Option_Description o) ≤ 255.

Definition field_ok (s : Schema) (f : Field) : Prop :=
  head_ok (Field_Key f) (Field_Name f) (Field_Description f) ∧ type_ok s (Field_type f).

Definition structure_head (i : Structure) : Prop :=
  head_ok (Structure_Key i) (Structure_Name i) (Structure_Description i).

Record fields_ok (s : Schema) (fields : list (option Field)) (fs : list Field) : Prop := {
  fields_some : fields = Some <$> fs;
  fields_each : Forall (field_ok s) fs;
  fields_nodup : NoDup (Field_Key <$> fs);
}.

Record enum_ok (i : ConfigEnum) : Prop := {
  enum_head : head_ok (Enum_Key i) (Enum_Name i) (Enum_Description i);
  enum_values : ∃ os, Enum_Values i = Some <$> os ∧ os ≠ [] ∧ Forall option_ok os ∧
    NoDup (Option_Value <$> os);
}.

Definition structure_ok (s : Schema) (i : Structure) : Prop :=
  structure_head i ∧ ∃ fs, fields_ok s (Structure_Fields i) fs.

(** [m] holds exactly the items, under their keys. *)
Definition indexes {A} (key : A → string) (m : gmap string A) (items : list A) : Prop :=
  ∀ k i, m !! k = Some i ↔ i ∈ items ∧ key i = k.

Record well_formed (s : Schema) : Prop := {
  wf_structures : ∀ k i, structures s !! k = Some i → Structure_Key i = k ∧ structure_ok s i;
  wf_enums : ∀ k i, enums s !! k = Some i → Enum_Key i = k ∧ enum_ok i;
  wf_acyclic : acyclic s;
}.

(** ** Loops over definitions *)

Section loops.
Context {A : Type} (key : A → string) (ok : A → Prop).

(** A loop that stores each item under its key. *)
Lemma index_loop (add : gmap string A → option A → result (gmap string A)) :
  (∀ m o m', add m o = Ok m' ↔
     ∃ i, o = Some i ∧ ok i ∧ m !! key i = None ∧ m' = <[key i := i]> m) →
  ∀ items m m', fold_m add items m = Ok m' ↔
    ∃ xs, items = Some <$> xs ∧ Forall ok xs ∧ NoDup (key <$> xs) ∧
      (∀ x, x ∈ xs → m !! key x = None) ∧
      (∀ k i, m' !! k = Some i ↔ m !! k = Some i ∨ i ∈ xs ∧ key i = k).
Proof.
  intros Hadd items. induction items as [|o items IH]; intros m m'; cbn [fold_m].
  { split.
    - intros [= <-]. exists []. split_and!; [done|constructor..| |].
      + by intros x Hx%elem_of_nil.
      + intros k i. split; [by left|]. by intros [?|[?%elem_of_nil _]].
    - intros ([|] & Heq & _ & _ & _ & Hm); [|done]. f_equal. apply map_eq. intros k.
      apply option_eq. intros i. rewrite Hm. split; [by left|].
      by intros [?|[?%elem_of_nil _]]. }
  rewrite bind_Ok. setoid_rewrite Hadd. setoid_rewrite IH. split.
  - intros (m1 & (i & -> & Hi & Hnone & ->) & xs & -> & Hall & Hnd & Hfresh & Hm').
    assert (Hne : ∀ x, x ∈ xs → key x ≠ key i).
    { intros x Hx Heq. specialize (Hfresh x Hx). rewrite Heq in Hfresh.
      by rewrite lookup_insert_eq in Hfresh. }
    exists (i :: xs). split_and!; [done|by constructor| | |].
    + csimpl. constructor; [|done]. intros (x & Heq & Hx)%list_elem_of_fmap.
      by eapply Hne.
    + intros x [->|Hx]%elem_of_cons; [done|].
      specialize (Hfresh x Hx). by rewrite lookup_insert_ne in Hfresh
        by (intros ?; by eapply Hne).
    + intros k j. rewrite Hm', lookup_insert_Some, elem_of_cons. split.
      * intros [[[<- <-]|[? ?]]|[? ?]]; auto.
      * intros [Hk|[[->|Hj] <-]].
        -- left. right. split; [|done]. intros <-. congruence.
        -- left. by left.
        -- right. done.
  - intros ([|i xs] & Heq & Hall & Hnd & Hfresh & Hm'); [done|].
    injection Heq as -> ->. apply Forall_cons in Hall as [Hi Hall].
    csimpl in *. apply NoDup_cons in Hnd as [Hni Hnd].
    assert (Hne : ∀ x, x ∈ xs → key x ≠ key i).
    { intros x Hx Heq. apply Hni. rewrite <-Heq. by apply list_elem_of_fmap_2. }
    exists (<[key i := i]> m). split.
    { exists i. split_and!; [done|done| |done]. apply Hfresh. by left. }
    exists xs. split_and!; [done..| |].
    + intros x Hx. rewrite lookup_insert_ne by (intros ?; by eapply Hne).
      apply Hfresh. by right.
    + intros k j. rewrite Hm', lookup_insert_Some, elem_of_cons.
      assert (m !! key i = None) as Hno by (apply Hfresh; by left). split.
      * intros [Hk|[[->|Hj] <-]]; [|by left; left|by right].
        left. right. split; [|done]. intros <-. congruence.
      * intros [[[<- <-]|[? ?]]|[? ?]]; auto.
Qed.

(** A loop that rejects repeated keys. *)
Lemma seen_loop (step : gset string → option A → result (gset string)) :
  (∀ seen o seen', step seen o = Ok seen' ↔
     ∃ x, o = Some x ∧ ok x ∧ key x ∉ seen ∧ seen' = Set_.Add seen [key x]) →
  ∀ items seen, (∃ seen', fold_m step items seen = Ok seen') ↔
    ∃ xs, items = Some <$> xs ∧ Forall ok xs ∧ NoDup (key <$> xs) ∧
      (∀ x, x ∈ xs → key x ∉ seen).
Proof.
  intros Hstep items. induction items as [|o items IH]; intros seen; cbn [fold_m].
  { split; [intros _|by eauto]. exists []. split_and!; [done|constructor..|].
    by intros x Hx%elem_of_nil. }
  setoid_rewrite bind_Ok. setoid_rewrite Hstep. split.
  - intros (seen' & s1 & (x & -> & Hx & Hns & ->) & Hrest).
    destruct (proj1 (IH _) (ex_intro _ _ Hrest)) as (xs & -> & Hall & Hnd & Hfresh).
    exists (x :: xs). split_and!; [done|by constructor| |].
    + csimpl. constructor; [|done]. intros (y & Heq & Hy)%list_elem_of_fmap.
      apply (Hfresh y Hy). rewrite Heq, Set_.elem_of_Add. right. by left.
    + intros y [->|Hy]%elem_of_cons; [done|]. intros Hin. apply (Hfresh y Hy).
      apply Set_.elem_of_Add. by left.
  - intros ([|x xs] & Heq & Hall & Hnd & Hfresh); [done|].
    injection Heq as -> ->. apply Forall_cons in Hall as [Hx Hall].
    csimpl in *. apply NoDup_cons in Hnd as [Hni Hnd].
    destruct (proj2 (IH (Set_.Add seen [key x]))) as [seen' Hseen'].
    { exists xs. split_and!; [done..|]. intros y Hy.
      rewrite Set_.elem_of_Add, list_elem_of_singleton.
      intros [Hin|Heq]; [by eapply Hfresh; [right|]|].
      apply Hni. rewrite <-Heq. by apply list_elem_of_fmap_2. }
    exists seen', (Set_.Add seen [key x]). split; [|done].
    exists x. split_and!; [done|done| |done]. apply Hfresh. by left.
Qed.
End loops.

(** ** Each function against its reading *)

Lemma head_check key name description b :
  negb (validKey key) || negb (validName name) || (255 <? rune_count description) = b →
  if b then ¬ head_ok key name description else head_ok key name description.
Proof.
  intros <-. unfold head_ok.
  destruct (validKey key), (validName name); simpl; [|naive_solver..].
  destruct (255 <? rune_count description) eqn:E; bool_hyps; [lia|auto].
Qed.

Lemma validateType_Ok s ty : validateType s ty = Ok tt ↔ type_ok s ty.
Proof.
  destruct ty as [[[[b|k|k]|]]|]; simpl; try done.
  - unfold STRING, FILE. split.
    + destruct (_ || _) eqn:E; [done|]. bool_hyps. lia.
    + intros H. rewrite (proj2 (Z.ltb_ge b 1)), (proj2 (Z.ltb_ge 13 b)) by lia. done.
  - case_bool_decide; naive_solver.
  - case_bool_decide; naive_solver.
Qed.

Lemma add_structure_Ok m o m' : add_structure m o = Ok m' ↔
  ∃ i, o = Some i ∧ structure_head i ∧ m !! Structure_Key i = None ∧
    m' = <[Structure_Key i := i]> m.
Proof.
  destruct o as [i|]; simpl; [|naive_solver]. unfold structure_head.
  destruct (_ || _) eqn:E; apply head_check in E; [naive_solver|].
  case_bool_decide as Hm.
  - split; [done|]. intros (? & [= <-] & _ & Hn & _). rewrite Hn in Hm.
    by apply is_Some_None in Hm.
  - apply eq_None_not_Some in Hm. naive_solver.
Qed.

Lemma option_check seen o b : bad_option seen (Some o) = b →
  if b then ¬ (option_ok o ∧ Option_Value o ∉ seen)
  else option_ok o ∧ Option_Value o ∉ seen.
Proof.
  intros <-. unfold bad_option, option_ok.
  destruct (enumValuePattern _), (validName _); simpl; [|naive_solver..].
  destruct (255 <? _) eqn:E; simpl; bool_hyps; [intros [(_ & _ & ?) _]; lia|].
  destruct (Set_.Contains _ _) eqn:Hs;
    [apply Set_.Contains_true in Hs|apply Set_.Contains_false in Hs]; naive_solver.
Qed.

Lemma field_check seen f b : bad_field seen f = b →
  if b then ¬ (head_ok (Field_Key f) (Field_Name f) (Field_Description f) ∧
               Field_Key f ∉ seen)
  else head_ok (Field_Key f) (Field_Name f) (Field_Description f) ∧ Field_Key f ∉ seen.
Proof.
  intros <-. unfold bad_field.
  destruct (negb (validKey _) || _ || _) eqn:E; apply head_check in E; simpl; [tauto|].
  destruct (Set_.Contains _ _) eqn:Hs;
    [apply Set_.Contains_true in Hs|apply Set_.Contains_false in Hs]; tauto.
Qed.

Lemma validateEnumValues_Ok i : validateEnumValues i = Ok tt ↔
  ∃ os, Enum_Values i = Some <$> os ∧ Forall option_ok os ∧ NoDup (Option_Value <$> os).
Proof.
  unfold validateEnumValues. rewrite bind_Ok.
  etrans; [|etrans; [apply (seen_loop Option_Value option_ok
    (λ seen option, if bad_option seen option
      then Er (EInvalid ("enum " +:+ Enum_Key i +:+ " contains an invalid or duplicate value"))
      else Ok (match option with
             | Some option => Set_.Add seen [Option_Value option] | None => seen end)))|]].
  - naive_solver.
  - intros seen [o|] seen'; [|naive_solver].
    destruct (bad_option seen (Some o)) eqn:E; apply option_check in E; split.
    + done.
    + intros (? & [= <-] & ? & ? & _). tauto.
    + intros [= <-]. exists o. tauto.
    + intros (? & [= <-] & _ & _ & ->). done.
  - setoid_rewrite Set_.elem_of_New. split; intros (os & H); exists os;
      [naive_solver|]. destruct H as (? & ? & ?). split_and!; [done..|].
    intros x _ []%elem_of_nil.
Qed.

Lemma add_enum_Ok m o m' : add_enum m o = Ok m' ↔
  ∃ i, o = Some i ∧ enum_ok i ∧ m !! Enum_Key i = None ∧ m' = <[Enum_Key i := i]> m.
Proof.
  destruct o as [i|]; simpl; [|naive_solver].
  destruct (negb (validKey _) || _ || _) eqn:E; apply head_check in E; simpl.
  { split; [done|]. intros (? & [= <-] & [? _] & _). done. }
  case_bool_decide as Hlen.
  { split; [done|]. intros (? & [= <-] & [_ (os & Hos & Hne & _)] & _).
    rewrite Hos, length_fmap in Hlen. by destruct os. }
  case_bool_decide as Hm.
  { split; [done|]. intros (? & [= <-] & _ & Hn & _). rewrite Hn in Hm.
    by apply is_Some_None in Hm. }
  apply eq_None_not_Some in Hm. rewrite bind_Ok. split.
  - intros ([] & (os & Hos & Hall & Hnd)%validateEnumValues_Ok & [= <-]).
    exists i. split_and!; [done| |done|done]. split; [done|].
    exists os. split_and!; [done| |done|done]. intros ->. by rewrite Hos in Hlen.
  - intros (? & [= <-] & [_ (os & Hos & _ & Hall & Hnd)] & _ & ->). exists tt.
    split; [|done]. apply validateEnumValues_Ok. by exists os.
Qed.

Lemma validateStructureFields_Ok s i : validateStructureFields s i = Ok tt ↔
  ∃ fs, fields_ok s (Structure_Fields i) fs.
Proof.
  unfold validateStructureFields. cbv zeta. rewrite bind_Ok.
  etrans; [|etrans; [apply (seen_loop Field_Key (field_ok s)
    (λ seen field, match field with
      | None => Er (EInvalid ("structure " +:+ Structure_Key i
                       +:+ " contains an invalid or duplicate field"))
      | Some field => if bad_field seen field
          then Er (EInvalid ("structure " +:+ Structure_Key i
                       +:+ " contains an invalid or duplicate field"))
          else validateType s (Field_type field);; Ok (Set_.Add seen [Field_Key field])
      end))|]].
  - naive_solver.
  - intros seen [f|] seen'; [|naive_solver]. unfold field_ok.
    destruct (bad_field seen f) eqn:E; apply field_check in E; split.
    + done.
    + intros (? & [= <-] & ? & ? & _). tauto.
    + intros ([] & ?%validateType_Ok & [= <-])%bind_Ok. exists f. tauto.
    + intros (? & [= <-] & [_ Ht%validateType_Ok] & _ & ->). by rewrite Ht.
  - setoid_rewrite Set_.elem_of_New. split.
    + intros (fs & ? & ? & ? & _). by exists fs.
    + intros (fs & [??]). exists fs. split_and!; [done..|]. intros x _ []%elem_of_nil.
Qed.

Lemma fields_closed s i fs : fields_ok s (Structure_Fields i) fs →
  ∀ f k, f ∈ Structure_Fields i → GetStructureKey (Field_GetType f) = k → k ≠ "" →
  is_Some (structures s !! k).
Proof.
  intros [Hs Hall _] f k Hf Hk Hne. rewrite Hs in Hf.
  apply list_elem_of_fmap in Hf as (x & -> & Hx). rewrite Forall_forall in Hall.
  destruct (Hall x Hx) as [_ Ht]. simpl in Hk.
  destruct (Field_type x) as [[[[b|k'|k']|]]|]; simpl in *; congruence.
Qed.

Lemma well_formed_closed s :
  (∀ k i, structures s !! k = Some i → ∃ fs, fields_ok s (Structure_Fields i) fs) →
  closed_graph s.
Proof.
  intros Hs k k' (i & f & Hi & Hf & Hk & Hne).
  destruct (Hs k i Hi) as [fs Hfs]. by eapply fields_closed.
Qed.

(** ** [NewSchema] *)

(** The lists [items] and [enum_items] are the definitions of the well-formed
    schema [s]: no nil, no repeated key. *)
Definition defines (items : list (option Structure)) (enum_items : list (option ConfigEnum))
    (s : Schema) : Prop :=
  ∃ xs0 es, items = Some <$> xs0 ∧ enum_items = Some <$> es ∧
    NoDup (Structure_Key <$> xs0) ∧ NoDup (Enum_Key <$> es) ∧
    indexes Structure_Key (structures s) xs0 ∧ indexes Enum_Key (enums s) es ∧
    well_formed s.

Lemma index_all {A} (key : A → string) add ok (items : list (option A)) m :
  (∀ m o m', add m o = Ok m' ↔
     ∃ i, o = Some i ∧ ok i ∧ m !! key i = None ∧ m' = <[key i := i]> m) →
  fold_m add items ∅ = Ok m ↔
  ∃ xs, items = Some <$> xs ∧ Forall ok xs ∧ NoDup (key <$> xs) ∧ indexes key m xs.
Proof.
  intros Hadd. rewrite (index_loop key ok add Hadd). unfold indexes.
  setoid_rewrite lookup_empty. split; intros (xs & H); exists xs.
  - destruct H as (? & ? & ? & _ & Hm). split_and!; [done..|].
    intros k i. rewrite Hm. naive_solver.
  - destruct H as (? & ? & ? & Hm). split_and!; [done..|].
    intros k i. rewrite Hm. naive_solver.
Qed.

Lemma each_structure s xs0 :
  each (λ item, match item with
                | Some item => validateStructureFields s item
                | None => Er (EPanic "nil structure")
                end) (Some <$> xs0) = Ok tt ↔
  ∀ i, i ∈ xs0 → ∃ fs, fields_ok s (Structure_Fields i) fs.
Proof.
  rewrite each_Ok. split.
  - intros H i Hi. apply validateStructureFields_Ok.
    apply (H (Some i)). by apply list_elem_of_fmap_2.
  - intros H o (i & -> & Hi)%list_elem_of_fmap. by apply validateStructureFields_Ok, H.
Qed.

Lemma NewSchema_defines `{MapOrder} items enum_items s :
  NewSchema items enum_items = Ok s ↔ defines items enum_items s.
Proof.
  unfold NewSchema, defines. rewrite bind_Ok.
  setoid_rewrite (index_all Structure_Key add_structure structure_head); [|apply add_structure_Ok].
  setoid_rewrite bind_Ok.
  setoid_rewrite (index_all Enum_Key add_enum enum_ok); [|apply add_enum_Ok]. split.
  - intros (ss & (xs0 & -> & Hheads & Hnd & Hss) & es & (es' & -> & Henums & Hnde & Hes) & Hrest).
    apply bind_Ok in Hrest as ([] & Heach & ([] & Hcyc & [= <-])%bind_Ok). rewrite each_structure in Heach.
    exists xs0, es'. split_and!; [done..|].
    pose proof (proj1 (Forall_forall _ _) Hheads) as Hhead.
    pose proof (proj1 (Forall_forall _ _) Henums) as Henum.
    assert (Hfs : ∀ k i, ss !! k = Some i → ∃ fs,
      fields_ok {| structures := ss; enums := es |} (Structure_Fields i) fs).
    { intros k i [Hi _]%Hss. by apply Heach. }
    split; simpl.
    + intros k i [Hi Hk]%Hss. split; [done|]. split; [by apply Hhead|by apply Heach].
    + intros k i [Hi Hk]%Hes. split; [done|by apply Henum].
    + destruct (validateCycles_outcome _ (well_formed_closed
          {| structures := ss; enums := es |} Hfs))
        as [[_ ?]|(msg & Hc & _)]; [done|congruence].
  - intros (xs0 & es & -> & -> & Hnd & Hnde & Hss & Hes & [Hws Hwe Hac]).
    exists (structures s). split.
    { exists xs0. split_and!; [done| |done|done]. apply Forall_forall. intros i Hi.
      by apply (Hws (Structure_Key i) i), Hss. }
    exists (enums s). split.
    { exists es. split_and!; [done| |done|done]. apply Forall_forall. intros i Hi.
      by apply (Hwe (Enum_Key i) i), Hes. }
    assert ({| structures := structures s; enums := enums s |} = s) as -> by by destruct s.
    assert (Hfs : ∀ k i, structures s !! k = Some i →
      ∃ fs, fields_ok s (Structure_Fields i) fs).
    { intros k i Hi. by apply (Hws k i). }
    rewrite (proj2 (each_structure s xs0)); cbn [mbind result_bind].
    + destruct (validateCycles_outcome s (well_formed_closed s Hfs))
        as [[-> _]|(msg & _ & Hc)]; done.
    + intros i Hi. apply (Hfs (Structure_Key i)). by apply Hss.
Qed.

(** ** Which errors the constructor returns *)

Definition domain_error (e : Err) : Prop := is_Invalid e = true ∨ is_Conflict e = true.
Definition domain_errors {A} (r : result A) : Prop := ∀ e, r = Er e → domain_error e.

Lemma domain_Ok {A} (a : A) : domain_errors (Ok a).
Proof. done. Qed.
Lemma domain_Invalid {A} msg : domain_errors (A := A) (Er (EInvalid msg)).
Proof. intros e [= <-]. by left. Qed.
Lemma domain_Conflict {A} msg : domain_errors (A := A) (Er (EConflict msg)).
Proof. intros e [= <-]. by right. Qed.
Lemma domain_bind {A B} (m : result A) (k : A → result B) :
  domain_errors m → (∀ a, m = Ok a → domain_errors (k a)) → domain_errors (m ≫= k).
Proof.
  intros Hm Hk e He. apply bind_Er in He as [He|(a & Ha & He)]; [by apply Hm|].
  by eapply Hk.
Qed.
Lemma domain_fold {S A} (f : S → A → result S) l s :
  (∀ s x, x ∈ l → domain_errors (f s x)) → domain_errors (fold_m f l s).
Proof.
  revert s. induction l as [|x l IH]; intros s Hf; cbn [fold_m]; [apply domain_Ok|].
  apply domain_bind; [apply Hf; by left|]. intros s' _. apply IH.
  intros s'' y Hy. apply Hf. by right.
Qed.
Lemma domain_each {A} (f : A → result unit) l :
  (∀ x, x ∈ l → domain_errors (f x)) → domain_errors (each f l).
Proof.
  induction l as [|x l IH]; intros Hf; cbn [each]; [apply domain_Ok|].
  apply domain_bind; [apply Hf; by left|]. intros _ _. apply IH.
  intros y Hy. apply Hf. by right.
Qed.
Lemma domain_if {A} (b : bool) (x y : result A) :
  (b = true → domain_errors x) → (b = false → domain_errors y) →
  domain_errors (if b then x else y).
Proof. destruct b; auto. Qed.

Create HintDb domain.
#[export] Hint Resolve domain_Ok domain_Invalid domain_Conflict domain_bind
  domain_fold domain_each domain_if : domain.

Lemma domain_validateType s ty : domain_errors (validateType s ty).
Proof.
  destruct ty as [[[[b|k|k]|]]|]; simpl; eauto with domain.
Qed.
#[export] Hint Resolve domain_validateType : domain.

Lemma domain_add_structure m o : domain_errors (add_structure m o).
Proof. destruct o; simpl; eauto 6 with domain. Qed.
Lemma domain_add_enum m o : domain_errors (add_enum m o).
Proof.
  destruct o; simpl; [|eauto with domain]. unfold validateEnumValues.
  eauto 10 with domain.
Qed.
Lemma domain_fields s i : domain_errors (validateStructureFields s i).
Proof.
  unfold validateStructureFields. apply domain_bind; [|auto with domain].
  apply domain_fold. intros seen [f|] _; eauto 6 with domain.
Qed.
#[export] Hint Resolve domain_add_structure domain_add_enum domain_fields : domain.

Lemma NewSchema_domain `{MapOrder} items enum_items :
  domain_errors (NewSchema items enum_items).
Proof.
  unfold NewSchema. apply domain_bind; [auto with domain|]. intros ss Hss.
  apply (index_all Structure_Key add_structure structure_head) in Hss
    as (xs & -> & _ & _ & Hidx); [|apply add_structure_Ok].
  apply domain_bind; [auto with domain|]. intros es _.
  apply domain_bind.
  { apply domain_each. intros o (i & -> & _)%list_elem_of_fmap. auto with domain. }
  intros [] Heach. rewrite each_structure in Heach.
  apply domain_bind; [|auto with domain].
  assert (Hcl : closed_graph {| structures := ss; enums := es |}).
  { apply well_formed_closed. intros k i [Hi _]%Hidx. by apply Heach. }
  destruct (validateCycles_outcome _ Hcl) as [[-> _]|(msg & -> & _)]; auto with domain.
Qed.
