(* ===== verification/SchemaValue.v ===== *)
(** Values against types: the typing relation of configuration values, and
    [ValidateConfig] as its decision procedure. *)

From stdpp Require Import relations fin_maps.
From S2P Require Import Prelude GoStd GoStrings Util Json Proto Schema SchemaGraph SchemaWf.

Local Open Scope Z_scope.

(** ** Typing *)

Inductive base_value : Z → json → Prop :=
  | base_text b t : b ∈ [STRING; IMAGE; VIDEO; FILE] → base_value b (JString t)
  | base_int t n : parse_int64 t = Some n → base_value INT (JNumber t)
  | base_decimal t : parse_float_ok t = true → base_value DECIMAL (JNumber t)
  | base_bool b : base_value BOOLEAN (JBool b)
  | base_date t : time_parse_ok date_layout t = true → base_value DATE (JString t)
  | base_time t : time_parse_ok time_layout t = true → base_value TIME (JString t)
  | base_datetime t : time_parse_ok datetime_layout t = true →
      base_value DATETIME (JString t)
  | base_date_range t u : time_parse_ok date_layout t = true →
      time_parse_ok date_layout u = true →
      base_value DATE_RANGE (JArray [JString t; JString u])
  | base_time_range t u : time_parse_ok time_layout t = true →
      time_parse_ok time_layout u = true →
      base_value TIME_RANGE (JArray [JString t; JString u])
  | base_datetime_range t u : time_parse_ok datetime_layout t = true →
      time_parse_ok datetime_layout u = true →
      base_value DATETIME_RANGE (JArray [JString t; JString u]).

(** [has_type s a k v]: the value [v] has the type [k], or with [a] is an array
    of such values.  An object has exactly the members its structure declares. *)
Inductive has_type (s : Schema) : bool → Field_Kind → json → Prop :=
  | type_array k items :
      has_items s k items → has_type s true k (JArray items)
  | type_base b v : base_value b v → has_type s false (Field_Type_BaseType b) v
  | type_enum k item o :
      enums s !! k = Some item → Some o ∈ Enum_Values item →
      has_type s false (Field_Type_EnumKey k) (JString (Option_Value o))
  | type_structure k structure fs object :
      structures s !! k = Some structure →
      Structure_Fields structure = Some <$> fs →
      (∀ key, key ∈ object.*1 ↔ key ∈ Field_Key <$> fs) →
      has_fields s fs object →
      has_type s false (Field_Type_StructureKey k) (JObject object)
with has_items (s : Schema) : Field_Kind → list json → Prop :=
  | items_nil k : has_items s k []
  | items_cons k v items :
      has_type s false k v → has_items s k items → has_items s k (v :: items)
with has_fields (s : Schema) : list Field → list (string * json) → Prop :=
  | fields_nil object : has_fields s [] object
  | fields_cons f k v fs object :
      Field_type f = Some {| Kind := Some k |} →
      alist_get (Field_Key f) object = Some v →
      has_type s (Field_IsArray f) k v →
      has_fields s fs object →
      has_fields s (f :: fs) object.

(** ** Decoded objects have distinct keys *)

Inductive unique_keys : json → Prop :=
  | unique_null : unique_keys JNull
  | unique_bool b : unique_keys (JBool b)
  | unique_number t : unique_keys (JNumber t)
  | unique_string t : unique_keys (JString t)
  | unique_array l : Forall unique_keys l → unique_keys (JArray l)
  | unique_object l : NoDup l.*1 → Forall (λ kv, unique_keys kv.2) l →
      unique_keys (JObject l).

Lemma alist_get_Some {A} k (l : list (string * A)) :
  is_Some (alist_get k l) ↔ k ∈ l.*1.
Proof.
  induction l as [|[k' v] l IH]; csimpl.
  { split; [by intros []|by intros ?%elem_of_nil]. }
  rewrite elem_of_cons. case_bool_decide as Hk; [naive_solver|]. rewrite IH. naive_solver.
Qed.

Lemma alist_get_in {A} k (l : list (string * A)) v :
  alist_get k l = Some v → (k, v) ∈ l.
Proof.
  induction l as [|[k' v'] l IH]; csimpl; [done|].
  case_bool_decide; [intros [= ->]; subst; by left|]. intros ?. right. by apply IH.
Qed.

Lemma alist_set_keys {A} k (v : A) l x : x ∈ (alist_set k v l).*1 ↔ x = k ∨ x ∈ l.*1.
Proof.
  induction l as [|[k' v'] l IH]; csimpl.
  { rewrite list_elem_of_singleton, elem_of_nil. naive_solver. }
  case_bool_decide; csimpl; rewrite !elem_of_cons; [naive_solver|].
  rewrite IH. naive_solver.
Qed.

Lemma alist_set_NoDup {A} k (v : A) l : NoDup l.*1 → NoDup (alist_set k v l).*1.
Proof.
  induction l as [|[k' v'] l IH]; csimpl; [intros; apply NoDup_singleton|].
  intros [Hni Hnd]%NoDup_cons. case_bool_decide; csimpl.
  - subst. by constructor.
  - constructor; [|by apply IH]. rewrite alist_set_keys. naive_solver.
Qed.

Lemma alist_set_Forall {A} (P : A → Prop) k v l :
  P v → Forall (λ kv, P kv.2) l → Forall (λ kv, P kv.2) (alist_set k v l).
Proof.
  intros Hv. induction 1 as [|[k' v'] l Hx Hl IH]; csimpl; [by repeat constructor|].
  case_bool_decide; by constructor.
Qed.

Lemma decode_unique_all n :
  (∀ d s v r, scan_value n d s = Some (v, r) → unique_keys v) ∧
  (∀ d s v r, scan_elements n d s = Some (v, r) → unique_keys v) ∧
  (∀ d acc s v r, unique_keys (JObject acc) →
     scan_members n d acc s = Some (v, r) → unique_keys v).
Proof.
  induction n as [|n (IHv & IHe & IHm)]; [done|]. split_and!.
  - intros d s v r. cbn [scan_value]. destruct (skip_ws s) as [|c s']; [done|].
    repeat case_decide; intros HH.
    + destruct (d <=? 0); [done|]. destruct (eat _ _); simplify_eq.
      * by repeat constructor.
      * eapply IHm; [|done]. by repeat constructor.
    + destruct (d <=? 0); [done|]. destruct (eat _ _); simplify_eq.
      * by repeat constructor.
      * by eapply IHe.
    + apply bind_Some in HH as ([t ?] & _ & [= <- <-]). constructor.
    + apply bind_Some in HH as (? & _ & [= <- <-]). constructor.
    + apply bind_Some in HH as (? & _ & [= <- <-]). constructor.
    + apply bind_Some in HH as (? & _ & [= <- <-]). constructor.
    + apply bind_Some in HH as ([t ?] & _ & [= <- <-]). constructor.
  - intros d s v r. cbn [scan_elements]. intros ([x s1] & Hx%IHv & H)%bind_Some.
    destruct (eat _ _) as [s2|]; simplify_eq; [by repeat constructor|].
    apply bind_Some in H as (s2 & _ & ([tl s3] & Htl%IHe & H)%bind_Some).
    destruct tl; try done. simplify_eq. inversion Htl. by repeat constructor.
  - intros d acc s v r Hacc. cbn [scan_members].
    intros (r1 & _ & ([k s1] & _ & (s2 & _ & ([x s3] & Hx%IHv & H)%bind_Some)%bind_Some)%bind_Some)%bind_Some.
    assert (unique_keys (JObject (alist_set k x acc))) as Hset.
    { inversion Hacc. constructor; [by apply alist_set_NoDup|by apply alist_set_Forall]. }
    destruct (eat _ _) as [s4|]; simplify_eq; [done|].
    apply bind_Some in H as (s4 & _ & H). by eapply IHm.
Qed.

Lemma decodeJSON_unique s v : decodeJSON s = Some v → unique_keys v.
Proof.
  unfold decodeJSON, decode_value. intros H.
  destruct (scan_value _ _ s) as [[v' r]|] eqn:E; [|done]. case_decide; simplify_eq.
  by eapply (proj1 (decode_unique_all _)).
Qed.

(** ** Deciding *)

(** The check [r] accepts exactly when [P] holds, and rejects with an
    invalid-input error. *)
Definition decides (r : result unit) (P : Prop) : Prop :=
  (r = Ok tt ∧ P) ∨ (∃ msg, r = Er (EInvalid msg) ∧ ¬ P).

Lemma decides_iff r P Q : (P ↔ Q) → decides r P → decides r Q.
Proof. unfold decides. naive_solver. Qed.

Lemma decides_bool (b : bool) msg P :
  (b = true ↔ P) → decides (if negb b then Er (EInvalid msg) else Ok tt) P.
Proof.
  intros HP. destruct b; [left|right; exists msg]; (split; [done|]); [by apply HP|].
  rewrite <-HP. done.
Qed.

Lemma decides_each {A} (f : A → result unit) (P : A → Prop) l :
  (∀ x, x ∈ l → decides (f x) (P x)) → decides (each f l) (Forall P l).
Proof.
  induction l as [|x l IH]; intros Hf; cbn [each]; [by left; auto|].
  destruct (Hf x) as [[-> Hx]|(msg & -> & Hx)]; [by left| |].
  - cbn [mbind result_bind]. destruct IH as [[-> Hl]|(msg & -> & Hl)].
    { intros y Hy. apply Hf. by right. }
    + left. by split; [|constructor].
    + right. exists msg. split; [done|]. by intros [_ ?]%Forall_cons.
  - right. exists msg. split; [done|]. by intros [? _]%Forall_cons.
Qed.

Lemma decides_each_from {A} i (f : nat → A → result unit) (P : A → Prop) l :
  (∀ j x, x ∈ l → decides (f j x) (P x)) → decides (each_from i f l) (Forall P l).
Proof.
  revert i. induction l as [|x l IH]; intros i Hf; cbn [each_from]; [by left; auto|].
  destruct (Hf i x) as [[-> Hx]|(msg & -> & Hx)]; [by left| |].
  - cbn [mbind result_bind]. destruct (IH (S i)) as [[-> Hl]|(msg & -> & Hl)].
    { intros j y Hy. apply Hf. by right. }
    + left. by split; [|constructor].
    + right. exists msg. split; [done|]. by intros [_ ?]%Forall_cons.
  - right. exists msg. split; [done|]. by intros [? _]%Forall_cons.
Qed.

Lemma each_fmap {A B} (f : B → result unit) (g : A → B) l :
  each f (g <$> l) = each (λ x, f (g x)) l.
Proof. induction l as [|x l IH]; [done|]. csimpl. by rewrite IH. Qed.

Lemma validTime_spec v l :
  validTime v l = true ↔ ∃ t, v = JString t ∧ time_parse_ok l t = true.
Proof. destruct v; simpl; naive_solver. Qed.

Lemma validRange_spec v l : validRange v l = true ↔
  ∃ t u, v = JArray [JString t; JString u] ∧ time_parse_ok l t = true ∧
    time_parse_ok l u = true.
Proof.
  destruct v as [| | | |[|a [|b [|]]]|]; try naive_solver.
  cbn [validRange]. rewrite andb_true_iff, !validTime_spec. naive_solver.
Qed.

Lemma validateBaseValue_decides b v path :
  decides (validateBaseValue b v path) (base_value b v).
Proof.
  unfold validateBaseValue, does_not_match. cbv zeta. apply decides_bool.
  case_bool_decide as Htext.
  { split; [destruct v; try done; intros _; by constructor|].
    intros Hb. destruct Hb; done || set_solver. }
  assert (Ht : ∀ t, base_value b (JString t) →
    b = DATE ∧ time_parse_ok date_layout t = true ∨
    b = TIME ∧ time_parse_ok time_layout t = true ∨
    b = DATETIME ∧ time_parse_ok datetime_layout t = true).
  { intros t Hb. inversion Hb; subst; auto 10. done. }
  repeat match goal with
  | |- context [b =? ?n] => destruct (Z.eqb_spec b n) as [->|?]
  end; rewrite ?validTime_spec, ?validRange_spec; split;
  try (intros (t & -> & ?); constructor; done);
  try (intros (t & u & -> & ? & ?); constructor; done);
  try (intros Hb; inversion Hb; subst; eauto; done).
  - destruct v; try done. rewrite bool_decide_eq_true. intros [n ?].
    by apply (base_int _ n).
  - intros Hb. inversion Hb; subst; [set_solver|]. by apply bool_decide_eq_true.
  - destruct v; try done. apply base_decimal.
  - destruct v; try done. intros _. apply base_bool.
Qed.

Section validate.
Context (s : Schema) (Hwf : well_formed s).

Lemma validateEnumValue_decides k v path : is_Some (enums s !! k) →
  decides (validateEnumValue s k v path) (has_type s false (Field_Type_EnumKey k) v).
Proof.
  intros [item Hk]. unfold validateEnumValue.
  destruct v; try (right; eexists; split; [done|]; by inversion 1).
  rewrite Hk. destruct (existsb _ _) eqn:E; [left|right; eexists]; (split; [done|]).
  - apply existsb_exists in E as (o & Ho%list_elem_of_In & Heq).
    destruct o as [o|]; [|done]. apply bool_decide_eq_true in Heq as <-.
    by eapply type_enum.
  - inversion 1 as [| |? ? o Hk' Ho|]; subst. rewrite Hk in Hk'.
    injection Hk' as <-. apply not_true_iff_false in E. apply E, existsb_exists.
    exists (Some o). rewrite <-list_elem_of_In. split; [done|].
    by apply bool_decide_eq_true.
Qed.

(** Distinct keys: as many members as fields, and every field present, is
    the same as having exactly the fields as members. *)
Lemma same_keys (fs : list Field) (object : list (string * json)) :
  NoDup (Field_Key <$> fs) → NoDup object.*1 →
  (∀ f, f ∈ fs → Field_Key f ∈ object.*1) → length object = length fs →
  ∀ key, key ∈ object.*1 ↔ key ∈ Field_Key <$> fs.
Proof.
  intros Hndf Hndo Hpresent Hlen.
  assert (Field_Key <$> fs ≡ₚ object.*1) as Hperm.
  { apply submseteq_length_Permutation.
    - apply NoDup_submseteq; [done|].
      intros key (f & -> & Hf)%list_elem_of_fmap. by apply Hpresent.
    - by rewrite !length_fmap, Hlen. }
  intros key. by rewrite Hperm.
Qed.

Lemma same_keys_length (fs : list Field) (object : list (string * json)) :
  NoDup (Field_Key <$> fs) → NoDup object.*1 →
  (∀ key, key ∈ object.*1 ↔ key ∈ Field_Key <$> fs) → length object = length fs.
Proof.
  intros Hndf Hndo Hkeys.
  assert (object.*1 ≡ₚ Field_Key <$> fs) as Hperm by by apply NoDup_Permutation.
  apply Permutation_length in Hperm. by rewrite !length_fmap in Hperm.
Qed.

Lemma has_fields_each fs object : has_fields s fs object ↔
  Forall (λ f, ∃ k v, Field_type f = Some {| Kind := Some k |} ∧
    alist_get (Field_Key f) object = Some v ∧ has_type s (Field_IsArray f) k v) fs.
Proof.
  induction fs as [|f fs IH]; split.
  - constructor.
  - constructor.
  - inversion 1; subst. constructor; [eauto 10|by apply IH].
  - intros [(k & v & ? & ? & ?) ?]%Forall_cons. econstructor; eauto. by apply IH.
Qed.

Lemma has_items_each k items :
  has_items s k items ↔ Forall (has_type s false k) items.
Proof.
  induction items as [|v items IH]; split; try (by constructor).
  - inversion 1; subst. constructor; [done|by apply IH].
  - intros [? ?]%Forall_cons. constructor; [done|by apply IH].
Qed.

Lemma kind_of f : field_ok s f → ∃ k, Field_type f = Some {| Kind := Some k |}.
Proof. intros [_ Ht]. destruct (Field_type f) as [[[k|]]|]; [by eauto|done|done]. Qed.

(** What is known of the structures on the path to a value of kind [k]. *)
Definition above (seen : gset string) (k : Field_Kind) : Prop :=
  ∀ key v, k = Field_Type_StructureKey key → v ∈ seen → tc (refers s) v key.

Definition checked (rec : Field → json → string → gset string → result unit)
    (bound : Z) : Prop :=
  ∀ f k v path seen, Field_type f = Some {| Kind := Some k |} →
    type_ok s (Field_type f) → above seen k → unique_keys v → nesting v < bound →
    decides (rec f v path seen) (has_type s (Field_IsArray f) k v).

Lemma nesting_items l v : v ∈ l → nesting v < nesting (JArray l).
Proof.
  simpl. induction l as [|x l IH]; [by intros ?%elem_of_nil|].
  intros [->|Hv]%elem_of_cons; simpl; [lia|]. specialize (IH Hv). lia.
Qed.

Lemma nesting_members l kv : kv ∈ l → nesting kv.2 < nesting (JObject l).
Proof.
  simpl. induction l as [|x l IH]; [by intros ?%elem_of_nil|].
  intros [->|Hv]%elem_of_cons; simpl; [lia|]. specialize (IH Hv). lia.
Qed.

Lemma validateArrayValue_decides rec f k v path seen :
  checked rec (nesting v) → Field_type f = Some {| Kind := Some k |} →
  type_ok s (Field_type f) → above seen k → unique_keys v →
  decides (validateArrayValue rec f v path seen) (has_type s true k v).
Proof.
  intros Hrec Hf Hok Habove Huniq.
  destruct v as [| | | |items|];
    try (right; eexists; split; [done|]; by inversion 1).
  eapply decides_iff; [|apply (decides_each_from 0 _ (has_type s false k))].
  - rewrite <-has_items_each. split; [by constructor|by inversion 1].
  - intros j v Hv. inversion Huniq as [| | | |? Hall|]; subst.
    rewrite Forall_forall in Hall.
    apply (Hrec (mk_field _ _ _ false _)); [done|done|done|by apply Hall|].
    by apply nesting_items.
Qed.

Lemma validateStructureValue_decides rec k v path seen :
  checked rec (nesting v) → is_Some (structures s !! k) →
  above seen (Field_Type_StructureKey k) → unique_keys v →
  decides (validateStructureValue rec s k v path seen)
    (has_type s false (Field_Type_StructureKey k) v).
Proof.
  intros Hrec [st Hk] Habove Huniq.
  destruct v as [| | | | |object];
    try (right; eexists; split; [done|]; by inversion 1).
  unfold validateStructureValue.
  assert (Set_.Contains seen k = false) as ->.
  { apply Set_.Contains_false. intros Hin.
    by eapply (wf_acyclic s Hwf), (Habove k k eq_refl Hin). }
  cbv zeta. rewrite Hk.
  destruct (wf_structures s Hwf k st Hk) as (_ & _ & fs & [Hfs Hall Hnd]).
  rewrite Forall_forall in Hall.
  inversion Huniq as [| | | | |? Hndo Hmembers]; subst. rewrite Forall_forall in Hmembers.
  assert (Hty : has_type s false (Field_Type_StructureKey k) (JObject object) ↔
    length object = length fs ∧ has_fields s fs object).
  { split.
    - inversion 1 as [| | |? st' fs' ? Hk' Hfs' Hkeys Hfields]; subst.
      rewrite Hk in Hk'. injection Hk' as <-.
      assert (fs' = fs) as -> by (rewrite Hfs in Hfs'; by apply (inj (fmap Some)) in Hfs').
      split; [by apply same_keys_length|done].
    - intros [Hlen Hfields]. eapply type_structure; [done..| |done].
      apply same_keys; [done|done| |done]. intros f Hf.
      rewrite has_fields_each, Forall_forall in Hfields.
      destruct (Hfields f Hf) as (? & v & _ & Hv & _).
      apply alist_get_Some. by exists v. }
  rewrite Hfs, length_fmap. case_bool_decide as Hlen; cbn [negb].
  2:{ right. eexists. split; [done|]. rewrite Hty. naive_solver. }
  eapply decides_iff.
  { symmetry. rewrite Hty, has_fields_each. split; [by intros [_ ?]|by split]. }
  rewrite each_fmap. apply decides_each. intros f Hf.
  destruct (kind_of f (Hall f Hf)) as [kf Hkf].
  destruct (alist_get (Field_Key f) object) as [v|] eqn:Hget.
  2:{ right. eexists. split; [done|]. naive_solver. }
  apply alist_get_in in Hget as Hin.
  eapply decides_iff; [|apply (Hrec f kf)].
  - split; [by eauto|]. intros (? & ? & Hk' & [= <-] & ?). rewrite Hkf in Hk'.
    by injection Hk' as <-.
  - done.
  - by apply Hall.
  - intros key w -> Hw. apply Set_.elem_of_Add in Hw.
    assert (refers s k key) as Href.
    { exists st, (Some f). rewrite Hfs. split_and!; [done|by apply list_elem_of_fmap_2| |].
      - by simpl; rewrite Hkf.
      - intros ->. destruct (Hall f Hf) as [_ Ht]. rewrite Hkf in Ht. destruct Ht as [i Hi].
        by destruct (wf_structures s Hwf "" i Hi) as (Hkey & (Hv & _) & _); rewrite Hkey in Hv. }
    destruct Hw as [Hw| ->%list_elem_of_singleton]; [|by apply tc_once].
    eapply tc_r; [by apply (Habove k)|done].
  - by apply (Hmembers (Field_Key f, v)).
  - by apply (nesting_members object (Field_Key f, v)).
Qed.

Lemma validateValue_decides fuel : checked (validateValue fuel s) (Z.of_nat fuel).
Proof.
  induction fuel as [|fuel IH]; intros f k v path seen Hf Hok Habove Huniq Hd.
  { pose proof (nesting_nonneg v). lia. }
  assert (checked (validateValue fuel s) (nesting v)) as Hrec.
  { intros f' k' v' p' seen' ?????. apply IH; try done. lia. }
  cbn [validateValue]. destruct (Field_IsArray f).
  { by apply validateArrayValue_decides. }
  rewrite Hf in Hok |- *. destruct k as [b|k|k].
  - eapply decides_iff; [|apply validateBaseValue_decides].
    split; [by constructor|by inversion 1].
  - by apply validateStructureValue_decides.
  - by apply validateEnumValue_decides.
Qed.

Lemma validateType_decides ty : decides (validateType s ty) (type_ok s ty).
Proof.
  destruct ty as [[[[b|k|k]|]]|]; simpl;
    [| | |right; eexists; split; [done|by intros []]..].
  - unfold STRING, FILE. destruct (_ || _) eqn:E; [right; eexists|left].
    + split; [done|]. apply orb_true_iff in E as [E|E]; bool_hyps; lia.
    + split; [done|]. bool_hyps. lia.
  - case_bool_decide; [by left|right; eexists; by split].
  - case_bool_decide; [by left|right; eexists; by split].
Qed.

(** The conditions under which a configuration is accepted. *)
Definition config_ok (c : Config) : Prop :=
  validKey (Config_Key c) = true ∧ type_ok s (Config_Type c) ∧
  ∃ k v, Config_Type c = Some {| Kind := Some k |} ∧
    decodeJSON (Config_Value c) = Some v ∧ has_type s (Config_IsArray c) k v.

Lemma ValidateConfig_decides c : decides (ValidateConfig s (Some c)) (config_ok c).
Proof.
  unfold ValidateConfig, config_ok.
  destruct (validKey (Config_Key c)) eqn:Hkey.
  2:{ rewrite orb_true_r. right. eexists. split; [done|]. naive_solver. }
  rewrite orb_false_r. case_bool_decide as Hty.
  { right. eexists. split; [done|]. rewrite Hty. naive_solver. }
  destruct (validateType_decides (Config_Type c)) as [[-> Hok]|(msg & -> & Hno)];
    cbn [mbind result_bind].
  2:{ right. exists msg. split; [done|]. naive_solver. }
  destruct (decodeJSON (Config_Value c)) as [v|] eqn:Hv.
  2:{ right. eexists. split; [done|]. naive_solver. }
  destruct (Config_Type c) as [[[k|]]|] eqn:Htype; try done. rewrite <-Htype.
  eapply decides_iff;
    [|apply (validateValue_decides _ (mk_field _ _ _ _ _) k); simpl; rewrite ?Htype].
  - simpl. rewrite Htype. split; [by eauto 10|].
    intros (_ & _ & ? & ? & [= <-] & [= <-] & ?). done.
  - done.
  - done.
  - by intros key w _ []%Set_.elem_of_New%not_elem_of_nil.
  - by eapply decodeJSON_unique.
  - unfold value_fuel. pose proof (nesting_nonneg v). lia.
Qed.
End validate.
