(* ===== verification/SchemaDefault.v ===== *)
(** Default values and editor trees: [DefaultValue] and [BuildTree] always
    produce a result on a well-formed schema; a default of a type without date
    and time parts is itself an accepted value, through the encoder and the
    decoder. *)

From stdpp Require Import relations fin_maps fin_sets sorting.
From S2P Require Import Prelude GoStd GoStrings Util Json Proto Schema SchemaGraph SchemaWf SchemaValue.
From Stdlib Require Import Ascii.

Local Open Scope Z_scope.

(** ** Sorting the members of an object *)

Lemma insert_sorted_perm {A} (x : string * A) l : insert_sorted x l ≡ₚ x :: l.
Proof.
  induction l as [|y l IH]; simpl; [done|]. destruct (String.leb _ _); [done|].
  rewrite IH. constructor.
Qed.

Lemma sort_entries_perm {A} (l : list (string * A)) : sort_entries l ≡ₚ l.
Proof.
  induction l as [|x l IH]; [done|].
  change (insert_sorted x (sort_entries l) ≡ₚ x :: l).
  by rewrite insert_sorted_perm, IH.
Qed.

Definition key_le {A} (x y : string * A) : Prop := String.leb x.1 y.1 = true.

Lemma insert_Sorted {A} (x : string * A) l :
  Sorted key_le l → Sorted key_le (insert_sorted x l).
Proof.
  induction 1 as [|y l Hs IH Hy]; simpl; [by repeat constructor|].
  destruct (String.leb x.1 y.1) eqn:E; [by repeat constructor|].
  constructor; [done|].
  assert (key_le y x) as Hyx.
  { unfold key_le. destruct (String.leb_total x.1 y.1); congruence. }
  destruct l as [|z l]; simpl; [by constructor|].
  inversion Hy; subst. destruct (String.leb x.1 z.1); by constructor.
Qed.

Lemma sort_entries_Sorted {A} (l : list (string * A)) : Sorted key_le (sort_entries l).
Proof.
  induction l as [|x l IH]; [constructor|]. by apply (insert_Sorted x (sort_entries l)).
Qed.

Lemma sort_entries_id {A} (l : list (string * A)) :
  Sorted key_le l → sort_entries l = l.
Proof.
  induction 1 as [|x l Hs IH Hx]; [done|].
  change (insert_sorted x (sort_entries l) = x :: l). rewrite IH.
  destruct Hx as [|y l Hx]; simpl; [done|]. by rewrite Hx.
Qed.

(** The value as the decoder returns it after [json.Marshal]. *)
Fixpoint norm (j : json) : json :=
  match j with
  | JArray l => JArray (norm <$> l)
  | JObject l => JObject (sort_entries ((λ '(k, v), (k, norm v)) <$> l))
  | _ => j
  end.

(** Values whose strings need no escaping and whose objects have distinct
    keys: what the server encodes. *)
Inductive encodable : json → Prop :=
  | encodable_null : encodable JNull
  | encodable_bool b : encodable (JBool b)
  | encodable_zero : encodable (JNumber "0")
  | encodable_string s : plain s → encodable (JString s)
  | encodable_array l : Forall encodable l → encodable (JArray l)
  | encodable_object l :
      Forall (λ kv, plain kv.1) l → Forall (λ kv, encodable kv.2) l →
      NoDup l.*1 → encodable (JObject l).

Lemma norm_fst (l : list (string * json)) : ((λ '(k, v), (k, norm v)) <$> l : list (string * json)).*1 = l.*1.
Proof. induction l as [|[k v] l IH]; csimpl; [done|]. by rewrite IH. Qed.

Lemma norm_canonical j : encodable j → canonical (norm j).
Proof.
  induction j as [| | | |l IH|l IH] using json_deep_ind; inversion 1 as
    [| | | |? Hl|? Hp Hl Hnd]; subst; simpl; try by constructor.
  - constructor. rewrite Forall_forall in *. intros x (y & -> & Hy)%list_elem_of_fmap.
    by apply IH, Hl.
  - constructor.
    + rewrite sort_entries_perm. rewrite Forall_forall in *.
      intros x ([k v] & -> & Hy)%list_elem_of_fmap. apply (Hp _ Hy).
    + rewrite sort_entries_perm. rewrite Forall_forall in *.
      intros x ([k v] & -> & Hy)%list_elem_of_fmap. apply (IH _ Hy), (Hl _ Hy).
    + rewrite sort_entries_perm. by rewrite norm_fst.
    + apply sort_entries_id, sort_entries_Sorted.
Qed.

Lemma marshal_norm j : marshal (norm j) = marshal j.
Proof.
  induction j as [| | | |l IH|l IH] using json_deep_ind; try done.
  - cbn [norm marshal]. do 3 f_equal. rewrite <-list_fmap_compose.
    apply list_fmap_ext. intros i x Hx%list_elem_of_lookup_2.
    rewrite Forall_forall in IH. by apply IH.
  - cbn [norm marshal]. do 4 f_equal.
    rewrite (sort_entries_map marshal), sort_entries_id by apply sort_entries_Sorted.
    rewrite <-(sort_entries_map marshal). f_equal. rewrite <-list_fmap_compose.
    apply list_fmap_ext. intros i [k x] Hx%list_elem_of_lookup_2.
    rewrite Forall_forall in IH. simpl. f_equal. apply (IH _ Hx).
Qed.

Lemma max_nest_perm {A} (f : A → json) l l' : l ≡ₚ l' → max_nest f l = max_nest f l'.
Proof. induction 1; simpl; unfold max_nest in *; simpl; lia. Qed.

Lemma nesting_norm j : nesting (norm j) = nesting j.
Proof.
  induction j as [| | | |l IH|l IH] using json_deep_ind; try done; cbn [norm nesting];
    f_equal.
  - induction IH as [|x l Hx Hl IH]; csimpl; lia.
  - change (max_nest snd (sort_entries ((λ '(k, v), (k, norm v)) <$> l)) = max_nest snd l).
    rewrite (max_nest_perm _ _ _ (sort_entries_perm _)). unfold max_nest.
    induction IH as [|[k x] l Hx Hl IH]; csimpl in *; lia.
Qed.

(** Encoding and decoding a value only sorts its members. *)
Lemma decode_encoded j : encodable j → nesting j ≤ max_nesting →
  decodeJSON (marshal j) = Some (norm j).
Proof.
  intros He Hd. unfold decodeJSON.
  rewrite <-marshal_norm, decode_marshal; [done|by apply norm_canonical|].
  by rewrite nesting_norm.
Qed.

(** ** Typing does not depend on the order of members *)

Lemma alist_get_NoDup {A} k (v : A) l : NoDup l.*1 →
  alist_get k l = Some v ↔ (k, v) ∈ l.
Proof.
  intros Hnd. split; [apply alist_get_in|].
  induction l as [|[k' v'] l IH]; [by intros ?%elem_of_nil|].
  csimpl in *. apply NoDup_cons in Hnd as [Hni Hnd].
  intros [[= <- <-]|Hin]%elem_of_cons; [by rewrite bool_decide_true|].
  rewrite bool_decide_false; [by apply IH|]. intros <-. apply Hni.
  apply list_elem_of_fmap. by exists (k, v).
Qed.

Lemma norm_get k l : NoDup l.*1 →
  alist_get k (sort_entries ((λ '(k, v), (k, norm v)) <$> l)) =
  norm <$> alist_get k l.
Proof.
  intros Hnd. apply option_eq. intros v.
  rewrite alist_get_NoDup by (rewrite sort_entries_perm; by rewrite norm_fst).
  rewrite sort_entries_perm, fmap_Some. setoid_rewrite (alist_get_NoDup k _ l Hnd).
  rewrite list_elem_of_fmap. split.
  - intros ([k' w] & [= -> ->] & Hin). eauto.
  - intros (w & Hin & ->). by exists (k, w).
Qed.

Lemma base_value_norm b v : base_value b v → norm v = v.
Proof. by destruct 1. Qed.

Scheme has_type_mut := Induction for has_type Sort Prop
  with has_items_mut := Induction for has_items Sort Prop
  with has_fields_mut := Induction for has_fields Sort Prop.

Lemma has_type_norm s a k v : has_type s a k v → unique_keys v →
  has_type s a k (norm v).
Proof.
  intros Hty. induction Hty as
    [k items _ IH|b v Hb|k item o Hk Ho|k st fs object Hk Hfs Hkeys _ IH
    |k|k v items _ IH1 _ IH2|object|f k v fs object Hf Hget _ IH1 _ IH2] using has_type_mut
    with (P0 := λ k items _, Forall unique_keys items → has_items s k (norm <$> items))
         (P1 := λ fs object _, unique_keys (JObject object) →
           has_fields s fs (sort_entries ((λ '(k, v), (k, norm v)) <$> object)));
    intros Hu; simpl.
  - constructor. apply IH. by inversion Hu.
  - erewrite base_value_norm by done. by constructor.
  - by eapply type_enum.
  - eapply type_structure; [done..| |by apply IH].
    intros key. rewrite <-Hkeys, sort_entries_perm. by rewrite norm_fst.
  - constructor.
  - apply Forall_cons in Hu as [? ?]. constructor; auto.
  - constructor.
  - inversion Hu as [| | | | |? Hnd Hall]; subst. econstructor; [done| | |by apply IH2].
    + by rewrite norm_get, Hget.
    + apply IH1. rewrite Forall_forall in Hall. by apply (Hall (Field_Key f, v)), alist_get_in.
Qed.

Lemma encodable_unique j : encodable j → unique_keys j.
Proof.
  induction j as [| | | |l IH|l IH] using json_deep_ind; inversion 1 as
    [| | | |? Hl|? Hp Hl Hnd]; subst; constructor; try done;
    rewrite Forall_forall in *; naive_solver.
Qed.

(** ** Plain keys and enum values *)

Lemma alnum_safe c : is_alnum c = true → html_safe c = true.
Proof.
  unfold is_alnum, is_letter, is_upper, is_lower, is_digit, html_safe.
  rewrite !orb_true_iff, !in_range_spec. intros H.
  repeat (apply andb_true_iff; split);
    rewrite ?negb_true_iff, ?Z.eqb_neq, ?Z.leb_le, ?Z.ltb_lt; lia.
Qed.

Lemma validKey_plain k : validKey k = true → plain k.
Proof.
  unfold validKey. intros [_ H]%andb_true_iff. destruct k as [|c k]; [done|].
  simpl in H. apply andb_true_iff in H as [Hc Hk]. unfold plain. simpl.
  apply andb_true_iff. split.
  - apply alnum_safe. unfold is_alnum. by rewrite Hc.
  - eapply forall_bytes_impl; [|done]. apply alnum_safe.
Qed.

Lemma validKey_nonempty k : validKey k = true → k ≠ "".
Proof. by intros H ->. Qed.

Lemma enumValue_plain v : enumValuePattern v = true → plain v.
Proof.
  destruct v as [|c v]; [done|]. simpl. intros [Hc Hv]%andb_true_iff.
  unfold plain. simpl. apply andb_true_iff. split.
  - apply alnum_safe. unfold is_alnum, is_letter. by rewrite Hc.
  - eapply forall_bytes_impl; [|done]. intros d Hd.
    apply orb_true_iff in Hd as [Hd|Hd]; [|by apply bool_decide_eq_true in Hd as ->].
    apply alnum_safe. unfold is_alnum, is_letter.
    apply orb_true_iff in Hd as [->| ->]; by rewrite ?orb_true_r.
Qed.

(** ** [DefaultValue] *)

(** Types whose default is a value of the type: the default of a date, a time
    or a range is an empty text or array for the editor to fill in. *)
Definition timeless_base (b : Z) : bool :=
  bool_decide (b ∈ [STRING; INT; DECIMAL; BOOLEAN; IMAGE; VIDEO; FILE]).

Inductive timeless (s : Schema) : bool → Field_Kind → Prop :=
  | timeless_array k : timeless s true k
  | timeless_base_type b : timeless_base b = true →
      timeless s false (Field_Type_BaseType b)
  | timeless_enum k : timeless s false (Field_Type_EnumKey k)
  | timeless_structure k :
      (∀ st f kf, structures s !! k = Some st → Some f ∈ Structure_Fields st →
         Field_type f = Some {| Kind := Some kf |} → timeless s (Field_IsArray f) kf) →
      timeless s false (Field_Type_StructureKey k).

Section default.
Context (s : Schema) (Hwf : well_formed s).
Local Notation D := (dom (structures s)).

(** The levels of structures still available below a path. *)
Definition room (seen : gset string) : Z := Z.of_nat (size (D ∖ seen)).

Lemma room_below seen k : is_Some (structures s !! k) → k ∉ seen →
  room (Set_.Add seen [k]) < room seen.
Proof.
  intros Hk%elem_of_dom Hns. unfold room.
  apply Nat2Z.inj_lt, subset_size.
  change (D ∖ ({[k]} ∪ seen) ⊂ D ∖ seen). set_solver.
Qed.

Lemma not_seen seen k : above s seen (Field_Type_StructureKey k) → k ∉ seen.
Proof. intros Ha Hin. by eapply (wf_acyclic s Hwf), (Ha k k eq_refl Hin). Qed.

Lemma fields_of k st : structures s !! k = Some st →
  ∃ fs, fields_ok s (Structure_Fields st) fs.
Proof. intros Hk. by apply (wf_structures s Hwf k st Hk). Qed.

Lemma structure_key_ne k : is_Some (structures s !! k) → k ≠ "".
Proof.
  intros [i Hi]. destruct (wf_structures s Hwf k i Hi) as (<- & (Hv & _) & _).
  by apply validKey_nonempty.
Qed.

Lemma above_child seen k st f kf :
  structures s !! k = Some st → Some f ∈ Structure_Fields st →
  Field_type f = Some {| Kind := Some kf |} → type_ok s (Field_type f) →
  above s seen (Field_Type_StructureKey k) →
  above s (Set_.Add seen [k]) kf.
Proof.
  intros Hst Hf Hkf Hok Ha key v -> Hv.
  assert (refers s k key) as Href.
  { exists st, (Some f). simpl. rewrite Hkf in Hok |- *. split_and!; [done..|].
    by apply structure_key_ne. }
  apply Set_.elem_of_Add in Hv as [Hv| ->%list_elem_of_singleton]; [|by apply tc_once].
  eapply tc_r; [by apply (Ha k)|done].
Qed.

Lemma enum_default k item : enums s !! k = Some item →
  ∃ o rest, Enum_Values item = Some o :: rest ∧ option_ok o.
Proof.
  intros Hk. destruct (wf_enums s Hwf k item Hk) as (_ & [_ (os & Hos & Hne & Hall & _)]).
  destruct os as [|o os]; [done|]. exists o, (Some <$> os).
  apply Forall_cons in Hall as [? _]. by rewrite Hos.
Qed.

(** What the default of a field is. *)
Record default_of (f : Field) (k : Field_Kind) (seen : gset string) (v : json) : Prop := {
  default_encodable : encodable v;
  default_nesting : nesting v ≤ 1 + room seen;
  default_typed : timeless s (Field_IsArray f) k → has_type s (Field_IsArray f) k v;
}.

(** The loop of [defaultStructureValue] collects one member per field. *)
Lemma default_loop (rec : Field → gset string → result json)
    (P : Field → json → Prop) seen fs acc :
  NoDup (acc.*1 ++ (Field_Key <$> fs)) →
  (∀ f, f ∈ fs → ∃ v, rec f seen = Ok v ∧ P f v) →
  ∃ vs, Forall2 P fs vs ∧
    fold_m (λ entries child,
        match child with
        | None => Er (EPanic "nil field")
        | Some child => value ← rec child seen;
            Ok (alist_set (Field_Key child) value entries)
        end) (Some <$> fs) acc = Ok (acc ++ zip (Field_Key <$> fs) vs).
Proof.
  revert acc. induction fs as [|f fs IH]; intros acc Hnd Hrec.
  { exists []. split; [constructor|]. by rewrite app_nil_r. }
  destruct (Hrec f) as (v & Hv & HP); [by left|].
  assert (Field_Key f ∉ acc.*1) as Hfresh.
  { csimpl in *. apply NoDup_app in Hnd as (_ & Hd & _). intros Hin.
    apply (Hd _ Hin). by left. }
  destruct (IH (acc ++ [(Field_Key f, v)])) as (vs & Hvs & Hloop).
  { rewrite fmap_app, <-app_assoc. done. }
  { intros g Hg. apply Hrec. by right. }
  exists (v :: vs). split; [by constructor|]. csimpl. rewrite Hv. simpl.
  rewrite alist_set_fresh by done. etrans; [exact Hloop|]. by rewrite <-app_assoc.
Qed.

Lemma zip_members (P : Field → json → Prop) fs vs : Forall2 P fs vs →
  (zip (Field_Key <$> fs) vs).*1 = Field_Key <$> fs ∧
  (∀ f, f ∈ fs → ∃ v, P f v ∧ (Field_Key f, v) ∈ zip (Field_Key <$> fs) vs) ∧
  (∀ kv, kv ∈ zip (Field_Key <$> fs) vs → ∃ f, f ∈ fs ∧ kv.1 = Field_Key f ∧ P f kv.2).
Proof.
  induction 1 as [|f v fs vs Hf Hfs (IH1 & IH2 & IH3)]; csimpl.
  { split_and!; [done|by intros f ?%elem_of_nil..]. }
  split_and!; [by rewrite IH1| |].
  - intros g [->|Hg]%elem_of_cons.
    + exists v. split; [done|by left].
    + destruct (IH2 g Hg) as (w & ? & ?). exists w. split; [done|by right].
  - intros kv [->|Hkv]%elem_of_cons.
    + exists f. split_and!; [by left|done|done].
    + destruct (IH3 kv Hkv) as (g & ? & ? & ?). exists g. split_and!; [by right|done|done].
Qed.

(** The object built from the defaults of the fields. *)
Lemma default_object f k seen st fs vs :
  structures s !! k = Some st → Structure_Fields st = Some <$> fs →
  Forall (field_ok s) fs → NoDup (Field_Key <$> fs) → k ∉ seen →
  Field_IsArray f = false →
  Forall2 (λ g v, ∃ kg, Field_type g = Some {| Kind := Some kg |} ∧
    default_of g kg (Set_.Add seen [k]) v) fs vs →
  default_of f (Field_Type_StructureKey k) seen (JObject (zip (Field_Key <$> fs) vs)).
Proof.
  intros Hst Hfs Hall Hnd Hns Hf Hvs. rewrite Forall_forall in Hall.
  destruct (zip_members _ _ _ Hvs) as (Hkeys & Hget & Hback).
  pose proof (room_below seen k ltac:(eauto) Hns) as Hroom.
  split.
  - constructor.
    + apply Forall_forall. intros kv Hkv. destruct (Hback kv Hkv) as (g & Hg & -> & _).
      apply validKey_plain. by apply Hall.
    + apply Forall_forall. intros kv Hkv.
      by destruct (Hback kv Hkv) as (g & _ & _ & kg & _ & [? _ _]).
    + by rewrite Hkeys.
  - cbn [nesting]. change (foldr _ 0 ?l) with (max_nest (@snd string json) l).
    assert (∀ l : list (string * json), (∀ kv, kv ∈ l → nesting kv.2 ≤ room seen) → 0 ≤ room seen →
      max_nest snd l ≤ room seen) as Hmax.
    { intros l. induction l as [|kv l IH]; intros Hl H0; [done|]. unfold max_nest. simpl.
      apply Z.max_lub; [apply Hl; by left|]. apply IH; [|done]. intros x Hx. apply Hl. by right. }
    enough (max_nest snd (zip (Field_Key <$> fs) vs) ≤ room seen) by lia.
    apply Hmax; [|unfold room; lia]. intros kv Hkv.
    destruct (Hback kv Hkv) as (g & _ & _ & kg & _ & [_ ? _]). lia.
  - rewrite Hf. intros Htl. inversion Htl as [| | |? Hfields]; subst.
    eapply type_structure; [done..| |]; [by rewrite Hkeys|].
    apply has_fields_each, Forall_forall. intros g Hg.
    destruct (Hget g Hg) as (v & (kg & Hkg & [_ _ Hty]) & Hin).
    exists kg, v. split_and!; [done| |].
    + apply alist_get_NoDup; [by rewrite Hkeys|done].
    + apply Hty. eapply Hfields; [done| |done]. rewrite Hfs. by apply list_elem_of_fmap_2.
Qed.

Lemma defaultValue_spec fuel f k seen :
  Field_type f = Some {| Kind := Some k |} → type_ok s (Field_type f) →
  above s seen k → room seen < Z.of_nat fuel →
  ∃ v, defaultValue fuel s f seen = Ok v ∧ default_of f k seen v.
Proof.
  revert f k seen. induction fuel as [|fuel IH]; intros f k seen Hk Hok Ha Hfuel.
  { unfold room in Hfuel. lia. }
  assert (0 ≤ room seen) as Hroom by (unfold room; lia).
  cbn [defaultValue]. destruct (Field_IsArray f) eqn:Harr.
  { exists (JArray []). split; [done|]. split; [by repeat constructor|simpl; lia|].
    rewrite Harr. by repeat constructor. }
  rewrite Hk in Hok |- *. destruct k as [b|k|k]; simpl in Hok.
  - eexists. split; [done|]. split.
    + repeat case_match; by repeat constructor.
    + repeat case_match; simpl; lia.
    + rewrite Harr. intros Htl. inversion Htl as [|? Hb| |]; subst.
      apply bool_decide_eq_true in Hb. constructor.
      repeat (apply elem_of_cons in Hb as [->|Hb]); [..|by apply elem_of_nil in Hb];
        try (by (constructor; done)); by (apply base_text; set_solver) ||
        by eapply base_int || by apply base_decimal.
  - unfold defaultStructureValue. pose proof (not_seen seen k Ha) as Hns.
    rewrite (proj2 (Set_.Contains_false seen k) Hns). cbv zeta.
    destruct Hok as [st Hst]. rewrite Hst.
    destruct (fields_of k st Hst) as [fs [Hfs Hall Hnd]].
    pose proof (room_below seen k ltac:(eauto) Hns) as Hlt.
    assert (∀ g, g ∈ fs → ∃ v, defaultValue fuel s g (Set_.Add seen [k]) = Ok v ∧
      ∃ kg, Field_type g = Some {| Kind := Some kg |} ∧
        default_of g kg (Set_.Add seen [k]) v) as Hrec.
    { intros g Hg. rewrite Forall_forall in Hall.
      destruct (kind_of s g (Hall g Hg)) as [kg Hkg].
      destruct (IH g kg (Set_.Add seen [k])) as (v & Hv & Hd);
        [done|by apply Hall| |lia|by eauto 10].
      eapply above_child; [done| |done|by apply Hall|done].
      rewrite Hfs. by apply list_elem_of_fmap_2. }
    destruct (default_loop (defaultValue fuel s) _ (Set_.Add seen [k]) fs [] Hnd Hrec)
      as (vs & Hvs & Hloop).
    rewrite Hfs, Hloop. eexists. split; [done|].
    by eapply default_object.
  - destruct Hok as [item Hitem]. rewrite Hitem.
    destruct (enum_default k item Hitem) as (o & rest & Hvals & Ho). rewrite Hvals.
    eexists. split; [done|]. split.
    + constructor. apply enumValue_plain, Ho.
    + simpl. lia.
    + rewrite Harr. intros _. eapply type_enum; [done|]. rewrite Hvals. by left.
Qed.
End default.

(** ** [BuildTree] *)

(** [nodes] is the expansion of a type: one node per field of the structure,
    each with the expansion of the field's type below it. *)
Inductive expands (s : Schema) : option Field_Type → list TreeNode → Prop :=
  | expands_leaf ty : GetStructureKey ty = "" → expands s ty []
  | expands_structure ty st nodes :
      GetStructureKey ty ≠ "" → structures s !! GetStructureKey ty = Some st →
      expand_fields s (Structure_Fields st) nodes → expands s ty nodes
with expand_fields (s : Schema) : list (option Field) → list TreeNode → Prop :=
  | expand_nil : expand_fields s [] []
  | expand_cons f nodes fs rest :
      expands s (Field_type f) nodes → expand_fields s fs rest →
      expand_fields s (Some f :: fs) (Node (Some f) nodes :: rest).

Section tree.
Context (s : Schema) (Hwf : well_formed s).

Lemma children_fields fuel path fs :
  (∀ f, f ∈ fs → ∃ nodes, children fuel s path (Field_type f) = Ok nodes ∧
    expands s (Field_type f) nodes) →
  ∃ nodes, collect (λ field, match field with
      | None => Er (EPanic "nil field")
      | Some f => nodes ← children fuel s path (Field_type f); Ok (Node field nodes)
      end) (Some <$> fs) = Ok nodes ∧ expand_fields s (Some <$> fs) nodes.
Proof.
  induction fs as [|f fs IH]; intros Hf; csimpl; [by eexists; split; [|constructor]|].
  destruct (Hf f) as (nodes & -> & Hx); [by left|].
  destruct IH as (rest & -> & Hrest); [intros g Hg; apply Hf; by right|].
  eexists. split; [done|]. by constructor.
Qed.

Lemma children_spec fuel path k ty :
  ty = Some {| Kind := Some k |} → type_ok s ty → above s path k →
  room s path < Z.of_nat fuel →
  ∃ nodes, children fuel s path ty = Ok nodes ∧ expands s ty nodes.
Proof.
  revert path k ty. induction fuel as [|fuel IH]; intros path k ty Hty Hok Ha Hfuel.
  { unfold room in Hfuel. lia. }
  cbn [children]. cbv zeta.
  case_bool_decide as Hleaf; [by eexists; split; [|constructor]|].
  assert (k = Field_Type_StructureKey (GetStructureKey ty)) as Hk.
  { subst ty. by destruct k. }
  set (key := GetStructureKey ty) in *. subst k.
  pose proof (not_seen s Hwf path key Ha) as Hns.
  rewrite (proj2 (Set_.Contains_false path key) Hns).
  rewrite Hty in Hok. simpl in Hok. destruct Hok as [st Hst]. rewrite Hst.
  destruct (fields_of s Hwf key st Hst) as [fs [Hfs Hall Hnd]].
  pose proof (room_below s Hwf path key ltac:(eauto) Hns) as Hlt.
  destruct (children_fields fuel (Set_.Add path [key]) fs) as (nodes & Hn & Hx).
  { intros f Hf. rewrite Forall_forall in Hall.
    destruct (kind_of s f (Hall f Hf)) as [kf Hkf].
    apply (IH _ kf); [done|by apply Hall| |lia].
    eapply above_child; [done|done| |done|by apply Hall|done].
    rewrite Hfs. by apply list_elem_of_fmap_2. }
  rewrite Hfs. exists nodes. split; [done|].
  eapply expands_structure; [done|exact Hst|by rewrite Hfs].
Qed.

Lemma room_graph_fuel : room s (Set_.New []) < Z.of_nat (graph_fuel s).
Proof.
  unfold room, graph_fuel. apply Nat2Z.inj_lt.
  apply (Nat.le_lt_trans _ (size (structures s))); [|lia].
  rewrite <-(size_dom (structures s)). apply subseteq_size. set_solver.
Qed.

Lemma above_empty k : above s (Set_.New []) k.
Proof. by intros key v _ []%Set_.elem_of_New%not_elem_of_nil. Qed.

Lemma type_kind ty : type_ok s ty → ∃ k, ty = Some {| Kind := Some k |}.
Proof. destruct ty as [[[k|]]|]; [by eauto|done|done]. Qed.
End tree.
