(* ===== verification/SchemaSpec.v ===== *)
(** The properties of [server/internal/entity/schema.go] and the sample schema
    their witnesses evaluate. *)

From stdpp Require Import relations fin_maps fin_sets.
From S2P Require Import Prelude GoStd GoStrings Util Json Proto Schema SchemaGraph SchemaWf SchemaValue SchemaDefault.

Local Open Scope Z_scope.

(** ** A sample: a shop with an owner, a list of tags and a colour *)

Module Sample.

#[export] Instance sample_order : MapOrder.
Proof.
  refine {| map_keys m := elements (dom m) |}.
  intros m k. by rewrite elem_of_elements, elem_of_dom.
Defined.

Definition base b : option Field_Type := Some {| Kind := Some (Field_Type_BaseType b) |}.
Definition struct k : option Field_Type := Some {| Kind := Some (Field_Type_StructureKey k) |}.
Definition enum k : option Field_Type := Some {| Kind := Some (Field_Type_EnumKey k) |}.

Definition structure id key (fields : list Field) : Structure :=
  {| Structure_Id := id; Structure_ConfigId := 1; Structure_Key := key;
     Structure_Name := key; Structure_Description := "";
     Structure_Fields := Some <$> fields; Structure_Audit := no_audit |}.

Definition owner := structure 1 "owner"
  [mk_field "name" "name" "" false (base STRING);
   mk_field "age" "age" "" false (base INT)].
Definition shop := structure 2 "shop"
  [mk_field "tags" "tags" "" true (base STRING);
   mk_field "owner" "owner" "" false (struct "owner");
   mk_field "colour" "colour" "" false (enum "colour")].
Definition other := structure 3 "other" [mk_field "open" "open" "" false (base BOOLEAN)].

Definition colour : ConfigEnum :=
  {| Enum_Id := 1; Enum_ConfigId := 1; Enum_Key := "colour"; Enum_Name := "colour";
     Enum_Description := "";
     Enum_Values := [Some {| Option_Label := "red"; Option_Value := "RED";
                             Option_Description := "" |};
                     Some {| Option_Label := "blue"; Option_Value := "DEEP_BLUE";
                             Option_Description := "" |}];
     Enum_Audit := no_audit |}.

Definition items : list (option Structure) := Some <$> [shop; owner; other].
Definition schema : Schema :=
  {| structures := list_to_map [("owner", owner); ("shop", shop); ("other", other)];
     enums := list_to_map [("colour", colour)] |}.

Definition config ty is_array value : Config :=
  {| Config_Id := 1; Config_ProjectId := 1; Config_Key := "main"; Config_Description := "";
     Config_IsArray := is_array; Config_Type := ty; Config_Value := value;
     Config_RuntimeVersion := 0; Config_Audit := no_audit |}.

Lemma accepted : NewSchema items [Some colour] = Ok schema.
Proof. vm_compute. reflexivity. Qed.

Lemma schema_well_formed : well_formed schema.
Proof. pose proof accepted as H. apply NewSchema_defines in H. by destruct H as (? & ? & ? & ? & ? & ? & ? & ? & ?). Qed.

(** The schema whose structure [owner] refers back to [shop]. *)
Definition cyclic_owner := structure 1 "owner" [mk_field "shop" "shop" "" true (struct "shop")].

Example cycle_rejected :
  NewSchema (Some <$> [shop; cyclic_owner]) [Some colour] =
  Er (EConflict "structure cycle: owner -> shop -> owner").
Proof. vm_compute. reflexivity. Qed.

Example default_text : DefaultValue schema (struct "shop") false =
  Ok (marshal (JObject [("colour", JString "RED");
    ("owner", JObject [("age", JNumber "0"); ("name", JString "")]); ("tags", JArray [])])).
Proof. vm_compute. reflexivity. Qed.

Example wrong_value : ValidateConfig schema (Some (config (base INT) true "[1, 2.5]")) =
  Er (EInvalid "$[1] does not match INT").
Proof. vm_compute. reflexivity. Qed.

End Sample.
Import Sample.

(** ** Properties *)

(** C30: [NewSchema] returns a schema exactly for the lists of definitions that
    define it: keys, names and descriptions within their limits, no repeated
    key, field or enum value, every reference resolved and no cycle of
    structure references, whatever order the map of structures is visited in;
    every rejection is an invalid-input or a conflict error (never a panic, and
    the cycle search never exhausts its bound). *)
Theorem NewSchema_correct (order : MapOrder) items enum_items :
  (∀ s, NewSchema items enum_items = Ok s ↔ defines items enum_items s) ∧
  (∀ e, NewSchema items enum_items = Er e → domain_error e).
Proof. split; [apply NewSchema_defines|apply NewSchema_domain]. Qed.

(** C32: the cycle search accepts a schema whose references are resolved exactly
    when its reference graph has no cycle, and reports a conflict otherwise,
    for every order in which the map is visited. *)
Theorem validateCycles_decides (order : MapOrder) (s : Schema) :
  closed_graph s →
  (validateCycles s = Ok tt ↔ acyclic s) ∧
  (¬ acyclic s → ∃ msg, validateCycles s = Er (EConflict msg)).
Proof.
  intros Hc. destruct (validateCycles_outcome s Hc) as [[-> Hac]|(msg & -> & Hac)];
    naive_solver.
Qed.

Lemma validateCycles_decides_witness :
  closed_graph schema ∧ (validateCycles schema = Ok tt ↔ acyclic schema) ∧
  (¬ acyclic schema → ∃ msg, validateCycles schema = Er (EConflict msg)).
Proof.
  assert (closed_graph schema) as Hc.
  { apply well_formed_closed. apply (wf_structures _ schema_well_formed). }
  split; [exact Hc|exact (validateCycles_decides sample_order schema Hc)].
Defined.

(** C31: on a well-formed schema [ValidateConfig] accepts exactly the
    configurations whose value decodes to a value of the declared type (in
    particular objects with exactly the declared members), and rejects every
    other with an invalid-input error; the cycle conflict of
    [validateStructureValue] and its nil dereferences are unreachable, and the
    recursion bound is enough. *)
Theorem ValidateConfig_correct (s : Schema) (c : Config) :
  well_formed s →
  (ValidateConfig s (Some c) = Ok tt ↔ config_ok s c) ∧
  (¬ config_ok s c → ∃ msg, ValidateConfig s (Some c) = Er (EInvalid msg)).
Proof.
  intros Hwf. destruct (ValidateConfig_decides s Hwf c) as [[-> ?]|(msg & -> & ?)];
    naive_solver.
Qed.

Definition sample_shop : Config := config (struct "shop") false
  (marshal (JObject [("owner", JObject [("name", JString "Ann"); ("age", JNumber "0")]);
                     ("colour", JString "DEEP_BLUE");
                     ("tags", JArray [JString "a"; JString "b"])])).

Lemma ValidateConfig_correct_witness :
  well_formed schema ∧ ValidateConfig schema (Some sample_shop) = Ok tt ∧
  config_ok schema sample_shop.
Proof.
  split; [exact schema_well_formed|].
  assert (ValidateConfig schema (Some sample_shop) = Ok tt) as H by (vm_compute; reflexivity).
  split; [exact H|].
  exact (proj1 (proj1 (ValidateConfig_correct schema sample_shop schema_well_formed)) H).
Defined.

(** On a well-formed schema with fewer than ten thousand structures,
    [DefaultValue] returns a text for every declared type, the text is the
    JSON encoding of a value, and when the type has no date, time or range part
    that text is accepted by [ValidateConfig] for the same type. *)
Theorem DefaultValue_accepted (s : Schema) (k : Field_Kind) (a : bool) (c : Config) :
  well_formed s → type_ok s (Some {| Kind := Some k |}) →
  Z.of_nat (size (structures s)) < max_nesting →
  validKey (Config_Key c) = true →
  Config_Type c = Some {| Kind := Some k |} → Config_IsArray c = a →
  ∃ text v, DefaultValue s (Some {| Kind := Some k |}) a = Ok text ∧
    decodeJSON text = Some v ∧
    (timeless s a k → Config_Value c = text → ValidateConfig s (Some c) = Ok tt).
Proof.
  intros Hwf Hok Hsize Hkey Hty Ha. unfold DefaultValue.
  rewrite (proj2 (validateType_Ok s _) Hok). cbn [mbind result_bind].
  destruct (defaultValue_spec s Hwf (graph_fuel s)
    (mk_field "value" "value" "" a (Some {| Kind := Some k |})) k (Set_.New []))
    as (v & Hv & [He Hn Ht]); [done|done|apply above_empty|apply room_graph_fuel, Hwf|].
  rewrite Hv. cbn [mbind result_bind]. exists (marshal v), (norm v).
  assert (decodeJSON (marshal v) = Some (norm v)) as Hdec.
  { apply decode_encoded; [done|]. unfold room in Hn.
    assert (size (dom (structures s) ∖ Set_.New []) ≤ size (structures s))%nat as Hle.
    { rewrite <-(size_dom (structures s)). apply subseteq_size. set_solver. }
    apply Nat2Z.inj_le in Hle. lia. }
  split_and!; [done|done|]. intros Htl Hval.
  destruct (ValidateConfig_decides s Hwf c) as [[? _]|(msg & _ & Hno)]; [done|].
  destruct Hno. split; [done|]. rewrite Hty. split; [done|].
  exists k, (norm v). rewrite Hval, Ha. split_and!; [done..|].
  apply has_type_norm; [by apply Ht|by apply encodable_unique].
Qed.

Lemma DefaultValue_accepted_witness :
  timeless schema false (Field_Type_StructureKey "other") ∧
  let c := config (struct "other") false (marshal (JObject [("open", JBool false)])) in
  ∃ text v, DefaultValue schema (struct "other") false = Ok text ∧
    decodeJSON text = Some v ∧
    (timeless schema false (Field_Type_StructureKey "other") → Config_Value c = text →
     ValidateConfig schema (Some c) = Ok tt).
Proof.
  split.
  - constructor. intros st f kf Hst Hf Hkf. vm_compute in Hst. injection Hst as <-.
    apply list_elem_of_singleton in Hf. injection Hf as ->. injection Hkf as <-.
    by constructor.
  - apply (DefaultValue_accepted schema (Field_Type_StructureKey "other") false
      (config (struct "other") false _)); try reflexivity.
    + exact schema_well_formed.
    + by eexists.
Defined.

(** C33: on a well-formed schema [BuildTree] returns, for every configuration
    whose type is resolved, the full expansion of the type: a node per field,
    recursively, with the configuration's own field at the root. *)
Theorem BuildTree_total (s : Schema) (c : Config) :
  well_formed s → type_ok s (Config_Type c) →
  ∃ root nodes, BuildTree s (Some c) = Ok (Node (Some root) nodes) ∧
    expands s (Config_Type c) nodes ∧
    Field_Key root = Config_Key c ∧ Field_IsArray root = Config_IsArray c ∧
    Field_type root = Config_Type c.
Proof.
  intros Hwf Hok. unfold BuildTree.
  destruct (type_kind s _ Hok) as [k Hk]. rewrite bool_decide_false by (by rewrite Hk).
  rewrite (proj2 (validateType_Ok s _) Hok). cbn [mbind result_bind].
  destruct (children_spec s Hwf (graph_fuel s) (Set_.New []) k (Config_Type c))
    as (nodes & Hn & Hx); [done|done|apply above_empty|apply room_graph_fuel, Hwf|].
  rewrite Hn. cbn [mbind result_bind]. eauto 10.
Qed.

Lemma BuildTree_total_witness :
  type_ok schema (struct "shop") ∧
  ∃ root nodes, BuildTree schema (Some sample_shop) = Ok (Node (Some root) nodes) ∧
    expands schema (struct "shop") nodes ∧
    Field_Key root = "main" ∧ Field_IsArray root = false ∧ Field_type root = struct "shop".
Proof.
  split; [by eexists|].
  apply (BuildTree_total schema sample_shop schema_well_formed). by eexists.
Defined.

(** C31: [FilterStructureChoices] keeps, in order, exactly the structures from
    which the edited structure cannot be reached, and its loop ends. *)
Theorem FilterStructureChoices_exact (items : list Structure) (id : Z)
    (i : nat) (ignored : Structure) :
  0 < id → list_find (λ item, Structure_Id item = id) items = Some (i, ignored) →
  ∃ kept, FilterStructureChoices items id = Ok kept ∧ kept `sublist_of` items ∧
    ∀ item, item ∈ kept ↔ item ∈ items ∧
      ¬ rtc (depends items) (Structure_Key item) (Structure_Key ignored).
Proof.
  intros Hid Hfind. unfold FilterStructureChoices.
  rewrite (proj2 (Z.leb_gt id 0)) by lia. rewrite Hfind.
  set (key := Structure_Key ignored).
  destruct (reject_all_spec items (S (length items)) (Set_.New [key]))
    as (R & HR & Hsub & Hback & Hall).
  { unfold fresh. apply Nat.lt_succ_r.
    induction items as [|x l _]; [done|]. apply filter_length_le. }
  rewrite HR. cbn [mbind result_bind]. eexists. split; [done|]. split.
  { clear. induction items as [|x l IH]; [done|]. simpl. case_match; by constructor. }
  intros item. change (item ∈ fresh items R ↔ item ∈ items ∧
    ¬ rtc (depends items) (Structure_Key item) key).
  rewrite elem_of_fresh. rewrite (reject_all_exact items key R); [done| | |done].
  - intros k Hk. destruct (Hback k Hk) as (k0 & Hk0%Set_.elem_of_New & Hr).
    apply list_elem_of_singleton in Hk0 as ->. done.
  - apply Hsub, Set_.elem_of_New. by left.
Qed.

Lemma FilterStructureChoices_exact_witness :
  FilterStructureChoices [shop; owner; other] 1 = Ok [other] ∧
  ∃ kept, FilterStructureChoices [shop; owner; other] 1 = Ok kept ∧
    kept `sublist_of` [shop; owner; other] ∧
    ∀ item, item ∈ kept ↔ item ∈ [shop; owner; other] ∧
      ¬ rtc (depends [shop; owner; other]) (Structure_Key item) (Structure_Key owner).
Proof.
  split; [vm_compute; reflexivity|].
  by apply (FilterStructureChoices_exact [shop; owner; other] 1 1 owner).
Defined.

(** The edited structure with one more field, of the type chosen. *)
Definition with_field (st : Structure) (f : Field) : Structure :=
  {| Structure_Id := Structure_Id st; Structure_ConfigId := Structure_ConfigId st;
     Structure_Key := Structure_Key st; Structure_Name := Structure_Name st;
     Structure_Description := Structure_Description st;
     Structure_Fields := Structure_Fields st ++ [Some f];
     Structure_Audit := Structure_Audit st |}.

Definition choose (ignored : Structure) (f : Field) (items : list Structure) :
    list Structure :=
  (λ item, if decide (item = ignored) then with_field item f else item) <$> items.

(** Giving the edited structure a field whose type is one of the returned
    choices introduces no reference cycle: if the structures' reference graph
    has none before, it has none afterwards. *)
Theorem FilterStructureChoices_no_cycle (items kept : list Structure) (id : Z)
    (i : nat) (ignored chosen : Structure) (f : Field) :
  0 < id → list_find (λ item, Structure_Id item = id) items = Some (i, ignored) →
  FilterStructureChoices items id = Ok kept → chosen ∈ kept →
  GetStructureKey (Field_type f) = Structure_Key chosen →
  (∀ k, ¬ tc (depends items) k k) →
  ∀ k, ¬ tc (depends (choose ignored f items)) k k.
Proof.
  intros Hid Hfind Hkept Hchosen Hf Hac k Ht.
  assert (¬ rtc (depends items) (Structure_Key chosen) (Structure_Key ignored)) as Hno.
  { destruct (reject_all_spec items (S (length items)) (Set_.New [Structure_Key ignored]))
      as (R & HR & Hsub & Hback & Hall).
    { apply Nat.lt_succ_r, filter_length_le. }
    unfold FilterStructureChoices in Hkept.
    rewrite (proj2 (Z.leb_gt id 0)), Hfind, HR in Hkept by lia.
    injection Hkept as <-. apply (elem_of_fresh items R) in Hchosen as [_ Hchosen].
    rewrite <-(reject_all_exact items _ R); [done| | |done].
    - intros k' Hk'. destruct (Hback k' Hk') as (k0 & Hk0%Set_.elem_of_New & Hr).
      by apply list_elem_of_singleton in Hk0 as ->.
    - apply Hsub, Set_.elem_of_New. by left. }
  assert (tc (λ u v, depends items u v ∨
    u = Structure_Key ignored ∧ v = Structure_Key chosen) k k) as Ht'.
  { eapply tc_impl; [|exact Ht]. intros a b (x & g & Hx & Ha & Hg & Hb).
    unfold choose in Hx. apply list_elem_of_fmap in Hx as (y & -> & Hy).
    case_decide as Hyi; [subst y|left; by exists y, g].
    simpl in Ha, Hg. apply elem_of_app in Hg as [Hg|Hg]; [left; by exists ignored, g|].
    apply list_elem_of_singleton in Hg as ->. right. split; [done|].
    by rewrite <-Hb, <-Hf. }
  apply tc_add_edge in Ht' as [Ht'|[H1 H2]]; [by eapply Hac|].
  apply Hno. by trans k.
Qed.

Definition flag : Structure := structure 4 "flag" [mk_field "on" "on" "" false (base BOOLEAN)].

Lemma FilterStructureChoices_no_cycle_witness :
  FilterStructureChoices [flag; other] 4 = Ok [other] ∧
  ∀ k, ¬ tc (depends (choose flag (mk_field "x" "x" "" true (struct "other")) [flag; other])) k k.
Proof.
  assert (FilterStructureChoices [flag; other] 4 = Ok [other]) as H by (vm_compute; reflexivity).
  split; [exact H|].
  apply (FilterStructureChoices_no_cycle [flag; other] [other] 4 0 flag other);
    [done|done|exact H|by left|done|].
  assert (Hd : ∀ a b, depends [flag; other] a b → a ≠ "" ∧ b = "").
  { intros a b (x & g & Hx & <- & Hg & <-).
    repeat (apply elem_of_cons in Hx as [->|Hx]); [..|by apply elem_of_nil in Hx];
      (repeat (apply elem_of_cons in Hg as [->|Hg]); [..|by apply elem_of_nil in Hg]); done. }
  assert (∀ a b, tc (depends [flag; other]) a b → a ≠ "" ∧ b = "") as Htc.
  { intros a b Hab. induction Hab as [a b Hab|a b c Hab Hbc IH]; [by apply Hd|].
    split; [by apply (Hd a b)|by apply IH]. }
  intros k Hk. by destruct (Htc k k Hk) as [? ->].
Defined.
