(* ===== verification/Engine.v ===== *)
(** The database engine behind [github.com/yvvlee/lorm] and the SQL server are
    parameters of the development: a [table] is known only through the
    statements the repositories issue, and [EngineLaws] states what those
    statements do, through the map of rows a table denotes.  [map_engine] is a
    concrete engine that satisfies the laws. *)

From stdpp Require Import fin_maps sorting.
From S2P Require Import Prelude GoStd.

Local Open Scope Z_scope.

(** A row type: its auto-increment primary key and the unique constraints of
    its table in [model/sql/schema_*.sql]. *)
Class Row (R : Type) := {
  row_id : R → Z;
  with_id : Z → R → R;
  clash : R → R → bool;
  row_id_with : ∀ k r, row_id (with_id k r) = k;
}.

(** The normal form under which the server compares text columns: the
    identity for PostgreSQL, case folding for MySQL's [utf8mb4_0900_ai_ci]. *)
Class Collation := collate : string → string.

(** [column = text] *)
Definition text_eq `{Collation} (a b : string) : bool :=
  bool_decide (collate a = collate b).

Class Engine := {
  table : Type → Type;
  (** [SELECT ... WHERE p ORDER BY id] *)
  select : ∀ {R} `{Row R}, (R → bool) → table R → list R;
  (** [INSERT], with the new row's id; [None] is a unique violation *)
  insert : ∀ {R} `{Row R}, R → table R → option (Z * table R);
  (** [UPDATE ... SET f WHERE p], with the number of matched rows *)
  update : ∀ {R} `{Row R}, (R → bool) → (R → R) → table R → option (Z * table R);
  (** [DELETE ... WHERE p] *)
  remove : ∀ {R} `{Row R}, (R → bool) → table R → Z * table R;
}.

Class EngineLaws (E : Engine) := {
  rows : ∀ {R} `{Row R}, table R → gmap Z R;
  rows_id : ∀ {R} `{Row R} (t : table R) k r, rows t !! k = Some r → row_id r = k;
  select_spec : ∀ {R} `{Row R} p (t : table R) r,
    r ∈ select p t ↔ rows t !! row_id r = Some r ∧ p r = true;
  select_sorted : ∀ {R} `{Row R} p (t : table R),
    StronglySorted (λ a b, row_id a < row_id b) (select p t);
  insert_Some : ∀ {R} `{Row R} (r : R) (t : table R) k t', insert r t = Some (k, t') →
    0 < k ∧ rows t !! k = None ∧ rows t' = <[k := with_id k r]> (rows t) ∧
    ∀ k' r', rows t !! k' = Some r' → clash r' r = false;
  insert_None : ∀ {R} `{Row R} (r : R) (t : table R), insert r t = None →
    ∃ k' r', rows t !! k' = Some r' ∧ clash r' r = true;
  update_Some : ∀ {R} `{Row R} p f (t : table R) n t',
    (∀ r, row_id (f r) = row_id r) → update p f t = Some (n, t') →
    n = Z.of_nat (length (select p t)) ∧
    rows t' = (λ r, if p r then f r else r) <$> rows t;
  (** an update that would break a unique constraint fails *)
  update_unique : ∀ {R} `{Row R} p f (t : table R) n t', update p f t = Some (n, t') →
    ∀ k1 k2 r1 r2, rows t' !! k1 = Some r1 → rows t' !! k2 = Some r2 → k1 ≠ k2 →
    clash r1 r2 = false;
  (** and no other update does *)
  update_None : ∀ {R} `{Row R} p f (t : table R), update p f t = None →
    ∃ k1 k2 r1 r2, k1 ≠ k2 ∧ rows t !! k1 = Some r1 ∧ rows t !! k2 = Some r2 ∧
    clash (if p r1 then f r1 else r1) (if p r2 then f r2 else r2) = true;
  remove_spec : ∀ {R} `{Row R} p (t : table R) n t', remove p t = (n, t') →
    n = Z.of_nat (length (select p t)) ∧
    rows t' = filter (λ kr, p kr.2 = false) (rows t);
}.

(** ** Facts about statements *)

Section facts.
Context `{EngineLaws} {R : Type} `{Row R}.
Implicit Types (t : table R) (p : R → bool).

Lemma select_lookup p t r : r ∈ select p t → rows t !! row_id r = Some r ∧ p r = true.
Proof. apply select_spec. Qed.

Lemma rows_select p t k r : rows t !! k = Some r → p r = true → r ∈ select p t.
Proof. intros Hk Hp. apply select_spec. by rewrite (rows_id t k r Hk). Qed.

Lemma head_select p t r : head (select p t) = Some r →
  rows t !! row_id r = Some r ∧ p r = true.
Proof. intros Hh. apply select_spec. by apply head_Some_elem_of. Qed.

Lemma head_select_None p t : head (select p t) = None →
  ∀ k r, rows t !! k = Some r → p r = false.
Proof.
  intros Hn k r Hk. apply not_true_iff_false. intros Hp.
  pose proof (rows_select p t k r Hk Hp) as Hin.
  destruct (select p t); [by apply elem_of_nil in Hin|done].
Qed.

Lemma last_select p t r : last (select p t) = Some r →
  rows t !! row_id r = Some r ∧ p r = true ∧
  ∀ r', r' ∈ select p t → row_id r' ≤ row_id r.
Proof.
  intros Hl. pose proof (select_sorted p t) as Hs.
  apply last_Some in Hl as [l Hl].
  assert (r ∈ select p t) as Hin by (rewrite Hl; set_solver).
  apply select_spec in Hin as [? ?]. split_and!; [done..|].
  intros r' Hr'. rewrite Hl in Hr', Hs.
  apply elem_of_app in Hr' as [Hr'|Hr'%list_elem_of_singleton]; [|by subst].
  apply StronglySorted_app in Hs as (Hs & _ & _).
  specialize (Hs r' r Hr'). assert (row_id r' < row_id r); [|lia].
  apply Hs. by left.
Qed.

Lemma last_select_None p t : last (select p t) = None →
  ∀ k r, rows t !! k = Some r → p r = false.
Proof.
  intros Hn k r Hk. apply not_true_iff_false. intros Hp.
  pose proof (rows_select p t k r Hk Hp) as Hin.
  apply last_None in Hn. rewrite Hn in Hin. by apply elem_of_nil in Hin.
Qed.
End facts.

(** ** A concrete engine *)

Module MapEngine.
Section ops.
Context {R : Type} `{Row R}.
Implicit Types (t : gmap Z R) (p : R → bool).

(** A map denotes the rows stored under their own id. *)
Definition rows t : gmap Z R := filter (λ kr, row_id kr.2 = kr.1) t.

Definition by_id (a b : R) : Prop := row_id a ≤ row_id b.
#[local] Instance by_id_dec a b : Decision (by_id a b) := Z_le_dec _ _.
#[local] Instance by_id_total : Total by_id.
Proof. intros a b. unfold by_id. lia. Qed.
#[local] Instance by_id_trans : Transitive by_id.
Proof. intros a b c. unfold by_id. lia. Qed.

Definition select p t : list R :=
  merge_sort by_id (List.filter p (map_to_list (rows t)).*2).

Definition fresh_id t : Z := 1 + foldr Z.max 0 (map_to_list t).*1.

Definition insert (r : R) t : option (Z * gmap Z R) :=
  if existsb (λ r', clash r' r) (map_to_list (rows t)).*2 then None
  else Some (fresh_id t, <[fresh_id t := with_id (fresh_id t) r]> t).

(** Two rows of a result that a unique constraint forbids. *)
Definition violation t : bool :=
  existsb (λ a, existsb (λ b, negb (a.1 =? b.1) && clash a.2 b.2) (map_to_list t))
    (map_to_list t).

Definition update p (f : R → R) t : option (Z * gmap Z R) :=
  let t' := (λ r, if p r then f r else r) <$> rows t in
  if violation t' then None else Some (Z.of_nat (length (select p t)), t').

Definition remove p t : Z * gmap Z R :=
  (Z.of_nat (length (select p t)), filter (λ kr, p kr.2 = false) (rows t)).

Lemma rows_lookup t k r : rows t !! k = Some r ↔ t !! k = Some r ∧ row_id r = k.
Proof. unfold rows. by rewrite map_lookup_filter_Some. Qed.

Lemma values_elem t r : r ∈ (map_to_list (rows t)).*2 ↔ rows t !! row_id r = Some r.
Proof.
  rewrite list_elem_of_fmap. split.
  - intros ([k r'] & -> & Hk%elem_of_map_to_list). simpl.
    pose proof Hk as [_ Hid]%rows_lookup. simpl in *. by rewrite Hid.
  - intros Hr. exists (row_id r, r). by rewrite elem_of_map_to_list.
Qed.

Lemma select_ok p t r : r ∈ select p t ↔ rows t !! row_id r = Some r ∧ p r = true.
Proof.
  unfold select. rewrite merge_sort_Permutation, <-values_elem.
  by rewrite !list_elem_of_In, filter_In.
Qed.

Lemma ids_nodup t : NoDup (row_id <$> (map_to_list (rows t)).*2).
Proof.
  assert (row_id <$> (map_to_list (rows t)).*2 = (map_to_list (rows t)).*1) as ->.
  { rewrite <-list_fmap_compose. apply list_fmap_ext. intros i [k r] Hi.
    apply list_elem_of_lookup_2, elem_of_map_to_list, rows_lookup in Hi as [_ Hid].
    done. }
  apply NoDup_fst_map_to_list.
Qed.

Lemma strict_sorted (l : list R) : NoDup (row_id <$> l) → StronglySorted by_id l →
  StronglySorted (λ a b, row_id a < row_id b) l.
Proof.
  intros Hnd Hs. induction Hs as [|a l Hs IH Hall]; [constructor|].
  csimpl in *. apply NoDup_cons in Hnd as [Hni Hnd]. constructor; [by apply IH|].
  rewrite Forall_forall in *. intros b Hb. specialize (Hall b Hb).
  assert (row_id a ≠ row_id b); [|unfold by_id in *; lia].
  intros Heq. apply Hni. rewrite Heq. by apply list_elem_of_fmap_2.
Qed.

Lemma select_strict p t : StronglySorted (λ a b, row_id a < row_id b) (select p t).
Proof.
  apply strict_sorted; [|apply (StronglySorted_merge_sort by_id)].
  unfold select. rewrite merge_sort_Permutation.
  pose proof (ids_nodup t) as Hnd. revert Hnd.
  induction (map_to_list (rows t)).*2 as [|r l IH]; [done|]. csimpl.
  intros [Hni Hnd]%NoDup_cons. destruct (p r); [|by apply IH]. csimpl.
  constructor; [|by apply IH]. intros (r' & Heq & Hr')%list_elem_of_fmap.
  apply Hni. rewrite Heq. apply list_elem_of_fmap_2.
  rewrite list_elem_of_In, filter_In, <-list_elem_of_In in Hr'. tauto.
Qed.

Lemma fresh_above t k r : t !! k = Some r → k < fresh_id t.
Proof.
  intros Hk%elem_of_map_to_list. unfold fresh_id.
  apply (list_elem_of_fmap_2 fst) in Hk. simpl in Hk. revert Hk.
  induction (map_to_list t).*1 as [|x l IH]; [by intros ?%elem_of_nil|].
  intros [->|Hk]%elem_of_cons; simpl; [lia|]. specialize (IH Hk). lia.
Qed.

Lemma fresh_positive t : 0 < fresh_id t.
Proof. unfold fresh_id. induction (map_to_list t).*1; simpl; lia. Qed.

Lemma insert_ok (r : R) t k t' : insert r t = Some (k, t') →
  0 < k ∧ rows t !! k = None ∧ rows t' = <[k := with_id k r]> (rows t) ∧
  ∀ k' r', rows t !! k' = Some r' → clash r' r = false.
Proof.
  unfold insert. destruct (existsb _ _) eqn:E; [done|]. intros [= <- <-].
  assert (rows t !! fresh_id t = None) as Hn.
  { apply eq_None_not_Some. intros [r' [Hr' _]%rows_lookup].
    apply fresh_above in Hr'. lia. }
  split_and!; [apply fresh_positive|done| |].
  - unfold rows at 1. rewrite map_filter_insert_True; [done|]. simpl. apply row_id_with.
  - intros k' r' Hr'. apply not_true_iff_false. intros Hc.
    apply not_true_iff_false in E. apply E, existsb_exists. exists r'.
    split; [|done]. apply list_elem_of_In, values_elem.
    pose proof Hr' as [_ Hid]%rows_lookup. by rewrite Hid.
Qed.

Lemma insert_clash (r : R) t : insert r t = None →
  ∃ k' r', rows t !! k' = Some r' ∧ clash r' r = true.
Proof.
  unfold insert. destruct (existsb _ _) eqn:E; [|done]. intros _.
  apply existsb_exists in E as (r' & Hr'%list_elem_of_In%values_elem & Hc). eauto.
Qed.

Lemma rows_fixed (t : gmap Z R) : (∀ k r, t !! k = Some r → row_id r = k) → rows t = t.
Proof.
  intros Ht. apply map_eq. intros k. apply option_eq. intros r.
  rewrite rows_lookup. naive_solver.
Qed.

Lemma update_ok p f t n t' : (∀ r, row_id (f r) = row_id r) →
  update p f t = Some (n, t') →
  n = Z.of_nat (length (select p t)) ∧
  rows t' = (λ r, if p r then f r else r) <$> rows t.
Proof.
  intros Hf. unfold update. destruct (violation _); [done|]. intros [= <- <-].
  split; [done|]. apply rows_fixed. intros k r.
  rewrite lookup_fmap, fmap_Some. intros (r0 & [_ Hid]%rows_lookup & ->).
  destruct (p r0); by rewrite ?Hf.
Qed.

Lemma update_no_clash p f t n t' : update p f t = Some (n, t') →
  ∀ k1 k2 r1 r2, rows t' !! k1 = Some r1 → rows t' !! k2 = Some r2 → k1 ≠ k2 →
  clash r1 r2 = false.
Proof.
  unfold update. destruct (violation _) eqn:Hv; [done|]. intros [= _ <-].
  intros k1 k2 r1 r2 [H1 _]%rows_lookup [H2 _]%rows_lookup Hne.
  apply not_true_iff_false. intros Hc. apply not_true_iff_false in Hv. apply Hv.
  apply existsb_exists. exists (k1, r1).
  split; [by apply list_elem_of_In, elem_of_map_to_list|].
  apply existsb_exists. exists (k2, r2).
  split; [by apply list_elem_of_In, elem_of_map_to_list|]. simpl.
  rewrite Hc. by destruct (Z.eqb_spec k1 k2).
Qed.

Lemma update_clash p f t : update p f t = None →
  ∃ k1 k2 r1 r2, k1 ≠ k2 ∧ rows t !! k1 = Some r1 ∧ rows t !! k2 = Some r2 ∧
  clash (if p r1 then f r1 else r1) (if p r2 then f r2 else r2) = true.
Proof.
  unfold update. destruct (violation _) eqn:Hv; [|done]. intros _.
  apply existsb_exists in Hv as ([k1 a] & H1 & Hv).
  apply existsb_exists in Hv as ([k2 b] & H2 & Hv). simpl in Hv.
  apply andb_true_iff in Hv as [Hne%negb_true_iff%Z.eqb_neq Hc].
  apply list_elem_of_In, elem_of_map_to_list in H1, H2.
  rewrite lookup_fmap in H1, H2. apply fmap_Some in H1 as (r1 & H1 & ->).
  apply fmap_Some in H2 as (r2 & H2 & ->). by exists k1, k2, r1, r2.
Qed.

Lemma remove_ok p t n t' : remove p t = (n, t') →
  n = Z.of_nat (length (select p t)) ∧
  rows t' = filter (λ kr, p kr.2 = false) (rows t).
Proof.
  intros [= <- <-]. split; [done|]. apply rows_fixed. intros k r.
  rewrite map_lookup_filter_Some. intros [[_ Hid]%rows_lookup _]. done.
Qed.
End ops.
End MapEngine.

Definition map_engine : Engine := {|
  table := gmap Z;
  select := @MapEngine.select;
  insert := @MapEngine.insert;
  update := @MapEngine.update;
  remove := @MapEngine.remove;
|}.

Definition map_engine_laws : EngineLaws map_engine.
Proof.
  refine {| rows := @MapEngine.rows : ∀ R, Row R → @table map_engine R → gmap Z R |}.
  - intros R HR t k r [_ Hid]%MapEngine.rows_lookup. done.
  - intros. apply MapEngine.select_ok.
  - intros. apply MapEngine.select_strict.
  - intros. by apply MapEngine.insert_ok.
  - intros. by apply MapEngine.insert_clash.
  - intros. by apply MapEngine.update_ok.
  - intros. by eapply MapEngine.update_no_clash.
  - intros. by apply MapEngine.update_clash.
  - intros. by apply MapEngine.remove_ok.
Defined.
