(* ===== verification/Model.v ===== *)
(** [server/internal/model]: the rows of the tables, their unique constraints
    ([model/sql/schema_*.sql]) and the database as the collection of tables. *)

From S2P Require Import Prelude GoStd GoStrings Engine.

Local Open Scope Z_scope.

(** [time.Time] in nanoseconds; [time.Time.UTC] only changes the zone. *)
Definition zero_time : Z := -62135596800 * 10 ^ 9.

(** ** Metadata ([model/base.go]) *)

Record Meta := {
  ID : Z;
  CreatedBy : Z;
  UpdatedBy : Z;
  CreatedAt : Z;
  UpdatedAt : Z;
  Version : Z;
  DeletedAt : option Z;
}.

Record RecordMeta := {
  r_ID : Z;
  r_CreatedAt : Z;
  r_UpdatedAt : Z;
}.

Record WorkflowMeta := {
  w_ID : Z;
  w_CreatedBy : Z;
  w_UpdatedBy : Z;
  w_CreatedAt : Z;
  w_UpdatedAt : Z;
  w_Version : Z;
}.

Definition insertTimes (now createdAt updatedAt : Z) : Z * Z :=
  (if createdAt =? zero_time then now else createdAt,
   if updatedAt =? zero_time then now else updatedAt).

(** [Meta.PrepareInsert] at the time [now]. *)
Definition PrepareInsert (now : Z) (m : Meta) : Meta :=
  let '(c, u) := insertTimes now (CreatedAt m) (UpdatedAt m) in
  {| ID := ID m; CreatedBy := CreatedBy m; UpdatedBy := UpdatedBy m;
     CreatedAt := c; UpdatedAt := u; Version := 1; DeletedAt := DeletedAt m |}.

Definition PrepareRecord (now : Z) (m : RecordMeta) : RecordMeta :=
  let '(c, u) := insertTimes now (r_CreatedAt m) (r_UpdatedAt m) in
  {| r_ID := r_ID m; r_CreatedAt := c; r_UpdatedAt := u |}.

Definition PrepareWorkflow (now : Z) (m : WorkflowMeta) : WorkflowMeta :=
  let '(c, u) := insertTimes now (w_CreatedAt m) (w_UpdatedAt m) in
  {| w_ID := w_ID m; w_CreatedBy := w_CreatedBy m; w_UpdatedBy := w_UpdatedBy m;
     w_CreatedAt := c; w_UpdatedAt := u; w_Version := 1 |}.

(** The metadata of a value the program has not stored yet. *)
Definition new_meta (createdBy updatedBy : Z) : Meta :=
  {| ID := 0; CreatedBy := createdBy; UpdatedBy := updatedBy; CreatedAt := zero_time;
     UpdatedAt := zero_time; Version := 0; DeletedAt := None |}.
Definition new_record : RecordMeta :=
  {| r_ID := 0; r_CreatedAt := zero_time; r_UpdatedAt := zero_time |}.
Definition new_workflow (createdBy updatedBy : Z) : WorkflowMeta :=
  {| w_ID := 0; w_CreatedBy := createdBy; w_UpdatedBy := updatedBy;
     w_CreatedAt := zero_time; w_UpdatedAt := zero_time; w_Version := 0 |}.

(** The assignments the guarded updates share. *)
Definition touch (by_ at_ version : Z) (m : Meta) : Meta :=
  {| ID := ID m; CreatedBy := CreatedBy m; UpdatedBy := by_; CreatedAt := CreatedAt m;
     UpdatedAt := at_; Version := version; DeletedAt := DeletedAt m |}.
Definition touch_next (by_ at_ : Z) (m : Meta) : Meta := touch by_ at_ (Version m + 1) m.
Definition soft_delete (by_ deleted updated : Z) (m : Meta) : Meta :=
  {| ID := ID m; CreatedBy := CreatedBy m; UpdatedBy := by_; CreatedAt := CreatedAt m;
     UpdatedAt := updated; Version := Version m + 1; DeletedAt := Some deleted |}.
(** Metadata of a soft-deleted row that is restored by a creation. *)
Definition restored (created updated at_ version : Z) (m : Meta) : Meta :=
  {| ID := ID m; CreatedBy := created; UpdatedBy := updated; CreatedAt := at_;
     UpdatedAt := at_; Version := version; DeletedAt := None |}.
Definition set_ID (k : Z) (m : Meta) : Meta :=
  {| ID := k; CreatedBy := CreatedBy m; UpdatedBy := UpdatedBy m;
     CreatedAt := CreatedAt m; UpdatedAt := UpdatedAt m; Version := Version m;
     DeletedAt := DeletedAt m |}.
Definition set_record_ID (k : Z) (m : RecordMeta) : RecordMeta :=
  {| r_ID := k; r_CreatedAt := r_CreatedAt m; r_UpdatedAt := r_UpdatedAt m |}.
Definition touch_record (at_ : Z) (m : RecordMeta) : RecordMeta :=
  {| r_ID := r_ID m; r_CreatedAt := r_CreatedAt m; r_UpdatedAt := at_ |}.

(** [deleted_at IS NULL] *)
Definition live (m : Meta) : bool := bool_decide (DeletedAt m = None).

(** ** Rows ([model/configuration.go]) *)

Record ProjectRow := {
  prj_meta : Meta;
  prj_EnvironmentID : Z;        (* set by queries, not stored *)
  prj_Key : string;
  prj_Name : string;
  prj_Description : string;
}.

Record ProjectAPIKeyRow := {
  key_meta : RecordMeta;
  key_ProjectID : Z;
  key_PublicID : string;
  key_Name : string;
  key_SecretHash : string;
  key_SecretSuffix : string;
  key_CreatedBy : Z;
  key_LastUsedAt : option Z;
  key_RevokedAt : option Z;
}.

Record ConfigRow := {
  cfg_meta : Meta;
  cfg_ProjectID : Z;
  cfg_Key : string;
  cfg_Description : string;
  cfg_IsArray : bool;
  cfg_TypeJSON : string;
  cfg_Value : string;
  cfg_RuntimeVersion : Z;
}.

Record StructureRow := {
  str_meta : Meta;
  str_ConfigID : Z;
  str_Key : string;
  str_Name : string;
  str_Description : string;
  str_FieldsJSON : string;
}.

Record EnumRow := {
  enm_meta : Meta;
  enm_ConfigID : Z;
  enm_Key : string;
  enm_Name : string;
  enm_Description : string;
  enm_ValuesJSON : string;
}.

Definition SnapshotStatusUnreleased : Z := 1.
Definition SnapshotStatusReleased : Z := 3.

Record SnapshotRow := {
  snp_meta : Meta;
  snp_ProjectID : Z;
  snp_ConfigID : Z;
  snp_ConfigKey : string;
  snp_Description : string;
  snp_Content : string;
  snp_Status : Z;
  snp_TagsJSON : string;
  snp_IsUsing : bool;
  snp_PublishedAt : option Z;
  snp_PublishedBy : option Z;
}.

(** ** Rows ([model/identity.go], [model/operations.go]) *)

Record EnvironmentRow := {
  env_meta : Meta;
  env_ProjectID : Z;
  env_Key : string;
  env_Name : string;
  env_Description : string;
  env_Enabled : bool;
}.

Record UserRow := {
  usr_meta : Meta;
  usr_Username : string;
  usr_DisplayName : string;
  usr_PasswordHash : string;
  usr_Enabled : bool;
  usr_IsSystemAdmin : bool;
  usr_MustChangePassword : bool;
  usr_LastLoginAt : option Z;
}.

Record RoleRow := {
  rol_meta : Meta;
  rol_Key : string;
  rol_Name : string;
  rol_Description : string;
  rol_Builtin : bool;
}.

Record PermissionRow := {
  prm_meta : RecordMeta;
  prm_Key : string;
  prm_Name : string;
  prm_Description : string;
}.

Record UserEnvironmentRoleRow := {
  uer_meta : RecordMeta;
  uer_UserID : Z;
  uer_EnvironmentID : Z;
  uer_RoleID : Z;
  uer_CreatedBy : Z;
}.

Record RolePermissionRow := {
  rpm_meta : RecordMeta;
  rpm_RoleID : Z;
  rpm_PermissionID : Z;
  rpm_CreatedBy : Z;
}.

Record RefreshTokenRow := {
  tok_meta : RecordMeta;
  tok_UserID : Z;
  tok_SessionID : string;
  tok_TokenHash : string;
  tok_ExpiresAt : Z;
  tok_LastUsedAt : option Z;
  tok_RevokedAt : option Z;
  tok_ReplacedByID : option Z;
}.

Definition ImportStatusPending : string := "pending".
Definition ImportStatusSucceeded : string := "succeeded".
Definition ImportStatusFailed : string := "failed".

Record ImportRecordRow := {
  imp_meta : WorkflowMeta;
  imp_UserID : Z;
  imp_SourceEnvironmentID : Z;
  imp_TargetEnvironmentID : Z;
  imp_SourceSnapshotID : Z;
  imp_TargetProjectID : Z;
  imp_TargetSnapshotID : option Z;
  imp_IdempotencyKey : string;
  imp_RequestHash : string;
  imp_Status : string;
  imp_ResultJSON : option string;
  imp_ErrorMessage : string;
}.

Definition AuditResultSucceeded : string := "succeeded".
Definition AuditResultFailed : string := "failed".

Record AuditLogRow := {
  aud_meta : RecordMeta;
  aud_ActorUserID : option Z;
  aud_EnvironmentID : option Z;
  aud_Action : string;
  aud_ResourceType : string;
  aud_ResourceID : string;
  aud_Result : string;
  aud_RequestID : string;
  aud_DetailsJSON : option string;
}.

(** The singleton row of the installation. *)
Record ApplicationSecretsRow := {
  sec_ID : Z;
  sec_JWTKeyID : string;
  sec_JWTSigningKey : string;
  sec_APIKeyPepper : string;
  sec_AdminInitialized : bool;
}.

Definition set_workflow_ID (k : Z) (m : WorkflowMeta) : WorkflowMeta :=
  {| w_ID := k; w_CreatedBy := w_CreatedBy m; w_UpdatedBy := w_UpdatedBy m;
     w_CreatedAt := w_CreatedAt m; w_UpdatedAt := w_UpdatedAt m; w_Version := w_Version m |}.

(** ** Metadata of a row, and the primary keys and unique constraints *)

Definition map_prj_meta (f : Meta → Meta) (r : ProjectRow) : ProjectRow :=
  {| prj_meta := f (prj_meta r); prj_EnvironmentID := prj_EnvironmentID r;
     prj_Key := prj_Key r; prj_Name := prj_Name r;
     prj_Description := prj_Description r |}.
Definition map_key_meta (f : RecordMeta → RecordMeta) (r : ProjectAPIKeyRow) : ProjectAPIKeyRow :=
  {| key_meta := f (key_meta r); key_ProjectID := key_ProjectID r;
     key_PublicID := key_PublicID r; key_Name := key_Name r;
     key_SecretHash := key_SecretHash r; key_SecretSuffix := key_SecretSuffix r;
     key_CreatedBy := key_CreatedBy r; key_LastUsedAt := key_LastUsedAt r;
     key_RevokedAt := key_RevokedAt r |}.
Definition map_cfg_meta (f : Meta → Meta) (r : ConfigRow) : ConfigRow :=
  {| cfg_meta := f (cfg_meta r); cfg_ProjectID := cfg_ProjectID r;
     cfg_Key := cfg_Key r; cfg_Description := cfg_Description r;
     cfg_IsArray := cfg_IsArray r; cfg_TypeJSON := cfg_TypeJSON r;
     cfg_Value := cfg_Value r; cfg_RuntimeVersion := cfg_RuntimeVersion r |}.
Definition map_str_meta (f : Meta → Meta) (r : StructureRow) : StructureRow :=
  {| str_meta := f (str_meta r); str_ConfigID := str_ConfigID r;
     str_Key := str_Key r; str_Name := str_Name r;
     str_Description := str_Description r; str_FieldsJSON := str_FieldsJSON r |}.
Definition map_enm_meta (f : Meta → Meta) (r : EnumRow) : EnumRow :=
  {| enm_meta := f (enm_meta r); enm_ConfigID := enm_ConfigID r;
     enm_Key := enm_Key r; enm_Name := enm_Name r;
     enm_Description := enm_Description r; enm_ValuesJSON := enm_ValuesJSON r |}.
Definition map_snp_meta (f : Meta → Meta) (r : SnapshotRow) : SnapshotRow :=
  {| snp_meta := f (snp_meta r); snp_ProjectID := snp_ProjectID r;
     snp_ConfigID := snp_ConfigID r; snp_ConfigKey := snp_ConfigKey r;
     snp_Description := snp_Description r; snp_Content := snp_Content r;
     snp_Status := snp_Status r; snp_TagsJSON := snp_TagsJSON r;
     snp_IsUsing := snp_IsUsing r; snp_PublishedAt := snp_PublishedAt r;
     snp_PublishedBy := snp_PublishedBy r |}.
Definition map_env_meta (f : Meta → Meta) (r : EnvironmentRow) : EnvironmentRow :=
  {| env_meta := f (env_meta r); env_ProjectID := env_ProjectID r;
     env_Key := env_Key r; env_Name := env_Name r;
     env_Description := env_Description r; env_Enabled := env_Enabled r |}.
Definition map_usr_meta (f : Meta → Meta) (r : UserRow) : UserRow :=
  {| usr_meta := f (usr_meta r); usr_Username := usr_Username r;
     usr_DisplayName := usr_DisplayName r; usr_PasswordHash := usr_PasswordHash r;
     usr_Enabled := usr_Enabled r; usr_IsSystemAdmin := usr_IsSystemAdmin r;
     usr_MustChangePassword := usr_MustChangePassword r;
     usr_LastLoginAt := usr_LastLoginAt r |}.
Definition map_rol_meta (f : Meta → Meta) (r : RoleRow) : RoleRow :=
  {| rol_meta := f (rol_meta r); rol_Key := rol_Key r; rol_Name := rol_Name r;
     rol_Description := rol_Description r; rol_Builtin := rol_Builtin r |}.
Definition map_prm_meta (f : RecordMeta → RecordMeta) (r : PermissionRow) : PermissionRow :=
  {| prm_meta := f (prm_meta r); prm_Key := prm_Key r; prm_Name := prm_Name r;
     prm_Description := prm_Description r |}.
Definition map_uer_meta (f : RecordMeta → RecordMeta) (r : UserEnvironmentRoleRow) : UserEnvironmentRoleRow :=
  {| uer_meta := f (uer_meta r); uer_UserID := uer_UserID r;
     uer_EnvironmentID := uer_EnvironmentID r; uer_RoleID := uer_RoleID r;
     uer_CreatedBy := uer_CreatedBy r |}.
Definition map_rpm_meta (f : RecordMeta → RecordMeta) (r : RolePermissionRow) : RolePermissionRow :=
  {| rpm_meta := f (rpm_meta r); rpm_RoleID := rpm_RoleID r;
     rpm_PermissionID := rpm_PermissionID r; rpm_CreatedBy := rpm_CreatedBy r |}.
Definition map_tok_meta (f : RecordMeta → RecordMeta) (r : RefreshTokenRow) : RefreshTokenRow :=
  {| tok_meta := f (tok_meta r); tok_UserID := tok_UserID r;
     tok_SessionID := tok_SessionID r; tok_TokenHash := tok_TokenHash r;
     tok_ExpiresAt := tok_ExpiresAt r; tok_LastUsedAt := tok_LastUsedAt r;
     tok_RevokedAt := tok_RevokedAt r; tok_ReplacedByID := tok_ReplacedByID r |}.
Definition map_imp_meta (f : WorkflowMeta → WorkflowMeta) (r : ImportRecordRow) : ImportRecordRow :=
  {| imp_meta := f (imp_meta r); imp_UserID := imp_UserID r;
     imp_SourceEnvironmentID := imp_SourceEnvironmentID r;
     imp_TargetEnvironmentID := imp_TargetEnvironmentID r;
     imp_SourceSnapshotID := imp_SourceSnapshotID r;
     imp_TargetProjectID := imp_TargetProjectID r;
     imp_TargetSnapshotID := imp_TargetSnapshotID r;
     imp_IdempotencyKey := imp_IdempotencyKey r;
     imp_RequestHash := imp_RequestHash r; imp_Status := imp_Status r;
     imp_ResultJSON := imp_ResultJSON r; imp_ErrorMessage := imp_ErrorMessage r |}.
Definition map_aud_meta (f : RecordMeta → RecordMeta) (r : AuditLogRow) : AuditLogRow :=
  {| aud_meta := f (aud_meta r); aud_ActorUserID := aud_ActorUserID r;
     aud_EnvironmentID := aud_EnvironmentID r; aud_Action := aud_Action r;
     aud_ResourceType := aud_ResourceType r; aud_ResourceID := aud_ResourceID r;
     aud_Result := aud_Result r; aud_RequestID := aud_RequestID r;
     aud_DetailsJSON := aud_DetailsJSON r |}.

Section rows.
Context `{Collation}.

#[global] Instance prj_row : Row ProjectRow.
Proof.
  refine {| row_id r := ID (prj_meta r); with_id k := map_prj_meta (set_ID k);
    clash a b := text_eq (prj_Key a) (prj_Key b) |}; done.
Defined.
#[global] Instance key_row : Row ProjectAPIKeyRow.
Proof.
  refine {| row_id r := r_ID (key_meta r); with_id k := map_key_meta (set_record_ID k);
    clash a b := bool_decide (key_PublicID a = key_PublicID b) |}; done.
Defined.
#[global] Instance cfg_row : Row ConfigRow.
Proof.
  refine {| row_id r := ID (cfg_meta r); with_id k := map_cfg_meta (set_ID k);
    clash a b := (cfg_ProjectID a =? cfg_ProjectID b) && text_eq (cfg_Key a) (cfg_Key b) |}; done.
Defined.
#[global] Instance str_row : Row StructureRow.
Proof.
  refine {| row_id r := ID (str_meta r); with_id k := map_str_meta (set_ID k);
    clash a b := (str_ConfigID a =? str_ConfigID b) && text_eq (str_Key a) (str_Key b) |}; done.
Defined.
#[global] Instance enm_row : Row EnumRow.
Proof.
  refine {| row_id r := ID (enm_meta r); with_id k := map_enm_meta (set_ID k);
    clash a b := (enm_ConfigID a =? enm_ConfigID b) && text_eq (enm_Key a) (enm_Key b) |}; done.
Defined.
#[global] Instance snp_row : Row SnapshotRow.
Proof.
  refine {| row_id r := ID (snp_meta r); with_id k := map_snp_meta (set_ID k);
    clash a b := false |}; done.
Defined.
#[global] Instance env_row : Row EnvironmentRow.
Proof.
  refine {| row_id r := ID (env_meta r); with_id k := map_env_meta (set_ID k);
    clash a b := (env_ProjectID a =? env_ProjectID b) && text_eq (env_Key a) (env_Key b) |}; done.
Defined.
#[global] Instance usr_row : Row UserRow.
Proof.
  refine {| row_id r := ID (usr_meta r); with_id k := map_usr_meta (set_ID k);
    clash a b := text_eq (usr_Username a) (usr_Username b) |}; done.
Defined.
#[global] Instance rol_row : Row RoleRow.
Proof.
  refine {| row_id r := ID (rol_meta r); with_id k := map_rol_meta (set_ID k);
    clash a b := text_eq (rol_Key a) (rol_Key b) |}; done.
Defined.
#[global] Instance prm_row : Row PermissionRow.
Proof.
  refine {| row_id r := r_ID (prm_meta r); with_id k := map_prm_meta (set_record_ID k);
    clash a b := text_eq (prm_Key a) (prm_Key b) |}; done.
Defined.
#[global] Instance uer_row : Row UserEnvironmentRoleRow.
Proof.
  refine {| row_id r := r_ID (uer_meta r); with_id k := map_uer_meta (set_record_ID k);
    clash a b := (uer_UserID a =? uer_UserID b) && (uer_EnvironmentID a =? uer_EnvironmentID b)
      && (uer_RoleID a =? uer_RoleID b) |}; done.
Defined.
#[global] Instance rpm_row : Row RolePermissionRow.
Proof.
  refine {| row_id r := r_ID (rpm_meta r); with_id k := map_rpm_meta (set_record_ID k);
    clash a b := (rpm_RoleID a =? rpm_RoleID b) && (rpm_PermissionID a =? rpm_PermissionID b) |}; done.
Defined.
#[global] Instance tok_row : Row RefreshTokenRow.
Proof.
  refine {| row_id r := r_ID (tok_meta r); with_id k := map_tok_meta (set_record_ID k);
    clash a b := bool_decide (tok_TokenHash a = tok_TokenHash b) |}; done.
Defined.
#[global] Instance imp_row : Row ImportRecordRow.
Proof.
  refine {| row_id r := w_ID (imp_meta r); with_id k := map_imp_meta (set_workflow_ID k);
    clash a b := (imp_UserID a =? imp_UserID b)
      && (imp_TargetEnvironmentID a =? imp_TargetEnvironmentID b)
      && bool_decide (imp_IdempotencyKey a = imp_IdempotencyKey b) |}; done.
Defined.
#[global] Instance aud_row : Row AuditLogRow.
Proof.
  refine {| row_id r := r_ID (aud_meta r); with_id k := map_aud_meta (set_record_ID k);
    clash a b := false |}; done.
Defined.
#[global] Instance sec_row : Row ApplicationSecretsRow.
Proof.
  refine {| row_id r := sec_ID r;
    with_id k r := {| sec_ID := k; sec_JWTKeyID := sec_JWTKeyID r;
      sec_JWTSigningKey := sec_JWTSigningKey r; sec_APIKeyPepper := sec_APIKeyPepper r;
      sec_AdminInitialized := sec_AdminInitialized r |};
    clash a b := false |}; done.
Defined.

End rows.

(** ** The database *)

Record DB `{Engine} := {
  environments : table EnvironmentRow;
  users : table UserRow;
  roles : table RoleRow;
  permissions : table PermissionRow;
  user_environment_roles : table UserEnvironmentRoleRow;
  role_permissions : table RolePermissionRow;
  refresh_tokens : table RefreshTokenRow;
  projects : table ProjectRow;
  project_api_keys : table ProjectAPIKeyRow;
  configs : table ConfigRow;
  structures : table StructureRow;
  config_enums : table EnumRow;
  snapshots : table SnapshotRow;
  import_records : table ImportRecordRow;
  audit_logs : table AuditLogRow;
  application_secrets : table ApplicationSecretsRow;
}.

(** A table of the database, with the assignment of a new state to it. *)
Record Field_of `{Engine} (R : Type) := {
  get_table : DB → table R;
  put_table : table R → DB → DB;
}.
Arguments get_table {_ _} f d : rename.
Arguments put_table {_ _} f t d : rename.

Section tables.
Context `{Engine}.

Definition environments_t : Field_of EnvironmentRow :=
  {| get_table := environments;
     put_table t d := {| environments := t; users := users d; roles := roles d;
       permissions := permissions d;
       user_environment_roles := user_environment_roles d;
       role_permissions := role_permissions d; refresh_tokens := refresh_tokens d;
       projects := projects d; project_api_keys := project_api_keys d;
       configs := configs d; structures := structures d;
       config_enums := config_enums d; snapshots := snapshots d;
       import_records := import_records d; audit_logs := audit_logs d;
       application_secrets := application_secrets d |} |}.
Definition users_t : Field_of UserRow :=
  {| get_table := users;
     put_table t d := {| environments := environments d; users := t;
       roles := roles d; permissions := permissions d;
       user_environment_roles := user_environment_roles d;
       role_permissions := role_permissions d; refresh_tokens := refresh_tokens d;
       projects := projects d; project_api_keys := project_api_keys d;
       configs := configs d; structures := structures d;
       config_enums := config_enums d; snapshots := snapshots d;
       import_records := import_records d; audit_logs := audit_logs d;
       application_secrets := application_secrets d |} |}.
Definition roles_t : Field_of RoleRow :=
  {| get_table := roles;
     put_table t d := {| environments := environments d; users := users d;
       roles := t; permissions := permissions d;
       user_environment_roles := user_environment_roles d;
       role_permissions := role_permissions d; refresh_tokens := refresh_tokens d;
       projects := projects d; project_api_keys := project_api_keys d;
       configs := configs d; structures := structures d;
       config_enums := config_enums d; snapshots := snapshots d;
       import_records := import_records d; audit_logs := audit_logs d;
       application_secrets := application_secrets d |} |}.
Definition permissions_t : Field_of PermissionRow :=
  {| get_table := permissions;
     put_table t d := {| environments := environments d; users := users d;
       roles := roles d; permissions := t;
       user_environment_roles := user_environment_roles d;
       role_permissions := role_permissions d; refresh_tokens := refresh_tokens d;
       projects := projects d; project_api_keys := project_api_keys d;
       configs := configs d; structures := structures d;
       config_enums := config_enums d; snapshots := snapshots d;
       import_records := import_records d; audit_logs := audit_logs d;
       application_secrets := application_secrets d |} |}.
Definition user_environment_roles_t : Field_of UserEnvironmentRoleRow :=
  {| get_table := user_environment_roles;
     put_table t d := {| environments := environments d; users := users d;
       roles := roles d; permissions := permissions d; user_environment_roles := t;
       role_permissions := role_permissions d; refresh_tokens := refresh_tokens d;
       projects := projects d; project_api_keys := project_api_keys d;
       configs := configs d; structures := structures d;
       config_enums := config_enums d; snapshots := snapshots d;
       import_records := import_records d; audit_logs := audit_logs d;
       application_secrets := application_secrets d |} |}.
Definition role_permissions_t : Field_of RolePermissionRow :=
  {| get_table := role_permissions;
     put_table t d := {| environments := environments d; users := users d;
       roles := roles d; permissions := permissions d;
       user_environment_roles := user_environment_roles d; role_permissions := t;
       refresh_tokens := refresh_tokens d; projects := projects d;
       project_api_keys := project_api_keys d; configs := configs d;
       structures := structures d; config_enums := config_enums d;
       snapshots := snapshots d; import_records := import_records d;
       audit_logs := audit_logs d;
       application_secrets := application_secrets d |} |}.
Definition refresh_tokens_t : Field_of RefreshTokenRow :=
  {| get_table := refresh_tokens;
     put_table t d := {| environments := environments d; users := users d;
       roles := roles d; permissions := permissions d;
       user_environment_roles := user_environment_roles d;
       role_permissions := role_permissions d; refresh_tokens := t;
       projects := projects d; project_api_keys := project_api_keys d;
       configs := configs d; structures := structures d;
       config_enums := config_enums d; snapshots := snapshots d;
       import_records := import_records d; audit_logs := audit_logs d;
       application_secrets := application_secrets d |} |}.
Definition projects_t : Field_of ProjectRow :=
  {| get_table := projects;
     put_table t d := {| environments := environments d; users := users d;
       roles := roles d; permissions := permissions d;
       user_environment_roles := user_environment_roles d;
       role_permissions := role_permissions d; refresh_tokens := refresh_tokens d;
       projects := t; project_api_keys := project_api_keys d; configs := configs d;
       structures := structures d; config_enums := config_enums d;
       snapshots := snapshots d; import_records := import_records d;
       audit_logs := audit_logs d;
       application_secrets := application_secrets d |} |}.
Definition project_api_keys_t : Field_of ProjectAPIKeyRow :=
  {| get_table := project_api_keys;
     put_table t d := {| environments := environments d; users := users d;
       roles := roles d; permissions := permissions d;
       user_environment_roles := user_environment_roles d;
       role_permissions := role_permissions d; refresh_tokens := refresh_tokens d;
       projects := projects d; project_api_keys := t; configs := configs d;
       structures := structures d; config_enums := config_enums d;
       snapshots := snapshots d; import_records := import_records d;
       audit_logs := audit_logs d;
       application_secrets := application_secrets d |} |}.
Definition configs_t : Field_of ConfigRow :=
  {| get_table := configs;
     put_table t d := {| environments := environments d; users := users d;
       roles := roles d; permissions := permissions d;
       user_environment_roles := user_environment_roles d;
       role_permissions := role_permissions d; refresh_tokens := refresh_tokens d;
       projects := projects d; project_api_keys := project_api_keys d; configs := t;
       structures := structures d; config_enums := config_enums d;
       snapshots := snapshots d; import_records := import_records d;
       audit_logs := audit_logs d;
       application_secrets := application_secrets d |} |}.
Definition structures_t : Field_of StructureRow :=
  {| get_table := structures;
     put_table t d := {| environments := environments d; users := users d;
       roles := roles d; permissions := permissions d;
       user_environment_roles := user_environment_roles d;
       role_permissions := role_permissions d; refresh_tokens := refresh_tokens d;
       projects := projects d; project_api_keys := project_api_keys d;
       configs := configs d; structures := t; config_enums := config_enums d;
       snapshots := snapshots d; import_records := import_records d;
       audit_logs := audit_logs d;
       application_secrets := application_secrets d |} |}.
Definition config_enums_t : Field_of EnumRow :=
  {| get_table := config_enums;
     put_table t d := {| environments := environments d; users := users d;
       roles := roles d; permissions := permissions d;
       user_environment_roles := user_environment_roles d;
       role_permissions := role_permissions d; refresh_tokens := refresh_tokens d;
       projects := projects d; project_api_keys := project_api_keys d;
       configs := configs d; structures := structures d; config_enums := t;
       snapshots := snapshots d; import_records := import_records d;
       audit_logs := audit_logs d;
       application_secrets := application_secrets d |} |}.
Definition snapshots_t : Field_of SnapshotRow :=
  {| get_table := snapshots;
     put_table t d := {| environments := environments d; users := users d;
       roles := roles d; permissions := permissions d;
       user_environment_roles := user_environment_roles d;
       role_permissions := role_permissions d; refresh_tokens := refresh_tokens d;
       projects := projects d; project_api_keys := project_api_keys d;
       configs := configs d; structures := structures d;
       config_enums := config_enums d; snapshots := t;
       import_records := import_records d; audit_logs := audit_logs d;
       application_secrets := application_secrets d |} |}.
Definition import_records_t : Field_of ImportRecordRow :=
  {| get_table := import_records;
     put_table t d := {| environments := environments d; users := users d;
       roles := roles d; permissions := permissions d;
       user_environment_roles := user_environment_roles d;
       role_permissions := role_permissions d; refresh_tokens := refresh_tokens d;
       projects := projects d; project_api_keys := project_api_keys d;
       configs := configs d; structures := structures d;
       config_enums := config_enums d; snapshots := snapshots d; import_records := t;
       audit_logs := audit_logs d;
       application_secrets := application_secrets d |} |}.
Definition audit_logs_t : Field_of AuditLogRow :=
  {| get_table := audit_logs;
     put_table t d := {| environments := environments d; users := users d;
       roles := roles d; permissions := permissions d;
       user_environment_roles := user_environment_roles d;
       role_permissions := role_permissions d; refresh_tokens := refresh_tokens d;
       projects := projects d; project_api_keys := project_api_keys d;
       configs := configs d; structures := structures d;
       config_enums := config_enums d; snapshots := snapshots d;
       import_records := import_records d; audit_logs := t;
       application_secrets := application_secrets d |} |}.
Definition application_secrets_t : Field_of ApplicationSecretsRow :=
  {| get_table := application_secrets;
     put_table t d := {| environments := environments d; users := users d;
       roles := roles d; permissions := permissions d;
       user_environment_roles := user_environment_roles d;
       role_permissions := role_permissions d; refresh_tokens := refresh_tokens d;
       projects := projects d; project_api_keys := project_api_keys d;
       configs := configs d; structures := structures d;
       config_enums := config_enums d; snapshots := snapshots d;
       import_records := import_records d; audit_logs := audit_logs d;
       application_secrets := t |} |}.

End tables.
