(* ===== verification/Cache.v ===== *)
(** [server/internal/infra/cache/cache.go]: the cache contract as a class with
    its laws, and the in-process store that implements it.  The Redis store
    only calls a third-party client: it is another instance of the class. *)

From S2P Require Import Prelude GoStd.

Local Open Scope Z_scope.

(** [cache.Store]: every operation runs at a time [now], may fail, and changes
    the store's state.  [ctx.Err()] is one of the failures a store may report. *)
Class Store := {
  cstate : Type;
  Get : Z → string → cstate → result string * cstate;
  Set_ : Z → string → string → Z → cstate → result unit * cstate;
  Increment : Z → string → Z → cstate → result Z * cstate;
  Delete : string → cstate → result unit * cstate;
}.

(** What the program relies on: [holds c k v] is "a read of [k] may return
    [v]".  A read returns only such a value; writing is the only way in; a
    successful deletion empties the key. *)
Class StoreLaws (S : Store) := {
  holds : cstate → string → string → Prop;
  get_holds : ∀ now k c v c', Get now k c = (Ok v, c') → holds c k v;
  get_shrinks : ∀ now k c r c', Get now k c = (r, c') →
    ∀ k' v, holds c' k' v → holds c k' v;
  set_holds : ∀ now k v ttl c r c', Set_ now k v ttl c = (r, c') →
    ∀ k' v', holds c' k' v' → holds c k' v' ∨ (k' = k ∧ v' = v);
  increment_holds : ∀ now k ttl c r c', Increment now k ttl c = (r, c') →
    ∀ k' v, holds c' k' v → holds c k' v ∨ k' = k;
  delete_shrinks : ∀ k c r c', Delete k c = (r, c') →
    ∀ k' v, holds c' k' v → holds c k' v;
  delete_empties : ∀ k c c', Delete k c = (Ok tt, c') → ∀ v, ¬ holds c' k v;
}.

(** ** [memoryStore] *)

Module Memory.

(** [expiresAt] is [None] for the zero time: no expiry. *)
Record memoryEntry := {
  value : string;
  expiresAt : option Z;
}.

Record memoryStore := {
  entries : gmap string memoryEntry;
}.

Definition newMemory : memoryStore := {| entries := ∅ |}.

(** [!entry.expiresAt.IsZero() && !now.Before(entry.expiresAt)] *)
Definition expired (now : Z) (e : memoryEntry) : bool :=
  match expiresAt e with
  | None => false
  | Some t => negb (now <? t)
  end.

Definition put (k : string) (e : memoryEntry) (s : memoryStore) : memoryStore :=
  {| entries := <[k := e]> (entries s) |}.
Definition drop_key (k : string) (s : memoryStore) : memoryStore :=
  {| entries := delete k (entries s) |}.

Definition Get (now : Z) (key : string) (s : memoryStore) :
    result string * memoryStore :=
  match entries s !! key with
  | None => (Er ECacheNotFound, s)
  | Some entry =>
      if expired now entry then (Er ECacheNotFound, drop_key key s)
      else (Ok (value entry), s)
  end.

Definition Set_ (now : Z) (key val : string) (ttl : Z) (s : memoryStore) :
    result unit * memoryStore :=
  if ttl <? 0 then (Er (EOther "cache TTL cannot be negative"), s)
  else
    let entry := {| value := val;
                    expiresAt := if 0 <? ttl then Some (now + ttl) else None |} in
    (Ok tt, put key entry s).

Definition Increment (now : Z) (key : string) (ttl : Z) (s : memoryStore) :
    result Z * memoryStore :=
  if ttl <=? 0 then (Er EInvalidTTL, s)
  else
    let fresh s := (Ok 1, put key {| value := "1"; expiresAt := Some (now + ttl) |} s) in
    match entries s !! key with
    | None => fresh s
    | Some entry =>
        if expired now entry then fresh (drop_key key s)
        else
          match parse_int64 (value entry) with
          | None => (Er (EOther ("increment cache entry " +:+ key
                          +:+ ": value is not an integer")), s)
          | Some current =>
              if current =? max_int64
              then (Er (EOther ("increment cache entry " +:+ key +:+ ": counter overflow")), s)
              else
                let current := current + 1 in
                (Ok current, put key {| value := format_int current;
                                        expiresAt := expiresAt entry |} s)
          end
    end.

Definition Delete (key : string) (s : memoryStore) : result unit * memoryStore :=
  (Ok tt, drop_key key s).

#[export] Instance memory_store : Store := {|
  Cache.cstate := memoryStore;
  Cache.Get := Get;
  Cache.Set_ := Set_;
  Cache.Increment := Increment;
  Cache.Delete := Delete;
|}.

Definition holds (s : memoryStore) (k v : string) : Prop :=
  ∃ e, entries s !! k = Some e ∧ value e = v.

Lemma holds_put s k e k' v :
  holds (put k e s) k' v → holds s k' v ∨ k' = k ∧ v = value e.
Proof.
  intros (e' & He & <-). simpl in He. apply lookup_insert_Some in He as [[<- <-]|[? He]];
    [by right|left; by exists e'].
Qed.

Lemma holds_drop s k k' v : holds (drop_key k s) k' v → holds s k' v ∧ k' ≠ k.
Proof.
  intros (e & He & <-). simpl in He. apply lookup_delete_Some in He as [? He].
  split; [by exists e|done].
Qed.

#[export] Instance memory_laws : StoreLaws memory_store.
Proof.
  refine {| Cache.holds := holds : @cstate memory_store → _ |}.
  - intros now k c v c'. simpl. unfold Get. destruct (entries c !! k) as [e|] eqn:He; [|done].
    destruct (expired now e); [done|]. intros [= <- <-]. by exists e.
  - intros now k c r c'. simpl. unfold Get. destruct (entries c !! k) as [e|]; [|by intros [= <- <-]].
    destruct (expired now e); intros [= <- <-]; [|done]. by intros k' v [? _]%holds_drop.
  - intros now k v ttl c r c'. simpl. unfold Set_. destruct (ttl <? 0); intros [= <- <-]; [by left|].
    intros k' v' [?|[-> ->]]%holds_put; auto.
  - intros now k ttl c r c'. simpl. unfold Increment.
    destruct (ttl <=? 0); [intros [= <- <-]; by left|].
    destruct (entries c !! k) as [e|].
    2:{ intros [= <- <-] k' v [?|[-> _]]%holds_put; auto. }
    destruct (expired now e).
    { intros [= <- <-] k' v [[? _]%holds_drop|[-> _]]%holds_put; auto. }
    destruct (parse_int64 _) as [n|]; [|intros [= <- <-]; by left].
    destruct (n =? max_int64); [intros [= <- <-]; by left|].
    intros [= <- <-] k' v [?|[-> _]]%holds_put; auto.
  - intros k c r c' [= <- <-]. by intros k' v [? _]%holds_drop.
  - intros k c c' [= <-]. by intros v [_ []]%holds_drop.
Defined.

End Memory.
