(* ===== verification/Convert.v ===== *)
(** [server/internal/converter] and [util/timeutil]: database rows as the
    messages of the API.  A conversion refuses a row whose identifier or
    version the message cannot carry. *)

From S2P Require Import Prelude GoStd GoStrings Util Json Proto Codec Engine Model.
From Stdlib Require Import Ascii.

Local Open Scope Z_scope.

(** ** util/timeutil/rfc3339.go *)

(** Decimal digits, zero-padded on the left. *)
Fixpoint zeros (n : nat) : string := match n with O => "" | S n => String "0" (zeros n) end.
Definition pad (n : nat) (z : Z) : string :=
  let s := format_int z in zeros (n - String.length s) +:+ s.

(** Year, month and day of a day number counted from 1970-01-01, in the
    proleptic Gregorian calendar. *)
Definition civil (days : Z) : Z * Z * Z :=
  let z := days + 719468 in
  let era := z / 146097 in
  let doe := z mod 146097 in
  let yoe := (doe - doe / 1460 + doe / 36524 - doe / 146096) / 365 in
  let doy := doe - (365 * yoe + yoe / 4 - yoe / 100) in
  let mp := (5 * doy + 2) / 153 in
  let d := doy - (153 * mp + 2) / 5 + 1 in
  let m := if mp <? 10 then mp + 3 else mp - 9 in
  (yoe + era * 400 + (if m <=? 2 then 1 else 0), m, d).

(** Without trailing zeros ([.999999999] in a layout). *)
Fixpoint trim_zeros (s : string) : string :=
  match s with
  | EmptyString => ""
  | String c r => match trim_zeros r with
                  | EmptyString => if bool_decide (c = "0"%char) then "" else String c ""
                  | r => String c r
                  end
  end.

(** [value.UTC().Format(time.RFC3339Nano)] *)
Definition rfc3339nano (t : Z) : string :=
  let secs := t / 10 ^ 9 in
  let nsec := t mod 10 ^ 9 in
  let '(y, m, d) := civil (secs / 86400) in
  let s := secs mod 86400 in
  let fraction := trim_zeros (pad 9 nsec) in
  (if y <? 0 then "-" +:+ pad 4 (- y) else pad 4 y) +:+ "-" +:+ pad 2 m +:+ "-" +:+ pad 2 d
  +:+ "T" +:+ pad 2 (s / 3600) +:+ ":" +:+ pad 2 (s / 60 mod 60) +:+ ":" +:+ pad 2 (s mod 60)
  +:+ (if bool_decide (fraction = "") then "" else "." +:+ fraction) +:+ "Z".

Definition FormatRFC3339 (value : Z) : string :=
  if value =? zero_time then "" else rfc3339nano value.

Example rfc3339_example :
  FormatRFC3339 1709210096789000000 = "2024-02-29T12:34:56.789Z".
Proof. reflexivity. Qed.
Example rfc3339_before_epoch : FormatRFC3339 (-1) = "1969-12-31T23:59:59.999999999Z".
Proof. reflexivity. Qed.

(** ** converter/common.go *)

Definition validMeta (recordID recordVersion : Z) : result Z :=
  if recordID <=? 0 then Er (EOther "invalid database record")
  else match Safeint.Uint32FromInt64 recordVersion with
       | Ok version => Ok version
       | Er _ => Er (EOther "invalid database record")
       end.

Definition formatActor (value : Z) : string :=
  if value <=? 0 then "" else format_int value.

Definition audit_of (m : Meta) (version : Z) : Audit :=
  {| m_CreatedBy := formatActor (CreatedBy m); m_UpdatedBy := formatActor (UpdatedBy m);
     m_CreatedAt := FormatRFC3339 (CreatedAt m); m_UpdatedAt := FormatRFC3339 (UpdatedAt m);
     m_Version := version |}.

(** ** Configurations and their definitions *)

Section converter.
Context `{Protojson}.

Definition ConfigToProto (item : ConfigRow) : result Config :=
  version ← validMeta (ID (cfg_meta item)) (Version (cfg_meta item));
  fieldType ← DecodeFieldType (cfg_TypeJSON item);
  match Safeint.Uint64FromInt64 (cfg_RuntimeVersion item) with
  | Er _ => Er (EOther "invalid config runtime version")
  | Ok runtimeVersion =>
      Ok {| Config_Id := ID (cfg_meta item); Config_ProjectId := cfg_ProjectID item;
            Config_Key := cfg_Key item; Config_Description := cfg_Description item;
            Config_IsArray := cfg_IsArray item; Config_Type := Some fieldType;
            Config_Value := cfg_Value item; Config_RuntimeVersion := runtimeVersion;
            Config_Audit := audit_of (cfg_meta item) version |}
  end.

Definition StructureToProto (item : StructureRow) : result Structure :=
  version ← validMeta (ID (str_meta item)) (Version (str_meta item));
  fields ← DecodeFields (str_FieldsJSON item);
  Ok {| Structure_Id := ID (str_meta item); Structure_ConfigId := str_ConfigID item;
        Structure_Key := str_Key item; Structure_Name := str_Name item;
        Structure_Description := str_Description item; Structure_Fields := fields;
        Structure_Audit := audit_of (str_meta item) version |}.

Definition StructuresToProto (items : list StructureRow) : result (list Structure) :=
  collect StructureToProto items.

Definition EnumToProto (item : EnumRow) : result ConfigEnum :=
  version ← validMeta (ID (enm_meta item)) (Version (enm_meta item));
  values ← DecodeOptions (enm_ValuesJSON item);
  Ok {| Enum_Id := ID (enm_meta item); Enum_ConfigId := enm_ConfigID item;
        Enum_Key := enm_Key item; Enum_Name := enm_Name item;
        Enum_Description := enm_Description item; Enum_Values := values;
        Enum_Audit := audit_of (enm_meta item) version |}.

Definition EnumsToProto (items : list EnumRow) : result (list ConfigEnum) :=
  collect EnumToProto items.
End converter.

(** ** Snapshots *)

Record Snapshot := {
  Snapshot_Id : Z;
  Snapshot_ProjectId : Z;
  Snapshot_ConfigId : Z;
  Snapshot_ConfigKey : string;
  Snapshot_Description : string;
  Snapshot_Content : string;
  Snapshot_Status_ : Z;
  Snapshot_Tags : list Z;
  Snapshot_IsUsing : bool;
  Snapshot_Audit : Audit;
}.

Record SimpleSnapshot := {
  Simple_Id : Z;
  Simple_ProjectId : Z;
  Simple_ConfigId : Z;
  Simple_ConfigKey : string;
  Simple_Description : string;
  Simple_Status : Z;
  Simple_Tags : list Z;
  Simple_IsUsing : bool;
  Simple_Audit : Audit;
}.

Definition SnapshotToProto (item : SnapshotRow) : result Snapshot :=
  version ← validMeta (ID (snp_meta item)) (Version (snp_meta item));
  tags ← DecodeTags (snp_TagsJSON item);
  if negb (snp_Status item =? SnapshotStatusUnreleased)
     && negb (snp_Status item =? SnapshotStatusReleased)
  then Er (EOther "invalid snapshot status")
  else Ok {| Snapshot_Id := ID (snp_meta item); Snapshot_ProjectId := snp_ProjectID item;
             Snapshot_ConfigId := snp_ConfigID item; Snapshot_ConfigKey := snp_ConfigKey item;
             Snapshot_Description := snp_Description item;
             Snapshot_Content := snp_Content item; Snapshot_Status_ := snp_Status item;
             Snapshot_Tags := tags; Snapshot_IsUsing := snp_IsUsing item;
             Snapshot_Audit := audit_of (snp_meta item) version |}.

Definition SimpleSnapshotToProto (item : SnapshotRow) : result SimpleSnapshot :=
  full ← SnapshotToProto item;
  Ok {| Simple_Id := Snapshot_Id full; Simple_ProjectId := Snapshot_ProjectId full;
        Simple_ConfigId := Snapshot_ConfigId full; Simple_ConfigKey := Snapshot_ConfigKey full;
        Simple_Description := Snapshot_Description full; Simple_Status := Snapshot_Status_ full;
        Simple_Tags := Snapshot_Tags full; Simple_IsUsing := Snapshot_IsUsing full;
        Simple_Audit := Snapshot_Audit full |}.

(** ** Projects, environments, keys and users *)

Record Project := {
  Project_Id : Z;
  Project_Key : string;
  Project_Name : string;
  Project_Description : string;
  Project_Audit : Audit;
}.

Definition ProjectToProto (item : ProjectRow) : result Project :=
  version ← validMeta (ID (prj_meta item)) (Version (prj_meta item));
  Ok {| Project_Id := ID (prj_meta item); Project_Key := prj_Key item;
        Project_Name := prj_Name item; Project_Description := prj_Description item;
        Project_Audit := audit_of (prj_meta item) version |}.

(** The messages without [created_by] and [updated_by]. *)
Definition anonymous_audit (m : Meta) (version : Z) : Audit :=
  {| m_CreatedBy := ""; m_UpdatedBy := ""; m_CreatedAt := FormatRFC3339 (CreatedAt m);
     m_UpdatedAt := FormatRFC3339 (UpdatedAt m); m_Version := version |}.

Definition record_version (what : string) (m : Meta) : result Z :=
  if ID m <=? 0 then Er (EOther what)
  else match Safeint.Uint32FromInt64 (Version m) with
       | Ok version => Ok version
       | Er _ => Er (EOther what)
       end.

Record Environment := {
  Environment_Id : Z;
  Environment_ProjectId : Z;
  Environment_Key : string;
  Environment_Name : string;
  Environment_Description : string;
  Environment_Enabled : bool;
  Environment_Audit : Audit;
}.

Definition EnvironmentToProto (item : EnvironmentRow) : result Environment :=
  version ← record_version "invalid environment record" (env_meta item);
  Ok {| Environment_Id := ID (env_meta item); Environment_ProjectId := env_ProjectID item;
        Environment_Key := env_Key item; Environment_Name := env_Name item;
        Environment_Description := env_Description item;
        Environment_Enabled := env_Enabled item;
        Environment_Audit := anonymous_audit (env_meta item) version |}.

Record User := {
  User_Id : Z;
  User_Username : string;
  User_DisplayName : string;
  User_Enabled : bool;
  User_IsSystemAdmin : bool;
  User_Audit : Audit;
}.

Definition UserToProto (item : UserRow) : result User :=
  version ← record_version "invalid user record" (usr_meta item);
  Ok {| User_Id := ID (usr_meta item); User_Username := usr_Username item;
        User_DisplayName := usr_DisplayName item; User_Enabled := usr_Enabled item;
        User_IsSystemAdmin := usr_IsSystemAdmin item;
        User_Audit := anonymous_audit (usr_meta item) version |}.

Definition optionalTime (value : option Z) : option string := FormatRFC3339 <$> value.

Record ProjectApiKey := {
  ApiKey_Id : Z;
  ApiKey_PublicId : string;
  ApiKey_Name : string;
  ApiKey_CreatedBy : string;
  ApiKey_CreatedAt : string;
  ApiKey_LastUsedAt : option string;
  ApiKey_RevokedAt : option string;
  ApiKey_SecretSuffix : string;
}.

Definition APIKeyToProto (item : ProjectAPIKeyRow) : ProjectApiKey :=
  {| ApiKey_Id := r_ID (key_meta item); ApiKey_PublicId := key_PublicID item;
     ApiKey_Name := key_Name item; ApiKey_CreatedBy := format_int (key_CreatedBy item);
     ApiKey_CreatedAt := FormatRFC3339 (r_CreatedAt (key_meta item));
     ApiKey_LastUsedAt := optionalTime (key_LastUsedAt item);
     ApiKey_RevokedAt := optionalTime (key_RevokedAt item);
     ApiKey_SecretSuffix := key_SecretSuffix item |}.
