(* ===== verification/Requests.v ===== *)
(** The request messages of [server/api/admin] and [server/api/runtime] and
    their validation ([*.pb.validate.go], [middleware/validate.go]).  A field
    of a Go struct is [M_Field] for the message [MRequest]; an optional field
    is an [option]; where the code tells the nil slice from an empty one, a
    repeated field is an optional list. *)

From S2P Require Import Prelude GoStd GoStrings Json Proto.
From Stdlib Require Import Ascii.

Local Open Scope Z_scope.

(** ** Validation errors *)

(** [XValidationError] with the name of [X], and [XMultiError]. *)
Inductive ValidationError :=
  | Violation (message field reason : string) (cause : option ValidationError)
  | MultiError (errors : list ValidationError).

(** The method [Error]. *)
Fixpoint Error (e : ValidationError) : string :=
  match e with
  | Violation message field reason cause =>
      "invalid " +:+ message +:+ "." +:+ field +:+ ": " +:+ reason +:+
      match cause with Some c => " | caused by: " +:+ Error c | None => "" end
  | MultiError errors => sep_concat "; " (Error <$> errors)
  end.

(** [validate(all)]: the checks in order; the first violation, or with [all]
    every one of them. *)
Definition checked (all : bool) (checks : list (list ValidationError)) : option ValidationError :=
  if all then
    match concat checks with [] => None | errors => Some (MultiError errors) end
  else head (concat checks).

Definition violated (b : bool) (message field reason : string) : list ValidationError :=
  if b then [Violation message field reason None] else [].

(** ** The rules *)

Definition RuneCountInString (s : string) : Z := Z.of_nat (length (runes s)).

Definition positive (message field : string) (n : Z) : list ValidationError :=
  violated (n <=? 0) message field "value must be greater than 0".
Definition runes_between (lo hi : Z) (message field s : string) : list ValidationError :=
  violated ((RuneCountInString s <? lo) || (hi <? RuneCountInString s)) message field
    ("value length must be between " +:+ format_int lo +:+ " and " +:+ format_int hi
     +:+ " runes, inclusive").
Definition bytes_between (lo hi : Z) (message field s : string) : list ValidationError :=
  violated ((len s <? lo) || (hi <? len s)) message field
    ("value length must be between " +:+ format_int lo +:+ " and " +:+ format_int hi
     +:+ " bytes, inclusive").
Definition runes_at_most (hi : Z) (message field s : string) : list ValidationError :=
  violated (hi <? RuneCountInString s) message field
    ("value length must be at most " +:+ format_int hi +:+ " runes").
Definition nonempty {A} (message field : string) (l : list A) : list ValidationError :=
  violated (Z.of_nat (length l) <? 1) message field "value must contain at least 1 item(s)".

(** The patterns are a first byte and what follows, anchored on both sides. *)
Record Pattern := { first_byte : ascii → bool; next_byte : ascii → bool; pattern_text : string }.
Definition MatchString (p : Pattern) (s : string) : bool :=
  match s with
  | EmptyString => false
  | String c s => first_byte p c && forall_bytes (next_byte p) s
  end.
Definition among (l : list ascii) (c : ascii) : bool := bool_decide (c ∈ l).
Definition identifier_pattern : Pattern :=
  {| first_byte := is_letter; next_byte := is_alnum; pattern_text := "^[A-Za-z][A-Za-z0-9]*$" |}.
Definition slug_pattern : Pattern :=
  {| first_byte := is_lower; next_byte := λ c, is_lower c || is_digit c || among ["-"%char] c;
     pattern_text := "^[a-z][a-z0-9-]*$" |}.
Definition role_key_pattern : Pattern :=
  {| first_byte := is_lower;
     next_byte := λ c, is_lower c || is_digit c || among ["_"; ":"; "."; "-"]%char c;
     pattern_text := "^[a-z][a-z0-9_:.-]*$" |}.
Definition option_pattern : Pattern :=
  {| first_byte := is_upper; next_byte := λ c, is_upper c || is_digit c || among ["_"%char] c;
     pattern_text := "^[A-Z][A-Z0-9_]*$" |}.
Definition matches (p : Pattern) (message field s : string) : list ValidationError :=
  violated (negb (MatchString p s)) message field
    ("value does not match regex pattern " +:+ String (chr 34) (pattern_text p +:+ String (chr 34) "")).

Definition optionally {A} (rule : string → string → A → list ValidationError)
    (message field : string) (value : option A) : list ValidationError :=
  match value with Some v => rule message field v | None => [] end.

(** A message pointer: nil is valid. *)
Definition embedded {A} (message field : string)
    (validate : bool → A → option ValidationError) (all : bool) (value : option A) :
    list ValidationError :=
  match value ≫= validate all with
  | Some e => [Violation message field "embedded message failed validation" (Some e)]
  | None => []
  end.
Definition at_index (field : string) (i : Z) : string := field +:+ "[" +:+ format_int i +:+ "]".
Fixpoint each_embedded_from {A} (i : Z) (message field : string)
    (validate : bool → A → option ValidationError) (all : bool) (l : list (option A)) :
    list ValidationError :=
  match l with
  | [] => []
  | x :: l => embedded message (at_index field i) validate all x
              ++ each_embedded_from (i + 1) message field validate all l
  end.
Definition each_embedded {A} : string → string → (bool → A → option ValidationError) → bool →
    list (option A) → list ValidationError := each_embedded_from 0.

(** Distinct positive items; [seen] is the map of the items so far. *)
Fixpoint unique_positive_from (i : Z) (seen : gset Z) (message field : string) (l : list Z) :
    list ValidationError :=
  match l with
  | [] => []
  | x :: l =>
      violated (bool_decide (x ∈ seen)) message (at_index field i)
        "repeated value must contain unique items"
      ++ positive message (at_index field i) x
      ++ unique_positive_from (i + 1) ({[x]} ∪ seen) message field l
  end.
Definition unique_positive : string → string → list Z → list ValidationError :=
  unique_positive_from 0 ∅.

(** [ImportConflictStrategy]: UNSPECIFIED, FAIL, REPLACE. *)
Definition specified (message field : string) (n : Z) : list ValidationError :=
  violated (n =? 0) message field "value must not be in list [UNSPECIFIED]".
Definition strategy_defined (message field : string) (n : Z) : list ValidationError :=
  violated (negb (in_range 0 2 n)) message field "value must be one of the defined enum values".

(** ** common/types.proto, common/entity.proto *)

Record PaginationRequest := {
  Pagination_Page : option Z;
  Pagination_Limit : option Z;
}.
Definition limit_rule (message field : string) (n : Z) : list ValidationError :=
  violated ((n <=? 0) || (100 <? n)) message field "value must be inside range (0, 100]".
Definition PaginationRequest_validate (all : bool) (m : PaginationRequest) :
    option ValidationError :=
  checked all [
    optionally positive "PaginationRequest" "Page" (Pagination_Page m);
    optionally limit_rule "PaginationRequest" "Limit" (Pagination_Limit m)].

Definition SelectOption_validate (all : bool) (m : SelectOption) : option ValidationError :=
  checked all [
    runes_between 1 64 "SelectOption" "Label" (Option_Label m);
    runes_between 1 64 "SelectOption" "Value" (Option_Value m);
    matches option_pattern "SelectOption" "Value" (Option_Value m);
    runes_at_most 255 "SelectOption" "Description" (Option_Description m)].

(** A decoded oneof is never a typed nil. *)
Definition Field_Type_validate (all : bool) (m : Field_Type) : option ValidationError :=
  checked all [].
Definition Field_validate (all : bool) (m : Field) : option ValidationError :=
  checked all [embedded "Field" "Type" Field_Type_validate all (Field_type m)].

(** ** admin/config.proto *)

Record ConfigIDRequest := {
  ConfigID_EnvironmentId : Z;
  ConfigID_Id : Z;
}.

Definition ConfigIDRequest_validate (all : bool) (m : ConfigIDRequest) : option ValidationError :=
  checked all [
    positive "ConfigIDRequest" "EnvironmentId" (ConfigID_EnvironmentId m);
    positive "ConfigIDRequest" "Id" (ConfigID_Id m)].

Record CreateConfigRequest := {
  CreateConfig_EnvironmentId : Z;
  CreateConfig_Key : string;
  CreateConfig_ProjectId : Z;
  CreateConfig_Description : string;
}.

Definition CreateConfigRequest_validate (all : bool) (m : CreateConfigRequest) : option ValidationError :=
  checked all [
    positive "CreateConfigRequest" "EnvironmentId" (CreateConfig_EnvironmentId m);
    runes_between 1 64 "CreateConfigRequest" "Key" (CreateConfig_Key m);
    matches identifier_pattern "CreateConfigRequest" "Key" (CreateConfig_Key m);
    positive "CreateConfigRequest" "ProjectId" (CreateConfig_ProjectId m);
    runes_at_most 255 "CreateConfigRequest" "Description" (CreateConfig_Description m)].

Record UpdateConfigRequest := {
  UpdateConfig_EnvironmentId : Z;
  UpdateConfig_Id : Z;
  UpdateConfig_Description : string;
  UpdateConfig_Type : option Field_Type;
  UpdateConfig_IsArray : bool;
  UpdateConfig_Version : Z;
}.

Definition UpdateConfigRequest_validate (all : bool) (m : UpdateConfigRequest) : option ValidationError :=
  checked all [
    positive "UpdateConfigRequest" "EnvironmentId" (UpdateConfig_EnvironmentId m);
    positive "UpdateConfigRequest" "Id" (UpdateConfig_Id m);
    runes_at_most 255 "UpdateConfigRequest" "Description" (UpdateConfig_Description m);
    embedded "UpdateConfigRequest" "Type" Field_Type_validate all (UpdateConfig_Type m)].

Record UpdateConfigValueRequest := {
  UpdateConfigValue_EnvironmentId : Z;
  UpdateConfigValue_Id : Z;
  UpdateConfigValue_Value : string;
  UpdateConfigValue_Version : Z;
}.

Definition UpdateConfigValueRequest_validate (all : bool) (m : UpdateConfigValueRequest) : option ValidationError :=
  checked all [
    positive "UpdateConfigValueRequest" "EnvironmentId" (UpdateConfigValue_EnvironmentId m);
    positive "UpdateConfigValueRequest" "Id" (UpdateConfigValue_Id m)].

Record ListConfigRequest := {
  ListConfig_EnvironmentId : Z;
  ListConfig_Key : option string;
  ListConfig_ProjectId : option Z;
  ListConfig_ProjectKey : option string;
}.

Definition ListConfigRequest_validate (all : bool) (m : ListConfigRequest) : option ValidationError :=
  checked all [
    positive "ListConfigRequest" "EnvironmentId" (ListConfig_EnvironmentId m);
    optionally (runes_at_most 255) "ListConfigRequest" "Key" (ListConfig_Key m);
    optionally positive "ListConfigRequest" "ProjectId" (ListConfig_ProjectId m);
    optionally (runes_at_most 64) "ListConfigRequest" "ProjectKey" (ListConfig_ProjectKey m)].

(** ** admin/structure.proto *)

Record StructureIDRequest := {
  StructureID_EnvironmentId : Z;
  StructureID_Id : Z;
}.

Definition StructureIDRequest_validate (all : bool) (m : StructureIDRequest) : option ValidationError :=
  checked all [
    positive "StructureIDRequest" "EnvironmentId" (StructureID_EnvironmentId m);
    positive "StructureIDRequest" "Id" (StructureID_Id m)].

Record CreateStructureRequest := {
  CreateStructure_EnvironmentId : Z;
  CreateStructure_ConfigId : Z;
  CreateStructure_Key : string;
  CreateStructure_Name : string;
  CreateStructure_Description : string;
}.

Definition CreateStructureRequest_validate (all : bool) (m : CreateStructureRequest) : option ValidationError :=
  checked all [
    positive "CreateStructureRequest" "EnvironmentId" (CreateStructure_EnvironmentId m);
    positive "CreateStructureRequest" "ConfigId" (CreateStructure_ConfigId m);
    runes_between 1 64 "CreateStructureRequest" "Key" (CreateStructure_Key m);
    matches identifier_pattern "CreateStructureRequest" "Key" (CreateStructure_Key m);
    runes_between 1 64 "CreateStructureRequest" "Name" (CreateStructure_Name m);
    runes_at_most 255 "CreateStructureRequest" "Description" (CreateStructure_Description m)].

Record UpdateStructureRequest := {
  UpdateStructure_EnvironmentId : Z;
  UpdateStructure_Id : Z;
  UpdateStructure_Key : string;
  UpdateStructure_Name : string;
  UpdateStructure_Description : string;
  UpdateStructure_Fields : list (option Field);
  UpdateStructure_Version : Z;
}.

Definition UpdateStructureRequest_validate (all : bool) (m : UpdateStructureRequest) : option ValidationError :=
  checked all [
    positive "UpdateStructureRequest" "EnvironmentId" (UpdateStructure_EnvironmentId m);
    positive "UpdateStructureRequest" "Id" (UpdateStructure_Id m);
    runes_between 1 64 "UpdateStructureRequest" "Key" (UpdateStructure_Key m);
    matches identifier_pattern "UpdateStructureRequest" "Key" (UpdateStructure_Key m);
    runes_between 1 64 "UpdateStructureRequest" "Name" (UpdateStructure_Name m);
    runes_at_most 255 "UpdateStructureRequest" "Description" (UpdateStructure_Description m);
    nonempty "UpdateStructureRequest" "Fields" (UpdateStructure_Fields m);
    each_embedded "UpdateStructureRequest" "Fields" Field_validate all (UpdateStructure_Fields m)].

Record ListStructureRequest := {
  ListStructure_EnvironmentId : Z;
  ListStructure_ConfigId : Z;
  ListStructure_ProjectId : Z;
  ListStructure_IgnoreDependencyId : option Z;
}.

Definition ListStructureRequest_validate (all : bool) (m : ListStructureRequest) : option ValidationError :=
  checked all [
    positive "ListStructureRequest" "EnvironmentId" (ListStructure_EnvironmentId m);
    positive "ListStructureRequest" "ConfigId" (ListStructure_ConfigId m);
    positive "ListStructureRequest" "ProjectId" (ListStructure_ProjectId m);
    optionally positive "ListStructureRequest" "IgnoreDependencyId" (ListStructure_IgnoreDependencyId m)].

(** ** admin/enum.proto *)

Record EnumIDRequest := {
  EnumID_EnvironmentId : Z;
  EnumID_Id : Z;
}.

Definition EnumIDRequest_validate (all : bool) (m : EnumIDRequest) : option ValidationError :=
  checked all [
    positive "EnumIDRequest" "EnvironmentId" (EnumID_EnvironmentId m);
    positive "EnumIDRequest" "Id" (EnumID_Id m)].

Record CreateEnumRequest := {
  CreateEnum_EnvironmentId : Z;
  CreateEnum_ConfigId : Z;
  CreateEnum_Key : string;
  CreateEnum_Name : string;
  CreateEnum_Description : string;
  CreateEnum_Values : option (list (option SelectOption));
}.

Definition CreateEnumRequest_validate (all : bool) (m : CreateEnumRequest) : option ValidationError :=
  checked all [
    positive "CreateEnumRequest" "EnvironmentId" (CreateEnum_EnvironmentId m);
    positive "CreateEnumRequest" "ConfigId" (CreateEnum_ConfigId m);
    runes_between 1 64 "CreateEnumRequest" "Key" (CreateEnum_Key m);
    matches identifier_pattern "CreateEnumRequest" "Key" (CreateEnum_Key m);
    runes_between 1 64 "CreateEnumRequest" "Name" (CreateEnum_Name m);
    runes_at_most 255 "CreateEnumRequest" "Description" (CreateEnum_Description m);
    nonempty "CreateEnumRequest" "Values" (default [] (CreateEnum_Values m));
    each_embedded "CreateEnumRequest" "Values" SelectOption_validate all (default [] (CreateEnum_Values m))].

Record UpdateEnumRequest := {
  UpdateEnum_EnvironmentId : Z;
  UpdateEnum_Id : Z;
  UpdateEnum_Key : string;
  UpdateEnum_Name : string;
  UpdateEnum_Description : string;
  UpdateEnum_Values : option (list (option SelectOption));
  UpdateEnum_Version : Z;
}.

Definition UpdateEnumRequest_validate (all : bool) (m : UpdateEnumRequest) : option ValidationError :=
  checked all [
    positive "UpdateEnumRequest" "EnvironmentId" (UpdateEnum_EnvironmentId m);
    positive "UpdateEnumRequest" "Id" (UpdateEnum_Id m);
    runes_between 1 64 "UpdateEnumRequest" "Key" (UpdateEnum_Key m);
    matches identifier_pattern "UpdateEnumRequest" "Key" (UpdateEnum_Key m);
    runes_between 1 64 "UpdateEnumRequest" "Name" (UpdateEnum_Name m);
    runes_at_most 255 "UpdateEnumRequest" "Description" (UpdateEnum_Description m);
    nonempty "UpdateEnumRequest" "Values" (default [] (UpdateEnum_Values m));
    each_embedded "UpdateEnumRequest" "Values" SelectOption_validate all (default [] (UpdateEnum_Values m))].

Record ListEnumRequest := {
  ListEnum_EnvironmentId : Z;
  ListEnum_ConfigId : Z;
  ListEnum_ProjectId : Z;
}.

Definition ListEnumRequest_validate (all : bool) (m : ListEnumRequest) : option ValidationError :=
  checked all [
    positive "ListEnumRequest" "EnvironmentId" (ListEnum_EnvironmentId m);
    positive "ListEnumRequest" "ConfigId" (ListEnum_ConfigId m);
    positive "ListEnumRequest" "ProjectId" (ListEnum_ProjectId m)].

(** ** admin/snapshot.proto *)

Record SnapshotIDRequest := {
  SnapshotID_EnvironmentId : Z;
  SnapshotID_Id : Z;
}.

Definition SnapshotIDRequest_validate (all : bool) (m : SnapshotIDRequest) : option ValidationError :=
  checked all [
    positive "SnapshotIDRequest" "EnvironmentId" (SnapshotID_EnvironmentId m);
    positive "SnapshotIDRequest" "Id" (SnapshotID_Id m)].

Record ConfigSnapshotRequest := {
  ConfigSnapshot_EnvironmentId : Z;
  ConfigSnapshot_ConfigId : Z;
}.

Definition ConfigSnapshotRequest_validate (all : bool) (m : ConfigSnapshotRequest) : option ValidationError :=
  checked all [
    positive "ConfigSnapshotRequest" "EnvironmentId" (ConfigSnapshot_EnvironmentId m);
    positive "ConfigSnapshotRequest" "ConfigId" (ConfigSnapshot_ConfigId m)].

Record CreateSnapshotRequest := {
  CreateSnapshot_EnvironmentId : Z;
  CreateSnapshot_ConfigId : Z;
  CreateSnapshot_ProjectId : Z;
  CreateSnapshot_Description : string;
  CreateSnapshot_Tags : option (list Z);
}.

Definition CreateSnapshotRequest_validate (all : bool) (m : CreateSnapshotRequest) : option ValidationError :=
  checked all [
    positive "CreateSnapshotRequest" "EnvironmentId" (CreateSnapshot_EnvironmentId m);
    positive "CreateSnapshotRequest" "ConfigId" (CreateSnapshot_ConfigId m);
    positive "CreateSnapshotRequest" "ProjectId" (CreateSnapshot_ProjectId m);
    runes_between 2 255 "CreateSnapshotRequest" "Description" (CreateSnapshot_Description m)].

Record LoadSnapshotRequest := {
  LoadSnapshot_EnvironmentId : Z;
  LoadSnapshot_Id : Z;
  LoadSnapshot_ConfigId : Z;
}.

Definition LoadSnapshotRequest_validate (all : bool) (m : LoadSnapshotRequest) : option ValidationError :=
  checked all [
    positive "LoadSnapshotRequest" "EnvironmentId" (LoadSnapshot_EnvironmentId m);
    positive "LoadSnapshotRequest" "Id" (LoadSnapshot_Id m);
    positive "LoadSnapshotRequest" "ConfigId" (LoadSnapshot_ConfigId m)].

Record ListSnapshotRequest := {
  ListSnapshot_EnvironmentId : Z;
  ListSnapshot_ConfigId : Z;
  ListSnapshot_ProjectId : Z;
  ListSnapshot_Page : option PaginationRequest;
}.

Definition ListSnapshotRequest_validate (all : bool) (m : ListSnapshotRequest) : option ValidationError :=
  checked all [
    positive "ListSnapshotRequest" "EnvironmentId" (ListSnapshot_EnvironmentId m);
    positive "ListSnapshotRequest" "ConfigId" (ListSnapshot_ConfigId m);
    positive "ListSnapshotRequest" "ProjectId" (ListSnapshot_ProjectId m);
    embedded "ListSnapshotRequest" "Page" PaginationRequest_validate all (ListSnapshot_Page m)].

(** ** admin/publication.proto *)

Record PublishSnapshotRequest := {
  PublishSnapshot_EnvironmentId : Z;
  PublishSnapshot_SnapshotId : Z;
  PublishSnapshot_Version : Z;
}.

Definition PublishSnapshotRequest_validate (all : bool) (m : PublishSnapshotRequest) : option ValidationError :=
  checked all [
    positive "PublishSnapshotRequest" "EnvironmentId" (PublishSnapshot_EnvironmentId m);
    positive "PublishSnapshotRequest" "SnapshotId" (PublishSnapshot_SnapshotId m)].

(** ** admin/snapshot_transfer.proto *)

Record ExportSnapshotRequest := {
  ExportSnapshot_SourceEnvironmentId : Z;
  ExportSnapshot_SnapshotId : Z;
}.

Definition ExportSnapshotRequest_validate (all : bool) (m : ExportSnapshotRequest) : option ValidationError :=
  checked all [
    positive "ExportSnapshotRequest" "SourceEnvironmentId" (ExportSnapshot_SourceEnvironmentId m);
    positive "ExportSnapshotRequest" "SnapshotId" (ExportSnapshot_SnapshotId m)].

Record ImportSnapshotRequest := {
  ImportSnapshot_TargetEnvironmentId : Z;
  ImportSnapshot_SourceEnvironmentId : Z;
  ImportSnapshot_SourceSnapshotId : Z;
  ImportSnapshot_TargetProjectId : Z;
  ImportSnapshot_TargetConfigId : option Z;
  ImportSnapshot_Description : string;
  ImportSnapshot_Tags : list Z;
  ImportSnapshot_IdempotencyKey : string;
  ImportSnapshot_ConflictStrategy : Z;
}.

Definition ImportSnapshotRequest_validate (all : bool) (m : ImportSnapshotRequest) : option ValidationError :=
  checked all [
    positive "ImportSnapshotRequest" "TargetEnvironmentId" (ImportSnapshot_TargetEnvironmentId m);
    positive "ImportSnapshotRequest" "SourceEnvironmentId" (ImportSnapshot_SourceEnvironmentId m);
    positive "ImportSnapshotRequest" "SourceSnapshotId" (ImportSnapshot_SourceSnapshotId m);
    positive "ImportSnapshotRequest" "TargetProjectId" (ImportSnapshot_TargetProjectId m);
    runes_between 2 255 "ImportSnapshotRequest" "Description" (ImportSnapshot_Description m);
    runes_between 16 128 "ImportSnapshotRequest" "IdempotencyKey" (ImportSnapshot_IdempotencyKey m);
    specified "ImportSnapshotRequest" "ConflictStrategy" (ImportSnapshot_ConflictStrategy m);
    strategy_defined "ImportSnapshotRequest" "ConflictStrategy" (ImportSnapshot_ConflictStrategy m);
    optionally positive "ImportSnapshotRequest" "TargetConfigId" (ImportSnapshot_TargetConfigId m)].

(** ** admin/project.proto *)

Record ProjectIDRequest := {
  ProjectID_Id : Z;
  ProjectID_EnvironmentId : option Z;
}.

Definition ProjectIDRequest_validate (all : bool) (m : ProjectIDRequest) : option ValidationError :=
  checked all [
    positive "ProjectIDRequest" "Id" (ProjectID_Id m);
    optionally positive "ProjectIDRequest" "EnvironmentId" (ProjectID_EnvironmentId m)].

Record CreateProjectRequest := {
  CreateProject_Key : string;
  CreateProject_Name : string;
  CreateProject_Description : string;
}.

Definition CreateProjectRequest_validate (all : bool) (m : CreateProjectRequest) : option ValidationError :=
  checked all [
    runes_between 1 64 "CreateProjectRequest" "Key" (CreateProject_Key m);
    matches identifier_pattern "CreateProjectRequest" "Key" (CreateProject_Key m);
    runes_between 1 64 "CreateProjectRequest" "Name" (CreateProject_Name m);
    runes_at_most 255 "CreateProjectRequest" "Description" (CreateProject_Description m)].

Record UpdateProjectRequest := {
  UpdateProject_Id : Z;
  UpdateProject_Name : string;
  UpdateProject_Description : string;
  UpdateProject_Version : Z;
}.

Definition UpdateProjectRequest_validate (all : bool) (m : UpdateProjectRequest) : option ValidationError :=
  checked all [
    positive "UpdateProjectRequest" "Id" (UpdateProject_Id m);
    runes_between 1 64 "UpdateProjectRequest" "Name" (UpdateProject_Name m);
    runes_at_most 255 "UpdateProjectRequest" "Description" (UpdateProject_Description m)].

Record ListProjectRequest := {
  ListProject_Keyword : string;
  ListProject_EnvironmentId : option Z;
}.

Definition ListProjectRequest_validate (all : bool) (m : ListProjectRequest) : option ValidationError :=
  checked all [
    runes_at_most 64 "ListProjectRequest" "Keyword" (ListProject_Keyword m);
    optionally positive "ListProjectRequest" "EnvironmentId" (ListProject_EnvironmentId m)].

(** ** admin/project_api_key.proto *)

Record ProjectApiKeyScopeRequest := {
  ProjectApiKeyScope_EnvironmentId : Z;
  ProjectApiKeyScope_ProjectId : Z;
}.

Definition ProjectApiKeyScopeRequest_validate (all : bool) (m : ProjectApiKeyScopeRequest) : option ValidationError :=
  checked all [
    positive "ProjectApiKeyScopeRequest" "EnvironmentId" (ProjectApiKeyScope_EnvironmentId m);
    positive "ProjectApiKeyScopeRequest" "ProjectId" (ProjectApiKeyScope_ProjectId m)].

Record ProjectApiKeyIDRequest := {
  ProjectApiKeyID_EnvironmentId : Z;
  ProjectApiKeyID_ProjectId : Z;
  ProjectApiKeyID_KeyId : Z;
}.

Definition ProjectApiKeyIDRequest_validate (all : bool) (m : ProjectApiKeyIDRequest) : option ValidationError :=
  checked all [
    positive "ProjectApiKeyIDRequest" "EnvironmentId" (ProjectApiKeyID_EnvironmentId m);
    positive "ProjectApiKeyIDRequest" "ProjectId" (ProjectApiKeyID_ProjectId m);
    positive "ProjectApiKeyIDRequest" "KeyId" (ProjectApiKeyID_KeyId m)].

Record CreateProjectApiKeyRequest := {
  CreateProjectApiKey_EnvironmentId : Z;
  CreateProjectApiKey_ProjectId : Z;
  CreateProjectApiKey_Name : string;
}.

Definition CreateProjectApiKeyRequest_validate (all : bool) (m : CreateProjectApiKeyRequest) : option ValidationError :=
  checked all [
    positive "CreateProjectApiKeyRequest" "EnvironmentId" (CreateProjectApiKey_EnvironmentId m);
    positive "CreateProjectApiKeyRequest" "ProjectId" (CreateProjectApiKey_ProjectId m);
    runes_between 1 64 "CreateProjectApiKeyRequest" "Name" (CreateProjectApiKey_Name m)].

(** ** admin/environment.proto *)

Record EnvironmentIDRequest := {
  EnvironmentID_EnvironmentId : Z;
}.

Definition EnvironmentIDRequest_validate (all : bool) (m : EnvironmentIDRequest) : option ValidationError :=
  checked all [
    positive "EnvironmentIDRequest" "EnvironmentId" (EnvironmentID_EnvironmentId m)].

Record ListEnvironmentsRequest := {
  ListEnvironments_ProjectId : option Z;
}.

Definition ListEnvironmentsRequest_validate (all : bool) (m : ListEnvironmentsRequest) : option ValidationError :=
  checked all [
    optionally positive "ListEnvironmentsRequest" "ProjectId" (ListEnvironments_ProjectId m)].

Record CreateEnvironmentRequest := {
  CreateEnvironment_ProjectId : Z;
  CreateEnvironment_Key : string;
  CreateEnvironment_Name : string;
  CreateEnvironment_Description : string;
}.

Definition CreateEnvironmentRequest_validate (all : bool) (m : CreateEnvironmentRequest) : option ValidationError :=
  checked all [
    positive "CreateEnvironmentRequest" "ProjectId" (CreateEnvironment_ProjectId m);
    runes_between 1 64 "CreateEnvironmentRequest" "Key" (CreateEnvironment_Key m);
    matches slug_pattern "CreateEnvironmentRequest" "Key" (CreateEnvironment_Key m);
    runes_between 1 64 "CreateEnvironmentRequest" "Name" (CreateEnvironment_Name m);
    runes_at_most 255 "CreateEnvironmentRequest" "Description" (CreateEnvironment_Description m)].

Record UpdateEnvironmentRequest := {
  UpdateEnvironment_ProjectId : Z;
  UpdateEnvironment_EnvironmentId : Z;
  UpdateEnvironment_Name : string;
  UpdateEnvironment_Description : string;
  UpdateEnvironment_Enabled : bool;
  UpdateEnvironment_Version : Z;
}.

Definition UpdateEnvironmentRequest_validate (all : bool) (m : UpdateEnvironmentRequest) : option ValidationError :=
  checked all [
    positive "UpdateEnvironmentRequest" "ProjectId" (UpdateEnvironment_ProjectId m);
    positive "UpdateEnvironmentRequest" "EnvironmentId" (UpdateEnvironment_EnvironmentId m);
    runes_between 1 64 "UpdateEnvironmentRequest" "Name" (UpdateEnvironment_Name m);
    runes_at_most 255 "UpdateEnvironmentRequest" "Description" (UpdateEnvironment_Description m)].

Record UpdateEnvironmentUserRolesRequest := {
  UpdateEnvironmentUserRoles_EnvironmentId : Z;
  UpdateEnvironmentUserRoles_UserId : Z;
  UpdateEnvironmentUserRoles_RoleIds : list Z;
}.

Definition UpdateEnvironmentUserRolesRequest_validate (all : bool) (m : UpdateEnvironmentUserRolesRequest) : option ValidationError :=
  checked all [
    positive "UpdateEnvironmentUserRolesRequest" "EnvironmentId" (UpdateEnvironmentUserRoles_EnvironmentId m);
    positive "UpdateEnvironmentUserRolesRequest" "UserId" (UpdateEnvironmentUserRoles_UserId m);
    unique_positive "UpdateEnvironmentUserRolesRequest" "RoleIds" (UpdateEnvironmentUserRoles_RoleIds m)].

(** ** admin/role.proto *)

Record RoleIDRequest := {
  RoleID_RoleId : Z;
}.

Definition RoleIDRequest_validate (all : bool) (m : RoleIDRequest) : option ValidationError :=
  checked all [
    positive "RoleIDRequest" "RoleId" (RoleID_RoleId m)].

Record CreateRoleRequest := {
  CreateRole_Key : string;
  CreateRole_Name : string;
  CreateRole_Description : string;
}.

Definition CreateRoleRequest_validate (all : bool) (m : CreateRoleRequest) : option ValidationError :=
  checked all [
    runes_between 1 64 "CreateRoleRequest" "Key" (CreateRole_Key m);
    matches role_key_pattern "CreateRoleRequest" "Key" (CreateRole_Key m);
    runes_between 1 64 "CreateRoleRequest" "Name" (CreateRole_Name m);
    runes_at_most 255 "CreateRoleRequest" "Description" (CreateRole_Description m)].

Record UpdateRoleRequest := {
  UpdateRole_RoleId : Z;
  UpdateRole_Name : string;
  UpdateRole_Description : string;
  UpdateRole_Version : Z;
}.

Definition UpdateRoleRequest_validate (all : bool) (m : UpdateRoleRequest) : option ValidationError :=
  checked all [
    positive "UpdateRoleRequest" "RoleId" (UpdateRole_RoleId m);
    runes_between 1 64 "UpdateRoleRequest" "Name" (UpdateRole_Name m);
    runes_at_most 255 "UpdateRoleRequest" "Description" (UpdateRole_Description m)].

Record UpdateRolePermissionsRequest := {
  UpdateRolePermissions_RoleId : Z;
  UpdateRolePermissions_PermissionIds : list Z;
}.

Definition UpdateRolePermissionsRequest_validate (all : bool) (m : UpdateRolePermissionsRequest) : option ValidationError :=
  checked all [
    positive "UpdateRolePermissionsRequest" "RoleId" (UpdateRolePermissions_RoleId m);
    unique_positive "UpdateRolePermissionsRequest" "PermissionIds" (UpdateRolePermissions_PermissionIds m)].

(** ** admin/user.proto *)

Record CreateUserRequest := {
  CreateUser_Username : string;
  CreateUser_DisplayName : string;
  CreateUser_Password : string;
  CreateUser_IsSystemAdmin : bool;
}.

Definition CreateUserRequest_validate (all : bool) (m : CreateUserRequest) : option ValidationError :=
  checked all [
    runes_between 1 128 "CreateUserRequest" "Username" (CreateUser_Username m);
    runes_between 1 128 "CreateUserRequest" "DisplayName" (CreateUser_DisplayName m);
    runes_between 12 1024 "CreateUserRequest" "Password" (CreateUser_Password m)].

Record UpdateUserRequest := {
  UpdateUser_UserId : Z;
  UpdateUser_DisplayName : string;
  UpdateUser_IsSystemAdmin : bool;
  UpdateUser_Version : Z;
}.

Definition UpdateUserRequest_validate (all : bool) (m : UpdateUserRequest) : option ValidationError :=
  checked all [
    positive "UpdateUserRequest" "UserId" (UpdateUser_UserId m);
    runes_between 1 128 "UpdateUserRequest" "DisplayName" (UpdateUser_DisplayName m)].

Record UpdateUserPasswordRequest := {
  UpdateUserPassword_UserId : Z;
  UpdateUserPassword_Password : string;
}.

Definition UpdateUserPasswordRequest_validate (all : bool) (m : UpdateUserPasswordRequest) : option ValidationError :=
  checked all [
    positive "UpdateUserPasswordRequest" "UserId" (UpdateUserPassword_UserId m);
    runes_between 12 1024 "UpdateUserPasswordRequest" "Password" (UpdateUserPassword_Password m)].

Record UpdateUserStatusRequest := {
  UpdateUserStatus_UserId : Z;
  UpdateUserStatus_Enabled : bool;
  UpdateUserStatus_Version : Z;
}.

Definition UpdateUserStatusRequest_validate (all : bool) (m : UpdateUserStatusRequest) : option ValidationError :=
  checked all [
    positive "UpdateUserStatusRequest" "UserId" (UpdateUserStatus_UserId m)].

(** ** admin/auth.proto *)

Record LoginRequest := {
  Login_Username : string;
  Login_Password : string;
}.

Definition LoginRequest_validate (all : bool) (m : LoginRequest) : option ValidationError :=
  checked all [
    runes_between 1 128 "LoginRequest" "Username" (Login_Username m);
    runes_between 1 1024 "LoginRequest" "Password" (Login_Password m)].

(** ** admin/setup.proto *)

Record CreateInitialAdminRequest := {
  CreateInitialAdmin_Username : string;
  CreateInitialAdmin_DisplayName : string;
  CreateInitialAdmin_Password : string;
}.

Definition CreateInitialAdminRequest_validate (all : bool) (m : CreateInitialAdminRequest) : option ValidationError :=
  checked all [
    runes_between 1 128 "CreateInitialAdminRequest" "Username" (CreateInitialAdmin_Username m);
    runes_between 1 128 "CreateInitialAdminRequest" "DisplayName" (CreateInitialAdmin_DisplayName m);
    bytes_between 12 1024 "CreateInitialAdminRequest" "Password" (CreateInitialAdmin_Password m)].

(** ** admin/asset.proto *)

Record PresignAssetRequest := {
  PresignAsset_EnvironmentId : Z;
  PresignAsset_ProjectId : Z;
  PresignAsset_Filename : string;
  PresignAsset_ContentType : string;
  PresignAsset_Size : Z;
}.

Definition PresignAssetRequest_validate (all : bool) (m : PresignAssetRequest) : option ValidationError :=
  checked all [
    positive "PresignAssetRequest" "EnvironmentId" (PresignAsset_EnvironmentId m);
    positive "PresignAssetRequest" "ProjectId" (PresignAsset_ProjectId m);
    runes_between 1 255 "PresignAssetRequest" "Filename" (PresignAsset_Filename m);
    runes_between 1 255 "PresignAssetRequest" "ContentType" (PresignAsset_ContentType m);
    positive "PresignAssetRequest" "Size" (PresignAsset_Size m)].

Record CompleteAssetRequest := {
  CompleteAsset_EnvironmentId : Z;
  CompleteAsset_ProjectId : Z;
  CompleteAsset_ObjectKey : string;
}.

Definition CompleteAssetRequest_validate (all : bool) (m : CompleteAssetRequest) : option ValidationError :=
  checked all [
    positive "CompleteAssetRequest" "EnvironmentId" (CompleteAsset_EnvironmentId m);
    positive "CompleteAssetRequest" "ProjectId" (CompleteAsset_ProjectId m);
    runes_between 1 1024 "CompleteAssetRequest" "ObjectKey" (CompleteAsset_ObjectKey m)].
(** ** runtime/api.proto *)

Record ConfigRequest := {
  Runtime_Project : string;
  Runtime_Key : string;
}.

Definition ConfigRequest_validate (all : bool) (m : ConfigRequest) : option ValidationError :=
  checked all [
    runes_between 1 64 "ConfigRequest" "Project" (Runtime_Project m);
    runes_between 1 64 "ConfigRequest" "Key" (Runtime_Key m)].

(** ** Laws *)

Lemma violated_nil b message field reason : violated b message field reason = [] ↔ b = false.
Proof. by destruct b. Qed.
(** A message satisfies its rules when none is violated, whether or not all
    violations are asked for. *)
Lemma checked_None all checks : checked all checks = None ↔ Forall (λ c, c = []) checks.
Proof.
  assert (concat checks = [] ↔ Forall (λ c, c = []) checks) as <-.
  { induction checks as [|c l IH]; simpl; [by split|]. rewrite Forall_cons, <-IH.
    split; [by intros [? ?]%app_eq_nil|by intros [-> ->]]. }
  unfold checked. destruct all, (concat checks); done.
Qed.
Lemma embedded_nil {A} message field (validate : bool → A → option ValidationError) all x :
  embedded message field validate all (Some x) = [] ↔ validate all x = None.
Proof. unfold embedded. simpl. by destruct (validate all x). Qed.
