(* ===== verification/World.v ===== *)
(** The state the server's code runs in, and the monad its functions are
    written in: the database, the cache, a clock, a source of randomness, and
    an arbitrary schedule of failures of database statements.  A theorem that
    quantifies over the world quantifies over all failures. *)

From S2P Require Import Prelude GoStd GoStrings Engine Model Cache.

Local Open Scope Z_scope.

Section world.
Context `{Engine} `{Collation} `{Store}.

(** A statement that fails either did nothing or, when [applied], took effect
    before its answer was lost. *)
Record Fault := { cause : Err; applied : bool }.

Record World := {
  db : DB;
  cache : cstate;
  faults : list (option Fault);  (* one entry per statement; none left: success *)
  clock : nat → Z;
  ticks : nat;
  entropy : nat → string;
  drawn : nat;
}.

Definition with_db (d : DB) (w : World) : World :=
  {| db := d; cache := cache w; faults := faults w; clock := clock w;
     ticks := ticks w; entropy := entropy w; drawn := drawn w |}.
Definition with_cache (c : cstate) (w : World) : World :=
  {| db := db w; cache := c; faults := faults w; clock := clock w;
     ticks := ticks w; entropy := entropy w; drawn := drawn w |}.
Definition with_faults (f : list (option Fault)) (w : World) : World :=
  {| db := db w; cache := cache w; faults := f; clock := clock w;
     ticks := ticks w; entropy := entropy w; drawn := drawn w |}.
Definition with_ticks (n : nat) (w : World) : World :=
  {| db := db w; cache := cache w; faults := faults w; clock := clock w;
     ticks := n; entropy := entropy w; drawn := drawn w |}.
Definition with_drawn (n : nat) (w : World) : World :=
  {| db := db w; cache := cache w; faults := faults w; clock := clock w;
     ticks := ticks w; entropy := entropy w; drawn := n |}.

(** A Go function returning [(A, error)]. *)
Definition M (A : Type) : Type := World → result A * World.

Definition lift {A} (r : result A) : M A := λ w, (r, w).
Definition throw {A} (e : Err) : M A := λ w, (Er e, w).

#[global] Instance M_ret : MRet M := λ A a w, (Ok a, w).
#[global] Instance M_bind : MBind M := λ A B f m w,
  match m w with
  | (Ok a, w') => f a w'
  | (Er e, w') => (Er e, w')
  end.

(** [value, err := m; ...]: the error as a value. *)
Definition attempt {A} (m : M A) : M (result A) := λ w,
  let '(r, w') := m w in (Ok r, w').

(** [if err != nil { return h(err) }] *)
Definition handle {A} (h : Err → Err) (m : M A) : M A := λ w,
  match m w with
  | (Er e, w') => (Er (h e), w')
  | x => x
  end.

(** [time.Now().UTC()] *)
Definition now : M Z := λ w, (Ok (clock w (ticks w)), with_ticks (S (ticks w)) w).

(** [crypto/rand], [uuid.NewString]: the next random text. *)
Definition random : M string := λ w,
  (Ok (entropy w (drawn w)), with_drawn (S (drawn w)) w).

(** [io.ReadFull(rand.Reader, buf)] with a buffer of [n] bytes: a source that
    does not deliver them has failed. *)
Definition random_bytes (n : Z) : M string :=
  s ← random;
  if len s =? n then mret s else throw (EOther "random source failed").

(** ** Statements *)

(** The failure scheduled for the next statement. *)
Definition next_fault (w : World) : option Fault * World :=
  match faults w with
  | [] => (None, w)
  | f :: rest => (f, with_faults rest w)
  end.

Definition statement {A} (f : DB → result A * DB) : M A := λ w,
  let '(fault, w) := next_fault w in
  let '(r, d) := f (db w) in
  match fault with
  | None => (r, with_db d w)
  | Some x => (Er (cause x), if applied x then with_db d w else w)
  end.

(** [SELECT]: what a query reads, all its rows, or one of them. *)
Definition query {A} (q : DB → A) : M A := statement (λ d, (Ok (q d), d)).
Definition find {R} (q : DB → list R) : M (list R) := query q.
Definition get {R} (q : DB → option R) : M (option R) := query q.

Definition exec_update {R} `{Row R} (T : Field_of R) (p : DB → R → bool) (f : R → R) : M Z :=
  statement (λ d,
    match update (p d) f (get_table T d) with
    | Some (n, t) => (Ok n, put_table T t d)
    | None => (Er EDuplicateKey, d)
    end).

Definition exec_insert {R} `{Row R} (T : Field_of R) (r : R) : M Z :=
  statement (λ d,
    match insert r (get_table T d) with
    | Some (k, t) => (Ok k, put_table T t d)
    | None => (Er EDuplicateKey, d)
    end).

(** One statement for several rows: all of them are inserted or none. *)
Fixpoint insert_all {R} `{Row R} (l : list R) (t : table R) : option (table R) :=
  match l with
  | [] => Some t
  | r :: l => match insert r t with Some (_, t') => insert_all l t' | None => None end
  end.
Definition exec_insert_all {R} `{Row R} (T : Field_of R) (l : list R) : M unit :=
  statement (λ d,
    match insert_all l (get_table T d) with
    | Some t => (Ok tt, put_table T t d)
    | None => (Er EDuplicateKey, d)
    end).

Definition exec_delete {R} `{Row R} (T : Field_of R) (p : DB → R → bool) : M Z :=
  statement (λ d, let '(n, t) := remove (p d) (get_table T d) in (Ok n, put_table T t d)).

(** ** Transactions

    [TransactionRunner.TX]: begin, run, commit; any error of the operation
    rolls the database back.  A commit whose answer is lost reports an error
    although it took effect.  The cache, the clock and the random source are
    outside the transaction. *)
Definition TX {A} (operation : M A) : M A := λ w,
  let before := db w in
  match next_fault w with
  | (Some x, w) => (Er (cause x), w)
  | (None, w) =>
      match operation w with
      | (Er e, w') => (Er e, with_db before w')
      | (Ok a, w') =>
          match next_fault w' with
          | (None, w') => (Ok a, w')
          | (Some x, w') =>
              (Er (cause x), if applied x then w' else with_db before w')
          end
      end
  end.

(** ** The cache *)

Definition cache_get (k : string) : M string := λ w,
  let '(r, c) := Get (clock w (ticks w)) k (cache w) in
  (r, with_ticks (S (ticks w)) (with_cache c w)).
Definition cache_set (k v : string) (ttl : Z) : M unit := λ w,
  let '(r, c) := Set_ (clock w (ticks w)) k v ttl (cache w) in
  (r, with_ticks (S (ticks w)) (with_cache c w)).
Definition cache_increment (k : string) (ttl : Z) : M Z := λ w,
  let '(r, c) := Increment (clock w (ticks w)) k ttl (cache w) in
  (r, with_ticks (S (ticks w)) (with_cache c w)).
Definition cache_delete (k : string) : M unit := λ w,
  let '(r, c) := Delete k (cache w) in (r, with_cache c w).

(** ** Database errors ([repository/repository.go], [errors.go], [conflict.go]) *)

Definition WrapDatabaseError (e : Err) : Err :=
  match cause_of e with
  | ECanceled => e
  | EDriver s => EDatabase s
  | EDuplicateKey => EDatabase "duplicate key"
  | _ => EDatabase "database error"
  end.

Definition isDuplicateKeyError (e : Err) : bool := bool_decide (cause_of e = EDuplicateKey).

Definition classifyKeyWriteError (resource : string) (e : Err) : Err :=
  if isDuplicateKeyError e then EKeyConflict resource else WrapDatabaseError e.

Definition wrapped {A} : M A → M A := handle WrapDatabaseError.

(** [if affected == 0 { return Unchanged(resource) }] *)
Definition must_affect (resource : string) (n : Z) : M unit :=
  if n =? 0 then throw (ENoRowsAffected resource) else mret tt.

(** [if !found { return Missing(resource) }] *)
Definition must_find {A} (resource : string) (r : option A) : M A :=
  match r with Some a => mret a | None => throw (ENotFound resource) end.

Definition when_err (b : bool) (e : Err) : M unit := if b then throw e else mret tt.
Definition unless_m (b : bool) (m : M unit) : M unit := if b then mret tt else m.

Fixpoint each_m {A} (f : A → M unit) (l : list A) : M unit :=
  match l with [] => mret tt | x :: l => f x;; each_m f l end.

Fixpoint collect_m {A B} (f : A → M B) (l : list A) : M (list B) :=
  match l with
  | [] => mret []
  | x :: l => y ← f x; ys ← collect_m f l; mret (y :: ys)
  end.

End world.
