(* ===== verification/WorldLaws.v ===== *)
(** Reasoning about runs of the monad: inversion of successful runs, functions
    that leave the database and the cache alone, and the transaction law.  Then
    statements as maps of rows: what a successful statement makes of a table. *)

From stdpp Require Import sorting.
From S2P Require Import Prelude GoStd GoStrings Engine Model Cache World.

Local Open Scope Z_scope.

Section laws.
Context `{Engine} `{Collation} `{Store}.

(** ** Successful runs *)

Lemma run_bind {A B} (m : M A) (k : A → M B) w b w' :
  (m ≫= k) w = (Ok b, w') ↔ ∃ a w1, m w = (Ok a, w1) ∧ k a w1 = (Ok b, w').
Proof.
  unfold mbind, M_bind. destruct (m w) as [[a|e] w1]; naive_solver.
Qed.

Lemma run_ret {A} (a b : A) w w' : mret (M := M) a w = (Ok b, w') ↔ a = b ∧ w = w'.
Proof. unfold mret, M_ret. naive_solver. Qed.

Lemma run_throw {A} e (a : A) w w' : throw e w = (Ok a, w') ↔ False.
Proof. unfold throw. naive_solver. Qed.

Lemma run_lift {A} (r : result A) a w w' : lift r w = (Ok a, w') ↔ r = Ok a ∧ w = w'.
Proof. unfold lift. naive_solver. Qed.

Lemma run_handle {A} h (m : M A) a w w' :
  handle h m w = (Ok a, w') ↔ m w = (Ok a, w').
Proof. unfold handle. destruct (m w) as [[]]; naive_solver. Qed.

Lemma run_must_affect res n u w w' :
  must_affect res n w = (Ok u, w') ↔ n ≠ 0 ∧ w = w'.
Proof.
  unfold must_affect. destruct (Z.eqb_spec n 0); rewrite ?run_throw, ?run_ret;
    destruct u; naive_solver.
Qed.

Lemma run_must_find {A} res (r : option A) a w w' :
  must_find res r w = (Ok a, w') ↔ r = Some a ∧ w = w'.
Proof. destruct r; simpl; rewrite ?run_throw, ?run_ret; naive_solver. Qed.

Lemma run_when_err b e u w w' : when_err b e w = (Ok u, w') ↔ b = false ∧ w = w'.
Proof. destruct b, u; simpl; rewrite ?run_throw, ?run_ret; naive_solver. Qed.

(** The parts of the world the code's results depend on. *)
Definition same_store (w w' : World) : Prop := db w' = db w ∧ cache w' = cache w.

Lemma same_store_refl w : same_store w w.
Proof. done. Qed.
Lemma same_store_trans a b c : same_store a b → same_store b c → same_store a c.
Proof. intros [??] [??]. split; congruence. Qed.

Lemma next_fault_store w f w' : next_fault w = (f, w') → same_store w w'.
Proof. unfold next_fault. destruct (faults w); intros [= <- <-]; done. Qed.

Lemma run_now t w w' : now w = (Ok t, w') → t = clock w (ticks w) ∧ same_store w w'.
Proof. intros [= <- <-]. done. Qed.

Lemma run_random t w w' : random w = (Ok t, w') → same_store w w'.
Proof. intros [= <- <-]. done. Qed.

Lemma run_statement {A} (f : DB → result A * DB) a w w' :
  statement f w = (Ok a, w') →
  ∃ d, f (db w) = (Ok a, d) ∧ db w' = d ∧ cache w' = cache w.
Proof.
  unfold statement. destruct (next_fault w) as [fault w1] eqn:Hf.
  apply next_fault_store in Hf as [Hdb Hc]. rewrite Hdb.
  destruct (f (db w)) as [r d]. destruct fault; intros [= -> <-]; naive_solver.
Qed.

Lemma statement_cache {A} (f : DB → result A * DB) w r w' :
  statement f w = (r, w') → cache w' = cache w.
Proof.
  unfold statement. destruct (next_fault w) as [fault w1] eqn:Hf.
  apply next_fault_store in Hf as [_ Hc].
  destruct (f (db w1)) as [r1 d]. destruct fault as [[e []]|]; intros [= <- <-]; done.
Qed.

Lemma run_query {A} (q : DB → A) a w w' :
  query q w = (Ok a, w') → a = q (db w) ∧ same_store w w'.
Proof. intros (d & [= -> <-] & ? & ?)%run_statement. done. Qed.

Lemma run_find {R} (q : DB → list R) l w w' :
  find q w = (Ok l, w') → l = q (db w) ∧ same_store w w'.
Proof. intros (d & [= -> <-] & ? & ?)%run_statement. done. Qed.

Lemma run_get {R} (q : DB → option R) r w w' :
  get q w = (Ok r, w') → r = q (db w) ∧ same_store w w'.
Proof. intros (d & [= -> <-] & ? & ?)%run_statement. done. Qed.

(** Without failures a statement answers, and a read changes nothing. *)
Lemma statement_no_faults {A} (f : DB → result A * DB) w :
  faults w = [] → statement f w = ((f (db w)).1, with_db (f (db w)).2 w).
Proof.
  intros Hf. unfold statement, next_fault. rewrite Hf. by destruct (f (db w)).
Qed.
Lemma query_no_faults {A} (q : DB → A) w : faults w = [] →
  query q w = (Ok (q (db w)), with_db (db w) w).
Proof. intros Hf. unfold query. by rewrite statement_no_faults. Qed.
Lemma query_ok {A} (q : DB → A) w : faults w = [] → query q w = (Ok (q (db w)), w).
Proof. intros Hf. rewrite query_no_faults by done. by destruct w. Qed.
Lemma wrapped_query_ok {A} (q : DB → A) w :
  faults w = [] → wrapped (query q) w = (Ok (q (db w)), w).
Proof. intros Hf. unfold wrapped, handle. by rewrite query_ok. Qed.

(** One step of a run. *)
Lemma goes_on {A B} (m : M A) (k : A → M B) w a w1 : m w = (Ok a, w1) → (m ≫= k) w = k a w1.
Proof. unfold mbind, M_bind. by intros ->. Qed.
Lemma stops {A B} (m : M A) (k : A → M B) w e w1 :
  m w = (Er e, w1) → (m ≫= k) w = (Er e, w1).
Proof. unfold mbind, M_bind. by intros ->. Qed.
Lemma attempted {A} (m : M A) w r w1 : m w = (r, w1) → attempt m w = (Ok r, w1).
Proof. unfold attempt. by intros ->. Qed.
Lemma unhandled {A} h (m : M A) w a w1 : m w = (Ok a, w1) → handle h m w = (Ok a, w1).
Proof. unfold handle. by intros ->. Qed.
Lemma TX_fails {A} (op : M A) w e w1 :
  faults w = [] → op w = (Er e, w1) → TX op w = (Er e, with_db (db w) w1).
Proof. intros Hf Ho. unfold TX, next_fault. by rewrite Hf, Ho. Qed.
Lemma TX_commits {A} (op : M A) w a w1 :
  faults w = [] → op w = (Ok a, w1) → faults w1 = [] → TX op w = (Ok a, w1).
Proof. intros Hf Ho Hf1. unfold TX, next_fault. by rewrite Hf, Ho, Hf1. Qed.

Lemma run_update {R} `{Row R} (T : Field_of R) p f n w w' :
  exec_update T p f w = (Ok n, w') →
  ∃ t, update (p (db w)) f (get_table T (db w)) = Some (n, t) ∧
    db w' = put_table T t (db w) ∧ cache w' = cache w.
Proof.
  intros (d & Hd & ? & ?)%run_statement. destruct (update _ _ _) as [[n' t]|]; [|done].
  injection Hd as -> <-. eauto.
Qed.

Lemma run_insert {R} `{Row R} (T : Field_of R) r k w w' :
  exec_insert T r w = (Ok k, w') →
  ∃ t, insert r (get_table T (db w)) = Some (k, t) ∧
    db w' = put_table T t (db w) ∧ cache w' = cache w.
Proof.
  intros (d & Hd & ? & ?)%run_statement. destruct (insert _ _) as [[k' t]|]; [|done].
  injection Hd as -> <-. eauto.
Qed.

Lemma run_delete {R} `{Row R} (T : Field_of R) p n w w' :
  exec_delete T p w = (Ok n, w') →
  ∃ t, remove (p (db w)) (get_table T (db w)) = (n, t) ∧
    db w' = put_table T t (db w) ∧ cache w' = cache w.
Proof.
  intros (d & Hd & ? & ?)%run_statement. destruct (remove _ _) as [n' t].
  injection Hd as -> <-. eauto.
Qed.

(** ** Functions that leave the database and the cache alone, in every
    outcome *)

Definition quiet {A} (m : M A) : Prop := ∀ w r w', m w = (r, w') → same_store w w'.

Lemma quiet_run {A} (m : M A) w r w' : quiet m → m w = (r, w') → same_store w w'.
Proof. intros Hm. apply Hm. Qed.

Lemma quiet_ret {A} (a : A) : quiet (mret a).
Proof. intros w r w' [= <- <-]. done. Qed.
Lemma quiet_throw {A} e : quiet (A := A) (throw e).
Proof. intros w r w' [= <- <-]. done. Qed.
Lemma quiet_lift {A} (x : result A) : quiet (lift x).
Proof. intros w r w' [= <- <-]. done. Qed.
Lemma quiet_bind {A B} (m : M A) (k : A → M B) :
  quiet m → (∀ a, quiet (k a)) → quiet (m ≫= k).
Proof.
  intros Hm Hk w r w'. unfold mbind, M_bind. destruct (m w) as [[a|e] w1] eqn:E.
  - intros Hr. eapply same_store_trans; [by eapply Hm|by eapply Hk].
  - intros [= <- <-]. by eapply Hm.
Qed.
Lemma quiet_handle {A} h (m : M A) : quiet m → quiet (handle h m).
Proof.
  intros Hm w r w'. unfold handle. destruct (m w) as [[a|e] w1] eqn:E;
    intros [= <- <-]; by eapply Hm.
Qed.
Lemma quiet_attempt {A} (m : M A) : quiet m → quiet (attempt m).
Proof.
  intros Hm w r w'. unfold attempt. destruct (m w) as [x w1] eqn:E.
  intros [= <- <-]. by eapply Hm.
Qed.
Lemma quiet_now : quiet now.
Proof. intros w r w' [= <- <-]. done. Qed.
Lemma quiet_random : quiet random.
Proof. intros w r w' [= <- <-]. done. Qed.
Lemma quiet_query {A} (f : DB → A) : quiet (query f).
Proof.
  intros w r w'. unfold query, statement. destruct (next_fault w) as [fault w1] eqn:Hf.
  apply next_fault_store in Hf as [? ?].
  destruct fault as [[e []]|]; intros [= <- <-]; split; simpl; congruence.
Qed.
Lemma quiet_find {R} (q : DB → list R) : quiet (find q).
Proof. apply quiet_query. Qed.
Lemma quiet_get {R} (q : DB → option R) : quiet (get q).
Proof. apply quiet_query. Qed.
Lemma quiet_must_find {A} res (r : option A) : quiet (must_find res r).
Proof. destruct r; [apply quiet_ret|apply quiet_throw]. Qed.
Lemma quiet_must_affect res n : quiet (must_affect res n).
Proof. unfold must_affect. destruct (n =? 0); [apply quiet_throw|apply quiet_ret]. Qed.
Lemma quiet_when_err b e : quiet (when_err b e).
Proof. destruct b; [apply quiet_throw|apply quiet_ret]. Qed.
Lemma quiet_unless b m : quiet m → quiet (unless_m b m).
Proof. destruct b; [intros _; apply quiet_ret|done]. Qed.
Lemma quiet_each {A} (f : A → M unit) l : (∀ x, quiet (f x)) → quiet (each_m f l).
Proof.
  intros Hf. induction l as [|x l IH]; [apply quiet_ret|]. by apply quiet_bind.
Qed.
Lemma quiet_collect {A B} (f : A → M B) l : (∀ x, quiet (f x)) → quiet (collect_m f l).
Proof.
  intros Hf. induction l as [|x l IH]; [apply quiet_ret|].
  apply quiet_bind; [done|]. intros y. apply quiet_bind; [done|]. intros ys. apply quiet_ret.
Qed.
End laws.

Create HintDb quiet.
#[export] Hint Resolve quiet_ret quiet_throw quiet_lift quiet_bind quiet_handle
  quiet_attempt quiet_now quiet_random quiet_query quiet_find quiet_get quiet_must_find
  quiet_must_affect quiet_when_err quiet_unless quiet_each quiet_collect : quiet.

(** Prove that a composed function is quiet: go through binds and the case
    distinctions of the code. *)
Ltac quiet :=
  intros; try (unfold wrapped);
  repeat first
    [ solve [auto with quiet]
    | apply quiet_bind; [|intros ?]
    | apply quiet_handle | apply quiet_attempt
    | apply quiet_each; intros ? | apply quiet_collect; intros ?
    | match goal with
      | |- quiet (if ?b then _ else _) => destruct b
      | |- quiet (match ?x with _ => _ end) => destruct x
      | |- quiet (let _ := _ in _) => cbv zeta
      end ].

(** Take a successful run apart. *)
Ltac inv_run :=
  repeat match goal with
  | H : (_ ≫= _) _ = (Ok _, _) |- _ =>
      apply run_bind in H; destruct H as (? & ? & ? & H)
  | H : mret _ _ = (Ok _, _) |- _ => apply run_ret in H; destruct H; subst
  | H : throw _ _ = (Ok _, _) |- _ => apply run_throw in H; destruct H
  | H : lift _ _ = (Ok _, _) |- _ => apply run_lift in H; destruct H; subst
  | H : handle _ _ _ = (Ok _, _) |- _ => apply run_handle in H
  | H : wrapped _ _ = (Ok _, _) |- _ => apply run_handle in H
  | H : must_affect _ _ _ = (Ok _, _) |- _ => apply run_must_affect in H; destruct H; subst
  | H : must_find _ _ _ = (Ok _, _) |- _ => apply run_must_find in H; destruct H; subst
  | H : when_err _ _ _ = (Ok _, _) |- _ => apply run_when_err in H; destruct H; subst
  end.

(** ** Transactions *)

Section tx.
Context `{Engine} `{Collation} `{Store}.

Lemma TX_Ok {A} (op : M A) w a w' : TX op w = (Ok a, w') →
  ∃ w0 w1, same_store w w0 ∧ op w0 = (Ok a, w1) ∧ same_store w1 w'.
Proof.
  unfold TX. destruct (next_fault w) as [[x|] w0] eqn:Hf; [done|].
  apply next_fault_store in Hf. destruct (op w0) as [[b|e] w1] eqn:Hop; [|done].
  destruct (next_fault w1) as [[x|] w2] eqn:Hf2; [done|].
  apply next_fault_store in Hf2. intros [= -> <-]. eauto 10.
Qed.

(** A transaction that reports an error has changed nothing, or is the complete
    operation whose commit answer was lost. *)
Lemma TX_Er {A} (op : M A) w e w' : TX op w = (Er e, w') →
  db w' = db w ∨
  ∃ a w0 w1, same_store w w0 ∧ op w0 = (Ok a, w1) ∧ same_store w1 w'.
Proof.
  unfold TX. destruct (next_fault w) as [[x|] w0] eqn:Hf.
  { apply next_fault_store in Hf as [? _]. intros [= <- <-]. by left. }
  apply next_fault_store in Hf. destruct (op w0) as [[b|e'] w1] eqn:Hop.
  2:{ intros [= <- <-]. by left. }
  destruct (next_fault w1) as [[x|] w2] eqn:Hf2; [|done].
  apply next_fault_store in Hf2. destruct (applied x); intros [= <- <-]; [|by left].
  right. eauto 10.
Qed.

(** A property of the database that every successful run of the operation
    keeps is kept by the transaction, whatever fails. *)
Lemma TX_keeps {A} (I : DB → Prop) (op : M A) :
  (∀ w a w', I (db w) → op w = (Ok a, w') → I (db w')) →
  ∀ w r w', I (db w) → TX op w = (r, w') → I (db w').
Proof.
  intros Hop w [a|e] w' HI Hr.
  - apply TX_Ok in Hr as (w0 & w1 & [Hd0 _] & Hrun & [Hd1 _]). rewrite Hd1.
    eapply Hop; [|done]. by rewrite Hd0.
  - apply TX_Er in Hr as [->|(a & w0 & w1 & [Hd0 _] & Hrun & [Hd1 _])]; [done|].
    rewrite Hd1. eapply Hop; [|done]. by rewrite Hd0.
Qed.

(** Functions that do not use the cache. *)
Definition cacheless {A} (m : M A) : Prop := ∀ w r w', m w = (r, w') → cache w' = cache w.

Lemma cacheless_quiet {A} (m : M A) : quiet m → cacheless m.
Proof. intros Hm w r w' Hr. by destruct (Hm _ _ _ Hr). Qed.
Lemma cacheless_bind {A B} (m : M A) (k : A → M B) :
  cacheless m → (∀ a, cacheless (k a)) → cacheless (m ≫= k).
Proof.
  intros Hm Hk w r w'. unfold mbind, M_bind. destruct (m w) as [[a|e] w1] eqn:E.
  - intros Hr. rewrite (Hk _ _ _ _ Hr). by eapply Hm.
  - intros [= <- <-]. by eapply Hm.
Qed.
Lemma cacheless_handle {A} h (m : M A) : cacheless m → cacheless (handle h m).
Proof.
  intros Hm w r w'. unfold handle. destruct (m w) as [[a|e] w1] eqn:E;
    intros [= <- <-]; by eapply Hm.
Qed.
Lemma cacheless_attempt {A} (m : M A) : cacheless m → cacheless (attempt m).
Proof.
  intros Hm w r w'. unfold attempt. destruct (m w) as [x w1] eqn:E.
  intros [= <- <-]. by eapply Hm.
Qed.
Lemma cacheless_statement {A} (f : DB → result A * DB) : cacheless (statement f).
Proof. intros w r w'. apply statement_cache. Qed.
Lemma cacheless_update {R} `{Row R} (T : Field_of R) p f : cacheless (exec_update T p f).
Proof. apply cacheless_statement. Qed.
Lemma cacheless_insert {R} `{Row R} (T : Field_of R) r : cacheless (exec_insert T r).
Proof. apply cacheless_statement. Qed.
Lemma cacheless_delete {R} `{Row R} (T : Field_of R) p : cacheless (exec_delete T p).
Proof. apply cacheless_statement. Qed.
Lemma cacheless_each {A} (f : A → M unit) l :
  (∀ x, cacheless (f x)) → cacheless (each_m f l).
Proof.
  intros Hf. induction l as [|x l IH]; [apply cacheless_quiet, quiet_ret|].
  by apply cacheless_bind.
Qed.
Lemma cacheless_collect {A B} (f : A → M B) l :
  (∀ x, cacheless (f x)) → cacheless (collect_m f l).
Proof.
  intros Hf. induction l as [|x l IH]; [apply cacheless_quiet, quiet_ret|].
  apply cacheless_bind; [done|]. intros y. apply cacheless_bind; [done|].
  intros ys. apply cacheless_quiet, quiet_ret.
Qed.
Lemma cacheless_TX {A} (op : M A) : cacheless op → cacheless (TX op).
Proof.
  intros Hop w r w'. unfold TX. destruct (next_fault w) as [[x|] w0] eqn:Hf;
    apply next_fault_store in Hf as [_ Hc0]; [by intros [= <- <-]|].
  destruct (op w0) as [[b|e'] w1] eqn:Hr; pose proof (Hop _ _ _ Hr) as Hc1;
    [|intros [= <- <-]; simpl; congruence].
  destruct (next_fault w1) as [[x|] w2] eqn:Hf2; apply next_fault_store in Hf2 as [_ Hc2];
    [|intros [= <- <-]; congruence].
  destruct (applied x); intros [= <- <-]; simpl; congruence.
Qed.
End tx.

Create HintDb cacheless.
#[export] Hint Resolve cacheless_bind cacheless_handle cacheless_attempt
  cacheless_update cacheless_insert cacheless_delete cacheless_each cacheless_TX : cacheless.
#[export] Hint Extern 5 (cacheless _) => apply cacheless_quiet; solve [auto with quiet] : cacheless.

Ltac cacheless :=
  intros; try (unfold wrapped);
  repeat first
    [ solve [auto with cacheless quiet]
    | apply cacheless_bind; [|intros ?]
    | apply cacheless_handle | apply cacheless_attempt | apply cacheless_TX
    | apply cacheless_each; intros ? | apply cacheless_collect; intros ?
    | match goal with
      | |- cacheless (if ?b then _ else _) => destruct b
      | |- cacheless (match ?x with _ => _ end) => destruct x
      | |- cacheless (let _ := _ in _) => cbv zeta
      end ].

(** Updates never assign the primary key. *)
Definition keeps_id {R} `{Row R} (f : R → R) : Prop := ∀ r, row_id (f r) = row_id r.

Section laws.
Context {E : Engine} {EL : EngineLaws E} `{Collation} `{Store}.

(** A query returns no row twice. *)
Lemma select_NoDup {R} `{Row R} (p : R → bool) (t : table R) : NoDup (select p t).
Proof.
  pose proof (select_sorted p t) as Hs.
  induction (select p t) as [|a l IH]; [constructor|].
  apply StronglySorted_inv in Hs as [Hs Ha]. constructor; [|by apply IH].
  intros Hin. rewrite Forall_forall in Ha. specialize (Ha a Hin). lia.
Qed.

Lemma select_ext {R} `{Row R} (p q : R → bool) (t : table R) :
  (∀ r, p r = q r) → select p t = select q t.
Proof.
  intros Hpq. assert (AntiSymm (=) (λ a b : R, row_id a < row_id b)) by (intros a b ??; lia).
  eapply (StronglySorted_unique (λ a b : R, row_id a < row_id b)); [apply select_sorted..|].
  apply NoDup_Permutation; [apply select_NoDup..|]. intros r. by rewrite !select_spec, Hpq.
Qed.

Lemma update_rows {R} `{Row R} (T : Field_of R) p f n w w' : keeps_id f →
  exec_update T p f w = (Ok n, w') → ∃ t,
    rows t = (λ r, if p (db w) r then f r else r) <$> rows (get_table T (db w)) ∧
    n = Z.of_nat (length (select (p (db w)) (get_table T (db w)))) ∧
    db w' = put_table T t (db w) ∧ cache w' = cache w.
Proof.
  intros Hf (t & Ht & Hdb & Hc)%run_update.
  apply update_Some in Ht as [Hn Hr]; [|done]. by exists t.
Qed.

(** Without failures, an update that breaks no unique constraint takes effect. *)
Lemma update_runs {R} `{Row R} (T : Field_of R) (p : DB → R → bool) (f : R → R) w : faults w = [] →
  (∀ k1 k2 r1 r2, k1 ≠ k2 → rows (get_table T (db w)) !! k1 = Some r1 →
     rows (get_table T (db w)) !! k2 = Some r2 →
     clash (if p (db w) r1 then f r1 else r1) (if p (db w) r2 then f r2 else r2) = false) →
  ∃ n w', exec_update T p f w = (Ok n, w') ∧ faults w' = [] ∧
    clock w' = clock w ∧ ticks w' = ticks w.
Proof.
  intros Hf Hu. unfold exec_update. rewrite statement_no_faults by done.
  destruct (update (p (db w)) f (get_table T (db w))) as [[n t]|] eqn:Hn.
  { exists n. eexists. split; [done|]. done. }
  apply update_None in Hn as (k1 & k2 & r1 & r2 & Hne & Ha & Hb & Hc).
  by rewrite (Hu _ _ _ _ Hne Ha Hb) in Hc.
Qed.

(** An affected row. *)
Lemma selected_row {R} `{Row R} (p : R → bool) (t : table R) :
  Z.of_nat (length (select p t)) ≠ 0 → ∃ r, rows t !! row_id r = Some r ∧ p r = true.
Proof.
  intros Hn. destruct (select p t) as [|r l] eqn:Hs; [done|]. exists r.
  apply select_spec. rewrite Hs. by left.
Qed.

Lemma insert_rows {R} `{Row R} (T : Field_of R) r k w w' :
  exec_insert T r w = (Ok k, w') → ∃ t,
    0 < k ∧ rows (get_table T (db w)) !! k = None ∧
    rows t = <[k := with_id k r]> (rows (get_table T (db w))) ∧
    db w' = put_table T t (db w) ∧ cache w' = cache w.
Proof.
  intros (t & Ht & Hdb & Hc)%run_insert.
  apply insert_Some in Ht as (Hk & Hn & Hr & _). by exists t.
Qed.

(** ** Functions that do not write the database, in every outcome *)

Definition reads {A} (m : M A) : Prop := ∀ w r w', m w = (r, w') → db w' = db w.

Lemma reads_run {A} (m : M A) w r w' : reads m → m w = (r, w') → db w' = db w.
Proof. intros Hm. apply Hm. Qed.
Lemma reads_quiet {A} (m : M A) : quiet m → reads m.
Proof. intros Hm w r w' Hr. by destruct (Hm _ _ _ Hr). Qed.
Lemma reads_bind {A B} (m : M A) (k : A → M B) :
  reads m → (∀ a, reads (k a)) → reads (m ≫= k).
Proof.
  intros Hm Hk w r w'. unfold mbind, M_bind. destruct (m w) as [[a|e] w1] eqn:Hr.
  - intros Hk'. rewrite (Hk _ _ _ _ Hk'). by eapply Hm.
  - intros [= <- <-]. by eapply Hm.
Qed.
Lemma reads_handle {A} h (m : M A) : reads m → reads (handle h m).
Proof.
  intros Hm w r w'. unfold handle. destruct (m w) as [[a|e] w1] eqn:Hr;
    intros [= <- <-]; by eapply Hm.
Qed.
Lemma reads_attempt {A} (m : M A) : reads m → reads (attempt m).
Proof.
  intros Hm w r w'. unfold attempt. destruct (m w) as [x w1] eqn:Hr.
  intros [= <- <-]. by eapply Hm.
Qed.
Lemma reads_cache_get k : reads (cache_get k).
Proof. intros w r w'. unfold cache_get. destruct (Get _ _ _). by intros [= <- <-]. Qed.
Lemma reads_cache_set k v ttl : reads (cache_set k v ttl).
Proof. intros w r w'. unfold cache_set. destruct (Set_ _ _ _ _ _). by intros [= <- <-]. Qed.
Lemma reads_cache_delete k : reads (cache_delete k).
Proof. intros w r w'. unfold cache_delete. destruct (Delete _ _). by intros [= <- <-]. Qed.

(** ** Functions whose successful runs move the database along a relation *)

Section steps.
Context (P : DB → DB → Prop) `{!Reflexive P, !Transitive P}.

Definition steps {A} (m : M A) : Prop :=
  ∀ w a w', m w = (Ok a, w') → P (db w) (db w').

Lemma steps_reads {A} (m : M A) : reads m → steps m.
Proof. intros Hm w a w' ->%Hm. done. Qed.
Lemma steps_quiet {A} (m : M A) : quiet m → steps m.
Proof. intros Hm. by apply steps_reads, reads_quiet. Qed.
Lemma steps_bind {A B} (m : M A) (k : A → M B) :
  steps m → (∀ a, steps (k a)) → steps (m ≫= k).
Proof.
  intros Hm Hk w b w' (a & w1 & Ha & Hb)%run_bind. etrans; [by eapply Hm|by eapply Hk].
Qed.
Lemma steps_handle {A} h (m : M A) : steps m → steps (handle h m).
Proof. intros Hm w a w' Hr%run_handle. by eapply Hm. Qed.
Lemma steps_each {A} (f : A → M unit) l : (∀ x, steps (f x)) → steps (each_m f l).
Proof.
  intros Hf. induction l as [|x l IH]; [apply steps_quiet, quiet_ret|].
  by apply steps_bind.
Qed.
Lemma steps_collect {A B} (f : A → M B) l : (∀ x, steps (f x)) → steps (collect_m f l).
Proof.
  intros Hf. induction l as [|x l IH]; [apply steps_quiet, quiet_ret|].
  apply steps_bind; [done|]. intros y. apply steps_bind; [done|].
  intros ys. apply steps_quiet, quiet_ret.
Qed.
Lemma steps_update {R} `{Row R} (T : Field_of R) p f :
  (∀ t d, P d (put_table T t d)) → steps (exec_update T p f).
Proof. intros HT w n w' (t & _ & -> & _)%run_update. apply HT. Qed.
Lemma steps_insert {R} `{Row R} (T : Field_of R) r :
  (∀ t d, P d (put_table T t d)) → steps (exec_insert T r).
Proof. intros HT w n w' (t & _ & -> & _)%run_insert. apply HT. Qed.
Lemma steps_delete {R} `{Row R} (T : Field_of R) p :
  (∀ t d, P d (put_table T t d)) → steps (exec_delete T p).
Proof. intros HT w n w' (t & _ & -> & _)%run_delete. apply HT. Qed.
End steps.

(** A transaction of such an operation is one such step in every outcome. *)
Lemma TX_steps (P : DB → DB → Prop) `{!Reflexive P} {A} (op : M A) w r w' :
  steps P op → TX op w = (r, w') → P (db w) (db w').
Proof.
  intros Hop. destruct r as [a|e].
  - intros (w0 & w1 & [<- _] & Hr & [-> _])%TX_Ok. by eapply Hop.
  - intros [->|(a & w0 & w1 & [<- _] & Hr & [-> _])]%TX_Er; [done|by eapply Hop].
Qed.
Lemma reads_TX {A} (op : M A) : reads op → reads (TX op).
Proof.
  intros Hop w r w' Hr. symmetry. eapply (TX_steps eq); [|exact Hr].
  intros v a v' Hv. symmetry. by eapply Hop.
Qed.
End laws.

Create HintDb reads.
#[export] Hint Resolve reads_TX reads_bind reads_handle reads_attempt reads_cache_get
  reads_cache_set reads_cache_delete : reads.
#[export] Hint Extern 5 (reads _) => apply reads_quiet; solve [auto with quiet] : reads.

Ltac reads :=
  intros; try (unfold wrapped);
  repeat first
    [ solve [auto with reads quiet]
    | apply reads_bind; [|intros ?]
    | apply reads_handle | apply reads_attempt
    | match goal with
      | |- reads (if ?b then _ else _) => destruct b
      | |- reads (match ?x with _ => _ end) => destruct x
      | |- reads (let _ := _ in _) => cbv zeta
      end ].

Create HintDb steps.
#[export] Hint Extern 5 (steps _ _) => apply steps_reads; [typeclasses eauto|solve [auto with reads quiet]] : steps.

Ltac steps :=
  intros; try (unfold wrapped);
  repeat first
    [ solve [auto with steps quiet reads]
    | apply steps_bind; [typeclasses eauto| |intros ?]
    | apply steps_handle
    | apply steps_each; [typeclasses eauto..|intros ?]
    | apply steps_collect; [typeclasses eauto..|intros ?]
    | apply steps_update | apply steps_insert | apply steps_delete
    | match goal with
      | |- steps _ (if ?b then _ else _) => destruct b
      | |- steps _ (match ?x with _ => _ end) => destruct x
      | |- steps _ (let _ := _ in _) => cbv zeta
      end ].
