(* ===== verification/RepoScope.v ===== *)
(** [server/internal/repository]: scope.go, page.go, audit_log.go and
    permission.go.  A scope is the join that ties a row to a live project and a
    live environment of it. *)

From S2P Require Import Prelude GoStd GoStrings Engine Model Cache World WorldLaws.

Local Open Scope Z_scope.

(** ** page.go *)

Definition DefaultPageSize : Z := 20.
Definition MaxPageSize : Z := 100.

Record PageRequest := { Offset : Z; Limit : Z }.
Record PageResult (T : Type) := {
  Items : list T;
  Total : Z;
  p_Offset : Z;
  p_Limit : Z;
}.
Arguments Build_PageResult {T}.
Arguments Items {T}.
Arguments Total {T}.
Arguments p_Offset {T}.
Arguments p_Limit {T}.

Definition NormalizePage (page : PageRequest) : PageRequest :=
  let page := if Offset page <? 0 then {| Offset := 0; Limit := Limit page |} else page in
  let page := if Limit page <=? 0
              then {| Offset := Offset page; Limit := DefaultPageSize |} else page in
  if MaxPageSize <? Limit page
  then {| Offset := Offset page; Limit := MaxPageSize |} else page.

Section scope.
Context `{Engine} `{Collation} `{Store}.

(** ** scope.go *)

(** [INNER JOIN projects p ... AND p.deleted_at IS NULL] *)
Definition project_live (d : DB) (projectID : Z) : bool :=
  negb (bool_decide (select (λ p, (ID (prj_meta p) =? projectID) && live (prj_meta p))
    (projects d) = [])).

(** [INNER JOIN environments e ON e.project_id = p.id AND e.deleted_at IS NULL]
    with [e.id = environmentID] *)
Definition environment_of (d : DB) (environmentID projectID : Z) : bool :=
  negb (bool_decide (select (λ e, (ID (env_meta e) =? environmentID)
      && (env_ProjectID e =? projectID) && live (env_meta e)) (environments d) = [])).

Definition project_in_scope (d : DB) (environmentID : Z) (p : ProjectRow) : bool :=
  live (prj_meta p) && environment_of d environmentID (ID (prj_meta p)).

Definition config_in_scope (d : DB) (environmentID : Z) (c : ConfigRow) : bool :=
  live (cfg_meta c) && project_live d (cfg_ProjectID c)
  && environment_of d environmentID (cfg_ProjectID c).

(** [INNER JOIN configs c ON c.id = config_id AND c.deleted_at IS NULL] and the
    joins of its scope *)
Definition config_joined (d : DB) (environmentID configID : Z) : bool :=
  negb (bool_decide (select (λ c, (ID (cfg_meta c) =? configID)
    && config_in_scope d environmentID c) (configs d) = [])).

Definition structure_in_scope_deleted (d : DB) (environmentID : Z) (s : StructureRow) : bool :=
  config_joined d environmentID (str_ConfigID s).
Definition structure_in_scope (d : DB) (environmentID : Z) (s : StructureRow) : bool :=
  structure_in_scope_deleted d environmentID s && live (str_meta s).

Definition enum_in_scope_deleted (d : DB) (environmentID : Z) (e : EnumRow) : bool :=
  config_joined d environmentID (enm_ConfigID e).
Definition enum_in_scope (d : DB) (environmentID : Z) (e : EnumRow) : bool :=
  enum_in_scope_deleted d environmentID e && live (enm_meta e).

Definition snapshot_in_scope (d : DB) (environmentID : Z) (s : SnapshotRow) : bool :=
  negb (bool_decide (select (λ c, (ID (cfg_meta c) =? snp_ConfigID s)
    && (cfg_ProjectID c =? snp_ProjectID s) && live (cfg_meta c)) (configs d) = []))
  && project_live d (snp_ProjectID s) && environment_of d environmentID (snp_ProjectID s)
  && live (snp_meta s).

Definition key_in_scope (d : DB) (environmentID : Z) (k : ProjectAPIKeyRow) : bool :=
  project_live d (key_ProjectID k) && environment_of d environmentID (key_ProjectID k).

(** The queries of the scope builders. *)
Definition projectScope (environmentID : Z) (p : ProjectRow → bool) (d : DB) :=
  select (λ r, project_in_scope d environmentID r && p r) (projects d).
Definition configScope (environmentID : Z) (p : ConfigRow → bool) (d : DB) :=
  select (λ r, config_in_scope d environmentID r && p r) (configs d).
Definition structureScope (environmentID : Z) (p : StructureRow → bool) (d : DB) :=
  select (λ r, structure_in_scope d environmentID r && p r) (structures d).
Definition structureScopeIncludingDeleted (environmentID : Z) (p : StructureRow → bool)
    (d : DB) :=
  select (λ r, structure_in_scope_deleted d environmentID r && p r) (structures d).
Definition enumScope (environmentID : Z) (p : EnumRow → bool) (d : DB) :=
  select (λ r, enum_in_scope d environmentID r && p r) (config_enums d).
Definition enumScopeIncludingDeleted (environmentID : Z) (p : EnumRow → bool) (d : DB) :=
  select (λ r, enum_in_scope_deleted d environmentID r && p r) (config_enums d).
Definition snapshotScope (environmentID : Z) (p : SnapshotRow → bool) (d : DB) :=
  select (λ r, snapshot_in_scope d environmentID r && p r) (snapshots d).
Definition apiKeyScope (environmentID : Z) (p : ProjectAPIKeyRow → bool) (d : DB) :=
  select (λ r, key_in_scope d environmentID r && p r) (project_api_keys d).

Definition lockScopedProject (environmentID projectID : Z) : M unit :=
  r ← wrapped (get (λ d, head (projectScope environmentID
                                 (λ p, ID (prj_meta p) =? projectID) d)));
  must_find "project" r;; mret tt.

Definition lockScopedConfig (environmentID configID : Z) : M unit :=
  r ← wrapped (get (λ d, head (configScope environmentID
                                 (λ c, ID (cfg_meta c) =? configID) d)));
  must_find "config" r;; mret tt.

(** A condition on an optional filter: absent means no restriction. *)
Definition eqIf {T} (eq : T → T → bool) (column : T) (value : option T) : bool :=
  match value with None => true | Some v => eq column v end.
Definition neqIf {T} (eq : T → T → bool) (column : T) (value : option T) : bool :=
  match value with None => true | Some v => negb (eq column v) end.

(** A page of the rows of [query], in the query's order. *)
Definition paginate {R} (query : DB → list R) (page : PageRequest) : M (PageResult R) :=
  let page := NormalizePage page in
  total ← wrapped (World.query (λ d, Z.of_nat (length (query d))));
  if total =? 0
  then mret (Build_PageResult [] total (Offset page) (Limit page))
  else
    rows ← wrapped (find (λ d, take (Z.to_nat (Limit page))
                                 (drop (Z.to_nat (Offset page)) (query d))));
    mret (Build_PageResult rows total (Offset page) (Limit page)).

(** ** audit_log.go *)

Definition set_environment (environmentID : Z) (log : AuditLogRow) : AuditLogRow :=
  {| aud_meta := aud_meta log; aud_ActorUserID := aud_ActorUserID log;
     aud_EnvironmentID := Some environmentID; aud_Action := aud_Action log;
     aud_ResourceType := aud_ResourceType log; aud_ResourceID := aud_ResourceID log;
     aud_Result := aud_Result log; aud_RequestID := aud_RequestID log;
     aud_DetailsJSON := aud_DetailsJSON log |}.

Definition RecordSystem (log : AuditLogRow) : M unit :=
  t ← now;
  exec_insert audit_logs_t (map_aud_meta (PrepareRecord t) log);; mret tt.

Definition RecordForEnvironment (environmentID : Z) (log : AuditLogRow) : M unit :=
  RecordSystem (set_environment environmentID log).

(** ** permission.go *)

Record PermissionIdentity := {
  SystemAdmin : bool;
  EnvironmentID : Z;
  EnvironmentVersion : Z;
  EnvironmentEnabled : bool;
  EnvironmentMember : bool;
}.

Definition enabledUser (userID : Z) : M UserRow :=
  r ← wrapped (get (λ d, head (select (λ u, (ID (usr_meta u) =? userID)
        && usr_Enabled u && live (usr_meta u)) (users d))));
  must_find "permission identity" r.

Definition db_Identity (userID environmentID : Z) : M PermissionIdentity :=
  user ← enabledUser userID;
  if environmentID <=? 0
  then mret {| SystemAdmin := usr_IsSystemAdmin user; EnvironmentID := 0;
               EnvironmentVersion := 0; EnvironmentEnabled := false;
               EnvironmentMember := false |}
  else
    found ← wrapped (get (λ d, head (select (λ e, (ID (env_meta e) =? environmentID)
              && live (env_meta e)) (environments d))));
    member ← wrapped (find (λ d, select (λ a, (uer_UserID a =? userID)
              && (uer_EnvironmentID a =? environmentID)) (user_environment_roles d)));
    mret {| SystemAdmin := usr_IsSystemAdmin user;
            EnvironmentID := match found with Some e => ID (env_meta e) | None => 0 end;
            EnvironmentVersion := match found with Some e => Version (env_meta e) | None => 0 end;
            EnvironmentEnabled := match found with Some e => env_Enabled e | None => false end;
            EnvironmentMember := negb (bool_decide (member = [])) |}.

Definition db_SystemAdmin (userID : Z) : M bool :=
  user ← enabledUser userID; mret (usr_IsSystemAdmin user).

(** The keys granted through live roles, without duplicates. *)
Definition granted (d : DB) (userID environmentID : Z) (key : PermissionRow) : bool :=
  existsb (λ a,
    existsb (λ rp, (rpm_RoleID rp =? uer_RoleID a)
        && (rpm_PermissionID rp =? r_ID (prm_meta key))
        && negb (bool_decide (select (λ r, (ID (rol_meta r) =? rpm_RoleID rp)
              && live (rol_meta r)) (roles d) = [])))
      (select (λ _, true) (role_permissions d)))
    (select (λ a, (uer_UserID a =? userID) && (uer_EnvironmentID a =? environmentID))
      (user_environment_roles d)).

Definition db_KeysForUserEnvironment (userID environmentID : Z) : M (list string) :=
  wrapped (find (λ d, sort_strings (remove_dups (prm_Key <$>
    select (granted d userID environmentID) (permissions d))))).

Definition db_PermissionList : M (list PermissionRow) :=
  wrapped (find (λ d, select (λ _, true) (permissions d))).

End scope.

Lemma NormalizePage_bounds page :
  0 ≤ Offset (NormalizePage page) ∧ 1 ≤ Limit (NormalizePage page) ≤ MaxPageSize.
Proof.
  unfold NormalizePage, MaxPageSize, DefaultPageSize.
  repeat match goal with
  | |- context [if ?b then _ else _] => destruct b eqn:?
  end; bool_hyps; simpl in *; lia.
Qed.
