(* ===== verification/Permission.v ===== *)
(** [server/internal/permission]: permission keys, the resolver with its
    generation-keyed cache and bounded retries, and request identifiers. *)

From stdpp Require Import sorting.
From S2P Require Import Prelude GoStd GoStrings Json Schema Engine Model Cache World WorldLaws RepoScope.
From Stdlib Require Import Ascii.

Local Open Scope Z_scope.

Definition ProjectRead := "project:read".
Definition ProjectWrite := "project:write".
Definition ProjectAPIKeyRead := "project:api_key:read".
Definition ProjectAPIKeyManage := "project:api_key:manage".
Definition ConfigRead := "config:read".
Definition ConfigWrite := "config:write".
Definition StructureRead := "structure:read".
Definition StructureWrite := "structure:write".
Definition EnumRead := "enum:read".
Definition EnumWrite := "enum:write".
Definition SnapshotRead := "snapshot:read".
Definition SnapshotWrite := "snapshot:write".
Definition SnapshotPublish := "snapshot:publish".
Definition SnapshotExport := "snapshot:export".
Definition SnapshotImport := "snapshot:import".
Definition AssetWrite := "asset:write".
Definition EnvironmentMemberManage := "environment:member:manage".
Definition SystemUserManage := "system:user:manage".
Definition SystemRoleManage := "system:role:manage".
Definition SystemEnvironmentManage := "system:environment:manage".
Definition SystemProjectManage := "system:project:manage".

Definition cacheTTL : Z := 60 * 10 ^ 9.
Definition maxResolveRetry : nat := 3.

(** ** Permission sets *)

(** The loop of [normalize] over the sorted keys; [kept] is the written prefix
    of the slice, last key first. *)
Definition keep_key (kept : list string) (key : string) : list string :=
  if bool_decide (key = "") || bool_decide (head kept = Some key)
  then kept else key :: kept.

Definition normalize (keys : list string) : list string :=
  rev (fold_left keep_key (sort_strings keys) []).

Definition permissionContentKey (userID environmentID version : Z) : string :=
  "permission:user:" +:+ format_int userID +:+ ":environment:" +:+ format_int environmentID
  +:+ ":version:" +:+ format_int version.

Definition encodePermissions (keys : list string) : string :=
  marshal (JArray (JString <$> keys)).

(** [json.Unmarshal] into a [\[\]string]: a null element is the zero value. *)
Definition string_of_json (j : json) : option string :=
  match j with JString s => Some s | JNull => Some "" | _ => None end.
Definition decodePermissions (value : string) : option (list string) :=
  match decodeJSON value with
  | Some (JArray l) => normalize <$> mapM string_of_json l
  | Some JNull => Some []
  | _ => None
  end.

(** ** The resolver *)

Section resolver.
Context `{Engine} `{Collation} `{Store}.

(** The interface [source]. *)
Class Source := {
  Identity : Z → Z → M PermissionIdentity;
  IsSystemAdmin : Z → M bool;
  KeysForUserEnvironment : Z → Z → M (list string);
  List : M (list string);
}.

(** [repositorySource] *)
#[global] Instance repositorySource : Source := {|
  Identity := db_Identity;
  IsSystemAdmin := db_SystemAdmin;
  KeysForUserEnvironment := db_KeysForUserEnvironment;
  List := items ← db_PermissionList; mret (prm_Key <$> items);
|}.

Section source.
Context `{Source}.

Definition identity (userID environmentID : Z) : M PermissionIdentity :=
  i ← handle (λ e, if is_NotFound e then EForbidden else e) (Identity userID environmentID);
  if EnvironmentID i =? 0
  then throw (if SystemAdmin i then EEnvironmentNotFound else EForbidden)
  else if negb (SystemAdmin i) && (negb (EnvironmentEnabled i) || negb (EnvironmentMember i))
  then throw EForbidden
  else if EnvironmentVersion i <? 0
  then throw (EOther "invalid environment permission version")
  else mret i.

Definition allPermissionKeys : M (list string) :=
  keys ← List; mret (normalize keys).

(** A failed read of the cache is logged and treated as a miss. *)
Definition cachedPermissions (key : string) : M (option (list string)) :=
  r ← attempt (cache_get key);
  mret (match r with
        | Ok encoded => decodePermissions encoded
        | Er _ => None
        end).

Definition cachePermissions (key : string) (keys : list string) : M unit :=
  attempt (cache_set key (encodePermissions keys) cacheTTL);; mret tt.

Definition loadPermissions (userID environmentID : Z) (key : string) :
    M (list string * bool) :=
  cached ← cachedPermissions key;
  match cached with
  | Some keys => mret (keys, true)
  | None =>
      keys ← KeysForUserEnvironment userID environmentID;
      mret (normalize keys, false)
  end.

Definition resolveAttempt (userID environmentID : Z) : M (list string * bool) :=
  first ← identity userID environmentID;
  if SystemAdmin first then keys ← allPermissionKeys; mret (keys, true)
  else
    let contentKey := permissionContentKey userID environmentID (EnvironmentVersion first) in
    '(keys, cached) ← loadPermissions userID environmentID contentKey;
    confirmed ← identity userID environmentID;
    if SystemAdmin confirmed then keys ← allPermissionKeys; mret (keys, true)
    else if negb (EnvironmentVersion confirmed =? EnvironmentVersion first)
    then throw EConcurrentChange
    else
      (if cached : bool then mret tt else cachePermissions contentKey keys);;
      mret (keys, false).

Fixpoint resolve_from (attempts : nat) (userID environmentID : Z) :
    M (list string * bool) :=
  match attempts with
  | O => throw EConcurrentChange
  | S attempts =>
      r ← attempt (resolveAttempt userID environmentID);
      match r with
      | Er e => if is_ConcurrentChange e then resolve_from attempts userID environmentID
                else throw e
      | Ok x => mret x
      end
  end.
Definition Resolve := resolve_from maxResolveRetry.

Definition Require (userID environmentID : Z) (required : list string) : M unit :=
  '(keys, systemAdmin) ← Resolve userID environmentID;
  if systemAdmin : bool then mret tt
  else if forallb (λ key, bool_decide (key ∈ keys)) required then mret tt
  else throw EForbidden.

Definition RequireSystem (userID : Z) (required : string) : M unit :=
  if negb (String.prefix "system:" required)
  then throw (EOther "system permission key required")
  else
    isAdmin ← handle (λ e, if is_NotFound e then EForbidden else e) (IsSystemAdmin userID);
    if isAdmin : bool then mret tt else throw EForbidden.

Definition Invalidate (userID environmentID : Z) : M unit :=
  r ← attempt (Identity userID environmentID);
  match r with
  | Er e => if is_NotFound e then mret tt
            else throw (EWrap "read permission identity for invalidation: " e)
  | Ok i =>
      let previousVersion := EnvironmentVersion i - 1 in
      if previousVersion <? 0 then mret tt
      else handle (EWrap "delete stale permission cache: ")
             (cache_delete (permissionContentKey userID environmentID previousVersion))
  end.

End source.

(** ** Actors *)

Record Actor := { UserID : Z; RequestID : string }.

Definition request_char (c : ascii) : bool :=
  is_alnum c || bool_decide (c ∈ ["."%char; "_"%char; ":"%char; "-"%char]).
Definition validRequestID (value : string) : bool :=
  negb (len value =? 0) && (len value <=? 128) && forall_bytes request_char value.

(** [ActorFromContext]: the principal the middleware left in the context and
    the X-Request-ID header; a random text replaces an invalid identifier. *)
Definition ActorFromContext (principal : option Z) (header : option string) : M Actor :=
  match principal with
  | Some userID =>
      if userID <=? 0 then throw EForbidden
      else
        let requestID := default "" header in
        if validRequestID requestID
        then mret {| UserID := userID; RequestID := requestID |}
        else
          fresh ← random;
          mret {| UserID := userID; RequestID := fresh |}
  | None => throw EForbidden
  end.

End resolver.
