(* ===== verification/RepoConfig.v ===== *)
(** [server/internal/repository/config.go]: the configuration rows. *)

From S2P Require Import Prelude GoStd GoStrings Engine Model Cache World WorldLaws RepoScope.

Local Open Scope Z_scope.

Record ConfigFilter := {
  cf_ProjectID : option Z;
  cf_ProjectKey : option string;
  cf_Key : option string;
}.

Record ConfigUpdate := {
  cu_Description : string;
  cu_IsArray : bool;
  cu_TypeJSON : string;
  cu_UpdatedBy : Z;
  cu_Version : Z;
}.

Record ConfigValueUpdate := {
  cv_Value : string;
  cv_UpdatedBy : Z;
  cv_Version : Z;
}.

(** ** The assignments of the UPDATE statements *)

Definition config_restore (item : ConfigRow) (at_ version : Z) (r : ConfigRow) : ConfigRow :=
  {| cfg_meta := restored (CreatedBy (cfg_meta item)) (UpdatedBy (cfg_meta item)) at_ version
                   (cfg_meta r);
     cfg_ProjectID := cfg_ProjectID r; cfg_Key := cfg_Key r;
     cfg_Description := cfg_Description item; cfg_IsArray := cfg_IsArray item;
     cfg_TypeJSON := cfg_TypeJSON item; cfg_Value := cfg_Value item;
     cfg_RuntimeVersion := cfg_RuntimeVersion item |}.

Definition config_update (u : ConfigUpdate) (at_ : Z) (r : ConfigRow) : ConfigRow :=
  {| cfg_meta := touch (cu_UpdatedBy u) at_ (cu_Version u + 1) (cfg_meta r);
     cfg_ProjectID := cfg_ProjectID r; cfg_Key := cfg_Key r;
     cfg_Description := cu_Description u; cfg_IsArray := cu_IsArray u;
     cfg_TypeJSON := cu_TypeJSON u; cfg_Value := cfg_Value r;
     cfg_RuntimeVersion := cfg_RuntimeVersion r |}.

Definition config_set_value (u : ConfigValueUpdate) (at_ : Z) (r : ConfigRow) : ConfigRow :=
  {| cfg_meta := touch (cv_UpdatedBy u) at_ (cv_Version u + 1) (cfg_meta r);
     cfg_ProjectID := cfg_ProjectID r; cfg_Key := cfg_Key r;
     cfg_Description := cfg_Description r; cfg_IsArray := cfg_IsArray r;
     cfg_TypeJSON := cfg_TypeJSON r; cfg_Value := cv_Value u;
     cfg_RuntimeVersion := cfg_RuntimeVersion r |}.

(** [runtime_version = runtime_version + 1, updated_at = now] *)
Definition config_next_runtime (at_ : Z) (r : ConfigRow) : ConfigRow :=
  {| cfg_meta := touch (UpdatedBy (cfg_meta r)) at_ (Version (cfg_meta r)) (cfg_meta r);
     cfg_ProjectID := cfg_ProjectID r; cfg_Key := cfg_Key r;
     cfg_Description := cfg_Description r; cfg_IsArray := cfg_IsArray r;
     cfg_TypeJSON := cfg_TypeJSON r; cfg_Value := cfg_Value r;
     cfg_RuntimeVersion := cfg_RuntimeVersion r + 1 |}.

Section config.
Context `{Engine} `{Collation} `{Store}.

(** [lockConfigByKey]: soft-deleted rows included. *)
Definition lockConfigByKey (projectID : Z) (key : string) : M (option ConfigRow) :=
  wrapped (get (λ d, head (select (λ c, (cfg_ProjectID c =? projectID)
    && text_eq (cfg_Key c) key) (configs d)))).

(** [resetConfigChildren] *)
Definition resetConfigChildren (configID updatedBy : Z) : M unit :=
  t ← now;
  wrapped (exec_update structures_t
    (λ _ s, live (str_meta s) && (str_ConfigID s =? configID))
    (map_str_meta (soft_delete updatedBy t t)));;
  wrapped (exec_update config_enums_t
    (λ _ e, live (enm_meta e) && (enm_ConfigID e =? configID))
    (map_enm_meta (soft_delete updatedBy t t)));;
  mret tt.

(** [ConfigRepositoryImpl.restore]; the caller's record receives the id, the
    version and the times. *)
Definition config_restore_row (existing config : ConfigRow) : M ConfigRow :=
  when_err (live (cfg_meta existing)) (EKeyConflict "config");;
  resetConfigChildren (ID (cfg_meta existing)) (UpdatedBy (cfg_meta config));;
  t ← now;
  let version := Version (cfg_meta existing) + 1 in
  affected ← handle (classifyKeyWriteError "config")
    (exec_update configs_t (λ _ c, ID (cfg_meta c) =? ID (cfg_meta existing))
       (config_restore config t version));
  must_affect "config" affected;;
  mret (map_cfg_meta (λ m, {| ID := ID (cfg_meta existing); CreatedBy := CreatedBy m;
    UpdatedBy := UpdatedBy m; CreatedAt := t; UpdatedAt := t; Version := version;
    DeletedAt := DeletedAt m |}) config).

Definition config_Create (environmentID projectID : Z) (config : ConfigRow) : M ConfigRow :=
  lockScopedProject environmentID projectID;;
  existing ← lockConfigByKey projectID (cfg_Key config);
  match existing with
  | Some existing => config_restore_row existing config
  | None =>
      t ← now;
      let config := map_cfg_meta (PrepareInsert t) config in
      k ← handle (classifyKeyWriteError "config") (exec_insert configs_t config);
      mret (map_cfg_meta (set_ID k) config)
  end.

Definition config_FindByID (environmentID configID : Z) : M ConfigRow :=
  r ← wrapped (get (λ d, head (configScope environmentID
         (λ c, ID (cfg_meta c) =? configID) d)));
  must_find "config" r.

Definition config_List (environmentID : Z) (filter : ConfigFilter) (page : PageRequest) :
    M (PageResult ConfigRow) :=
  paginate (λ d, rev (configScope environmentID (λ c,
    eqIf Z.eqb (cfg_ProjectID c) (cf_ProjectID filter)
    && match cf_ProjectKey filter with
       | None => true
       | Some key => negb (bool_decide (select (λ p, (ID (prj_meta p) =? cfg_ProjectID c)
                       && text_eq (prj_Key p) key) (projects d) = []))
       end
    && eqIf text_eq (cfg_Key c) (cf_Key filter)) d)) page.

Definition config_Update (environmentID configID : Z) (update : ConfigUpdate) : M unit :=
  config_FindByID environmentID configID;;
  t ← now;
  affected ← wrapped (exec_update configs_t
    (λ _ c, live (cfg_meta c) && (ID (cfg_meta c) =? configID)
            && (Version (cfg_meta c) =? cu_Version update))
    (config_update update t));
  must_affect "config" affected.

Definition config_UpdateValue (environmentID configID : Z) (update : ConfigValueUpdate) :
    M unit :=
  config_FindByID environmentID configID;;
  t ← now;
  affected ← wrapped (exec_update configs_t
    (λ _ c, live (cfg_meta c) && (ID (cfg_meta c) =? configID)
            && (Version (cfg_meta c) =? cv_Version update))
    (config_set_value update t));
  must_affect "config" affected.

Definition config_Delete (environmentID configID updatedBy : Z) : M unit :=
  config_FindByID environmentID configID;;
  deleted ← now;
  updated ← now;
  affected ← wrapped (exec_update configs_t
    (λ _ c, live (cfg_meta c) && (ID (cfg_meta c) =? configID))
    (map_cfg_meta (soft_delete updatedBy deleted updated)));
  must_affect "config" affected.

(** [LockByID]: the lock itself serialises transactions. *)
Definition config_LockByID (environmentID configID : Z) : M ConfigRow :=
  r ← wrapped (get (λ d, head (configScope environmentID
         (λ c, ID (cfg_meta c) =? configID) d)));
  must_find "config" r.

End config.
