(* ===== verification/RepoChild.v ===== *)
(** [server/internal/repository/structure.go] and [config_enum.go]: the two
    repositories are the same code over two tables of definitions that belong
    to a configuration.  [ChildKind] is what differs between them. *)

From S2P Require Import Prelude GoStd GoStrings Engine Model Cache World WorldLaws RepoScope.

Local Open Scope Z_scope.

Record ChildUpdate := {
  u_Key : string;
  u_Name : string;
  u_Description : string;
  u_JSON : string;              (* FieldsJSON or ValuesJSON *)
  u_UpdatedBy : Z;
  u_Version : Z;
}.

Section child.
Context `{Engine} `{Collation} `{Store}.

Class ChildKind (R : Type) := {
  ck_row :: Row R;
  ck_table : Field_of R;
  ck_resource : string;
  ck_meta : R → Meta;
  ck_map_meta : (Meta → Meta) → R → R;
  ck_ConfigID : R → Z;
  ck_Key : R → string;
  ck_set_ConfigID : Z → R → R;
  (** name, description and document of the first row, the rest of the second *)
  ck_body : R → R → R;
  ck_update : ChildUpdate → R → R;
  ck_in_scope_deleted : DB → Z → R → bool;
}.

#[global] Instance structure_kind : ChildKind StructureRow := {|
  ck_row := str_row;
  ck_table := structures_t;
  ck_resource := "structure";
  ck_meta := str_meta;
  ck_map_meta := map_str_meta;
  ck_ConfigID := str_ConfigID;
  ck_Key := str_Key;
  ck_set_ConfigID k r :=
    {| str_meta := str_meta r; str_ConfigID := k; str_Key := str_Key r;
       str_Name := str_Name r; str_Description := str_Description r;
       str_FieldsJSON := str_FieldsJSON r |};
  ck_body item r :=
    {| str_meta := str_meta r; str_ConfigID := str_ConfigID r; str_Key := str_Key r;
       str_Name := str_Name item; str_Description := str_Description item;
       str_FieldsJSON := str_FieldsJSON item |};
  ck_update u r :=
    {| str_meta := str_meta r; str_ConfigID := str_ConfigID r; str_Key := u_Key u;
       str_Name := u_Name u; str_Description := u_Description u;
       str_FieldsJSON := u_JSON u |};
  ck_in_scope_deleted := structure_in_scope_deleted;
|}.

#[global] Instance enum_kind : ChildKind EnumRow := {|
  ck_row := enm_row;
  ck_table := config_enums_t;
  ck_resource := "config enum";
  ck_meta := enm_meta;
  ck_map_meta := map_enm_meta;
  ck_ConfigID := enm_ConfigID;
  ck_Key := enm_Key;
  ck_set_ConfigID k r :=
    {| enm_meta := enm_meta r; enm_ConfigID := k; enm_Key := enm_Key r;
       enm_Name := enm_Name r; enm_Description := enm_Description r;
       enm_ValuesJSON := enm_ValuesJSON r |};
  ck_body item r :=
    {| enm_meta := enm_meta r; enm_ConfigID := enm_ConfigID r; enm_Key := enm_Key r;
       enm_Name := enm_Name item; enm_Description := enm_Description item;
       enm_ValuesJSON := enm_ValuesJSON item |};
  ck_update u r :=
    {| enm_meta := enm_meta r; enm_ConfigID := enm_ConfigID r; enm_Key := u_Key u;
       enm_Name := u_Name u; enm_Description := u_Description u;
       enm_ValuesJSON := u_JSON u |};
  ck_in_scope_deleted := enum_in_scope_deleted;
|}.

Section kind.
Context {R : Type} `{ChildKind R}.

Definition child_id (r : R) : Z := ID (ck_meta r).

(** The scope join with a condition on the row. *)
Definition childScopeIncludingDeleted (environmentID : Z) (p : R → bool) (d : DB) : list R :=
  select (λ r, ck_in_scope_deleted d environmentID r && p r) (get_table ck_table d).
Definition childScope (environmentID : Z) (p : R → bool) (d : DB) : list R :=
  childScopeIncludingDeleted environmentID (λ r, live (ck_meta r) && p r) d.

(** [restore] *)
Definition child_restore (existing item : R) : M R :=
  when_err (live (ck_meta existing)) (EKeyConflict ck_resource);;
  t ← now;
  let version := Version (ck_meta existing) + 1 in
  affected ← handle (classifyKeyWriteError ck_resource)
    (exec_update ck_table (λ _ r, child_id r =? child_id existing)
      (λ r, ck_map_meta (restored (CreatedBy (ck_meta item)) (UpdatedBy (ck_meta item))
                           t version) (ck_body item r)));
  must_affect ck_resource affected;;
  mret (ck_map_meta (λ m, {| ID := child_id existing; CreatedBy := CreatedBy m;
    UpdatedBy := UpdatedBy m; CreatedAt := t; UpdatedAt := t; Version := version;
    DeletedAt := DeletedAt m |}) item).

(** [INSERT] of a new row; the caller's record receives its id. *)
Definition child_insert (item : R) : M R :=
  t ← now;
  let item := ck_map_meta (PrepareInsert t) item in
  k ← handle (classifyKeyWriteError ck_resource) (exec_insert ck_table item);
  mret (ck_map_meta (set_ID k) item).

Definition child_Create (environmentID configID : Z) (item : R) : M R :=
  let item := ck_set_ConfigID configID item in
  lockScopedConfig environmentID configID;;
  existing ← wrapped (get (λ d, head (select (λ r, (ck_ConfigID r =? configID)
                && text_eq (ck_Key r) (ck_Key item)) (get_table ck_table d))));
  match existing with
  | Some existing => child_restore existing item
  | None => child_insert item
  end.

Definition child_FindByID (environmentID itemID : Z) : M R :=
  r ← wrapped (get (λ d, head (childScope environmentID (λ r, child_id r =? itemID) d)));
  must_find ck_resource r.

(** [projectOf] is the owner of the row's configuration, [c.project_id]. *)
Definition child_List (environmentID projectID configID : Z) (ignore : option Z)
    (page : PageRequest) : M (PageResult R) :=
  paginate (λ d, childScope environmentID (λ r,
    (ck_ConfigID r =? configID)
    && negb (bool_decide (select (λ c, (ID (cfg_meta c) =? configID)
               && (cfg_ProjectID c =? projectID)) (configs d) = []))
    && neqIf Z.eqb (child_id r) ignore) d) page.

Definition child_ListForConfig (environmentID configID : Z) : M (list R) :=
  rows ← wrapped (find (childScopeIncludingDeleted environmentID
                          (λ r, ck_ConfigID r =? configID)));
  mret (List.filter (λ r, live (ck_meta r)) rows).

Definition child_Update (environmentID itemID : Z) (update : ChildUpdate) : M unit :=
  child_FindByID environmentID itemID;;
  t ← now;
  affected ← handle (classifyKeyWriteError ck_resource)
    (exec_update ck_table (λ _ r, (child_id r =? itemID) && live (ck_meta r)
                                  && (Version (ck_meta r) =? u_Version update))
      (λ r, ck_map_meta (touch (u_UpdatedBy update) t (u_Version update + 1))
              (ck_update update r)));
  must_affect ck_resource affected.

Definition child_Delete (environmentID itemID updatedBy : Z) : M unit :=
  child_FindByID environmentID itemID;;
  t ← now;
  affected ← wrapped (exec_update ck_table
    (λ _ r, (child_id r =? itemID) && live (ck_meta r))
    (ck_map_meta (soft_delete updatedBy t t)));
  must_affect ck_resource affected.

(** ** Reconcile: make the configuration's definitions those of an import *)

(** [reconcileItem]; the caller's record receives its id and version. *)
Definition child_reconcileItem (current : option R) (item : R) : M R :=
  match current with
  | None =>
      child_insert (ck_map_meta (λ m, set_ID 0
        {| ID := ID m; CreatedBy := UpdatedBy m; UpdatedBy := UpdatedBy m;
           CreatedAt := CreatedAt m; UpdatedAt := UpdatedAt m; Version := Version m;
           DeletedAt := DeletedAt m |}) item)
  | Some current =>
      t ← now;
      let version := Version (ck_meta current) + 1 in
      affected ← wrapped (exec_update ck_table
        (λ _ r, (child_id r =? child_id current) && (ck_ConfigID r =? ck_ConfigID item))
        (λ r, ck_map_meta (λ m, {| ID := ID m; CreatedBy := CreatedBy m;
                 UpdatedBy := UpdatedBy (ck_meta item); CreatedAt := CreatedAt m;
                 UpdatedAt := t; Version := version; DeletedAt := None |}) (ck_body item r)));
      must_affect ck_resource affected;;
      mret (ck_map_meta (λ m, {| ID := child_id current; CreatedBy := CreatedBy m;
              UpdatedBy := UpdatedBy m; CreatedAt := CreatedAt m; UpdatedAt := UpdatedAt m;
              Version := version; DeletedAt := DeletedAt m |}) item)
  end.

Definition child_removeObsoleteItem (actorID : Z) (current : R) : M unit :=
  t ← now;
  affected ← wrapped (exec_update ck_table
    (λ _ r, (child_id r =? child_id current) && live (ck_meta r)
            && (ck_ConfigID r =? ck_ConfigID current))
    (ck_map_meta (λ m, {| ID := ID m; CreatedBy := CreatedBy m; UpdatedBy := actorID;
       CreatedAt := CreatedAt m; UpdatedAt := t; Version := Version (ck_meta current) + 1;
       DeletedAt := Some t |})));
  must_affect ck_resource affected.

Definition child_removeObsolete (existing : list R) (desired : gset string) (actorID : Z) :
    M unit :=
  each_m (λ current,
    if bool_decide (ck_Key current ∈ desired) || negb (live (ck_meta current))
    then mret tt else child_removeObsoleteItem actorID current) existing.

(** The map [byKey]: a later row of the same key replaces an earlier one. *)
Definition by_key (existing : list R) : gmap string R :=
  fold_left (λ m r, <[ck_Key r := r]> m) existing ∅.

(** The items as the code leaves them: identifiers and versions assigned. *)
Definition child_Reconcile (environmentID configID : Z) (items : list R) (actorID : Z) :
    M (list R) :=
  lockScopedConfig environmentID configID;;
  existing ← wrapped (find (λ d, select (λ r, ck_ConfigID r =? configID)
                                   (get_table ck_table d)));
  let byKey := by_key existing in
  written ← collect_m (λ item,
    let item := ck_map_meta (λ m, {| ID := ID m; CreatedBy := CreatedBy m;
      UpdatedBy := actorID; CreatedAt := CreatedAt m; UpdatedAt := UpdatedAt m;
      Version := Version m; DeletedAt := DeletedAt m |}) (ck_set_ConfigID configID item) in
    child_reconcileItem (byKey !! ck_Key item) item) items;
  child_removeObsolete existing (list_to_set (ck_Key <$> items)) actorID;;
  mret written.

End kind.

(** ** The two repositories *)

Definition structure_Create := child_Create (R := StructureRow).
Definition structure_FindByID := child_FindByID (R := StructureRow).
Definition structure_List := child_List (R := StructureRow).
Definition structure_ListForConfig := child_ListForConfig (R := StructureRow).
Definition structure_Update := child_Update (R := StructureRow).
Definition structure_Delete := child_Delete (R := StructureRow).
Definition structure_Reconcile := child_Reconcile (R := StructureRow).

Definition enum_Create := child_Create (R := EnumRow).
Definition enum_FindByID := child_FindByID (R := EnumRow).
Definition enum_List environmentID projectID configID :=
  child_List (R := EnumRow) environmentID projectID configID None.
Definition enum_ListForConfig := child_ListForConfig (R := EnumRow).
Definition enum_Update := child_Update (R := EnumRow).
Definition enum_Delete := child_Delete (R := EnumRow).
Definition enum_Reconcile := child_Reconcile (R := EnumRow).

End child.
