(* ===== verification/RepoSnapshot.v ===== *)
(** [server/internal/repository/snapshot.go] and [snapshot_publish.go]. *)

From stdpp Require Import sorting.
From S2P Require Import Prelude GoStd GoStrings Engine Model Cache World WorldLaws RepoScope RepoConfig.

Local Open Scope Z_scope.

Record SnapshotFilter := {
  sf_ProjectID : Z;
  sf_ConfigID : Z;
  sf_Status : option Z;
  sf_IsUsing : option bool;
}.

(** ** The assignments of the UPDATE statements *)

(** Metadata and publication columns of a snapshot row. *)
Definition snapshot_with (m : Meta) (status : Z) (inUse : bool)
    (at_ by_ : option Z) (r : SnapshotRow) : SnapshotRow :=
  {| snp_meta := m; snp_ProjectID := snp_ProjectID r; snp_ConfigID := snp_ConfigID r;
     snp_ConfigKey := snp_ConfigKey r; snp_Description := snp_Description r;
     snp_Content := snp_Content r; snp_Status := status; snp_TagsJSON := snp_TagsJSON r;
     snp_IsUsing := inUse; snp_PublishedAt := at_; snp_PublishedBy := by_ |}.

Definition snapshot_scope_ids (projectID configID : Z) (r : SnapshotRow) : SnapshotRow :=
  {| snp_meta := snp_meta r; snp_ProjectID := projectID; snp_ConfigID := configID;
     snp_ConfigKey := snp_ConfigKey r; snp_Description := snp_Description r;
     snp_Content := snp_Content r; snp_Status := snp_Status r; snp_TagsJSON := snp_TagsJSON r;
     snp_IsUsing := snp_IsUsing r; snp_PublishedAt := snp_PublishedAt r;
     snp_PublishedBy := snp_PublishedBy r |}.

Definition snapshot_meta (f : Meta → Meta) (r : SnapshotRow) : SnapshotRow :=
  snapshot_with (f (snp_meta r)) (snp_Status r) (snp_IsUsing r) (snp_PublishedAt r)
    (snp_PublishedBy r) r.

Definition snapshot_using (inUse : bool) (updatedBy at_ : Z) (r : SnapshotRow) : SnapshotRow :=
  snapshot_with (touch_next updatedBy at_ (snp_meta r)) (snp_Status r) inUse
    (snp_PublishedAt r) (snp_PublishedBy r) r.

(** [SnapshotPublicationUpdate] *)
Record SnapshotPublicationUpdate := {
  pu_EnvironmentID : Z;
  pu_ConfigID : Z;
  pu_SnapshotID : Z;
  pu_ExpectedVersion : Z;
  pu_UpdatedBy : Z;
  pu_ChangedAt : Z;
}.

Definition snapshot_release (u : SnapshotPublicationUpdate) (r : SnapshotRow) : SnapshotRow :=
  snapshot_with (touch (pu_UpdatedBy u) (pu_ChangedAt u) (pu_ExpectedVersion u + 1)
                   (snp_meta r))
    SnapshotStatusReleased (snp_IsUsing r) (Some (pu_ChangedAt u)) (Some (pu_UpdatedBy u)) r.

Definition snapshot_unrelease (u : SnapshotPublicationUpdate) (r : SnapshotRow) : SnapshotRow :=
  snapshot_with (touch (pu_UpdatedBy u) (pu_ChangedAt u) (pu_ExpectedVersion u + 1)
                   (snp_meta r))
    SnapshotStatusUnreleased (snp_IsUsing r) None None r.

Section snapshot.
Context `{Engine} `{Collation} `{Store}.

Definition snapshot_id (s : SnapshotRow) : Z := ID (snp_meta s).

(** ** snapshot.go *)

(** The insertion error is returned as the driver reports it. *)
Definition snapshot_Create (projectID configID : Z) (snapshot : SnapshotRow) : M SnapshotRow :=
  t ← now;
  let snapshot := snapshot_scope_ids projectID configID snapshot in
  let snapshot := snapshot_with (PrepareInsert t (snp_meta snapshot))
    SnapshotStatusUnreleased false (snp_PublishedAt snapshot) (snp_PublishedBy snapshot)
    snapshot in
  k ← exec_insert snapshots_t snapshot;
  mret (snapshot_meta (set_ID k) snapshot).

Definition snapshot_FindByID (environmentID snapshotID : Z) : M SnapshotRow :=
  r ← wrapped (get (λ d, head (snapshotScope environmentID
         (λ s, snapshot_id s =? snapshotID) d)));
  must_find "snapshot" r.

Definition snapshot_List (environmentID : Z) (filter : SnapshotFilter) (page : PageRequest) :
    M (PageResult SnapshotRow) :=
  paginate (λ d, rev (snapshotScope environmentID (λ s,
    (snp_ProjectID s =? sf_ProjectID filter) && (snp_ConfigID s =? sf_ConfigID filter)
    && eqIf Z.eqb (snp_Status s) (sf_Status filter)
    && eqIf Bool.eqb (snp_IsUsing s) (sf_IsUsing filter)) d)) page.

(** [findForConfig]: the newest row that satisfies [cond]. *)
Definition findForConfig (environmentID configID : Z) (cond : SnapshotRow → bool)
    (resource : string) : M SnapshotRow :=
  r ← wrapped (get (λ d, last (snapshotScope environmentID
         (λ s, (snp_ConfigID s =? configID) && cond s) d)));
  must_find resource r.

Definition FindReleasedForConfig (environmentID configID : Z) : M SnapshotRow :=
  findForConfig environmentID configID
    (λ s, snp_Status s =? SnapshotStatusReleased) "released snapshot".
Definition FindCurrentForConfig (environmentID configID : Z) : M SnapshotRow :=
  findForConfig environmentID configID snp_IsUsing "current snapshot".
Definition FindAnyForConfig (environmentID configID : Z) : M SnapshotRow :=
  findForConfig environmentID configID (λ _, true) "snapshot".

(** Distinct configuration ids, ascending. *)
Definition ListReleasedConfigIDs (environmentID projectID : Z) : M (list Z) :=
  wrapped (find (λ d, merge_sort Z.le (remove_dups (snp_ConfigID <$>
    snapshotScope environmentID (λ s, (snp_ProjectID s =? projectID)
      && (snp_Status s =? SnapshotStatusReleased)) d)))).

Definition snapshot_Delete (environmentID snapshotID updatedBy : Z) : M unit :=
  snapshot_FindByID environmentID snapshotID;;
  deleted ← now;
  updated ← now;
  affected ← wrapped (exec_update snapshots_t
    (λ _ s, live (snp_meta s) && (snapshot_id s =? snapshotID)
            && (snp_Status s =? SnapshotStatusUnreleased))
    (snapshot_meta (soft_delete updatedBy deleted updated)));
  must_affect "snapshot" affected.

Definition snapshot_LockByID (environmentID snapshotID : Z) : M SnapshotRow :=
  r ← wrapped (get (λ d, head (snapshotScope environmentID
         (λ s, snapshot_id s =? snapshotID) d)));
  must_find "snapshot" r.

Definition findScopedConfig (environmentID configID : Z) : M ConfigRow :=
  r ← wrapped (get (λ d, head (configScope environmentID
         (λ c, ID (cfg_meta c) =? configID) d)));
  must_find "config" r.

Definition SetCurrent (environmentID configID snapshotID updatedBy : Z) : M unit :=
  config ← findScopedConfig environmentID configID;
  found ← wrapped (get (λ d, head (select (λ s, live (snp_meta s)
    && (snapshot_id s =? snapshotID) && (snp_ConfigID s =? configID)
    && (snp_ProjectID s =? cfg_ProjectID config)) (snapshots d))));
  must_find "snapshot" found;;
  t ← now;
  wrapped (exec_update snapshots_t
    (λ _ s, live (snp_meta s) && (snp_ConfigID s =? configID)
            && (snp_ProjectID s =? cfg_ProjectID config)
            && negb (snapshot_id s =? snapshotID) && snp_IsUsing s)
    (snapshot_using false updatedBy t));;
  affected ← wrapped (exec_update snapshots_t
    (λ _ s, live (snp_meta s) && (snapshot_id s =? snapshotID)
            && (snp_ConfigID s =? configID)
            && (snp_ProjectID s =? cfg_ProjectID config))
    (snapshot_using true updatedBy t));
  must_affect "current snapshot" affected.

(** ** snapshot_publish.go *)

Definition LockForConfig (environmentID configID : Z) : M (list SnapshotRow) :=
  wrapped (find (snapshotScope environmentID (λ s, snp_ConfigID s =? configID))).

(** The guard of both transitions: status and version still match. *)
Definition publication_guard (u : SnapshotPublicationUpdate) (status : Z)
    (s : SnapshotRow) : bool :=
  live (snp_meta s) && (snapshot_id s =? pu_SnapshotID u)
  && (snp_ConfigID s =? pu_ConfigID u) && (snp_Status s =? status)
  && (Version (snp_meta s) =? pu_ExpectedVersion u).

Definition SetReleased (update : SnapshotPublicationUpdate) : M unit :=
  affected ← wrapped (exec_update snapshots_t
    (λ _, publication_guard update SnapshotStatusUnreleased) (snapshot_release update));
  must_affect "snapshot publication" affected.

Definition SetUnreleased (update : SnapshotPublicationUpdate) : M unit :=
  affected ← wrapped (exec_update snapshots_t
    (λ _, publication_guard update SnapshotStatusReleased) (snapshot_unrelease update));
  must_affect "snapshot unpublication" affected.

Definition IncrementRuntimeVersion (environmentID configID : Z) : M unit :=
  lockScopedConfig environmentID configID;;
  t ← now;
  affected ← wrapped (exec_update configs_t
    (λ _ c, live (cfg_meta c) && (ID (cfg_meta c) =? configID)
            && (cfg_RuntimeVersion c <? max_int64))
    (config_next_runtime t));
  must_affect "config runtime version" affected.

End snapshot.
