(* ===== verification/RepoLaws.v ===== *)
(** The integrity of publication: every live snapshot belongs to a live
    configuration of its project, statuses are known, and a configuration has
    at most one released and at most one current snapshot.  Then what each
    repository operation on configurations and snapshots does to the rows. *)

From S2P Require Import Prelude GoStd GoStrings Engine Model Cache World WorldLaws RepoScope RepoConfig RepoChild RepoSnapshot.

Local Open Scope Z_scope.

Section inv.
Context {E : Engine} {EL : EngineLaws E} `{Collation} `{Store}.

Definition srows (d : DB) : gmap Z SnapshotRow := rows (snapshots d).
Definition crows (d : DB) : gmap Z ConfigRow := rows (configs d).

Definition is_released (s : SnapshotRow) : bool :=
  live (snp_meta s) && (snp_Status s =? SnapshotStatusReleased).
Definition is_current (s : SnapshotRow) : bool := live (snp_meta s) && snp_IsUsing s.

(** At most one row of each configuration satisfies [p]. *)
Definition unique_per_config (p : SnapshotRow → bool) (m : gmap Z SnapshotRow) : Prop :=
  ∀ k1 k2 s1 s2, m !! k1 = Some s1 → m !! k2 = Some s2 → p s1 = true → p s2 = true →
    snp_ConfigID s1 = snp_ConfigID s2 → k1 = k2.

Record InvMaps (S : gmap Z SnapshotRow) (C : gmap Z ConfigRow) : Prop := {
  inv_owner : ∀ k s, S !! k = Some s → live (snp_meta s) = true →
    ∃ c, C !! snp_ConfigID s = Some c ∧ live (cfg_meta c) = true ∧
         cfg_ProjectID c = snp_ProjectID s;
  inv_status : ∀ k s, S !! k = Some s →
    snp_Status s = SnapshotStatusUnreleased ∨ snp_Status s = SnapshotStatusReleased;
  inv_released : unique_per_config is_released S;
  inv_current : unique_per_config is_current S;
}.
#[global] Arguments inv_owner {S C}.
#[global] Arguments inv_status {S C}.
#[global] Arguments inv_released {S C}.
#[global] Arguments inv_current {S C}.
Definition Inv (d : DB) : Prop := InvMaps (srows d) (crows d).

Lemma snapshot_key d k s : srows d !! k = Some s → ID (snp_meta s) = k.
Proof. intros Hs. apply rows_id in Hs. done. Qed.
Lemma config_key d k c : crows d !! k = Some c → ID (cfg_meta c) = k.
Proof. intros Hc. by apply rows_id in Hc. Qed.

(** ** Preservation by maps of rows *)

(** An update that moves no snapshot and releases and selects none. *)
Record harmless (g : SnapshotRow → SnapshotRow) : Prop := {
  harmless_config : ∀ s, snp_ConfigID (g s) = snp_ConfigID s;
  harmless_project : ∀ s, snp_ProjectID (g s) = snp_ProjectID s;
  harmless_live : ∀ s, live (snp_meta (g s)) = true → live (snp_meta s) = true;
  harmless_status : ∀ s, snp_Status (g s) = snp_Status s ∨
                         snp_Status (g s) = SnapshotStatusUnreleased;
  harmless_using : ∀ s, snp_IsUsing (g s) = true → snp_IsUsing s = true;
}.

Lemma unique_map p g m :
  (∀ s, snp_ConfigID (g s) = snp_ConfigID s) → (∀ s, p (g s) = true → p s = true) →
  unique_per_config p m → unique_per_config p (g <$> m).
Proof.
  intros Hc Hp Hu k1 k2 s1 s2. rewrite !lookup_fmap, !fmap_Some.
  intros (r1 & H1 & ->) (r2 & H2 & ->) Hp1 Hp2. rewrite !Hc. eauto.
Qed.

Lemma inv_harmless S C g : harmless g → InvMaps S C → InvMaps (g <$> S) C.
Proof.
  intros [Hc Hp Hl Hs Hu] [Io Is Ir Ic]. split.
  - intros k s. rewrite lookup_fmap, fmap_Some. intros (r & Hr & ->) Hlive.
    rewrite Hc, Hp. eauto.
  - intros k s. rewrite lookup_fmap, fmap_Some. intros (r & Hr & ->).
    destruct (Hs r) as [->| ->]; [by eapply Is|by left].
  - apply unique_map; [done| |done]. intros s. unfold is_released.
    intros [Hls Hst]%andb_true_iff. apply Z.eqb_eq in Hst.
    destruct (Hs s) as [Heq|Heq]; [|by rewrite Heq in Hst].
    rewrite Hl by done. apply andb_true_iff. split; [done|]. apply Z.eqb_eq. congruence.
  - apply unique_map; [done| |done]. intros s. unfold is_current.
    intros [Hls Hst]%andb_true_iff. by rewrite Hl, Hu.
Qed.

(** Updates of configurations that move none and delete none. *)
Lemma inv_config_map S C (g : ConfigRow → ConfigRow) :
  (∀ c, cfg_ProjectID (g c) = cfg_ProjectID c) →
  (∀ c, live (cfg_meta c) = true → live (cfg_meta (g c)) = true) →
  InvMaps S C → InvMaps S (g <$> C).
Proof.
  intros Hp Hl [Io Is Ir Ic]. split; [|done..].
  intros k s Hs Hlive. destruct (Io k s Hs Hlive) as (c & Hc & Hcl & Hcp).
  exists (g c). rewrite lookup_fmap, Hc. split_and!; [done|by apply Hl|by rewrite Hp].
Qed.

(** A new configuration row. *)
Lemma inv_config_insert S C k c : C !! k = None → InvMaps S C → InvMaps S (<[k := c]> C).
Proof.
  intros Hk [Io Is Ir Ic]. split; [|done..].
  intros k' s Hs Hlive. destruct (Io k' s Hs Hlive) as (c' & Hc' & ?).
  exists c'. split; [|done]. rewrite lookup_insert_ne; [done|]. by intros ->; simplify_eq.
Qed.

(** A new snapshot row, unreleased and not current. *)
Lemma inv_snapshot_insert S C k s : S !! k = None →
  snp_Status s = SnapshotStatusUnreleased → snp_IsUsing s = false →
  (∃ c, C !! snp_ConfigID s = Some c ∧ live (cfg_meta c) = true ∧
        cfg_ProjectID c = snp_ProjectID s) →
  InvMaps S C → InvMaps (<[k := s]> S) C.
Proof.
  intros Hk Hst Hus How [Io Is Ir Ic].
  assert (∀ p, p s = false → unique_per_config p S →
    unique_per_config p (<[k := s]> S)) as Hu.
  { intros p Hp Hu k1 k2 s1 s2. rewrite !lookup_insert_Some.
    intros [[<- <-]|[_ H1]] [[<- <-]|[_ H2]] Hp1 Hp2; try congruence. eauto. }
  split.
  - intros k' s'. rewrite lookup_insert_Some. intros [[<- <-]|[_ ?]]; eauto.
  - intros k' s'. rewrite lookup_insert_Some. intros [[<- <-]|[_ ?]]; eauto.
  - apply Hu; [|done]. unfold is_released. by rewrite Hst, andb_false_r.
  - apply Hu; [|done]. unfold is_current. by rewrite Hus, andb_false_r.
Qed.

(** ** Functions that touch neither table *)

Definition same_core (d d' : DB) : Prop := srows d' = srows d ∧ crows d' = crows d.

#[export] Instance same_core_refl : Reflexive same_core.
Proof. done. Qed.
#[export] Instance same_core_trans : Transitive same_core.
Proof. intros a b c [? ?] [? ?]. split; congruence. Qed.

Lemma inv_same_core d d' : same_core d d' → Inv d → Inv d'.
Proof. unfold Inv. by intros [-> ->]. Qed.

Lemma inv_empty d : srows d = ∅ → Inv d.
Proof.
  unfold Inv. intros ->.
  split; unfold unique_per_config; intros *; by rewrite lookup_empty.
Qed.
End inv.

(** ** The assignments keep the primary key *)

Section keys.
Context `{Collation}.
Lemma keeps_id_release u : keeps_id (snapshot_release u).
Proof. by intros r. Qed.
Lemma keeps_id_unrelease u : keeps_id (snapshot_unrelease u).
Proof. by intros r. Qed.
Lemma keeps_id_using b u t : keeps_id (snapshot_using b u t).
Proof. by intros r. Qed.
Lemma keeps_id_delete u t1 t2 : keeps_id (snapshot_meta (soft_delete u t1 t2)).
Proof. by intros r. Qed.
Lemma keeps_id_config_update u t : keeps_id (config_update u t).
Proof. by intros r. Qed.
Lemma keeps_id_config_value u t : keeps_id (config_set_value u t).
Proof. by intros r. Qed.
Lemma keeps_id_config_runtime t : keeps_id (config_next_runtime t).
Proof. by intros r. Qed.
Lemma keeps_id_config_restore c t v : keeps_id (config_restore c t v).
Proof. by intros r. Qed.
Lemma keeps_id_config_delete u t1 t2 : keeps_id (map_cfg_meta (soft_delete u t1 t2)).
Proof. by intros r. Qed.
End keys.
#[export] Hint Resolve keeps_id_release keeps_id_unrelease keeps_id_using keeps_id_delete
  keeps_id_config_update keeps_id_config_value keeps_id_config_runtime
  keeps_id_config_restore keeps_id_config_delete : core.

Section laws.
Context {E : Engine} {EL : EngineLaws E} `{Collation} `{Store}.

(** A successful update of the snapshot table: the rows mapped by [f] where
    [p] holds, everything else unchanged. *)
Definition snapshots_mapped (p : SnapshotRow → bool) (f : SnapshotRow → SnapshotRow)
    (w w' : World) : Prop :=
  ∃ t, rows t = (λ r, if p r then f r else r) <$> srows (db w) ∧
       db w' = put_table snapshots_t t (db w) ∧ cache w' = cache w.

Definition configs_mapped (p : ConfigRow → bool) (f : ConfigRow → ConfigRow)
    (w w' : World) : Prop :=
  ∃ t, rows t = (λ r, if p r then f r else r) <$> crows (db w) ∧
       db w' = put_table configs_t t (db w) ∧ cache w' = cache w.

Lemma snapshots_mapped_rows p f w w' : snapshots_mapped p f w w' →
  srows (db w') = (λ r, if p r then f r else r) <$> srows (db w) ∧
  crows (db w') = crows (db w).
Proof. intros (t & Ht & -> & _). by split. Qed.

Lemma configs_mapped_rows p f w w' : configs_mapped p f w w' →
  crows (db w') = (λ r, if p r then f r else r) <$> crows (db w) ∧
  srows (db w') = srows (db w).
Proof. intros (t & Ht & -> & _). by split. Qed.

Lemma snapshot_update_mapped p f n w w' : keeps_id f →
  exec_update snapshots_t (λ _, p) f w = (Ok n, w') →
  snapshots_mapped p f w w' ∧
  (n ≠ 0 → ∃ s, srows (db w) !! ID (snp_meta s) = Some s ∧ p s = true).
Proof.
  intros Hf (t & Ht & Hn & Hdb & Hc)%update_rows; [|done]. split; [by exists t|].
  rewrite Hn. intros Hz. apply selected_row in Hz as (s & Hs & Hp). by exists s.
Qed.

Lemma config_update_mapped p f n w w' : keeps_id f →
  exec_update configs_t (λ _, p) f w = (Ok n, w') →
  configs_mapped p f w w' ∧
  (n ≠ 0 → ∃ c, crows (db w) !! ID (cfg_meta c) = Some c ∧ p c = true).
Proof.
  intros Hf (t & Ht & Hn & Hdb & Hc)%update_rows; [|done]. split; [by exists t|].
  rewrite Hn. intros Hz. apply selected_row in Hz as (s & Hs & Hp). by exists s.
Qed.

(** ** snapshot_publish.go *)

Lemma SetReleased_rows u x w w' : SetReleased u w = (Ok x, w') →
  snapshots_mapped (publication_guard u SnapshotStatusUnreleased) (snapshot_release u) w w' ∧
  ∃ s, srows (db w) !! pu_SnapshotID u = Some s ∧
       publication_guard u SnapshotStatusUnreleased s = true.
Proof.
  intros Hr. unfold SetReleased in Hr. inv_run.
  match goal with Hx : exec_update _ _ _ _ = _ |- _ =>
    apply snapshot_update_mapped in Hx as [Hm Hn]; [|done] end.
  split; [done|]. destruct Hn as (s & Hs & Hp); [done|]. exists s. split; [|done].
  unfold publication_guard in Hp. bool_hyps. unfold snapshot_id in *. congruence.
Qed.

Lemma SetUnreleased_rows u x w w' : SetUnreleased u w = (Ok x, w') →
  snapshots_mapped (publication_guard u SnapshotStatusReleased) (snapshot_unrelease u) w w' ∧
  ∃ s, srows (db w) !! pu_SnapshotID u = Some s ∧
       publication_guard u SnapshotStatusReleased s = true.
Proof.
  intros Hr. unfold SetUnreleased in Hr. inv_run.
  match goal with Hx : exec_update _ _ _ _ = _ |- _ =>
    apply snapshot_update_mapped in Hx as [Hm Hn]; [|done] end.
  split; [done|]. destruct Hn as (s & Hs & Hp); [done|]. exists s. split; [|done].
  unfold publication_guard in Hp. bool_hyps. unfold snapshot_id in *. congruence.
Qed.

Lemma quiet_lockScopedConfig e c : quiet (lockScopedConfig e c).
Proof. unfold lockScopedConfig. quiet. Qed.

Lemma IncrementRuntimeVersion_rows e c x w w' :
  IncrementRuntimeVersion e c w = (Ok x, w') → ∃ t,
  configs_mapped (λ r, live (cfg_meta r) && (ID (cfg_meta r) =? c)
      && (cfg_RuntimeVersion r <? max_int64)) (config_next_runtime t) w w' ∧
  ∃ r, crows (db w) !! c = Some r ∧ live (cfg_meta r) = true ∧
       cfg_RuntimeVersion r < max_int64.
Proof.
  intros Hr. unfold IncrementRuntimeVersion in Hr. inv_run.
  match goal with Hx : lockScopedConfig _ _ _ = _ |- _ =>
    apply (quiet_run _ _ _ _ (quiet_lockScopedConfig _ _)) in Hx as [Hd1 Hc1] end.
  match goal with Hx : now _ = _ |- _ => apply run_now in Hx as [_ [Hd2 Hc2]] end.
  match goal with Hx : exec_update _ _ (config_next_runtime ?t) _ = _ |- _ =>
    exists t; apply config_update_mapped in Hx as [Hm Hn]; [|done] end.
  destruct Hm as (tb & Htb & Hdb & Hca). rewrite Hd2, Hd1, ?Hc2, ?Hc1 in *.
  split; [by exists tb|]. destruct Hn as (r & Hs & Hp); [done|]. exists r. bool_hyps.
  split_and!; [congruence|done|done].
Qed.

(** ** snapshot.go *)

Lemma snapshot_Create_rows p c s s' w w' : snapshot_Create p c s w = (Ok s', w') →
  ∃ t, srows (db w) !! ID (snp_meta s') = None ∧
    rows t = <[ID (snp_meta s') := s']> (srows (db w)) ∧
    db w' = put_table snapshots_t t (db w) ∧ cache w' = cache w ∧
    snp_ProjectID s' = p ∧ snp_ConfigID s' = c ∧
    snp_Status s' = SnapshotStatusUnreleased ∧ snp_IsUsing s' = false ∧
    snp_Content s' = snp_Content s ∧ live (snp_meta s') = live (snp_meta s) ∧
    Version (snp_meta s') = 1.
Proof.
  intros Hr. unfold snapshot_Create in Hr. inv_run.
  match goal with Hx : now _ = _ |- _ => apply run_now in Hx as [_ [Hd Hc]] end.
  match goal with Hx : exec_insert _ _ _ = _ |- _ =>
    apply insert_rows in Hx as (tb & Hk & Hn & Htb & Hdb & Hca) end.
  rewrite Hd in *. exists tb. split_and!; try done. congruence.
Qed.

Lemma quiet_snapshot_FindByID e s : quiet (snapshot_FindByID e s).
Proof. unfold snapshot_FindByID. quiet. Qed.
Lemma quiet_snapshot_LockByID e s : quiet (snapshot_LockByID e s).
Proof. unfold snapshot_LockByID. quiet. Qed.
Lemma quiet_findScopedConfig e c : quiet (findScopedConfig e c).
Proof. unfold findScopedConfig. quiet. Qed.
Lemma quiet_findForConfig e c p r : quiet (findForConfig e c p r).
Proof. unfold findForConfig. quiet. Qed.
Lemma quiet_config_LockByID e c : quiet (config_LockByID e c).
Proof. unfold config_LockByID. quiet. Qed.
Lemma quiet_config_FindByID e c : quiet (config_FindByID e c).
Proof. unfold config_FindByID. quiet. Qed.
Lemma quiet_LockForConfig e c : quiet (LockForConfig e c).
Proof. unfold LockForConfig. quiet. Qed.

(** What a scoped read of a configuration returned. *)
Lemma scoped_config_row e c r d :
  head (configScope e (λ x, ID (cfg_meta x) =? c) d) = Some r →
  crows d !! c = Some r ∧ live (cfg_meta r) = true ∧ config_in_scope d e r = true.
Proof.
  intros (Hr & Hp)%head_select. bool_hyps. unfold crows. simpl in *.
  split_and!; [congruence| |done]. unfold config_in_scope in *. by bool_hyps.
Qed.

Lemma scoped_snapshot_row e s r d :
  head (snapshotScope e (λ x, snapshot_id x =? s) d) = Some r →
  srows d !! s = Some r ∧ live (snp_meta r) = true ∧ snapshot_in_scope d e r = true.
Proof.
  intros (Hr & Hp)%head_select. bool_hyps. unfold snapshot_id, srows in *. simpl in *.
  split_and!; [congruence| |done]. unfold snapshot_in_scope in *. by bool_hyps.
Qed.

Lemma run_config_LockByID e c r w w' : config_LockByID e c w = (Ok r, w') →
  crows (db w) !! c = Some r ∧ live (cfg_meta r) = true ∧
  config_in_scope (db w) e r = true ∧ same_store w w'.
Proof.
  intros Hr. unfold config_LockByID in Hr. inv_run.
  match goal with Hx : get _ _ = _ |- _ => apply run_get in Hx as [Hq Hst] end.
  symmetry in Hq. apply scoped_config_row in Hq as (? & ? & ?). done.
Qed.

Lemma run_config_FindByID e c r w w' : config_FindByID e c w = (Ok r, w') →
  crows (db w) !! c = Some r ∧ live (cfg_meta r) = true ∧
  config_in_scope (db w) e r = true ∧ same_store w w'.
Proof. apply run_config_LockByID. Qed.

Lemma run_snapshot_FindByID e s r w w' : snapshot_FindByID e s w = (Ok r, w') →
  srows (db w) !! s = Some r ∧ live (snp_meta r) = true ∧
  snapshot_in_scope (db w) e r = true ∧ same_store w w'.
Proof.
  intros Hr. unfold snapshot_FindByID in Hr. inv_run.
  match goal with Hx : get _ _ = _ |- _ => apply run_get in Hx as [Hq Hst] end.
  symmetry in Hq. apply scoped_snapshot_row in Hq as (? & ? & ?). done.
Qed.

Lemma run_snapshot_LockByID e s r w w' : snapshot_LockByID e s w = (Ok r, w') →
  srows (db w) !! s = Some r ∧ live (snp_meta r) = true ∧
  snapshot_in_scope (db w) e r = true ∧ same_store w w'.
Proof. apply run_snapshot_FindByID. Qed.

Lemma snapshot_Delete_rows e s u x w w' : snapshot_Delete e s u w = (Ok x, w') → ∃ t1 t2,
  snapshots_mapped (λ r, live (snp_meta r) && (snapshot_id r =? s)
                         && (snp_Status r =? SnapshotStatusUnreleased))
    (snapshot_meta (soft_delete u t1 t2)) w w'.
Proof.
  intros Hr. unfold snapshot_Delete in Hr. inv_run.
  match goal with Hx : snapshot_FindByID _ _ _ = _ |- _ =>
    apply (quiet_run _ _ _ _ (quiet_snapshot_FindByID _ _)) in Hx as [Hd1 Hc1] end.
  repeat match goal with Hx : now _ = _ |- _ => apply run_now in Hx as [_ [? ?]] end.
  match goal with Hx : exec_update _ _ (snapshot_meta (soft_delete _ ?a ?b)) _ = _ |- _ =>
    exists a, b; apply snapshot_update_mapped in Hx as [(tb & Htb & Hdb & Hca) _]; [|done] end.
  exists tb. rewrite Hdb, Hca. split_and!; congruence.
Qed.

(** Selecting a snapshot: every other current row of the configuration is
    unselected, the snapshot is selected. *)
Definition selected_in (projectID configID snapshotID : Z) (s : SnapshotRow) : bool :=
  live (snp_meta s) && (snapshot_id s =? snapshotID) && (snp_ConfigID s =? configID)
  && (snp_ProjectID s =? projectID).
Definition unselected_in (projectID configID snapshotID : Z) (s : SnapshotRow) : bool :=
  live (snp_meta s) && (snp_ConfigID s =? configID) && (snp_ProjectID s =? projectID)
  && negb (snapshot_id s =? snapshotID) && snp_IsUsing s.

(** The two statements in sequence. *)
Lemma select_after_unselect p c s u t (r : SnapshotRow) :
  ((λ r, if selected_in p c s r then snapshot_using true u t r else r)
     ∘ (λ r, if unselected_in p c s r then snapshot_using false u t r else r)) r =
  (if selected_in p c s r then snapshot_using true u t r
   else if unselected_in p c s r then snapshot_using false u t r else r).
Proof.
  unfold compose. destruct (unselected_in p c s r) eqn:Hu; [|done].
  change (selected_in p c s (snapshot_using false u t r)) with (selected_in p c s r).
  assert (selected_in p c s r = false) as ->; [|done].
  apply not_true_iff_false. unfold selected_in, unselected_in in *. intros Hs.
  bool_hyps. congruence.
Qed.

Lemma SetCurrent_rows e c s u x w w' : SetCurrent e c s u w = (Ok x, w') → ∃ cfg t tb r,
  crows (db w) !! c = Some cfg ∧ live (cfg_meta cfg) = true ∧
  srows (db w) !! s = Some r ∧ selected_in (cfg_ProjectID cfg) c s r = true ∧
  rows tb = (λ r, if selected_in (cfg_ProjectID cfg) c s r then snapshot_using true u t r
                  else if unselected_in (cfg_ProjectID cfg) c s r
                  then snapshot_using false u t r else r) <$> srows (db w) ∧
  db w' = put_table snapshots_t tb (db w) ∧ cache w' = cache w.
Proof.
  intros Hr. unfold SetCurrent in Hr.
  apply run_bind in Hr as (cfg & w1 & Hfind & Hr).
  unfold findScopedConfig in Hfind. inv_run.
  repeat match goal with
  | Hx : get _ _ = _ |- _ => let Q := fresh "Q" in apply run_get in Hx as [Q [? ?]]; symmetry in Q
  | Hx : now _ = (Ok ?t, _) |- _ => apply run_now in Hx as [_ [? ?]]; exists cfg, t end.
  match goal with Hx : head (configScope _ _ _) = Some cfg |- _ =>
    apply scoped_config_row in Hx as (Hcfg & Hlive & _) end.
  match goal with Hx : head (select _ _) = Some ?r |- _ =>
    apply head_select in Hx as [Hrow Hsel] end.
  match goal with Hx : exec_update _ _ (snapshot_using true _ _) _ = _ |- _ =>
    apply snapshot_update_mapped in Hx as [(tb2 & Htb2 & Hdb2 & Hca2) _]; [|done] end.
  match goal with Hx : exec_update _ _ (snapshot_using false _ _) _ = _ |- _ =>
    apply snapshot_update_mapped in Hx as [(tb1 & Htb1 & Hdb1 & Hca1) _]; [|done] end.
  exists tb2. match goal with Hx : rows _ !! row_id ?r = Some ?r |- _ => exists r end.
  split_and!; try congruence.
  - bool_hyps. unfold srows, snapshot_id in *. simpl in *. congruence.
  - unfold selected_in. bool_hyps. unfold snapshot_id in *.
    repeat (apply andb_true_intro; split); try done; by apply Z.eqb_eq.
  - rewrite Htb2, Hdb1. unfold srows at 1. cbn [put_table snapshots snapshots_t].
    rewrite Htb1, <-map_fmap_compose.
    match goal with |- _ <$> srows (db ?v) = _ =>
      assert (srows (db v) = srows (db w)) as -> by (unfold srows; congruence) end.
    apply map_fmap_ext. intros k r _. apply select_after_unselect.
  - rewrite Hdb2, Hdb1.
    match goal with |- put_table _ _ (put_table _ _ (db ?v)) = _ =>
      transitivity (put_table snapshots_t tb2 (db v)); [done|congruence] end.
Qed.

(** ** config.go *)

Lemma config_Update_rows e c u x w w' : config_Update e c u w = (Ok x, w') → ∃ t r,
  configs_mapped (λ r, live (cfg_meta r) && (ID (cfg_meta r) =? c)
      && (Version (cfg_meta r) =? cu_Version u)) (config_update u t) w w' ∧
  crows (db w) !! c = Some r ∧ live (cfg_meta r) = true ∧ Version (cfg_meta r) = cu_Version u.
Proof.
  intros Hr. unfold config_Update in Hr. inv_run.
  match goal with Hx : config_FindByID _ _ _ = _ |- _ =>
    apply (quiet_run _ _ _ _ (quiet_config_FindByID _ _)) in Hx as [Hd1 Hc1] end.
  match goal with Hx : now _ = _ |- _ => apply run_now in Hx as [_ [Hd2 Hc2]] end.
  match goal with Hx : exec_update _ _ (config_update _ ?t) _ = _ |- _ =>
    exists t; apply config_update_mapped in Hx as [(tb & Htb & Hdb & Hca) Hn]; [|done] end.
  destruct Hn as (r & Hs & Hp); [done|]. exists r. rewrite Hd2, Hd1, ?Hc2, ?Hc1 in *.
  split; [by exists tb|]. bool_hyps. split_and!; [congruence|done|done].
Qed.

Lemma config_UpdateValue_rows e c u x w w' : config_UpdateValue e c u w = (Ok x, w') → ∃ t r,
  configs_mapped (λ r, live (cfg_meta r) && (ID (cfg_meta r) =? c)
      && (Version (cfg_meta r) =? cv_Version u)) (config_set_value u t) w w' ∧
  crows (db w) !! c = Some r ∧ live (cfg_meta r) = true ∧ Version (cfg_meta r) = cv_Version u.
Proof.
  intros Hr. unfold config_UpdateValue in Hr. inv_run.
  match goal with Hx : config_FindByID _ _ _ = _ |- _ =>
    apply (quiet_run _ _ _ _ (quiet_config_FindByID _ _)) in Hx as [Hd1 Hc1] end.
  match goal with Hx : now _ = _ |- _ => apply run_now in Hx as [_ [Hd2 Hc2]] end.
  match goal with Hx : exec_update _ _ (config_set_value _ ?t) _ = _ |- _ =>
    exists t; apply config_update_mapped in Hx as [(tb & Htb & Hdb & Hca) Hn]; [|done] end.
  destruct Hn as (r & Hs & Hp); [done|]. exists r. rewrite Hd2, Hd1, ?Hc2, ?Hc1 in *.
  split; [by exists tb|]. bool_hyps. split_and!; [congruence|done|done].
Qed.

Lemma config_Delete_rows e c u x w w' : config_Delete e c u w = (Ok x, w') → ∃ t1 t2,
  configs_mapped (λ r, live (cfg_meta r) && (ID (cfg_meta r) =? c))
    (map_cfg_meta (soft_delete u t1 t2)) w w'.
Proof.
  intros Hr. unfold config_Delete in Hr. inv_run.
  match goal with Hx : config_FindByID _ _ _ = _ |- _ =>
    apply (quiet_run _ _ _ _ (quiet_config_FindByID _ _)) in Hx as [Hd1 Hc1] end.
  repeat match goal with Hx : now _ = _ |- _ => apply run_now in Hx as [_ [? ?]] end.
  match goal with Hx : exec_update _ _ (map_cfg_meta (soft_delete _ ?a ?b)) _ = _ |- _ =>
    exists a, b; apply config_update_mapped in Hx as [(tb & Htb & Hdb & Hca) _]; [|done] end.
  exists tb. rewrite Hdb, Hca. split_and!; congruence.
Qed.

Lemma steps_resetConfigChildren c u : steps same_core (resetConfigChildren c u).
Proof. unfold resetConfigChildren. steps; done. Qed.

(** A creation inserts a new row, or revives the soft-deleted row of the key. *)
Definition config_created (projectID : Z) (config c : ConfigRow) (d d' : DB) : Prop :=
  (∀ k x, crows d !! k = Some x → cfg_ProjectID x = projectID →
     text_eq (cfg_Key x) (cfg_Key config) = false) ∧
  crows d !! ID (cfg_meta c) = None ∧ crows d' = <[ID (cfg_meta c) := c]> (crows d) ∧
  cfg_RuntimeVersion c = cfg_RuntimeVersion config ∧
  cfg_ProjectID c = cfg_ProjectID config ∧ cfg_Key c = cfg_Key config.
Definition config_revived (projectID : Z) (config c : ConfigRow) (d d' : DB) : Prop :=
  ∃ old t v, crows d !! ID (cfg_meta c) = Some old ∧ live (cfg_meta old) = false ∧
    cfg_ProjectID old = projectID ∧ text_eq (cfg_Key old) (cfg_Key config) = true ∧
    crows d' = (λ r, if ID (cfg_meta r) =? ID (cfg_meta c)
                     then config_restore config t v r else r) <$> crows d.

Lemma config_Create_rows e p config c w w' : config_Create e p config w = (Ok c, w') →
  srows (db w') = srows (db w) ∧
  (config_created p config c (db w) (db w') ∨ config_revived p config c (db w) (db w')).
Proof.
  intros Hr. unfold config_Create in Hr. apply run_bind in Hr as (u & w1 & Hlock & Hr).
  assert (same_store w w1) as [Hd1 _].
  { eapply quiet_run; [|exact Hlock]. unfold lockScopedProject. quiet. }
  apply run_bind in Hr as (existing & w2 & Hq & Hr).
  unfold lockConfigByKey in Hq. inv_run. apply run_get in Hq as [Hq [Hd2 _]].
  destruct existing as [old|].
  - symmetry in Hq. apply head_select in Hq as [Hold Hp]. unfold config_restore_row in Hr.
    inv_run.
    match goal with Hx : resetConfigChildren _ _ _ = _ |- _ =>
      apply steps_resetConfigChildren in Hx as [Hs3 Hc3] end.
    match goal with Hx : now _ = _ |- _ => apply run_now in Hx as [_ [Hd4 _]] end.
    match goal with Hx : exec_update _ _ _ _ = _ |- _ =>
      apply config_update_mapped in Hx as [[Hc5 Hs5]%configs_mapped_rows _]; [|done] end.
    rewrite Hs5. split; [unfold srows in *; congruence|]. right.
    unfold config_revived. rewrite Hc5. cbn [map_cfg_meta cfg_meta ID].
    eexists old, _, _. bool_hyps. unfold crows, srows in *. simpl in *.
    split_and!; try done; try congruence.
    match goal with |- _ <$> ?a = _ <$> ?b => assert (a = b) as -> by congruence end. done.
  - inv_run.
    match goal with Hx : now _ = _ |- _ => apply run_now in Hx as [_ [Hd3 _]] end.
    match goal with Hx : exec_insert _ _ _ = _ |- _ =>
      apply insert_rows in Hx as (tb & Hk & Hn & Htb & Hdb & Hca) end.
    rewrite Hdb. unfold srows, crows in *. split; [simpl; congruence|]. left.
    symmetry in Hq. pose proof (head_select_None _ _ Hq) as Hnone. rewrite Hd1 in Hnone.
    unfold config_created, crows. simpl in *. rewrite Htb, <-Hd1, <-Hd2, <-Hd3 in *.
    split_and!; try done. intros k' y Hx Hp.
    rewrite <-?Hd1, <-?Hd2, <-?Hd3 in Hx, Hnone. specialize (Hnone k' y Hx).
    by rewrite Hp, Z.eqb_refl in Hnone.
Qed.

(** ** The other tables *)

Lemma steps_RecordSystem log : steps same_core (RecordSystem log).
Proof. unfold RecordSystem. steps. done. Qed.
Lemma steps_RecordForEnvironment e log : steps same_core (RecordForEnvironment e log).
Proof. apply steps_RecordSystem. Qed.

Section child.
Context {R : Type} {K : ChildKind R}
  (Hframe : ∀ t d, same_core d (put_table (ck_table (R := R)) t d)).

Lemma quiet_child_FindByID e k : quiet (child_FindByID (R := R) e k).
Proof. unfold child_FindByID. quiet. Qed.
Lemma quiet_child_ListForConfig e k : quiet (child_ListForConfig (R := R) e k).
Proof. unfold child_ListForConfig. quiet. Qed.
#[local] Hint Resolve quiet_child_FindByID quiet_lockScopedConfig : quiet.

Lemma steps_child_insert (item : R) : steps same_core (child_insert item).
Proof. unfold child_insert. steps. Qed.
Lemma steps_child_Create e c (item : R) : steps same_core (child_Create e c item).
Proof.
  unfold child_Create, child_restore. steps.
Qed.
Lemma steps_child_Update e k u : steps same_core (child_Update (R := R) e k u).
Proof. unfold child_Update. steps. Qed.
Lemma steps_child_Delete e k u : steps same_core (child_Delete (R := R) e k u).
Proof. unfold child_Delete. steps. Qed.
Lemma steps_child_Reconcile e c (items : list R) u :
  steps same_core (child_Reconcile e c items u).
Proof.
  unfold child_Reconcile, child_removeObsolete, child_removeObsoleteItem,
    child_reconcileItem. steps.
Qed.
End child.
End laws.

#[export] Hint Resolve quiet_lockScopedConfig quiet_snapshot_FindByID quiet_snapshot_LockByID
  quiet_findScopedConfig quiet_findForConfig quiet_config_LockByID quiet_config_FindByID
  quiet_LockForConfig quiet_child_FindByID quiet_child_ListForConfig : quiet.
#[export] Hint Resolve steps_resetConfigChildren steps_RecordSystem
  steps_RecordForEnvironment : steps.
