(* ===== verification/Credential.v ===== *)
(** [server/internal/auth/api_key/api_key.go]: runtime credentials, over the
    parts of [strings] and [encoding/base64] they use.  HMAC-SHA256 is a
    parameter. *)

From S2P Require Import Prelude GoStd GoStrings Json.
From Stdlib Require Import Ascii.

Local Open Scope Z_scope.

(** ** [base64.RawURLEncoding] *)

Definition b64_char (v : Z) : ascii :=
  if v <? 26 then chr (65 + v)
  else if v <? 52 then chr (97 + (v - 26))
  else if v <? 62 then chr (48 + (v - 52))
  else if v =? 62 then "-"%char else "_"%char.

Definition b64_val (c : ascii) : option Z :=
  if is_upper c then Some (byte c - 65)
  else if is_lower c then Some (byte c - 97 + 26)
  else if is_digit c then Some (byte c - 48 + 52)
  else if decide (c = "-"%char) then Some 62
  else if decide (c = "_"%char) then Some 63
  else None.

Fixpoint b64_encode (s : string) : string :=
  match s with
  | EmptyString => ""
  | String a EmptyString =>
      String (b64_char (byte a / 4)) (String (b64_char (byte a mod 4 * 16)) "")
  | String a (String b EmptyString) =>
      String (b64_char (byte a / 4))
        (String (b64_char (byte a mod 4 * 16 + byte b / 16))
          (String (b64_char (byte b mod 16 * 4)) ""))
  | String a (String b (String c s)) =>
      String (b64_char (byte a / 4))
        (String (b64_char (byte a mod 4 * 16 + byte b / 16))
          (String (b64_char (byte b mod 16 * 4 + byte c / 64))
            (String (b64_char (byte c mod 64)) (b64_encode s))))
  end.

(** Line breaks are skipped; unused low bits of the last digit are ignored. *)
Fixpoint drop_newlines (s : string) : string :=
  match s with
  | EmptyString => ""
  | String c s => if (byte c =? 10) || (byte c =? 13) then drop_newlines s
                  else String c (drop_newlines s)
  end.

Fixpoint b64_decode_digits (s : string) : option string :=
  match s with
  | EmptyString => Some ""
  | String _ EmptyString => None
  | String a (String b EmptyString) =>
      a ← b64_val a; b ← b64_val b; Some (String (chr (a * 4 + b / 16)) "")
  | String a (String b (String c EmptyString)) =>
      a ← b64_val a; b ← b64_val b; c ← b64_val c;
      Some (String (chr (a * 4 + b / 16)) (String (chr (b mod 16 * 16 + c / 4)) ""))
  | String a (String b (String c (String d s))) =>
      a ← b64_val a; b ← b64_val b; c ← b64_val c; d ← b64_val d;
      r ← b64_decode_digits s;
      Some (String (chr (a * 4 + b / 16))
             (String (chr (b mod 16 * 16 + c / 4))
               (String (chr (c mod 4 * 64 + d)) r)))
  end.
Definition b64_decode (s : string) : option string := b64_decode_digits (drop_newlines s).

(** ** Credentials *)

Definition publicPrefix : string := "kirby_pk_".
Definition publicEntropyBytes : Z := 16.
Definition secretEntropyBytes : Z := 32.
Definition secretSuffixLength : Z := 4.

Record Generated := {
  PublicID : string;
  Full : string;
  Hash : string;
  SecretSuffix : string;
}.

(** A text is the canonical encoding of [n] bytes. *)
Definition encodes_bytes (n : Z) (text : string) : bool :=
  match b64_decode text with
  | Some bytes => (len bytes =? n) && bool_decide (b64_encode bytes = text)
  | None => false
  end.

Definition parse (full : string) : result (string * string) :=
  if negb (bool_decide (trim_space full = full)) || negb (count_byte "." full =? 1)
  then Er (EOther "invalid API key format")
  else
    match cut "." full with
    | None => Er (EOther "invalid API key format")
    | Some (publicID, secret) =>
        match cut_prefix publicPrefix publicID with
        | None => Er (EOther "invalid API key public id")
        | Some publicEncoded =>
            if negb (encodes_bytes publicEntropyBytes publicEncoded)
            then Er (EOther "invalid API key public id")
            else if negb (encodes_bytes secretEntropyBytes secret)
            then Er (EOther "invalid API key secret")
            else Ok (publicID, secret)
        end
    end.

(** The installation's HMAC-SHA256 under its pepper. *)
Class Pepper := hmac : string → string.

Section manager.
Context `{Pepper}.

Definition hash (full : string) : string := hmac full.

(** [Generate], from the 16 and 32 random bytes it reads. *)
Definition Generate (publicEntropy secretEntropy : string) : Generated :=
  let publicID := publicPrefix +:+ b64_encode publicEntropy in
  let secret := b64_encode secretEntropy in
  let full := publicID +:+ "." +:+ secret in
  {| PublicID := publicID;
     Full := full;
     Hash := hash full;
     SecretSuffix := String.substring
       (Z.to_nat (len secret - secretSuffixLength)) (Z.to_nat secretSuffixLength) secret |}.

Definition credential_PublicID (full : string) : result string :=
  '(publicID, _) ← parse full; Ok publicID.

(** The constant-time comparisons are equality. *)
Definition Verify (full expectedPublicID expectedHash : string) : bool :=
  match parse full with
  | Er _ => false
  | Ok (publicID, _) =>
      bool_decide (publicID = expectedPublicID) && bool_decide (hash full = expectedHash)
  end.

End manager.
