(* ===== verification/Password.v ===== *)
(** [server/internal/auth/password/password.go]: password hashes in PHC format.
    Argon2id itself is a parameter. *)

From S2P Require Import Prelude GoStd GoStrings Util Json Engine Model Cache World Credential.
From Stdlib Require Import Ascii.

Local Open Scope Z_scope.

(** ** [base64.RawStdEncoding]: the digits 62 and 63 differ from the URL
    alphabet *)

Definition std_char (c : ascii) : ascii :=
  if decide (c = "-"%char) then "+"%char else if decide (c = "_"%char) then "/"%char else c.
Definition url_char (c : ascii) : ascii :=
  if decide (c = "+"%char) then "-"%char else if decide (c = "/"%char) then "_"%char else c.

Definition std_encode (s : string) : string := map_bytes std_char (b64_encode s).
Definition std_decode (s : string) : option string :=
  if 0 <? count_byte "-" s + count_byte "_" s then None
  else b64_decode (map_bytes url_char s).
(** [base64.RawStdEncoding.EncodedLen] *)
Definition encoded_len (n : Z) : Z := n / 3 * 4 + (n mod 3 * 8 + 5) / 6.

(** ** Parameters *)

Definition maxMemoryKiB : Z := 256 * 1024.
Definition maxIterations : Z := 10.
Definition maxParallelism : Z := 16.
Definition maxDecodedPart : Z := 128.
Definition ErrInvalidHash : Err := EOther "invalid password hash".

Record Params := {
  MemoryKiB : Z;
  Iterations : Z;
  Parallelism : Z;
  SaltLength : Z;
  KeyLength : Z;
}.
#[export] Instance Params_eq_dec : EqDecision Params.
Proof. solve_decision. Defined.

Definition defaultParams : Params :=
  {| MemoryKiB := 64 * 1024; Iterations := 3; Parallelism := 2; SaltLength := 16;
     KeyLength := 32 |}.
Definition CurrentParams : Params := defaultParams.

Definition validateParams (p : Params) : result unit :=
  guard_err ((MemoryKiB p <? 8 * 1024) || (maxMemoryKiB <? MemoryKiB p))
    (EOther "Argon2id memory must be between 8192 and 262144 KiB");;
  guard_err ((Iterations p <? 1) || (maxIterations <? Iterations p))
    (EOther "Argon2id iterations must be between 1 and 10");;
  guard_err ((Parallelism p <? 1) || (maxParallelism <? Parallelism p))
    (EOther "Argon2id parallelism must be between 1 and 16");;
  guard_err ((SaltLength p <? 16) || (maxDecodedPart <? SaltLength p))
    (EOther "Argon2id salt length must be between 16 and 128 bytes");;
  guard_err ((KeyLength p <? 16) || (maxDecodedPart <? KeyLength p))
    (EOther "Argon2id key length must be between 16 and 128 bytes").

(** A hasher is its policy; the random source belongs to the world. *)
Record Hasher := { params : Params }.
Definition newHasher (p : Params) : result Hasher := validateParams p;; Ok {| params := p |}.
Definition NewDefault : Hasher := {| params := defaultParams |}.

(** ** Text of a hash *)

Definition argon2_Version : Z := 19.

(** [fmt.Sprintf("m=%d,t=%d,p=%d", ...)] *)
Definition cost_text (m t p : Z) : string :=
  "m=" +:+ format_int m +:+ ",t=" +:+ format_int t +:+ ",p=" +:+ format_int p.

Definition hash_text (p : Params) (salt key : string) : string :=
  "$argon2id$v=" +:+ format_int argon2_Version +:+ "$"
  +:+ cost_text (MemoryKiB p) (Iterations p) (Parallelism p)
  +:+ "$" +:+ std_encode salt +:+ "$" +:+ std_encode key.

(** [fmt.Sscanf] of one unsigned number of at most [bound].  It also reads signs,
    underscores and leading zeros; [parse] rejects those by comparing the text
    with the formatted numbers. *)
Definition scan_uint (bound : Z) (s : string) : option (Z * string) :=
  let '(d, r) := take_digits s in
  n ← parse_uint d; if n <=? bound then Some (n, r) else None.

Definition scan_cost (s : string) : option (Z * Z * Z) :=
  s ← cut_prefix "m=" s; '(m, s) ← scan_uint max_uint32 s;
  s ← cut_prefix ",t=" s; '(t, s) ← scan_uint max_uint32 s;
  s ← cut_prefix ",p=" s; '(p, _) ← scan_uint 255 s;
  Some (m, t, p).

Definition decodePart (value : string) : result string :=
  if bool_decide (value = "") || (encoded_len maxDecodedPart <? len value) then Er ErrInvalidHash
  else
    match std_decode value with
    | None => Er ErrInvalidHash
    | Some decoded =>
        if (len decoded =? 0) || (maxDecodedPart <? len decoded) then Er ErrInvalidHash
        else Ok decoded
    end.

Definition parse_hash (encoded : string) : result (Params * string * string) :=
  match split_on "$" encoded with
  | [p0; p1; p2; p3; p4; p5] =>
      guard_err (negb (bool_decide (p0 = "")) || negb (bool_decide (p1 = "argon2id")))
        ErrInvalidHash;;
      guard_err (negb (bool_decide (p2 = "v=" +:+ format_int argon2_Version))) ErrInvalidHash;;
      match scan_cost p3 with
      | None => Er ErrInvalidHash
      | Some (m, t, p) =>
          guard_err (negb (bool_decide (p3 = cost_text m t p))) ErrInvalidHash;;
          salt ← decodePart p4;
          expected ← decodePart p5;
          let ps := {| MemoryKiB := m; Iterations := t; Parallelism := p;
                       SaltLength := len salt; KeyLength := len expected |} in
          match validateParams ps with
          | Er e => Er (EJoin ErrInvalidHash e)
          | Ok _ => Ok (ps, salt, expected)
          end
      end
  | _ => Er ErrInvalidHash
  end.

(** [argon2.IDKey]: password, salt, iterations, memory, threads, key length. *)
Class Argon2 := IDKey : string → string → Z → Z → Z → Z → string.
(** It returns the number of bytes it is asked for. *)
Class Argon2Laws (A : Argon2) := IDKey_length : ∀ plain salt t m p n,
  0 ≤ n → len (IDKey plain salt t m p n) = n.

Section hasher.
Context `{Argon2}.

Definition password_Verify (h : Hasher) (encoded plain : string) : result (bool * bool) :=
  '(ps, salt, expected) ← parse_hash encoded;
  let actual := IDKey plain salt (Iterations ps) (MemoryKiB ps) (Parallelism ps) (len expected) in
  Ok (bool_decide (actual = expected), negb (bool_decide (ps = params h))).

Definition hash_with (h : Hasher) (salt plain : string) : string :=
  hash_text (params h) salt
    (IDKey plain salt (Iterations (params h)) (MemoryKiB (params h)) (Parallelism (params h))
       (KeyLength (params h))).

Context `{Engine} `{Collation} `{Store}.

(** [Hash]: the salt is the next [SaltLength] random bytes. *)
Definition password_Hash (h : Hasher) (plain : string) : M string :=
  salt ← handle (EWrap "generate password salt") (random_bytes (SaltLength (params h)));
  mret (hash_with h salt plain).
End hasher.
