(* ===== verification/Jwt.v ===== *)
(** [server/internal/auth/jwt/jwt.go]: access tokens.  Signing and parsing a
    token text is third-party code, a parameter with its documented laws. *)

From S2P Require Import Prelude GoStd GoStrings Engine Model Cache World WorldLaws.

Local Open Scope Z_scope.

Definition Audience : string := "kirby-admin".
Definition minute : Z := 60 * 10 ^ 9.
Definition AccessTTL : Z := 15 * minute.
Definition ErrInvalidToken : Err := EOther "invalid access token".

(** [Claims] with its registered claims. *)
Record Claims := {
  cl_SessionID : string;
  cl_Issuer : string;
  cl_Subject : string;
  cl_Audience : list string;
  cl_ExpiresAt : option Z;
  cl_NotBefore : option Z;
  cl_IssuedAt : option Z;
  cl_ID : string;
}.

(** [jwtlib.NewNumericDate]: whole seconds. *)
Definition numeric_date (t : Z) : Z := t / 10 ^ 9 * 10 ^ 9.

(** The user id in the subject. *)
Definition claims_UserID (c : Claims) : result Z :=
  match parse_int64 (cl_Subject c) with
  | Some value => if value <=? 0 then Er ErrInvalidToken else Ok value
  | None => Er ErrInvalidToken
  end.

Record Manager := {
  issuer : string;
  audience : string;
  activeKID : string;
  accessTTL : Z;
  signing_keys : gmap string string;
}.

Record JwtConfig := {
  jc_Issuer : string;
  jc_ActiveKID : string;
  jc_AccessTTL : Z;
  jc_Keys : gmap string string;
}.

Definition key_ok (kv : string * string) : bool := negb (blank kv.1) && (32 <=? len kv.2).

Definition newManager (cfg : JwtConfig) (aud : string) : result Manager :=
  guard_err (blank (jc_Issuer cfg)) (EOther "JWT issuer is required");;
  guard_err (blank aud) (EOther "JWT audience is required");;
  guard_err (jc_AccessTTL cfg <=? 0) (EOther "JWT access TTL must be greater than zero");;
  guard_err (negb (jc_AccessTTL cfg =? AccessTTL)) (EOther "JWT access TTL must be 15m0s");;
  guard_err (blank (jc_ActiveKID cfg)) (EOther "active JWT key id is required");;
  guard_err (negb (forallb key_ok (map_to_list (jc_Keys cfg))))
    (EOther "each JWT key must have a non-empty id and at least 32 bytes");;
  guard_err (bool_decide (jc_Keys cfg !! jc_ActiveKID cfg = None))
    (EOther "active JWT key is absent");;
  Ok {| issuer := jc_Issuer cfg; audience := aud; activeKID := jc_ActiveKID cfg;
        accessTTL := jc_AccessTTL cfg; signing_keys := jc_Keys cfg |}.
Definition jwt_New (cfg : JwtConfig) : result Manager := newManager cfg Audience.

(** Whether the options of the parser accept the claims: issuer, audience,
    required expiry, issue time and start of validity, at a time. *)
Definition within_bounds (m : Manager) (t : Z) (c : Claims) : bool :=
  bool_decide (cl_Issuer c = issuer m) && bool_decide (audience m ∈ cl_Audience c)
  && match cl_ExpiresAt c with Some e => t <? e | None => false end
  && match cl_NotBefore c with Some b => b <=? t | None => true end
  && match cl_IssuedAt c with Some i => i <=? t | None => true end.

(** [github.com/golang-jwt/jwt/v5] with HS256: [SignedString] with a key and its
    id in the header, and [ParseWithClaims] with a function from the id in the
    header to a key, which returns the claims of a valid token. *)
Class JWTLib := {
  SignedString : string → string → Claims → result string;
  ParseWithClaims : (option string → option string) → (Claims → bool) → string → option Claims;
}.

Class JWTLaws (L : JWTLib) := {
  (** A signed text is valid under its key as long as the options accept it. *)
  parse_signed : ∀ kid key c text keyfunc accepts,
    SignedString kid key c = Ok text → keyfunc (Some kid) = Some key → accepts c = true →
    ParseWithClaims keyfunc accepts text = Some c;
  (** The claims are those in the text. *)
  signed_claims : ∀ kid key c text keyfunc accepts c',
    SignedString kid key c = Ok text → ParseWithClaims keyfunc accepts text = Some c' → c' = c;
  (** It has visible characters. *)
  signed_visible : ∀ kid key c text, SignedString kid key c = Ok text → blank text = false;
  (** What is parsed was accepted by the options. *)
  parse_accepts : ∀ keyfunc accepts text c,
    ParseWithClaims keyfunc accepts text = Some c → accepts c = true;
}.

Section manager.
Context `{JWTLib}.

(** The function that selects the key of a token. *)
Definition keyfunc (m : Manager) (kid : option string) : option string :=
  match kid with
  | Some kid => if blank kid then None else signing_keys m !! kid
  | None => None
  end.

Definition jwt_Verify (m : Manager) (t : Z) (encoded : string) : result Claims :=
  if blank encoded then Er ErrInvalidToken
  else
    match ParseWithClaims (keyfunc m) (within_bounds m t) encoded with
    | None => Er ErrInvalidToken
    | Some claims =>
        if bool_decide (cl_IssuedAt claims = None) || bool_decide (cl_NotBefore claims = None)
           || bool_decide (cl_ExpiresAt claims = None) || bool_decide (cl_ID claims = "")
           || bool_decide (cl_SessionID claims = "")
        then Er ErrInvalidToken
        else match claims_UserID claims with
             | Er _ => Er ErrInvalidToken
             | Ok _ => Ok claims
             end
    end.

Definition issue_claims (m : Manager) (userID : Z) (sessionID : string) (t : Z) (id : string) :
    Claims :=
  {| cl_SessionID := sessionID; cl_Issuer := issuer m; cl_Subject := format_int userID;
     cl_Audience := [audience m]; cl_ExpiresAt := Some (numeric_date (t + accessTTL m));
     cl_NotBefore := Some (numeric_date t); cl_IssuedAt := Some (numeric_date t);
     cl_ID := id |}.

Context `{Engine} `{Collation} `{Store}.

Definition Issue (m : Manager) (userID : Z) (sessionID : string) : M (string * Z) :=
  when_err ((userID <=? 0) || blank sessionID) (EOther "JWT user and session are required");;
  t ← now;
  id ← random;
  let key := default "" (signing_keys m !! activeKID m) in
  signed ← lift (match SignedString (activeKID m) key (issue_claims m userID sessionID t id) with
                 | Er e => Er (EWrap "sign access token" e)
                 | Ok s => Ok s
                 end);
  mret (signed, t + accessTTL m).
End manager.
