(* ===== verification/CredentialLaws.v ===== *)
(** The credentials of [Credential]: base64 decodes what it encodes, and a
    generated credential is exactly what is accepted. *)

From Stdlib Require Import Ascii.
From S2P Require Import Prelude GoStd GoStrings Json Credential.

Local Open Scope Z_scope.

(** ** Bytes *)

Lemma byte_range c : 0 ≤ byte c < 256.
Proof. unfold byte. pose proof (N_ascii_bounded c). lia. Qed.
Lemma chr_is z c : z = byte c → chr z = c.
Proof. intros ->. apply chr_byte. Qed.

(** ** Digits *)

Lemma b64_val_char v : 0 ≤ v < 64 → b64_val (b64_char v) = Some v.
Proof.
  intros Hv. assert (forallb (λ n, bool_decide (b64_val (b64_char (Z.of_nat n)) = Some (Z.of_nat n)))
    (seq 0 64) = true) as Hall by (vm_compute; reflexivity).
  rewrite forallb_forall in Hall. specialize (Hall (Z.to_nat v)).
  rewrite Z2Nat.id in Hall by lia. eapply bool_decide_eq_true, Hall, in_seq. lia.
Qed.

(** The characters of the alphabet are ASCII, and neither white space nor a
    dot. *)
Definition digit (c : ascii) : bool := match b64_val c with Some _ => true | None => false end.

Lemma digit_facts c : digit c = true →
  byte c < 128 ∧ unicode_is_space (byte c) = false ∧ c ≠ "."%char ∧ byte c ≠ 10 ∧ byte c ≠ 13.
Proof.
  assert (∀ c, implb (digit c) ((byte c <? 128) && negb (unicode_is_space (byte c))
    && negb (bool_decide (c = "."%char)) && negb (byte c =? 10) && negb (byte c =? 13)) = true)
    as Hall by (intros [[] [] [] [] [] [] [] []]; vm_compute; reflexivity).
  specialize (Hall c). intros Hd. rewrite Hd in Hall. simpl in Hall. bool_hyps. done.
Qed.

Lemma digit_char v : 0 ≤ v < 64 → digit (b64_char v) = true.
Proof. intros Hv. unfold digit. by rewrite b64_val_char. Qed.

Ltac bytes := repeat match goal with c : ascii |- _ =>
  lazymatch goal with _ : 0 ≤ byte c < 256 |- _ => fail | _ => pose proof (byte_range c) end end.
Ltac div := bytes; Z.to_euclidean_division_equations; lia.

(** Induction by blocks of three bytes. *)
Lemma blocks_ind (P : string → Prop) :
  P "" → (∀ a, P (String a "")) → (∀ a b, P (String a (String b ""))) →
  (∀ a b c s, P s → P (String a (String b (String c s)))) → ∀ s, P s.
Proof.
  intros H0 H1 H2 H3. fix IH 1. intros [|a [|b [|c s]]]; [done|apply H1|apply H2|].
  apply H3, IH.
Qed.

Lemma b64_encode_digits s : forall_bytes digit (b64_encode s) = true.
Proof.
  induction s as [|a|a b|a b c s IH] using blocks_ind; simpl;
    rewrite ?digit_char by div; done.
Qed.

Lemma b64_decode_encode_digits s : b64_decode_digits (b64_encode s) = Some s.
Proof.
  induction s as [|a|a b|a b c s IH] using blocks_ind; [done| | |].
  all: cbn [b64_encode b64_decode_digits]; rewrite !b64_val_char by div; cbn; rewrite ?IH; cbn;
    repeat (f_equal; try (apply chr_is; div)).
Qed.

(** ** Texts of the alphabet *)

Lemma drop_newlines_digits s : forall_bytes digit s = true → drop_newlines s = s.
Proof.
  induction s as [|c s IH]; simpl; [done|]. intros [Hc Hs]%andb_true_iff.
  destruct (digit_facts c Hc) as (_ & _ & _ & H1 & H2).
  apply Z.eqb_neq in H1, H2. by rewrite H1, H2, IH.
Qed.

Lemma b64_roundtrip s : b64_decode (b64_encode s) = Some s.
Proof.
  unfold b64_decode. rewrite drop_newlines_digits by apply b64_encode_digits.
  apply b64_decode_encode_digits.
Qed.

Lemma b64_encode_inj a b : b64_encode a = b64_encode b → a = b.
Proof.
  intros Heq. pose proof (b64_roundtrip a) as Ha. rewrite Heq, b64_roundtrip in Ha.
  by injection Ha.
Qed.

Lemma digit_dense c : digit c = true → dense c = true.
Proof.
  intros (H1 & H2 & _)%digit_facts. unfold dense. rewrite H2.
  by rewrite (proj2 (Z.ltb_lt _ _) H1).
Qed.

Lemma count_digits s : forall_bytes digit s = true → count_byte "." s = 0.
Proof.
  induction s as [|c s IH]; simpl; [done|]. intros [Hc Hs]%andb_true_iff.
  destruct (digit_facts c Hc) as (_ & _ & Hne & _). by rewrite decide_False, IH.
Qed.
(** ** Credentials *)

Lemma encodes_bytes_spec n text :
  encodes_bytes n text = true ↔ ∃ bytes, len bytes = n ∧ text = b64_encode bytes.
Proof.
  unfold encodes_bytes. split.
  - destruct (b64_decode text) as [bytes|]; [|done]. intros ?. bool_hyps. by exists bytes.
  - intros (bytes & <- & ->). rewrite b64_roundtrip, Z.eqb_refl. by rewrite bool_decide_true.
Qed.

Section credential.
Context `{Pepper}.

Lemma parse_spec full id secret : parse full = Ok (id, secret) ↔
  ∃ p s, len p = publicEntropyBytes ∧ len s = secretEntropyBytes ∧
    full = Full (Generate p s) ∧ id = PublicID (Generate p s) ∧ secret = b64_encode s.
Proof.
  split.
  - unfold parse. case_match eqn:Hfmt; [done|]. destruct (cut "." full) as [[a b]|] eqn:Hcut; [|done].
    destruct (cut_prefix publicPrefix a) as [e|] eqn:Hpre; [|done].
    destruct (encodes_bytes publicEntropyBytes e) eqn:Hp; [|done].
    destruct (encodes_bytes secretEntropyBytes b) eqn:Hs; [|done]. intros [= <- <-].
    apply encodes_bytes_spec in Hp as (p & Hlp & ->), Hs as (s & Hls & ->).
    apply cut_Some in Hcut. apply cut_prefix_Some in Hpre. exists p, s. subst. done.
  - intros (p & s & Hp & Hs & -> & -> & ->). unfold parse, Generate. cbn [Full PublicID].
    set (id := publicPrefix +:+ b64_encode p).
    change (id +:+ "." +:+ b64_encode s) with (id +:+ String "." (b64_encode s)).
    assert (count_byte "." id = 0) as Hid.
    { unfold id. rewrite count_app, (count_digits (b64_encode p)) by apply b64_encode_digits. done. }
    assert (∀ x, forall_bytes dense (b64_encode x) = true) as Hdense.
    { intros x. apply (forall_bytes_impl digit); [apply digit_dense|apply b64_encode_digits]. }
    rewrite trim_space_dense, bool_decide_true by
      (try done; unfold id; rewrite !forall_bytes_app; simpl; by rewrite !Hdense).
    rewrite count_app, count_same, Hid, (count_digits (b64_encode s)) by apply b64_encode_digits.
    cbn [negb orb]. change (0 + (1 + 0) =? 1) with true. cbn [negb].
    rewrite cut_app by done. unfold id. rewrite cut_prefix_app.
    rewrite !(proj2 (encodes_bytes_spec _ _)) by eauto. done.
Qed.

(** C35: [Verify] accepts exactly what [Generate] can issue: a text is accepted for
    a public identifier and a digest if and only if it is the full credential of
    some 16 and 32 random bytes, the identifier is the one generated with it and
    the digest is its keyed digest. *)
Theorem Verify_exact full expectedPublicID expectedHash :
  Verify full expectedPublicID expectedHash = true ↔
  ∃ p s, len p = publicEntropyBytes ∧ len s = secretEntropyBytes ∧
    full = Full (Generate p s) ∧ expectedPublicID = PublicID (Generate p s) ∧
    expectedHash = hash full.
Proof.
  unfold Verify. destruct (parse full) as [[id secret]|e] eqn:Hparse.
  - apply parse_spec in Hparse as (p & s & Hp & Hs & Hfull & Hid & _). split.
    + intros ?. bool_hyps. subst. by exists p, s.
    + intros (p' & s' & Hp' & Hs' & Hfull' & -> & ->).
      assert (parse full = Ok (PublicID (Generate p' s'), b64_encode s')) as H1
        by (apply parse_spec; by exists p', s').
      assert (parse full = Ok (PublicID (Generate p s), b64_encode s)) as H2
        by (apply parse_spec; by exists p, s).
      assert (PublicID (Generate p' s') = PublicID (Generate p s)) as Hids
        by congruence.
      rewrite !bool_decide_true; [done|done|congruence].
  - split; [done|]. intros (p & s & Hp & Hs & Hfull & _).
    assert (parse full = Ok (PublicID (Generate p s), b64_encode s)) as H1
      by (apply parse_spec; by exists p, s).
    congruence.
Qed.

(** A credential can be taken apart again: the public identifier of an issued
    credential is found in it, and different random bytes give different
    identifiers and different credentials. *)
Theorem Generate_roundtrip p s :
  len p = publicEntropyBytes → len s = secretEntropyBytes →
  credential_PublicID (Full (Generate p s)) = Ok (PublicID (Generate p s)) ∧
  ∀ p' s', (PublicID (Generate p' s') = PublicID (Generate p s) → p' = p) ∧
    (Full (Generate p' s') = Full (Generate p s) → p' = p ∧ s' = s).
Proof.
  intros Hp Hs. split.
  - unfold credential_PublicID.
    by rewrite (proj2 (parse_spec _ (PublicID (Generate p s)) (b64_encode s))) by eauto 10.
  - intros p' s'. split.
    + intros Heq. apply (inj (String.append _)) in Heq. by apply b64_encode_inj.
    + assert (∀ x y, Full (Generate x y) =
        (publicPrefix +:+ b64_encode x) +:+ String "." (b64_encode y)) as Hfull by done.
      rewrite !Hfull. intros Heq.
      assert (∀ x y, cut "." ((publicPrefix +:+ b64_encode x) +:+ String "." (b64_encode y)) =
        Some (publicPrefix +:+ b64_encode x, b64_encode y)) as Hcut.
      { intros x y. apply cut_app. rewrite count_app, (count_digits (b64_encode x)); [done|].
        apply b64_encode_digits. }
      pose proof (Hcut p' s') as H1. rewrite Heq, Hcut in H1. injection H1 as H1 H2.
      apply (inj (String.append _)) in H1. apply b64_encode_inj in H1, H2. done.
Qed.
End credential.

Lemma Generate_roundtrip_witness :
  let p := "public entropy.." in let s := "secret entropy, thirty-two bytes" in
  let _ : Pepper := λ full, full in
  len p = publicEntropyBytes ∧ len s = secretEntropyBytes ∧
  credential_PublicID (Full (Generate p s)) = Ok (PublicID (Generate p s)) ∧
  ∀ p' s', (PublicID (Generate p' s') = PublicID (Generate p s) → p' = p) ∧
    (Full (Generate p' s') = Full (Generate p s) → p' = p ∧ s' = s).
Proof.
  intros p s pepper. split; [reflexivity|]. split; [reflexivity|].
  exact (Generate_roundtrip p s eq_refl eq_refl).
Defined.
