(* ===== verification/RepoProject.v ===== *)
(** [server/internal/repository]: project.go, environment.go and
    project_api_key.go. *)

From S2P Require Import Prelude GoStd GoStrings Engine Model Cache World WorldLaws RepoScope RepoConfig RepoSnapshot.

Local Open Scope Z_scope.

Record ProjectUpdate := {
  pj_Name : string;
  pj_Description : string;
  pj_UpdatedBy : Z;
  pj_Version : Z;
}.

Record EnvironmentUpdate := {
  eu_Name : string;
  eu_Description : string;
  eu_Enabled : bool;
  eu_UpdatedBy : Z;
  eu_Version : Z;
}.

Record APIKeyMutation := {
  mu_EnvironmentID : Z;
  mu_ProjectID : Z;
  mu_KeyID : Z;
  mu_CurrentPublicID : string;
}.

(** ** The assignments of the UPDATE statements *)

Definition project_update (u : ProjectUpdate) (at_ : Z) (r : ProjectRow) : ProjectRow :=
  {| prj_meta := touch (pj_UpdatedBy u) at_ (pj_Version u + 1) (prj_meta r);
     prj_EnvironmentID := prj_EnvironmentID r; prj_Key := prj_Key r;
     prj_Name := pj_Name u; prj_Description := pj_Description u |}.

Definition environment_update (u : EnvironmentUpdate) (at_ : Z) (r : EnvironmentRow) :
    EnvironmentRow :=
  {| env_meta := touch (eu_UpdatedBy u) at_ (eu_Version u + 1) (env_meta r);
     env_ProjectID := env_ProjectID r; env_Key := env_Key r;
     env_Name := eu_Name u; env_Description := eu_Description u;
     env_Enabled := eu_Enabled u |}.

Definition key_rotate (replacement : ProjectAPIKeyRow) (r : ProjectAPIKeyRow) :
    ProjectAPIKeyRow :=
  {| key_meta := touch_record (r_UpdatedAt (key_meta replacement)) (key_meta r);
     key_ProjectID := key_ProjectID r; key_PublicID := key_PublicID replacement;
     key_Name := key_Name r; key_SecretHash := key_SecretHash replacement;
     key_SecretSuffix := key_SecretSuffix replacement; key_CreatedBy := key_CreatedBy r;
     key_LastUsedAt := None; key_RevokedAt := key_RevokedAt r |}.

(** The usage and revocation columns of a key. *)
Definition key_stamp (at_ : Z) (used revoked : option Z) (r : ProjectAPIKeyRow) :
    ProjectAPIKeyRow :=
  {| key_meta := touch_record at_ (key_meta r); key_ProjectID := key_ProjectID r;
     key_PublicID := key_PublicID r; key_Name := key_Name r;
     key_SecretHash := key_SecretHash r; key_SecretSuffix := key_SecretSuffix r;
     key_CreatedBy := key_CreatedBy r; key_LastUsedAt := used; key_RevokedAt := revoked |}.

Definition key_set_project (projectID : Z) (r : ProjectAPIKeyRow) : ProjectAPIKeyRow :=
  {| key_meta := key_meta r; key_ProjectID := projectID; key_PublicID := key_PublicID r;
     key_Name := key_Name r; key_SecretHash := key_SecretHash r;
     key_SecretSuffix := key_SecretSuffix r; key_CreatedBy := key_CreatedBy r;
     key_LastUsedAt := key_LastUsedAt r; key_RevokedAt := key_RevokedAt r |}.

Definition set_resource (id : string) (log : AuditLogRow) : AuditLogRow :=
  {| aud_meta := aud_meta log; aud_ActorUserID := aud_ActorUserID log;
     aud_EnvironmentID := aud_EnvironmentID log; aud_Action := aud_Action log;
     aud_ResourceType := aud_ResourceType log; aud_ResourceID := id;
     aud_Result := aud_Result log; aud_RequestID := aud_RequestID log;
     aud_DetailsJSON := aud_DetailsJSON log |}.

Section project.
Context `{Engine} `{Collation} `{Store}.

(** ** project.go *)

Definition project_id (p : ProjectRow) : Z := ID (prj_meta p).

Definition project_Create (project : ProjectRow) : M ProjectRow :=
  t ← now;
  let project := map_prj_meta (PrepareInsert t) project in
  k ← wrapped (exec_insert projects_t project);
  mret (map_prj_meta (set_ID k) project).

(** Without an environment the project is not scoped. *)
Definition project_FindByID (environmentID projectID : Z) : M ProjectRow :=
  r ← wrapped (get (λ d, head (
        if 0 <? environmentID
        then projectScope environmentID (λ p, project_id p =? projectID) d
        else select (λ p, (project_id p =? projectID) && live (prj_meta p)) (projects d))));
  must_find "project" r.

(** [LIKE '%keyword%'] under the server's collation is a parameter. *)
Definition project_List (like : string → string → bool) (environmentID : Z)
    (keyword : string) (page : PageRequest) : M (PageResult ProjectRow) :=
  let matches p := like (prj_Name p) keyword || like (prj_Description p) keyword in
  paginate (λ d, rev (
    if 0 <? environmentID then projectScope environmentID matches d
    else select (λ p, live (prj_meta p) && matches p) (projects d))) page.

Definition project_Update (projectID : Z) (update : ProjectUpdate) : M unit :=
  t ← now;
  affected ← wrapped (exec_update projects_t
    (λ _ p, live (prj_meta p) && (project_id p =? projectID)
            && (Version (prj_meta p) =? pj_Version update))
    (project_update update t));
  must_affect "project" affected.

Definition project_LockByID (environmentID projectID : Z) : M ProjectRow :=
  r ← wrapped (get (λ d, head (projectScope environmentID
         (λ p, project_id p =? projectID) d)));
  must_find "project" r.

(** ** environment.go *)

Definition environment_id (e : EnvironmentRow) : Z := ID (env_meta e).

Definition recordAudit (environmentID : Z) (audit : AuditLogRow) : M unit :=
  RecordForEnvironment environmentID (set_resource (format_int environmentID) audit).

Definition environment_Create (environment : EnvironmentRow) (audit : AuditLogRow) :
    M EnvironmentRow :=
  t ← now;
  let environment :=
    {| env_meta := PrepareInsert t (env_meta environment);
       env_ProjectID := env_ProjectID environment; env_Key := env_Key environment;
       env_Name := env_Name environment; env_Description := env_Description environment;
       env_Enabled := true |} in
  k ← wrapped (exec_insert environments_t environment);
  recordAudit k audit;;
  mret (map_env_meta (set_ID k) environment).

Definition environment_Update (environmentID : Z) (update : EnvironmentUpdate)
    (audit : AuditLogRow) : M unit :=
  t ← now;
  affected ← wrapped (exec_update environments_t
    (λ _ e, (environment_id e =? environmentID)
            && (Version (env_meta e) =? eu_Version update) && live (env_meta e))
    (environment_update update t));
  must_affect "environment" affected;;
  recordAudit environmentID audit.

Definition environment_List : M (list EnvironmentRow) :=
  wrapped (find (λ d, select (λ e, live (env_meta e)) (environments d))).

Definition environment_FindByID (environmentID : Z) : M EnvironmentRow :=
  r ← wrapped (get (λ d, head (select (λ e, (environment_id e =? environmentID)
         && live (env_meta e)) (environments d))));
  must_find "environment" r.

(** ** project_api_key.go *)

Definition key_id (k : ProjectAPIKeyRow) : Z := r_ID (key_meta k).

Definition key_Create (environmentID projectID : Z) (key : ProjectAPIKeyRow) :
    M ProjectAPIKeyRow :=
  lockScopedProject environmentID projectID;;
  t ← now;
  let key := map_key_meta (PrepareRecord t) (key_set_project projectID key) in
  k ← handle (classifyKeyWriteError "project API key") (exec_insert project_api_keys_t key);
  mret (map_key_meta (set_record_ID k) key).

Definition key_List (environmentID projectID : Z) : M (list ProjectAPIKeyRow) :=
  wrapped (find (λ d, rev (apiKeyScope environmentID
                             (λ k, key_ProjectID k =? projectID) d))).

Definition key_FindByID (environmentID projectID keyID : Z) : M ProjectAPIKeyRow :=
  r ← wrapped (get (λ d, head (apiKeyScope environmentID
         (λ k, (key_ProjectID k =? projectID) && (key_id k =? keyID)) d)));
  must_find "project API key" r.

Definition key_LockByID := key_FindByID.

(** [apiKeyWriteScope]: the ownership check is part of the write. *)
Definition apiKeyWriteScope (d : DB) (m : APIKeyMutation) (k : ProjectAPIKeyRow) : bool :=
  (key_id k =? mu_KeyID m) && (key_ProjectID k =? mu_ProjectID m)
  && bool_decide (key_PublicID k = mu_CurrentPublicID m)
  && bool_decide (key_RevokedAt k = None)
  && project_live d (mu_ProjectID m) && environment_of d (mu_EnvironmentID m) (mu_ProjectID m).

Definition key_Rotate (mutation : APIKeyMutation) (replacement : ProjectAPIKeyRow) : M unit :=
  affected ← handle (classifyKeyWriteError "project API key")
    (exec_update project_api_keys_t (λ d, apiKeyWriteScope d mutation)
       (key_rotate replacement));
  must_affect "project API key rotation" affected.

Definition key_Revoke (mutation : APIKeyMutation) (revokedAt : Z) : M unit :=
  affected ← wrapped (exec_update project_api_keys_t (λ d, apiKeyWriteScope d mutation)
    (λ r, key_stamp revokedAt (key_LastUsedAt r) (Some revokedAt) r));
  must_affect "project API key revocation" affected.

Definition LockRuntimeCredential (publicID : string) : M ProjectAPIKeyRow :=
  r ← wrapped (get (λ d, head (select (λ k, bool_decide (key_PublicID k = publicID))
         (project_api_keys d))));
  must_find "runtime API key" r.

(** A live project with an enabled live environment. *)
Definition FindRuntimeProject (projectID : Z) : M ProjectRow :=
  r ← wrapped (get (λ d, head (select (λ p, (project_id p =? projectID) && live (prj_meta p)
         && negb (bool_decide (select (λ e, (env_ProjectID e =? project_id p)
               && env_Enabled e && live (env_meta e)) (environments d) = [])))
         (projects d))));
  must_find "runtime project" r.

Definition FindRuntimeConfig (projectID : Z) (configKey : string) : M ConfigRow :=
  r ← wrapped (get (λ d, head (select (λ c, (cfg_ProjectID c =? projectID)
         && text_eq (cfg_Key c) configKey && live (cfg_meta c)) (configs d))));
  must_find "runtime config" r.

(** The newest live release. *)
Definition FindReleasedSnapshot (projectID configID : Z) : M SnapshotRow :=
  r ← wrapped (get (λ d, last (select (λ s, (snp_ProjectID s =? projectID)
         && (snp_ConfigID s =? configID) && (snp_Status s =? SnapshotStatusReleased)
         && live (snp_meta s)) (snapshots d))));
  must_find "released runtime snapshot" r.

Definition MarkUsed (publicID : string) (usedAt : Z) : M unit :=
  wrapped (exec_update project_api_keys_t
    (λ _ k, bool_decide (key_PublicID k = publicID) && bool_decide (key_RevokedAt k = None)
       && match key_LastUsedAt k with None => true | Some t => t <? usedAt end)
    (λ r, key_stamp usedAt (Some usedAt) (key_RevokedAt r) r));;
  mret tt.

End project.
