(* ===== verification/RepoIdentity.v ===== *)
(** [server/internal/repository]: user.go, role.go and
    user_environment_role.go: accounts, roles and memberships.  A change of
    what a role or a member may do advances the version of the environments it
    concerns, which is the generation of the permission cache. *)

From stdpp Require Import sorting.
From S2P Require Import Prelude GoStd GoStrings Engine Model Cache World WorldLaws RepoScope RepoProject.

Local Open Scope Z_scope.

Definition managedUserListLimit : nat := 1000.

Record ManagedUserUpdate := {
  mu_UserID : Z;
  mu_DisplayName : string;
  mu_SystemAdmin : bool;
  mu_Version : Z;
  mu_ActorID : Z;
}.

Record ManagedUserStatusUpdate := {
  ms_UserID : Z;
  ms_Enabled : bool;
  ms_Version : Z;
  ms_ActorID : Z;
}.

Record RoleUpdate := {
  ru_Name : string;
  ru_Description : string;
  ru_UpdatedBy : Z;
  ru_Version : Z;
}.

Record RoleWithPermissions := {
  rwp_Role : RoleRow;
  rwp_Permissions : list PermissionRow;
}.

Record PermissionAssignment := {
  pa_UserID : Z;
  pa_EnvironmentID : Z;
}.

Record EnvironmentMemberRecord := {
  em_User : UserRow;
  em_Roles : list RoleWithPermissions;
}.

Record MemberRoleUpdate := {
  mr_EnvironmentID : Z;
  mr_UserID : Z;
  mr_RoleIDs : list Z;
  mr_ActorID : Z;
}.

(** ** The assignments of the UPDATE statements *)

Definition user_with (m : Meta) (displayName hash : string) (enabled admin mustChange : bool)
    (r : UserRow) : UserRow :=
  {| usr_meta := m; usr_Username := usr_Username r; usr_DisplayName := displayName;
     usr_PasswordHash := hash; usr_Enabled := enabled; usr_IsSystemAdmin := admin;
     usr_MustChangePassword := mustChange; usr_LastLoginAt := usr_LastLoginAt r |}.

Definition user_update (u : ManagedUserUpdate) (at_ : Z) (r : UserRow) : UserRow :=
  user_with (touch (mu_ActorID u) at_ (mu_Version u + 1) (usr_meta r)) (mu_DisplayName u)
    (usr_PasswordHash r) (usr_Enabled r) (mu_SystemAdmin u) (usr_MustChangePassword r) r.
Definition user_status (u : ManagedUserStatusUpdate) (at_ : Z) (r : UserRow) : UserRow :=
  user_with (touch (ms_ActorID u) at_ (ms_Version u + 1) (usr_meta r)) (usr_DisplayName r)
    (usr_PasswordHash r) (ms_Enabled u) (usr_IsSystemAdmin r) (usr_MustChangePassword r) r.
Definition user_password (hash : string) (actorID at_ : Z) (r : UserRow) : UserRow :=
  user_with (touch_next actorID at_ (usr_meta r)) (usr_DisplayName r) hash (usr_Enabled r)
    (usr_IsSystemAdmin r) false r.
Definition user_rehash (hash : string) (at_ : Z) (r : UserRow) : UserRow :=
  user_with (touch_next (UpdatedBy (usr_meta r)) at_ (usr_meta r)) (usr_DisplayName r) hash
    (usr_Enabled r) (usr_IsSystemAdmin r) (usr_MustChangePassword r) r.
(** A promoted account is also restored. *)
Definition user_promote (displayName hash : string) (version at_ : Z) (r : UserRow) : UserRow :=
  user_with {| ID := ID (usr_meta r); CreatedBy := CreatedBy (usr_meta r);
               UpdatedBy := UpdatedBy (usr_meta r); CreatedAt := CreatedAt (usr_meta r);
               UpdatedAt := at_; Version := version + 1; DeletedAt := None |}
    displayName hash true true false r.

Definition role_update (u : RoleUpdate) (at_ : Z) (r : RoleRow) : RoleRow :=
  {| rol_meta := touch (ru_UpdatedBy u) at_ (ru_Version u + 1) (rol_meta r);
     rol_Key := rol_Key r; rol_Name := ru_Name u; rol_Description := ru_Description u;
     rol_Builtin := rol_Builtin r |}.

(** The revocation stamp of a refresh token. *)
Definition token_revoke (at_ : Z) (r : RefreshTokenRow) : RefreshTokenRow :=
  {| tok_meta := touch_record at_ (tok_meta r); tok_UserID := tok_UserID r;
     tok_SessionID := tok_SessionID r; tok_TokenHash := tok_TokenHash r;
     tok_ExpiresAt := tok_ExpiresAt r; tok_LastUsedAt := tok_LastUsedAt r;
     tok_RevokedAt := Some at_; tok_ReplacedByID := tok_ReplacedByID r |}.

Definition user_id (u : UserRow) : Z := ID (usr_meta u).
Definition role_id (r : RoleRow) : Z := ID (rol_meta r).

Section identity.
Context `{Engine} `{Collation} `{Store}.

Definition record_system (id : Z) (audit : AuditLogRow) : M unit :=
  RecordSystem (set_resource (format_int id) audit).

(** ** user_environment_role.go: the generation of an environment *)

Definition bumpEnvironmentPermissionGeneration (actorID environmentID : Z) : M unit :=
  t ← now;
  affected ← wrapped (exec_update environments_t
    (λ _ e, (environment_id e =? environmentID) && live (env_meta e))
    (map_env_meta (touch_next actorID t)));
  must_affect "environment permission generation" affected.

(** [slices.Sort] and [slices.Compact]: each environment once, in order. *)
Definition bumpEnvironmentPermissionGenerations (environmentIDs : list Z) (actorID : Z) : M unit :=
  each_m (bumpEnvironmentPermissionGeneration actorID)
    (merge_sort Z.le (remove_dups environmentIDs)).

(** [p.key LIKE 'system:%'] under the server's collation. *)
Definition system_key (p : PermissionRow) : bool :=
  String.prefix (collate "system:") (collate (prm_Key p)).

Definition ensureRolesContainNoSystemPermissions (roleIDs : list Z) : M unit :=
  exists_ ← wrapped (query (λ d, existsb (λ p,
    system_key p && existsb (λ rp, (rpm_PermissionID rp =? r_ID (prm_meta p))
        && bool_decide (rpm_RoleID rp ∈ roleIDs)) (select (λ _, true) (role_permissions d)))
    (select (λ _, true) (permissions d))));
  when_err exists_ ESystemRolePermission.

(** ** role.go *)

(** The join of a role with its links; a link is unique. *)
Definition permissionsForRole (roleID : Z) : M (list PermissionRow) :=
  wrapped (find (λ d, select (λ p, existsb (λ rp, (rpm_PermissionID rp =? r_ID (prm_meta p))
      && (rpm_RoleID rp =? roleID)) (select (λ _, true) (role_permissions d)))
    (permissions d))).

Definition rolesWithPermissions (roles : list RoleRow) : M (list RoleWithPermissions) :=
  collect_m (λ role, permissions ← permissionsForRole (role_id role);
    mret {| rwp_Role := role; rwp_Permissions := permissions |}) roles.

Definition role_Create (role : RoleRow) (audit : AuditLogRow) : M RoleRow :=
  t ← now;
  let role := {| rol_meta := PrepareInsert t (rol_meta role); rol_Key := rol_Key role;
                 rol_Name := rol_Name role; rol_Description := rol_Description role;
                 rol_Builtin := false |} in
  k ← handle (classifyKeyWriteError "role") (exec_insert roles_t role);
  record_system k audit;;
  mret (map_rol_meta (set_ID k) role).

Definition role_Update (roleID : Z) (update : RoleUpdate) (audit : AuditLogRow) : M unit :=
  t ← now;
  affected ← wrapped (exec_update roles_t
    (λ _ r, (role_id r =? roleID) && (Version (rol_meta r) =? ru_Version update)
            && live (rol_meta r))
    (role_update update t));
  must_affect "role" affected;;
  record_system roleID audit.

Definition role_find (roleID : Z) : M RoleRow :=
  r ← wrapped (get (λ d, head (select (λ r, (role_id r =? roleID) && live (rol_meta r)) (roles d))));
  must_find "role" r.
Definition lockRole := role_find.

Definition lockAssignments (roleID : Z) : M (list PermissionAssignment) :=
  links ← wrapped (find (λ d, select (λ a, uer_RoleID a =? roleID) (user_environment_roles d)));
  mret ((λ a, {| pa_UserID := uer_UserID a; pa_EnvironmentID := uer_EnvironmentID a |}) <$> links).

Definition role_Delete (roleID actorID : Z) (audit : AuditLogRow) : M unit :=
  role ← lockRole roleID;
  when_err (rol_Builtin role) EBuiltinRole;;
  assignments ← lockAssignments roleID;
  when_err (negb (bool_decide (assignments = []))) ERoleInUse;;
  t ← now;
  affected ← wrapped (exec_update roles_t
    (λ _ r, (role_id r =? roleID) && live (rol_meta r))
    (map_rol_meta (soft_delete actorID t t)));
  must_affect "role" affected;;
  record_system roleID audit.

Definition role_List : M (list RoleWithPermissions) :=
  roles ← wrapped (find (λ d, select (λ r, live (rol_meta r)) (roles d)));
  rolesWithPermissions roles.

Definition role_FindByID (roleID : Z) : M RoleWithPermissions :=
  role ← role_find roleID;
  permissions ← permissionsForRole roleID;
  mret {| rwp_Role := role; rwp_Permissions := permissions |}.

Definition lockPermissions (permissionIDs : list Z) : M unit :=
  if bool_decide (permissionIDs = []) then mret tt
  else
    items ← wrapped (find (λ d, select (λ p, bool_decide (r_ID (prm_meta p) ∈ permissionIDs))
                              (permissions d)));
    when_err (negb (bool_decide (length items = length permissionIDs))) EPermissionSetMismatch;;
    when_err (existsb (λ p, String.prefix "system:" (prm_Key p)) items) ESystemRolePermission.

Definition new_role_permission (roleID actorID t permissionID : Z) : RolePermissionRow :=
  {| rpm_meta := PrepareRecord t new_record; rpm_RoleID := roleID;
     rpm_PermissionID := permissionID; rpm_CreatedBy := actorID |}.

(** Each link is stamped with its own reading of the clock. *)
Definition replacePermissions (roleID : Z) (permissionIDs : list Z) (actorID : Z) : M unit :=
  wrapped (exec_delete role_permissions_t (λ _ rp, rpm_RoleID rp =? roleID));;
  if bool_decide (permissionIDs = []) then mret tt
  else
    links ← collect_m (λ id, t ← now; mret (new_role_permission roleID actorID t id)) permissionIDs;
    wrapped (exec_insert_all role_permissions_t links).

Definition advancePermissionGenerations (roleID actorID : Z)
    (assignments : list PermissionAssignment) : M unit :=
  t ← now;
  affected ← wrapped (exec_update roles_t
    (λ _ r, (role_id r =? roleID) && live (rol_meta r))
    (map_rol_meta (touch_next actorID t)));
  must_affect "role" affected;;
  bumpEnvironmentPermissionGenerations (pa_EnvironmentID <$> assignments) actorID.

Definition UpdatePermissions (roleID : Z) (permissionIDs : list Z) (actorID : Z)
    (audit : AuditLogRow) : M (list PermissionAssignment) :=
  lockRole roleID;;
  lockPermissions permissionIDs;;
  assignments ← lockAssignments roleID;
  replacePermissions roleID permissionIDs actorID;;
  advancePermissionGenerations roleID actorID assignments;;
  record_system roleID audit;;
  mret assignments.

(** ** user_environment_role.go *)

Definition rolesForMember (environmentID userID : Z) : M (list RoleWithPermissions) :=
  roles ← wrapped (find (λ d, select (λ r, live (rol_meta r) && existsb (λ a,
      (uer_RoleID a =? role_id r) && (uer_EnvironmentID a =? environmentID)
      && (uer_UserID a =? userID)) (select (λ _, true) (user_environment_roles d))) (roles d)));
  rolesWithPermissions roles.

Definition ListMembers (environmentID : Z) : M (list EnvironmentMemberRecord) :=
  users ← wrapped (find (λ d,
    if bool_decide (select (λ e, (environment_id e =? environmentID) && live (env_meta e))
                      (environments d) = []) then []
    else select (λ u, live (usr_meta u) && existsb (λ a, (uer_UserID a =? user_id u)
      && (uer_EnvironmentID a =? environmentID)) (select (λ _, true) (user_environment_roles d)))
      (users d)));
  collect_m (λ user, roles ← rolesForMember environmentID (user_id user);
    mret {| em_User := user; em_Roles := roles |}) users.

Definition lockMember (environmentID userID : Z) : M unit :=
  e ← wrapped (get (λ d, head (select (λ e, (environment_id e =? environmentID)
         && live (env_meta e)) (environments d))));
  must_find "environment" e;;
  u ← wrapped (get (λ d, head (select (λ u, (user_id u =? userID) && live (usr_meta u)) (users d))));
  must_find "environment member" u;;
  mret tt.

Definition lockRoles (roleIDs : list Z) : M unit :=
  if bool_decide (roleIDs = []) then mret tt
  else
    found ← wrapped (find (λ d, select (λ r, bool_decide (role_id r ∈ roleIDs)
                              && live (rol_meta r)) (roles d)));
    when_err (negb (bool_decide (length found = length roleIDs))) (ENotFound "environment role");;
    ensureRolesContainNoSystemPermissions roleIDs.

Definition new_user_role (environmentID userID actorID t roleID : Z) : UserEnvironmentRoleRow :=
  {| uer_meta := PrepareRecord t new_record; uer_UserID := userID;
     uer_EnvironmentID := environmentID; uer_RoleID := roleID; uer_CreatedBy := actorID |}.

Definition replaceLinks (environmentID userID : Z) (roleIDs : list Z) (actorID : Z) : M unit :=
  wrapped (exec_delete user_environment_roles_t
    (λ _ a, (uer_UserID a =? userID) && (uer_EnvironmentID a =? environmentID)));;
  if bool_decide (roleIDs = []) then mret tt
  else
    links ← collect_m (λ id, t ← now; mret (new_user_role environmentID userID actorID t id)) roleIDs;
    wrapped (exec_insert_all user_environment_roles_t links).

Definition ReplaceRoles (update : MemberRoleUpdate) (audit : AuditLogRow) : M unit :=
  lockMember (mr_EnvironmentID update) (mr_UserID update);;
  lockRoles (mr_RoleIDs update);;
  replaceLinks (mr_EnvironmentID update) (mr_UserID update) (mr_RoleIDs update) (mr_ActorID update);;
  bumpEnvironmentPermissionGenerations [mr_EnvironmentID update] (mr_ActorID update);;
  RecordForEnvironment (mr_EnvironmentID update)
    (set_resource (format_int (mr_UserID update)) audit).

(** ** user.go *)

Definition ListManagedUsers : M (list UserRow) :=
  users ← wrapped (find (λ d, take (S managedUserListLimit)
                             (select (λ u, live (usr_meta u)) (users d))));
  when_err (bool_decide (managedUserListLimit < length users)%nat) EUserListLimit;;
  mret users.

Definition CreateManagedUser (user : UserRow) (audit : AuditLogRow) : M UserRow :=
  t ← now;
  let user := user_with (PrepareInsert t (usr_meta user)) (usr_DisplayName user)
    (usr_PasswordHash user) true (usr_IsSystemAdmin user) (usr_MustChangePassword user) user in
  k ← handle (classifyKeyWriteError "user") (exec_insert users_t user);
  record_system k audit;;
  mret (map_usr_meta (set_ID k) user).

Definition find_user (p : UserRow → bool) : M UserRow :=
  r ← wrapped (get (λ d, head (select p (users d))));
  match r with Some u => mret u | None => throw EUserNotFound end.
Definition lockManagedUser (userID : Z) : M UserRow :=
  find_user (λ u, (user_id u =? userID) && live (usr_meta u)).
Definition GetByID := lockManagedUser.
Definition FindByUsername (username : string) : M UserRow :=
  find_user (λ u, text_eq (usr_Username u) username && live (usr_meta u)).

Definition is_admin (u : UserRow) : bool :=
  usr_Enabled u && usr_IsSystemAdmin u && live (usr_meta u).

Definition ensureSystemAdminSurvives (admins : list UserRow) (removingID : Z) : result unit :=
  if existsb (λ admin, negb (user_id admin =? removingID) && is_admin admin) admins
  then Ok tt else Er ELastSystemAdmin.

Definition ensureLastSystemAdmin (removingID : Z) : M unit :=
  admins ← wrapped (find (λ d, take 2 (select is_admin (users d))));
  lift (ensureSystemAdminSurvives admins removingID).

Definition updateManagedUser (userID : Z) (values : UserRow → UserRow) (expectedVersion : Z) :
    M unit :=
  affected ← wrapped (exec_update users_t
    (λ _ u, (user_id u =? userID) && live (usr_meta u)
            && (Version (usr_meta u) =? expectedVersion)) values);
  when_err (negb (affected =? 1)) EUserVersionConflict.

Definition revokeUserSessions (userID t : Z) : M unit :=
  wrapped (exec_update refresh_tokens_t
    (λ _ k, (tok_UserID k =? userID) && bool_decide (tok_RevokedAt k = None)) (token_revoke t));;
  mret tt.

Definition UpdateManagedUser (update : ManagedUserUpdate) (audit : AuditLogRow) : M UserRow :=
  user ← lockManagedUser (mu_UserID update);
  when_err (negb (Version (usr_meta user) =? mu_Version update)) EUserVersionConflict;;
  (if usr_Enabled user && usr_IsSystemAdmin user && negb (mu_SystemAdmin update)
   then ensureLastSystemAdmin (user_id user) else mret tt);;
  t ← now;
  updateManagedUser (mu_UserID update) (user_update update t) (mu_Version update);;
  record_system (mu_UserID update) audit;;
  mret (user_with (touch_next (mu_ActorID update) t (usr_meta user)) (mu_DisplayName update)
    (usr_PasswordHash user) (usr_Enabled user) (mu_SystemAdmin update)
    (usr_MustChangePassword user) user).

Definition UpdateManagedPassword (userID : Z) (passwordHash : string) (actorID : Z)
    (audit : AuditLogRow) : M unit :=
  user ← lockManagedUser userID;
  t ← now;
  affected ← wrapped (exec_update users_t
    (λ _ u, (user_id u =? userID) && live (usr_meta u)) (user_password passwordHash actorID t));
  when_err (negb (affected =? 1)) EUserVersionConflict;;
  revokeUserSessions (user_id user) t;;
  record_system userID audit.

Definition UpdateManagedStatus (update : ManagedUserStatusUpdate) (audit : AuditLogRow) :
    M UserRow :=
  user ← lockManagedUser (ms_UserID update);
  when_err (negb (Version (usr_meta user) =? ms_Version update)) EUserVersionConflict;;
  (if usr_Enabled user && usr_IsSystemAdmin user && negb (ms_Enabled update)
   then ensureLastSystemAdmin (user_id user) else mret tt);;
  t ← now;
  updateManagedUser (ms_UserID update) (user_status update t) (ms_Version update);;
  (if ms_Enabled update then mret tt
   else t' ← now; revokeUserSessions (user_id user) t');;
  record_system (ms_UserID update) audit;;
  mret (user_with (touch_next (ms_ActorID update) t (usr_meta user)) (usr_DisplayName user)
    (usr_PasswordHash user) (ms_Enabled update) (usr_IsSystemAdmin user)
    (usr_MustChangePassword user) user).

Definition UpdatePasswordHash (userID : Z) (previousHash nextHash : string) : M unit :=
  t ← now;
  affected ← wrapped (exec_update users_t
    (λ _ u, (user_id u =? userID) && live (usr_meta u)
            && text_eq (usr_PasswordHash u) previousHash && usr_Enabled u)
    (user_rehash nextHash t));
  when_err (negb (affected =? 1)) EUserVersionConflict.

Definition ListEnvironments (user : UserRow) : M (list EnvironmentRow) :=
  wrapped (find (λ d, select (λ e, env_Enabled e && live (env_meta e)
    && (usr_IsSystemAdmin user || existsb (λ a, (uer_EnvironmentID a =? environment_id e)
          && (uer_UserID a =? user_id user)) (select (λ _, true) (user_environment_roles d))))
    (environments d))).

Definition createSystemAdmin (username displayName passwordHash : string) : M UserRow :=
  t ← now;
  let user := {| usr_meta := PrepareInsert t (new_meta 0 0); usr_Username := username;
                 usr_DisplayName := displayName; usr_PasswordHash := passwordHash;
                 usr_Enabled := true; usr_IsSystemAdmin := true;
                 usr_MustChangePassword := false; usr_LastLoginAt := None |} in
  k ← handle (classifyKeyWriteError "user") (exec_insert users_t user);
  mret (map_usr_meta (set_ID k) user).

Definition promoteSystemAdmin (user : UserRow) (displayName passwordHash : string) : M unit :=
  t ← now;
  affected ← wrapped (exec_update users_t (λ _ u, user_id u =? user_id user)
    (user_promote displayName passwordHash (Version (usr_meta user)) t));
  must_affect "user" affected;;
  revokeUserSessions (user_id user) t.

(** The flag tells whether the account is new. *)
Definition CreateOrPromoteSystemAdmin (username displayName passwordHash : string) :
    M (UserRow * bool) :=
  r ← wrapped (get (λ d, head (select (λ u, text_eq (usr_Username u) username) (users d))));
  match r with
  | None => user ← createSystemAdmin username displayName passwordHash; mret (user, true)
  | Some user =>
      promoteSystemAdmin user displayName passwordHash;;
      promoted ← GetByID (user_id user);
      mret (promoted, false)
  end.

End identity.
