(* ===== verification/RepoSession.v ===== *)
(** [server/internal/repository/refresh_token.go]: browser sessions.  A session
    is a chain of refresh tokens; each may be exchanged once for its
    replacement, and a second use of a consumed token revokes the chain.
    [server/internal/repository/import_record.go]: the claims that make an
    import idempotent. *)

From S2P Require Import Prelude GoStd GoStrings Engine Model Cache World WorldLaws RepoIdentity.

Local Open Scope Z_scope.

(** ** The assignments of the UPDATE statements *)

Definition user_login (loginAt : Z) (r : UserRow) : UserRow :=
  {| usr_meta := touch (UpdatedBy (usr_meta r)) loginAt (Version (usr_meta r)) (usr_meta r);
     usr_Username := usr_Username r; usr_DisplayName := usr_DisplayName r;
     usr_PasswordHash := usr_PasswordHash r; usr_Enabled := usr_Enabled r;
     usr_IsSystemAdmin := usr_IsSystemAdmin r;
     usr_MustChangePassword := usr_MustChangePassword r; usr_LastLoginAt := Some loginAt |}.

(** A consumed token: used, revoked and linked to its replacement. *)
Definition token_consume (nextID t : Z) (r : RefreshTokenRow) : RefreshTokenRow :=
  {| tok_meta := touch_record t (tok_meta r); tok_UserID := tok_UserID r;
     tok_SessionID := tok_SessionID r; tok_TokenHash := tok_TokenHash r;
     tok_ExpiresAt := tok_ExpiresAt r; tok_LastUsedAt := Some t;
     tok_RevokedAt := Some t; tok_ReplacedByID := Some nextID |}.

(** [next.UserID = current.UserID; next.SessionID = current.SessionID] *)
Definition token_join (current next : RefreshTokenRow) : RefreshTokenRow :=
  {| tok_meta := tok_meta next; tok_UserID := tok_UserID current;
     tok_SessionID := tok_SessionID current; tok_TokenHash := tok_TokenHash next;
     tok_ExpiresAt := tok_ExpiresAt next; tok_LastUsedAt := tok_LastUsedAt next;
     tok_RevokedAt := tok_RevokedAt next; tok_ReplacedByID := tok_ReplacedByID next |}.

Definition token_id (k : RefreshTokenRow) : Z := r_ID (tok_meta k).
Definition unrevoked (k : RefreshTokenRow) : bool := bool_decide (tok_RevokedAt k = None).

Definition validateNewRefreshToken (token : RefreshTokenRow) : result unit :=
  guard_err ((tok_UserID token <=? 0) || bool_decide (tok_SessionID token = "")
             || negb (len (tok_TokenHash token) =? 32) || (tok_ExpiresAt token =? zero_time))
    (EOther "invalid refresh token record");;
  guard_err (negb (unrevoked token) || negb (bool_decide (tok_ReplacedByID token = None)))
    (EOther "new refresh token is already revoked").

Section session.
Context `{Engine} `{Collation} `{Store}.

Definition CreateSession (token : RefreshTokenRow) (loginAt : Z) : M RefreshTokenRow :=
  lift (validateNewRefreshToken token);;
  affected ← wrapped (exec_update users_t
    (λ _ u, (user_id u =? tok_UserID token) && usr_Enabled u && live (usr_meta u))
    (user_login loginAt));
  when_err (negb (affected =? 1)) EUserNotFound;;
  t ← now;
  let token := map_tok_meta (PrepareRecord t) token in
  k ← wrapped (exec_insert refresh_tokens_t token);
  mret (map_tok_meta (set_record_ID k) token).

Definition lockTokenByHash (tokenHash : string) : M (option RefreshTokenRow) :=
  wrapped (get (λ d, head (select (λ k, bool_decide (tok_TokenHash k = tokenHash))
                             (refresh_tokens d)))).

(** The column of session identifiers has a binary collation. *)
Definition session_tokens (userID : Z) (sessionID : string) (k : RefreshTokenRow) : bool :=
  (tok_UserID k =? userID) && bool_decide (tok_SessionID k = sessionID).

Definition revokeSession (userID : Z) (sessionID : string) (t : Z) : M unit :=
  wrapped (exec_update refresh_tokens_t
    (λ _ k, session_tokens userID sessionID k && unrevoked k) (token_revoke t));;
  mret tt.

(** Whether the locked token may be exchanged.  A consumed token is a replay:
    its session is revoked before the error is reported. *)
Definition checkRotation (current : option RefreshTokenRow) (t : Z) : M RefreshTokenRow :=
  match current with
  | None => throw ERefreshTokenNotFound
  | Some current =>
      when_err (unrevoked current && negb (t <? tok_ExpiresAt current)) ERefreshTokenExpired;;
      if unrevoked current then mret current
      else
        when_err (bool_decide (tok_ReplacedByID current = None)) ERefreshTokenNotFound;;
        revokeSession (tok_UserID current) (tok_SessionID current) t;;
        throw ERefreshTokenReplay
  end.

Definition consumeToken (currentID nextID t : Z) : M unit :=
  affected ← wrapped (exec_update refresh_tokens_t
    (λ _ k, (token_id k =? currentID) && unrevoked k) (token_consume nextID t));
  when_err (negb (affected =? 1)) (EOther "refresh token changed while locked").

Definition Rotate (tokenHash : string) (next : RefreshTokenRow) (t : Z) : M RefreshTokenRow :=
  when_err (negb (len tokenHash =? 32)) ERefreshTokenNotFound;;
  when_err (negb (len (tok_TokenHash next) =? 32) || negb (t <? tok_ExpiresAt next))
    (EOther "invalid replacement refresh token");;
  current ← lockTokenByHash tokenHash;
  current ← checkRotation current t;
  at_ ← now;
  let next := map_tok_meta (PrepareRecord at_) (token_join current next) in
  k ← wrapped (exec_insert refresh_tokens_t next);
  consumeToken (token_id current) k t;;
  mret (map_tok_meta (set_record_ID k) next).

Definition RevokeSessionByTokenHash (tokenHash : string) (t : Z) : M unit :=
  if negb (len tokenHash =? 32) then mret tt
  else
    current ← lockTokenByHash tokenHash;
    match current with
    | None => mret tt
    | Some current => revokeSession (tok_UserID current) (tok_SessionID current) t
    end.

End session.

Definition import_complete (targetSnapshotID : Z) (resultJSON : string) (t : Z)
    (r : ImportRecordRow) : ImportRecordRow :=
  {| imp_meta := {| w_ID := w_ID (imp_meta r); w_CreatedBy := w_CreatedBy (imp_meta r);
                    w_UpdatedBy := w_UpdatedBy (imp_meta r);
                    w_CreatedAt := w_CreatedAt (imp_meta r); w_UpdatedAt := t;
                    w_Version := w_Version (imp_meta r) + 1 |};
     imp_UserID := imp_UserID r; imp_SourceEnvironmentID := imp_SourceEnvironmentID r;
     imp_TargetEnvironmentID := imp_TargetEnvironmentID r;
     imp_SourceSnapshotID := imp_SourceSnapshotID r;
     imp_TargetProjectID := imp_TargetProjectID r;
     imp_TargetSnapshotID := Some targetSnapshotID; imp_IdempotencyKey := imp_IdempotencyKey r;
     imp_RequestHash := imp_RequestHash r; imp_Status := ImportStatusSucceeded;
     imp_ResultJSON := Some resultJSON; imp_ErrorMessage := "" |}.

Definition import_id (r : ImportRecordRow) : Z := w_ID (imp_meta r).

Section import.
Context `{Engine} `{Collation} `{Store}.

(** The two dialects: a duplicate key, or ON CONFLICT DO NOTHING on the only
    unique constraint of the table. *)
Definition insertClaim (record : ImportRecordRow) : M (option ImportRecordRow) :=
  t ← now;
  let record := map_imp_meta (PrepareWorkflow t) record in
  inserted ← attempt (exec_insert import_records_t record);
  match inserted with
  | Ok k => mret (Some (map_imp_meta (set_workflow_ID k) record))
  | Er e => if isDuplicateKeyError e then mret None else throw e
  end.

(** The columns are numbers and a binary text. *)
Definition same_claim (record r : ImportRecordRow) : bool :=
  (imp_UserID r =? imp_UserID record)
  && (imp_TargetEnvironmentID r =? imp_TargetEnvironmentID record)
  && bool_decide (imp_IdempotencyKey r = imp_IdempotencyKey record).

Definition lockExistingClaim (record : ImportRecordRow) : M ImportRecordRow :=
  existing ← wrapped (get (λ d, head (select (same_claim record) (import_records d))));
  must_find "import record" existing.

(** The claim, and whether this call created it. *)
Definition Claim (record : ImportRecordRow) : M (ImportRecordRow * bool) :=
  created ← wrapped (insertClaim record);
  match created with
  | Some claimed => mret (claimed, true)
  | None => existing ← lockExistingClaim record; mret (existing, false)
  end.

Definition Complete (recordID targetSnapshotID : Z) (resultJSON : string) : M unit :=
  t ← now;
  affected ← wrapped (exec_update import_records_t
    (λ _ r, (import_id r =? recordID) && bool_decide (imp_Status r = ImportStatusPending))
    (import_complete targetSnapshotID resultJSON t));
  must_affect "import record" affected.

End import.
