(* ===== verification/LogicBase.v ===== *)
(** What the logic layer shares: the authorisation interface it is written
    against, audit records, the loop over pages and
    [logic/config_resources.go].  Then what the permission check promises, as
    laws of the interface, and the resolver's implementation of them: a check
    writes nothing to the database, and to the cache only entries of its own
    namespace. *)

From S2P Require Import Prelude GoStd Json GoStrings Proto Codec Schema Engine Model Cache Convert World WorldLaws RepoScope Permission RepoConfig RepoChild RepoSnapshot.

Local Open Scope Z_scope.

Section base.
Context `{Engine} `{Collation} `{Store}.

(** [environmentPermissionChecker] and the system-wide check of
    [projectAuthorizer]. *)
Class Authorizer := {
  Check : Z → Z → list string → M unit;
  CheckSystem : Z → string → M unit;
}.

(** The production binding is the permission resolver. *)
#[global] Instance resolver `{!Source} : Authorizer := {|
  Check := Require;
  CheckSystem := RequireSystem;
|}.

(** The audit record of a change that succeeded. *)
Definition succeeded (actor : Actor) (action resourceType : string) (resourceID : string) :
    AuditLogRow :=
  {| aud_meta := new_record; aud_ActorUserID := Some (UserID actor);
     aud_EnvironmentID := None; aud_Action := action; aud_ResourceType := resourceType;
     aud_ResourceID := resourceID; aud_Result := AuditResultSucceeded;
     aud_RequestID := RequestID actor; aud_DetailsJSON := None |}.

(** ** Pages

    [for offset := 0; ; offset += MaxPageSize { ... }] until the total is
    reached or a page is empty.  [fuel] bounds the iterations; [all_pages]
    takes one more than the rows of the table. *)
Section pages.
Context {A : Type} (list_page : PageRequest → M (PageResult A)).

Fixpoint pages_from (fuel : nat) (offset : Z) (items : list A) : M (list A) :=
  match fuel with
  | O => throw EFuel
  | S fuel =>
      page ← list_page {| Offset := offset; Limit := MaxPageSize |};
      let items := items ++ Items page in
      if (Total page <=? Z.of_nat (length items)) || bool_decide (length (Items page) = 0%nat)
      then mret items
      else pages_from fuel (offset + MaxPageSize) items
  end.
End pages.

Definition table_size {R} `{Row R} (T : Field_of R) (d : DB) : nat :=
  length (select (λ _, true) (get_table T d)).

Definition all_pages {A R} `{Row R} (T : Field_of R)
    (list_page : PageRequest → M (PageResult A)) : M (list A) :=
  λ w, pages_from list_page (S (table_size T (db w))) 0 [] w.

(** A page with its items converted. *)
Definition convert_page {A B} (convert : list A → result (list B)) (page : PageResult A) :
    M (PageResult B) :=
  items ← lift (convert (Items page));
  mret (Build_PageResult items (Total page) (p_Offset page) (p_Limit page)).

(** ** config_resources.go *)

Context `{Protojson}.

Definition resources_lock (environmentID configID : Z) :
    M (ConfigRow * list Structure * list ConfigEnum) :=
  config ← config_LockByID environmentID configID;
  structureRows ← structure_ListForConfig environmentID configID;
  enumRows ← enum_ListForConfig environmentID configID;
  structures ← lift (StructuresToProto structureRows);
  enums ← lift (EnumsToProto enumRows);
  mret (config, structures, enums).

End base.

Definition GetEnumKey (t : option Field_Type) : string :=
  match t with
  | Some {| Kind := Some (Field_Type_EnumKey k) |} => k
  | _ => ""
  end.

Definition fieldsReferenceEnum (fields : list (option Field)) (key : string) : bool :=
  existsb (λ field, bool_decide (GetEnumKey (Field_GetType field) = key)) fields.

Definition fieldsReferenceStructure (fields : list (option Field)) (key : string) : bool :=
  existsb (λ field, bool_decide (GetStructureKey (Field_GetType field) = key)) fields.

(** Every permission entry of the cache has such a key. *)
Definition permission_key (k : string) : Prop :=
  ∃ u e v, k = permissionContentKey u e v.

Section confined.
Context `{Engine} `{Collation} {St : Store} {SL : StoreLaws St}.

(** A function that adds cache entries only under keys of [P]. *)
Definition confined (P : string → Prop) {A} (m : M A) : Prop :=
  ∀ w r w', m w = (r, w') → ∀ k v, holds (cache w') k v → holds (cache w) k v ∨ P k.

Lemma confined_cacheless P {A} (m : M A) : cacheless m → confined P m.
Proof. intros Hm w r w' Hr k v. rewrite (Hm _ _ _ Hr). auto. Qed.
Lemma confined_bind P {A B} (m : M A) (k : A → M B) :
  confined P m → (∀ a, confined P (k a)) → confined P (m ≫= k).
Proof.
  intros Hm Hk w r w'. unfold mbind, M_bind. destruct (m w) as [[a|e] w1] eqn:Hr.
  - intros Hk' k' v Hv. destruct (Hk _ _ _ _ Hk' _ _ Hv) as [Hv'|?]; [|auto].
    by eapply Hm.
  - intros [= <- <-]. by eapply Hm.
Qed.
Lemma confined_handle P {A} h (m : M A) : confined P m → confined P (handle h m).
Proof.
  intros Hm w r w'. unfold handle. destruct (m w) as [[a|e] w1] eqn:Hr;
    intros [= <- <-]; by eapply Hm.
Qed.
Lemma confined_attempt P {A} (m : M A) : confined P m → confined P (attempt m).
Proof.
  intros Hm w r w'. unfold attempt. destruct (m w) as [x w1] eqn:Hr.
  intros [= <- <-]. by eapply Hm.
Qed.
Lemma confined_get P k : confined P (cache_get k).
Proof.
  intros w r w'. unfold cache_get. destruct (Get _ _ _) as [x c] eqn:Hg.
  intros [= <- <-] k' v Hv. left. by eapply get_shrinks.
Qed.
Lemma confined_set (P : string → Prop) k v ttl : P k → confined P (cache_set k v ttl).
Proof.
  intros Hk w r w'. unfold cache_set. destruct (Set_ _ _ _ _ _) as [x c] eqn:Hg.
  intros [= <- <-] k' v' Hv. eapply set_holds in Hv as [?|[-> _]]; [..|exact Hg]; auto.
Qed.
Lemma confined_increment (P : string → Prop) k ttl : P k → confined P (cache_increment k ttl).
Proof.
  intros Hk w r w'. unfold cache_increment. destruct (Increment _ _ _ _) as [x c] eqn:Hg.
  intros [= <- <-] k' v' Hv. eapply increment_holds in Hv as [?|Hk']; [..|exact Hg];
    [by left|right; by subst].
Qed.
Lemma confined_weaken (P Q : string → Prop) {A} (m : M A) : (∀ k, P k → Q k) →
  confined P m → confined Q m.
Proof. intros HPQ Hm w r w' Hr k v Hv. destruct (Hm _ _ _ Hr _ _ Hv); auto. Qed.
Lemma confined_each P {A} (f : A → M unit) l : (∀ x, confined P (f x)) → confined P (each_m f l).
Proof.
  intros Hf. induction l as [|x l IH]; simpl.
  - apply confined_cacheless, cacheless_quiet, quiet_ret.
  - by apply confined_bind.
Qed.
Lemma confined_delete P k : confined P (cache_delete k).
Proof.
  intros w r w'. unfold cache_delete. destruct (Delete _ _) as [x c] eqn:Hg.
  intros [= <- <-] k' v Hv. left. by eapply delete_shrinks.
Qed.
Lemma confined_TX P {A} (op : M A) : confined P op → confined P (TX op).
Proof.
  intros Hop w r w'. unfold TX. destruct (next_fault w) as [[x|] w0] eqn:Hf;
    apply next_fault_store in Hf as [_ Hc0]; [intros [= <- <-]; rewrite Hc0; auto|].
  destruct (op w0) as [[b|e'] w1] eqn:Hr; pose proof (Hop _ _ _ Hr) as Hc1; rewrite Hc0 in Hc1.
  - destruct (next_fault w1) as [[x|] w2] eqn:Hf2; apply next_fault_store in Hf2 as [_ Hc2];
      rewrite <-Hc2 in Hc1; [destruct (applied x)|]; intros [= <- <-]; exact Hc1.
  - intros [= <- <-]; exact Hc1.
Qed.
End confined.

Create HintDb confined.
#[export] Hint Resolve confined_bind confined_handle confined_attempt confined_get
  confined_delete confined_TX : confined.
#[export] Hint Extern 5 (confined _ _) =>
  apply confined_cacheless; solve [auto with cacheless quiet] : confined.

Ltac confined :=
  intros; try (unfold wrapped);
  repeat first
    [ solve [auto with confined cacheless quiet]
    | apply confined_cacheless; solve [cacheless]
    | apply confined_bind; [|intros ?]
    | apply confined_handle | apply confined_attempt | apply confined_TX
    | apply confined_each; intros ?
    | match goal with
      | |- confined _ (if ?b then _ else _) => destruct b
      | |- confined _ (match ?x with _ => _ end) => destruct x
      | |- confined _ (let _ := _ in _) => cbv zeta
      end ].

(** ** The interface *)

Section interface.
Context `{Engine} `{Collation} {St : Store} {SL : StoreLaws St}.

Class AuthorizerLaws (Au : Authorizer) := {
  check_reads : ∀ u e ks, reads (Check u e ks);
  check_confined : ∀ u e ks, confined permission_key (Check u e ks);
  check_system_reads : ∀ u k, reads (CheckSystem u k);
  check_system_confined : ∀ u k, confined permission_key (CheckSystem u k);
}.

(** ** The implementation *)

Lemma quiet_db_Identity u e : quiet (db_Identity u e).
Proof. unfold db_Identity, enabledUser. quiet. Qed.
Lemma quiet_db_SystemAdmin u : quiet (db_SystemAdmin u).
Proof. unfold db_SystemAdmin, enabledUser. quiet. Qed.
Lemma quiet_db_Keys u e : quiet (db_KeysForUserEnvironment u e).
Proof. unfold db_KeysForUserEnvironment. quiet. Qed.
Lemma quiet_db_List : quiet db_PermissionList.
Proof. unfold db_PermissionList. quiet. Qed.

Lemma quiet_identity u e : quiet (identity u e).
Proof.
  unfold identity. apply quiet_bind; [apply quiet_handle, quiet_db_Identity|]. quiet.
Qed.
Lemma quiet_all_keys : quiet allPermissionKeys.
Proof.
  unfold allPermissionKeys. apply quiet_bind; [|quiet].
  apply quiet_bind; [apply quiet_db_List|quiet].
Qed.
#[local] Hint Resolve quiet_identity quiet_all_keys quiet_db_Keys quiet_db_SystemAdmin : quiet.

Lemma reads_resolveAttempt u e : reads (resolveAttempt u e).
Proof.
  unfold resolveAttempt, loadPermissions, cachedPermissions, cachePermissions. reads.
Qed.
Lemma confined_resolveAttempt u e : confined permission_key (resolveAttempt u e).
Proof.
  unfold resolveAttempt, loadPermissions, cachedPermissions, cachePermissions. confined.
  apply confined_set. by eexists _, _, _.
Qed.
Lemma reads_resolve_from n u e : reads (resolve_from n u e).
Proof.
  induction n as [|n IH]; simpl; [reads|].
  apply reads_bind; [apply reads_attempt, reads_resolveAttempt|]. reads.
Qed.
Lemma confined_resolve_from n u e : confined permission_key (resolve_from n u e).
Proof.
  induction n as [|n IH]; simpl; [confined|].
  apply confined_bind; [apply confined_attempt, confined_resolveAttempt|]. confined.
Qed.

#[global] Instance resolver_laws : AuthorizerLaws (@resolver _ _ repositorySource).
Proof.
  split; simpl.
  - intros u e ks. unfold Require, Resolve. apply reads_bind; [apply reads_resolve_from|]. reads.
  - intros u e ks. unfold Require, Resolve.
    apply confined_bind; [apply confined_resolve_from|]. confined.
  - intros u k. unfold RequireSystem. reads.
  - intros u k. unfold RequireSystem. confined.
Qed.
End interface.
