(* ===== verification/LogicIdentity.v ===== *)
(** [server/internal/logic]: user.go, role.go and environment.go: the
    administration of accounts, roles and environments. *)

From S2P Require Import Prelude GoStd GoStrings Engine Model Cache World WorldLaws RepoScope Permission Password RepoProject RepoIdentity LogicBase.

Local Open Scope Z_scope.

Record UserCreate := {
  uc_Username : string;
  uc_DisplayName : string;
  uc_PlainPassword : string;
  uc_SystemAdmin : bool;
}.

Record UserUpdate := {
  uu_UserID : Z;
  uu_DisplayName : string;
  uu_SystemAdmin : bool;
  uu_Version : Z;
}.

Definition userAudit (actor : Actor) (action : string) : AuditLogRow :=
  succeeded actor action "user" "".
Definition roleAudit (actor : Actor) (action resourceType : string) : AuditLogRow :=
  succeeded actor action resourceType "".
Definition environmentAudit (actor : Actor) (action resourceType : string) : AuditLogRow :=
  succeeded actor action resourceType "".

(** [role.CreatedBy = actor.UserID; role.UpdatedBy = actor.UserID] *)
Definition by_actor (actor : Actor) (m : Meta) : Meta :=
  {| ID := ID m; CreatedBy := UserID actor; UpdatedBy := UserID actor;
     CreatedAt := CreatedAt m; UpdatedAt := UpdatedAt m; Version := Version m;
     DeletedAt := DeletedAt m |}.
Definition role_update_by (actor : Actor) (u : RoleUpdate) : RoleUpdate :=
  {| ru_Name := ru_Name u; ru_Description := ru_Description u; ru_UpdatedBy := UserID actor;
     ru_Version := ru_Version u |}.
Definition environment_update_by (actor : Actor) (u : EnvironmentUpdate) : EnvironmentUpdate :=
  {| eu_Name := eu_Name u; eu_Description := eu_Description u; eu_Enabled := eu_Enabled u;
     eu_UpdatedBy := UserID actor; eu_Version := eu_Version u |}.

Section identity.
Context `{Engine} `{Collation} `{Store} `{!Authorizer}.

(** The rest of [environmentAuthorizer] and [roleAuthorizer]. *)
Class PermissionCache := {
  ResolveKeys : Z → Z → M (list string * bool);
  InvalidateEntry : Z → Z → M unit;
}.
#[global] Instance resolver_cache `{!Source} : PermissionCache := {|
  ResolveKeys := Resolve;
  InvalidateEntry := Invalidate;
|}.

Context `{!PermissionCache} `{Argon2} (hasher : Hasher).

(** A failed clean-up of the cache is logged only. *)
Definition cleanup_entry (userID environmentID : Z) : M unit :=
  attempt (InvalidateEntry userID environmentID);; mret tt.

(** ** user.go *)

Definition user_logic_List (actor : Actor) : M (list UserRow) :=
  CheckSystem (UserID actor) SystemUserManage;;
  ListManagedUsers.

Definition user_logic_Create (actor : Actor) (input : UserCreate) : M UserRow :=
  CheckSystem (UserID actor) SystemUserManage;;
  hash ← handle (EWrap "hash managed user password") (password_Hash hasher (uc_PlainPassword input));
  let user := {| usr_meta := new_meta (UserID actor) (UserID actor);
                 usr_Username := uc_Username input; usr_DisplayName := uc_DisplayName input;
                 usr_PasswordHash := hash; usr_Enabled := true;
                 usr_IsSystemAdmin := uc_SystemAdmin input;
                 usr_MustChangePassword := false; usr_LastLoginAt := None |} in
  user ← TX (CreateManagedUser user (userAudit actor "user.create"));
  GetByID (user_id user).

Definition user_logic_Update (actor : Actor) (input : UserUpdate) : M UserRow :=
  CheckSystem (UserID actor) SystemUserManage;;
  TX (UpdateManagedUser
        {| mu_UserID := uu_UserID input; mu_DisplayName := uu_DisplayName input;
           mu_SystemAdmin := uu_SystemAdmin input; mu_Version := uu_Version input;
           mu_ActorID := UserID actor |} (userAudit actor "user.update")).

(** Everybody may change their own password. *)
Definition user_logic_UpdatePassword (actor : Actor) (userID : Z) (plainPassword : string) :
    M unit :=
  unless_m (UserID actor =? userID) (CheckSystem (UserID actor) SystemUserManage);;
  hash ← handle (EWrap "hash managed user password") (password_Hash hasher plainPassword);
  TX (UpdateManagedPassword userID hash (UserID actor) (userAudit actor "user.password.update")).

Definition user_logic_UpdateStatus (actor : Actor) (userID : Z) (enabled : bool) (version : Z) :
    M UserRow :=
  CheckSystem (UserID actor) SystemUserManage;;
  TX (UpdateManagedStatus
        {| ms_UserID := userID; ms_Enabled := enabled; ms_Version := version;
           ms_ActorID := UserID actor |} (userAudit actor "user.status.update")).

(** ** role.go *)

Definition role_logic_List : M (list RoleWithPermissions) := role_List.

Definition role_logic_Create (actor : Actor) (role : RoleRow) : M RoleWithPermissions :=
  CheckSystem (UserID actor) SystemRoleManage;;
  role ← TX (role_Create (map_rol_meta (by_actor actor) role) (roleAudit actor "role.create" "role"));
  role_FindByID (role_id role).

Definition role_logic_Update (actor : Actor) (roleID : Z) (update : RoleUpdate) :
    M RoleWithPermissions :=
  CheckSystem (UserID actor) SystemRoleManage;;
  TX (role_Update roleID (role_update_by actor update) (roleAudit actor "role.update" "role"));;
  role_FindByID roleID.

Definition role_logic_Delete (actor : Actor) (roleID : Z) : M unit :=
  CheckSystem (UserID actor) SystemRoleManage;;
  TX (role_Delete roleID (UserID actor) (roleAudit actor "role.delete" "role")).

Definition role_logic_ListPermissions (actor : Actor) : M (list PermissionRow) :=
  CheckSystem (UserID actor) SystemRoleManage;;
  db_PermissionList.

Definition role_logic_UpdatePermissions (actor : Actor) (roleID : Z) (permissionIDs : list Z) :
    M unit :=
  CheckSystem (UserID actor) SystemRoleManage;;
  assignments ← TX (UpdatePermissions roleID permissionIDs (UserID actor)
                      (roleAudit actor "role.permissions.update" "role"));
  each_m (λ a, cleanup_entry (pa_UserID a) (pa_EnvironmentID a)) assignments.

(** ** environment.go *)

(** A member without the system permission sees the member's environments. *)
Definition environment_logic_List (actor : Actor) : M (list EnvironmentRow) :=
  permitted ← attempt (CheckSystem (UserID actor) SystemEnvironmentManage);
  match permitted with
  | Ok _ => environment_List
  | Er e =>
      if is_Forbidden e then
        user ← GetByID (UserID actor);
        ListEnvironments user
      else throw e
  end.

Definition environment_logic_Create (actor : Actor) (environment : EnvironmentRow) :
    M EnvironmentRow :=
  CheckSystem (UserID actor) SystemEnvironmentManage;;
  environment ← TX (environment_Create (map_env_meta (by_actor actor) environment)
                      (environmentAudit actor "environment.create" "environment"));
  environment_FindByID (environment_id environment).

Definition environment_logic_Update (actor : Actor) (environmentID : Z)
    (update : EnvironmentUpdate) : M EnvironmentRow :=
  CheckSystem (UserID actor) SystemEnvironmentManage;;
  TX (environment_Update environmentID (environment_update_by actor update)
        (environmentAudit actor "environment.update" "environment"));;
  environment_FindByID environmentID.

Definition VerifyProject (environmentID projectID : Z) : M unit :=
  item ← environment_FindByID environmentID;
  when_err (negb (env_ProjectID item =? projectID)) (ENotFound "environment").

Definition environment_logic_Permissions (actor : Actor) (environmentID : Z) : M (list string) :=
  '(keys, _) ← ResolveKeys (UserID actor) environmentID;
  mret keys.

Definition environment_logic_ListMembers (actor : Actor) (environmentID : Z) :
    M (list EnvironmentMemberRecord) :=
  Check (UserID actor) environmentID [EnvironmentMemberManage];;
  ListMembers environmentID.

Definition UpdateMemberRoles (actor : Actor) (environmentID userID : Z) (roleIDs : list Z) :
    M unit :=
  Check (UserID actor) environmentID [EnvironmentMemberManage];;
  TX (ReplaceRoles
        {| mr_EnvironmentID := environmentID; mr_UserID := userID; mr_RoleIDs := roleIDs;
           mr_ActorID := UserID actor |}
        (environmentAudit actor "environment.member.roles.update" "user"));;
  cleanup_entry userID environmentID.

End identity.
