(* ===== verification/LogicProject.v ===== *)
(** [server/internal/logic]: project.go and api_key.go: projects and the
    runtime credentials of a project. *)

From S2P Require Import Prelude GoStd GoStrings Engine Model Cache World WorldLaws RepoScope Permission Credential RepoProject LogicBase.

Local Open Scope Z_scope.

Definition projectAudit (actor : Actor) (action resourceType : string) (resourceID : Z) :
    AuditLogRow :=
  succeeded actor action resourceType (format_int resourceID).
Definition apiKeyAudit (actor : Actor) (action : string) (keyID : Z) : AuditLogRow :=
  succeeded actor action "project_api_key" (format_int keyID).

(** The new values of the columns a rotation replaces. *)
Definition key_replacement (generated : Generated) (t : Z) (locked : ProjectAPIKeyRow) :
    ProjectAPIKeyRow :=
  {| key_meta := touch_record t (key_meta locked); key_ProjectID := key_ProjectID locked;
     key_PublicID := PublicID generated; key_Name := key_Name locked;
     key_SecretHash := Hash generated; key_SecretSuffix := SecretSuffix generated;
     key_CreatedBy := key_CreatedBy locked; key_LastUsedAt := None;
     key_RevokedAt := key_RevokedAt locked |}.

(** [publicKey]: the digest never leaves the logic layer. *)
Definition publicKey (item : ProjectAPIKeyRow) : ProjectAPIKeyRow :=
  {| key_meta := key_meta item; key_ProjectID := key_ProjectID item;
     key_PublicID := key_PublicID item; key_Name := key_Name item; key_SecretHash := "";
     key_SecretSuffix := key_SecretSuffix item; key_CreatedBy := key_CreatedBy item;
     key_LastUsedAt := key_LastUsedAt item; key_RevokedAt := key_RevokedAt item |}.

Record APIKeySecretResult := {
  sr_Key : ProjectAPIKeyRow;
  sr_Secret : string;
}.

(** The constant-time comparison is equality. *)
Definition samePublicID (left right : string) : bool := bool_decide (left = right).

(** [item.EnvironmentID = environmentID] and the authors. *)
Definition project_new (actor : Actor) (environmentID : Z) (item : ProjectRow) : ProjectRow :=
  {| prj_meta := {| ID := ID (prj_meta item); CreatedBy := UserID actor;
                    UpdatedBy := UserID actor; CreatedAt := CreatedAt (prj_meta item);
                    UpdatedAt := UpdatedAt (prj_meta item); Version := Version (prj_meta item);
                    DeletedAt := DeletedAt (prj_meta item) |};
     prj_EnvironmentID := environmentID; prj_Key := prj_Key item; prj_Name := prj_Name item;
     prj_Description := prj_Description item |}.
Definition project_update_by (actor : Actor) (u : ProjectUpdate) : ProjectUpdate :=
  {| pj_Name := pj_Name u; pj_Description := pj_Description u; pj_UpdatedBy := UserID actor;
     pj_Version := pj_Version u |}.

Section project.
Context `{Engine} `{Collation} `{Store} `{Pepper} `{!Authorizer}.

(** ** project.go *)

Definition project_logic_Create (actor : Actor) (environmentID : Z) (item : ProjectRow) :
    M ProjectRow :=
  CheckSystem (UserID actor) SystemProjectManage;;
  item ← TX (
    item ← project_Create (project_new actor environmentID item);
    RecordSystem (projectAudit actor "project.create" "project" (project_id item));;
    mret item);
  project_FindByID 0 (project_id item).

Definition project_logic_Update (actor : Actor) (projectID : Z) (update : ProjectUpdate) :
    M ProjectRow :=
  CheckSystem (UserID actor) SystemProjectManage;;
  TX (
    project_Update projectID (project_update_by actor update);;
    RecordSystem (projectAudit actor "project.update" "project" projectID));;
  project_FindByID 0 projectID.

(** Without an environment the listing needs the system permission. *)
Definition project_check (actor : Actor) (environmentID : Z) : M unit :=
  if 0 <? environmentID then Check (UserID actor) environmentID [ProjectRead]
  else CheckSystem (UserID actor) SystemProjectManage.

Definition project_logic_List (like : string → string → bool) (actor : Actor)
    (environmentID : Z) (keyword : string) : M (list ProjectRow) :=
  project_check actor environmentID;;
  all_pages projects_t (project_List like environmentID keyword).

Definition project_logic_Detail (actor : Actor) (environmentID projectID : Z) : M ProjectRow :=
  project_check actor environmentID;;
  project_FindByID environmentID projectID.

(** ** api_key.go *)

(** [credentials.Generate]: two reads of the random source. *)
Definition generate_credential : M Generated :=
  publicEntropy ← handle (EWrap "generate API key public id") (random_bytes publicEntropyBytes);
  secretEntropy ← handle (EWrap "generate API key secret") (random_bytes secretEntropyBytes);
  mret (Generate publicEntropy secretEntropy).


Definition key_logic_List (actor : Actor) (environmentID projectID : Z) :
    M (list ProjectAPIKeyRow) :=
  Check (UserID actor) environmentID [ProjectAPIKeyRead];;
  items ← key_List environmentID projectID;
  mret (publicKey <$> items).

Definition key_logic_Create (actor : Actor) (environmentID projectID : Z) (name : string) :
    M APIKeySecretResult :=
  Check (UserID actor) environmentID [ProjectAPIKeyManage];;
  generated ← generate_credential;
  t ← now;
  let item := {| key_meta := {| r_ID := 0; r_CreatedAt := t; r_UpdatedAt := t |};
                 key_ProjectID := projectID; key_PublicID := PublicID generated;
                 key_Name := name; key_SecretHash := Hash generated;
                 key_SecretSuffix := SecretSuffix generated; key_CreatedBy := UserID actor;
                 key_LastUsedAt := None; key_RevokedAt := None |} in
  item ← TX (
    item ← key_Create environmentID projectID item;
    RecordForEnvironment environmentID
      (apiKeyAudit actor "project_api_key.create" (key_id item));;
    mret item);
  mret {| sr_Key := publicKey item; sr_Secret := Full generated |}.

(** The row is read again under its lock; [found] is the first reading. *)
Definition lock_unrevoked (environmentID projectID keyID : Z) (found : ProjectAPIKeyRow)
    (revoked : string) : M ProjectAPIKeyRow :=
  locked ← key_LockByID environmentID projectID keyID;
  when_err (negb (bool_decide (key_RevokedAt locked = None))) (EConflict revoked);;
  when_err (negb (samePublicID (key_PublicID locked) (key_PublicID found)))
    (EConflict "API key changed concurrently");;
  mret locked.

Definition key_mutation (environmentID projectID keyID : Z) (locked : ProjectAPIKeyRow) :
    APIKeyMutation :=
  {| mu_EnvironmentID := environmentID; mu_ProjectID := projectID; mu_KeyID := keyID;
     mu_CurrentPublicID := key_PublicID locked |}.

Definition key_logic_Rotate (actor : Actor) (environmentID projectID keyID : Z) :
    M APIKeySecretResult :=
  Check (UserID actor) environmentID [ProjectAPIKeyManage];;
  found ← key_FindByID environmentID projectID keyID;
  when_err (negb (bool_decide (key_RevokedAt found = None)))
    (EConflict "revoked API key cannot be rotated");;
  generated ← generate_credential;
  t ← now;
  result ← TX (
    locked ← lock_unrevoked environmentID projectID keyID found
               "revoked API key cannot be rotated";
    let replacement := key_replacement generated t locked in
    key_Rotate (key_mutation environmentID projectID keyID locked) replacement;;
    RecordForEnvironment environmentID (apiKeyAudit actor "project_api_key.rotate" keyID);;
    mret replacement);
  mret {| sr_Key := publicKey result; sr_Secret := Full generated |}.

Definition key_logic_Revoke (actor : Actor) (environmentID projectID keyID : Z) : M unit :=
  Check (UserID actor) environmentID [ProjectAPIKeyManage];;
  found ← key_FindByID environmentID projectID keyID;
  when_err (negb (bool_decide (key_RevokedAt found = None)))
    (EConflict "API key is already revoked");;
  revokedAt ← now;
  TX (
    locked ← lock_unrevoked environmentID projectID keyID found "API key is already revoked";
    key_Revoke (key_mutation environmentID projectID keyID locked) revokedAt;;
    RecordForEnvironment environmentID (apiKeyAudit actor "project_api_key.revoke" keyID)).

End project.
