(* ===== verification/LogicAuth.v ===== *)
(** First-run setup: [repository/setup.go], [logic/setup.go] and the
    transaction of [cmd/kirby/create_admin.go]; then signing in and out,
    [logic/auth.go]. *)

From S2P Require Import Prelude GoStd GoStrings Engine Model Cache World WorldLaws RepoScope Credential Password Jwt RepoProject RepoIdentity RepoSession.
From Stdlib Require Import Ascii.

Local Open Scope Z_scope.

Definition mark_initialized (r : ApplicationSecretsRow) : ApplicationSecretsRow :=
  {| sec_ID := sec_ID r; sec_JWTKeyID := sec_JWTKeyID r;
     sec_JWTSigningKey := sec_JWTSigningKey r; sec_APIKeyPepper := sec_APIKeyPepper r;
     sec_AdminInitialized := true |}.

Section setup.
Context `{Engine} `{Collation} `{Store}.

(** ** repository/setup.go *)

(** The row with the identifier 1. *)
Definition loadState : M ApplicationSecretsRow :=
  state ← handle (EWrap "read installation initialization state")
    (get (λ d, head (select (λ s, sec_ID s =? 1) (application_secrets d))));
  match state with
  | Some state => mret state
  | None => throw (EOther "installation initialization state is missing")
  end.

Definition IsInitialized : M bool := state ← loadState; mret (sec_AdminInitialized state).

Definition markInitialized : M unit :=
  affected ← handle (EWrap "complete administrator initialization")
    (exec_update application_secrets_t (λ _ s, sec_ID s =? 1) mark_initialized);
  when_err (negb (affected =? 1))
    (EWrap "complete administrator initialization" (ENoRowsAffected "")).

Definition repo_CreateInitialAdmin (user : UserRow) : M unit :=
  state ← loadState;
  when_err (sec_AdminInitialized state) EAlreadyInitialized;;
  t ← now;
  handle (EWrap "create initial administrator")
    (exec_insert users_t (map_usr_meta (PrepareInsert t) user));;
  markInitialized.

Definition MarkInitialized : M unit :=
  state ← loadState;
  if sec_AdminInitialized state then mret tt else markInitialized.

(** ** logic/setup.go *)

Context `{Argon2} (hasher : Hasher).

Definition GetSetupStatus : M bool := IsInitialized.

Definition CreateInitialAdmin (username displayName plainPassword : string) : M unit :=
  hash ← handle (EWrap "hash initial administrator password") (password_Hash hasher plainPassword);
  TX (repo_CreateInitialAdmin
    {| usr_meta := new_meta 0 0; usr_Username := username; usr_DisplayName := displayName;
       usr_PasswordHash := hash; usr_Enabled := true; usr_IsSystemAdmin := true;
       usr_MustChangePassword := false; usr_LastLoginAt := None |}).

(** ** cmd/kirby/create_admin.go *)

Definition saveAdministrator (username displayName passwordHash : string) : M (UserRow * bool) :=
  TX (MarkInitialized;; CreateOrPromoteSystemAdmin username displayName passwordHash).

End setup.

Definition loginAttemptLimit : Z := 5.
Definition loginAttemptWindow : Z := 15 * minute.
Definition refreshTokenTTL : Z := 7 * 24 * 60 * minute.

(** ** auth/session/session.go *)

Definition tokenLength : Z := 32.

(** [crypto/sha256] *)
Class SHA256 := sha256 : string → string.
Definition session_Hash `{SHA256} (plain : string) : string := sha256 plain.

(** ** Login attempts *)

Definition hex_char (v : Z) : ascii := if v <? 10 then chr (48 + v) else chr (87 + v).
Fixpoint hex (s : string) : string :=
  match s with
  | EmptyString => ""
  | String c s => String (hex_char (byte c / 16)) (String (hex_char (byte c mod 16)) (hex s))
  end.

Definition loginRateKey `{SHA256} `{UnicodeLower} (username ip : string) : string :=
  "auth:login:" +:+ hex (sha256 (to_lower (trim_space username) +:+ String (chr 0) "" +:+ ip)).

(** ** The logic *)

Record AuthResult := {
  ar_AccessToken : string;
  ar_AccessTTL : Z;
  ar_User : UserRow;
  ar_RefreshToken : string;
  ar_RefreshExpiresAt : Z;
}.

Record AuthProfile := {
  ap_User : UserRow;
  ap_Environments : list EnvironmentRow;
}.

Record AuthLogic := {
  passwords : Hasher;
  tokens : Manager;
  refreshTTL : Z;
  dummyHash : string;
}.

(** The authentication logic a process is configured with; the administration of
    accounts shares its password policy. *)
Class Deployment := auth_logic : AuthLogic.

Definition is_UserNotFound : Err → bool := errors_is (λ e, bool_decide (e = EUserNotFound)).
Definition is_AuthUnavailable : Err → bool :=
  errors_is (λ e, match e with EAuthUnavailable _ _ => true | _ => false end).
Definition is_Replay : Err → bool := errors_is (λ e, bool_decide (e = ERefreshTokenReplay)).
Definition is_refresh_rejection : Err → bool :=
  errors_is (λ e, bool_decide (e = ERefreshTokenNotFound) || bool_decide (e = ERefreshTokenExpired)
                  || bool_decide (e = ERefreshTokenReplay)).

(** [errors.Join] of an error and the outcome of a second action. *)
Definition join_error {A} (e : Err) (r : result A) : Err :=
  match r with Ok _ => e | Er e' => EJoin e e' end.

Section auth.
Context `{Engine} `{Collation} `{Store} `{Argon2} `{JWTLib} `{SHA256} `{UnicodeLower}.

(** [session.Generate]: the bearer text and the digest that is stored. *)
Definition session_Generate : M (string * string) :=
  value ← handle (EWrap "generate refresh token") (random_bytes tokenLength);
  let plain := b64_encode value in
  mret (plain, session_Hash plain).

Definition NewAuthLogic (ttl : Z) (hasher : Hasher) (manager : Manager) : M AuthLogic :=
  when_err (negb (ttl =? refreshTokenTTL)) (EOther "refresh TTL must be 168h0m0s");;
  when_err (ttl <=? accessTTL manager) (EOther "refresh TTL must be greater than access TTL");;
  dummy ← handle (EWrap "create constant-work password hash")
            (password_Hash hasher "kirby-dummy-password-that-is-never-valid");
  mret {| passwords := hasher; tokens := manager; refreshTTL := ttl; dummyHash := dummy |}.

(** [authUnavailable(operation, err)] around a call. *)
Definition available {A} (operation : string) (m : M A) : M A :=
  handle (EAuthUnavailable operation) m.

Definition checkLoginLimit (key : string) : M unit :=
  attempts ← available "increment login rate limit" (cache_increment key loginAttemptWindow);
  when_err (loginAttemptLimit <? attempts) EAuthRateLimited.

Definition auth_revokeSession (tokenHash : string) (t : Z) : M unit :=
  TX (RevokeSessionByTokenHash tokenHash t).

Context (l : AuthLogic).

Definition rehashPassword (user : UserRow) (plainPassword : string) : M UserRow :=
  nextHash ← available "rehash login password" (password_Hash (passwords l) plainPassword);
  available "save upgraded password hash"
    (UpdatePasswordHash (user_id user) (usr_PasswordHash user) nextHash);;
  let m := usr_meta user in
  mret (user_with (touch (UpdatedBy m) (UpdatedAt m) (Version m + 1) m) (usr_DisplayName user)
          nextHash (usr_Enabled user) (usr_IsSystemAdmin user) (usr_MustChangePassword user) user).

(** An unknown account is verified against a dummy hash. *)
Definition verifyLogin (username plainPassword : string) : M UserRow :=
  found ← attempt (FindByUsername username);
  match found with
  | Er e => when_err (negb (is_UserNotFound e)) (EAuthUnavailable "find login user" e)
  | Ok _ => mret tt
  end;;
  let encodedHash := match found with Ok user => usr_PasswordHash user | Er _ => dummyHash l end in
  verified ← available "verify login password"
    (lift (password_Verify (passwords l) encodedHash plainPassword));
  match found with
  | Er _ => throw EAuthFailed
  | Ok user =>
      if negb verified.1 || negb (usr_Enabled user) then throw EAuthFailed
      else if verified.2 : bool then rehashPassword user plainPassword
      else mret user
  end.

Definition createSession (user : UserRow) : M AuthResult :=
  t ← now;
  '(plainRefresh, refreshHash) ← available "generate login session" session_Generate;
  sessionID ← random;
  let refreshToken := {| tok_meta := new_record; tok_UserID := user_id user;
                         tok_SessionID := sessionID; tok_TokenHash := refreshHash;
                         tok_ExpiresAt := t + refreshTTL l; tok_LastUsedAt := None;
                         tok_RevokedAt := None; tok_ReplacedByID := None |} in
  '(accessToken, _) ← available "issue login access token"
    (Issue (tokens l) (user_id user) sessionID);
  handle (λ e, if is_UserNotFound e then EAuthFailed else EAuthUnavailable "persist login session" e)
    (TX (CreateSession refreshToken t));;
  mret {| ar_AccessToken := accessToken; ar_AccessTTL := accessTTL (tokens l); ar_User := user;
          ar_RefreshToken := plainRefresh; ar_RefreshExpiresAt := tok_ExpiresAt refreshToken |}.

Definition Login (username plainPassword clientIP : string) : M AuthResult :=
  let username := trim_space username in
  if bool_decide (username = "") || bool_decide (plainPassword = "") then throw EAuthFailed
  else
    let limitKey := loginRateKey username clientIP in
    checkLoginLimit limitKey;;
    user ← verifyLogin username plainPassword;
    result ← createSession user;
    cleared ← attempt (cache_delete limitKey);
    match cleared with
    | Ok _ => mret result
    | Er e =>
        t ← now;
        revoked ← attempt (auth_revokeSession (session_Hash (ar_RefreshToken result)) t);
        throw (EAuthUnavailable "clear login rate limit" (join_error e revoked))
    end.

Definition activeUser (userID : Z) : M UserRow :=
  user ← handle (λ e, if is_UserNotFound e then EAuthFailed
                      else EAuthUnavailable "load authenticated user" e) (GetByID userID);
  when_err (negb (usr_Enabled user)) EAuthFailed;;
  mret user.

Definition refreshedAccess (token : RefreshTokenRow) (plainRefresh : string) : M AuthResult :=
  user ← activeUser (tok_UserID token);
  '(accessToken, _) ← available "issue refreshed access token"
    (Issue (tokens l) (user_id user) (tok_SessionID token));
  mret {| ar_AccessToken := accessToken; ar_AccessTTL := accessTTL (tokens l); ar_User := user;
          ar_RefreshToken := plainRefresh; ar_RefreshExpiresAt := tok_ExpiresAt token |}.

(** A rejected rotation rolls back; the revocation of a replayed session is a
    transaction of its own. *)
Definition rotateRefresh (tokenHash : string) (next : RefreshTokenRow) (t : Z) :
    M RefreshTokenRow :=
  rotated ← attempt (TX (Rotate tokenHash next t));
  match rotated with
  | Ok token => mret token
  | Er e =>
      if is_Replay e then
        revoked ← attempt (auth_revokeSession tokenHash t);
        match revoked with
        | Er _ => throw (EAuthUnavailable "revoke replayed session" (join_error e revoked))
        | Ok _ => throw e
        end
      else throw e
  end.

(** Whether the cookie is cleared, and the error of the response. *)
Definition refreshFailure (e : Err) : bool * Err :=
  if is_AuthUnavailable e then (true, e)
  else if is_refresh_rejection e then (true, EAuthFailed)
  else (false, EAuthUnavailable "rotate refresh session" e).

(** [Refresh] returns with its outcome whether the browser's cookie is cleared. *)
Definition Refresh (refreshToken : string) : M (bool * result AuthResult) :=
  t ← now;
  generated ← attempt (available "generate replacement session token" session_Generate);
  match generated with
  | Er e => mret (false, Er e)
  | Ok (plainNext, nextHash) =>
      let next := {| tok_meta := new_record; tok_UserID := 0; tok_SessionID := "";
                     tok_TokenHash := nextHash; tok_ExpiresAt := t + refreshTTL l;
                     tok_LastUsedAt := None; tok_RevokedAt := None; tok_ReplacedByID := None |} in
      rotated ← attempt (rotateRefresh (session_Hash refreshToken) next t);
      match rotated with
      | Er e => let '(clear, e) := refreshFailure e in mret (clear, Er e)
      | Ok rotated =>
          result ← attempt (refreshedAccess rotated plainNext);
          match result with
          | Ok x => mret (false, Ok x)
          | Er e =>
              revoked ← attempt (auth_revokeSession (tok_TokenHash rotated) t);
              mret (true, Er (match revoked with
                              | Er _ => EAuthUnavailable "revoke failed refresh session"
                                          (join_error e revoked)
                              | Ok _ => e
                              end))
          end
      end
  end.

Definition Logout (refreshToken : string) : M unit :=
  t ← now;
  available "revoke logout session" (auth_revokeSession (session_Hash refreshToken) t).

Definition Me (userID : Z) : M AuthProfile :=
  user ← activeUser userID;
  environments ← available "list authenticated user environments" (ListEnvironments user);
  mret {| ap_User := user; ap_Environments := environments |}.

End auth.
