(* ===== verification/Middleware.v ===== *)
(** The way in and out of the logic layer: [server/internal/middleware] (rate
    limits, bearer and API-key authentication, request identifiers), the chain
    [server/http.go] builds for administration requests, and the translation of
    errors into responses ([permission/errors.go], [service/errors.go],
    [service/runtime.go], [service/auth.go]). *)

From S2P Require Import Prelude GoStd GoStrings Engine Model Cache World WorldLaws RepoScope Permission Password Jwt RepoIdentity LogicAuth.
From Stdlib Require Import Ascii.

Local Open Scope Z_scope.

(** ** [strings.EqualFold] with an ASCII text *)

(** No letter of the scheme has a case variant outside ASCII. *)
Definition is_bearer (s : string) : bool := bool_decide (map_bytes lower_char s = "bearer").

(** ** The transport *)

(** What the transport tells of a request: [RequestHeader().Get], the operation,
    and the peer [ClientIdentity] finds in the connection. *)
Record Transport := {
  header : string → string;
  operation : string;
  peer : string;
}.

Record Principal := {
  pl_UserID : Z;
  pl_SessionID : string;
}.

(** [safeRequestID] of transport.go goes through the runes of the text. *)
Definition safe_rune (r : Z) : bool :=
  in_range 97 122 r || in_range 65 90 r || in_range 48 57 r
  || (r =? 46) || (r =? 95) || (r =? 58) || (r =? 45).
Definition safeRequestID (value : string) : bool :=
  negb (bool_decide (value = "") || (128 <? len value)) && forallb safe_rune (runes value).

(** The identifier [TransportLog] leaves in the request header. *)
Definition request_id `{Engine} `{Store} (t : Transport) : M string :=
  let requestID := header t "X-Request-ID" in
  if safeRequestID requestID then mret requestID else random.

(** ** runtime_auth.go *)

Definition HTTPHeader : string := "X-Kirby-API-Key".

Definition HTTPAPIKey (t : Transport) : result string :=
  let credential := header t HTTPHeader in
  guard_err (blank credential) (EApi Unauthorized "API key authentication failed");;
  Ok credential.

(** gRPC metadata may repeat a name; [next] is [None] outside the runtime API. *)
Definition UnaryAPIKey (fullMethod : option string) (values : list string) :
    result (option string) :=
  match fullMethod with
  | Some m =>
      if negb (String.prefix "/kirby.runtime.v1.Api/" m) then Ok None
      else match values with
           | [v] => if blank v then Er (EApi Unauthorized "API key authentication failed")
                    else Ok (Some v)
           | _ => Er (EApi Unauthorized "API key authentication failed")
           end
  | None =>
      match values with
      | [v] => if blank v then Er (EApi Unauthorized "API key authentication failed")
               else Ok (Some v)
      | _ => Er (EApi Unauthorized "API key authentication failed")
      end
  end.

(** ** rate_limit.go: the subject of a limit *)

Definition AuthorizationIdentity (t : Transport) : string :=
  if bool_decide (header t "Authorization" = "") then peer t else header t "Authorization".

(** [strings.Cut(value, ".")] with a separator that must be there *)
Definition RuntimeIdentity (t : Transport) : string :=
  let value := header t "X-Kirby-API-Key" in
  let value := if bool_decide (value = "") then header t "x-kirby-api-key" else value in
  match split_on "." value with
  | publicID :: _ :: _ => if bool_decide (publicID = "") then peer t else publicID
  | _ => peer t
  end.

Definition digestIdentity `{SHA256} (value : string) : string :=
  hex (sha256 (format_int (len value) +:+ ":" +:+ value)).

Definition rateKey `{SHA256} (namespace subject : string) : string :=
  "rate:" +:+ namespace +:+ ":" +:+ digestIdentity subject.

(** ** Errors of the responses *)

(** permission/errors.go *)
Definition is_missing : Err → bool := errors_is (λ e,
  match e with EEnvironmentNotFound | ENotFound _ | EUserNotFound => true | _ => false end).
Definition is_stale : Err → bool := errors_is (λ e,
  match e with
  | ENoRowsAffected _ | EUserVersionConflict | ELastSystemAdmin | ERoleInUse | EBuiltinRole
  | ESystemRolePermission | EPermissionSetMismatch | EUserListLimit | EConcurrentChange => true
  | _ => false
  end).
Definition is_InvalidArgument : Err → bool := errors_is (λ e,
  match e with EInvalidArgument _ => true | _ => false end).

Definition permission_APIError (e : Err) : Err :=
  if errors_is (λ e, bool_decide (e = EForbidden)) e then EApi Forbidden "permission denied"
  else if is_missing e then EApi NotFound "resource not found"
  else if is_InvalidArgument e then EApi BadRequest "invalid request"
  else if is_stale e then EApi Conflict "operation conflicts with current state"
  else EApi Internal "operation failed".

(** service/errors.go *)
Definition apiError (e : Err) : Err :=
  if errors_is (λ e, match e with EInvalid _ => true | _ => false end) e
  then EApi BadRequest "invalid configuration data"
  else if errors_is (λ e, match e with EConflict _ | EKeyConflict _ => true | _ => false end) e
  then EApi Conflict "operation conflicts with current configuration"
  else permission_APIError e.

(** service/runtime.go *)
Definition runtimePublicError (e : Err) : Err :=
  if errors_is (λ e, bool_decide (e = EUnauthenticated)) e
  then EApi Unauthorized "API key authentication failed"
  else if errors_is (λ e, bool_decide (e = EProjectMismatch)) e
  then EApi Forbidden "API key does not belong to requested project"
  else if is_InvalidArgument e then EApi BadRequest "invalid runtime config request"
  else if errors_is (λ e, match e with ENotFound _ => true | _ => false end) e
  then EApi NotFound "runtime config was not found"
  else EApi Internal "runtime config read failed".

(** service/auth.go *)
Definition authAPIError (e : Err) : Err :=
  if errors_is (λ e, bool_decide (e = EAuthFailed)) e
  then EApi Unauthorized "authentication failed"
  else if errors_is (λ e, bool_decide (e = EAuthRateLimited)) e
  then EApi TooManyRequests "too many authentication attempts"
  else EApi Internal "authentication is unavailable".

Section middleware.
Context `{Engine} `{Collation} `{Store} `{JWTLib} `{SHA256}.

(** ** rate_limit.go *)

(** What runs before [next]. *)
Definition FixedWindowRateLimit (namespace : string) (limit window : Z) (subject : string) :
    M unit :=
  when_err (bool_decide (namespace = "") || (limit <=? 0) || (window <=? 0))
    (EApi Internal "rate limiting is unavailable");;
  count ← handle (λ _, EApi Internal "rate limiting is unavailable")
    (cache_increment (rateKey namespace subject) window);
  when_err (limit <? count) (EApi TooManyRequests "request rate limit exceeded").

(** ** admin_auth.go *)

Definition unauthorized : Err := EApi Unauthorized "authentication failed".
Definition passwordOperation : string := "/kirby.admin.v1.UserService/UpdateUserPassword".

(** The user an access token names, verified at the time [t]. *)
Definition token_user (tokens : Manager) (t : Z) (authorization : string) :
    result (Claims * Z) :=
  match fields authorization with
  | [scheme; encoded] =>
      guard_err (negb (is_bearer scheme)) unauthorized;;
      match jwt_Verify tokens t encoded with
      | Er _ => Er unauthorized
      | Ok claims => match claims_UserID claims with
                     | Er _ => Er unauthorized
                     | Ok userID => Ok (claims, userID)
                     end
      end
  | _ => Er unauthorized
  end.

Definition AdminAuth (tokens : Manager) (t : Transport) : M Principal :=
  now_ ← now;
  '(claims, userID) ← lift (token_user tokens now_ (header t "Authorization"));
  user ← handle (λ e, if is_UserNotFound e then unauthorized
                      else EApi Internal "authentication is unavailable") (GetByID userID);
  when_err (negb (usr_Enabled user)) unauthorized;;
  when_err (usr_MustChangePassword user && negb (bool_decide (operation t = passwordOperation)))
    (EApi Forbidden "password change required");;
  mret {| pl_UserID := userID; pl_SessionID := cl_SessionID claims |}.

(** ** server/http.go *)

Definition adminRateLimit : Z := 600.
Definition authRateLimit : Z := 60.
Definition runtimeRateLimit : Z := 1200.
Definition rateWindow : Z := minute.

Definition OperationAuthServiceLogin : string := "/kirby.admin.v1.AuthService/Login".
Definition OperationAuthServiceRefresh : string := "/kirby.admin.v1.AuthService/Refresh".
Definition OperationAuthServiceLogout : string := "/kirby.admin.v1.AuthService/Logout".
Definition OperationSetupServiceGetSetupStatus : string :=
  "/kirby.admin.v1.SetupService/GetSetupStatus".
Definition OperationSetupServiceCreateInitialAdmin : string :=
  "/kirby.admin.v1.SetupService/CreateInitialAdmin".

Definition publicManagementOperation (operation : string) : bool :=
  bool_decide (operation ∈ [OperationAuthServiceLogin; OperationAuthServiceRefresh;
    OperationAuthServiceLogout; OperationSetupServiceGetSetupStatus;
    OperationSetupServiceCreateInitialAdmin]).

(** The selector of the administration chain. *)
Definition admin_selected (operation : string) : bool :=
  String.prefix "/kirby.admin.v1." operation && negb (publicManagementOperation operation).

(** Rate limit, authentication, actor, operation; [translate] is the function
    with which the service maps errors: [permission_APIError] or [apiError]. *)
Definition admin_chain {A} (translate : Err → Err) (tokens : Manager) (t : Transport)
    (serve : Actor → M A) : M A :=
  principal ← (if admin_selected (operation t) then
                 FixedWindowRateLimit "admin" adminRateLimit rateWindow (AuthorizationIdentity t);;
                 p ← AdminAuth tokens t;
                 mret (Some (pl_UserID p))
               else mret None);
  handle translate (
    actor ← ActorFromContext principal (Some (header t "X-Request-ID"));
    serve actor).

End middleware.
