(* ===== verification/Browser.v ===== *)
(** What the server reads of a browser's request before it trusts it: proxies
    and client addresses ([conf/config.go], [middleware/client_ip.go]), origins
    and cookies ([auth/session/session.go]), and the HTTP filters
    ([server/filter.go]); with the parts of [net/url] and [net/http] these use. *)

From S2P Require Import Prelude GoStd GoStrings Netip Middleware.
From Stdlib Require Import Ascii.

Local Open Scope Z_scope.

(** [http.Request]: [Header.Values], the Host, the peer, and whether the
    connection has TLS. *)
Record HTTPRequest := {
  Values : string → list string;
  Host : string;
  RemoteAddr : string;
  TLS : bool;
}.

(** ** conf/config.go: the networks of trusted proxies *)

(** [MustParsePrefix] of [0.0.0.0/0] and [::/0] *)
Definition every_network : list Prefix :=
  [{| pfx_Addr := V4 0; pfx_Bits := 0 |}; {| pfx_Addr := V6 0 ""; pfx_Bits := 0 |}].

Definition trusted_proxy (seen : list Prefix) (value : string) : result (list Prefix) :=
  guard_err (bool_decide (value = "") || negb (bool_decide (trim_space value = value)))
    (EOther "security.trusted_proxies contains an empty or whitespace-padded CIDR");;
  match ParsePrefix value with
  | None => Er (EOther "security.trusted_proxies contains invalid CIDR")
  | Some prefix =>
      guard_err (negb (bool_decide (Zone (pfx_Addr prefix) = "")) || Is4In6 (pfx_Addr prefix))
        (EOther "security.trusted_proxies contains invalid CIDR");;
      let masked := Masked prefix in
      guard_err (negb (bool_decide (prefix = masked))
                 || negb (bool_decide (value = prefix_String masked)))
        (EOther "security.trusted_proxies contains non-canonical CIDR");;
      guard_err (bool_decide (masked ∈ seen))
        (EOther "security.trusted_proxies contains duplicate CIDR");;
      Ok (seen ++ [masked])
  end.
(** [None] is a nil list. *)
Definition ParseTrustedProxyCIDRs (values : option (list string)) : result (list Prefix) :=
  match values with
  | None => Ok every_network
  | Some values => fold_m trusted_proxy values []
  end.

(** ** middleware/client_ip.go *)

Definition MaxForwardedForHops : Z := 32.

Definition NewClientIPResolver (trustedCIDRs : option (list string)) : result (list Prefix) :=
  ParseTrustedProxyCIDRs trustedCIDRs.

Definition isTrusted (trusted : list Prefix) (address : Addr) : bool :=
  existsb (λ prefix, Contains prefix address) trusted.

Definition parseRemoteAddr (value : string) : result Addr :=
  match a ← ParseAddrPort value; if bool_decide (Zone a = "") then Some a else None with
  | Some a => Ok (Unmap a)
  | None =>
      match ParseAddr value with
      | Some a => guard_err (negb (bool_decide (Zone a = "")))
                    (EOther "RemoteAddr does not contain a valid IP address");;
                  Ok (Unmap a)
      | None => Er (EOther "RemoteAddr does not contain a valid IP address")
      end
  end.

(** One address of an X-Forwarded-For header. *)
Definition forwarded_addr (part : string) : result Addr :=
  match ParseAddr (trim_space part) with
  | Some a => guard_err (negb (bool_decide (Zone a = "")))
                (EOther "X-Forwarded-For contains invalid IP");;
              Ok (Unmap a)
  | None => Er (EOther "X-Forwarded-For contains invalid IP")
  end.

(** The loop from the last address of the chain to the first. *)
Fixpoint last_untrusted (trusted : list Prefix) (chain : list Addr) : option Addr :=
  match chain with
  | [] => None
  | a :: chain =>
      match last_untrusted trusted chain with
      | Some b => Some b
      | None => if isTrusted trusted a then None else Some a
      end
  end.

Definition client_Resolve (trusted : list Prefix) (request : HTTPRequest) : result Addr :=
  remote ← parseRemoteAddr (RemoteAddr request);
  if negb (isTrusted trusted remote) then Ok remote
  else
    match Values request "X-Forwarded-For" with
    | [] => Ok remote
    | values =>
        let parts := split_on "," (join "," values) in
        guard_err (MaxForwardedForHops <? Z.of_nat (length parts))
          (EOther "X-Forwarded-For chain must contain between 1 and 32 addresses");;
        chain ← collect forwarded_addr parts;
        match last_untrusted trusted chain with
        | Some a => Ok a
        | None => Ok (default remote (head chain))
        end
    end.

(** ** [net/url] *)

(** The URLs the server reads have the form scheme://host[:port].  [None] is an
    error, or a URL with user information, which every caller refuses. *)
Record URL := {
  u_Scheme : string;
  u_Opaque : string;
  u_Host : string;
}.

Definition has_byte (c : ascii) (s : string) : bool := 0 <? count_byte c s.
Definition has_prefix (p s : string) : bool :=
  match cut_prefix p s with Some _ => true | None => false end.
Definition before (c : ascii) (s : string) : string :=
  match cut c s with Some (a, _) => a | None => s end.

(** Every [%] is followed by two hexadecimal digits. *)
Fixpoint valid_escapes (s : string) : bool :=
  match s with
  | EmptyString => true
  | String "%" (String a (String b r)) =>
      match hex_value a, hex_value b with Some _, Some _ => valid_escapes r | _, _ => false end
  | String "%" _ => false
  | String _ r => valid_escapes r
  end.

(** The bytes of a host: ASCII ones are not escaped, others may be. *)
Definition host_byte (c : ascii) : bool :=
  (128 <=? byte c) || is_alnum c
  || bool_decide (c ∈ ["!"; "$"; "&"; "'"; "("; ")"; "*"; "+"; ","; ";"; "="; ":"; "["; "]"; "<";
                       ">"; chr 34; "-"; "_"; "."; "~"]%char).
Fixpoint unescape_host (s : string) : option string :=
  match s with
  | EmptyString => Some ""
  | String "%" (String a (String b r)) =>
      x ← hex_value a; y ← hex_value b;
      if (x <? 8) && negb ((x =? 2) && (y =? 5)) then None
      else String (chr (x * 16 + y)) <$> unescape_host r
  | String "%" _ => None
  | String c r => if host_byte c then String c <$> unescape_host r else None
  end.

Definition validOptionalPort (port : string) : bool :=
  match port with
  | EmptyString => true
  | String ":" digits => forall_bytes is_digit digits
  | _ => false
  end.

(** [parseHost]: an IPv6 address in brackets, or a name without a colon; then a
    port. *)
Definition parse_host (host : string) : option string :=
  match host with
  | String "[" r =>
      '(hostname, port) ← cut_last "]" r;
      if has_byte "[" r || negb (validOptionalPort port) then None
      else h ← unescape_host hostname;
           a ← ParseAddr h;
           if Is4 a then None else Some ("[" +:+ h +:+ "]" +:+ port)
  | _ =>
      if has_byte "[" host then None
      else match cut ":" host with
           | Some (_, digits) => if forall_bytes is_digit digits then unescape_host host else None
           | None => unescape_host host
           end
  end.

(** [getScheme]; [Some None]: there is no scheme. *)
Fixpoint get_scheme (first : bool) (s : string) : option (option (string * string)) :=
  match s with
  | EmptyString => Some None
  | String c r =>
      if is_letter c || (negb first && (is_digit c || bool_decide (c ∈ ["+"; "-"; "."]%char))) then
        match get_scheme false r with
        | Some (Some (scheme, rest)) => Some (Some (String c scheme, rest))
        | x => x
        end
      else if bool_decide (c = ":"%char) then if first then None else Some (Some ("", r))
      else Some None
  end.

Definition control (c : ascii) : bool := (byte c <? 32) || (byte c =? 127).

Definition url_Parse (rawURL : string) : option URL :=
  let text := before "#" rawURL in
  if negb (forall_bytes (λ c, negb (control c)) text) then None
  else if negb (valid_escapes (match cut "#" rawURL with Some (_, f) => f | None => "" end)) then None
  else if bool_decide (text = "*") then Some {| u_Scheme := ""; u_Opaque := ""; u_Host := "" |}
  else
    found ← get_scheme true text;
    let '(scheme, rest) := default ("", text) found in
    let scheme := map_bytes lower_char scheme in
    let rest := before "?" rest in
    let no_host := if valid_escapes rest
                   then Some {| u_Scheme := scheme; u_Opaque := ""; u_Host := "" |} else None in
    if negb (has_prefix "/" rest) then
      if bool_decide (scheme ≠ "") then
        Some {| u_Scheme := scheme; u_Opaque := rest; u_Host := "" |}
      else if has_byte ":" (before "/" rest) then None else no_host
    else if bool_decide (scheme ≠ "") || negb (has_prefix "///" rest) then
      match cut_prefix "//" rest with
      | Some r =>
          let authority := before "/" r in
          if has_byte "@" authority then None
          else if negb (valid_escapes (match cut "/" r with Some (_, p) => p | None => "" end)) then None
          else host ← parse_host authority;
               Some {| u_Scheme := scheme; u_Opaque := ""; u_Host := host |}
      | None => no_host
      end
    else no_host.

(** [splitHostPort], for [Hostname] and [Port] *)
Definition split_host_port (hostPort : string) : string * string :=
  let '(host, port) :=
    match cut_last ":" hostPort with
    | Some (h, p) => if forall_bytes is_digit p then (h, p) else (hostPort, "")
    | None => (hostPort, "")
    end in
  (match host with
   | String "[" r => default host (without_last "]" r)
   | _ => host
   end, port).

(** [net.JoinHostPort] *)
Definition JoinHostPort (host port : string) : string :=
  if has_byte ":" host then "[" +:+ host +:+ "]:" +:+ port else host +:+ ":" +:+ port.

Definition upper_hex (z : Z) : ascii := if z <? 10 then chr (48 + z) else chr (55 + z).

(** ** auth/session/session.go *)

Definition CookieName : string := "kirby_refresh".
Definition CookiePath : string := "/api/auth".
Definition ErrInvalidOrigin : Err := EOther "invalid request origin".

(** The fields of [http.Cookie] the server sets; SameSite is always Lax. *)
Record SetCookie := {
  ck_Name : string;
  ck_Value : string;
  ck_Path : string;
  ck_Expires : Z;
  ck_MaxAge : Z;
  ck_HttpOnly : bool;
  ck_Secure : bool;
  ck_SameSiteLax : bool;
}.

Definition second : Z := 10 ^ 9.
(** [MaxAge] is in seconds, rounded towards zero. *)
Definition session_Cookie (now : Z) (token : string) (expiresAt : Z) (secure : bool) : SetCookie :=
  {| ck_Name := CookieName; ck_Value := token; ck_Path := CookiePath; ck_Expires := expiresAt;
     ck_MaxAge := Z.quot (expiresAt - now) second; ck_HttpOnly := true; ck_Secure := secure;
     ck_SameSiteLax := true |}.
Definition ClearCookie (secure : bool) : SetCookie :=
  {| ck_Name := CookieName; ck_Value := ""; ck_Path := CookiePath; ck_Expires := second;
     ck_MaxAge := -1; ck_HttpOnly := true; ck_Secure := secure; ck_SameSiteLax := true |}.

Section origins.
Context `{UnicodeLower}.

Definition default_port (scheme : string) : string :=
  if bool_decide (scheme = "https") then "443" else "80".

Definition normalizedOrigin (value : string) : result string :=
  match url_Parse value with
  | None => Er ErrInvalidOrigin
  | Some parsed =>
      guard_err (bool_decide (u_Host parsed = "") || bool_decide (u_Opaque parsed ≠ ""))
        ErrInvalidOrigin;;
      guard_err (bool_decide (u_Scheme parsed ≠ "http") && bool_decide (u_Scheme parsed ≠ "https"))
        ErrInvalidOrigin;;
      guard_err (bool_decide (value ≠ u_Scheme parsed +:+ "://" +:+ u_Host parsed)) ErrInvalidOrigin;;
      let '(hostname, port) := split_host_port (u_Host parsed) in
      let port := if bool_decide (port = "") then default_port (u_Scheme parsed) else port in
      match parse_uint port with
      | None => Er ErrInvalidOrigin
      | Some portNumber =>
          guard_err ((portNumber <? 1) || (65535 <? portNumber) || bool_decide (hostname = ""))
            ErrInvalidOrigin;;
          Ok (u_Scheme parsed +:+ "://" +:+ JoinHostPort (to_lower hostname) (format_int portNumber))
      end
  end.

Definition singleForwardedValue (request : HTTPRequest) (name : string) : result string :=
  match Values request name with
  | [] => Ok ""
  | [value] =>
      guard_err (bool_decide (value = "") || has_byte "," value
                 || negb (bool_decide (trim_space value = value))) ErrInvalidOrigin;;
      Ok value
  | _ => Er ErrInvalidOrigin
  end.

Definition forwardedOrigin (request : HTTPRequest) (scheme host : string) : result string :=
  forwardedScheme ← singleForwardedValue request "X-Forwarded-Proto";
  forwardedHost ← singleForwardedValue request "X-Forwarded-Host";
  let scheme := if bool_decide (forwardedScheme ≠ "") then forwardedScheme else scheme in
  let host := if bool_decide (forwardedHost ≠ "") then forwardedHost else host in
  normalizedOrigin (scheme +:+ "://" +:+ host).

Definition trustedPeer (trusted : list Prefix) (remoteAddr : string) : bool :=
  match ParseAddrPort remoteAddr with
  | Some a => isTrusted trusted (Unmap a)
  | None => false
  end.

Definition requestOrigin (trusted : list Prefix) (request : HTTPRequest) : result string :=
  let scheme := if TLS request then "https" else "http" in
  if trustedPeer trusted (RemoteAddr request) then forwardedOrigin request scheme (Host request)
  else normalizedOrigin (scheme +:+ "://" +:+ Host request).

(** [OriginValidator.Validate] *)
Definition origin_Validate (trusted : list Prefix) (request : HTTPRequest) : result unit :=
  match Values request "Origin" with
  | [value] =>
      origin ← normalizedOrigin value;
      match requestOrigin trusted request with
      | Ok expected => guard_err (negb (bool_decide (origin = expected))) ErrInvalidOrigin
      | Er _ => Er ErrInvalidOrigin
      end
  | _ => Er ErrInvalidOrigin
  end.

(** [URL.String] of a URL with a host and nothing behind it: bytes that a host
    may not have are escaped. *)
Fixpoint escape_host (s : string) : string :=
  match s with
  | EmptyString => ""
  | String c r =>
      if (byte c <? 128) && host_byte c then String c (escape_host r)
      else String "%" (String (upper_hex (byte c / 16))
             (String (upper_hex (byte c mod 16)) (escape_host r)))
  end.
Definition url_String (scheme host : string) : string := scheme +:+ "://" +:+ escape_host host.

Definition PublicOrigin (trusted : list Prefix) (request : HTTPRequest) : result string :=
  origin ← requestOrigin trusted request;
  match url_Parse origin with
  | None => Er ErrInvalidOrigin
  | Some parsed =>
      let port := (split_host_port (u_Host parsed)).2 in
      let host := if bool_decide (u_Scheme parsed = "http") && bool_decide (port = "80")
                     || bool_decide (u_Scheme parsed = "https") && bool_decide (port = "443")
                  then trim_suffix (u_Host parsed) (":" +:+ port) else u_Host parsed in
      Ok (url_String (u_Scheme parsed) host)
  end.

Definition SecureForOrigin (origin : string) : bool :=
  match url_Parse origin with
  | Some parsed => bool_decide (map_bytes lower_char (u_Scheme parsed) = "https")
  | None => false
  end.

(** ** server/filter.go *)

Definition under (prefix path : string) : bool := bool_decide (path = prefix) || has_prefix (prefix +:+ "/") path.
Definition reservedManagementPath (requestPath : string) : bool :=
  existsb (λ prefix, under prefix requestPath) ["/admin"; "/auth"; "/setup/status"; "/setup/admin"].
Definition isLocalObjectPath (requestPath : string) : bool :=
  bool_decide (requestPath = "/api/assets/upload") || has_prefix "/api/assets/objects/" requestPath.

(** The path the routes see, and whether the request came by the API prefix;
    [None] is the answer 404. *)
Definition APIPrefix (path : string) : option (string * bool) :=
  if negb (under "/api" path) then
    if reservedManagementPath path then None else Some (path, false)
  else if bool_decide (path = "/api") || isLocalObjectPath path then Some (path, true)
  else Some (default path (cut_prefix "/api" path), true).

(** Requests without an Origin come from no browser script. *)
Definition SameOrigin (trusted : list Prefix) (request : HTTPRequest) : bool :=
  match Values request "Origin" with
  | [] => true
  | _ => is_ok (origin_Validate trusted request)
  end.
End origins.

(** ** [http.Request.Cookie] for the refresh cookie *)

Definition is_ascii_space (c : ascii) : bool := bool_decide (byte c ∈ [32; 9; 10; 13]).
Fixpoint trim_front (s : string) : string :=
  match s with String c r => if is_ascii_space c then trim_front r else s | "" => "" end.
Fixpoint trim_back (s : string) : string :=
  match s with
  | String c r => match trim_back r with
                  | "" => if is_ascii_space c then "" else String c ""
                  | r => String c r
                  end
  | "" => ""
  end.
Definition trim_ascii (s : string) : string := trim_back (trim_front s).

Definition cookie_byte (c : ascii) : bool :=
  in_range 32 126 (byte c) && negb (bool_decide (byte c ∈ [34; 59; 92])).
(** A value may stand in double quotes. *)
Definition cookie_value (raw : string) : option string :=
  let value := match raw with
               | String q r => if byte q =? 34 then default raw (without_last (chr 34) r) else raw
               | _ => raw
               end in
  if forall_bytes cookie_byte value then Some value else None.
Definition cookie_pair (part : string) : option string :=
  let part := trim_ascii part in
  let name := before "=" part in
  let value := match cut "=" part with Some (_, v) => v | None => "" end in
  if bool_decide (trim_ascii name = CookieName) then cookie_value value else None.

(** The first pair of that name; the library's limit on the number of cookies
    is not modelled. *)
Definition request_Cookie (request : HTTPRequest) : option string :=
  head (omap cookie_pair (mjoin (split_on ";" <$> Values request "Cookie"))).

(** ** middleware/rate_limit.go: the peer of a request *)

(** [net.SplitHostPort] *)
Definition SplitHostPort (s : string) : option (string * string) :=
  match s with
  | String "[" r =>
      '(host, rest) ← cut "]" r;
      match rest with
      | String ":" port =>
          if has_byte ":" port || has_byte "[" r || has_byte "]" rest then None else Some (host, port)
      | _ => None
      end
  | _ =>
      '(host, port) ← cut_last ":" s;
      if has_byte ":" host || has_byte "[" s || has_byte "]" s then None else Some (host, port)
  end.

Definition ClientIdentity (request : HTTPRequest) : string :=
  match SplitHostPort (RemoteAddr request) with
  | Some (host, _) => host
  | None => RemoteAddr request
  end.

(** What the middleware sees of a request. *)
Definition transport_of (request : HTTPRequest) (op : string) : Transport :=
  {| header name := default "" (head (Values request name)); operation := op;
     peer := ClientIdentity request |}.

(** ** Examples *)

Section examples.
#[local] Instance no_lower : UnicodeLower := λ r, r.

Example origins_normal : normalizedOrigin <$> ["http://Example.com"; "https://example.com:443";
    "http://[2001:DB8::1]:0080"; "http://localhost:"] =
  [Ok "http://example.com:80"; Ok "https://example.com:443"; Ok "http://[2001:db8::1]:80";
   Ok "http://localhost:80"].
Proof. vm_compute. reflexivity. Qed.
Example origins_refused : Forall (λ s, normalizedOrigin s = Er ErrInvalidOrigin)
  ["null"; ""; "http://"; "ftp://a"; "http://a/"; "http://a?"; "http://a#"; "http://u@a"; "HTTP://a";
   "http://a:b"; "http://a:0"; "http://a:65536"; "http://a:1:2"; "http://[::1"; "http://[1.2.3.4]";
   "http://a%41"; "http://a b"; "http:a"; "//a"; "http://[fe80::1%25en0]"; "http://:80"].
Proof. repeat constructor. Qed.
Example cookies_read :
  request_Cookie {| Values name := if bool_decide (name = "Cookie") then ["a=1; kirby_refresh=x.y-z "]
                                   else []; Host := ""; RemoteAddr := ""; TLS := false |} = Some "x.y-z".
Proof. reflexivity. Qed.
Example prefixes : (APIPrefix <$> ["/api/admin/x"; "/admin/x"; "/api"; "/apix"; "/authx"]) =
  [Some ("/admin/x", true); None; Some ("/api", true); Some ("/apix", false); Some ("/authx", false)].
Proof. reflexivity. Qed.
Example proxies : is_ok (ParseTrustedProxyCIDRs (Some ["10.0.0.0/8"; "fd00::/8"])) = true ∧
  Forall (λ s, is_ok (ParseTrustedProxyCIDRs (Some [s])) = false)
    ["10.0.0.1/8"; "010.0.0.0/8"; "10.0.0.0/08"; "FD00::/8"; "::ffff:0:0/96"; "10.0.0.0"; " 10.0.0.0/8"].
Proof. split; [reflexivity|repeat constructor]. Qed.
End examples.
