(* ===== verification/BrowserSpec.v ===== *)
(** What the policies of [Browser] achieve: where trusted proxies are configured
    a client cannot choose the address the server takes it for, and a browser request is accepted exactly when its
    origin is the server's public address. *)

From S2P Require Import Prelude GoStd Json GoStrings Netip Middleware Browser.
From Stdlib Require Import Ascii.

Local Open Scope Z_scope.

(** ** Client addresses *)










Section client.
Context (trusted : list Prefix).


End client.


(** ** Origins *)

(** *** Texts *)

Lemma cut_count c s : cut c s = None → count_byte c s = 0.
Proof.
  induction s as [|d s IH]; simpl; [done|]. case_decide; [done|].
  destruct (cut c s) as [[]|]; [done|]. intros _. by rewrite IH.
Qed.
Lemma cut_skip c p s : count_byte c p = 0 →
  cut c (p +:+ s) = match cut c s with Some (a, b) => Some (p +:+ a, b) | None => None end.
Proof.
  intros Hp. induction p as [|d p IH]; [rewrite app_empty_s; by destruct (cut c s) as [[]|]|]. cbn [count_byte] in Hp.
  rewrite app_cons_s. cbn [cut]. pose proof (count_nonneg c p).
  destruct (decide (d = c)); [lia|]. rewrite IH by lia. by destruct (cut c s) as [[]|].
Qed.
Lemma before_skip c p s : count_byte c p = 0 → before c (p +:+ s) = p +:+ before c s.
Proof. intros Hp. unfold before. rewrite cut_skip by done. by destruct (cut c s) as [[]|]. Qed.
Lemma before_prefix c s : ∃ t, s = before c s +:+ t ∧ (t = "" → count_byte c s = 0).
Proof.
  unfold before. destruct (cut c s) as [[a b]|] eqn:Hcut.
  - apply cut_Some in Hcut. by exists (String c b).
  - exists "". rewrite app_nil_s. split; [done|]. intros _. by apply cut_count.
Qed.
Lemma before_none c s : count_byte c s = 0 → before c s = s.
Proof. intros Hs. unfold before. by rewrite cut_none. Qed.
Lemma app_shorter (a t : string) : (String.length (a +:+ t) ≤ String.length a)%nat → t = "".
Proof. rewrite app_length_s. destruct t; simpl; [done|lia]. Qed.

(** An escape is longer than what it stands for. *)
Lemma unescape_length s t : unescape_host s = Some t →
  (String.length t ≤ String.length s)%nat ∧
  (String.length t = String.length s → t = s ∧ forall_bytes host_byte s = true).
Proof.
  revert t. induction s as [s IH] using (well_founded_induction
    (well_founded_ltof _ String.length)). intros t Hs. unfold ltof in IH.
  destruct s as [|c s]; [by injection Hs as <-|].
  destruct (decide (c = "%"%char)) as [->|Hc].
  - destruct s as [|a [|b r]]; [done..|]. cbn [unescape_host] in Hs.
    destruct (hex_value a) as [x|]; [|done]. destruct (hex_value b) as [y|]; [|done].
    cbn [mbind option_bind] in Hs. destruct (_ && _); [done|].
    destruct (unescape_host r) as [u|] eqn:Hu; [|done]. injection Hs as <-.
    destruct (IH r ltac:(simpl; lia) u Hu) as [Hl _]. simpl. lia.
  - assert (unescape_host (String c s) =
      if host_byte c then String c <$> unescape_host s else None) as Heq.
    { destruct c as [[] [] [] [] [] [] [] []]; done. }
    rewrite Heq in Hs. destruct (host_byte c) eqn:Hb; [|done].
    destruct (unescape_host s) as [u|] eqn:Hu; [|done]. injection Hs as <-.
    destruct (IH s ltac:(simpl; lia) u Hu) as [Hl He]. simpl. split; [lia|].
    intros [= Hlen]. destruct (He Hlen) as [-> ->]. by rewrite Hb.
Qed.
Lemma unescape_plain s : forall_bytes host_byte s = true → unescape_host s = Some s.
Proof.
  induction s as [|c s IH]; [done|]. simpl forall_bytes. intros [Hc Hs]%andb_true_iff.
  assert (unescape_host (String c s) = if host_byte c then String c <$> unescape_host s else None) as ->.
  { destruct c as [[] [] [] [] [] [] [] []]; done. }
  by rewrite Hc, IH.
Qed.

Lemma host_byte_not d : host_byte d = false → ∀ s, forall_bytes host_byte s = true → count_byte d s = 0.
Proof. intros Hd s Hs. by apply (count_none _ host_byte). Qed.
Lemma host_no_control c : host_byte c = true → negb (control c) = true.
Proof.
  intros Hc. assert (implb (host_byte c) (negb (control c)) = true) as H
    by (destruct c as [[] [] [] [] [] [] [] []]; vm_compute; reflexivity).
  by rewrite Hc in H.
Qed.
Lemma digit_host c : is_digit c = true → host_byte c = true ∧ c ≠ ":"%char ∧ c ≠ "["%char ∧ c ≠ "]"%char.
Proof.
  intros Hc. assert (implb (is_digit c) (host_byte c && negb (bool_decide (c ∈ [":"; "["; "]"]%char))) = true) as H
    by (destruct c as [[] [] [] [] [] [] [] []]; vm_compute; reflexivity).
  rewrite Hc in H. simpl in H. bool_hyps. split; [done|]. set_solver.
Qed.

(** *** [url.Parse] of scheme://rest *)

Definition web_scheme (scheme : string) : Prop := scheme = "http" ∨ scheme = "https".

Lemma scheme_split s1 s2 x1 x2 : web_scheme s1 → web_scheme s2 →
  s1 +:+ "://" +:+ x1 = s2 +:+ "://" +:+ x2 → s1 = s2 ∧ x1 = x2.
Proof. by intros [-> | ->] [-> | ->] [= Heq]. Qed.

(** If the host a URL is parsed to has the text after [://], that text is the
    authority. *)
Lemma url_Parse_web scheme host url : web_scheme scheme →
  url_Parse (scheme +:+ "://" +:+ host) = Some url →
  u_Scheme url = scheme ∧ ∃ authority t, host = authority +:+ t ∧ parse_host authority = Some (u_Host url).
Proof.
  intros Hs Hp. unfold url_Parse in Hp.
  destruct (before_prefix "#" host) as (t1 & H1 & _).
  assert (before "#" (scheme +:+ "://" +:+ host) = scheme +:+ "://" +:+ before "#" host) as Hb.
  { by rewrite <-!app_assoc_s, before_skip by (by destruct Hs as [-> | ->]). }
  rewrite Hb in Hp. destruct (negb (forall_bytes _ _)); [done|]. destruct (negb _); [done|].
  rewrite bool_decide_false in Hp by (by destruct Hs as [-> | ->]).
  assert (get_scheme true (scheme +:+ "://" +:+ before "#" host) =
    Some (Some (scheme, "//" +:+ before "#" host))) as Hg by (by destruct Hs as [-> | ->]).
  rewrite Hg in Hp. cbn [mbind option_bind from_option id] in Hp.
  assert (map_bytes lower_char scheme = scheme) as Hl by (by destruct Hs as [-> | ->]).
  rewrite Hl in Hp. set (x := before "#" host) in *.
  assert (before "?" ("//" +:+ x) = "//" +:+ before "?" x) as Hq.
  { by rewrite before_skip. }
  rewrite Hq in Hp. destruct (before_prefix "?" x) as (t2 & H2 & _).
  set (y := before "?" x) in *. change (has_prefix "/" ("//" +:+ y)) with true in Hp. cbn [negb] in Hp.
  rewrite (bool_decide_true (scheme ≠ "")) in Hp by (by destruct Hs as [-> | ->]). cbn [orb] in Hp.
  rewrite cut_prefix_app in Hp. destruct (before_prefix "/" y) as (t3 & H3 & _).
  set (z := before "/" y) in *. destruct (has_byte "@" z); [done|]. destruct (negb _); [done|].
  destruct (parse_host z) as [h|] eqn:Hh; [|done]. injection Hp as <-. split; [done|].
  exists z, (t3 +:+ t2 +:+ t1). split; [|done]. by rewrite <-!app_assoc_s, <-H3, <-H2.
Qed.

(** A host of host bytes is its own authority. *)
Lemma url_Parse_host scheme host : web_scheme scheme → forall_bytes host_byte host = true →
  parse_host host = Some host →
  url_Parse (scheme +:+ "://" +:+ host) = Some {| u_Scheme := scheme; u_Opaque := ""; u_Host := host |}.
Proof.
  intros Hs Hb Hh. assert (∀ d, host_byte d = false → cut d host = None) as Hcut.
  { intros d Hd. by apply cut_none, host_byte_not. }
  assert (cut "#" (scheme +:+ "://" +:+ host) = None) as Hc
    by (rewrite <-app_assoc_s, cut_skip, Hcut; [done|done|by destruct Hs as [-> | ->]]).
  unfold url_Parse, before. rewrite Hc.
  assert (forall_bytes (λ c, negb (control c)) (scheme +:+ "://" +:+ host) = true) as ->.
  { rewrite !forall_bytes_app, (forall_bytes_impl host_byte _ host) by (done || apply host_no_control).
    by destruct Hs as [-> | ->]. }
  cbn [negb]. rewrite bool_decide_false by (by destruct Hs as [-> | ->]).
  assert (get_scheme true (scheme +:+ "://" +:+ host) = Some (Some (scheme, "//" +:+ host))) as ->
    by (by destruct Hs as [-> | ->]).
  cbn [valid_escapes negb mbind option_bind from_option id].
  assert (map_bytes lower_char scheme = scheme) as -> by (by destruct Hs as [-> | ->]).
  assert (cut "?" ("//" +:+ host) = None) as -> by (by rewrite cut_skip, Hcut).
  change (has_prefix "/" ("//" +:+ host)) with true. cbn [negb].
  rewrite (bool_decide_true (scheme ≠ "")) by (by destruct Hs as [-> | ->]). cbn [orb].
  rewrite cut_prefix_app, !Hcut by done. unfold has_byte. rewrite host_byte_not by done. simpl.
  by rewrite Hh.
Qed.

(** *** What an origin says *)

Section origin.
Context `{UnicodeLower}.

(** A port, or none: the port of the scheme. *)
Inductive port_of (scheme : string) : string → Z → Prop :=
  | port_absent n : parse_uint (default_port scheme) = Some n → port_of scheme "" n
  | port_empty n : parse_uint (default_port scheme) = Some n → port_of scheme ":" n
  | port_given digits n : digits ≠ "" → forall_bytes is_digit digits = true →
      parse_uint digits = Some n → 1 ≤ n ≤ 65535 → port_of scheme (":" +:+ digits) n.

Definition name_byte (c : ascii) : bool := host_byte c && negb (bool_decide (c ∈ [":"; "["]%char)).
Definition literal_byte (c : ascii) : bool := host_byte c && negb (bool_decide (c = "["%char)).

(** Scheme, host in lower case, and port: of a name, and of an IPv6 address in
    brackets. *)
Inductive origin_of : string → string * string * Z → Prop :=
  | origin_name scheme name port n : web_scheme scheme → name ≠ "" →
      forall_bytes name_byte name = true → port_of scheme port n →
      origin_of (scheme +:+ "://" +:+ name +:+ port) (scheme, to_lower name, n)
  | origin_literal scheme literal a port n : web_scheme scheme →
      forall_bytes literal_byte literal = true → ParseAddr literal = Some a → Is4 a = false →
      port_of scheme port n →
      origin_of (scheme +:+ "://" +:+ "[" +:+ literal +:+ "]" +:+ port) (scheme, to_lower literal, n).

Definition origin_text (o : string * string * Z) : string :=
  o.1.1 +:+ "://" +:+ JoinHostPort o.1.2 (format_int o.2).

(** *** Hosts and ports *)

Lemma port_shape port : validOptionalPort port = true →
  port = "" ∨ ∃ digits, port = String ":" digits ∧ forall_bytes is_digit digits = true.
Proof. destruct port as [|[[] [] [] [] [] [] [] []] digits]; try done; [by left|right; by eexists]. Qed.
Lemma digits_clear c digits : is_digit c = false → forall_bytes is_digit digits = true →
  count_byte c digits = 0.
Proof. intros Hc Hd. by apply (count_none _ is_digit). Qed.
Lemma port_valid port : validOptionalPort port = true →
  forall_bytes host_byte port = true ∧ count_byte "[" port = 0
  ∧ count_byte "]" port = 0.
Proof.
  intros [->|(digits & -> & Hd)]%port_shape; [done|]. simpl.
  rewrite (forall_bytes_impl is_digit host_byte digits) by (try apply digit_host; done).
  by rewrite !digits_clear.
Qed.

Definition port_digits (port : string) : string := match port with String _ d => d | "" => "" end.
Definition port_text (scheme port : string) : string :=
  if bool_decide (port_digits port = "") then default_port scheme else port_digits port.

(** A valid port whose number is in range. *)
Lemma port_of_iff scheme port n : web_scheme scheme → port_of scheme port n ↔
  validOptionalPort port = true ∧ parse_uint (port_text scheme port) = Some n ∧ 1 ≤ n ≤ 65535.
Proof.
  intros Hs. unfold port_text. split.
  - intros Hp. split; [by destruct Hp|].
    assert (∀ m, parse_uint (default_port scheme) = Some m → 1 ≤ m ≤ 65535) as Hd
      by (intros m; destruct Hs as [-> | ->]; vm_compute; intros [= <-]; split; congruence).
    destruct Hp as [m Hm|m Hm|digits m Hne Hdig Hm Hr]; simpl;
      [by auto..|]. by rewrite bool_decide_false.
  - intros (Hv & Hn & Hr). destruct port as [|c digits]; [by apply port_absent|].
    assert (c = ":"%char ∧ forall_bytes is_digit digits = true) as [-> Hd]
      by (destruct c as [[] [] [] [] [] [] [] []]; done).
    simpl in Hn. case_bool_decide; [subst; by apply port_empty|]. by apply port_given.
Qed.

Lemma host_name name port : forall_bytes name_byte name = true → validOptionalPort port = true →
  forall_bytes host_byte (name +:+ port) = true ∧ parse_host (name +:+ port) = Some (name +:+ port) ∧
  split_host_port (name +:+ port) = (name, port_digits port).
Proof.
  intros Hname Hport. destruct (port_valid _ Hport) as (Hpb & Hpo & _).
  assert (forall_bytes host_byte name = true) as Hnb.
  { apply (forall_bytes_impl name_byte); [|done]. unfold name_byte. intros c ?. by bool_hyps. }
  assert (forall_bytes host_byte (name +:+ port) = true) as Hb by (by rewrite forall_bytes_app, Hnb, Hpb).
  assert (∀ c, c ∈ [":"; "["]%char → count_byte c name = 0) as Hc.
  { intros c Hin. apply (count_none _ name_byte); [done|]. unfold name_byte.
    rewrite bool_decide_true by done. by rewrite andb_false_r. }
  assert (count_byte "[" (name +:+ port) = 0) as Hopen by (rewrite count_app, Hpo, Hc by set_solver; done).
  assert (∀ r, name +:+ port ≠ String "[" r) as Hnb2.
  { intros r Heq. rewrite Heq, count_same in Hopen. pose proof (count_nonneg "[" r). lia. }
  split_and!; [done| |].
  - assert (parse_host (name +:+ port) = match cut ":" (name +:+ port) with
      | Some (_, digits) => if forall_bytes is_digit digits then unescape_host (name +:+ port) else None
      | None => unescape_host (name +:+ port) end) as ->.
    { unfold parse_host, has_byte. rewrite Hopen. simpl.
      destruct (name +:+ port) as [|[[] [] [] [] [] [] [] []] r]; try done. by destruct (Hnb2 r). }
    rewrite cut_skip by (apply Hc; set_solver).
    destruct (port_shape _ Hport) as [->|(digits & -> & Hd)]; simpl; [|rewrite Hd];
      by apply unescape_plain.
  - unfold split_host_port.
    assert (match name with String "[" r => default name (without_last "]" r) | _ => name end = name) as Hstrip.
    { destruct name as [|[[] [] [] [] [] [] [] []] r]; done. }
    destruct (port_shape _ Hport) as [->|(digits & -> & Hd)].
    + rewrite app_nil_s, cut_last_none by (apply Hc; set_solver). by rewrite Hstrip.
    + rewrite cut_last_app, Hd by (by apply digits_clear). by rewrite Hstrip.
Qed.

Lemma literal_colon literal a : ParseAddr literal = Some a → Is4 a = false → has_byte ":" literal = true.
Proof.
  clear. unfold ParseAddr. destruct (family literal) as [c|] eqn:Hf; [|done].
  destruct (decide (c = ":"%char)) as [->|Hne].
  - intros _ _. unfold has_byte. apply Z.ltb_lt. clear -Hf. induction literal as [|d s IH]; [done|].
    simpl in *. pose proof (count_nonneg ":" s). case_bool_decide.
    + injection Hf as ->. rewrite decide_True by done. lia.
    + specialize (IH Hf). case_decide; lia.
  - intros Ha H4. destruct c as [[] [] [] [] [] [] [] []]; try done.
    apply fmap_Some in Ha as (v & _ & ->). done.
Qed.

Lemma cut_before c s a b : cut c s = Some (a, b) → count_byte c a = 0.
Proof.
  revert a. induction s as [|d s IH]; intros a; simpl; [done|].
  case_decide; [by intros [= <- _]|]. destruct (cut c s) as [[a' b']|]; [|done].
  intros [= <- <-]. simpl. by rewrite decide_False, (IH a').
Qed.
Lemma cut_last_end c d s h p : cut_last c (s +:+ String d "") = Some (h, p) → d ≠ c →
  ∃ p', p = p' +:+ String d "".
Proof.
  intros Hcut Hne. revert h Hcut. induction s as [|e s IH]; intros h; simpl.
  - by rewrite decide_False.
  - destruct (cut_last c (s +:+ String d "")) as [[a b]|].
    + intros [= <- <-]. by apply (IH a).
    + case_decide; [|done]. intros [= <- <-]. by exists s.
Qed.

Lemma host_literal literal a port : forall_bytes literal_byte literal = true →
  ParseAddr literal = Some a → Is4 a = false → validOptionalPort port = true →
  let host := "[" +:+ literal +:+ "]" +:+ port in
  forall_bytes host_byte host = true ∧ parse_host host = Some host ∧
  split_host_port host = (literal, port_digits port).
Proof.
  intros Hlit Ha H4 Hport host. destruct (port_valid _ Hport) as (Hpb & Hpo & Hpc).
  assert (forall_bytes host_byte literal = true) as Hlb.
  { apply (forall_bytes_impl literal_byte); [|done]. unfold literal_byte. intros c ?. by bool_hyps. }
  assert (host = String "[" (literal +:+ String "]" port)) as Hhost by done.
  split_and!.
  - rewrite Hhost. simpl. rewrite forall_bytes_app, Hlb. simpl. by rewrite Hpb.
  - rewrite Hhost. cbn [parse_host]. rewrite cut_last_app by done. cbn [mbind option_bind].
    assert (has_byte "[" (literal +:+ String "]" port) = false) as ->.
    { unfold has_byte. rewrite count_app. simpl. rewrite Hpo.
      by rewrite (count_none _ literal_byte). }
    rewrite Hport, unescape_plain by done. cbn [orb negb mbind option_bind]. rewrite Ha. cbn [mbind option_bind].
    by rewrite H4.
  - unfold split_host_port. destruct (port_shape _ Hport) as [->|(digits & -> & Hd)].
    + assert (match cut_last ":" host with
        Some (h, p) => if forall_bytes is_digit p then (h, p) else (host, "") | None => (host, "") end
        = (host, "")) as ->.
      { destruct (cut_last ":" host) as [[h p]|] eqn:Hcut; [|done].
        rewrite Hhost, <-app_cons_s in Hcut. apply cut_last_end in Hcut as [p' ->]; [|done].
        rewrite forall_bytes_app. simpl. by rewrite andb_false_r. }
      rewrite Hhost. unfold without_last. by rewrite cut_last_app.
    + assert (host = String "[" (literal +:+ String "]" "") +:+ String ":" digits) as ->.
      { rewrite Hhost, app_cons_s, app_assoc_s. done. }
      rewrite cut_last_app, Hd by (by apply digits_clear). unfold without_last. by rewrite cut_last_app.
Qed.

(** *** [normalizedOrigin] *)

Lemma without_byte c x : count_byte c x = 0 → forall_bytes host_byte x = true →
  forall_bytes (λ d, host_byte d && negb (bool_decide (d = c))) x = true.
Proof.
  induction x as [|d x IH]; [done|]. simpl. pose proof (count_nonneg c x).
  case_decide; [lia|]. intros Hx [-> Hb]%andb_true_iff. rewrite bool_decide_false by done.
  simpl. apply IH; [lia|done].
Qed.

(** The shapes of a host that is its own authority. *)
Lemma parse_host_shape authority t : parse_host authority = Some (authority +:+ t) →
  (∃ name port, authority +:+ t = name +:+ port ∧ forall_bytes name_byte name = true
     ∧ validOptionalPort port = true) ∨
  (∃ literal a port, authority +:+ t = "[" +:+ literal +:+ "]" +:+ port
     ∧ forall_bytes literal_byte literal = true ∧ ParseAddr literal = Some a ∧ Is4 a = false
     ∧ validOptionalPort port = true).
Proof.
  intros Hp. assert ((String.length (authority +:+ t) ≤ String.length authority)%nat → t = "") as Ht
    by apply app_shorter.
  destruct (decide (has_prefix "[" authority = true)) as [Hbr|Hbr].
  - right. unfold has_prefix in Hbr. destruct (cut_prefix "[" authority) as [r|] eqn:Hr; [|done].
    apply cut_prefix_Some in Hr as ->. change ("[" +:+ r) with (String "[" r) in *.
    cbn [parse_host] in Hp. destruct (cut_last "]" r) as [[hostname port]|] eqn:Hcut; [|done].
    apply cut_last_Some in Hcut as [-> _]. cbn [mbind option_bind] in Hp.
    destruct (has_byte "[" _) eqn:Hopen; [done|]. destruct (validOptionalPort port) eqn:Hv; [|done].
    destruct (unescape_host hostname) as [h|] eqn:Hun; [|done]. cbn [orb negb mbind option_bind] in Hp.
    destruct (ParseAddr h) as [a|] eqn:Ha; [|done]. cbn [mbind option_bind] in Hp.
    destruct (Is4 a) eqn:H4; [done|]. injection Hp as Hp. apply unescape_length in Hun as [Hl He].
    assert (t = "") as ->.
    { apply Ht. rewrite app_cons_s, <-Hp. simpl. rewrite !app_length_s. simpl. lia. }
    rewrite app_nil_s in *. destruct He as [-> Hb].
    { apply (f_equal String.length) in Hp. rewrite !app_length_s in Hp. simpl in Hp. lia. }
    unfold has_byte in Hopen. apply Z.ltb_ge in Hopen. rewrite count_app in Hopen.
    pose proof (count_nonneg "[" hostname). pose proof (count_nonneg "[" (String "]" port)).
    exists hostname, a, port. split_and!; [done|apply without_byte; [lia|done]|done..].
  - left. assert (parse_host authority = if has_byte "[" authority then None else
      match cut ":" authority with
      | Some (_, digits) => if forall_bytes is_digit digits then unescape_host authority else None
      | None => unescape_host authority end) as Hparse.
    { destruct authority as [|[[] [] [] [] [] [] [] []] r]; done. }
    rewrite Hparse in Hp. destruct (has_byte "[" authority) eqn:Hopen; [done|].
    assert (unescape_host authority = Some (authority +:+ t)) as Hun.
    { destruct (cut ":" authority) as [[]|]; [|done]. by destruct (forall_bytes _ _). }
    pose proof (unescape_length _ _ Hun) as [Hl He]. specialize (Ht Hl) as ->. rewrite app_nil_s in *.
    destruct (He eq_refl) as [_ Hb]. unfold has_byte in Hopen. apply Z.ltb_ge in Hopen.
    pose proof (count_nonneg "[" authority).
    assert (∀ x, count_byte ":" x = 0 → count_byte "[" x = 0 → forall_bytes host_byte x = true →
      forall_bytes name_byte x = true) as Hname.
    { clear. intros x H1 H2 Hb. pose proof (without_byte _ _ H1 Hb) as W1.
      pose proof (without_byte _ _ H2 Hb) as W2. clear -W1 W2. induction x as [|d x IH]; [done|].
      simpl in *. bool_hyps. unfold name_byte at 1. rewrite bool_decide_false by set_solver.
      rewrite IH by done. by rewrite andb_true_r; apply andb_true_iff. }
    destruct (cut ":" authority) as [[name digits]|] eqn:Hcut.
    + assert (count_byte ":" name = 0) as Hnm by (by apply cut_before in Hcut).
      apply cut_Some in Hcut as ->. rewrite forall_bytes_app, count_app in *. bool_hyps.
      destruct (forall_bytes is_digit digits) eqn:Hd; [|done].
      pose proof (count_nonneg "[" name). pose proof (count_nonneg "[" (String ":" digits)).
      exists name, (String ":" digits). split_and!; [done|apply Hname; [done|lia|done]|done].
    + exists authority, "". rewrite app_nil_s. split_and!; [done| |done].
      apply Hname; [by apply cut_count|lia|done].
Qed.

(** What [normalizedOrigin] makes of a host with its port. *)
Lemma normalized_of scheme host hostname port o : web_scheme scheme → host ≠ "" →
  url_Parse (scheme +:+ "://" +:+ host) = Some {| u_Scheme := scheme; u_Opaque := ""; u_Host := host |} →
  split_host_port host = (hostname, port_digits port) → validOptionalPort port = true →
  normalizedOrigin (scheme +:+ "://" +:+ host) = Ok o ↔
  hostname ≠ "" ∧ ∃ n, port_of scheme port n ∧ o = origin_text (scheme, to_lower hostname, n).
Proof.
  intros Hs Hne Hurl Hsplit Hv. unfold normalizedOrigin. rewrite Hurl. cbn [u_Host u_Opaque u_Scheme].
  rewrite (bool_decide_false (host = "")), (bool_decide_false ("" ≠ "")) by naive_solver.
  assert (bool_decide (scheme ≠ "http") && bool_decide (scheme ≠ "https") = false) as ->
    by (by destruct Hs as [-> | ->]).
  rewrite (bool_decide_false (_ ≠ _)) by naive_solver. cbn [orb guard_err mbind result_bind].
  rewrite Hsplit. fold (port_text scheme port). setoid_rewrite port_of_iff; [|done].
  destruct (parse_uint (port_text scheme port)) as [n|] eqn:Hn; [|split; [done|naive_solver]].
  unfold guard_err. destruct (_ || _) eqn:Hguard; cbn [mbind result_bind].
  - split; [done|]. intros (Hh & m & (_ & [= <-] & Hr) & _). exfalso.
    apply orb_true_iff in Hguard as [[?%Z.ltb_lt|?%Z.ltb_lt]%orb_true_iff|?]; [lia..|]. by bool_hyps.
  - bool_hyps. split.
    + intros [= <-]. split; [done|]. exists n. split_and!; [done|done|lia|lia|done].
    + intros (_ & m & (_ & [= <-] & _) & ->). done.
Qed.

Lemma normalizedOrigin_iff value o : normalizedOrigin value = Ok o ↔
  ∃ parts, origin_of value parts ∧ o = origin_text parts.
Proof.
  split.
  - intros Hn. assert (∃ scheme host, web_scheme scheme ∧ value = scheme +:+ "://" +:+ host ∧ host ≠ ""
      ∧ ∃ url, url_Parse value = Some url ∧ u_Host url = host) as (scheme & host & Hs & -> & Hne & url & Hurl & Hhost).
    { unfold normalizedOrigin in Hn. destruct (url_Parse value) as [url|]; [|done].
      inv_ok. bool_hyps.
      exists (u_Scheme url), (u_Host url). split_and!; [|by apply dec_stable|done|by eauto].
      match goal with Hx : bool_decide _ && bool_decide _ = false |- _ =>
        apply andb_false_iff in Hx as [Hx|Hx]; apply bool_decide_eq_false in Hx end;
        [left|right]; by apply dec_stable. }
    destruct (url_Parse_web scheme host url Hs Hurl) as (_ & authority & t & -> & Hp).
    rewrite Hhost in Hp.
    destruct (parse_host_shape authority t Hp) as [(name & port & Heq & Hb & Hv)|(l & a & port & Heq & Hb & Ha & H4 & Hv)];
      rewrite Heq in *.
    + destruct (host_name name port Hb Hv) as (Hhb & Hph & Hsplit).
      apply (normalized_of scheme _ name port o Hs Hne (url_Parse_host _ _ Hs Hhb Hph) Hsplit Hv) in Hn
        as (Hnn & n & Hport & ->).
      eexists. split; [|done]. by constructor.
    + destruct (host_literal l a port Hb Ha H4 Hv) as (Hhb & Hph & Hsplit).
      apply (normalized_of scheme _ l port o Hs Hne (url_Parse_host _ _ Hs Hhb Hph) Hsplit Hv) in Hn
        as (Hnn & n & Hport & ->).
      eexists. split; [|done]. by eapply origin_literal.
  - intros (parts & Hof & ->). destruct Hof as [scheme name port n Hs Hne Hb Hport|scheme l a port n Hs Hb Ha H4 Hport];
      pose proof (proj1 (port_of_iff _ _ _ Hs) Hport) as (Hv & _).
    + destruct (host_name name port Hb Hv) as (Hhb & Hph & Hsplit).
      apply (normalized_of scheme (name +:+ port) name port _ Hs ltac:(by destruct name)
        (url_Parse_host _ _ Hs Hhb Hph) Hsplit Hv). split; [done|]. by exists n.
    + destruct (host_literal l a port Hb Ha H4 Hv) as (Hhb & Hph & Hsplit).
      apply (normalized_of scheme ("[" +:+ l +:+ "]" +:+ port) l port _ Hs ltac:(done)
        (url_Parse_host _ _ Hs Hhb Hph) Hsplit Hv). split; [by intros ->|]. by exists n.
Qed.

(** The Secure attribute follows the scheme. *)
Lemma secure_origin value scheme host port : origin_of value (scheme, host, port) →
  (SecureForOrigin value = true ↔ scheme = "https").
Proof.
  intros Hof. assert (∃ h, url_Parse value = Some {| u_Scheme := scheme; u_Opaque := ""; u_Host := h |}
    ∧ web_scheme scheme) as (h & Hurl & Hs).
  { remember (scheme, host, port) as parts eqn:Hparts.
    destruct Hof as [s name pt n Hs Hne Hb Hport|s l a pt n Hs Hb Ha H4 Hport]; injection Hparts as <- <- <-;
      pose proof (proj1 (port_of_iff _ _ _ Hs) Hport) as (Hv & _); eexists; split; try done.
    - destruct (host_name name pt Hb Hv) as (Hhb & Hph & _). by apply url_Parse_host.
    - destruct (host_literal l a pt Hb Ha H4 Hv) as (Hhb & Hph & _). by apply url_Parse_host. }
  unfold SecureForOrigin. rewrite Hurl. cbn [u_Scheme]. rewrite bool_decide_eq_true.
  by destruct Hs as [-> | ->].
Qed.

(** *** Normal forms are different for different origins *)

Lemma origin_text_inj s1 h1 n1 s2 h2 n2 : web_scheme s1 → web_scheme s2 → 0 ≤ n1 → 0 ≤ n2 →
  origin_text (s1, h1, n1) = origin_text (s2, h2, n2) → (s1, h1, n1) = (s2, h2, n2).
Proof.
  intros Hs1 Hs2 Hn1 Hn2 Heq. unfold origin_text in Heq. cbn [fst snd] in Heq.
  apply scheme_split in Heq as [-> Heq]; [|done..].
  assert (∀ n, 0 ≤ n → parse_uint (format_int n) = Some n ∧ count_byte ":" (format_int n) = 0) as Hfmt.
  { intros n Hn. destruct (format_uint n Hn) as [Hp Hd]. split; [done|]. by apply digits_clear. }
  destruct (Hfmt n1 Hn1) as [Hp1 Hc1], (Hfmt n2 Hn2) as [Hp2 Hc2].
  assert (∀ h n, count_byte ":" (format_int n) = 0 → cut_last ":" (JoinHostPort h (format_int n)) =
    Some (if has_byte ":" h then "[" +:+ h +:+ "]" else h, format_int n)) as Hcut.
  { intros h n Hc. unfold JoinHostPort. destruct (has_byte ":" h).
    - change ("[" +:+ h +:+ "]:" +:+ format_int n) with ("[" +:+ h +:+ "]" +:+ String ":" (format_int n)).
      rewrite <-!app_assoc_s. by apply cut_last_app.
    - by apply cut_last_app. }
  pose proof (Hcut h1 n1 Hc1) as H1. rewrite Heq, Hcut in H1 by done. injection H1 as Hh Hn.
  assert (n1 = n2) as -> by congruence. do 2 f_equal.
  assert (∀ h, has_byte ":" ("[" +:+ h +:+ "]") = has_byte ":" h) as Hbr.
  { intros h. unfold has_byte. rewrite !count_app. simpl. f_equal. lia. }
  assert (has_byte ":" h1 = has_byte ":" h2) as Hhb.
  { apply (f_equal (has_byte ":")) in Hh. destruct (has_byte ":" h1) eqn:H1, (has_byte ":" h2) eqn:H2;
      rewrite ?Hbr in Hh; congruence. }
  rewrite Hhb in Hh. destruct (has_byte ":" h2); [|done].
  apply (inj (String.append "[")), (f_equal (cut_last "]")) in Hh.
  change "]" with (String "]" "") in Hh. rewrite !cut_last_app in Hh by done. congruence.
Qed.

(** *** The policy *)

(** The value of a forwarding header, if there is one. *)
Inductive header_or (request : HTTPRequest) (name fallback : string) : string → Prop :=
  | header_absent : Values request name = [] → header_or request name fallback fallback
  | header_given value : Values request name = [value] → value ≠ "" → has_byte "," value = false →
      trim_space value = value → header_or request name fallback value.

(** The text of the address at which browsers reach the server: that of the
    connection, or what a trusted proxy says of it. *)
Inductive public_address (trusted : list Prefix) (request : HTTPRequest) : string → Prop :=
  | address_direct : trustedPeer trusted (RemoteAddr request) = false →
      public_address trusted request ((if TLS request then "https" else "http") +:+ "://" +:+ Host request)
  | address_proxied scheme host : trustedPeer trusted (RemoteAddr request) = true →
      header_or request "X-Forwarded-Proto" (if TLS request then "https" else "http") scheme →
      header_or request "X-Forwarded-Host" (Host request) host →
      public_address trusted request (scheme +:+ "://" +:+ host).

Lemma forwarded_value request name fallback v :
  header_or request name fallback v ↔
  ∃ x, singleForwardedValue request name = Ok x ∧ v = if bool_decide (x ≠ "") then x else fallback.
Proof.
  unfold singleForwardedValue. split.
  - destruct 1 as [Hv|value Hv Hne Hcomma Htrim]; rewrite Hv; [by exists ""|].
    exists value. rewrite (bool_decide_false (value = "")), Hcomma, (bool_decide_true (trim_space _ = _)) by done.
    split; [done|]. by rewrite bool_decide_true.
  - intros (x & Hx & ->). destruct (Values request name) as [|value [|]] eqn:Hv; [| |done].
    + injection Hx as <-. by apply header_absent.
    + inv_ok. bool_hyps. rewrite bool_decide_true by done. by apply header_given.
Qed.

Lemma requestOrigin_iff trusted request o : requestOrigin trusted request = Ok o ↔
  ∃ address, public_address trusted request address ∧ normalizedOrigin address = Ok o.
Proof.
  unfold requestOrigin, forwardedOrigin. destruct (trustedPeer trusted (RemoteAddr request)) eqn:Ht.
  - rewrite bind_Ok. setoid_rewrite bind_Ok. split.
    + intros (s & Hs & h & Hh & Ho). eexists. split; [|exact Ho].
      apply address_proxied; [done| |]; apply forwarded_value; eauto.
    + intros (a & Ha & Ho). destruct Ha as [|scheme host _ Hs Hh]; [congruence|].
      apply forwarded_value in Hs as (s & Hs & ->), Hh as (h & Hh & ->). eauto 10.
  - split; [intros Ho; eexists; split; [by apply address_direct|done]|].
    intros (a & Ha & Ho). by destruct Ha; [|congruence].
Qed.

(** C25: a browser request is accepted exactly when it carries one Origin header
    and that origin is the public address of the server: the schemes are equal,
    the hosts equal up to letter case, and the ports equal, a missing port being
    the scheme's own.  The address is that of the connection unless the peer is
    a trusted proxy; an Origin that is opaque, malformed, or has a path, a query
    or user information denotes nothing and is refused. *)
Theorem same_origin_exact trusted request : origin_Validate trusted request = Ok tt ↔
  ∃ value address parts, Values request "Origin" = [value] ∧ public_address trusted request address ∧
    origin_of value parts ∧ origin_of address parts.
Proof.
  assert (∀ v parts, origin_of v parts → web_scheme parts.1.1 ∧ 0 ≤ parts.2) as Hparts.
  { intros v parts Hof. destruct Hof as [s name port n Hs _ _ Hp|s l a port n Hs _ _ _ Hp];
      apply port_of_iff in Hp as (_ & _ & Hn); simpl; try done; (split; [done|lia]). }
  unfold origin_Validate. split.
  - destruct (Values request "Origin") as [|value [|]]; try done. intros Hv.
    apply bind_Ok in Hv as (o & Ho & Hv).
    destruct (requestOrigin trusted request) as [expected|] eqn:Hr; [|done].
    apply guard_err_Ok in Hv. bool_hyps. subst expected.
    apply requestOrigin_iff in Hr as (address & Haddr & Hr).
    apply normalizedOrigin_iff in Ho as (p1 & Hp1 & ->), Hr as (p2 & Hp2 & Heq).
    exists value, address, p1. split_and!; [done..|].
    destruct (Hparts _ _ Hp1), (Hparts _ _ Hp2), p1 as [[s1 h1] n1], p2 as [[s2 h2] n2].
    apply origin_text_inj in Heq; [|done..]. congruence.
  - intros (value & address & parts & -> & Haddr & Hv & Ha).
    rewrite (proj2 (normalizedOrigin_iff value (origin_text parts))) by eauto. cbn [mbind result_bind].
    assert (requestOrigin trusted request = Ok (origin_text parts)) as ->
      by (apply requestOrigin_iff; exists address; split; [done|]; apply normalizedOrigin_iff; eauto).
    by rewrite bool_decide_true.
Qed.
End origin.
