(* ===== verification/ObjectStore.v ===== *)
(** [server/internal/infra/object/key.go]: names of stored assets, over the
    parts of package [path] it uses; and [storage.go]: the boundary to the
    object storage, as an interface over the provider's state, and the checks
    both providers share, with the part of package [mime] they use.  Parsing a
    UUID is third-party code, a parameter. *)

From S2P Require Import Prelude GoStd GoStrings Json Engine Model Cache World WorldLaws.
From Stdlib Require Import Ascii.

Local Open Scope Z_scope.

(** ** [path] *)

(** [path.Ext]: from the last dot of the last element. *)
Fixpoint path_ext (s : string) : string :=
  match s with
  | EmptyString => ""
  | String c s' =>
      let e := path_ext s' in
      if decide (c = "."%char) then
        if bool_decide (e = "") && (count_byte "/" s' =? 0) then s else e
      else e
  end.

(** [path.Clean] keeps a stack of the elements that remain. *)
Definition clean_step (rooted : bool) (stack : list string) (part : string) : list string :=
  if bool_decide (part = "") || bool_decide (part = ".") then stack
  else if bool_decide (part = "..") then
    match stack with
    | [] => if rooted then [] else [".."]
    | top :: rest => if bool_decide (top = "..") then ".." :: stack else rest
    end
  else part :: stack.
Definition path_clean (s : string) : string :=
  let rooted := String.prefix "/" s in
  let parts := rev (foldl (clean_step rooted) [] (split_on "/" s)) in
  let body := sep_concat "/" parts in
  if rooted then "/" +:+ body else if bool_decide (body = "") then "." else body.

(** ** Keys *)

Record ObjectScope := {
  os_EnvironmentID : Z;
  os_ProjectID : Z;
  os_ObjectID : string;
  os_Extension : string;
  os_Temporary : bool;
}.

(** [uuid.Parse] followed by [String]. *)
Class UUIDLib := uuid_text : string → option string.
(** The text it prints has 36 characters, lower-case hexadecimal digits and
    hyphens. *)
Definition uuid_char (c : ascii) : bool :=
  is_digit c || in_range 97 102 (byte c) || bool_decide (c = "-"%char).
Class UUIDLaws (U : UUIDLib) := uuid_shape : ∀ s t, uuid_text s = Some t →
  len t = 36 ∧ forall_bytes uuid_char t = true.

Definition extension_rune (r : Z) : bool := in_range 97 122 r || in_range 48 57 r.
Definition object_invalid (msg : string) : Err := EObject ObjectInvalid msg.

Section key.
Context `{UUIDLib} `{UnicodeLower}.

Definition canonical_uuid (s : string) : bool := bool_decide (uuid_text s = Some s).

Definition object_key (environmentID projectID : Z) (objectID extension : string)
    (temporary : bool) : string :=
  (if temporary then "uploads/" else "") +:+ "environments/" +:+ format_int environmentID
  +:+ "/projects/" +:+ format_int projectID +:+ "/assets/" +:+ objectID +:+ extension.

(** The text behind the first byte of an extension. *)
Definition extension_tail (extension : string) : string :=
  match extension with EmptyString => "" | String _ s => s end.

Definition buildObjectKey (environmentID projectID : Z) (objectID extension : string)
    (temporary : bool) : result string :=
  guard_err ((environmentID <=? 0) || (projectID <=? 0))
    (object_invalid "environment and project IDs must be positive");;
  guard_err (negb (canonical_uuid objectID)) (object_invalid "object ID must be a canonical UUID");;
  guard_err ((len extension <? 2) || negb (String.prefix "." extension)
             || negb (bool_decide (extension = to_lower extension)))
    (object_invalid "extension must be lowercase and start with a dot");;
  guard_err (negb (forallb extension_rune (runes (extension_tail extension))))
    (object_invalid "extension contains unsupported characters");;
  Ok (object_key environmentID projectID objectID extension temporary).

Definition BuildObjectKey (environmentID projectID : Z) (objectID extension : string) :
    result string := buildObjectKey environmentID projectID objectID extension false.
Definition BuildUploadObjectKey (environmentID projectID : Z) (objectID extension : string) :
    result string := buildObjectKey environmentID projectID objectID extension true.

Definition parseCanonicalPositiveID (value : string) : result Z :=
  match parse_int64 value with
  | Some parsed =>
      if (parsed <=? 0) || negb (bool_decide (format_int parsed = value))
      then Er (object_invalid "object scope ID is invalid") else Ok parsed
  | None => Er (object_invalid "object scope ID is invalid")
  end.

Definition canonical_path (key : string) : bool :=
  negb (bool_decide (key = "") || (512 <? len key)
        || contains_any ["\"%char; chr 0; chr 13; chr 10] key
        || negb (bool_decide (path_clean key = key)) || String.prefix "/" key).

Definition ParseObjectKey (key : string) : result ObjectScope :=
  guard_err (negb (canonical_path key)) (object_invalid "object key is not canonical");;
  let parts := split_on "/" key in
  let temporary := (length parts =? 7)%nat && bool_decide (head parts = Some "uploads") in
  let parts := if temporary then tail parts else parts in
  match parts with
  | [p0; p1; p2; p3; p4; p5] =>
      guard_err (negb (bool_decide (p0 = "environments")) || negb (bool_decide (p2 = "projects"))
                 || negb (bool_decide (p4 = "assets")))
        (object_invalid "object key has an invalid scope");;
      environmentID ← parseCanonicalPositiveID p1;
      projectID ← parseCanonicalPositiveID p3;
      let extension := path_ext p5 in
      let objectID := trim_suffix p5 extension in
      guard_err (negb (canonical_uuid objectID) || bool_decide (extension = "")
                 || negb (bool_decide (extension = to_lower extension)))
        (object_invalid "object filename is invalid");;
      guard_err (negb (forallb extension_rune (runes (extension_tail extension))))
        (object_invalid "object extension is invalid");;
      Ok {| os_EnvironmentID := environmentID; os_ProjectID := projectID;
            os_ObjectID := objectID; os_Extension := extension; os_Temporary := temporary |}
  | _ => Er (object_invalid "object key has an invalid scope")
  end.
End key.

(** ** [mime.ParseMediaType] *)

Definition is_tspecial (c : ascii) : bool :=
  bool_decide (c ∈ ["("; ")"; "<"; ">"; "@"; ","; ";"; ":"; backslash; quote; "/"; "["; "]";
                    "?"; "="]%char).
Definition is_token_char (c : ascii) : bool :=
  (32 <? byte c) && (byte c <? 127) && negb (is_tspecial c).

Fixpoint mime_token (v : string) : string * string :=
  match v with
  | String c r => if is_token_char c then let '(t, rest) := mime_token r in (String c t, rest)
                  else ("", v)
  | EmptyString => ("", "")
  end.

(** A quoted string behind its opening quote; a backslash escapes only a
    special character. *)
Fixpoint quoted (v : string) : option (string * string) :=
  match v with
  | EmptyString => None
  | String c r =>
      if bool_decide (c = quote) then Some ("", r)
      else
        let ordinary :=
          if (byte c =? 10) || (byte c =? 13) then None
          else '(t, rest) ← quoted r; Some (String c t, rest) in
        match r with
        | String e r' =>
            if bool_decide (c = backslash) && is_tspecial e
            then '(t, rest) ← quoted r'; Some (String e t, rest) else ordinary
        | EmptyString => ordinary
        end
  end.
Definition mime_value (v : string) : option (string * string) :=
  match v with
  | String c r =>
      if bool_decide (c = quote) then quoted r
      else let '(t, rest) := mime_token v in
           if bool_decide (t = "") then None else Some (t, rest)
  | EmptyString => None
  end.

Definition checkMediaTypeDisposition (s : string) : bool :=
  let '(typ, rest) := mime_token s in
  negb (bool_decide (typ = "")) &&
  match rest with
  | EmptyString => true
  | String "/" r =>
      let '(subtype, rest) := mime_token r in
      negb (bool_decide (subtype = "")) && bool_decide (rest = "")
  | _ => false
  end.

(** The text behind the byte [c], which must come first but for white space. *)
Definition behind (c : ascii) (v : string) : option string :=
  match trim_left v with
  | String c' r => if decide (c' = c) then Some r else None
  | EmptyString => None
  end.

Section mime.
Context `{UnicodeLower}.

Definition mime_param (v : string) : option (string * string * string) :=
  r ← behind ";" v;
  let '(param, r) := mime_token (trim_left r) in
  let param := to_lower param in
  if bool_decide (param = "") then None
  else r ← behind "=" r;
       '(value, r) ← mime_value (trim_left r);
       Some (param, value, r).

(** Whether the parameters are well formed; one named twice keeps its value.
    Each takes at least a byte of the text, so its length bounds the loop. *)
Fixpoint media_params (n : nat) (seen : gmap string string) (v : string) : bool :=
  match n with
  | O => false
  | S n =>
      let v := trim_left v in
      if bool_decide (v = "") then true
      else
        match mime_param v with
        | None => bool_decide (trim_space v = ";")
        | Some (key, value, rest) =>
            match seen !! key with
            | Some value' => bool_decide (value' = value) && media_params n seen rest
            | None => media_params n (<[key := value]> seen) rest
            end
        end
  end.

(** The media type, when there is no error. *)
Definition ParseMediaType (v : string) : option string :=
  let '(base, params) := match cut ";" v with Some (a, b) => (a, String ";" b) | None => (v, "") end in
  let mediatype := trim_space (to_lower base) in
  if negb (checkMediaTypeDisposition mediatype) then None
  else if media_params (S (String.length params)) ∅ params then Some mediatype else None.

(** ** storage.go *)

Definition LocalUploadPath : string := "/api/assets/upload".
Definition LocalObjectPathPrefix : string := "/api/assets/objects/".
Definition DefaultUploadTTL : Z := 15 * 60 * 10 ^ 9.
Definition MaxUploadSize : Z := 64 * 1024 * 1024.
Definition UploadMethodPut : string := "PUT".
Definition UploadMethodPost : string := "POST".

Record PresignUploadInput := {
  pu_Key : string;
  pu_ContentType : string;
  pu_Size : Z;
  pu_ExpiresIn : Z;
}.

Record UploadTicket := {
  ut_Key : string;
  ut_URL : string;
  ut_Method : string;
  ut_Headers : gmap string string;
  ut_FormFields : gmap string string;
  ut_ExpiresAt : Z;
}.

Record Metadata := {
  md_Key : string;
  md_URL : string;
  md_ETag : string;
  md_ContentType : string;
  md_Size : Z;
  md_DeclaredContentType : string;
  md_DeclaredSize : Z;
  md_LastModified : Z;
}.

Definition normalizeContentType (value : string) : result string :=
  guard_err (negb (bool_decide (trim_space value = value)) || bool_decide (value = "")
             || contains_any [chr 13; chr 10] value) (object_invalid "content type is invalid");;
  match ParseMediaType value with
  | Some mediaType =>
      guard_err (count_byte "/" mediaType =? 0) (object_invalid "content type is invalid");;
      Ok (to_lower mediaType)
  | None => Er (object_invalid "content type is invalid")
  end.

Definition day : Z := 24 * 3600 * 10 ^ 9.

Definition validatePresignInput `{UUIDLib} (input : PresignUploadInput) : result string :=
  ParseObjectKey (pu_Key input);;
  guard_err ((pu_Size input =? 0) || (MaxUploadSize <? pu_Size input))
    (object_invalid "size must be between one and the maximum");;
  contentType ← normalizeContentType (pu_ContentType input);
  guard_err ((pu_ExpiresIn input <=? 0) || (day <? pu_ExpiresIn input))
    (object_invalid "upload expiry must be between zero and 24 hours");;
  Ok contentType.

(** It also puts the two content types in their normal form. *)
Definition validateCompletedMetadata (metadata : Metadata) : result Metadata :=
  guard_err ((md_Size metadata =? 0) || (md_DeclaredSize metadata =? 0)
             || negb (md_Size metadata =? md_DeclaredSize metadata))
    (EObject ObjectIntegrity "object size differs from its signed declaration");;
  match normalizeContentType (md_ContentType metadata) with
  | Er _ => Er (EObject ObjectIntegrity "object content type is invalid")
  | Ok actualType =>
      match normalizeContentType (md_DeclaredContentType metadata) with
      | Ok declaredType =>
          guard_err (negb (bool_decide (actualType = declaredType)))
            (EObject ObjectIntegrity "object content type differs from its signed declaration");;
          Ok {| md_Key := md_Key metadata; md_URL := md_URL metadata; md_ETag := md_ETag metadata;
                md_ContentType := actualType; md_Size := md_Size metadata;
                md_DeclaredContentType := declaredType;
                md_DeclaredSize := md_DeclaredSize metadata;
                md_LastModified := md_LastModified metadata |}
      | Er _ => Er (EObject ObjectIntegrity "object content type differs from its signed declaration")
      end
  end.
End mime.

(** ** The provider's state

    A function of the server that also uses the object storage, whose state is
    an [S]. *)
Section storage.
Context `{Engine} `{Collation} `{Store}.

Definition OM (S A : Type) : Type := S → World → result A * S * World.

#[global] Instance OM_ret {S} : MRet (OM S) := λ A a s w, (Ok a, s, w).
#[global] Instance OM_bind {S} : MBind (OM S) := λ A B f m s w,
  match m s w with
  | (Ok a, s', w') => f a s' w'
  | (Er e, s', w') => (Er e, s', w')
  end.

(** A function that does not use the storage. *)
Definition on_world {S A} (m : M A) : OM S A := λ s w,
  let '(r, w') := m w in (r, s, w').
Definition o_throw {S A} (e : Err) : OM S A := λ s w, (Er e, s, w).
Definition o_lift {S A} (r : result A) : OM S A := λ s w, (r, s, w).
Definition o_handle {S A} (h : Err → Err) (m : OM S A) : OM S A := λ s w,
  match m s w with (Er e, s', w') => (Er (h e), s', w') | x => x end.
Definition o_attempt {S A} (m : OM S A) : OM S (result A) := λ s w,
  let '(r, s', w') := m s w in (Ok r, s', w').

(** The interface [ObjectStorage]. *)
Class ObjectStorage (S : Type) := {
  PresignUpload : PresignUploadInput → OM S UploadTicket;
  CompleteUpload : string → OM S Metadata;
  ReadMetadata : string → OM S Metadata;
  DeleteIncomplete : string → OM S unit;
  Close : OM S unit;
}.

(** A call that leaves the rows and the cache of the server alone. *)
Definition outward {S A} (m : OM S A) : Prop :=
  ∀ s w r s' w', m s w = (r, s', w') → same_store w w'.

(** What the server relies on of a provider: it keeps its state to itself. *)
Class StorageLaws {S} (OS : ObjectStorage S) := {
  outward_PresignUpload input : outward (PresignUpload input);
  outward_CompleteUpload key : outward (CompleteUpload key);
  outward_ReadMetadata key : outward (ReadMetadata key);
  outward_DeleteIncomplete key : outward (DeleteIncomplete key);
  outward_Close : outward Close;
}.

Lemma outward_bind {S A B} (m : OM S A) (k : A → OM S B) :
  outward m → (∀ a, outward (k a)) → outward (m ≫= k).
Proof.
  intros Hm Hk s w r s' w'. unfold mbind, OM_bind. destruct (m s w) as [[[a|e] s1] w1] eqn:Hr.
  - intros Hr2. eapply same_store_trans; [by eapply Hm|by eapply Hk].
  - intros [= <- <- <-]. by eapply Hm.
Qed.
Lemma outward_ret {S A} (a : A) : outward (S := S) (mret a).
Proof. by intros s w r s' w' [= <- <- <-]. Qed.
Lemma outward_throw {S A} e : outward (S := S) (A := A) (o_throw e).
Proof. by intros s w r s' w' [= <- <- <-]. Qed.
Lemma outward_lift {S A} (x : result A) : outward (S := S) (o_lift x).
Proof. by intros s w r s' w' [= <- <- <-]. Qed.
Lemma outward_world {S A} (m : M A) : quiet m → outward (S := S) (on_world m).
Proof.
  intros Hm s w r s' w'. unfold on_world. destruct (m w) as [x w1] eqn:Hr.
  intros [= <- <- <-]. by eapply Hm.
Qed.
Lemma outward_handle {S A} h (m : OM S A) : outward m → outward (o_handle h m).
Proof.
  intros Hm s w r s' w'. unfold o_handle. destruct (m s w) as [[[a|e] s1] w1] eqn:Hr;
    intros [= <- <- <-]; by eapply Hm.
Qed.
Lemma outward_attempt {S A} (m : OM S A) : outward m → outward (o_attempt m).
Proof.
  intros Hm s w r s' w'. unfold o_attempt. destruct (m s w) as [[x s1] w1] eqn:Hr.
  intros [= <- <- <-]. by eapply Hm.
Qed.
End storage.

Create HintDb outward.
#[export] Hint Resolve outward_ret outward_throw outward_lift outward_PresignUpload
  outward_CompleteUpload outward_ReadMetadata outward_DeleteIncomplete outward_Close : outward.

(** Go through the binds and case distinctions of a function of the storage. *)
Ltac outward :=
  repeat match goal with
  | |- outward (_ ≫= _) => apply outward_bind; [|intros ?]
  | |- outward (on_world _) => apply outward_world; solve [quiet]
  | |- outward (o_handle _ _) => apply outward_handle
  | |- outward (o_attempt _) => apply outward_attempt
  | |- outward (if ?b then _ else _) => destruct b
  | |- outward (match ?x with _ => _ end) => destruct x
  | |- outward (match ?x with _ => _ end _) => destruct x
  | |- outward (let _ := _ in _) => cbv zeta
  | |- outward _ => solve [auto with outward]
  end.
