(* ===== verification/LogicPublish.v ===== *)
(** [server/internal/logic/publish.go] and [runtime.go]: publishing and
    unpublishing a snapshot of a configuration, and the read of what is
    published with an API key. *)

From S2P Require Import Prelude GoStd GoStrings Util Proto Codec Schema Engine Model Cache Convert World WorldLaws RepoScope Permission Credential RepoConfig RepoChild RepoSnapshot RepoProject LogicBase.

Local Open Scope Z_scope.

(** [runtime.go]: the key of an immutable generation of released content. *)
Definition contentCacheKey (projectID : Z) (configKey : string) (runtimeVersion : Z) : string :=
  "runtime:config:" +:+ format_int projectID +:+ ":" +:+ configKey +:+ ":"
  +:+ format_int runtimeVersion.

Record publicationRequest := {
  pr_actor : Actor;
  pr_environmentID : Z;
  pr_snapshotID : Z;
  pr_expectedVersion : Z;         (* uint32 *)
  pr_status : Z;
}.

Record publicationChange := {
  request : publicationRequest;
  config : ConfigRow;
  target : SnapshotRow;
  released : option SnapshotRow;
  changedAt : Z;
}.

Record cleanupKey := {
  ck_projectID : Z;
  ck_configKey : string;
  ck_runtimeVersion : Z;
}.

(** ** Decisions on the locked rows *)

Definition repeatedPublication (status : Z) : Err :=
  EConflict (if status =? SnapshotStatusReleased then "snapshot is already released"
             else "snapshot is already unreleased").

Definition validateTarget (request : publicationRequest) (config : ConfigRow)
    (target : SnapshotRow) : result unit :=
  if snp_Status target =? pr_status request
  then Er (repeatedPublication (pr_status request))
  else if negb (Version (snp_meta target) =? pr_expectedVersion request)
  then Er (EConflict "snapshot version is stale")
  else if negb (snp_ConfigID target =? ID (cfg_meta config))
          || negb (snp_ProjectID target =? cfg_ProjectID config)
          || negb (bool_decide (snp_ConfigKey target = cfg_Key config))
  then Er (EConflict "snapshot does not belong to config")
  else Ok tt.

Definition validateRuntimeVersion (version : Z) : result unit :=
  if version <? 0 then Er (EConflict "config runtime version is invalid")
  else if version =? max_int64 then Er (EConflict "config runtime version is exhausted")
  else Ok tt.

(** One step of the loop of [publicationState]. *)
Definition publication_step (targetID : Z)
    (st : option SnapshotRow * option SnapshotRow) (item : SnapshotRow) :
    result (option SnapshotRow * option SnapshotRow) :=
  let '(target, released) := st in
  if negb (snp_Status item =? SnapshotStatusUnreleased)
     && negb (snp_Status item =? SnapshotStatusReleased)
  then Er (EConflict "snapshot has unsupported status")
  else if (snp_Status item =? SnapshotStatusReleased) && bool_decide (is_Some released)
  then Er (EConflict "config has multiple released snapshots")
  else
    let released := if snp_Status item =? SnapshotStatusReleased then Some item else released in
    let target := if ID (snp_meta item) =? targetID then Some item else target in
    Ok (target, released).

Definition publicationState (snapshots : list SnapshotRow) (targetID : Z) :
    result (SnapshotRow * option SnapshotRow) :=
  '(target, released) ← fold_m (publication_step targetID) snapshots (None, None);
  match target with
  | None => Er (ENotFound "snapshot")
  | Some target => Ok (target, released)
  end.

Definition config_id_of (c : option Config) : Z :=
  match c with Some c => Config_Id c | None => 0 end.

Section content.
Context `{Protojson} `{MapOrder}.

(** The definitions of a snapshot belong to its configuration. *)
Definition owned_definitions (content : ConfigSnapshot) (configID : Z) : result unit :=
  each (λ item, match item with
    | Some item => guard_err (negb (Structure_ConfigId item =? configID))
                     (EInvalid "snapshot structure belongs to another config")
    | None => Er (EInvalid "snapshot structure belongs to another config")
    end) (sc_Structures content);;
  each (λ item, match item with
    | Some item => guard_err (negb (Enum_ConfigId item =? configID))
                     (EInvalid "snapshot enum belongs to another config")
    | None => Er (EInvalid "snapshot enum belongs to another config")
    end) (sc_Enums content).

Definition validateSnapshot (snapshot : SnapshotRow) (config : ConfigRow) : result unit :=
  match DecodeConfigSnapshot (snp_Content snapshot) with
  | Er _ => Er (EInvalid "snapshot content is invalid")
  | Ok content =>
      match sc_Config content with
      | Some c =>
          if bool_decide (Config_Type c = None)
          then Er (EInvalid "snapshot content is incomplete")
          else if negb (Config_Id c =? ID (cfg_meta config))
               || negb (Config_ProjectId c =? cfg_ProjectID config)
               || negb (bool_decide (Config_Key c = cfg_Key config))
          then Er (EConflict "snapshot content does not belong to config")
          else
            owned_definitions content (ID (cfg_meta config));;
            schema ← NewSchema (sc_Structures content) (sc_Enums content);
            ValidateConfig schema (Some c)
      | None => Er (EInvalid "snapshot content is incomplete")
      end
  end.

Definition validate (request : publicationRequest) (config : ConfigRow)
    (target : SnapshotRow) : result unit :=
  validateTarget request config target;;
  validateRuntimeVersion (cfg_RuntimeVersion config);;
  if pr_status request =? SnapshotStatusUnreleased then Ok tt
  else validateSnapshot target config.
End content.

Definition updateFor (change : publicationChange) (snapshot : SnapshotRow) :
    SnapshotPublicationUpdate :=
  {| pu_EnvironmentID := pr_environmentID (request change);
     pu_ConfigID := ID (cfg_meta (config change));
     pu_SnapshotID := ID (snp_meta snapshot);
     pu_ExpectedVersion := Version (snp_meta snapshot);
     pu_UpdatedBy := UserID (pr_actor (request change));
     pu_ChangedAt := changedAt change |}.

Definition auditAction (change : publicationChange) : string :=
  if pr_status (request change) =? SnapshotStatusReleased
  then "snapshot.publish" else "snapshot.unpublish".

(** [change.result()]: the snapshot as the response shows it. *)
Definition publication_result (change : publicationChange) : SnapshotRow :=
  let status := pr_status (request change) in
  let by_ := UserID (pr_actor (request change)) in
  let released := status =? SnapshotStatusReleased in
  snapshot_with (touch by_ (changedAt change) (Version (snp_meta (target change)) + 1)
                   (snp_meta (target change)))
    status (snp_IsUsing (target change))
    (if released then Some (changedAt change) else None)
    (if released then Some by_ else None) (target change).

Definition cleanup_key (change : publicationChange) : cleanupKey :=
  {| ck_projectID := cfg_ProjectID (config change);
     ck_configKey := cfg_Key (config change);
     ck_runtimeVersion := cfg_RuntimeVersion (config change) |}.

Definition publishAudit (actor : Actor) (action : string) (snapshotID : Z) : AuditLogRow :=
  succeeded actor action "snapshot" (format_int snapshotID).

(** ** The operations *)

Section publish.
Context `{Engine} `{Collation} `{Store} `{Protojson} `{MapOrder} `{!Authorizer}.

Definition authorizedSnapshot (request : publicationRequest) : M SnapshotRow :=
  Check (UserID (pr_actor request)) (pr_environmentID request) [SnapshotPublish];;
  snapshot_FindByID (pr_environmentID request) (pr_snapshotID request).

Definition lockPublicationSchema (environmentID configID : Z) : M unit :=
  structure_ListForConfig environmentID configID;;
  enum_ListForConfig environmentID configID;;
  mret tt.

Definition lockResources (environmentID configID : Z) : M (ConfigRow * list SnapshotRow) :=
  config ← config_LockByID environmentID configID;
  lockPublicationSchema environmentID configID;;
  snapshots ← LockForConfig environmentID configID;
  mret (config, snapshots).

Definition preparePublication (request : publicationRequest) (configID : Z) :
    M publicationChange :=
  '(config, snapshots) ← lockResources (pr_environmentID request) configID;
  '(target, released) ← lift (publicationState snapshots (pr_snapshotID request));
  lift (validate request config target);;
  t ← now;
  mret {| request := request; config := config; target := target; released := released;
          changedAt := t |}.

Definition retireReleasedSnapshot (change : publicationChange) : M unit :=
  match released change with
  | None => mret tt
  | Some released =>
      when_err (Version (snp_meta released) =? max_int64)
        (EConflict "released snapshot version is exhausted");;
      SetUnreleased (updateFor change released)
  end.

Definition applyPublicationStatus (change : publicationChange) : M unit :=
  if pr_status (request change) =? SnapshotStatusUnreleased
  then SetUnreleased (updateFor change (target change))
  else
    retireReleasedSnapshot change;;
    SetReleased (updateFor change (target change)).

Definition persistPublication (change : publicationChange) : M unit :=
  applyPublicationStatus change;;
  IncrementRuntimeVersion (pr_environmentID (request change)) (ID (cfg_meta (config change)));;
  RecordForEnvironment (pr_environmentID (request change))
    (publishAudit (pr_actor (request change)) (auditAction change)
       (ID (snp_meta (target change)))).

(** [ContentCache.DeletePublishedConfigVersion]; the error is only logged. *)
Definition DeletePublishedConfigVersion (key : cleanupKey) : M unit :=
  cache_delete (contentCacheKey (ck_projectID key) (ck_configKey key) (ck_runtimeVersion key)).

Definition cleanup (key : cleanupKey) : M unit :=
  attempt (DeletePublishedConfigVersion key);; mret tt.

Definition changePublication (request : publicationRequest) : M SnapshotRow :=
  found ← authorizedSnapshot request;
  change ← TX (
    change ← preparePublication request (snp_ConfigID found);
    persistPublication change;;
    mret change);
  cleanup (cleanup_key change);;
  mret (publication_result change).

Definition Publish (actor : Actor) (environmentID snapshotID expectedVersion : Z) :
    M SnapshotRow :=
  changePublication {| pr_actor := actor; pr_environmentID := environmentID;
    pr_snapshotID := snapshotID; pr_expectedVersion := expectedVersion;
    pr_status := SnapshotStatusReleased |}.

Definition Unpublish (actor : Actor) (environmentID snapshotID expectedVersion : Z) :
    M SnapshotRow :=
  changePublication {| pr_actor := actor; pr_environmentID := environmentID;
    pr_snapshotID := snapshotID; pr_expectedVersion := expectedVersion;
    pr_status := SnapshotStatusUnreleased |}.

End publish.

(** ** Runtime reads *)

Definition contentTTL : Z := 24 * 3600 * 10 ^ 9.

Record RuntimeResult := {
  rr_Content : string;
  rr_Version : Z;                 (* uint64 *)
}.

Record runtimeRead := {
  rd_publicID : string;
  rd_fullCredential : string;
  rd_projectKey : string;
  rd_configKey : string;
}.

Section runtime.
Context `{Engine} `{Collation} `{Store} `{Protojson} `{Pepper}.

(** An absent row is an authentication failure, another error is returned. *)
Definition unauthenticated_if_missing {A} : M A → M A :=
  handle (λ e, if is_NotFound e then EUnauthenticated else e).

Definition authenticate (request : runtimeRead) : M ProjectRow :=
  key ← unauthenticated_if_missing (LockRuntimeCredential (rd_publicID request));
  when_err (negb (Verify (rd_fullCredential request) (key_PublicID key) (key_SecretHash key))
            || bool_decide (is_Some (key_RevokedAt key))) EUnauthenticated;;
  project ← unauthenticated_if_missing (FindRuntimeProject (key_ProjectID key));
  when_err (negb (bool_decide (prj_Key project = rd_projectKey request))) EProjectMismatch;;
  mret project.

Definition releasedContent (config : ConfigRow) : M string :=
  snapshot ← FindReleasedSnapshot (cfg_ProjectID config) (ID (cfg_meta config));
  decoded ← lift (wrap_err "decode released runtime snapshot: "
                    (DecodeConfigSnapshot (snp_Content snapshot)));
  match sc_Config decoded with
  | Some c =>
      when_err (negb (Config_Id c =? ID (cfg_meta config))
                || negb (Config_ProjectId c =? cfg_ProjectID config)
                || negb (bool_decide (Config_Key c = cfg_Key config)))
        (EOther "released runtime snapshot scope does not match config");;
      mret (Config_Value c)
  | None => throw (EOther "released runtime snapshot scope does not match config")
  end.

(** [readConfig], with what other requests do in between: [others n] stands at
    every point where the reader waits for a statement or for the cache. *)
Definition readConfig_among (others : nat → M unit) (projectID : Z) (configKey : string) :
    M RuntimeResult :=
  config ← FindRuntimeConfig projectID configKey;
  others 0%nat;;
  version ← lift (wrap_err "runtime config version is invalid: "
                    (Safeint.Uint64FromInt64 (cfg_RuntimeVersion config)));
  let key := contentCacheKey projectID (cfg_Key config) (cfg_RuntimeVersion config) in
  content ← attempt (cache_get key);
  match content with
  | Ok content => mret {| rr_Content := content; rr_Version := version |}
  | Er e =>
      if negb (is_CacheNotFound e) then throw (EWrap "read runtime content cache: " e)
      else
        others 1%nat;;
        value ← releasedContent config;
        others 2%nat;;
        handle (EWrap "write runtime content cache: ") (cache_set key value contentTTL);;
        mret {| rr_Content := value; rr_Version := version |}
  end.
(** A reader that is alone. *)
Definition readConfig : Z → string → M RuntimeResult := readConfig_among (λ _, mret tt).

Definition Read (fullCredential requestedProject configKey : string) : M RuntimeResult :=
  match credential_PublicID fullCredential with
  | Er _ => throw EUnauthenticated
  | Ok publicID =>
      let request := {| rd_publicID := publicID; rd_fullCredential := fullCredential;
                        rd_projectKey := requestedProject; rd_configKey := configKey |} in
      result ← TX (
        project ← authenticate request;
        readConfig (project_id project) (rd_configKey request));
      t ← now;
      MarkUsed publicID t;;
      mret result
  end.
End runtime.
