(* ===== verification/LogicConfig.v ===== *)
(** [server/internal/logic/config.go]: the operations on configurations. *)

From S2P Require Import Prelude GoStd GoStrings Json Proto Codec Schema Engine Model Cache Convert World WorldLaws RepoScope Permission RepoConfig RepoChild RepoSnapshot LogicBase.

Local Open Scope Z_scope.

Record ConfigCreateInput := {
  ci_ProjectID : Z;
  ci_Key : string;
  ci_Description : string;
}.

Record ConfigUpdateInput := {
  ui_ConfigID : Z;
  ui_Description : string;
  ui_FieldType : option Field_Type;
  ui_IsArray : bool;
  ui_Version : Z;
}.

Record ConfigValueInput := {
  vi_ConfigID : Z;
  vi_Value : string;
  vi_Version : Z;
}.

Definition configAudit (actor : Actor) (action : string) (resourceID : Z) : AuditLogRow :=
  succeeded actor action "config" (format_int resourceID).

(** [candidate.Value = input.Value] *)
Definition set_Value (v : string) (c : Config) : Config :=
  {| Config_Id := Config_Id c; Config_ProjectId := Config_ProjectId c;
     Config_Key := Config_Key c; Config_Description := Config_Description c;
     Config_IsArray := Config_IsArray c; Config_Type := Config_Type c; Config_Value := v;
     Config_RuntimeVersion := Config_RuntimeVersion c; Config_Audit := Config_Audit c |}.

Section config.
Context `{Engine} `{Collation} `{Store} `{Protojson} `{MapOrder} `{!Authorizer}.

(** The JSON text of the empty string, the initial value. *)
Definition initial_value : string := marshal (JString "").

Definition config_logic_Create (actor : Actor) (environmentID : Z) (input : ConfigCreateInput) :
    M ConfigRow :=
  Check (UserID actor) environmentID [ConfigWrite];;
  let fieldType := {| Kind := Some (Field_Type_BaseType STRING) |} in
  typeJSON ← lift (EncodeFieldType (Some fieldType));
  let item := {| cfg_meta := new_meta (UserID actor) (UserID actor);
                 cfg_ProjectID := ci_ProjectID input; cfg_Key := ci_Key input;
                 cfg_Description := ci_Description input; cfg_IsArray := false;
                 cfg_TypeJSON := typeJSON; cfg_Value := initial_value;
                 cfg_RuntimeVersion := 0 |} in
  TX (
    item ← config_Create environmentID (ci_ProjectID input) item;
    RecordForEnvironment environmentID
      (configAudit actor "config.create" (ID (cfg_meta item)));;
    mret item).

Definition config_logic_Update (actor : Actor) (environmentID : Z) (input : ConfigUpdateInput) :
    M ConfigRow :=
  Check (UserID actor) environmentID [ConfigWrite; ConfigRead];;
  typeJSON ← lift (match EncodeFieldType (ui_FieldType input) with
                   | Ok t => Ok t | Er _ => Er (EInvalid "invalid config type") end);
  TX (
    '(_, structures, enums) ← resources_lock environmentID (ui_ConfigID input);
    schema ← lift (NewSchema (Some <$> structures) (Some <$> enums));
    lift (DefaultValue schema (ui_FieldType input) (ui_IsArray input));;
    config_Update environmentID (ui_ConfigID input)
      {| cu_Description := ui_Description input; cu_IsArray := ui_IsArray input;
         cu_TypeJSON := typeJSON; cu_UpdatedBy := UserID actor;
         cu_Version := ui_Version input |};;
    RecordForEnvironment environmentID
      (configAudit actor "config.update" (ui_ConfigID input)));;
  config_FindByID environmentID (ui_ConfigID input).

Definition config_logic_UpdateValue (actor : Actor) (environmentID : Z)
    (input : ConfigValueInput) : M ConfigRow :=
  Check (UserID actor) environmentID [ConfigWrite; ConfigRead];;
  TX (
    '(current, structures, enums) ← resources_lock environmentID (vi_ConfigID input);
    schema ← lift (NewSchema (Some <$> structures) (Some <$> enums));
    candidate ← lift (ConfigToProto current);
    lift (ValidateConfig schema (Some (set_Value (vi_Value input) candidate)));;
    config_UpdateValue environmentID (vi_ConfigID input)
      {| cv_Value := vi_Value input; cv_UpdatedBy := UserID actor;
         cv_Version := vi_Version input |};;
    RecordForEnvironment environmentID
      (configAudit actor "config.value.update" (vi_ConfigID input)));;
  config_FindByID environmentID (vi_ConfigID input).

(** All configurations of the filter, and the identifiers of the released ones.
    Go visits the projects in an order of its own; the set does not depend on
    it. *)
Definition config_logic_List (actor : Actor) (environmentID : Z) (filter : ConfigFilter) :
    M (list ConfigRow * gset Z) :=
  Check (UserID actor) environmentID [ConfigRead];;
  items ← all_pages configs_t (config_List environmentID filter);
  let projects := remove_dups (cfg_ProjectID <$> items) in
  ids ← collect_m (ListReleasedConfigIDs environmentID) projects;
  mret (items, list_to_set (concat ids)).

Definition config_logic_Delete (actor : Actor) (environmentID configID : Z) : M unit :=
  Check (UserID actor) environmentID [ConfigWrite];;
  TX (
    config_LockByID environmentID configID;;
    any ← attempt (FindAnyForConfig environmentID configID);
    match any with
    | Ok _ => throw (EConflict "config with snapshots cannot be deleted")
    | Er e => when_err (negb (is_NotFound e)) e
    end;;
    config_Delete environmentID configID (UserID actor);;
    RecordForEnvironment environmentID (configAudit actor "config.delete" configID)).

Definition config_resources (environmentID projectID configID : Z) :
    M (list Structure * list ConfigEnum) :=
  structures ← all_pages structures_t (λ page,
    page ← structure_List environmentID projectID configID None page;
    convert_page StructuresToProto page);
  enums ← all_pages config_enums_t (λ page,
    page ← enum_List environmentID projectID configID page;
    convert_page EnumsToProto page);
  mret (structures, enums).

Definition config_logic_Detail (actor : Actor) (environmentID configID : Z) :
    M (ConfigRow * TreeNode) :=
  Check (UserID actor) environmentID [ConfigRead; StructureRead; EnumRead];;
  current ← config_FindByID environmentID configID;
  '(structures, enums) ← config_resources environmentID (cfg_ProjectID current) configID;
  schema ← lift (NewSchema (Some <$> structures) (Some <$> enums));
  converted ← lift (ConfigToProto current);
  tree ← lift (BuildTree schema (Some converted));
  mret (current, tree).

End config.
