(* ===== verification/LogicSnapshot.v ===== *)
(** [server/internal/logic/snapshot.go]: creating, selecting, loading and
    deleting snapshots of a configuration. *)

From S2P Require Import Prelude GoStd GoStrings Json Proto Codec Schema Engine Model Cache Convert World WorldLaws RepoScope Permission RepoConfig RepoChild RepoSnapshot LogicBase LogicPublish.

Local Open Scope Z_scope.

Definition Snapshot_RELEASE : Z := 1.
Definition Snapshot_REUSE : Z := 6.

Record SnapshotCreateInput := {
  sn_ProjectID : Z;
  sn_ConfigID : Z;
  sn_Description : string;
  sn_Tags : option (list Z);        (* [None]: the nil slice *)
}.

Record SnapshotListInput := {
  sl_ProjectID : Z;
  sl_ConfigID : Z;
  sl_Page : PageRequest;
}.

Definition snapshotAudit (actor : Actor) (action : string) (resourceID : Z) : AuditLogRow :=
  succeeded actor action "snapshot" (format_int resourceID).

Definition validateTags (tags : list Z) : result unit :=
  fold_m (λ seen tag,
    if (tag <? Snapshot_RELEASE) || (Snapshot_REUSE <? tag)
    then Er (EInvalid "invalid snapshot tag")
    else if bool_decide (tag ∈ seen)
    then Er (EInvalid "duplicate snapshot tag")
    else Ok ({[tag]} ∪ seen)) tags (∅ : gset Z);;
  Ok tt.

(** A snapshot row the program builds. *)
Definition new_snapshot (actorID projectID configID : Z) (configKey description content tags : string) :
    SnapshotRow :=
  {| snp_meta := new_meta actorID actorID; snp_ProjectID := projectID;
     snp_ConfigID := configID; snp_ConfigKey := configKey; snp_Description := description;
     snp_Content := content; snp_Status := 0; snp_TagsJSON := tags; snp_IsUsing := false;
     snp_PublishedAt := None; snp_PublishedBy := None |}.

(** [time.Format("20060102T150405.000000000Z")] *)
Definition autosave_stamp (t : Z) : string :=
  let secs := t / 10 ^ 9 in
  let '(y, m, d) := civil (secs / 86400) in
  let s := secs mod 86400 in
  (if y <? 0 then "-" +:+ pad 4 (- y) else pad 4 y) +:+ pad 2 m +:+ pad 2 d +:+ "T"
  +:+ pad 2 (s / 3600) +:+ pad 2 (s / 60 mod 60) +:+ pad 2 (s mod 60)
  +:+ "." +:+ pad 9 (t mod 10 ^ 9) +:+ "Z".

Section content.
Context `{Protojson} `{MapOrder}.

Definition buildPreview (config : ConfigRow) (structures : list Structure)
    (enums : list ConfigEnum) : result ConfigSnapshot :=
  schema ← NewSchema (Some <$> structures) (Some <$> enums);
  converted ← ConfigToProto config;
  ValidateConfig schema (Some converted);;
  tree ← BuildTree schema (Some converted);
  Ok {| sc_Config := Some converted; sc_Structures := Some <$> structures;
        sc_Enums := Some <$> enums; sc_Tree := Some tree |}.

Definition validateSnapshotContent (content : ConfigSnapshot) (current : ConfigRow) :
    result unit :=
  match sc_Config content with
  | Some c =>
      if bool_decide (Config_Type c = None)
      then Er (EInvalid "snapshot content is incomplete")
      else if negb (Config_Id c =? ID (cfg_meta current))
           || negb (Config_ProjectId c =? cfg_ProjectID current)
           || negb (bool_decide (Config_Key c = cfg_Key current))
      then Er (EConflict "snapshot does not belong to config")
      else
        owned_definitions content (ID (cfg_meta current));;
        schema ← NewSchema (sc_Structures content) (sc_Enums content);
        ValidateConfig schema (Some c)
  | None => Er (EInvalid "snapshot content is incomplete")
  end.

(** A nil item would be a nil dereference; the decoder returns none. *)
Definition snapshotStructures (items : list (option Structure)) (configID actorID : Z) :
    result (list StructureRow) :=
  collect (λ item, match item with
    | None => Er (EPanic "nil structure")
    | Some item =>
        fieldsJSON ← EncodeFields (Structure_Fields item);
        Ok {| str_meta := new_meta actorID actorID; str_ConfigID := configID;
              str_Key := Structure_Key item; str_Name := Structure_Name item;
              str_Description := Structure_Description item; str_FieldsJSON := fieldsJSON |}
    end) items.

(** A decoded repeated field without elements is the nil slice. *)
Definition go_slice {A} (l : list A) : option (list A) :=
  match l with [] => None | _ => Some l end.

Definition snapshotEnums (items : list (option ConfigEnum)) (configID actorID : Z) :
    result (list EnumRow) :=
  collect (λ item, match item with
    | None => Er (EPanic "nil enum")
    | Some item =>
        valuesJSON ← EncodeOptions (go_slice (Enum_Values item));
        Ok {| enm_meta := new_meta actorID actorID; enm_ConfigID := configID;
              enm_Key := Enum_Key item; enm_Name := Enum_Name item;
              enm_Description := Enum_Description item; enm_ValuesJSON := valuesJSON |}
    end) items.
End content.

Section snapshot.
Context `{Engine} `{Collation} `{Store} `{Protojson} `{MapOrder} `{!Authorizer}.

Definition lockedPreview (environmentID configID : Z) : M ConfigSnapshot :=
  '(config, structures, enums) ← resources_lock environmentID configID;
  lift (buildPreview config structures enums).

(** The identity of a preview's configuration, which [buildPreview] always sets. *)
Definition preview_config (preview : ConfigSnapshot) : M Config :=
  match sc_Config preview with
  | Some c => mret c
  | None => throw (EPanic "nil config")
  end.

Definition snapshot_logic_Create (actor : Actor) (environmentID : Z)
    (input : SnapshotCreateInput) : M SnapshotRow :=
  Check (UserID actor) environmentID [SnapshotWrite; ConfigRead; StructureRead; EnumRead];;
  lift (validateTags (default [] (sn_Tags input)));;
  tagsJSON ← lift (match EncodeTags (sn_Tags input) with
                   | Ok t => Ok t | Er _ => Er (EInvalid "invalid snapshot tags") end);
  item ← TX (
    preview ← lockedPreview environmentID (sn_ConfigID input);
    config ← preview_config preview;
    when_err (negb (Config_ProjectId config =? sn_ProjectID input)) (ENotFound "config");;
    content ← lift (EncodeConfigSnapshot (Some preview));
    item ← snapshot_Create (sn_ProjectID input) (sn_ConfigID input)
      (new_snapshot (UserID actor) (sn_ProjectID input) (sn_ConfigID input)
         (Config_Key config) (sn_Description input) content tagsJSON);
    SetCurrent environmentID (sn_ConfigID input) (ID (snp_meta item)) (UserID actor);;
    RecordForEnvironment environmentID
      (snapshotAudit actor "snapshot.create" (ID (snp_meta item)));;
    mret item);
  snapshot_FindByID environmentID (ID (snp_meta item)).

Definition snapshot_logic_Preview (actor : Actor) (environmentID configID : Z) : M string :=
  Check (UserID actor) environmentID [SnapshotRead; ConfigRead; StructureRead; EnumRead];;
  TX (
    preview ← lockedPreview environmentID configID;
    lift (EncodeConfigSnapshot (Some preview))).

Definition snapshot_logic_Delete (actor : Actor) (environmentID snapshotID : Z) : M unit :=
  Check (UserID actor) environmentID [SnapshotWrite];;
  found ← snapshot_FindByID environmentID snapshotID;
  TX (
    config_LockByID environmentID (snp_ConfigID found);;
    locked ← snapshot_LockByID environmentID snapshotID;
    when_err (negb (snp_ConfigID locked =? snp_ConfigID found)) (ENotFound "snapshot");;
    when_err (snp_IsUsing locked) (EConflict "current snapshot cannot be deleted");;
    when_err (snp_Status locked =? SnapshotStatusReleased)
      (EConflict "released snapshot cannot be deleted");;
    snapshot_Delete environmentID snapshotID (UserID actor);;
    RecordForEnvironment environmentID (snapshotAudit actor "snapshot.delete" snapshotID)).

Definition snapshot_logic_Get (actor : Actor) (environmentID snapshotID : Z) : M SnapshotRow :=
  Check (UserID actor) environmentID [SnapshotRead];;
  snapshot_FindByID environmentID snapshotID.

Definition autoSave (actor : Actor) (environmentID : Z) (current : ConfigRow)
    (preview : ConfigSnapshot) : M unit :=
  content ← lift (EncodeConfigSnapshot (Some preview));
  found ← attempt (FindCurrentForConfig environmentID (ID (cfg_meta current)));
  match found with
  | Er e => when_err (negb (is_NotFound e)) e
  | Ok _ => mret tt
  end;;
  if match found with
     | Ok current_ => bool_decide (snp_Content current_ = content)
     | Er _ => false
     end
  then mret tt
  else
    t ← now;
    saved ← snapshot_Create (cfg_ProjectID current) (ID (cfg_meta current))
      (new_snapshot (UserID actor) (cfg_ProjectID current) (ID (cfg_meta current))
         (cfg_Key current) ("AutoSave-" +:+ autosave_stamp t) content "[]");
    RecordForEnvironment environmentID
      (snapshotAudit actor "snapshot.autosave" (ID (snp_meta saved))).

Definition restoreConfig (actor : Actor) (environmentID : Z) (current : ConfigRow)
    (content : ConfigSnapshot) : M unit :=
  config ← preview_config content;
  typeJSON ← lift (EncodeFieldType (Config_Type config));
  structures ← lift (snapshotStructures (sc_Structures content) (ID (cfg_meta current))
                       (UserID actor));
  enums ← lift (snapshotEnums (sc_Enums content) (ID (cfg_meta current)) (UserID actor));
  config_Update environmentID (ID (cfg_meta current))
    {| cu_Description := Config_Description config; cu_IsArray := Config_IsArray config;
       cu_TypeJSON := typeJSON; cu_UpdatedBy := UserID actor;
       cu_Version := Version (cfg_meta current) |};;
  config_UpdateValue environmentID (ID (cfg_meta current))
    {| cv_Value := Config_Value config; cv_UpdatedBy := UserID actor;
       cv_Version := Version (cfg_meta current) + 1 |};;
  structure_Reconcile environmentID (ID (cfg_meta current)) structures (UserID actor);;
  enum_Reconcile environmentID (ID (cfg_meta current)) enums (UserID actor);;
  mret tt.

Definition loadSnapshot (actor : Actor) (environmentID configID snapshotID : Z) : M unit :=
  '(current, structures, enums) ← resources_lock environmentID configID;
  preview ← lift (buildPreview current structures enums);
  autoSave actor environmentID current preview;;
  target ← snapshot_LockByID environmentID snapshotID;
  when_err (negb (snp_ConfigID target =? configID)
            || negb (snp_ProjectID target =? cfg_ProjectID current)) (ENotFound "snapshot");;
  content ← lift (DecodeConfigSnapshot (snp_Content target));
  lift (validateSnapshotContent content current);;
  restoreConfig actor environmentID current content;;
  SetCurrent environmentID configID snapshotID (UserID actor);;
  RecordForEnvironment environmentID (snapshotAudit actor "snapshot.load" snapshotID).

Definition snapshot_logic_Load (actor : Actor) (environmentID configID snapshotID : Z) :
    M SnapshotRow :=
  Check (UserID actor) environmentID
    [SnapshotWrite; ConfigWrite; StructureWrite; EnumWrite;
     SnapshotRead; ConfigRead; StructureRead; EnumRead];;
  found ← snapshot_FindByID environmentID snapshotID;
  when_err (negb (snp_ConfigID found =? configID)) (ENotFound "snapshot");;
  TX (loadSnapshot actor environmentID configID snapshotID);;
  snapshot_FindByID environmentID snapshotID.

Definition snapshot_logic_Current (actor : Actor) (environmentID configID : Z) : M SnapshotRow :=
  Check (UserID actor) environmentID [SnapshotRead];;
  FindCurrentForConfig environmentID configID.

Definition snapshot_logic_Released (actor : Actor) (environmentID configID : Z) :
    M SnapshotRow :=
  Check (UserID actor) environmentID [SnapshotRead];;
  FindReleasedForConfig environmentID configID.

Definition snapshot_logic_List (actor : Actor) (environmentID : Z) (input : SnapshotListInput) :
    M (PageResult SnapshotRow) :=
  Check (UserID actor) environmentID [SnapshotRead];;
  config ← config_FindByID environmentID (sl_ConfigID input);
  when_err (negb (cfg_ProjectID config =? sl_ProjectID input)) (ENotFound "config");;
  snapshot_List environmentID
    {| sf_ProjectID := sl_ProjectID input; sf_ConfigID := sl_ConfigID input;
       sf_Status := None; sf_IsUsing := None |} (sl_Page input).

End snapshot.
