(* ===== verification/LogicTransfer.v ===== *)
(** [server/internal/logic]: import.go and export.go: copying a snapshot from
    one environment into a project of another, once per idempotency key. *)

From stdpp Require Import sorting.
From S2P Require Import Prelude GoStd GoStrings Util Json Proto Codec Schema Engine Model Cache Convert World WorldLaws RepoScope Permission RepoConfig RepoChild RepoSnapshot RepoProject RepoSession LogicBase LogicPublish LogicSnapshot LogicAuth.

Local Open Scope Z_scope.

Definition StrategyFail : Z := 1.
Definition StrategyReplace : Z := 2.

Record ImportRequest := {
  ir_SourceEnvironmentID : Z;
  ir_SourceSnapshotID : Z;
  ir_TargetEnvironmentID : Z;
  ir_TargetProjectID : Z;
  ir_TargetConfigID : option Z;
  ir_Description : string;
  ir_Tags : list Z;
  ir_IdempotencyKey : string;
  ir_ConflictStrategy : Z;
}.

Record ImportResult := {
  im_Snapshot : SnapshotRow;
  im_Replayed : bool;
}.

Record importOutcome := {
  io_snapshotID : Z;
  io_replayed : bool;
  io_cleanup : option cleanupKey;
}.

Record importTarget := {
  it_config : ConfigRow;
  it_snapshot : SnapshotRow;
}.

(** ** The canonical request *)

Definition sort_tags (tags : list Z) : list Z := merge_sort Z.le tags.

(** Sorted tags are valid when each is in range and differs from the one before. *)
Fixpoint tags_valid (previous : option Z) (tags : list Z) : bool :=
  match tags with
  | [] => true
  | tag :: rest =>
      (Snapshot_RELEASE <=? tag) && (tag <=? Snapshot_REUSE)
      && negb (bool_decide (previous = Some tag)) && tags_valid (Some tag) rest
  end.

Definition strategy_valid (request : ImportRequest) : bool :=
  negb ((ir_ConflictStrategy request =? StrategyFail)
        && negb (bool_decide (ir_TargetConfigID request = None)))
  && negb ((ir_ConflictStrategy request =? StrategyReplace)
           && bool_decide (ir_TargetConfigID request = None))
  && ((ir_ConflictStrategy request =? StrategyFail)
      || (ir_ConflictStrategy request =? StrategyReplace)).

(** [json.Marshal] of the anonymous struct: the members in their order. *)
Definition canonical_request (request : ImportRequest) (tags : list Z) : string :=
  json_object
    [("source_environment_id", format_int (ir_SourceEnvironmentID request));
     ("source_snapshot_id", format_int (ir_SourceSnapshotID request));
     ("target_environment_id", format_int (ir_TargetEnvironmentID request));
     ("target_project_id", format_int (ir_TargetProjectID request));
     ("target_config_id", match ir_TargetConfigID request with
                          | Some k => format_int k | None => "null" end);
     ("description", marshal_string (ir_Description request));
     ("tags", match go_slice tags with
              | Some tags => json_array (format_int <$> tags) | None => "null" end);
     ("conflict_strategy", format_int (ir_ConflictStrategy request))].

Definition validateAndHash `{SHA256} (request : ImportRequest) : result (string * list Z) :=
  guard_err (negb (strategy_valid request))
    (EInvalid "snapshot import conflict strategy does not match target config");;
  let tags := sort_tags (ir_Tags request) in
  guard_err (negb (tags_valid None tags)) (EInvalid "snapshot import tags are invalid");;
  Ok (sha256 (canonical_request request tags), tags).

Definition with_tags (tags : list Z) (request : ImportRequest) : ImportRequest :=
  {| ir_SourceEnvironmentID := ir_SourceEnvironmentID request;
     ir_SourceSnapshotID := ir_SourceSnapshotID request;
     ir_TargetEnvironmentID := ir_TargetEnvironmentID request;
     ir_TargetProjectID := ir_TargetProjectID request;
     ir_TargetConfigID := ir_TargetConfigID request;
     ir_Description := ir_Description request; ir_Tags := tags;
     ir_IdempotencyKey := ir_IdempotencyKey request;
     ir_ConflictStrategy := ir_ConflictStrategy request |}.

Section content.
Context `{Protojson} `{MapOrder}.

(** ** export.go: a stored document that describes its own row *)

Definition ValidateSnapshot (snapshot : SnapshotRow) : result ConfigSnapshot :=
  content ← DecodeConfigSnapshot (snp_Content snapshot);
  match sc_Config content with
  | None =>
      guard_err (negb (snp_ConfigID snapshot =? 0) || negb (snp_ProjectID snapshot =? 0)
                 || negb (bool_decide (snp_ConfigKey snapshot = "")))
        (EConflict "snapshot content scope does not match snapshot");;
      Er (EPanic "nil config")
  | Some c =>
      guard_err (negb (Config_Id c =? snp_ConfigID snapshot)
                 || negb (Config_ProjectId c =? snp_ProjectID snapshot)
                 || negb (bool_decide (Config_Key c = snp_ConfigKey snapshot)))
        (EConflict "snapshot content scope does not match snapshot");;
      guard_err (255 <? rune_count (Config_Description c))
        (EInvalid "snapshot config description is invalid");;
      owned_definitions content (snp_ConfigID snapshot);;
      schema ← NewSchema (sc_Structures content) (sc_Enums content);
      ValidateConfig schema (Some c);;
      tree ← BuildTree schema (Some c);
      Ok {| sc_Config := sc_Config content; sc_Structures := sc_Structures content;
            sc_Enums := sc_Enums content; sc_Tree := Some tree |}
  end.

(** ** The document of the new snapshot *)

Definition target_config (source : Config) (config : ConfigRow) (runtimeVersion : Z) :
    Config :=
  {| Config_Id := ID (cfg_meta config); Config_ProjectId := cfg_ProjectID config;
     Config_Key := cfg_Key config; Config_Description := Config_Description source;
     Config_IsArray := Config_IsArray source; Config_Type := Config_Type source;
     Config_Value := Config_Value source; Config_RuntimeVersion := runtimeVersion;
     Config_Audit := no_audit |}.

Definition target_structure (configID : Z) (stored : gmap string StructureRow)
    (item : option Structure) : result (option Structure) :=
  match item with
  | None => Er (EPanic "nil structure")
  | Some s =>
      match stored !! Structure_Key s with
      | Some row =>
          if ID (str_meta row) <=? 0 then Er (EOther "target structure was not persisted")
          else Ok (Some
            {| Structure_Id := ID (str_meta row); Structure_ConfigId := configID;
               Structure_Key := Structure_Key s; Structure_Name := Structure_Name s;
               Structure_Description := Structure_Description s;
               Structure_Fields := Structure_Fields s; Structure_Audit := no_audit |})
      | None => Er (EOther "target structure was not persisted")
      end
  end.

Definition target_enum (configID : Z) (stored : gmap string EnumRow)
    (item : option ConfigEnum) : result (option ConfigEnum) :=
  match item with
  | None => Er (EPanic "nil enum")
  | Some e =>
      match stored !! Enum_Key e with
      | Some row =>
          if ID (enm_meta row) <=? 0 then Er (EOther "target enum was not persisted")
          else Ok (Some
            {| Enum_Id := ID (enm_meta row); Enum_ConfigId := configID; Enum_Key := Enum_Key e;
               Enum_Name := Enum_Name e; Enum_Description := Enum_Description e;
               Enum_Values := Enum_Values e; Enum_Audit := no_audit |})
      | None => Er (EOther "target enum was not persisted")
      end
  end.

Definition canonicalTargetContent `{Engine} `{Collation} `{Store} (source : ConfigSnapshot)
    (config : ConfigRow) (structures : list StructureRow) (enums : list EnumRow) :
    result ConfigSnapshot :=
  runtimeVersion ← match Safeint.Uint64FromInt64 (cfg_RuntimeVersion config) with
                   | Ok v => Ok v
                   | Er _ => Er (EOther "target config runtime version is invalid")
                   end;
  match sc_Config source with
  | None => Er (EPanic "nil config")
  | Some c =>
      let c := target_config c config runtimeVersion in
      structures ← collect (target_structure (ID (cfg_meta config)) (by_key structures))
                     (sc_Structures source);
      enums ← collect (target_enum (ID (cfg_meta config)) (by_key enums)) (sc_Enums source);
      schema ← NewSchema structures enums;
      ValidateConfig schema (Some c);;
      tree ← BuildTree schema (Some c);
      Ok {| sc_Config := Some c; sc_Structures := structures; sc_Enums := enums;
            sc_Tree := Some tree |}
  end.
End content.

Section transfer.
Context `{Engine} `{Collation} `{Store} `{Protojson} `{MapOrder} `{SHA256} `{!Authorizer}.

Definition RequireSourceRead (userID environmentID : Z) : M unit :=
  Check userID environmentID [SnapshotExport; SnapshotRead; ConfigRead; StructureRead; EnumRead].

Definition Export (actor : Actor) (sourceEnvironmentID snapshotID : Z) : M SnapshotRow :=
  RequireSourceRead (UserID actor) sourceEnvironmentID;;
  snapshot ← snapshot_FindByID sourceEnvironmentID snapshotID;
  content ← lift (ValidateSnapshot snapshot);
  canonical ← lift (EncodeConfigSnapshot (Some content));
  mret {| snp_meta := snp_meta snapshot; snp_ProjectID := snp_ProjectID snapshot;
          snp_ConfigID := snp_ConfigID snapshot; snp_ConfigKey := snp_ConfigKey snapshot;
          snp_Description := snp_Description snapshot; snp_Content := canonical;
          snp_Status := snp_Status snapshot; snp_TagsJSON := snp_TagsJSON snapshot;
          snp_IsUsing := snp_IsUsing snapshot; snp_PublishedAt := snp_PublishedAt snapshot;
          snp_PublishedBy := snp_PublishedBy snapshot |}.

(** ** import.go *)

Definition new_claim (actor : Actor) (request : ImportRequest) (requestHash token : string) :
    ImportRecordRow :=
  {| imp_meta := new_workflow (UserID actor) (UserID actor); imp_UserID := UserID actor;
     imp_SourceEnvironmentID := ir_SourceEnvironmentID request;
     imp_TargetEnvironmentID := ir_TargetEnvironmentID request;
     imp_SourceSnapshotID := ir_SourceSnapshotID request;
     imp_TargetProjectID := ir_TargetProjectID request; imp_TargetSnapshotID := None;
     imp_IdempotencyKey := ir_IdempotencyKey request; imp_RequestHash := requestHash;
     imp_Status := ImportStatusPending; imp_ResultJSON := None; imp_ErrorMessage := token |}.

(** The claim to work on, or the snapshot of the import that was completed. *)
Definition claimImport (actor : Actor) (request : ImportRequest) (requestHash : string) :
    M (ImportRecordRow + Z) :=
  token ← random;
  '(claimed, created) ← Claim (new_claim actor request requestHash token);
  when_err (negb (bool_decide (imp_RequestHash claimed = requestHash)))
    (EConflict "idempotency key was used for a different request");;
  match imp_TargetSnapshotID claimed with
  | Some snapshotID =>
      if bool_decide (imp_Status claimed = ImportStatusSucceeded) then mret (inr snapshotID)
      else
        when_err (negb created || negb (bool_decide (imp_Status claimed = ImportStatusPending)))
          (EConflict "matching snapshot import is still pending");;
        mret (inl claimed)
  | None =>
      when_err (negb created || negb (bool_decide (imp_Status claimed = ImportStatusPending)))
        (EConflict "matching snapshot import is still pending");;
      mret (inl claimed)
  end.

Definition imported_config (actorID projectID : Z) (source : Config) (typeJSON : string) :
    ConfigRow :=
  {| cfg_meta := new_meta actorID actorID; cfg_ProjectID := projectID;
     cfg_Key := Config_Key source; cfg_Description := Config_Description source;
     cfg_IsArray := Config_IsArray source; cfg_TypeJSON := typeJSON;
     cfg_Value := Config_Value source; cfg_RuntimeVersion := 0 |}.

(** The replaced configuration as the caller sees it. *)
Definition replaced_config (actorID : Z) (source : Config) (typeJSON : string)
    (target : ConfigRow) : ConfigRow :=
  {| cfg_meta := let m := cfg_meta target in
       {| ID := ID m; CreatedBy := CreatedBy m; UpdatedBy := actorID;
          CreatedAt := CreatedAt m; UpdatedAt := UpdatedAt m; Version := Version m + 2;
          DeletedAt := DeletedAt m |};
     cfg_ProjectID := cfg_ProjectID target; cfg_Key := cfg_Key target;
     cfg_Description := Config_Description source; cfg_IsArray := Config_IsArray source;
     cfg_TypeJSON := typeJSON; cfg_Value := Config_Value source;
     cfg_RuntimeVersion := cfg_RuntimeVersion target |}.

Definition writeConfig (actorID : Z) (request : ImportRequest) (source : Config) :
    M ConfigRow :=
  typeJSON ← lift (EncodeFieldType (Config_Type source));
  let environmentID := ir_TargetEnvironmentID request in
  if ir_ConflictStrategy request =? StrategyFail then
    config_Create environmentID (ir_TargetProjectID request)
      (imported_config actorID (ir_TargetProjectID request) source typeJSON)
  else
    match ir_TargetConfigID request with
    | None => throw (EPanic "nil target config")
    | Some configID =>
        target ← config_LockByID environmentID configID;
        when_err (negb (cfg_ProjectID target =? ir_TargetProjectID request))
          (ENotFound "target config");;
        config_Update environmentID (ID (cfg_meta target))
          {| cu_Description := Config_Description source; cu_IsArray := Config_IsArray source;
             cu_TypeJSON := typeJSON; cu_UpdatedBy := actorID;
             cu_Version := Version (cfg_meta target) |};;
        config_UpdateValue environmentID (ID (cfg_meta target))
          {| cv_Value := Config_Value source; cv_UpdatedBy := actorID;
             cv_Version := Version (cfg_meta target) + 1 |};;
        mret (replaced_config actorID source typeJSON target)
    end.

(** [resourceModels] is the conversion of loaded definitions. *)
Definition resourceModels (source : ConfigSnapshot) (configID actorID : Z) :
    result (list StructureRow * list EnumRow) :=
  structures ← snapshotStructures (sc_Structures source) configID actorID;
  enums ← snapshotEnums (sc_Enums source) configID actorID;
  Ok (structures, enums).

Definition importResources (actorID environmentID : Z) (config : ConfigRow)
    (source : ConfigSnapshot) : M string :=
  '(structures, enums) ← lift (resourceModels source (ID (cfg_meta config)) actorID);
  structures ← structure_Reconcile environmentID (ID (cfg_meta config)) structures actorID;
  enums ← enum_Reconcile environmentID (ID (cfg_meta config)) enums actorID;
  content ← lift (canonicalTargetContent source config structures enums);
  lift (EncodeConfigSnapshot (Some content)).

Definition prepareImport (actor : Actor) (request : ImportRequest) : M importTarget :=
  sourceSnapshot ← snapshot_LockByID (ir_SourceEnvironmentID request)
                     (ir_SourceSnapshotID request);
  source ← lift (ValidateSnapshot sourceSnapshot);
  project_LockByID (ir_TargetEnvironmentID request) (ir_TargetProjectID request);;
  sourceConfig ← preview_config source;
  config ← writeConfig (UserID actor) request sourceConfig;
  content ← importResources (UserID actor) (ir_TargetEnvironmentID request) config source;
  tagsJSON ← lift (EncodeTags (go_slice (ir_Tags request)));
  mret {| it_config := config;
          it_snapshot := new_snapshot (UserID actor) (cfg_ProjectID config)
            (ID (cfg_meta config)) (cfg_Key config) (ir_Description request) content tagsJSON |}.

Definition import_details (request : ImportRequest) : string :=
  json_object
    [("source_environment_id", format_int (ir_SourceEnvironmentID request));
     ("source_snapshot_id", format_int (ir_SourceSnapshotID request));
     ("target_project_id", format_int (ir_TargetProjectID request))].

Definition importAudit (actor : Actor) (request : ImportRequest) (snapshotID : Z) : AuditLogRow :=
  let log := succeeded actor "snapshot.import" "snapshot" (format_int snapshotID) in
  {| aud_meta := aud_meta log; aud_ActorUserID := aud_ActorUserID log;
     aud_EnvironmentID := aud_EnvironmentID log; aud_Action := aud_Action log;
     aud_ResourceType := aud_ResourceType log; aud_ResourceID := aud_ResourceID log;
     aud_Result := aud_Result log; aud_RequestID := aud_RequestID log;
     aud_DetailsJSON := Some (import_details request) |}.

Definition import_result (snapshotID : Z) : string :=
  json_object [("target_snapshot_id", format_int snapshotID)].

Definition completeImport (actor : Actor) (request : ImportRequest) (recordID : Z)
    (snapshot : SnapshotRow) : M SnapshotRow :=
  snapshot ← snapshot_Create (snp_ProjectID snapshot) (snp_ConfigID snapshot) snapshot;
  SetCurrent (ir_TargetEnvironmentID request) (snp_ConfigID snapshot) (ID (snp_meta snapshot))
    (UserID actor);;
  Complete recordID (ID (snp_meta snapshot)) (import_result (ID (snp_meta snapshot)));;
  RecordForEnvironment (ir_TargetEnvironmentID request)
    (importAudit actor request (ID (snp_meta snapshot)));;
  mret snapshot.

Definition importSnapshot (actor : Actor) (request : ImportRequest) (requestHash : string) :
    M importOutcome :=
  claim ← claimImport actor request requestHash;
  match claim with
  | inr snapshotID =>
      mret {| io_snapshotID := snapshotID; io_replayed := true; io_cleanup := None |}
  | inl record =>
      target ← prepareImport actor request;
      snapshot ← completeImport actor request (import_id record) (it_snapshot target);
      mret {| io_snapshotID := ID (snp_meta snapshot); io_replayed := false;
              io_cleanup := Some {| ck_projectID := cfg_ProjectID (it_config target);
                                    ck_configKey := cfg_Key (it_config target);
                                    ck_runtimeVersion := cfg_RuntimeVersion (it_config target) |} |}
  end.

Definition cleanupImport (key : option cleanupKey) : M unit :=
  match key with None => mret tt | Some key => cleanup key end.

Definition Import (actor : Actor) (request : ImportRequest) : M ImportResult :=
  '(requestHash, normalizedTags) ← lift (validateAndHash request);
  let request := with_tags normalizedTags request in
  RequireSourceRead (UserID actor) (ir_SourceEnvironmentID request);;
  Check (UserID actor) (ir_TargetEnvironmentID request)
    [SnapshotImport; SnapshotWrite; ConfigWrite; StructureWrite; EnumWrite];;
  outcome ← TX (importSnapshot actor request requestHash);
  cleanupImport (io_cleanup outcome);;
  snapshot ← snapshot_FindByID (ir_TargetEnvironmentID request) (io_snapshotID outcome);
  mret {| im_Snapshot := snapshot; im_Replayed := io_replayed outcome |}.

End transfer.
