(* ===== verification/LogicDefinition.v ===== *)
(** [server/internal/logic/structure.go] and [enum.go]: editing the structures
    and enums of a configuration; every change is checked against the whole
    schema before it is written. *)

From S2P Require Import Prelude GoStd GoStrings Util Json Proto Codec Schema Engine Model Cache Convert World WorldLaws RepoScope Permission RepoConfig RepoChild LogicBase.

Local Open Scope Z_scope.

Record StructureCreateInput := {
  sc_ConfigID : Z;
  sc_Key : string;
  sc_Name : string;
  sc_Description : string;
}.

Record StructureUpdateInput := {
  su_StructureID : Z;
  su_Key : string;
  su_Name : string;
  su_Description : string;
  su_Fields : list (option Field);
  su_Version : Z;
}.

Record StructureListInput := {
  st_ProjectID : Z;
  st_ConfigID : Z;
  st_IgnoreID : option Z;
}.

Record EnumCreateInput := {
  ec_ConfigID : Z;
  ec_Key : string;
  ec_Name : string;
  ec_Description : string;
  ec_Values : option (list (option SelectOption));   (* [None]: the nil slice *)
}.

Record EnumUpdateInput := {
  eu_EnumID : Z;
  eu_Key : string;
  eu_Name_ : string;
  eu_Description_ : string;
  eu_Values : option (list (option SelectOption));
  eu_Version_ : Z;
}.

Definition structureAudit (actor : Actor) (action : string) (resourceID : Z) : AuditLogRow :=
  succeeded actor action "structure" (format_int resourceID).
Definition enumAudit (actor : Actor) (action : string) (resourceID : Z) : AuditLogRow :=
  succeeded actor action "config_enum" (format_int resourceID).

(** ** References *)

Definition findStructure (items : list Structure) (id : Z) : result Structure :=
  match list_find (λ item, Structure_Id item = id) items with
  | Some (_, item) => Ok item
  | None => Er (ENotFound "structure")
  end.

Definition findEnum (items : list ConfigEnum) (id : Z) : result ConfigEnum :=
  match list_find (λ item, Enum_Id item = id) items with
  | Some (_, item) => Ok item
  | None => Er (ENotFound "config enum")
  end.

Section references.
Context `{Protojson}.

Definition referencedStructure (config : ConfigRow) (structures : list Structure)
    (key : string) (ignoredID : Z) : result bool :=
  typeValue ← DecodeFieldType (cfg_TypeJSON config);
  Ok (bool_decide (GetStructureKey (Some typeValue) = key)
      || existsb (λ item, negb (Structure_Id item =? ignoredID)
                          && fieldsReferenceStructure (Structure_Fields item) key) structures).

Definition referencedEnum (config : ConfigRow) (structures : list Structure)
    (key : string) : result bool :=
  fieldType ← DecodeFieldType (cfg_TypeJSON config);
  Ok (bool_decide (GetEnumKey (Some fieldType) = key)
      || existsb (λ item, fieldsReferenceEnum (Structure_Fields item) key) structures).

Definition structureForUpdate (config : ConfigRow) (structures : list Structure)
    (input : StructureUpdateInput) : result Structure :=
  locked ← findStructure structures (su_StructureID input);
  referenced ← referencedStructure config structures (Structure_Key locked)
                 (Structure_Id locked);
  if negb (bool_decide (Structure_Key locked = su_Key input)) && referenced
  then Er (EConflict "referenced structure key cannot be changed")
  else Ok locked.

Definition enumForUpdate (config : ConfigRow) (structures : list Structure)
    (enums : list ConfigEnum) (input : EnumUpdateInput) : result ConfigEnum :=
  locked ← findEnum enums (eu_EnumID input);
  referenced ← referencedEnum config structures (Enum_Key locked);
  if negb (bool_decide (Enum_Key locked = eu_Key input)) && referenced
  then Er (EConflict "referenced enum key cannot be changed")
  else Ok locked.
End references.

(** ** Candidates: the schema as it would be after the change *)

Definition structureUpdateCandidate (locked : Structure) (input : StructureUpdateInput) :
    result Structure :=
  match Safeint.Uint32FromInt64 (su_Version input) with
  | Er _ => Er (EInvalid "invalid structure version")
  | Ok version =>
      Ok {| Structure_Id := Structure_Id locked; Structure_ConfigId := Structure_ConfigId locked;
            Structure_Key := su_Key input; Structure_Name := su_Name input;
            Structure_Description := su_Description input; Structure_Fields := su_Fields input;
            Structure_Audit := {| m_CreatedBy := ""; m_UpdatedBy := ""; m_CreatedAt := "";
                                  m_UpdatedAt := ""; m_Version := version |} |}
  end.

Definition enumUpdateCandidate (locked : ConfigEnum) (input : EnumUpdateInput) :
    result ConfigEnum :=
  match Safeint.Uint32FromInt64 (eu_Version_ input) with
  | Er _ => Er (EInvalid "invalid enum version")
  | Ok version =>
      Ok {| Enum_Id := Enum_Id locked; Enum_ConfigId := Enum_ConfigId locked;
            Enum_Key := eu_Key input; Enum_Name := eu_Name_ input;
            Enum_Description := eu_Description_ input;
            Enum_Values := default [] (eu_Values input);
            Enum_Audit := {| m_CreatedBy := ""; m_UpdatedBy := ""; m_CreatedAt := "";
                             m_UpdatedAt := ""; m_Version := version |} |}
  end.

Section candidates.
Context `{MapOrder}.

Definition validateStructureReplacement (structures : list Structure) (enums : list ConfigEnum)
    (locked : Structure) (input : StructureUpdateInput) : result unit :=
  candidate ← structureUpdateCandidate locked input;
  let structures := (λ item, if Structure_Id item =? Structure_Id locked
                             then candidate else item) <$> structures in
  NewSchema (Some <$> structures) (Some <$> enums);;
  Ok tt.

Definition validateEnumReplacement (structures : list Structure) (enums : list ConfigEnum)
    (locked : ConfigEnum) (input : EnumUpdateInput) : result unit :=
  candidate ← enumUpdateCandidate locked input;
  let enums := (λ item, if Enum_Id item =? Enum_Id locked
                        then candidate else item) <$> enums in
  NewSchema (Some <$> structures) (Some <$> enums);;
  Ok tt.
End candidates.

Section definition_logic.
Context `{Engine} `{Collation} `{Store} `{Protojson} `{MapOrder} `{!Authorizer}.

(** ** structure.go *)

Definition structure_logic_Create (actor : Actor) (environmentID : Z)
    (input : StructureCreateInput) : M StructureRow :=
  Check (UserID actor) environmentID [StructureWrite];;
  let item := {| str_meta := new_meta (UserID actor) (UserID actor);
                 str_ConfigID := sc_ConfigID input; str_Key := sc_Key input;
                 str_Name := sc_Name input; str_Description := sc_Description input;
                 str_FieldsJSON := "[]" |} in
  item ← TX (
    '(_, structures, enums) ← resources_lock environmentID (sc_ConfigID input);
    let candidate := {| Structure_Id := 0; Structure_ConfigId := 0;
      Structure_Key := sc_Key input; Structure_Name := sc_Name input;
      Structure_Description := sc_Description input; Structure_Fields := [];
      Structure_Audit := no_audit |} in
    lift (NewSchema (Some <$> (structures ++ [candidate])) (Some <$> enums));;
    item ← structure_Create environmentID (sc_ConfigID input) item;
    RecordForEnvironment environmentID
      (structureAudit actor "structure.create" (ID (str_meta item)));;
    mret item);
  structure_FindByID environmentID (ID (str_meta item)).

Record structureUpdateOperation := {
  so_configID : Z;
  so_input : StructureUpdateInput;
  so_contentJSON : string;
}.

Definition structure_prepareUpdate (actor : Actor) (environmentID : Z)
    (input : StructureUpdateInput) : M structureUpdateOperation :=
  Check (UserID actor) environmentID [StructureWrite];;
  current ← structure_FindByID environmentID (su_StructureID input);
  contentJSON ← lift (match EncodeFields (su_Fields input) with
                      | Ok t => Ok t | Er _ => Er (EInvalid "invalid structure fields") end);
  mret {| so_configID := str_ConfigID current; so_input := input;
          so_contentJSON := contentJSON |}.

Definition structure_validateUpdate (environmentID : Z) (operation : structureUpdateOperation) :
    M unit :=
  '(config, structures, enums) ← resources_lock environmentID (so_configID operation);
  locked ← lift (structureForUpdate config structures (so_input operation));
  lift (validateStructureReplacement structures enums locked (so_input operation)).

Definition structure_saveUpdate (actor : Actor) (environmentID : Z)
    (operation : structureUpdateOperation) : M unit :=
  let input := so_input operation in
  structure_Update environmentID (su_StructureID input)
    {| u_Key := su_Key input; u_Name := su_Name input; u_Description := su_Description input;
       u_JSON := so_contentJSON operation; u_UpdatedBy := UserID actor;
       u_Version := su_Version input |};;
  RecordForEnvironment environmentID
    (structureAudit actor "structure.update" (su_StructureID input)).

Definition structure_logic_Update (actor : Actor) (environmentID : Z)
    (input : StructureUpdateInput) : M StructureRow :=
  operation ← structure_prepareUpdate actor environmentID input;
  TX (structure_validateUpdate environmentID operation;;
      structure_saveUpdate actor environmentID operation);;
  structure_FindByID environmentID (su_StructureID input).

Definition allStructures (environmentID projectID configID : Z) : M (list Structure) :=
  all_pages structures_t (λ page,
    page ← structure_List environmentID projectID configID None page;
    convert_page StructuresToProto page).

Definition structure_logic_List (actor : Actor) (environmentID : Z)
    (input : StructureListInput) : M (list Structure) :=
  Check (UserID actor) environmentID [StructureRead];;
  config ← config_FindByID environmentID (st_ConfigID input);
  when_err (negb (cfg_ProjectID config =? st_ProjectID input)) (ENotFound "config");;
  items ← allStructures environmentID (st_ProjectID input) (st_ConfigID input);
  match st_IgnoreID input with
  | Some ignored => lift (FilterStructureChoices items ignored)
  | None => mret items
  end.

Definition structure_logic_Delete (actor : Actor) (environmentID structureID : Z) : M unit :=
  Check (UserID actor) environmentID [StructureWrite];;
  current ← structure_FindByID environmentID structureID;
  TX (
    '(config, structures, enums) ← resources_lock environmentID (str_ConfigID current);
    lockedCurrent ← lift (findStructure structures structureID);
    referenced ← lift (referencedStructure config structures (Structure_Key lockedCurrent)
                         (Structure_Id lockedCurrent));
    when_err referenced (EConflict "referenced structure cannot be deleted");;
    let candidate := List.filter
      (λ item, negb (Structure_Id item =? Structure_Id lockedCurrent)) structures in
    lift (NewSchema (Some <$> candidate) (Some <$> enums));;
    structure_Delete environmentID structureID (UserID actor);;
    RecordForEnvironment environmentID (structureAudit actor "structure.delete" structureID)).

(** ** enum.go *)

Definition enum_logic_Create (actor : Actor) (environmentID : Z) (input : EnumCreateInput) :
    M EnumRow :=
  Check (UserID actor) environmentID [EnumWrite];;
  valuesJSON ← lift (match EncodeOptions (ec_Values input) with
                     | Ok t => Ok t | Er _ => Er (EInvalid "invalid enum values") end);
  let item := {| enm_meta := new_meta (UserID actor) (UserID actor);
                 enm_ConfigID := ec_ConfigID input; enm_Key := ec_Key input;
                 enm_Name := ec_Name input; enm_Description := ec_Description input;
                 enm_ValuesJSON := valuesJSON |} in
  item ← TX (
    '(_, structures, enums) ← resources_lock environmentID (ec_ConfigID input);
    let candidate := {| Enum_Id := 0; Enum_ConfigId := 0; Enum_Key := ec_Key input;
      Enum_Name := ec_Name input; Enum_Description := ec_Description input;
      Enum_Values := default [] (ec_Values input); Enum_Audit := no_audit |} in
    lift (NewSchema (Some <$> structures) (Some <$> (enums ++ [candidate])));;
    item ← enum_Create environmentID (ec_ConfigID input) item;
    RecordForEnvironment environmentID
      (enumAudit actor "enum.create" (ID (enm_meta item)));;
    mret item);
  enum_FindByID environmentID (ID (enm_meta item)).

Record enumUpdateOperation := {
  eo_configID : Z;
  eo_input : EnumUpdateInput;
  eo_contentJSON : string;
}.

Definition enum_prepareUpdate (actor : Actor) (environmentID : Z) (input : EnumUpdateInput) :
    M enumUpdateOperation :=
  Check (UserID actor) environmentID [EnumWrite];;
  current ← enum_FindByID environmentID (eu_EnumID input);
  contentJSON ← lift (match EncodeOptions (eu_Values input) with
                      | Ok t => Ok t | Er _ => Er (EInvalid "invalid enum values") end);
  mret {| eo_configID := enm_ConfigID current; eo_input := input;
          eo_contentJSON := contentJSON |}.

Definition enum_validateUpdate (environmentID : Z) (operation : enumUpdateOperation) : M unit :=
  '(config, structures, enums) ← resources_lock environmentID (eo_configID operation);
  locked ← lift (enumForUpdate config structures enums (eo_input operation));
  lift (validateEnumReplacement structures enums locked (eo_input operation)).

Definition enum_saveUpdate (actor : Actor) (environmentID : Z)
    (operation : enumUpdateOperation) : M unit :=
  let input := eo_input operation in
  enum_Update environmentID (eu_EnumID input)
    {| u_Key := eu_Key input; u_Name := eu_Name_ input; u_Description := eu_Description_ input;
       u_JSON := eo_contentJSON operation; u_UpdatedBy := UserID actor;
       u_Version := eu_Version_ input |};;
  RecordForEnvironment environmentID (enumAudit actor "enum.update" (eu_EnumID input)).

Definition enum_logic_Update (actor : Actor) (environmentID : Z) (input : EnumUpdateInput) :
    M EnumRow :=
  operation ← enum_prepareUpdate actor environmentID input;
  TX (enum_validateUpdate environmentID operation;;
      enum_saveUpdate actor environmentID operation);;
  enum_FindByID environmentID (eu_EnumID input).

Definition enum_logic_List (actor : Actor) (environmentID projectID configID : Z) :
    M (list EnumRow) :=
  Check (UserID actor) environmentID [EnumRead];;
  config ← config_FindByID environmentID configID;
  when_err (negb (cfg_ProjectID config =? projectID)) (ENotFound "config");;
  all_pages config_enums_t (enum_List environmentID projectID configID).

Definition enum_logic_Delete (actor : Actor) (environmentID enumID : Z) : M unit :=
  Check (UserID actor) environmentID [EnumWrite];;
  current ← enum_FindByID environmentID enumID;
  TX (
    '(config, structures, enums) ← resources_lock environmentID (enm_ConfigID current);
    locked ← lift (findEnum enums enumID);
    referenced ← lift (referencedEnum config structures (Enum_Key locked));
    when_err referenced (EConflict "referenced enum cannot be deleted");;
    let candidate := List.filter (λ item, negb (Enum_Id item =? enumID)) enums in
    lift (NewSchema (Some <$> structures) (Some <$> candidate));;
    enum_Delete environmentID enumID (UserID actor);;
    RecordForEnvironment environmentID (enumAudit actor "enum.delete" enumID)).

End definition_logic.
