(* ===== verification/Service.v ===== *)
(** [server/internal/service]: the methods of the HTTP interface.  A method
    reads the actor of the request, calls one operation of the logic layer,
    converts its result to a message, and replaces every error by one that the
    response may carry.  [converter/role.go] and the members of
    [converter/environment.go] are here because their rows are. *)

From S2P Require Import Prelude GoStd GoStrings Util Json Proto Codec Schema Engine Model Cache Convert Requests World RepoScope Permission Credential Password Jwt RepoConfig RepoProject RepoIdentity LogicBase LogicIdentity LogicProject LogicAuth Middleware Netip Browser LogicPublish LogicConfig LogicSnapshot LogicTransfer LogicDefinition.

Local Open Scope Z_scope.

(** ** converter/role.go, converter/environment.go *)

Record PermissionMessage := {
  Permission_Id : Z;
  Permission_Key : string;
  Permission_Name : string;
  Permission_Description : string;
}.

Record Role := {
  Role_Id : Z;
  Role_Key : string;
  Role_Name : string;
  Role_Description : string;
  Role_Builtin : bool;
  Role_Permissions : list PermissionMessage;
  Role_Audit : Audit;
}.

Record EnvironmentMember := {
  Member_User : User;
  Member_Roles : list Role;
}.

Definition PermissionToProto (item : PermissionRow) : result PermissionMessage :=
  guard_err (r_ID (prm_meta item) <=? 0) (EOther "invalid permission record");;
  Ok {| Permission_Id := r_ID (prm_meta item); Permission_Key := prm_Key item;
        Permission_Name := prm_Name item; Permission_Description := prm_Description item |}.

Definition RoleToProto (item : RoleWithPermissions) : result Role :=
  let role := rwp_Role item in
  version ← record_version "invalid role record" (rol_meta role);
  permissions ← collect PermissionToProto (rwp_Permissions item);
  Ok {| Role_Id := ID (rol_meta role); Role_Key := rol_Key role; Role_Name := rol_Name role;
        Role_Description := rol_Description role; Role_Builtin := rol_Builtin role;
        Role_Permissions := permissions; Role_Audit := anonymous_audit (rol_meta role) version |}.

Definition EnvironmentMemberToProto (item : EnvironmentMemberRecord) : result EnvironmentMember :=
  user ← UserToProto (em_User item);
  roles ← collect RoleToProto (em_Roles item);
  Ok {| Member_User := user; Member_Roles := roles |}.

(** ** Replies with several fields *)

Record ListConfigItem := { li_Config : Config; li_IsReleased : bool }.
Record ConfigDetailReply := { cd_Config : Config; cd_Tree : TreeNode }.
Record PaginationReply := { Reply_Page : Z; Reply_Limit : Z; Reply_Total : Z }.
Record ListSnapshotReply := { ls_Page : PaginationReply; ls_List : list SimpleSnapshot }.
Record ProjectApiKeySecretReply := { ks_ApiKey : ProjectApiKey; ks_Secret : string }.
Record ExportSnapshotReply := { ex_SourceEnvironmentId : Z; ex_Snapshot : Snapshot }.
Record ImportSnapshotReply := { is_Snapshot : Snapshot; is_Replayed : bool }.
Record ConfigReply := { cr_Content : string; cr_Version : Z }.

(** What the middleware leaves in the context of a request: the principal and
    the runtime credential, and its X-Request-ID header. *)
Record Context_ := {
  cx_principal : option Z;
  cx_credential : option string;
  cx_request_id : string;
}.

Section service.
Context `{Engine} `{Collation} `{Store} `{Protojson} `{MapOrder} `{SHA256} `{Pepper} `{Argon2}
  `{!Authorizer} `{!PermissionCache}.

(** [actor, err := permission.ActorFromContext(ctx)]; [translate] is [apiError]
    or [permission.APIError]. *)
Definition with_actor {A} (translate : Err → Err) (ctx : Context_) (serve : Actor → M A) : M A :=
  actor ← handle translate (ActorFromContext (cx_principal ctx) (Some (cx_request_id ctx)));
  serve actor.

(** [configReply] and its like: the result of an operation as a message. *)
Definition replied {R P} (convert : R → result P) (operation : M R) : M P :=
  item ← handle apiError operation;
  handle apiError (lift (convert item)).

(** The services that use [permission.APIError] report a failed conversion
    themselves. *)
Definition operation_failed : Err := EApi Internal "operation failed".
Definition managed_reply {R P} (convert : R → result P) (operation : M R) : M P :=
  item ← handle permission_APIError operation;
  handle (λ _, operation_failed) (lift (convert item)).

(** ** service/config.go *)

Definition CreateConfig (ctx : Context_) (request : CreateConfigRequest) : M Config :=
  with_actor apiError ctx (λ actor, replied ConfigToProto
    (config_logic_Create actor (CreateConfig_EnvironmentId request)
       {| ci_ProjectID := CreateConfig_ProjectId request; ci_Key := CreateConfig_Key request;
          ci_Description := CreateConfig_Description request |})).

Definition UpdateConfig (ctx : Context_) (request : UpdateConfigRequest) : M Config :=
  with_actor apiError ctx (λ actor, replied ConfigToProto
    (config_logic_Update actor (UpdateConfig_EnvironmentId request)
       {| ui_ConfigID := UpdateConfig_Id request;
          ui_Description := UpdateConfig_Description request;
          ui_FieldType := UpdateConfig_Type request; ui_IsArray := UpdateConfig_IsArray request;
          ui_Version := UpdateConfig_Version request |})).

Definition UpdateConfigValue (ctx : Context_) (request : UpdateConfigValueRequest) : M Config :=
  with_actor apiError ctx (λ actor, replied ConfigToProto
    (config_logic_UpdateValue actor (UpdateConfigValue_EnvironmentId request)
       {| vi_ConfigID := UpdateConfigValue_Id request;
          vi_Value := UpdateConfigValue_Value request;
          vi_Version := UpdateConfigValue_Version request |})).

Definition ListConfig (ctx : Context_) (request : ListConfigRequest) : M (list ListConfigItem) :=
  with_actor apiError ctx (λ actor, replied
    (λ '(items, released), collect (λ item,
       converted ← ConfigToProto item;
       Ok {| li_Config := converted;
             li_IsReleased := bool_decide (ID (cfg_meta item) ∈ (released : gset Z)) |}) items)
    (config_logic_List actor (ListConfig_EnvironmentId request)
       {| cf_ProjectID := ListConfig_ProjectId request;
          cf_ProjectKey := ListConfig_ProjectKey request; cf_Key := ListConfig_Key request |})).

Definition DeleteConfig (ctx : Context_) (request : ConfigIDRequest) : M unit :=
  with_actor apiError ctx (λ actor, handle apiError
    (config_logic_Delete actor (ConfigID_EnvironmentId request) (ConfigID_Id request))).

Definition ConfigDetail (ctx : Context_) (request : ConfigIDRequest) : M ConfigDetailReply :=
  with_actor apiError ctx (λ actor, replied
    (λ '(item, tree), converted ← ConfigToProto item;
       Ok {| cd_Config := converted; cd_Tree := tree |})
    (config_logic_Detail actor (ConfigID_EnvironmentId request) (ConfigID_Id request))).

(** ** service/structure.go *)

Definition CreateStructure (ctx : Context_) (request : CreateStructureRequest) : M Structure :=
  with_actor apiError ctx (λ actor, replied StructureToProto
    (structure_logic_Create actor (CreateStructure_EnvironmentId request)
       {| sc_ConfigID := CreateStructure_ConfigId request; sc_Key := CreateStructure_Key request;
          sc_Name := CreateStructure_Name request;
          sc_Description := CreateStructure_Description request |})).

Definition UpdateStructure (ctx : Context_) (request : UpdateStructureRequest) : M Structure :=
  with_actor apiError ctx (λ actor, replied StructureToProto
    (structure_logic_Update actor (UpdateStructure_EnvironmentId request)
       {| su_StructureID := UpdateStructure_Id request; su_Key := UpdateStructure_Key request;
          su_Name := UpdateStructure_Name request;
          su_Description := UpdateStructure_Description request;
          su_Fields := UpdateStructure_Fields request;
          su_Version := UpdateStructure_Version request |})).

Definition ListStructure (ctx : Context_) (request : ListStructureRequest) : M (list Structure) :=
  with_actor apiError ctx (λ actor, handle apiError
    (structure_logic_List actor (ListStructure_EnvironmentId request)
       {| st_ProjectID := ListStructure_ProjectId request;
          st_ConfigID := ListStructure_ConfigId request;
          st_IgnoreID := ListStructure_IgnoreDependencyId request |})).

Definition DeleteStructure (ctx : Context_) (request : StructureIDRequest) : M unit :=
  with_actor apiError ctx (λ actor, handle apiError
    (structure_logic_Delete actor (StructureID_EnvironmentId request) (StructureID_Id request))).

(** ** service/enum.go *)

Definition CreateEnum (ctx : Context_) (request : CreateEnumRequest) : M ConfigEnum :=
  with_actor apiError ctx (λ actor, replied EnumToProto
    (enum_logic_Create actor (CreateEnum_EnvironmentId request)
       {| ec_ConfigID := CreateEnum_ConfigId request; ec_Key := CreateEnum_Key request;
          ec_Name := CreateEnum_Name request; ec_Description := CreateEnum_Description request;
          ec_Values := CreateEnum_Values request |})).

Definition UpdateEnum (ctx : Context_) (request : UpdateEnumRequest) : M ConfigEnum :=
  with_actor apiError ctx (λ actor, replied EnumToProto
    (enum_logic_Update actor (UpdateEnum_EnvironmentId request)
       {| eu_EnumID := UpdateEnum_Id request; LogicDefinition.eu_Key := UpdateEnum_Key request;
          eu_Name_ := UpdateEnum_Name request; eu_Description_ := UpdateEnum_Description request;
          eu_Values := UpdateEnum_Values request; eu_Version_ := UpdateEnum_Version request |})).

Definition ListEnum (ctx : Context_) (request : ListEnumRequest) : M (list ConfigEnum) :=
  with_actor apiError ctx (λ actor, replied (collect EnumToProto)
    (enum_logic_List actor (ListEnum_EnvironmentId request) (ListEnum_ProjectId request)
       (ListEnum_ConfigId request))).

Definition DeleteEnum (ctx : Context_) (request : EnumIDRequest) : M unit :=
  with_actor apiError ctx (λ actor, handle apiError
    (enum_logic_Delete actor (EnumID_EnvironmentId request) (EnumID_Id request))).

(** ** service/snapshot.go *)

Definition CreateSnapshot (ctx : Context_) (request : CreateSnapshotRequest) : M Snapshot :=
  with_actor apiError ctx (λ actor, replied SnapshotToProto
    (snapshot_logic_Create actor (CreateSnapshot_EnvironmentId request)
       {| sn_ProjectID := CreateSnapshot_ProjectId request;
          sn_ConfigID := CreateSnapshot_ConfigId request;
          sn_Description := CreateSnapshot_Description request;
          sn_Tags := CreateSnapshot_Tags request |})).

Definition PreviewCreatingSnapshot (ctx : Context_) (request : ConfigSnapshotRequest) : M string :=
  with_actor apiError ctx (λ actor, handle apiError
    (snapshot_logic_Preview actor (ConfigSnapshot_EnvironmentId request)
       (ConfigSnapshot_ConfigId request))).

Definition DeleteSnapshot (ctx : Context_) (request : SnapshotIDRequest) : M unit :=
  with_actor apiError ctx (λ actor, handle apiError
    (snapshot_logic_Delete actor (SnapshotID_EnvironmentId request) (SnapshotID_Id request))).

Definition GetSnapshot (ctx : Context_) (request : SnapshotIDRequest) : M Snapshot :=
  with_actor apiError ctx (λ actor, replied SnapshotToProto
    (snapshot_logic_Get actor (SnapshotID_EnvironmentId request) (SnapshotID_Id request))).

Definition LoadSnapshot (ctx : Context_) (request : LoadSnapshotRequest) : M Snapshot :=
  with_actor apiError ctx (λ actor, replied SnapshotToProto
    (snapshot_logic_Load actor (LoadSnapshot_EnvironmentId request)
       (LoadSnapshot_ConfigId request) (LoadSnapshot_Id request))).

Definition CurrentSnapshot (ctx : Context_) (request : ConfigSnapshotRequest) : M Snapshot :=
  with_actor apiError ctx (λ actor, replied SnapshotToProto
    (snapshot_logic_Current actor (ConfigSnapshot_EnvironmentId request)
       (ConfigSnapshot_ConfigId request))).

Definition ReleasedSnapshot (ctx : Context_) (request : ConfigSnapshotRequest) : M Snapshot :=
  with_actor apiError ctx (λ actor, replied SnapshotToProto
    (snapshot_logic_Released actor (ConfigSnapshot_EnvironmentId request)
       (ConfigSnapshot_ConfigId request))).

(** The page a request asks for: [uint32] numbers, multiplied as [uint64] and
    converted to [int]. *)
Definition requested_page (request : ListSnapshotRequest) : Z * Z :=
  match ListSnapshot_Page request with
  | Some page => (default 1 (Pagination_Page page), default 20 (Pagination_Limit page))
  | None => (1, 20)
  end.
Definition page_offset (pageNumber limit : Z) : Z :=
  Safeint.uint64 (Safeint.uint64 (pageNumber - 1) * limit).
Definition page_request (IntSize : Z) (request : ListSnapshotRequest) : result PageRequest :=
  let '(pageNumber, limit) := requested_page request in
  match Safeint.IntFromUint64 IntSize (page_offset pageNumber limit) with
  | Er _ => Er (EInvalid "invalid page offset")
  | Ok offset =>
      match Safeint.IntFromUint32 IntSize limit with
      | Er _ => Er (EInvalid "invalid page limit")
      | Ok pageLimit => Ok {| Offset := offset; Limit := pageLimit |}
      end
  end.

Definition list_reply (IntSize : Z) (request : ListSnapshotRequest)
    (page : PageResult SnapshotRow) : result ListSnapshotReply :=
  items ← collect SimpleSnapshotToProto (Items page);
  match Safeint.Uint32FromInt IntSize (p_Limit page), Safeint.Uint64FromInt64 (Total page) with
  | Er _, _ => Er (EOther "invalid snapshot page limit")
  | _, Er _ => Er (EOther "invalid snapshot page total")
  | Ok responseLimit, Ok total =>
      Ok {| ls_Page := {| Reply_Page := (requested_page request).1;
                          Reply_Limit := responseLimit; Reply_Total := total |};
            ls_List := items |}
  end.

Definition ListSnapshot (IntSize : Z) (ctx : Context_) (request : ListSnapshotRequest) :
    M ListSnapshotReply :=
  with_actor apiError ctx (λ actor,
    page ← handle apiError (lift (page_request IntSize request));
    replied (list_reply IntSize request)
      (snapshot_logic_List actor (ListSnapshot_EnvironmentId request)
         {| sl_ProjectID := ListSnapshot_ProjectId request;
            sl_ConfigID := ListSnapshot_ConfigId request; sl_Page := page |})).

(** ** service/publish.go, export.go, import.go *)

Definition PublishSnapshot (ctx : Context_) (request : PublishSnapshotRequest) : M Snapshot :=
  with_actor apiError ctx (λ actor, replied SnapshotToProto
    (Publish actor (PublishSnapshot_EnvironmentId request) (PublishSnapshot_SnapshotId request)
       (PublishSnapshot_Version request))).

Definition UnpublishSnapshot (ctx : Context_) (request : PublishSnapshotRequest) : M Snapshot :=
  with_actor apiError ctx (λ actor, replied SnapshotToProto
    (Unpublish actor (PublishSnapshot_EnvironmentId request) (PublishSnapshot_SnapshotId request)
       (PublishSnapshot_Version request))).

Definition ExportSnapshot (ctx : Context_) (request : ExportSnapshotRequest) :
    M ExportSnapshotReply :=
  with_actor apiError ctx (λ actor, replied
    (λ item, converted ← SnapshotToProto item;
       Ok {| ex_SourceEnvironmentId := ExportSnapshot_SourceEnvironmentId request;
             ex_Snapshot := converted |})
    (Export actor (ExportSnapshot_SourceEnvironmentId request)
       (ExportSnapshot_SnapshotId request))).

Definition ImportSnapshot (ctx : Context_) (request : ImportSnapshotRequest) :
    M ImportSnapshotReply :=
  with_actor apiError ctx (λ actor, replied
    (λ outcome, converted ← SnapshotToProto (im_Snapshot outcome);
       Ok {| is_Snapshot := converted; is_Replayed := im_Replayed outcome |})
    (Import actor
       {| ir_SourceEnvironmentID := ImportSnapshot_SourceEnvironmentId request;
          ir_SourceSnapshotID := ImportSnapshot_SourceSnapshotId request;
          ir_TargetEnvironmentID := ImportSnapshot_TargetEnvironmentId request;
          ir_TargetProjectID := ImportSnapshot_TargetProjectId request;
          ir_TargetConfigID := ImportSnapshot_TargetConfigId request;
          ir_Description := ImportSnapshot_Description request;
          ir_Tags := ImportSnapshot_Tags request;
          ir_IdempotencyKey := ImportSnapshot_IdempotencyKey request;
          ir_ConflictStrategy := ImportSnapshot_ConflictStrategy request |})).

(** ** service/project.go, api_key.go *)

Definition CreateProject (ctx : Context_) (request : CreateProjectRequest) : M Project :=
  with_actor apiError ctx (λ actor, replied ProjectToProto
    (project_logic_Create actor 0
       {| prj_meta := new_meta 0 0; prj_EnvironmentID := 0; prj_Key := CreateProject_Key request;
          prj_Name := CreateProject_Name request;
          prj_Description := CreateProject_Description request |})).

Definition UpdateProject (ctx : Context_) (request : UpdateProjectRequest) : M Project :=
  with_actor apiError ctx (λ actor, replied ProjectToProto
    (project_logic_Update actor (UpdateProject_Id request)
       {| pj_Name := UpdateProject_Name request;
          pj_Description := UpdateProject_Description request; pj_UpdatedBy := 0;
          pj_Version := UpdateProject_Version request |})).

Definition ListProject (like : string → string → bool) (ctx : Context_)
    (request : ListProjectRequest) : M (list Project) :=
  with_actor apiError ctx (λ actor, replied (collect ProjectToProto)
    (project_logic_List like actor (default 0 (ListProject_EnvironmentId request))
       (ListProject_Keyword request))).

Definition ProjectDetail (ctx : Context_) (request : ProjectIDRequest) : M Project :=
  with_actor apiError ctx (λ actor, replied ProjectToProto
    (project_logic_Detail actor (default 0 (ProjectID_EnvironmentId request))
       (ProjectID_Id request))).

Definition secretReply (outcome : APIKeySecretResult) : result ProjectApiKeySecretReply :=
  Ok {| ks_ApiKey := APIKeyToProto (sr_Key outcome); ks_Secret := sr_Secret outcome |}.

Definition ListProjectApiKeys (ctx : Context_) (request : ProjectApiKeyScopeRequest) :
    M (list ProjectApiKey) :=
  with_actor apiError ctx (λ actor, replied (λ items, Ok (APIKeyToProto <$> items))
    (key_logic_List actor (ProjectApiKeyScope_EnvironmentId request)
       (ProjectApiKeyScope_ProjectId request))).

Definition CreateProjectApiKey (ctx : Context_) (request : CreateProjectApiKeyRequest) :
    M ProjectApiKeySecretReply :=
  with_actor apiError ctx (λ actor, replied secretReply
    (key_logic_Create actor (CreateProjectApiKey_EnvironmentId request)
       (CreateProjectApiKey_ProjectId request) (CreateProjectApiKey_Name request))).

Definition RotateProjectApiKey (ctx : Context_) (request : ProjectApiKeyIDRequest) :
    M ProjectApiKeySecretReply :=
  with_actor apiError ctx (λ actor, replied secretReply
    (key_logic_Rotate actor (ProjectApiKeyID_EnvironmentId request)
       (ProjectApiKeyID_ProjectId request) (ProjectApiKeyID_KeyId request))).

Definition RevokeProjectApiKey (ctx : Context_) (request : ProjectApiKeyIDRequest) : M unit :=
  with_actor apiError ctx (λ actor, handle apiError
    (key_logic_Revoke actor (ProjectApiKeyID_EnvironmentId request)
       (ProjectApiKeyID_ProjectId request) (ProjectApiKeyID_KeyId request))).

(** ** service/environment.go *)

Definition filterEnvironments (items : list EnvironmentRow) (projectID : option Z) :
    list EnvironmentRow :=
  match projectID with
  | Some projectID => filter (λ item, env_ProjectID item = projectID) items
  | None => items
  end.

Definition ListEnvironments (ctx : Context_) (request : ListEnvironmentsRequest) :
    M (list Environment) :=
  with_actor permission_APIError ctx (λ actor, managed_reply
    (λ items, collect EnvironmentToProto
       (filterEnvironments items (ListEnvironments_ProjectId request)))
    (environment_logic_List actor)).

Definition CreateEnvironment (ctx : Context_) (request : CreateEnvironmentRequest) :
    M Environment :=
  with_actor permission_APIError ctx (λ actor, managed_reply EnvironmentToProto
    (environment_logic_Create actor
       {| env_meta := new_meta 0 0; env_ProjectID := CreateEnvironment_ProjectId request;
          env_Key := CreateEnvironment_Key request; env_Name := CreateEnvironment_Name request;
          env_Description := CreateEnvironment_Description request; env_Enabled := false |})).

Definition UpdateEnvironment (ctx : Context_) (request : UpdateEnvironmentRequest) :
    M Environment :=
  with_actor permission_APIError ctx (λ actor,
    handle permission_APIError
      (VerifyProject (UpdateEnvironment_EnvironmentId request)
         (UpdateEnvironment_ProjectId request));;
    managed_reply EnvironmentToProto
      (environment_logic_Update actor (UpdateEnvironment_EnvironmentId request)
         {| RepoProject.eu_Name := UpdateEnvironment_Name request;
            RepoProject.eu_Description := UpdateEnvironment_Description request;
            RepoProject.eu_Enabled := UpdateEnvironment_Enabled request;
            RepoProject.eu_UpdatedBy := 0;
            RepoProject.eu_Version := UpdateEnvironment_Version request |})).

Definition MyPermissions (ctx : Context_) (request : EnvironmentIDRequest) : M (list string) :=
  with_actor permission_APIError ctx (λ actor, handle permission_APIError
    (environment_logic_Permissions actor (EnvironmentID_EnvironmentId request))).

Definition ListEnvironmentUsers (ctx : Context_) (request : EnvironmentIDRequest) :
    M (list EnvironmentMember) :=
  with_actor permission_APIError ctx (λ actor, managed_reply (collect EnvironmentMemberToProto)
    (environment_logic_ListMembers actor (EnvironmentID_EnvironmentId request))).

Definition UpdateEnvironmentUserRoles (ctx : Context_)
    (request : UpdateEnvironmentUserRolesRequest) : M unit :=
  with_actor permission_APIError ctx (λ actor, handle permission_APIError
    (UpdateMemberRoles actor (UpdateEnvironmentUserRoles_EnvironmentId request)
       (UpdateEnvironmentUserRoles_UserId request)
       (UpdateEnvironmentUserRoles_RoleIds request))).

(** ** service/role.go *)

Definition ListRoles (ctx : Context_) : M (list Role) :=
  with_actor permission_APIError ctx (λ _, managed_reply (collect RoleToProto) role_logic_List).

Definition CreateRole (ctx : Context_) (request : CreateRoleRequest) : M Role :=
  with_actor permission_APIError ctx (λ actor, managed_reply RoleToProto
    (role_logic_Create actor
       {| rol_meta := new_meta 0 0; rol_Key := CreateRole_Key request;
          rol_Name := CreateRole_Name request;
          rol_Description := CreateRole_Description request; rol_Builtin := false |})).

Definition UpdateRole (ctx : Context_) (request : UpdateRoleRequest) : M Role :=
  with_actor permission_APIError ctx (λ actor, managed_reply RoleToProto
    (role_logic_Update actor (UpdateRole_RoleId request)
       {| ru_Name := UpdateRole_Name request; ru_Description := UpdateRole_Description request;
          ru_UpdatedBy := 0; ru_Version := UpdateRole_Version request |})).

Definition DeleteRole (ctx : Context_) (request : RoleIDRequest) : M unit :=
  with_actor permission_APIError ctx (λ actor, handle permission_APIError
    (role_logic_Delete actor (RoleID_RoleId request))).

Definition ListPermissions (ctx : Context_) : M (list PermissionMessage) :=
  with_actor permission_APIError ctx (λ actor, managed_reply (collect PermissionToProto)
    (role_logic_ListPermissions actor)).

Definition UpdateRolePermissions (ctx : Context_) (request : UpdateRolePermissionsRequest) :
    M unit :=
  with_actor permission_APIError ctx (λ actor, handle permission_APIError
    (role_logic_UpdatePermissions actor (UpdateRolePermissions_RoleId request)
       (UpdateRolePermissions_PermissionIds request))).

(** ** service/user.go *)

Definition ListUsers (ctx : Context_) : M (list User) :=
  with_actor permission_APIError ctx (λ actor, managed_reply (collect UserToProto)
    (user_logic_List actor)).

Definition CreateUser (hasher : Hasher) (ctx : Context_) (request : CreateUserRequest) : M User :=
  with_actor permission_APIError ctx (λ actor, managed_reply UserToProto
    (user_logic_Create hasher actor
       {| uc_Username := CreateUser_Username request;
          uc_DisplayName := CreateUser_DisplayName request;
          uc_PlainPassword := CreateUser_Password request;
          uc_SystemAdmin := CreateUser_IsSystemAdmin request |})).

Definition UpdateUser (ctx : Context_) (request : UpdateUserRequest) : M User :=
  with_actor permission_APIError ctx (λ actor, managed_reply UserToProto
    (user_logic_Update actor
       {| uu_UserID := UpdateUser_UserId request;
          uu_DisplayName := UpdateUser_DisplayName request;
          uu_SystemAdmin := UpdateUser_IsSystemAdmin request;
          uu_Version := UpdateUser_Version request |})).

Definition UpdateUserPassword (hasher : Hasher) (ctx : Context_)
    (request : UpdateUserPasswordRequest) : M unit :=
  with_actor permission_APIError ctx (λ actor, handle permission_APIError
    (user_logic_UpdatePassword hasher actor (UpdateUserPassword_UserId request)
       (UpdateUserPassword_Password request))).

Definition UpdateUserStatus (ctx : Context_) (request : UpdateUserStatusRequest) : M User :=
  with_actor permission_APIError ctx (λ actor, managed_reply UserToProto
    (user_logic_UpdateStatus actor (UpdateUserStatus_UserId request)
       (UpdateUserStatus_Enabled request) (UpdateUserStatus_Version request))).

(** ** service/runtime.go *)

Definition runtime_Config (ctx : Context_) (request : ConfigRequest) : M ConfigReply :=
  match cx_credential ctx with
  | None => throw (EApi Unauthorized "API key authentication failed")
  | Some credential =>
      outcome ← handle runtimePublicError
        (LogicPublish.Read credential (Runtime_Project request) (Runtime_Key request));
      mret {| cr_Content := rr_Content outcome; cr_Version := rr_Version outcome |}
  end.
End service.

(** ** service/auth.go, setup.go *)

Record LoginReply := {
  lr_AccessToken : string;
  lr_ExpiresIn : Z;
  lr_User : User;
}.
Record MeReply := {
  me_User : User;
  me_Environments : list Environment;
}.

Definition authenticationFailed : Err := EApi Unauthorized "authentication failed".

(** A method that answers a browser: the cookies it sets, which are sent with an
    error too, and its reply. *)
Definition Answer (A : Type) : Type := list SetCookie * result A.
Definition answer {A} (cookies : list SetCookie) (r : result A) : Answer A := (cookies, r).

Section accounts.
Context `{Engine} `{Collation} `{Store} `{Argon2} `{JWTLib} `{SHA256} `{UnicodeLower}.
Context (l : AuthLogic) (trusted : list Prefix).

Definition validatedOriginRequest (http : HTTPRequest) : result string :=
  let origin := default "" (head (Values http "Origin")) in
  match origin_Validate trusted http with
  | Ok _ => Ok origin
  | Er _ => Er (EApi Forbidden "request origin is not allowed")
  end.

Definition loginReply (accessToken : string) (ttl : Z) (user : UserRow) : result LoginReply :=
  match UserToProto user with
  | Er e => Er (authAPIError e)
  | Ok protoUser =>
      match Safeint.Uint32FromInt64 (Z.quot ttl second) with
      | Er e => Er (authAPIError e)
      | Ok seconds =>
          guard_err (seconds =? 0)
            (authAPIError (EOther "access token lifetime must be positive"));;
          Ok {| lr_AccessToken := accessToken; lr_ExpiresIn := seconds; lr_User := protoUser |}
      end
  end.

(** The cookie of a new session, whose age counts from the moment it is made,
    and the reply. *)
Definition signed_in (origin : string) (cookies : list SetCookie) (outcome : AuthResult) :
    M (Answer LoginReply) :=
  t ← now;
  mret (answer (cookies ++ [session_Cookie t (ar_RefreshToken outcome) (ar_RefreshExpiresAt outcome)
                              (SecureForOrigin origin)])
          (loginReply (ar_AccessToken outcome) (ar_AccessTTL outcome) (ar_User outcome))).

Definition service_Login (http : HTTPRequest) (request : LoginRequest) : M (Answer LoginReply) :=
  match validatedOriginRequest http with
  | Er e => mret (answer [] (Er e))
  | Ok origin =>
      let username := trim_space (Login_Username request) in
      if bool_decide (username = "") || bool_decide (Login_Password request = "")
      then mret (answer [] (Er authenticationFailed))
      else
        match client_Resolve trusted http with
        | Er _ => mret (answer [] (Er (EApi BadRequest "client address is invalid")))
        | Ok clientAddress =>
            outcome ← attempt (Login l username (Login_Password request) (addr_String clientAddress));
            match outcome with
            | Er e => mret (answer [] (Er (authAPIError e)))
            | Ok outcome => signed_in origin [] outcome
            end
        end
  end.

Definition service_Refresh (http : HTTPRequest) : M (Answer LoginReply) :=
  match validatedOriginRequest http with
  | Er e => mret (answer [] (Er e))
  | Ok origin =>
      match request_Cookie http with
      | None | Some EmptyString => mret (answer [] (Er authenticationFailed))
      | Some cookie =>
          refreshed ← handle authAPIError (Refresh l cookie);
          let '(clear, outcome) := (refreshed : bool * result AuthResult) in
          let cookies := if clear then [ClearCookie (SecureForOrigin origin)] else [] in
          match outcome with
          | Er e => mret (answer cookies (Er (authAPIError e)))
          | Ok outcome => signed_in origin cookies outcome
          end
      end
  end.

Definition service_Logout (http : HTTPRequest) : M (Answer unit) :=
  match validatedOriginRequest http with
  | Er e => mret (answer [] (Er e))
  | Ok origin =>
      outcome ← match request_Cookie http with
                | None | Some EmptyString => mret (Ok tt)
                | Some cookie => attempt (Logout cookie)
                end;
      match outcome with
      | Er e => mret (answer [] (Er (authAPIError e)))
      | Ok _ => mret (answer [ClearCookie (SecureForOrigin origin)] (Ok tt))
      end
  end.

Definition service_Me (ctx : Context_) : M MeReply :=
  match cx_principal ctx with
  | None => throw authenticationFailed
  | Some userID =>
      profile ← handle authAPIError (Me userID);
      handle authAPIError (lift (
        protoUser ← UserToProto (ap_User profile);
        protoEnvironments ← collect EnvironmentToProto (ap_Environments profile);
        Ok {| me_User := protoUser; me_Environments := protoEnvironments |}))
  end.

Definition service_GetSetupStatus : M bool :=
  handle (λ _, EApi Internal "setup status is unavailable") GetSetupStatus.

Definition validSetupName (value : string) : bool :=
  valid_utf8 value && bool_decide (value = trim_space value) && negb (bool_decide (value = ""))
  && forallb (λ r, negb (unicode_is_control r)) (runes value).

Definition validateInitialAdmin (request : CreateInitialAdminRequest) : result unit :=
  guard_err (match CreateInitialAdminRequest_validate false request with Some _ => true | None => false end)
    (EApi BadRequest "administrator credentials are invalid");;
  guard_err (negb (validSetupName (CreateInitialAdmin_Username request))
             || negb (validSetupName (CreateInitialAdmin_DisplayName request)))
    (EApi BadRequest "administrator name is invalid");;
  let password := CreateInitialAdmin_Password request in
  guard_err (negb (valid_utf8 password) || bool_decide (trim_space password = "")
             || negb (forallb (λ r, negb (unicode_is_control r)) (runes password)))
    (EApi BadRequest "administrator password is invalid").

Definition setupError (e : Err) : Err :=
  if errors_is (λ e, bool_decide (e = EAlreadyInitialized)) e
  then EApi Conflict "administrator setup is already complete"
  else EApi Internal "administrator setup failed".

Definition service_CreateInitialAdmin (http : HTTPRequest) (request : CreateInitialAdminRequest) :
    M unit :=
  match origin_Validate trusted http with
  | Er _ => throw (EApi Forbidden "request origin is not allowed")
  | Ok _ =>
      lift (validateInitialAdmin request);;
      handle setupError (CreateInitialAdmin (passwords l) (CreateInitialAdmin_Username request)
        (CreateInitialAdmin_DisplayName request) (CreateInitialAdmin_Password request))
  end.
End accounts.

(** ** server/http.go: the middleware around a method *)

Definition OperationApiConfig : string := "/kirby.runtime.v1.Api/Config".

(** middleware/validate.go *)
Definition validateRequest `{Engine} `{Store} (violation : option ValidationError) : M unit :=
  match violation with
  | Some e => throw (EApi BadRequest (Error e))
  | None => mret tt
  end.

(** The operations of the [auth] limit. *)
Definition auth_selected (operation : string) : bool :=
  bool_decide (operation ∈ [OperationAuthServiceLogin; OperationAuthServiceRefresh;
    OperationSetupServiceCreateInitialAdmin]).

Section http.
Context `{Engine} `{Collation} `{Store} `{JWTLib} `{SHA256}.

(** [adminSelector] and [runtimeHTTPSelector]: what they add to the context. *)
Definition admin_principal (tokens : Manager) (t : Transport) : M (option Z) :=
  if admin_selected (operation t) then
    FixedWindowRateLimit "admin" adminRateLimit rateWindow (AuthorizationIdentity t);;
    principal ← AdminAuth tokens t;
    mret (Some (pl_UserID principal))
  else mret None.
Definition runtime_credential (t : Transport) : M (option string) :=
  if bool_decide (operation t = OperationApiConfig) then
    FixedWindowRateLimit "runtime" runtimeRateLimit rateWindow (RuntimeIdentity t);;
    credential ← lift (HTTPAPIKey t);
    mret (Some credential)
  else mret None.

(** A request: its identifier is made valid ([HTTPBoundary]), its message is
    validated, the limits and the authentication of its operation are applied,
    and the method runs. *)
Definition serve_http {A} (tokens : Manager) (t : Transport)
    (violation : option ValidationError) (method : Context_ → M A) : M A :=
  requestID ← request_id t;
  validateRequest violation;;
  unless_m (negb (auth_selected (operation t)))
    (FixedWindowRateLimit "auth" authRateLimit rateWindow (peer t));;
  principal ← admin_principal tokens t;
  credential ← runtime_credential t;
  method {| cx_principal := principal; cx_credential := credential;
            cx_request_id := requestID |}.

(** Around it the filters: a request with a foreign Origin ends at [SameOrigin],
    whose answer is a plain 403. *)
Definition handle_http `{UnicodeLower} {A} (tokens : Manager) (trusted : list Prefix) (http : HTTPRequest)
    (op : string) (violation : option ValidationError) (method : Context_ → M A) : M A :=
  if SameOrigin trusted http then serve_http tokens (transport_of http op) violation method
  else throw (EApi Forbidden "request origin is not allowed").
End http.
