(* ===== verification/Assets.v ===== *)
(** [server/internal/logic/asset.go] and [service/asset.go]: uploads of assets.
    A caller with permission on an environment obtains a ticket for a key in
    one of its projects, and later has the stored object checked and named. *)

From S2P Require Import Prelude GoStd GoStrings Json Codec Engine Model Cache Convert Requests World RepoScope Permission RepoProject LogicBase ObjectStore Netip Middleware Browser Service.
From Stdlib Require Import Ascii.

Local Open Scope Z_scope.

(** ** The upload policy *)

Definition PermissionAssetWrite : string := "asset:write".

Record Policy := {
  MaxSize : Z;
  AllowedByExt : gmap string (list string);
  UploadLifetime : Z;
}.

Definition default_types : list (string * list string) :=
  [(".png", ["image/png"]);
   (".jpg", ["image/jpeg"]);
   (".jpeg", ["image/jpeg"]);
   (".gif", ["image/gif"]);
   (".webp", ["image/webp"]);
   (".avif", ["image/avif"]);
   (".mp4", ["video/mp4"]);
   (".webm", ["video/webm"]);
   (".mov", ["video/quicktime"]);
   (".mp3", ["audio/mpeg"]);
   (".wav", ["audio/wav"; "audio/x-wav"]);
   (".ogg", ["audio/ogg"; "video/ogg"]);
   (".pdf", ["application/pdf"]);
   (".txt", ["text/plain"]);
   (".csv", ["text/csv"; "application/csv"]);
   (".json", ["application/json"]);
   (".yaml", ["application/yaml"; "application/x-yaml"; "text/yaml"]);
   (".yml", ["application/yaml"; "application/x-yaml"; "text/yaml"]);
   (".zip", ["application/zip"; "application/x-zip-compressed"]);
   (".gz", ["application/gzip"; "application/x-gzip"]);
   (".tar", ["application/x-tar"]);
   (".doc", ["application/msword"]);
   (".docx", ["application/vnd.openxmlformats-officedocument.wordprocessingml.document"]);
   (".xls", ["application/vnd.ms-excel"]);
   (".xlsx", ["application/vnd.openxmlformats-officedocument.spreadsheetml.sheet"]);
   (".ppt", ["application/vnd.ms-powerpoint"]);
   (".pptx", ["application/vnd.openxmlformats-officedocument.presentationml.presentation"])].

Definition DefaultPolicy : Policy :=
  {| MaxSize := MaxUploadSize; AllowedByExt := list_to_map default_types;
     UploadLifetime := DefaultUploadTTL |}.

Definition invalid_asset (msg : string) : Err := EAsset AssetInvalid msg.
Definition asset_integrity (msg : string) : Err := EAsset AssetIntegrity msg.
(** [fmt.Errorf("%w: ...: %w", sentinel, err)] wraps both. *)
Definition asset_error (kind : AssetError) (msg : string) (cause : Err) : Err :=
  EJoin (EAsset kind msg) cause.

Definition is_object (kind : ObjectError) : Err → bool :=
  errors_is (λ e, match e with EObject k _ => bool_decide (k = kind) | _ => false end).
Definition is_asset (kind : AssetError) : Err → bool :=
  errors_is (λ e, match e with EAsset k _ => bool_decide (k = kind) | _ => false end).

(** [strings.EqualFold] with an ASCII text. *)
Definition EqualFold (a b : string) : bool := names_field a b.

Section policy.
Context `{UnicodeLower}.

Definition validatePolicyMIMETypes (contentTypes : list string) : result unit :=
  guard_err (negb (forallb (λ contentType,
      bool_decide (ParseMediaType contentType = Some (to_lower contentType))) contentTypes))
    (EOther "asset upload policy contains an invalid MIME type").

(** One extension and its types; which of several errors is reported depends on
    the order in which the map is visited. *)
Definition validatePolicyEntry (entry : string * list string) : result unit :=
  guard_err (bool_decide (entry.1 = "") || negb (bool_decide (entry.1 = to_lower entry.1))
             || negb (String.prefix "." entry.1) || bool_decide (entry.2 = []))
    (EOther "asset upload policy contains an invalid extension");;
  validatePolicyMIMETypes entry.2.

Definition validatePolicy (policy : Policy) : result unit :=
  guard_err ((MaxSize policy =? 0) || (UploadLifetime policy <=? 0) || (day <? UploadLifetime policy)
             || bool_decide (AllowedByExt policy = ∅))
    (EOther "asset upload policy is invalid");;
  each validatePolicyEntry (map_to_list (AllowedByExt policy)).

(** The extension and the media type of an upload. *)
Definition validateUpload (policy : Policy) (filename contentType : string) (size : Z) :
    result (string * string) :=
  guard_err (bool_decide (filename = "") || (255 <? len filename)
             || negb (bool_decide (trim_space filename = filename))
             || contains_any ["/"%char; backslash; chr 0; chr 13; chr 10] filename)
    (invalid_asset "filename is invalid");;
  guard_err (existsb unicode_is_control (runes filename))
    (invalid_asset "filename contains control characters");;
  guard_err (bool_decide (filename = ".") || bool_decide (filename = ".."))
    (invalid_asset "filename is invalid");;
  let extension := to_lower (path_ext filename) in
  match AllowedByExt policy !! extension with
  | None => Er (invalid_asset "file extension is not allowed")
  | Some allowedTypes =>
      guard_err ((size =? 0) || (MaxSize policy <? size))
        (invalid_asset "file size exceeds upload policy");;
      match ParseMediaType contentType with
      | None => Er (invalid_asset "content type is invalid")
      | Some mediaType =>
          guard_err (negb (bool_decide (trim_space contentType = contentType))
                     || contains_any [chr 13; chr 10] contentType)
            (invalid_asset "content type is invalid");;
          let mediaType := to_lower mediaType in
          guard_err (negb (bool_decide (mediaType ∈ allowedTypes)))
            (invalid_asset "MIME type does not match file extension");;
          Ok (extension, mediaType)
      end
  end.

Definition validateCompleted (policy : Policy) (extension : string) (metadata : Metadata) :
    result unit :=
  guard_err ((md_Size metadata =? 0) || (MaxSize policy <? md_Size metadata))
    (asset_integrity "completed asset size is invalid");;
  match AllowedByExt policy !! extension with
  | None => Er (asset_integrity "completed asset extension is invalid")
  | Some allowedTypes =>
      match ParseMediaType (md_ContentType metadata) with
      | None => Er (asset_integrity "completed asset MIME type is invalid")
      | Some mediaType =>
          guard_err (negb (existsb (EqualFold mediaType) allowedTypes))
            (asset_integrity "completed asset MIME type does not match its extension")
      end
  end.
End policy.

(** ** AssetLogic *)

Record PresignInput := {
  pi_EnvironmentID : Z;
  pi_ProjectID : Z;
  pi_Filename : string;
  pi_ContentType : string;
  pi_Size : Z;
}.

Section logic.
Context `{Engine} `{Collation} `{Store} `{UnicodeLower} `{UUIDLib} `{!Authorizer}.

(** [assetPermissionAdapter] *)
Definition HasEnvironmentPermission (ctx : Context_) (environmentID : Z) (key : string) : M bool :=
  actor ← ActorFromContext (cx_principal ctx) (Some (cx_request_id ctx));
  r ← attempt (Check (UserID actor) environmentID [key]);
  match r with
  | Ok _ => mret true
  | Er e => if is_Forbidden e then mret false else throw e
  end.

(** [projectScope] *)
Definition ProjectExists (environmentID projectID : Z) : M bool :=
  r ← attempt (project_FindByID environmentID projectID);
  match r with
  | Ok _ => mret true
  | Er e => if is_NotFound e then mret false else throw e
  end.

Definition requireAccess (ctx : Context_) (environmentID projectID : Z) : M unit :=
  allowed ← handle (asset_error AssetDependency "check environment permission")
    (HasEnvironmentPermission ctx environmentID PermissionAssetWrite);
  when_err (negb allowed) (EAsset AssetForbidden "");;
  exists_ ← handle (asset_error AssetDependency "check project scope")
    (ProjectExists environmentID projectID);
  when_err (negb exists_) (EAsset AssetProjectMissing "").

(** [newID]: the empty text stands for a random source that failed. *)
Definition newID : M string :=
  id ← random;
  when_err (bool_decide (id = "")) (EOther "random source failed");;
  mret id.

Context {S : Type} `{!ObjectStorage S} (policy : Policy).

Definition asset_Presign (ctx : Context_) (input : PresignInput) : OM S UploadTicket :=
  '(extension, contentType) ←
    o_lift (validateUpload policy (pi_Filename input) (pi_ContentType input) (pi_Size input));
  on_world (requireAccess ctx (pi_EnvironmentID input) (pi_ProjectID input));;
  objectID ← o_handle (asset_error AssetDependency "generate object ID") (on_world newID);
  key ← o_handle (asset_error AssetDependency "generated object key is invalid")
    (o_lift (BuildObjectKey (pi_EnvironmentID input) (pi_ProjectID input) objectID extension));
  o_handle (asset_error AssetDependency "create upload ticket")
    (PresignUpload {| pu_Key := key; pu_ContentType := contentType; pu_Size := pi_Size input;
                      pu_ExpiresIn := UploadLifetime policy |}).

Definition completeObject (key : string) : OM S Metadata :=
  r ← o_attempt (CompleteUpload key);
  match r with
  | Ok metadata => mret metadata
  | Er err =>
      if is_object ObjectMissing err then o_throw (asset_error AssetMissing "" err)
      else if is_object ObjectIntegrity err then
        d ← o_attempt (DeleteIncomplete key);
        match d with
        | Er deleteErr =>
            o_throw (asset_error AssetDependency "remove invalid object" (EJoin err deleteErr))
        | Ok _ =>
            o_throw (asset_error AssetIntegrity "stored metadata differs from upload declaration" err)
        end
      else if is_object ObjectConflicting err then o_throw (asset_error AssetConflicting "" err)
      else o_throw (asset_error AssetDependency "inspect uploaded object" err)
  end.

Definition published_scope (scope : ObjectScope) (metadata : Metadata) : bool :=
  match ParseObjectKey (md_Key metadata) with
  | Ok published =>
      negb (os_Temporary published)
      && (os_EnvironmentID published =? os_EnvironmentID scope)
      && (os_ProjectID published =? os_ProjectID scope)
      && bool_decide (os_Extension published = os_Extension scope)
  | Er _ => false
  end.

Definition validatePublication (scope : ObjectScope) (metadata : Metadata) : OM S unit :=
  o_lift (guard_err (negb (published_scope scope metadata))
            (asset_integrity "storage returned an invalid published object scope"));;
  match validateCompleted policy (os_Extension scope) metadata with
  | Ok _ => mret tt
  | Er err =>
      d ← o_attempt (DeleteIncomplete (md_Key metadata));
      match d with
      | Er deleteErr =>
          o_throw (asset_error AssetDependency "remove invalid object" (EJoin err deleteErr))
      | Ok _ => o_throw err
      end
  end.

Definition asset_Complete (ctx : Context_) (environmentID projectID : Z) (key : string) :
    OM S Metadata :=
  scope ← o_handle (λ _, invalid_asset "object key is invalid") (o_lift (ParseObjectKey key));
  o_lift (guard_err (negb (os_EnvironmentID scope =? environmentID)
                     || negb (os_ProjectID scope =? projectID))
            (EAsset AssetForbidden "object belongs to another environment or project"));;
  on_world (requireAccess ctx environmentID projectID);;
  metadata ← completeObject key;
  validatePublication scope metadata;;
  mret metadata.
End logic.

(** ** service/asset.go *)

Definition assetPublicError (err : Err) : Err :=
  if is_asset AssetInvalid err then EApi InvalidParam "asset request is invalid"
  else if is_asset AssetForbidden err then EApi Forbidden "asset operation is not permitted"
  else if is_asset AssetProjectMissing err || is_asset AssetMissing err
  then EApi NotFound "asset scope was not found"
  else if is_asset AssetConflicting err then EApi Conflict "asset upload was already completed"
  else if is_asset AssetIntegrity err
  then EApi BadRequest "uploaded asset failed integrity validation"
  else EApi Internal "asset operation failed".

Record PresignAssetReply := {
  pr_ObjectKey : string;
  pr_UploadUrl : string;
  pr_Headers : gmap string string;
  pr_ExpiresAt : string;
  pr_UploadMethod : string;
  pr_FormFields : gmap string string;
}.
(** [commonv1.Asset], the only field of the reply to [CompleteAsset]. *)
Record Asset := {
  as_ObjectKey : string;
  as_Url : string;
  as_ContentType : string;
  as_Size : Z;
}.

(** [Format("2006-01-02T15:04:05Z07:00")] of a UTC time: without a fraction. *)
Definition rfc3339 (t : Z) : string := rfc3339nano (t / 10 ^ 9 * 10 ^ 9).

Section service.
Context `{Engine} `{Collation} `{Store} `{UnicodeLower} `{UUIDLib} `{!Authorizer}
  {S : Type} `{!ObjectStorage S}.

Definition PresignAsset (ctx : Context_) (request : PresignAssetRequest) : OM S PresignAssetReply :=
  ticket ← o_handle assetPublicError (asset_Presign DefaultPolicy ctx
    {| pi_EnvironmentID := PresignAsset_EnvironmentId request;
       pi_ProjectID := PresignAsset_ProjectId request;
       pi_Filename := PresignAsset_Filename request;
       pi_ContentType := PresignAsset_ContentType request;
       pi_Size := PresignAsset_Size request |});
  mret {| pr_ObjectKey := ut_Key ticket; pr_UploadUrl := ut_URL ticket;
          pr_Headers := ut_Headers ticket; pr_ExpiresAt := rfc3339 (ut_ExpiresAt ticket);
          pr_UploadMethod := ut_Method ticket; pr_FormFields := ut_FormFields ticket |}.

(** [sameOrigin]: storage behind the server's own address needs it in the URL. *)
Definition assetOrigin (sameOrigin : bool) (trusted : list Prefix)
    (http : option HTTPRequest) : result string :=
  if negb sameOrigin then Ok ""
  else match http with
       | None => Er (EApi Internal "HTTP request is unavailable")
       | Some request =>
           match PublicOrigin trusted request with
           | Er _ => Er (EApi BadRequest "public request address is invalid")
           | Ok origin => Ok origin
           end
       end.

Definition CompleteAsset (sameOrigin : bool) (trusted : list Prefix) (http : option HTTPRequest)
    (ctx : Context_) (request : CompleteAssetRequest) : OM S Asset :=
  origin ← o_lift (assetOrigin sameOrigin trusted http);
  metadata ← o_handle assetPublicError (asset_Complete DefaultPolicy ctx
    (CompleteAsset_EnvironmentId request) (CompleteAsset_ProjectId request)
    (CompleteAsset_ObjectKey request));
  mret {| as_ObjectKey := md_Key metadata; as_Url := origin +:+ md_URL metadata;
          as_ContentType := md_ContentType metadata; as_Size := md_Size metadata |}.
End service.
