(* ===== verification/LocalStore.v ===== *)
(** [server/internal/infra/object/local.go]: the object storage on one server.
    Assets are files under a root directory, each with a metadata file beside
    it; upload tickets carry signed claims.  The file system is a map from paths
    under the root to nodes; every call of it may fail.  HMAC-SHA256 is a
    parameter. *)

From S2P Require Import Prelude GoStd GoStrings Netip Util Json Codec Credential Engine Model Cache Convert World WorldLaws ObjectStore.
From Stdlib Require Import Ascii.

Local Open Scope Z_scope.

(** ** The file system *)

Inductive Node :=
  | Dir
  | File (content : string) (modified : Z)
  | Special.                    (* a symbolic link, a device, ... *)

(** Paths are relative to the root, which is the empty path. *)
Notation FileSystem := (gmap string Node).

Inductive FsErr := ErrNotExist | ErrExist | ErrIO.

Definition path_join (a b : string) : string := if bool_decide (a = "") then b else a +:+ "/" +:+ b.
Definition parent_parts (path : string) : list string := removelast (split_on "/" path).
Definition parent (path : string) : string := sep_concat "/" (parent_parts path).
Definition is_dir (path : string) (fs : FileSystem) : bool :=
  bool_decide (path = "") || match fs !! path with Some Dir => true | _ => false end.

Definition os_Lstat (path : string) (fs : FileSystem) : FsErr + Node :=
  match fs !! path with Some n => inr n | None => inl ErrNotExist end.
Definition os_create (path : string) (n : Node) (fs : FileSystem) : (FsErr + unit) * FileSystem :=
  match fs !! path with
  | Some _ => (inl ErrExist, fs)
  | None => if is_dir (parent path) fs then (inr tt, <[path := n]> fs) else (inl ErrNotExist, fs)
  end.
Definition os_write (path content : string) (modified : Z) (fs : FileSystem) :
    (FsErr + unit) * FileSystem :=
  match fs !! path with
  | Some (File _ _) => (inr tt, <[path := File content modified]> fs)
  | _ => (inl ErrIO, fs)
  end.
(** The new name has the content of the old one, which is written no more. *)
Definition os_Link (old new : string) (fs : FileSystem) : (FsErr + unit) * FileSystem :=
  match fs !! old with
  | Some n => os_create new n fs
  | None => (inl ErrNotExist, fs)
  end.
Definition os_Remove (path : string) (fs : FileSystem) : (FsErr + unit) * FileSystem :=
  match fs !! path with
  | None => (inl ErrNotExist, fs)
  | Some Dir =>
      if bool_decide (map_Forall (λ p _, parent p ≠ path) fs)
      then (inr tt, delete path fs) else (inl ErrIO, fs)
  | Some _ => (inr tt, delete path fs)
  end.
Definition os_ReadFile (path : string) (fs : FileSystem) : FsErr + string :=
  match fs !! path with
  | Some (File content _) => inr content
  | Some _ => inl ErrIO
  | None => inl ErrNotExist
  end.

(** ** LocalStorage *)

Record LocalStorage := {
  ls_files : FileSystem;
  signingKey : string;
}.
Definition with_files (fs : FileSystem) (s : LocalStorage) : LocalStorage :=
  {| ls_files := fs; signingKey := signingKey s |}.

Record localUploadClaims := {
  lc_Key : string;
  lc_ContentType : string;
  lc_Size : Z;
  lc_ExpiresAt : Z;
}.
Record localMetadata := {
  lm_ContentType : string;
  lm_DeclaredContentType : string;
  lm_DeclaredSize : Z;
}.

(** *** JSON of the claims and of the metadata *)

Definition marshal_claims (c : localUploadClaims) : string :=
  json_object [("key", marshal_string (lc_Key c));
               ("content_type", marshal_string (lc_ContentType c));
               ("size", format_int (lc_Size c));
               ("expires_at", format_int (lc_ExpiresAt c))].

(** A number member: [null] leaves the field alone; [parse] is the [strconv]
    function of its type. *)
Definition set_number (parse : string → option Z) (current : Z) (text : string) : option Z :=
  if decide (text = "null") then Some current else parse text.
Definition parse_uint64 (s : string) : option Z :=
  n ← parse_uint s; if n <=? max_uint64 then Some n else None.

Definition set_claim (c : localUploadClaims) (kv : string * string) : option localUploadClaims :=
  let '(k, v) := kv in
  if names_field k "key" then
    x ← set_string (lc_Key c) v;
    Some {| lc_Key := x; lc_ContentType := lc_ContentType c; lc_Size := lc_Size c;
            lc_ExpiresAt := lc_ExpiresAt c |}
  else if names_field k "content_type" then
    x ← set_string (lc_ContentType c) v;
    Some {| lc_Key := lc_Key c; lc_ContentType := x; lc_Size := lc_Size c;
            lc_ExpiresAt := lc_ExpiresAt c |}
  else if names_field k "size" then
    x ← set_number parse_uint64 (lc_Size c) v;
    Some {| lc_Key := lc_Key c; lc_ContentType := lc_ContentType c; lc_Size := x;
            lc_ExpiresAt := lc_ExpiresAt c |}
  else if names_field k "expires_at" then
    x ← set_number parse_int64 (lc_ExpiresAt c) v;
    Some {| lc_Key := lc_Key c; lc_ContentType := lc_ContentType c; lc_Size := lc_Size c;
            lc_ExpiresAt := x |}
  else Some c.

(** [json.Unmarshal] into a zero struct; [null] leaves it alone. *)
Definition unmarshal_struct {A} (zero : A) (set : A → string * string → option A) (text : string) :
    option A :=
  match unmarshal_raw text with
  | Some RNull => Some zero
  | Some (RObject l) => fold_option set l zero
  | _ => None
  end.
Definition unmarshal_claims : string → option localUploadClaims :=
  unmarshal_struct {| lc_Key := ""; lc_ContentType := ""; lc_Size := 0; lc_ExpiresAt := 0 |} set_claim.

(** [Time.MarshalJSON] refuses years of other than four digits. *)
Definition marshal_time (t : Z) : option string :=
  let '(y, _, _) := civil (t / 10 ^ 9 / 86400) in
  if in_range 0 9999 y then Some (String quote (rfc3339nano t +:+ String quote "")) else None.
(** [Time.UnmarshalJSON] reads the text between the quotes as it is. *)
Definition unmarshal_time (text : string) : option unit :=
  if decide (text = "null") then Some tt
  else match text with
       | String c r =>
           inner ← without_last quote r;
           if bool_decide (c = quote) && time_parse_ok rfc3339_layout inner then Some tt else None
       | EmptyString => None
       end.

Definition marshal_metadata (m : localMetadata) (createdAt : Z) : option string :=
  t ← marshal_time createdAt;
  Some (json_object [("content_type", marshal_string (lm_ContentType m));
                     ("declared_content_type", marshal_string (lm_DeclaredContentType m));
                     ("declared_size", format_int (lm_DeclaredSize m));
                     ("created_at", t)]).

Definition set_metadata (m : localMetadata) (kv : string * string) : option localMetadata :=
  let '(k, v) := kv in
  if names_field k "content_type" then
    x ← set_string (lm_ContentType m) v;
    Some {| lm_ContentType := x; lm_DeclaredContentType := lm_DeclaredContentType m;
            lm_DeclaredSize := lm_DeclaredSize m |}
  else if names_field k "declared_content_type" then
    x ← set_string (lm_DeclaredContentType m) v;
    Some {| lm_ContentType := lm_ContentType m; lm_DeclaredContentType := x;
            lm_DeclaredSize := lm_DeclaredSize m |}
  else if names_field k "declared_size" then
    x ← set_number parse_uint64 (lm_DeclaredSize m) v;
    Some {| lm_ContentType := lm_ContentType m;
            lm_DeclaredContentType := lm_DeclaredContentType m; lm_DeclaredSize := x |}
  else if names_field k "created_at" then _ ← unmarshal_time v; Some m
  else Some m.
Definition unmarshal_metadata : string → option localMetadata :=
  unmarshal_struct {| lm_ContentType := ""; lm_DeclaredContentType := ""; lm_DeclaredSize := 0 |}
    set_metadata.

(** *** Tickets *)

(** [hmac.New(sha256.New, key)] applied to a message. *)
Class HMAC := hmac_sha256 : string → string → string.

(** [time.Unix(sec, 0)] counts seconds from year 1 in 64 bits. *)
Definition unix_time (sec : Z) : Z := (wrap64 (sec + 62135596800) - 62135596800) * 10 ^ 9.

Definition invalid_ticket : Err := EOther "invalid upload ticket".

Section tickets.
Context `{HMAC} `{UnicodeLower} `{UUIDLib}.

Definition signClaims (key : string) (claims : localUploadClaims) : string :=
  let encoded := b64_encode (marshal_claims claims) in
  encoded +:+ "." +:+ b64_encode (hmac_sha256 key encoded).

(** [hmac.Equal] is equality. *)
Definition verifyToken (key : string) (now : Z) (token : string) : result localUploadClaims :=
  match split_on "." token with
  | [payload; signature] =>
      guard_err (bool_decide (payload = "") || bool_decide (signature = "")) invalid_ticket;;
      provided ← of_option invalid_ticket (b64_decode signature);
      guard_err (negb (bool_decide (provided = hmac_sha256 key payload))) invalid_ticket;;
      text ← of_option invalid_ticket (b64_decode payload);
      claims ← of_option invalid_ticket (unmarshal_claims text);
      guard_err (negb (is_ok (validatePresignInput
          {| pu_Key := lc_Key claims; pu_ContentType := lc_ContentType claims;
             pu_Size := lc_Size claims; pu_ExpiresIn := 10 ^ 9 |}))) invalid_ticket;;
      guard_err (negb (now <? unix_time (lc_ExpiresAt claims))) (EOther "expired upload ticket");;
      Ok claims
  | _ => Er invalid_ticket
  end.
End tickets.

(** *** Calls of the operating system *)

Section storage.
Context `{Engine} `{Collation} `{Store} `{HMAC} `{UnicodeLower} `{UUIDLib}.

Notation LM := (OM LocalStorage).

Definition unavailable (msg : string) : Err := EObject StorageUnavailable msg.
Definition integrity (msg : string) : Err := EObject ObjectIntegrity msg.

(** A call fails as the schedule of failures says, with or without effect. *)
Definition fs_call {A} (f : FileSystem → (FsErr + A) * FileSystem) : LM (FsErr + A) := λ s w,
  let '(fault, w) := next_fault w in
  let '(r, fs) := f (ls_files s) in
  match fault with
  | None => (Ok r, with_files fs s, w)
  | Some x => (Ok (inl ErrIO), if applied x then with_files fs s else s, w)
  end.
Definition fs_read {A} (f : FileSystem → FsErr + A) : LM (FsErr + A) := fs_call (λ fs, (f fs, fs)).
(** A call whose only result is whether it failed. *)
Definition fs_nothing : LM (FsErr + unit) := fs_read (λ _, inr tt).
Definition checked_call {A} (e : FsErr → Err) (m : LM (FsErr + A)) : LM A :=
  r ← m; match r with inr a => mret a | inl x => o_throw (e x) end.

(** [ctx.Err()] *)
Definition not_canceled : LM unit := checked_call (λ _, ECanceled) fs_nothing.

Definition classifyLocalReadError (e : FsErr) : Err :=
  match e with ErrNotExist => EObject ObjectMissing "" | _ => unavailable "read local object" end.

(** *** Paths *)

Fixpoint over_dirs (step : string → LM unit) (current : string) (parts : list string) : LM unit :=
  match parts with
  | [] => mret tt
  | part :: parts =>
      let current := path_join current part in
      step current;; over_dirs step current parts
  end.

Definition createLocalDirectory (directory : string) : LM Node :=
  r ← fs_call (os_create directory Dir);
  match r with
  | inr _ | inl ErrExist => checked_call (λ _, EOther "lstat") (fs_read (os_Lstat directory))
  | inl _ => o_throw (unavailable "create local object directory")
  end.
Definition safe_directory (current : string) : LM unit :=
  info ← fs_read (os_Lstat current);
  info ← o_attempt (match info with
                    | inl ErrNotExist => createLocalDirectory current
                    | inl _ => o_throw (EOther "lstat")
                    | inr n => mret n
                    end);
  match info with
  | Ok Dir => mret tt
  | _ => o_throw (integrity "local object directory is unsafe")
  end.
Definition createSafeDirectories : list string → LM unit := over_dirs safe_directory "".

Definition no_symlink (current : string) : LM unit :=
  info ← fs_read (os_Lstat current);
  match info with
  | inl ErrNotExist => o_throw (EObject ObjectMissing "")
  | inl _ => o_throw (unavailable "read local object directory")
  | inr Dir => mret tt
  | inr _ => o_throw (integrity "local object directory is unsafe")
  end.
Definition rejectSymlinkPath : list string → LM unit := over_dirs no_symlink "".

(** The path of a key under the root: [filepath.Join] with the root cleans it. *)
Definition safePath (key : string) (createParents : bool) : LM string :=
  o_lift (ParseObjectKey key);;
  let relative := path_clean key in
  o_lift (guard_err (bool_decide (relative = ".") || bool_decide (relative = "..")
                     || String.prefix "../" relative || String.prefix "/" relative)
            (object_invalid "object path escapes storage root"));;
  (if createParents then createSafeDirectories (parent_parts relative)
   else rejectSymlinkPath (parent_parts relative));;
  mret relative.

Definition localMetadataSuffix : string := ".kirby-metadata".

(** *** Reading and deleting *)

Definition regular (msg : string) (n : Node) : LM (string * Z) :=
  match n with File content modified => mret (content, modified) | _ => o_throw (integrity msg) end.

Definition local_ReadMetadata (key : string) : LM Metadata :=
  not_canceled;;
  safePath key false;;
  checked_call classifyLocalReadError fs_nothing;;                       (* os.OpenRoot *)
  info ← checked_call classifyLocalReadError (fs_read (os_Lstat key));
  '(content, modified) ← regular "local object is not a regular file" info;
  let metadataPath := key +:+ localMetadataSuffix in
  metadataInfo ← checked_call classifyLocalReadError (fs_read (os_Lstat metadataPath));
  regular "local metadata is not a regular file" metadataInfo;;
  encoded ← checked_call classifyLocalReadError (fs_read (os_ReadFile metadataPath));
  stored ← o_lift (of_option (integrity "local metadata cannot be decoded")
                     (unmarshal_metadata encoded));
  size ← o_handle (λ _, integrity "local object size is invalid")
           (o_lift (Safeint.Uint64FromInt64 (len content)));
  mret {| md_Key := key; md_URL := LocalObjectPathPrefix +:+ key; md_ETag := "";
          md_ContentType := lm_ContentType stored; md_Size := size;
          md_DeclaredContentType := lm_DeclaredContentType stored;
          md_DeclaredSize := lm_DeclaredSize stored; md_LastModified := modified |}.

Definition local_CompleteUpload (key : string) : LM Metadata :=
  metadata ← local_ReadMetadata key;
  o_lift (validateCompletedMetadata metadata).

(** Both files are removed even when the first removal fails. *)
Definition local_DeleteIncomplete (key : string) : LM unit :=
  not_canceled;;
  objectPath ← safePath key false;
  r1 ← fs_call (os_Remove objectPath);
  r2 ← fs_call (os_Remove (objectPath +:+ localMetadataSuffix));
  match r1, r2 with
  | (inr _ | inl ErrNotExist), (inr _ | inl ErrNotExist) => mret tt
  | _, _ => o_throw (unavailable "remove local object data")
  end.

(** *** Writing *)

(** [os.CreateTemp]: a free name with a random number; the random text stands
    for the number it spells in base 256. *)
Definition text_number (s : string) : Z :=
  foldr (λ c n, byte c + 256 * n) 0 (String.list_ascii_of_string s) mod 2 ^ 32.
Fixpoint create_temp (tries : nat) (directory : string) : LM (FsErr + string) :=
  match tries with
  | O => mret (inl ErrExist)
  | S tries =>
      number ← on_world random;
      let name := path_join directory (".kirby-upload-" +:+ format_int (text_number number)) in
      t ← on_world now;
      r ← fs_call (os_create name (File "" t));
      match r with
      | inr _ => mret (inr name)
      | inl ErrExist => create_temp tries directory
      | inl e => mret (inl e)
      end
  end.
Definition max_tries : nat := 10000.

Definition writeExclusiveFile (path contents : string) : LM unit :=
  t ← on_world now;
  checked_call (λ _, EOther "open") (fs_call (os_create path (File "" t)));;
  w ← fs_call (os_write path contents t);
  match w with
  | inl _ => fs_nothing;; fs_call (os_Remove path);; o_throw (EOther "write")
  | inr _ =>
      c ← fs_nothing;                                                    (* file.Close *)
      match c with
      | inl _ => fs_call (os_Remove path);; o_throw (EOther "close")
      | inr _ => mret tt
      end
  end.

(** The first bytes of the body, at most [n]. *)
Definition limited (n : Z) (body : string) : string :=
  if len body <=? n then body else String.substring 0 (Z.to_nat n) body.

(** From the complete temporary file to the object and its metadata. *)
Definition publish_object (claims : localUploadClaims) (received objectPath temporary : string) :
    LM unit :=
  o_lift (guard_err (negb (len received =? lc_Size claims))
            (integrity "uploaded size does not match declaration"));;
  checked_call (λ _, unavailable "publish local upload") (fs_call (os_Link temporary objectPath));;
  createdAt ← on_world now;
  let stored := {| lm_ContentType := lc_ContentType claims;
                   lm_DeclaredContentType := lc_ContentType claims;
                   lm_DeclaredSize := lc_Size claims |} in
  match marshal_metadata stored createdAt with
  | None =>
      fs_call (os_Remove objectPath);; o_throw (unavailable "encode local upload metadata")
  | Some encoded =>
      r ← o_attempt (writeExclusiveFile (objectPath +:+ localMetadataSuffix) encoded);
      match r with
      | Ok _ => mret tt
      | Er _ =>
          fs_call (os_Remove objectPath);; o_throw (unavailable "publish local upload metadata")
      end
  end.

(** The body into the temporary file. *)
Definition receive_file (claims : localUploadClaims) (body temporary : string) : LM string :=
  secured ← fs_nothing;                                                  (* Chmod *)
  match secured with
  | inl _ => fs_nothing;; o_throw (unavailable "secure local upload")
  | inr _ =>
      match Safeint.Int64FromUint64 (lc_Size claims) with
      | Er _ => fs_nothing;; o_throw (object_invalid "upload size is invalid")
      | Ok limit =>
          if limit =? max_int64 then fs_nothing;; o_throw (object_invalid "upload size is invalid")
          else
            t ← on_world now;
            let received := limited (limit + 1) body in
            copied ← fs_call (os_write temporary received t);
            closed ← fs_nothing;
            match copied, closed with
            | inr _, inr _ => mret received
            | _, _ => o_throw (unavailable "write local upload")
            end
      end
  end.

Definition writeUpload (claims : localUploadClaims) (body : string) : LM unit :=
  not_canceled;;
  objectPath ← safePath (lc_Key claims) true;
  existing ← fs_read (os_Lstat objectPath);
  match existing with
  | inr _ => o_throw (integrity "object already exists")
  | inl ErrNotExist =>
      created ← create_temp max_tries (parent objectPath);
      match created with
      | inl _ => o_throw (unavailable "create local upload")
      | inr temporary =>
          r ← o_attempt (received ← receive_file claims body temporary;
                         publish_object claims received objectPath temporary);
          fs_call (os_Remove temporary);;                                (* deferred *)
          o_lift r
      end
  | inl _ => o_throw (unavailable "inspect local object")
  end.

(** *** ObjectStorage *)

Definition the_key : LM string := λ s w, (Ok (signingKey s), s, w).

Definition local_PresignUpload (input : PresignUploadInput) : LM UploadTicket :=
  not_canceled;;
  contentType ← o_lift (validatePresignInput input);
  t ← on_world now;
  let expiresAt := t + pu_ExpiresIn input in
  let claims := {| lc_Key := pu_Key input; lc_ContentType := contentType;
                   lc_Size := pu_Size input; lc_ExpiresAt := expiresAt / 10 ^ 9 |} in
  key ← the_key;
  mret {| ut_Key := pu_Key input;
          ut_URL := LocalUploadPath +:+ "?token=" +:+ signClaims key claims;
          ut_Method := UploadMethodPut; ut_Headers := {["Content-Type" := contentType]};
          ut_FormFields := ∅; ut_ExpiresAt := expiresAt |}.

(** It overwrites the key with zeros. *)
Definition local_Close : LM unit := λ s w,
  (Ok tt, {| ls_files := ls_files s; signingKey := map_bytes (λ _, chr 0) (signingKey s) |}, w).

#[global] Instance local_storage : ObjectStorage LocalStorage := {|
  PresignUpload := local_PresignUpload;
  CompleteUpload := local_CompleteUpload;
  ReadMetadata := local_ReadMetadata;
  DeleteIncomplete := local_DeleteIncomplete;
  Close := local_Close;
|}.

(** [newLocal] with the files found under the directory; [reached] is whether
    the directory could be resolved and created. *)
Definition newLocal (directory key : string) (reached : bool) (fs : FileSystem) : result LocalStorage :=
  guard_err (blank directory) (EOther "local object storage directory is required");;
  guard_err (len key <? 32)
    (EOther "local upload signing key must contain at least 32 bytes");;
  guard_err (negb reached) (EOther "resolve local object storage directory");;
  Ok {| ls_files := fs; signingKey := key |}.
Definition NewLocal (directory : string) (reached : bool) (fs : FileSystem) : M LocalStorage :=
  key ← handle (EWrap "generate local upload signing key: ") (random_bytes 32);
  lift (newLocal directory key reached fs).

(** *** ServeHTTP *)

Record LocalRequest := {
  lr_Method : string;
  lr_Path : string;
  lr_Header : string → string;
  lr_Query : string → string;
  lr_ContentLength : Z;
  lr_Body : string;
}.
Record Response := {
  rs_Status : Z;
  rs_Headers : list (string * string);
  rs_Body : string;
}.

(** [http.Error] *)
Definition http_error (text : string) (status : Z) : Response :=
  {| rs_Status := status;
     rs_Headers := [("Content-Type", "text/plain; charset=utf-8"); ("X-Content-Type-Options", "nosniff")];
     rs_Body := text +:+ String (chr 10) "" |}.
Definition not_found : Response := http_error "404 page not found" 404.
Definition not_allowed (methods : string) : Response :=
  let r := http_error "method not allowed" 405 in
  {| rs_Status := rs_Status r; rs_Headers := ("Allow", methods) :: rs_Headers r; rs_Body := rs_Body r |}.
Definition server_error : Response := http_error "Internal Server Error" 500.

Definition is_object_error (kind : ObjectError) : Err → bool :=
  errors_is (λ e, match e with EObject k _ => bool_decide (k = kind) | _ => false end).

Definition handleUpload (request : LocalRequest) : LM Response :=
  if negb (bool_decide (lr_Method request = "PUT")) then mret (not_allowed "PUT")
  else if existsb (λ name, negb (bool_decide (lr_Header request name = "")))
            ["Authorization"; "X-Kirby-API-Key"; "Cookie"]
  then mret (http_error "management credentials are not accepted by object storage" 400)
  else
    key ← the_key;
    t ← on_world now;
    match verifyToken key t (lr_Query request "token") with
    | Er _ => mret (http_error "invalid or expired upload ticket" 401)
    | Ok claims =>
        if negb (bool_decide (to_lower <$> ParseMediaType (lr_Header request "Content-Type")
                              = Some (lc_ContentType claims)))
        then mret (http_error "content type does not match upload ticket" 400)
        else if (0 <=? lr_ContentLength request)
                && negb match Safeint.Uint64FromInt64 (lr_ContentLength request) with
                        | Ok contentLength => contentLength =? lc_Size claims
                        | Er _ => false
                        end
        then mret (http_error "content length does not match upload ticket" 400)
        else
          r ← o_attempt (writeUpload claims (lr_Body request));
          match r with
          | Ok _ => mret {| rs_Status := 204; rs_Headers := []; rs_Body := "" |}
          | Er e => mret (if is_object_error ObjectInvalid e || is_object_error ObjectIntegrity e
                          then http_error "Bad Request" 400 else server_error)
          end
    end.

Definition openLocalObject (key : string) : LM string :=
  checked_call (λ _, EOther "open root") fs_nothing;;
  checked_call (λ _, EOther "open") (fs_read (os_ReadFile key)).

(** [http.ServeContent] for a request without range or conditions; a HEAD
    request gets no body. *)
Definition handleObject (request : LocalRequest) : LM Response :=
  if negb (bool_decide (lr_Method request = "GET")) && negb (bool_decide (lr_Method request = "HEAD"))
  then mret (not_allowed "GET, HEAD")
  else
    let key := default (lr_Path request) (cut_prefix LocalObjectPathPrefix (lr_Path request)) in
    r ← o_attempt (local_CompleteUpload key);
    match r with
    | Er e => mret (if is_object_error ObjectMissing e || is_object_error ObjectInvalid e
                    then not_found else server_error)
    | Ok metadata =>
        file ← o_attempt (openLocalObject key);
        match file with
        | Ok content =>
            mret {| rs_Status := 200;
                    rs_Headers := [("Content-Type", md_ContentType metadata);
                                   ("Content-Length", format_int (md_Size metadata));
                                   ("X-Content-Type-Options", "nosniff")];
                    rs_Body := if bool_decide (lr_Method request = "HEAD") then "" else content |}
        | Er _ => mret not_found
        end
    end.

Definition ServeHTTP (request : LocalRequest) : LM Response :=
  if bool_decide (lr_Path request = LocalUploadPath) then handleUpload request
  else match cut_prefix LocalObjectPathPrefix (lr_Path request) with
       | Some _ => handleObject request
       | None => mret not_found
       end.

(** ** The files are all it touches *)

Lemma outward_call {A} (f : FileSystem → (FsErr + A) * FileSystem) : outward (fs_call f).
Proof.
  intros s w r s' w'. unfold fs_call. destruct (next_fault w) as [fault w1] eqn:Hf.
  apply next_fault_store in Hf. destruct (f _) as [x fs]. destruct fault; by intros [= <- <- <-].
Qed.
Lemma outward_read {A} (f : FileSystem → FsErr + A) : outward (fs_read f).
Proof. apply outward_call. Qed.
Lemma outward_checked {A} e (m : LM (FsErr + A)) : outward m → outward (checked_call e m).
Proof. intros Hm. unfold checked_call. apply outward_bind; [done|]. intros []; auto with outward. Qed.
Lemma outward_canceled : outward not_canceled.
Proof. apply outward_checked, outward_read. Qed.
Lemma outward_over_dirs step current parts :
  (∀ p, outward (step p)) → outward (over_dirs step current parts).
Proof.
  intros Hs. revert current. induction parts as [|x l IH]; intros current; simpl; outward. 
Qed.
#[local] Hint Resolve outward_call outward_read outward_checked outward_canceled : outward.
Lemma outward_safePath key create : outward (safePath key create).
Proof.
  unfold safePath, createSafeDirectories, rejectSymlinkPath, safe_directory, createLocalDirectory, no_symlink.
  outward; apply outward_over_dirs; intros; outward.
Qed.
Lemma outward_temp tries directory : outward (create_temp tries directory).
Proof. induction tries; simpl; outward. Qed.
Lemma outward_key : outward the_key.
Proof. by intros s w r s' w' [= <- <- <-]. Qed.
#[local] Hint Resolve outward_safePath outward_temp outward_key : outward.
Lemma outward_local_ReadMetadata key : outward (local_ReadMetadata key).
Proof. unfold local_ReadMetadata, regular, fs_nothing. outward. Qed.
#[local] Hint Resolve outward_local_ReadMetadata : outward.

#[global] Instance local_laws : StorageLaws local_storage.
Proof.
  split; intros; simpl.
  - unfold local_PresignUpload. outward.
  - unfold local_CompleteUpload. outward.
  - outward.
  - unfold local_DeleteIncomplete. outward.
  - by intros s w r s' w' [= <- <- <-].
Qed.
Lemma outward_ServeHTTP request : outward (ServeHTTP request).
Proof.
  unfold ServeHTTP, handleUpload, handleObject, writeUpload, receive_file, publish_object,
    writeExclusiveFile, openLocalObject, local_CompleteUpload, fs_nothing. outward.
Qed.
End storage.
