(* ===== verification/Config.v ===== *)
(** [server/internal/conf/]: the configuration of a server and the checks made
    of it before anything starts; and what is started with it: the secrets of
    the installation ([infra/application_secrets.go],
    [model/application_secrets.go]), the managers of [auth/provider.go], and the
    choices of [infra/storage.go] and [infra/cache/cache.go].  Decoding YAML is
    third-party code, a parameter. *)

From S2P Require Import Prelude GoStd GoStrings Util Json Codec Netip Engine Model Cache World Credential Jwt LogicAuth Middleware Browser ObjectStore.
From Stdlib Require Import Ascii.

Local Open Scope Z_scope.

(** ** The configuration *)

Definition ModeSingle : string := "single".
Definition ModeMulti : string := "multi".
Definition DatabaseDriverMySQL : string := "mysql".
Definition DatabaseDriverPGSQL : string := "pgsql".

(** Durations are nanoseconds; a [Secret] is its text. *)
Record ListenerConfig := {
  li_Address : string;
  li_Timeout : Z;
}.
Record DatabaseConfig := {
  da_Driver : string;
  da_DSN : string;
  da_MaxOpenConns : Z;
  da_MaxIdleConns : Z;
  da_ConnMaxLifetime : Z;
}.
Record RedisConfig := {
  re_Address : string;
  re_Username : string;
  re_Password : string;
  re_DB : Z;
  re_KeyPrefix : string;
}.
Record CacheConfig := {
  ca_Driver : string;
  ca_Redis : RedisConfig;
}.
Record JWTConfig := {
  jw_Issuer : string;
  jw_AccessTTL : Z;
  jw_RefreshTTL : Z;
}.
(** [None] is a nil list. *)
Record SecurityConfig := {
  se_TrustedProxies : option (list string);
}.
Record S3Config := {
  s3_Endpoint : string;
  s3_Region : string;
  s3_Bucket : string;
  s3_AccessKey : string;
  s3_SecretKey : string;
  s3_UseSSL : bool;
  s3_PublicBaseURL : string;
}.
Record ObjectStorageConfig := {
  ob_Driver : string;
  ob_Local_Directory : string;
  ob_S3 : S3Config;
}.
Record Config := {
  co_Mode : string;
  co_HTTP : ListenerConfig;
  co_GRPC : ListenerConfig;
  co_Database : DatabaseConfig;
  co_MySQL : DatabaseConfig;
  co_Cache : CacheConfig;
  co_JWT : JWTConfig;
  co_Security : SecurityConfig;
  co_ObjectStorage : ObjectStorageConfig;
  co_Log_Level : string;
}.

(** [Secret.Empty] *)
Definition secret_Empty : string → bool := blank.

(** ** Validation *)

(** [strings.Contains] *)
Fixpoint contains (text s : string) : bool :=
  String.prefix text s || match s with String _ r => contains text r | EmptyString => false end.

Definition invalid_config (msg : string) : Err := EOther msg.
(** Two alternatives in quotes. *)
Definition either (a b : string) : string :=
  String quote (a +:+ String quote " or ") +:+ String quote (b +:+ String quote "").

Definition validateListener (name : string) (listener : ListenerConfig) : result unit :=
  guard_err (blank (li_Address listener)) (invalid_config (name +:+ ".address is required"));;
  guard_err (li_Timeout listener <=? 0)
    (invalid_config (name +:+ ".timeout must be greater than zero")).

(** [strings.Trim(host, "[]")] *)
Definition bracket (c : ascii) : bool := bool_decide (c ∈ ["["; "]"]%char).
Fixpoint trim_brackets_left (s : string) : string :=
  match s with String c r => if bracket c then trim_brackets_left r else s | EmptyString => "" end.
Fixpoint trim_brackets_right (s : string) : string :=
  match s with
  | EmptyString => ""
  | String c r => match trim_brackets_right r with
                  | EmptyString => if bracket c then "" else String c ""
                  | r => String c r
                  end
  end.
Definition trim_brackets (s : string) : string := trim_brackets_right (trim_brackets_left s).

Section config.
Context `{UnicodeLower}.

Definition normalizeHost (host : string) : string :=
  if bool_decide (trim_space (trim_brackets host) ∈ [""; "0.0.0.0"; "::"]) then "*" else to_lower host.
Definition listenerAddressesConflict (first second : string) : bool :=
  match SplitHostPort (trim_space first), SplitHostPort (trim_space second) with
  | Some (firstHost, firstPort), Some (secondHost, secondPort) =>
      if bool_decide (firstPort = secondPort)
      then bool_decide (normalizeHost firstHost = normalizeHost secondHost)
      else bool_decide (trim_space first = trim_space second)
  | _, _ => bool_decide (trim_space first = trim_space second)
  end.

Definition cache_validate (c : CacheConfig) : result unit :=
  if bool_decide (ca_Driver c = "memory") then Ok tt
  else if bool_decide (ca_Driver c = "redis") then
    guard_err (blank (re_Address (ca_Redis c))) (invalid_config "cache.redis.address is required");;
    guard_err (re_DB (ca_Redis c) <? 0) (invalid_config "cache.redis.db cannot be negative");;
    guard_err (blank (re_KeyPrefix (ca_Redis c))) (invalid_config "cache.redis.key_prefix is required")
  else Er (invalid_config ("cache.driver must be " +:+ either "memory" "redis")).

Definition jwt_validate (c : JWTConfig) : result unit :=
  guard_err (blank (jw_Issuer c)) (invalid_config "jwt.issuer is required");;
  guard_err (jw_AccessTTL c <=? 0) (invalid_config "jwt.access_ttl must be greater than zero");;
  guard_err (jw_RefreshTTL c <=? jw_AccessTTL c)
    (invalid_config "jwt.refresh_ttl must be greater than access_ttl").

Definition security_validate (c : SecurityConfig) : result unit :=
  ParseTrustedProxyCIDRs (se_TrustedProxies c);; Ok tt.

(** *** Addresses of the object storage *)

(** A port, when there is one, is a number up to 65535. *)
Definition valid_port (host : string) : bool :=
  let port := (split_host_port host).2 in
  bool_decide (port = "") ||
  match parse_int64 port with Some value => in_range 1 65535 value | None => false end.

(** The text has no slash, question mark, number sign or at sign, so that the
    parsed URL has no path, query, fragment or user. *)
Definition validateEndpoint (name endpoint : string) : result unit :=
  let no_host := invalid_config (name +:+ " must be a host with optional port and no scheme or path") in
  guard_err (negb (bool_decide (trim_space endpoint = endpoint)) || bool_decide (endpoint = "")
             || contains "://" endpoint
             || contains_any ["/"; "?"; "#"; "@"; backslash; "*"]%char endpoint) no_host;;
  match url_Parse ("http://" +:+ endpoint) with
  | None => Er no_host
  | Some parsed =>
      guard_err (negb (bool_decide (u_Host parsed = endpoint))
                 || bool_decide ((split_host_port (u_Host parsed)).1 = "")
                 || bool_decide (trim_suffix (u_Host parsed) ":" ≠ u_Host parsed)) no_host;;
      guard_err (negb (valid_port (u_Host parsed)))
        (invalid_config (name +:+ " port must be between 1 and 65535"))
  end.

(** The bytes of user information before an at sign. *)
Definition user_byte (c : ascii) : bool :=
  is_alnum c || bool_decide (c ∈ ["-"; "."; "_"; ":"; "~"; "!"; "$"; "&"; "'"; "("; ")"; "*"; "+"; ",";
                                  ";"; "="; "%"; "@"]%char).

(** What follows the path of a URL. *)
Definition behind_path (value : string) : string :=
  match cut "?" (before "#" value) with Some (_, q) => String "?" q | None => "" end
  +:+ match cut "#" value with Some (_, f) => String "#" f | None => "" end.

(** A URL with what [url_Parse] leaves out: whether it has a user, and its path
    as it is written. *)
Definition parse_base (value : string) : option (URL * bool * string) :=
  found ← get_scheme true (before "#" value);
  let '(scheme, rest) := default ("", before "#" value) found in
  let rest := before "?" rest in
  match cut_prefix "//" rest with
  | None => parsed ← url_Parse value; Some (parsed, false, rest)
  | Some r =>
      let authority := before "/" r in
      let path := match cut "/" r with Some (_, p) => String "/" p | None => "" end in
      match cut_last "@" authority with
      | None => parsed ← url_Parse value; Some (parsed, false, path)
      | Some (user, host) =>
          if forall_bytes user_byte user && valid_escapes user
          then parsed ← url_Parse (scheme +:+ "://" +:+ host +:+ path +:+ behind_path value); Some (parsed, true, path)
          else None
      end
  end.

(** [url.URL.Path]: the path without its escapes, which are valid. *)
Fixpoint unescape_path (s : string) : string :=
  match s with
  | EmptyString => ""
  | String "%" (String a (String b r)) =>
      match hex_value a, hex_value b with
      | Some x, Some y => String (chr (x * 16 + y)) (unescape_path r)
      | _, _ => ""
      end
  | String c r => String c (unescape_path r)
  end.
(** The bytes that a path has as they are. *)
Definition path_byte (c : ascii) : bool :=
  is_alnum c || bool_decide (c ∈ ["-"; "_"; "."; "~"; "$"; "&"; "+"; ","; "/"; ":"; ";"; "="; "@"]%char).
Fixpoint escape_path (s : string) : string :=
  match s with
  | EmptyString => ""
  | String c r =>
      if path_byte c then String c (escape_path r)
      else String "%" (String (upper_hex (byte c / 16))
             (String (upper_hex (byte c mod 16)) (escape_path r)))
  end.

Definition validatePublicBaseURL (value : string) : result unit :=
  let name := "object_storage.s3.public_base_url" in
  let canonical := invalid_config (name +:+ " path must be canonical") in
  guard_err (negb (bool_decide (trim_space value = value)) || bool_decide (value = "")
             || contains_any [backslash; "*"%char; chr 13; chr 10; chr 9] value)
    (invalid_config (name +:+ " is required"));;
  match parse_base value with
  | None => Er (invalid_config (name +:+ " must be an absolute HTTP or HTTPS URL"))
  | Some (parsed, user, raw) =>
      let path := unescape_path raw in
      guard_err (negb (bool_decide (u_Scheme parsed ∈ ["http"; "https"])) || bool_decide (u_Host parsed = "")
                 || bool_decide ((split_host_port (u_Host parsed)).1 = ""))
        (invalid_config (name +:+ " must be an absolute HTTP or HTTPS URL"));;
      guard_err user (invalid_config (name +:+ " cannot contain user information"));;
      guard_err (has_byte "?" (before "#" value)
                 || negb (bool_decide (match cut "#" value with Some (_, f) => f | None => "" end = "")))
        (invalid_config (name +:+ " cannot contain a query or fragment"));;
      guard_err (negb (bool_decide (escape_path path = raw)) || contains "//" path) canonical;;
      let trimmedPath := trim_suffix path "/" in
      guard_err (bool_decide (trimmedPath ≠ "") && bool_decide (path_clean path ≠ trimmedPath)) canonical;;
      guard_err (bool_decide (trim_suffix (u_Host parsed) ":" ≠ u_Host parsed))
        (invalid_config (name +:+ " port cannot be empty"));;
      guard_err (negb (valid_port (u_Host parsed)))
        (invalid_config (name +:+ " port must be between 1 and 65535"))
  end.

Definition s3_Validate (c : S3Config) : result unit :=
  validateEndpoint "object_storage.s3.endpoint" (s3_Endpoint c);;
  guard_err (blank (s3_Bucket c)) (invalid_config "object_storage.s3.bucket is required");;
  guard_err (secret_Empty (s3_AccessKey c) || secret_Empty (s3_SecretKey c))
    (invalid_config "object_storage.s3 access_key and secret_key are required");;
  if bool_decide (s3_PublicBaseURL c = "") then Ok tt else validatePublicBaseURL (s3_PublicBaseURL c).

Definition storage_validate (c : ObjectStorageConfig) : result unit :=
  if bool_decide (ob_Driver c = "local") then
    guard_err (blank (ob_Local_Directory c))
      (invalid_config "object_storage.local.directory is required")
  else if bool_decide (ob_Driver c = "s3") then s3_Validate (ob_S3 c)
  else Er (invalid_config ("object_storage.driver must be " +:+ either "local" "s3")).

(** *** The whole *)

(** The settings of the database, under their old name when only that is used;
    the flag says whether it is. *)
Definition chosen_database (c : Config) : DatabaseConfig * bool :=
  let d := co_Database c in
  let m := co_MySQL c in
  if bool_decide (da_Driver d = "") && negb (secret_Empty (da_DSN m)) then
    ({| da_Driver := if bool_decide (da_Driver m = "") then DatabaseDriverMySQL else da_Driver m;
        da_DSN := da_DSN m; da_MaxOpenConns := da_MaxOpenConns m; da_MaxIdleConns := da_MaxIdleConns m;
        da_ConnMaxLifetime := da_ConnMaxLifetime m |}, true)
  else (d, false).

Definition validate_database (c : Config) : result unit :=
  guard_err (bool_decide (da_Driver (co_Database c) = "") && secret_Empty (da_DSN (co_Database c))
             && bool_decide (da_Driver (co_MySQL c) = "") && secret_Empty (da_DSN (co_MySQL c)))
    (invalid_config "mysql.dsn is required");;
  let '(database, legacyDatabase) := chosen_database c in
  guard_err (negb (bool_decide (da_Driver database ∈ [DatabaseDriverMySQL; DatabaseDriverPGSQL])))
    (invalid_config ("database.driver must be " +:+ either DatabaseDriverMySQL DatabaseDriverPGSQL));;
  guard_err (secret_Empty (da_DSN database))
    (invalid_config (if legacyDatabase : bool then "mysql.dsn is required" else "database.dsn is required"));;
  guard_err (da_MaxOpenConns database <=? 0)
    (invalid_config "database.max_open_conns must be greater than zero");;
  guard_err ((da_MaxIdleConns database <? 0) || (da_MaxOpenConns database <? da_MaxIdleConns database))
    (invalid_config "database.max_idle_conns must be between zero and max_open_conns");;
  guard_err (da_ConnMaxLifetime database <=? 0)
    (invalid_config "database.conn_max_lifetime must be greater than zero").

Definition config_Validate (c : Config) : result unit :=
  guard_err (negb (bool_decide (co_Mode c ∈ [ModeSingle; ModeMulti])))
    (invalid_config ("mode must be " +:+ either ModeSingle ModeMulti));;
  validateListener "http" (co_HTTP c);;
  validateListener "grpc" (co_GRPC c);;
  guard_err (listenerAddressesConflict (li_Address (co_HTTP c)) (li_Address (co_GRPC c)))
    (invalid_config "http.address and grpc.address must use different listeners");;
  validate_database c;;
  cache_validate (co_Cache c);;
  jwt_validate (co_JWT c);;
  security_validate (co_Security c);;
  storage_validate (co_ObjectStorage c);;
  guard_err (bool_decide (co_Mode c = ModeMulti) && negb (bool_decide (ca_Driver (co_Cache c) = "redis")))
    (invalid_config "mode=multi requires cache.driver=redis");;
  guard_err (bool_decide (co_Mode c = ModeMulti)
             && negb (bool_decide (ob_Driver (co_ObjectStorage c) = "s3")))
    (invalid_config "mode=multi requires object_storage.driver=s3").

(** ** load.go *)

Definition ConfigFileEnvironment : string := "KIRBY_CONFIG_FILE".

(** [lookupEnv] may be nil. *)
Definition ResolvePath (flagPath : string) (lookupEnv : option (string → option string)) : result string :=
  if negb (blank flagPath) then Ok (path_clean flagPath)
  else
    match lookupEnv ≫= (λ f, f ConfigFileEnvironment) with
    | Some value =>
        guard_err (blank value)
          (invalid_config "configuration path is required via --config or KIRBY_CONFIG_FILE");;
        Ok (path_clean value)
    | None => Er (invalid_config "configuration path is required via --config or KIRBY_CONFIG_FILE")
    end.

(** [yaml.Decoder] with [KnownFields]: the first document as a configuration,
    and what the next [Decode] says of the rest; [None] is the end of the
    file. *)
Class YAML := {
  decode_config : string → result (Config * string);
  decode_next : string → option (result unit);
}.

Definition with_database (d : DatabaseConfig) (c : Config) : Config :=
  {| co_Mode := co_Mode c; co_HTTP := co_HTTP c; co_GRPC := co_GRPC c; co_Database := d;
     co_MySQL := co_MySQL c; co_Cache := co_Cache c; co_JWT := co_JWT c; co_Security := co_Security c;
     co_ObjectStorage := co_ObjectStorage c; co_Log_Level := co_Log_Level c |}.
(** Settings under the old name are always those of a MySQL database. *)
Definition legacy_database (c : Config) : Config :=
  if bool_decide (da_Driver (co_Database c) = "") && negb (secret_Empty (da_DSN (co_MySQL c))) then
    let m := co_MySQL c in
    with_database {| da_Driver := DatabaseDriverMySQL; da_DSN := da_DSN m;
                     da_MaxOpenConns := da_MaxOpenConns m; da_MaxIdleConns := da_MaxIdleConns m;
                     da_ConnMaxLifetime := da_ConnMaxLifetime m |} c
  else c.

(** [%q], for a path of printable characters. *)
Definition quoted_path (path : string) : string := String quote (path +:+ String quote "").

(** [read] gives the contents of a file, or fails. *)
Definition LoadFile `{YAML} (read : string → result string) (path : string) : result Config :=
  text ← wrap_err ("open config " +:+ quoted_path path +:+ ": ") (read path);
  '(cfg, rest) ← wrap_err ("decode config " +:+ quoted_path path +:+ ": ") (decode_config text);
  let cfg := legacy_database cfg in
  match decode_next rest with
  | Some (Ok _) =>
      Er (invalid_config ("decode config " +:+ quoted_path path +:+ ": multiple YAML documents are not allowed"))
  | Some (Er e) => Er (EWrap ("decode config " +:+ quoted_path path +:+ ": ") e)
  | None =>
      wrap_err ("validate config " +:+ quoted_path path +:+ ": ") (config_Validate cfg);;
      Ok cfg
  end.
Definition Load `{YAML} (read : string → result string) (flagPath : string)
    (lookupEnv : option (string → option string)) : result Config :=
  path ← ResolvePath flagPath lookupEnv;
  LoadFile read path.
End config.

(** ** What is started with a configuration *)

(** *** [encoding/hex] *)

Fixpoint hex_EncodeToString (s : string) : string :=
  match s with
  | EmptyString => ""
  | String c r => String (hex_digit (byte c / 16)) (String (hex_digit (byte c mod 16)) (hex_EncodeToString r))
  end.
Fixpoint hex_DecodeString (s : string) : option string :=
  match s with
  | EmptyString => Some ""
  | String a (String b r) =>
      x ← hex_val a; y ← hex_val b; String (chr (x * 16 + y)) <$> hex_DecodeString r
  | String _ EmptyString => None
  end.

(** *** The secrets of the installation *)

Section secrets.
Context `{Engine} `{Collation} `{Store}.

Definition generateApplicationSecrets : M ApplicationSecretsRow :=
  entropy ← handle (EWrap "generate application secrets: ") (random_bytes 80);
  mret {| sec_ID := 1;
          sec_JWTKeyID := hex_EncodeToString (String.substring 0 16 entropy);
          sec_JWTSigningKey := hex_EncodeToString (String.substring 16 32 entropy);
          sec_APIKeyPepper := hex_EncodeToString (String.substring 48 32 entropy);
          sec_AdminInitialized := false |}.

Definition secret_size (value : string) (size : Z) : bool :=
  match hex_DecodeString value with Some decoded => len decoded =? size | None => false end.
Definition validateApplicationSecrets (secrets : ApplicationSecretsRow) : result unit :=
  each (λ '(name, value, size),
      guard_err (negb (secret_size value size))
        (EOther ("stored application secret " +:+ name +:+ " is invalid")))
    [("jwt_key_id", sec_JWTKeyID secrets, 16); ("jwt_signing_key", sec_JWTSigningKey secrets, 32);
     ("api_key_pepper", sec_APIKeyPepper secrets, 32)].

Definition ProvideApplicationSecrets : M ApplicationSecretsRow :=
  secrets ← handle (EWrap "load application secrets: ")
    (get (λ d, head (select (λ s, sec_ID s =? 1) (application_secrets d))));
  match secrets with
  | None => throw (EOther "application secrets are missing; restore the installation secrets from backup")
  | Some secrets => lift (validateApplicationSecrets secrets);; mret secrets
  end.
End secrets.

(** *** auth/provider.go *)

Definition ProvideJWTManager (cfg : Config) (secrets : ApplicationSecretsRow) : result Manager :=
  jwt_New {| jc_Issuer := jw_Issuer (co_JWT cfg); jc_ActiveKID := sec_JWTKeyID secrets;
             jc_AccessTTL := jw_AccessTTL (co_JWT cfg);
             jc_Keys := {[ sec_JWTKeyID secrets := sec_JWTSigningKey secrets ]} |}.
(** The pepper of the credential manager. *)
Definition ProvideCredentialManager (secrets : ApplicationSecretsRow) : result string :=
  guard_err (len (sec_APIKeyPepper secrets) <? 32)
    (EOther "API key pepper must contain at least 32 bytes");;
  Ok (sec_APIKeyPepper secrets).

(** *** The database and the cache *)

(** The settings [infra.Open] opens the database with. *)
Definition opened_database (cfg : Config) : DatabaseConfig :=
  if bool_decide (da_Driver (co_Database cfg) = "") then
    let m := co_MySQL cfg in
    {| da_Driver := if bool_decide (da_Driver m = "") then DatabaseDriverMySQL else da_Driver m;
       da_DSN := da_DSN m; da_MaxOpenConns := da_MaxOpenConns m; da_MaxIdleConns := da_MaxIdleConns m;
       da_ConnMaxLifetime := da_ConnMaxLifetime m |}
  else co_Database cfg.

(** What [cache.Open] returns: the store of one process, or the prefix of the
    keys in a shared one, when the server of that store answers. *)
Inductive CacheChoice :=
  | CacheMemory
  | CacheRedis (prefix : string).
Definition cache_Open (cfg : CacheConfig) (ping : result unit) : result CacheChoice :=
  if bool_decide (ca_Driver cfg = "memory") then Ok CacheMemory
  else if bool_decide (ca_Driver cfg = "redis") then
    guard_err (bool_decide (re_Address (ca_Redis cfg) = "")) (EOther "redis address is required");;
    guard_err (bool_decide (re_KeyPrefix (ca_Redis cfg) = "")) (EOther "redis key prefix is required");;
    wrap_err "connect to Redis: " ping;;
    Ok (CacheRedis (re_KeyPrefix (ca_Redis cfg)))
  else Er (EOther "unsupported cache driver").
