(* ===== verification/S3Store.v ===== *)
(** [server/internal/infra/object/s3.go]: assets in an S3-compatible store, and
    [storage.go]'s choice of a provider.  The MinIO client is third-party code:
    its calls are the interface [S3Client] over a state of its own. *)

From S2P Require Import Prelude GoStd GoStrings Util Json Codec Netip Engine Model Cache World WorldLaws ObjectStore Middleware Browser Config LocalStore.
From Stdlib Require Import Ascii.

Local Open Scope Z_scope.

(** ** The client *)

(** What [minio.ToErrorResponse] and [errors.Is] say of an error; the flag is
    for a cancelled or expired context. *)
Record ProviderError := {
  pe_Canceled : bool;
  pe_Code : string;
  pe_StatusCode : Z;
}.

(** [minio.ObjectInfo]; the user metadata are listed in the order in which Go
    visits the map. *)
Record ObjectInfo := {
  oi_Size : Z;
  oi_ETag : string;
  oi_ContentType : string;
  oi_UserMetadata : list (string * string);
  oi_LastModified : Z;
}.
(** [None] is the zero time. *)
Record UploadInfo := {
  ui_ETag : string;
  ui_LastModified : option Z;
}.
Record PutObjectOptions := {
  po_ContentType : string;
  po_UserMetadata : gmap string string;
  po_DisableMultipart : bool;
  po_MatchETagExcept : string;
}.

Section client.
Context `{Engine} `{Collation} `{Store}.

(** A call of the client, which may change the store. *)
Definition Call (S A : Type) : Type := S → World → (ProviderError + A) * S * World.

Class S3Client (S : Type) := {
  PostPolicy : Type;
  NewPostPolicy : PostPolicy;
  SetBucket : string → PostPolicy → option PostPolicy;
  SetKey : string → PostPolicy → option PostPolicy;
  SetExpires : Z → PostPolicy → option PostPolicy;
  SetContentType : string → PostPolicy → option PostPolicy;
  SetContentLengthRange : Z → Z → PostPolicy → option PostPolicy;
  SetUserMetadata : string → string → PostPolicy → option PostPolicy;
  PresignedPostPolicy : PostPolicy → Call S (gmap string string);
  GetObjectOptions : Type;
  NoGetOptions : GetObjectOptions;
  SetMatchETag : string → GetObjectOptions → ProviderError + GetObjectOptions;
  Reader : Type;
  StatObject : string → string → Call S ObjectInfo;
  GetObject : string → string → GetObjectOptions → Call S Reader;
  PutObject : string → string → Reader → Z → PutObjectOptions → Call S UploadInfo;
  RemoveObject : string → string → Call S unit;
  BucketExists : string → Call S bool;
}.
End client.

(** ** s3.go *)

Definition declaredSizeMetadata : string := "kirby-declared-size".
Definition declaredContentTypeMetadata : string := "kirby-declared-content-type".
Definition declaredSizeHeader : string := "X-Amz-Meta-Kirby-Declared-Size".
Definition declaredContentTypeHeader : string := "X-Amz-Meta-Kirby-Declared-Content-Type".

(** [^[A-Za-z0-9_.-]{1,128}$] *)
Definition safeProviderCode (code : string) : bool :=
  in_range 1 128 (len code)
  && forall_bytes (λ c, is_alnum c || bool_decide (c ∈ ["_"; "."; "-"]%char)) code.

Definition safeS3Error (operation : string) (err : ProviderError) : Err :=
  if pe_Canceled err then ECanceled
  else if bool_decide (pe_Code err ∈ ["NoSuchKey"; "NoSuchObject"]) || (pe_StatusCode err =? 404)
  then EObject ObjectMissing operation
  else if bool_decide (pe_Code err ∈ ["PreconditionFailed"; "ConditionNotMet"]) || (pe_StatusCode err =? 412)
  then EObject ObjectConflicting operation
  else EObject StorageUnavailable
         (if safeProviderCode (pe_Code err)
          then operation +:+ " (provider code " +:+ pe_Code err +:+ ")" else operation).

(** The base of public URLs: the parsed [PublicBaseURL], all empty without it. *)
Record PublicBase := {
  pb_Scheme : string;
  pb_Host : string;
  pb_Path : string;
}.
Record S3Storage := {
  bucket : string;
  publicBaseURL : PublicBase;
}.

(** [path.Join]: the elements that are not empty, cleaned. *)
Definition path_Join (elements : list string) : string :=
  match filter (λ e, e ≠ "") elements with
  | [] => ""
  | elements => path_clean (sep_concat "/" elements)
  end.

(** [URL.String] of a URL that has a host or a path that starts with a slash. *)
Definition base_String (base : PublicBase) : string :=
  let path := escape_path (pb_Path base) in
  if bool_decide (pb_Host base = "") then path
  else pb_Scheme base +:+ "://" +:+ escape_host (pb_Host base)
       +:+ (if bool_decide (path = "") || has_prefix "/" path then path else "/" +:+ path).

Definition publicURL (s : S3Storage) (key : string) : string :=
  let base := publicBaseURL s in
  base_String {| pb_Scheme := pb_Scheme base; pb_Host := pb_Host base;
                 pb_Path := if bool_decide (pb_Host base = "") then path_Join ["/"; bucket s; key]
                            else path_Join [pb_Path base; key] |}.

Section s3.
Context `{Engine} `{Collation} `{Store} `{UnicodeLower} `{UUIDLib} {S : Type} `{!S3Client S}.

Definition metadataValue (metadata : list (string * string)) (name : string) : string :=
  let wanted := to_lower (default name (cut_prefix "X-Amz-Meta-" name)) in
  let normalized key := to_lower (default (to_lower key) (cut_prefix "x-amz-meta-" (to_lower key))) in
  default "" (snd <$> head (filter (λ kv, normalized kv.1 = wanted) metadata)).

(** A call whose failure ends the operation, and one whose failure does not
    matter. *)
Definition s3_call {A} (operation : string) (c : Call S A) : OM S A := λ s w,
  let '(r, s, w) := c s w in
  (match r with inr a => Ok a | inl e => Er (safeS3Error operation e) end, s, w).
Definition s3_ignored {A} (c : Call S A) : OM S unit := λ s w,
  let '(_, s, w) := c s w in (Ok tt, s, w).

Definition OpenObject (bucket key etag : string) : Call S Reader := λ s w,
  match SetMatchETag etag NoGetOptions with
  | inl e => (inl e, s, w)
  | inr options => GetObject bucket key options s w
  end.

Record objectWriteInput := {
  ow_Bucket : string;
  ow_Key : string;
  ow_Source : Reader;
  ow_Size : Z;
  ow_ContentType : string;
  ow_Metadata : gmap string string;
}.
Definition PutObjectIfAbsent (input : objectWriteInput) : Call S UploadInfo :=
  PutObject (ow_Bucket input) (ow_Key input) (ow_Source input) (ow_Size input)
    {| po_ContentType := ow_ContentType input; po_UserMetadata := ow_Metadata input;
       po_DisableMultipart := true; po_MatchETagExcept := "*" |}.

(** [minio.New] may refuse its options. *)
Definition NewS3 (cfg : S3Config) (created : bool) : result S3Storage :=
  s3_Validate cfg;;
  guard_err (negb created) (EOther "create S3 client: invalid configuration");;
  base ← (if bool_decide (s3_PublicBaseURL cfg = "")
          then Ok {| pb_Scheme := ""; pb_Host := ""; pb_Path := "" |}
          else match parse_base (s3_PublicBaseURL cfg) with
               | Some (parsed, _, raw) =>
                   Ok {| pb_Scheme := u_Scheme parsed; pb_Host := u_Host parsed;
                         pb_Path := unescape_path raw |}
               | None => Er (EOther "parse S3 public base URL: invalid configuration")
               end);
  Ok {| bucket := s3_Bucket cfg; publicBaseURL := base |}.

Section storage.
Context (s3 : S3Storage).

Definition bucketExists : OM S bool := s3_call "check S3 bucket" (BucketExists (bucket s3)).

Definition s3_ReadMetadata (key : string) : OM S Metadata :=
  scope ← o_lift (ParseObjectKey key);
  info ← s3_call "read S3 object metadata" (StatObject (bucket s3) key);
  o_lift (guard_err (oi_Size info <? 0) (EObject ObjectIntegrity "S3 object size is invalid"));;
  o_lift (guard_err (blank (oi_ETag info)) (EObject ObjectIntegrity "S3 object ETag is missing"));;
  declaredSize ← o_lift (of_option (EObject ObjectIntegrity "S3 object size declaration is invalid")
                   (parse_uint64 (metadataValue (oi_UserMetadata info) declaredSizeHeader)));
  o_lift (guard_err (declaredSize =? 0) (EObject ObjectIntegrity "S3 object size declaration is invalid"));;
  let declaredContentType := metadataValue (oi_UserMetadata info) declaredContentTypeHeader in
  o_lift (guard_err (bool_decide (declaredContentType = ""))
            (EObject ObjectIntegrity "S3 content type declaration is missing"));;
  objectSize ← o_handle (λ _, EObject ObjectIntegrity "S3 object size is invalid")
                 (o_lift (Safeint.Uint64FromInt64 (oi_Size info)));
  mret {| md_Key := key; md_URL := if os_Temporary scope then "" else publicURL s3 key;
          md_ETag := oi_ETag info; md_ContentType := oi_ContentType info; md_Size := objectSize;
          md_DeclaredContentType := declaredContentType; md_DeclaredSize := declaredSize;
          md_LastModified := oi_LastModified info |}.

(** The policy of one upload; every setting may be refused. *)
Definition upload_policy (uploadKey : string) (expiresAt : Z) (contentType : string) (size : Z) :
    option PostPolicy :=
  policy ← SetBucket (bucket s3) NewPostPolicy;
  policy ← SetKey uploadKey policy;
  policy ← SetExpires expiresAt policy;
  policy ← SetContentType contentType policy;
  policy ← SetContentLengthRange 1 MaxUploadSize policy;
  policy ← SetUserMetadata declaredSizeMetadata (format_int size) policy;
  SetUserMetadata declaredContentTypeMetadata contentType policy.

Definition s3_PresignUpload (input : PresignUploadInput) : OM S UploadTicket :=
  contentType ← o_lift (validatePresignInput input);
  scope ← o_lift (match ParseObjectKey (pu_Key input) with
                  | Ok scope => if os_Temporary scope
                                then Er (object_invalid "S3 presign requires a final scoped key")
                                else Ok scope
                  | Er _ => Er (object_invalid "S3 presign requires a final scoped key")
                  end);
  uploadKey ← o_lift (BuildUploadObjectKey (os_EnvironmentID scope) (os_ProjectID scope)
                        (os_ObjectID scope) (os_Extension scope));
  t ← on_world now;
  let expiresAt := t + pu_ExpiresIn input in
  policy ← o_lift (of_option (object_invalid "build S3 upload policy")
                     (upload_policy uploadKey expiresAt contentType (pu_Size input)));
  formFields ← s3_call "presign S3 upload" (PresignedPostPolicy policy);
  mret {| ut_Key := uploadKey; ut_URL := "/" +:+ bucket s3 +:+ "/"; ut_Method := UploadMethodPost;
          ut_Headers := ∅; ut_FormFields := formFields; ut_ExpiresAt := expiresAt |}.

(** From the validated temporary object to the published one. *)
Definition publish (key finalKey : string) (metadata : Metadata) : OM S Metadata :=
  source ← s3_call "open validated S3 upload" (OpenObject (bucket s3) key (md_ETag metadata));
  publishSize ← o_handle (λ _, EObject ObjectIntegrity "S3 object size is invalid")
                  (o_lift (Safeint.Int64FromUint64 (md_Size metadata)));
  publishInfo ← s3_call "publish S3 object" (PutObjectIfAbsent
    {| ow_Bucket := bucket s3; ow_Key := finalKey; ow_Source := source; ow_Size := publishSize;
       ow_ContentType := md_ContentType metadata;
       ow_Metadata := {[ declaredSizeMetadata := format_int (md_DeclaredSize metadata);
                         declaredContentTypeMetadata := md_DeclaredContentType metadata ]} |});
  s3_ignored (RemoveObject (bucket s3) key);;
  mret {| md_Key := finalKey; md_URL := publicURL s3 finalKey; md_ETag := ui_ETag publishInfo;
          md_ContentType := md_ContentType metadata; md_Size := md_Size metadata;
          md_DeclaredContentType := md_DeclaredContentType metadata;
          md_DeclaredSize := md_DeclaredSize metadata;
          md_LastModified := default (md_LastModified metadata) (ui_LastModified publishInfo) |}.

Definition s3_CompleteUpload (key : string) : OM S Metadata :=
  scope ← o_lift (ParseObjectKey key);
  o_lift (guard_err (negb (os_Temporary scope))
            (object_invalid "only temporary S3 upload keys can be completed"));;
  metadata ← s3_ReadMetadata key;
  metadata ← o_lift (validateCompletedMetadata metadata);
  finalKey ← o_handle (λ _, EObject StorageUnavailable "generate final S3 object key")
    (o_lift (BuildObjectKey (os_EnvironmentID scope) (os_ProjectID scope) (os_ObjectID scope)
               (os_Extension scope)));
  publish key finalKey metadata.

Definition s3_DeleteIncomplete (key : string) : OM S unit :=
  o_lift (ParseObjectKey key);;
  s3_call "remove incomplete S3 object" (RemoveObject (bucket s3) key).

Definition s3_Close : OM S unit := mret tt.

#[local] Instance s3_storage : ObjectStorage S := {|
  PresignUpload := s3_PresignUpload;
  CompleteUpload := s3_CompleteUpload;
  ReadMetadata := s3_ReadMetadata;
  DeleteIncomplete := s3_DeleteIncomplete;
  Close := s3_Close;
|}.
End storage.

(** ** What the server relies on *)

(** The client talks to the remote store: its calls leave the rows and the cache
    of the server alone. *)
Definition remote {A} (c : Call S A) : Prop :=
  ∀ s w r s' w', c s w = (r, s', w') → same_store w w'.
Class S3Remote := {
  remote_PresignedPostPolicy policy : remote (PresignedPostPolicy policy);
  remote_StatObject b k : remote (StatObject b k);
  remote_GetObject b k options : remote (GetObject b k options);
  remote_PutObject b k reader size options : remote (PutObject b k reader size options);
  remote_RemoveObject b k : remote (RemoveObject b k);
}.

Lemma outward_s3_call {A} operation (c : Call S A) : remote c → outward (s3_call operation c).
Proof.
  intros Hc s w r s' w'. unfold s3_call. destruct (c s w) as [[x s1] w1] eqn:Hr.
  intros [= <- <- <-]. by eapply Hc.
Qed.
Lemma outward_s3_ignored {A} (c : Call S A) : remote c → outward (s3_ignored c).
Proof.
  intros Hc s w r s' w'. unfold s3_ignored. destruct (c s w) as [[x s1] w1] eqn:Hr.
  intros [= <- <- <-]. by eapply Hc.
Qed.
Lemma remote_OpenObject `{!S3Remote} b k etag : remote (OpenObject b k etag).
Proof.
  intros s w r s' w'. unfold OpenObject. repeat case_match; first [by intros [= <- <- <-] | apply remote_GetObject].
Qed.
#[local] Hint Resolve outward_s3_call outward_s3_ignored remote_OpenObject remote_PresignedPostPolicy
  remote_StatObject remote_PutObject remote_RemoveObject : outward.
#[export] Instance s3_laws `{!S3Remote} s3 : StorageLaws (s3_storage s3).
Proof.
  assert (∀ key, outward (s3_ReadMetadata s3 key)) as Hread
    by (intros key; unfold s3_ReadMetadata; outward).
  split; intros; simpl.
  - unfold s3_PresignUpload. outward.
  - unfold s3_CompleteUpload, publish, PutObjectIfAbsent. outward.
  - apply Hread.
  - unfold s3_DeleteIncomplete. outward.
  - unfold s3_Close. outward.
Qed.

(** ** [Open] *)

Inductive Provider :=
  | ProviderLocal (s : LocalStorage)
  | ProviderS3 (s : S3Storage).

(** [reached] and [fs] are what [NewLocal] finds, [created] is [minio.New]'s
    answer. *)
Definition Open (mode : string) (cfg : ObjectStorageConfig) (reached : bool) (fs : FileSystem)
    (created : bool) : OM S Provider :=
  o_lift (guard_err (bool_decide (mode = ModeMulti) && bool_decide (ob_Driver cfg = "local"))
            (EOther "mode=multi cannot use local object storage"));;
  if bool_decide (ob_Driver cfg = "local") then
    s ← on_world (NewLocal (ob_Local_Directory cfg) reached fs);
    mret (ProviderLocal s)
  else if bool_decide (ob_Driver cfg = "s3") then
    s ← o_lift (NewS3 (ob_S3 cfg) created);
    exists_ ← bucketExists s;
    o_lift (guard_err (negb exists_) (EOther "configured S3 bucket does not exist"));;
    mret (ProviderS3 s)
  else o_throw (EOther "unsupported object storage driver").

(** [NewAssetService]: storage behind the server's own address. *)
Definition asset_sameOrigin (cfg : Config) : bool :=
  bool_decide (ob_Driver (co_ObjectStorage cfg) = "s3")
  && bool_decide (s3_PublicBaseURL (ob_S3 (co_ObjectStorage cfg)) = "").
End s3.
