(* ===== verification/PublishLaws.v ===== *)
(** Publication as a transition of the database: what a committed publish or
    unpublish did, and that nothing else can happen. *)

From S2P Require Import Prelude GoStd GoStrings Proto Codec Schema Engine Model Cache Convert World WorldLaws RepoScope Permission RepoConfig RepoChild RepoSnapshot RepoLaws LogicBase LogicPublish.

Local Open Scope Z_scope.

(** ** The decision on the locked rows *)

Definition known_status (s : SnapshotRow) : Prop :=
  snp_Status s = SnapshotStatusUnreleased ∨ snp_Status s = SnapshotStatusReleased.

Lemma publication_fold targetID l t0 r0 t r :
  fold_m (publication_step targetID) l (t0, r0) = Ok (t, r) →
  (∀ s, s ∈ l → known_status s) ∧
  (∀ x, t = Some x → t0 = Some x ∨ x ∈ l ∧ ID (snp_meta x) = targetID) ∧
  (∀ x, r = Some x → r0 = Some x ∨ x ∈ l ∧ snp_Status x = SnapshotStatusReleased) ∧
  (∀ s, s ∈ l → snp_Status s = SnapshotStatusReleased → r = Some s) ∧
  (∀ x, r0 = Some x → r = Some x).
Proof.
  revert t0 r0. induction l as [|s l IH]; intros t0 r0; simpl.
  { intros [= -> ->]. split_and!; try (intros s Hs; by apply elem_of_nil in Hs); auto. }
  rewrite bind_Ok. intros ([t1 r1] & Hstep & Hl).
  destruct (negb (snp_Status s =? SnapshotStatusUnreleased)
            && negb (snp_Status s =? SnapshotStatusReleased)) eqn:Hst; [done|].
  destruct ((snp_Status s =? SnapshotStatusReleased) && bool_decide (is_Some r0)) eqn:Hdup;
    [done|].
  injection Hstep as <- <-. apply IH in Hl as (Hk & Ht & Hr & Hu & Hkeep).
  assert (known_status s) as Hks.
  { unfold known_status. apply andb_false_iff in Hst as [Hx|Hx]; bool_hyps; auto. }
  split_and!.
  - intros x [->|Hx]%elem_of_cons; auto.
  - intros x Hx. apply Ht in Hx as [Hx|[Hx Hid]]; [|set_solver].
    destruct (ID (snp_meta s) =? targetID) eqn:Hid; [|by left]. injection Hx as <-.
    right. bool_hyps. set_solver.
  - intros x Hx. apply Hr in Hx as [Hx|[Hx Hid]]; [|set_solver].
    destruct (snp_Status s =? SnapshotStatusReleased) eqn:Hid; [|by left]. injection Hx as <-.
    right. bool_hyps. set_solver.
  - intros x [->|Hx]%elem_of_cons Hrel; [|by apply Hu].
    apply Hkeep. by rewrite (proj2 (Z.eqb_eq _ _) Hrel).
  - intros x ->. apply Hkeep. destruct (snp_Status s =? SnapshotStatusReleased); [|done].
    by rewrite bool_decide_true in Hdup.
Qed.

Lemma publicationState_spec l targetID t r : publicationState l targetID = Ok (t, r) →
  (∀ s, s ∈ l → known_status s) ∧ t ∈ l ∧ ID (snp_meta t) = targetID ∧
  (∀ x, r = Some x → x ∈ l ∧ snp_Status x = SnapshotStatusReleased) ∧
  (∀ s, s ∈ l → snp_Status s = SnapshotStatusReleased → r = Some s).
Proof.
  unfold publicationState. rewrite bind_Ok. intros ([t1 r1] & Hf & Hr).
  destruct t1 as [t1|]; [|done]. injection Hr as -> ->.
  apply publication_fold in Hf as (Hk & Ht & Hrel & Hu & _).
  destruct (Ht t) as [?|[? ?]]; [done|done|]. split_and!; try done.
  intros x Hx. destruct (Hrel x Hx) as [?|?]; done.
Qed.

Lemma validateTarget_ok request config target : validateTarget request config target = Ok tt →
  snp_Status target ≠ pr_status request ∧
  Version (snp_meta target) = pr_expectedVersion request ∧
  snp_ConfigID target = ID (cfg_meta config) ∧
  snp_ProjectID target = cfg_ProjectID config ∧ snp_ConfigKey target = cfg_Key config.
Proof.
  unfold validateTarget. destruct (snp_Status target =? pr_status request) eqn:H1; [done|].
  destruct (negb (Version _ =? _)) eqn:H2; [done|].
  destruct (_ || _)%bool eqn:H3; [done|]. intros _. by bool_hyps.
Qed.

Lemma validateRuntimeVersion_ok v : validateRuntimeVersion v = Ok tt →
  0 ≤ v ∧ v ≠ max_int64.
Proof.
  unfold validateRuntimeVersion. destruct (v <? 0) eqn:H1; [done|].
  destruct (v =? max_int64) eqn:H2; [done|]. intros _. by bool_hyps.
Qed.

(** ** The transition *)

(** A row that is released or retired by [by_] at [at_]. *)
Definition released_by (by_ at_ : Z) (s : SnapshotRow) : SnapshotRow :=
  snapshot_with (touch_next by_ at_ (snp_meta s)) SnapshotStatusReleased (snp_IsUsing s)
    (Some at_) (Some by_) s.
Definition retired_by (by_ at_ : Z) (s : SnapshotRow) : SnapshotRow :=
  snapshot_with (touch_next by_ at_ (snp_meta s)) SnapshotStatusUnreleased (snp_IsUsing s)
    None None s.

(** Publishing [sid] in the configuration [cid]: the snapshot is released,
    whatever the configuration had released is retired. *)
Definition publish_row (cid sid by_ at_ : Z) (s : SnapshotRow) : SnapshotRow :=
  if snapshot_id s =? sid then released_by by_ at_ s
  else if is_released s && (snp_ConfigID s =? cid) then retired_by by_ at_ s
  else s.
Definition unpublish_row (sid by_ at_ : Z) (s : SnapshotRow) : SnapshotRow :=
  if snapshot_id s =? sid then retired_by by_ at_ s else s.
Definition next_runtime_row (cid at_ : Z) (c : ConfigRow) : ConfigRow :=
  if ID (cfg_meta c) =? cid then config_next_runtime at_ c else c.

Section transition.
Context {E : Engine} {EL : EngineLaws E} `{Collation} `{Store} `{Protojson} `{MapOrder}.

(** The transition of an accepted request, with the snapshot the caller is
    given. *)
Record publication (request : publicationRequest) (d d' : DB)
    (cfg : ConfigRow) (target : SnapshotRow) (at_ : Z) : Prop := {
  pub_target : srows d !! pr_snapshotID request = Some target;
  pub_target_live : live (snp_meta target) = true;
  pub_config : crows d !! snp_ConfigID target = Some cfg;
  pub_config_live : live (cfg_meta cfg) = true;
  pub_in_scope : config_in_scope d (pr_environmentID request) cfg = true;
  pub_valid : validate request cfg target = Ok tt;
  pub_srows : srows d' =
    (if pr_status request =? SnapshotStatusUnreleased
     then unpublish_row (pr_snapshotID request) (UserID (pr_actor request)) at_
     else publish_row (ID (cfg_meta cfg)) (pr_snapshotID request)
            (UserID (pr_actor request)) at_) <$> srows d;
  pub_crows : ∃ at', crows d' = next_runtime_row (ID (cfg_meta cfg)) at' <$> crows d;
  pub_structures : structures d' = structures d;
  pub_enums : config_enums d' = config_enums d;
  pub_audit : ∃ k log, rows (audit_logs d) !! k = None ∧
    rows (audit_logs d') = <[k := log]> (rows (audit_logs d)) ∧
    aud_ActorUserID log = Some (UserID (pr_actor request)) ∧
    aud_EnvironmentID log = Some (pr_environmentID request) ∧
    aud_Action log = (if pr_status request =? SnapshotStatusReleased
                      then "snapshot.publish" else "snapshot.unpublish") ∧
    aud_ResourceID log = format_int (pr_snapshotID request);
}.

(** A configuration in scope brings all its live snapshots into scope. *)
Lemma snapshot_scope_complete d e cfg s : Inv d → config_in_scope d e cfg = true →
  crows d !! ID (cfg_meta cfg) = Some cfg → srows d !! ID (snp_meta s) = Some s →
  live (snp_meta s) = true → snp_ConfigID s = ID (cfg_meta cfg) →
  snapshot_in_scope d e s = true.
Proof.
  intros HI Hsc Hcfg Hs Hl Hid.
  destruct (inv_owner HI _ _ Hs Hl) as (c & Hc & Hcl & Hcp).
  rewrite Hid, Hcfg in Hc. injection Hc as <-.
  unfold config_in_scope in Hsc. unfold snapshot_in_scope. bool_hyps.
  rewrite <-Hcp. repeat (apply andb_true_intro; split); try done.
  apply negb_true_iff, bool_decide_eq_false. intros Hnil.
  assert (cfg ∈ select (λ c0, (ID (cfg_meta c0) =? snp_ConfigID s) &&
    (cfg_ProjectID c0 =? cfg_ProjectID cfg) && live (cfg_meta c0)) (configs d)) as Hin.
  { eapply rows_select; [exact Hcfg|]. rewrite Hid, !Z.eqb_refl, Hcl. done. }
  rewrite Hnil in Hin. by apply elem_of_nil in Hin.
Qed.

Lemma prepare_spec request c change w w' :
  preparePublication request c w = (Ok change, w') → Inv (db w) →
  db w' = db w ∧ cache w' = cache w ∧ LogicPublish.request change = request ∧
  let cfg := config change in
  crows (db w) !! c = Some cfg ∧ ID (cfg_meta cfg) = c ∧ live (cfg_meta cfg) = true ∧
  config_in_scope (db w) (pr_environmentID request) cfg = true ∧
  validate request cfg (target change) = Ok tt ∧
  srows (db w) !! pr_snapshotID request = Some (target change) ∧
  live (snp_meta (target change)) = true ∧ known_status (target change) ∧
  (∀ r, released change = Some r → srows (db w) !! ID (snp_meta r) = Some r ∧
     is_released r = true ∧ snp_ConfigID r = c) ∧
  (∀ k s, srows (db w) !! k = Some s → is_released s = true → snp_ConfigID s = c →
     released change = Some s).
Proof.
  intros Hr HI. unfold preparePublication, lockResources in Hr.
  apply run_bind in Hr as ([cfg l] & w1 & Hlock & Hr).
  apply run_bind in Hlock as (cfg' & w2 & Hcfg & Hlock).
  apply run_config_LockByID in Hcfg as (Hrow & Hlive & Hsc & [Hd2 Hc2]).
  apply run_bind in Hlock as (u & w3 & Hschema & Hlock).
  assert (same_store w2 w3) as [Hd3 Hc3].
  { eapply quiet_run; [|exact Hschema]. unfold lockPublicationSchema. quiet. }
  apply run_bind in Hlock as (l' & w4 & Hl & Hlock). unfold LockForConfig in Hl.
  apply run_handle, run_find in Hl as [Hl [Hd4 Hc4]].
  apply run_ret in Hlock as [[= -> ->] ->].
  rewrite Hd3, Hd2 in Hl. pose proof (config_key _ _ _ Hrow) as Hid.
  assert (∀ s, s ∈ l → srows (db w) !! ID (snp_meta s) = Some s ∧
    live (snp_meta s) = true ∧ snp_ConfigID s = c) as Hin.
  { intros s. rewrite Hl. intros [Hs Hp]%select_spec. bool_hyps.
    split_and!; [done| |done]. unfold snapshot_in_scope in *. by bool_hyps. }
  assert (∀ k s, srows (db w) !! k = Some s → live (snp_meta s) = true →
    snp_ConfigID s = c → s ∈ l) as Hall.
  { intros k s Hs Hsl Hsc'. rewrite Hl. pose proof (snapshot_key _ _ _ Hs) as Hsk.
    eapply rows_select; [exact Hs|]. rewrite Hsc', Z.eqb_refl, andb_true_r.
    eapply snapshot_scope_complete; [done|exact Hsc|by rewrite Hid|by rewrite Hsk|done|].
    by rewrite Hsc', Hid. }
  clear Hl. inv_run.
  match goal with Hx : publicationState _ _ = Ok ?p |- _ => destruct p as [t r] end.
  inv_run. match goal with Hx : now _ = _ |- _ => apply run_now in Hx as [_ [Hd5 Hc5]] end.
  match goal with Hx : publicationState _ _ = _ |- _ =>
    apply publicationState_spec in Hx as (Hk & Ht & Htid & Hrel & Hu) end.
  destruct (Hin t Ht) as (Htr & Htl & Htc). rewrite Htid in Htr. simpl.
  split_and!; try done; try congruence.
  - match goal with u : unit |- _ => by destruct u end.
  - by apply Hk.
  - intros y Hy. destruct (Hrel y Hy) as [Hyl Hys]. destruct (Hin y Hyl) as (? & Hylive & ?).
    split_and!; [done| |done]. unfold is_released. by rewrite Hylive, Hys.
  - intros k s Hs Hsr Hsc'. unfold is_released in Hsr. bool_hyps. eauto.
Qed.

(** ** Persisting *)

(** The guard of a transition holds of exactly the row it was built for. *)
Lemma guard_map (m : gmap Z SnapshotRow) change r st f :
  (∀ k s, m !! k = Some s → ID (snp_meta s) = k) →
  m !! ID (snp_meta r) = Some r → live (snp_meta r) = true →
  snp_ConfigID r = ID (cfg_meta (config change)) → snp_Status r = st →
  (λ s, if publication_guard (updateFor change r) st s then f s else s) <$> m =
  (λ s, if snapshot_id s =? ID (snp_meta r) then f s else s) <$> m.
Proof.
  intros Hkey Hr Hl Hc Hst. apply map_fmap_ext. intros k s Hs. unfold snapshot_id.
  destruct (ID (snp_meta s) =? ID (snp_meta r)) eqn:Hid.
  - bool_hyps. pose proof (Hkey _ _ Hs) as Hk.
    assert (s = r) as -> by (rewrite <-Hid, Hk, Hs in Hr; by injection Hr).
    unfold publication_guard, updateFor, snapshot_id. simpl.
    by rewrite Hl, Hc, Hst, !Z.eqb_refl.
  - unfold publication_guard, updateFor, snapshot_id. simpl.
    by rewrite Hid, andb_false_r.
Qed.

Lemma run_retire change x w w' : retireReleasedSnapshot change w = (Ok x, w') →
  (∀ r, released change = Some r → srows (db w) !! ID (snp_meta r) = Some r ∧
     is_released r = true ∧ snp_ConfigID r = ID (cfg_meta (config change))) →
  (∀ k s, srows (db w) !! k = Some s → is_released s = true →
     snp_ConfigID s = ID (cfg_meta (config change)) → released change = Some s) →
  ∃ t, rows t = (λ s, if is_released s && (snp_ConfigID s =? ID (cfg_meta (config change)))
                      then retired_by (UserID (pr_actor (request change))) (changedAt change) s
                      else s) <$> srows (db w) ∧
       srows (db w') = rows t ∧
       (db w' = db w ∨ db w' = put_table snapshots_t t (db w)) ∧ cache w' = cache w.
Proof.
  intros Hr Hrel Hall. unfold retireReleasedSnapshot in Hr.
  destruct (released change) as [r|].
  - destruct (Hrel r eq_refl) as (Hrow & Hisr & Hcid). inv_run.
    match goal with Hx : SetUnreleased _ _ = _ |- _ =>
      apply SetUnreleased_rows in Hx as [(t & Ht & Hdb & Hc) _] end.
    unfold is_released in Hisr. apply andb_true_iff in Hisr as [Hl Hst].
    apply Z.eqb_eq in Hst.
    exists t. split_and!; [|by rewrite Hdb|by right|done].
    rewrite Ht, guard_map; [|apply snapshot_key|done..].
    apply map_fmap_ext. intros k s Hs. unfold snapshot_id.
    destruct (ID (snp_meta s) =? ID (snp_meta r)) eqn:Hid.
    + bool_hyps. pose proof (snapshot_key _ _ _ Hs) as Hk.
      assert (s = r) as -> by (rewrite <-Hid, Hk, Hs in Hrow; by injection Hrow).
      unfold is_released. by rewrite Hl, Hst, Hcid, !Z.eqb_refl.
    + destruct (is_released s && _) eqn:Hs'; [|done]. bool_hyps.
      rewrite (Hall k s) in * by done. naive_solver.
  - inv_run. exists (snapshots (db w')). split_and!; [|done|by left|done].
    symmetry. etrans; [|apply map_fmap_id]. apply map_fmap_ext. intros k s Hs.
    destruct (is_released s && _) eqn:Hs'; [|done]. bool_hyps.
    by specialize (Hall k s Hs ltac:(done) ltac:(done)).
Qed.

(** The guard facts that [prepare_spec] gives about a change. *)
Record prepared (change : publicationChange) (d : DB) : Prop := {
  prep_config : crows d !! ID (cfg_meta (config change)) = Some (config change);
  prep_config_live : live (cfg_meta (config change)) = true;
  prep_scope : config_in_scope d (pr_environmentID (request change)) (config change) = true;
  prep_valid : validate (request change) (config change) (target change) = Ok tt;
  prep_target : srows d !! pr_snapshotID (request change) = Some (target change);
  prep_live : live (snp_meta (target change)) = true;
  prep_known : known_status (target change);
  prep_released : ∀ r, released change = Some r → srows d !! ID (snp_meta r) = Some r ∧
     is_released r = true ∧ snp_ConfigID r = ID (cfg_meta (config change));
  prep_all : ∀ k s, srows d !! k = Some s → is_released s = true →
     snp_ConfigID s = ID (cfg_meta (config change)) → released change = Some s;
}.

Lemma prepared_target change d : prepared change d →
  ID (snp_meta (target change)) = pr_snapshotID (request change) ∧
  snp_ConfigID (target change) = ID (cfg_meta (config change)) ∧
  snp_ProjectID (target change) = cfg_ProjectID (config change) ∧
  Version (snp_meta (target change)) = pr_expectedVersion (request change) ∧
  snp_Status (target change) ≠ pr_status (request change).
Proof.
  intros Hp. pose proof (snapshot_key _ _ _ (prep_target _ _ Hp)) as Hid.
  pose proof (prep_valid _ _ Hp) as Hv. unfold validate in Hv. inv_ok.
  match goal with Hx : validateTarget _ _ _ = _ |- _ =>
    apply validateTarget_ok in Hx as (? & ? & ? & ? & ?) end. done.
Qed.

Definition two_status (status : Z) : Prop :=
  status = SnapshotStatusUnreleased ∨ status = SnapshotStatusReleased.

(** The rows after the status changes. *)
Lemma run_apply change x w w' : applyPublicationStatus change w = (Ok x, w') →
  prepared change (db w) → two_status (pr_status (request change)) →
  ∃ t, rows t =
    (if pr_status (request change) =? SnapshotStatusUnreleased
     then unpublish_row (pr_snapshotID (request change))
            (UserID (pr_actor (request change))) (changedAt change)
     else publish_row (ID (cfg_meta (config change))) (pr_snapshotID (request change))
            (UserID (pr_actor (request change))) (changedAt change)) <$> srows (db w) ∧
  db w' = put_table snapshots_t t (db w) ∧ cache w' = cache w.
Proof.
  intros Hr Hp Htwo.
  destruct (prepared_target _ _ Hp) as (Hid & Hcid & _ & _ & Hne).
  pose proof (prep_target _ _ Hp) as Htgt. rewrite <-Hid in Htgt.
  pose proof (prep_live _ _ Hp) as Hlive. unfold applyPublicationStatus in Hr.
  destruct Htwo as [Hst|Hst]; rewrite Hst in Hr, Hne |- *.
  - simpl in Hr. apply SetUnreleased_rows in Hr as [(t & Ht & Hdb & Hc) _].
    exists t. split_and!; [|done|done]. simpl. rewrite Ht, guard_map;
      [|apply snapshot_key|done..|destruct (prep_known _ _ Hp); congruence].
    rewrite Hid. apply map_fmap_ext. intros k s Hs. unfold unpublish_row, snapshot_id.
    destruct (ID (snp_meta s) =? pr_snapshotID (request change)) eqn:Hx; [|done].
    bool_hyps. pose proof (snapshot_key _ _ _ Hs) as Hk.
    assert (s = target change) as -> by (rewrite Hid, <-Hx, Hk, Hs in Htgt; by injection Htgt).
    done.
  - simpl in Hr. apply run_bind in Hr as (u & w1 & Hret & Hrel).
    apply run_retire in Hret as (t1 & Ht1 & Hs1 & Hdb1 & Hc1);
      [|apply (prep_released _ _ Hp)|apply (prep_all _ _ Hp)].
    apply SetReleased_rows in Hrel as [(t & Ht & Hdb & Hc) _].
    assert (snp_Status (target change) = SnapshotStatusUnreleased) as Hun.
    { destruct (prep_known _ _ Hp); congruence. }
    assert (is_released (target change) = false) as Hnot.
    { unfold is_released. by rewrite Hun, andb_false_r. }
    assert (srows (db w1) !! ID (snp_meta (target change)) = Some (target change)) as Htgt1.
    { by rewrite Hs1, Ht1, lookup_fmap, Htgt; simpl; rewrite Hnot. }
    exists t. split_and!; [|by destruct Hdb1 as [<-|Hdb1]; [|rewrite Hdb, Hdb1]|congruence].
    simpl. rewrite Ht, guard_map; [|apply snapshot_key|done..].
    rewrite Hs1, Ht1, <-map_fmap_compose. apply map_fmap_ext. intros k s Hs.
    unfold publish_row, compose. rewrite <-Hid.
    destruct (is_released s && _) eqn:Hrs.
    + change (snapshot_id (retired_by ?a ?b s)) with (snapshot_id s).
      destruct (snapshot_id s =? ID (snp_meta (target change))) eqn:Hx; [|done].
      bool_hyps. unfold snapshot_id in Hx. pose proof (snapshot_key _ _ _ Hs) as Hk.
      assert (s = target change) as -> by (rewrite <-Hx, Hk, Hs in Htgt; by injection Htgt).
      congruence.
    + destruct (snapshot_id s =? ID (snp_meta (target change))) eqn:Hx; [|done].
      bool_hyps. unfold snapshot_id in Hx. pose proof (snapshot_key _ _ _ Hs) as Hk.
      assert (s = target change) as -> by (rewrite <-Hx, Hk, Hs in Htgt; by injection Htgt).
      done.
Qed.

Lemma run_runtime e cid x w w' cfg : IncrementRuntimeVersion e cid w = (Ok x, w') →
  crows (db w) !! cid = Some cfg → ∃ t at',
  rows t = next_runtime_row cid at' <$> crows (db w) ∧
  db w' = put_table configs_t t (db w) ∧ cache w' = cache w ∧
  cfg_RuntimeVersion cfg < max_int64.
Proof.
  intros (at' & (t & Ht & Hdb & Hc) & r & Hr & Hl & Hlt)%IncrementRuntimeVersion_rows Hcfg.
  rewrite Hcfg in Hr. injection Hr as <-. exists t, at'. split_and!; try done.
  rewrite Ht. apply map_fmap_ext. intros k s Hs. unfold next_runtime_row.
  destruct (ID (cfg_meta s) =? cid) eqn:Hid; rewrite ?andb_false_r; [|done].
  bool_hyps. pose proof (config_key _ _ _ Hs) as Hk.
  assert (s = cfg) as -> by (rewrite <-Hid, Hk, Hs in Hcfg; by injection Hcfg).
  rewrite Hl. simpl. by rewrite (proj2 (Z.ltb_lt _ _) Hlt).
Qed.

Lemma run_record e log x w w' : RecordForEnvironment e log w = (Ok x, w') → ∃ t k row,
  rows (audit_logs (db w)) !! k = None ∧
  rows t = <[k := row]> (rows (audit_logs (db w))) ∧
  db w' = put_table audit_logs_t t (db w) ∧ cache w' = cache w ∧
  aud_ActorUserID row = aud_ActorUserID log ∧ aud_EnvironmentID row = Some e ∧
  aud_Action row = aud_Action log ∧ aud_ResourceID row = aud_ResourceID log.
Proof.
  intros Hr. unfold RecordForEnvironment, RecordSystem in Hr. inv_run.
  match goal with Hx : now _ = _ |- _ => apply run_now in Hx as [_ [Hd Hc]] end.
  match goal with Hx : exec_insert _ _ _ = _ |- _ =>
    apply insert_rows in Hx as (tb & Hk & Hn & Htb & Hdb & Hca) end.
  rewrite Hd, Hc in *. eexists tb, _, _. split_and!; [exact Hn|exact Htb|done..].
Qed.

Lemma persist_spec change x w w' : persistPublication change w = (Ok x, w') →
  prepared change (db w) → two_status (pr_status (request change)) →
  publication (request change) (db w) (db w') (config change) (target change)
    (changedAt change) ∧ cache w' = cache w.
Proof.
  intros Hr Hp Htwo. unfold persistPublication in Hr.
  apply run_bind in Hr as (u1 & w1 & Happly & Hr).
  apply run_bind in Hr as (u2 & w2 & Hrt & Hlog).
  apply run_apply in Happly as (ts & Hts & Hdb1 & Hc1); [|done..].
  destruct (prepared_target _ _ Hp) as (Hid & Hcid & _).
  apply (run_runtime _ _ _ _ _ (config change)) in Hrt as (tc & at' & Htc & Hdb2 & Hc2 & _);
    [|rewrite Hdb1; apply (prep_config _ _ Hp)].
  apply run_record in Hlog as (ta & k & row & Hn & Hta & Hdb3 & Hc3 & Hact & Henv & Haction & Hres).
  split; [|congruence]. split; try apply Hp.
  - rewrite Hcid. apply (prep_config _ _ Hp).
  - by rewrite Hdb3, Hdb2, Hdb1.
  - exists at'. rewrite Hdb3. cbn. by rewrite Hdb2; unfold crows at 1; cbn; rewrite Htc, Hdb1.
  - by rewrite Hdb3, Hdb2, Hdb1.
  - by rewrite Hdb3, Hdb2, Hdb1.
  - exists k, row. rewrite Hdb2, Hdb1 in Hn, Hta. rewrite Hdb3.
    split_and!; [done|done|done|done|..].
    + rewrite Haction. unfold publishAudit, auditAction. done.
    + rewrite Hres. unfold publishAudit. simpl. by rewrite Hid.
Qed.

(** ** The operation *)

Lemma publication_spec request c change w w' :
  (change ← preparePublication request c; persistPublication change;; mret change) w
    = (Ok change, w') → Inv (db w) → two_status (pr_status request) →
  LogicPublish.request change = request ∧
  publication request (db w) (db w') (config change) (target change) (changedAt change) ∧
  cache w' = cache w.
Proof.
  intros Hr HI Htwo. apply run_bind in Hr as (ch & w1 & Hprep & Hr).
  apply prepare_spec in Hprep; [|done].
  destruct Hprep as (Hdb1 & Hc1 & Hreq & Hcfg & Hid & Hlive & Hsc & Hv & Htgt & Htl & Hk & Hrel & Hall).
  apply run_bind in Hr as (u & w2 & Hpers & Hret). apply run_ret in Hret as [-> ->].
  split; [done|]. subst request. rewrite <-Hdb1, <-Hc1.
  apply (persist_spec _ u); [done| |done]. rewrite Hdb1. by split; rewrite ?Hid.
Qed.

(** ** The invariant *)

Lemma harmless_unpublish sid u t : harmless (unpublish_row sid u t).
Proof.
  split; intros s; unfold unpublish_row; destruct (snapshot_id s =? sid); simpl; auto.
Qed.

Lemma inv_publish S C cid sid u t r :
  (∀ k s, S !! k = Some s → ID (snp_meta s) = k) →
  S !! sid = Some r → live (snp_meta r) = true → snp_ConfigID r = cid →
  InvMaps S C → InvMaps (publish_row cid sid u t <$> S) C.
Proof.
  intros Hkey Hr Hl Hc [Io Is Ir Ic].
  assert (∀ s, snp_ConfigID (publish_row cid sid u t s) = snp_ConfigID s ∧
    snp_ProjectID (publish_row cid sid u t s) = snp_ProjectID s ∧
    live (snp_meta (publish_row cid sid u t s)) = live (snp_meta s) ∧
    snp_IsUsing (publish_row cid sid u t s) = snp_IsUsing s) as Hsame.
  { intros s. unfold publish_row. destruct (snapshot_id s =? sid); [done|].
    by destruct (is_released s && _). }
  split.
  - intros k s. rewrite lookup_fmap, fmap_Some. intros (x & Hx & ->).
    destruct (Hsame x) as (-> & -> & -> & _). eauto.
  - intros k s. rewrite lookup_fmap, fmap_Some. intros (x & Hx & ->).
    unfold publish_row. destruct (snapshot_id x =? sid); [by right|].
    destruct (is_released x && _); [by left|]. eauto.
  - intros k1 k2 s1 s2. rewrite !lookup_fmap, !fmap_Some.
    intros (x1 & Hx1 & ->) (x2 & Hx2 & ->).
    destruct (Hsame x1) as (-> & _), (Hsame x2) as (-> & _).
    assert (∀ k x, S !! k = Some x → is_released (publish_row cid sid u t x) = true →
      k = sid ∧ snp_ConfigID x = cid ∨ is_released x = true ∧ snp_ConfigID x ≠ cid) as Hx.
    { intros k x Hx. unfold publish_row. pose proof (Hkey _ _ Hx) as Hk.
      destruct (snapshot_id x =? sid) eqn:Hs; bool_hyps; unfold snapshot_id in *.
      - intros _. left. split; [congruence|]. assert (x = r) by congruence. congruence.
      - destruct (is_released x) eqn:Hrel; simpl; [|by rewrite Hrel].
        destruct (snp_ConfigID x =? cid) eqn:Hcc; bool_hyps; [|auto].
        unfold is_released. simpl. by rewrite andb_false_r. }
    intros [[-> ?]|[??]]%(Hx _ _ Hx1) [[-> ?]|[??]]%(Hx _ _ Hx2) Heq; [done|congruence..|].
    by eapply Ir.
  - apply unique_map; [apply Hsame| |done]. intros s. unfold is_current.
    by destruct (Hsame s) as (_ & _ & -> & ->).
Qed.

Lemma next_runtime_same cid t c :
  cfg_ProjectID (next_runtime_row cid t c) = cfg_ProjectID c ∧
  cfg_Key (next_runtime_row cid t c) = cfg_Key c ∧
  live (cfg_meta (next_runtime_row cid t c)) = live (cfg_meta c).
Proof. unfold next_runtime_row. by destruct (ID (cfg_meta c) =? cid). Qed.

Lemma publication_inv request d d' cfg tgt t : publication request d d' cfg tgt t →
  Inv d → Inv d'.
Proof.
  intros Hp HI. destruct (pub_crows _ _ _ _ _ _ Hp) as [t' Hc].
  unfold Inv. rewrite (pub_srows _ _ _ _ _ _ Hp), Hc.
  apply inv_config_map; [apply next_runtime_same| |].
  { intros c. by destruct (next_runtime_same (ID (cfg_meta cfg)) t' c) as (_ & _ & ->). }
  destruct (pr_status request =? SnapshotStatusUnreleased).
  - by apply inv_harmless; [apply harmless_unpublish|].
  - eapply inv_publish; [apply snapshot_key|apply Hp|apply Hp| |done].
    by rewrite (config_key _ _ _ (pub_config _ _ _ _ _ _ Hp)).
Qed.
End transition.
