(* ===== verification/Evolution.v ===== *)
(** How the rows of configurations and snapshots evolve.  [Good] is the
    integrity of one database, [evolves] what holds between a database and any
    later one, [sound] that both are established; every repository operation
    is shown to be sound. *)

From S2P Require Import Prelude GoStd GoStrings Proto Codec Schema Engine Model Cache Convert World WorldLaws RepoScope Permission RepoConfig RepoChild RepoSnapshot RepoLaws LogicBase LogicPublish PublishLaws.

Local Open Scope Z_scope.

(** The columns of a snapshot that no statement assigns after its creation. *)
Record same_document (s s' : SnapshotRow) : Prop := {
  doc_project : snp_ProjectID s' = snp_ProjectID s;
  doc_config : snp_ConfigID s' = snp_ConfigID s;
  doc_key : snp_ConfigKey s' = snp_ConfigKey s;
  doc_description : snp_Description s' = snp_Description s;
  doc_content : snp_Content s' = snp_Content s;
  doc_tags : snp_TagsJSON s' = snp_TagsJSON s;
  doc_author : CreatedBy (snp_meta s') = CreatedBy (snp_meta s);
  doc_version : Version (snp_meta s) ≤ Version (snp_meta s');
  doc_live : live (snp_meta s') = true → live (snp_meta s) = true;
}.

#[export] Instance same_document_preorder : PreOrder same_document.
Proof.
  split; [intros s; by split|].
  intros a b c [] []. split; try congruence; [lia|auto].
Qed.

(** A later row of the same configuration. *)
Record later_config (c c' : ConfigRow) : Prop := {
  later_project : cfg_ProjectID c' = cfg_ProjectID c;
  later_key : cfg_Key c' = cfg_Key c;
  later_runtime : cfg_RuntimeVersion c ≤ cfg_RuntimeVersion c';
}.

#[export] Instance later_config_refl : Reflexive later_config.
Proof. intros c. by split. Qed.

Section evolution.
Context {E : Engine} {EL : EngineLaws E} `{Collation} `{Store}.

(** The content [cid] serves: that of a live released snapshot. *)
Definition serves (d : DB) (cid : Z) (content : string) : Prop :=
  ∃ k s, srows d !! k = Some s ∧ is_released s = true ∧ snp_ConfigID s = cid ∧
         snp_Content s = content.

(** Some live snapshot refers to the configuration. *)
Definition used (d : DB) (cid : Z) : Prop :=
  ∃ k s, srows d !! k = Some s ∧ live (snp_meta s) = true ∧ snp_ConfigID s = cid.

Record Good (d : DB) : Prop := {
  good_inv : Inv d;
  good_keys : ∀ k1 k2 c1 c2, crows d !! k1 = Some c1 → crows d !! k2 = Some c2 →
    cfg_ProjectID c1 = cfg_ProjectID c2 → cfg_Key c1 = cfg_Key c2 → k1 = k2;
  good_runtime : ∀ k c, crows d !! k = Some c → 0 ≤ cfg_RuntimeVersion c ≤ max_int64;
  (** a configuration that was ever published still has a snapshot *)
  good_published : ∀ k c, crows d !! k = Some c → cfg_RuntimeVersion c ≠ 0 → used d k;
}.

(** Where there are snapshots of a configuration that satisfies [ok], one of
    them is current.  A transaction that adds a snapshot suspends this for the
    configuration until it has selected one. *)
Definition current_where (ok : Z → Prop) (d : DB) : Prop :=
  ∀ k s, srows d !! k = Some s → live (snp_meta s) = true → ok (snp_ConfigID s) →
    ∃ k' s', srows d !! k' = Some s' ∧ is_current s' = true ∧
             snp_ConfigID s' = snp_ConfigID s.
Definition anywhere (cid : Z) : Prop := True.

Record evolves (d d' : DB) : Prop := {
  ev_snapshots : ∀ k s, srows d !! k = Some s →
    ∃ s', srows d' !! k = Some s' ∧ same_document s s';
  ev_configs : ∀ k c, crows d !! k = Some c → ∃ c', crows d' !! k = Some c' ∧
    later_config c c' ∧
    (cfg_RuntimeVersion c' = cfg_RuntimeVersion c →
     ∀ content, serves d' k content ↔ serves d k content);
  ev_used : ∀ k, used d k → used d' k;
}.

Definition sound_where (ok : Z → Prop) (d d' : DB) : Prop :=
  Good d → current_where ok d → Good d' ∧ current_where ok d' ∧ evolves d d'.
#[local] Notation sound := (sound_where anywhere).

#[export] Instance evolves_refl : Reflexive evolves.
Proof.
  intros d. split; [intros k s Hs; by exists s| |done]. intros k c Hc. by exists c.
Qed.
#[export] Instance evolves_trans : Transitive evolves.
Proof.
  intros a b c [Hs1 Hc1 Hu1] [Hs2 Hc2 Hu2]. split; [| |by auto].
  - intros k s Hs. apply Hs1 in Hs as (s1 & Hs & Hd1).
    apply Hs2 in Hs as (s2 & Hs & Hd2). exists s2. split; [done|]. by etrans.
  - intros k r Hr. apply Hc1 in Hr as (r1 & Hr & [? ? ?] & He1).
    apply Hc2 in Hr as (r2 & Hr & [? ? ?] & He2). exists r2. split; [done|].
    split; [split; [congruence..|lia]|]. intros Heq x.
    rewrite He2, He1 by lia. done.
Qed.
#[export] Instance sound_where_refl ok : Reflexive (sound_where ok).
Proof. intros d HG Hcur. done. Qed.
#[export] Instance sound_where_trans ok : Transitive (sound_where ok).
Proof.
  intros a b c Hab Hbc Ha Hca. destruct (Hab Ha Hca) as (Hb & Hcb & ?).
  destruct (Hbc Hb Hcb) as (? & ? & ?). split_and!; [done..|by etrans].
Qed.

Lemma current_same ok d d' : srows d' = srows d → current_where ok d → current_where ok d'.
Proof. unfold current_where. by intros ->. Qed.
Lemma current_weaken (ok ok' : Z → Prop) d :
  (∀ c, ok' c → ok c) → current_where ok d → current_where ok' d.
Proof. intros Hok Hcur k s Hs Hl Ho. eapply Hcur; eauto. Qed.
Lemma used_same d d' c : srows d' = srows d → used d c → used d' c.
Proof. unfold used. by intros ->. Qed.

Lemma evolves_same_core d d' : same_core d d' → evolves d d'.
Proof.
  intros [Hs Hc]. split; [| |intros k; by apply used_same].
  - intros k s. rewrite Hs. intros. by exists s.
  - intros k c. rewrite Hc. intros. exists c. split; [done|]. split; [done|].
    intros _ x. unfold serves. by rewrite Hs.
Qed.

Lemma sound_same_core ok d d' : same_core d d' → sound_where ok d d'.
Proof.
  intros Hcore [Hi Hk Hr Hp] Hcur. pose proof Hcore as [Hs Hc].
  split_and!; [split| |by apply evolves_same_core].
  - by apply (inv_same_core d).
  - rewrite Hc. apply Hk.
  - rewrite Hc. apply Hr.
  - rewrite Hc. intros k c Hx Hn. eapply used_same; [exact Hs|eauto].
  - by apply (current_same _ d).
Qed.

(** ** Maps of rows *)

Lemma evolves_map g h d d' :
  srows d' = g <$> srows d → crows d' = h <$> crows d →
  (∀ k s, srows d !! k = Some s → same_document s (g s)) →
  (∀ k c, crows d !! k = Some c → later_config c (h c)) →
  (∀ k s c, srows d !! k = Some s → crows d !! snp_ConfigID s = Some c →
     cfg_RuntimeVersion (h c) = cfg_RuntimeVersion c → is_released (g s) = is_released s) →
  (∀ k, used d k → used d' k) →
  evolves d d'.
Proof.
  intros Hs Hc Hg Hh Hrel Hused. split; [| |done].
  - intros k s Hk. exists (g s). rewrite Hs, lookup_fmap, Hk. split; [done|by eapply Hg].
  - intros k c Hk. exists (h c). rewrite Hc, lookup_fmap, Hk. split; [done|].
    split; [by eapply Hh|]. intros Heq x. unfold serves. rewrite Hs.
    setoid_rewrite lookup_fmap. setoid_rewrite fmap_Some. split.
    + intros (i & s' & (s & Hi & ->) & Hr & Hid & <-). destruct (Hg _ _ Hi) as [].
      rewrite doc_config0 in Hid. subst k. exists i, s. rewrite <-(Hrel i s c); done.
    + intros (i & s & Hi & Hr & Hid & <-). destruct (Hg _ _ Hi) as []. subst k.
      exists i, (g s). split; [by exists s|]. rewrite (Hrel i s c); done.
Qed.

Lemma used_map g d d' c : srows d' = g <$> srows d →
  (∀ k s, srows d !! k = Some s → live (snp_meta (g s)) = live (snp_meta s) ∧
     snp_ConfigID (g s) = snp_ConfigID s) →
  used d c → used d' c.
Proof.
  intros Hs Hg (k & s & Hk & Hl & Hc). exists k, (g s). destruct (Hg k s Hk) as [Hl' Hc'].
  rewrite Hs, lookup_fmap, Hk, Hl', Hc'. done.
Qed.

Lemma good_map g h d d' :
  Good d → srows d' = g <$> srows d → crows d' = h <$> crows d → Inv d' →
  (∀ k c, crows d !! k = Some c → cfg_ProjectID (h c) = cfg_ProjectID c ∧
     cfg_Key (h c) = cfg_Key c ∧ 0 ≤ cfg_RuntimeVersion (h c) ≤ max_int64 ∧
     (cfg_RuntimeVersion (h c) ≠ 0 → used d' k)) →
  Good d'.
Proof.
  intros [Hi Hk Hr Hp] Hs Hc Hi' Hh. split; [done| | |].
  - intros k1 k2 c1 c2. rewrite Hc, !lookup_fmap, !fmap_Some.
    intros (x1 & Hx1 & ->) (x2 & Hx2 & ->).
    destruct (Hh _ _ Hx1) as (-> & -> & _), (Hh _ _ Hx2) as (-> & -> & _). eauto.
  - intros k c. rewrite Hc, lookup_fmap, fmap_Some. intros (x & Hx & ->). by eapply Hh.
  - intros k c. rewrite Hc, lookup_fmap, fmap_Some. intros (x & Hx & ->). by eapply Hh.
Qed.

Lemma current_map ok g d d' : srows d' = g <$> srows d →
  (∀ k s, srows d !! k = Some s → live (snp_meta (g s)) = live (snp_meta s) ∧
     snp_IsUsing (g s) = snp_IsUsing s ∧ snp_ConfigID (g s) = snp_ConfigID s) →
  current_where ok d → current_where ok d'.
Proof.
  intros Hs Hg Hcur k s. rewrite Hs, lookup_fmap, fmap_Some. intros (x & Hx & ->) Hl.
  destruct (Hg _ _ Hx) as (Hl' & _ & Hc'). rewrite Hl' in Hl. rewrite Hc'. intros Ho.
  destruct (Hcur k x Hx Hl Ho) as (k' & s' & Hs' & Hcs & Hid).
  destruct (Hg _ _ Hs') as (Hl'' & Hu'' & Hc''). exists k', (g s').
  rewrite lookup_fmap, Hs'. split_and!; [done| |congruence].
  unfold is_current. by rewrite Hl'', Hu''.
Qed.

(** A change of snapshots alone, that releases, selects and deletes none. *)
Lemma sound_snapshots ok g d d' :
  srows d' = g <$> srows d → crows d' = crows d → (Inv d → Inv d') →
  (∀ k s, srows d !! k = Some s → same_document s (g s) ∧ is_released (g s) = is_released s ∧
     live (snp_meta (g s)) = live (snp_meta s)) →
  (current_where ok d → current_where ok d') →
  sound_where ok d d'.
Proof.
  intros Hs Hc Hi Hg Hcw HG Hcur.
  assert (crows d' = id <$> crows d) as Hc' by by rewrite map_fmap_id.
  split_and!; [|by apply Hcw|].
  - eapply good_map; [done|exact Hs|exact Hc'|apply Hi, HG|].
    intros k c Hk. split_and!; [done..|by eapply good_runtime|by eapply good_runtime|].
    intros Hn. eapply used_map; [exact Hs| |by eapply good_published].
    intros i s Hx. destruct (Hg i s Hx) as ([] & _ & ?). done.
  - eapply evolves_map; [exact Hs|exact Hc'|intros; by eapply Hg|done|intros; by eapply Hg|].
    intros k. eapply used_map; [exact Hs|].
    intros i s Hx. destruct (Hg i s Hx) as ([] & _ & ?). done.
Qed.

(** A change of configurations alone that keeps their generation. *)
Lemma sound_configs ok h d d' :
  crows d' = h <$> crows d → srows d' = srows d → (Inv d → Inv d') →
  (∀ k c, crows d !! k = Some c → cfg_ProjectID (h c) = cfg_ProjectID c ∧
     cfg_Key (h c) = cfg_Key c ∧ cfg_RuntimeVersion (h c) = cfg_RuntimeVersion c) →
  sound_where ok d d'.
Proof.
  intros Hc Hs Hi Hh HG Hcur. assert (srows d' = id <$> srows d) as Hs' by by rewrite map_fmap_id.
  split_and!; [|by apply (current_same _ d)|].
  - eapply good_map; [done|exact Hs'|exact Hc|apply Hi, HG|].
    intros k c Hk. destruct (Hh k c Hk) as (-> & -> & ->).
    split_and!; [done..|by eapply good_runtime|by eapply good_runtime|].
    intros Hn. eapply used_same; [exact Hs|by eapply good_published].
  - eapply evolves_map; [exact Hs'|exact Hc|done| |done|intros k; by apply used_same].
    intros k c Hk. destruct (Hh k c Hk) as (? & ? & Hr). split; [done|done|]. by rewrite Hr.
Qed.

(** ** snapshot.go *)

(** The row of [sid] is selected, every other current row of the configuration
    is not any more. *)
Definition select_row (projectID cid sid by_ at_ : Z) (s : SnapshotRow) : SnapshotRow :=
  if selected_in projectID cid sid s then snapshot_using true by_ at_ s
  else if unselected_in projectID cid sid s then snapshot_using false by_ at_ s else s.

Lemma same_document_touch u t b s : same_document s (snapshot_using b u t s).
Proof. split; simpl; try done. lia. Qed.

Lemma select_row_document p c sid u t s : same_document s (select_row p c sid u t s) ∧
  is_released (select_row p c sid u t s) = is_released s ∧
  live (snp_meta (select_row p c sid u t s)) = live (snp_meta s) ∧
  (snp_ConfigID s ≠ c → snp_IsUsing (select_row p c sid u t s) = snp_IsUsing s).
Proof.
  unfold select_row. destruct (selected_in p c sid s) eqn:H1;
    [|destruct (unselected_in p c sid s) eqn:H2]; split_and!; try done;
    try apply same_document_touch; unfold selected_in, unselected_in in *; bool_hyps; done.
Qed.

Lemma inv_select S C p c sid u t r cfg :
  (∀ k s, S !! k = Some s → ID (snp_meta s) = k) →
  S !! sid = Some r → selected_in p c sid r = true →
  C !! c = Some cfg → cfg_ProjectID cfg = p →
  InvMaps S C → InvMaps (select_row p c sid u t <$> S) C.
Proof.
  intros Hkey Hr Hsel Hcfg Hp [Io Is Ir Ic].
  assert (∀ s, snp_ConfigID (select_row p c sid u t s) = snp_ConfigID s ∧
    snp_ProjectID (select_row p c sid u t s) = snp_ProjectID s ∧
    live (snp_meta (select_row p c sid u t s)) = live (snp_meta s) ∧
    snp_Status (select_row p c sid u t s) = snp_Status s) as Hsame.
  { intros s. unfold select_row. destruct (selected_in p c sid s); [done|].
    by destruct (unselected_in p c sid s). }
  split.
  - intros k s. rewrite lookup_fmap, fmap_Some. intros (x & Hx & ->).
    destruct (Hsame x) as (-> & -> & -> & _). eauto.
  - intros k s. rewrite lookup_fmap, fmap_Some. intros (x & Hx & ->).
    destruct (Hsame x) as (_ & _ & _ & ->). eauto.
  - apply unique_map; [apply Hsame| |done]. intros s. unfold is_released.
    by destruct (Hsame s) as (_ & _ & -> & ->).
  - intros k1 k2 s1 s2. rewrite !lookup_fmap, !fmap_Some.
    intros (x1 & Hx1 & ->) (x2 & Hx2 & ->).
    destruct (Hsame x1) as (-> & _), (Hsame x2) as (-> & _).
    assert (∀ k x, S !! k = Some x → is_current (select_row p c sid u t x) = true →
      k = sid ∧ snp_ConfigID x = c ∨ is_current x = true ∧ snp_ConfigID x ≠ c) as Hx.
    { intros k x Hx. unfold select_row. pose proof (Hkey _ _ Hx) as Hk.
      destruct (selected_in p c sid x) eqn:Hs.
      { unfold selected_in, snapshot_id in Hs. bool_hyps. left. split; congruence. }
      intros Hcur. right.
      destruct (unselected_in p c sid x) eqn:Hu;
        [unfold is_current in Hcur; simpl in Hcur; by rewrite andb_false_r in Hcur|].
      split; [done|]. intros Hxc. unfold is_current in Hcur. bool_hyps.
      destruct (Io _ _ Hx) as (cfg' & Hc' & _ & Hp'); [done|].
      unfold selected_in in Hs. unfold unselected_in in Hu.
      rewrite Hxc, Hcfg in Hc'. injection Hc' as <-.
      assert (snp_ProjectID x = p) as Hxp by congruence.
      repeat match goal with H : live _ = true |- _ => rewrite H in * end.
      rewrite Hxc, Hxp, !Z.eqb_refl in Hs, Hu. simpl in Hs, Hu.
      rewrite !andb_true_r in Hs. rewrite Hs in Hu. simpl in Hu. congruence. }
    intros [[-> ?]|[??]]%(Hx _ _ Hx1) [[-> ?]|[??]]%(Hx _ _ Hx2) Heq; [done|congruence..|].
    by eapply Ic.
Qed.

(** Selecting a snapshot restores what a new snapshot suspends. *)
Lemma sound_select ok e c s u x w w' : SetCurrent e c s u w = (Ok x, w') →
  Good (db w) → current_where (λ y, ok y ∧ y ≠ c) (db w) →
  Good (db w') ∧ current_where ok (db w') ∧ evolves (db w) (db w').
Proof.
  intros (cfg & t & tb & r & Hcfg & Hl & Hr & Hsel & Htb & Hdb & _)%SetCurrent_rows HG Hcur.
  set (g := select_row (cfg_ProjectID cfg) c s u t).
  assert (srows (db w') = g <$> srows (db w)) as Hs.
  { rewrite Hdb. unfold srows at 1. cbn. by rewrite Htb. }
  assert (sound_where (λ _, False) (db w) (db w')) as Hsound.
  { eapply sound_snapshots; [exact Hs|by rewrite Hdb| | |by intros _ k y _ _ []].
    2:{ intros k y _. destruct (select_row_document (cfg_ProjectID cfg) c s u t y) as (?&?&?&_). done. }
    intros Hi. unfold Inv. rewrite Hs, Hdb. cbn.
    eapply inv_select; [apply snapshot_key|exact Hr|exact Hsel|exact Hcfg|done|exact Hi]. }
  destruct Hsound as (HG' & _ & Hev); [done|by intros k y _ _ []|]. split_and!; [done| |done].
  intros k y. rewrite Hs. setoid_rewrite lookup_fmap. setoid_rewrite fmap_Some.
  intros (z & Hz & ->).
  destruct (select_row_document (cfg_ProjectID cfg) c s u t z) as (Hdoc & _ & Hlz & _).
  fold g in Hdoc, Hlz. rewrite Hlz. destruct Hdoc as [_ Hcz _ _ _ _ _ _ _]. rewrite Hcz.
  intros Hlive Hok. destruct (decide (snp_ConfigID z = c)) as [->|Hne].
  - exists s, (g r). split; [by exists r|].
    destruct (select_row_document (cfg_ProjectID cfg) c s u t r) as ([_ Hcr _ _ _ _ _ _ _] & _ & Hlr & _).
    fold g in Hcr, Hlr. rewrite Hcr. unfold is_current. rewrite Hlr.
    unfold g, select_row. rewrite Hsel. unfold selected_in in Hsel. bool_hyps. simpl.
    split; [|done]. match goal with Hx : live (snp_meta r) = true |- _ => by rewrite Hx end.
  - destruct (Hcur k z Hz Hlive) as (k' & s' & Hs' & Hcs & Hid); [done|].
    exists k', (g s'). split; [by exists s'|].
    destruct (select_row_document (cfg_ProjectID cfg) c s u t s') as (Hdoc & _ & Hl' & Hu').
    fold g in Hdoc, Hl', Hu'. destruct Hdoc as [_ Hcs' _ _ _ _ _ _ _].
    unfold is_current in *. rewrite Hl', Hu' by congruence. split; [done|congruence].
Qed.

Lemma sound_SetCurrent ok e c s u : steps (sound_where ok) (SetCurrent e c s u).
Proof.
  intros w x w' Hr HG Hcur. eapply sound_select; [exact Hr|done|].
  eapply current_weaken; [|exact Hcur]. by intros y [? _].
Qed.

(** A snapshot that is not current can be deleted. *)
Lemma sound_snapshot_Delete e s u x r w w' : snapshot_Delete e s u w = (Ok x, w') →
  srows (db w) !! s = Some r → snp_IsUsing r = false → sound (db w) (db w').
Proof.
  intros (t1 & t2 & [Hs Hc]%snapshots_mapped_rows)%snapshot_Delete_rows Hrow Hun HG Hcur.
  match type of Hs with _ = ?f <$> _ => set (g := f) in Hs end.
  assert (∀ k y, srows (db w) !! k = Some y → is_current y = true → g y = y) as Hkeep.
  { intros k y Hk Hy. unfold g. case_match eqn:Hp; [|done]. bool_hyps.
    pose proof (snapshot_key _ _ _ Hk) as Hky. unfold snapshot_id, is_current in *. bool_hyps.
    assert (y = r) by congruence. congruence. }
  assert (current_where anywhere (db w')) as Hcur'.
  { intros k y. rewrite Hs. setoid_rewrite lookup_fmap. setoid_rewrite fmap_Some.
    intros (z & Hz & ->) Hl _.
    assert (live (snp_meta z) = true ∧ snp_ConfigID (g z) = snp_ConfigID z) as [Hlz ->].
    { revert Hl. unfold g. by case_match. }
    destruct (Hcur k z Hz Hlz I) as (k' & s' & Hs' & Hcs & Hid).
    exists k', s'. split_and!; [|done..]. exists s'. by rewrite (Hkeep k' s'). }
  assert (crows (db w') = id <$> crows (db w)) as Hc' by by rewrite map_fmap_id.
  assert (∀ k, used (db w) k → used (db w') k) as Hused.
  { intros k (i & y & Hy & Hl & Hid). destruct (Hcur i y Hy Hl I) as (i' & y' & Hy' & Hcy & Hid').
    exists i', y'. rewrite Hs, lookup_fmap, Hy'. simpl. rewrite (Hkeep i' y') by done.
    unfold is_current in Hcy. bool_hyps. split_and!; [done..|congruence]. }
  split_and!; [|done|].
  - eapply good_map; [done|exact Hs|exact Hc'| |].
    + unfold Inv. rewrite Hs, Hc. apply inv_harmless; [|apply HG].
      split; intros y; unfold g; case_match; simpl; auto; done.
    + intros k c Hk. split_and!; [done..|by eapply good_runtime|by eapply good_runtime|].
      intros Hn. by apply Hused, (good_published _ HG _ _ Hk).
  - eapply evolves_map; [exact Hs|exact Hc'| |done| |done].
    + intros k y _. unfold g. case_match; [|done]. split; simpl; try done. lia.
    + intros k y c _ _ _. unfold g. case_match eqn:Hp; [|done]. bool_hyps.
      unfold is_released. simpl.
      match goal with Hx : snp_Status y = _ |- _ => rewrite Hx end. by rewrite andb_false_r.
Qed.

Lemma sound_snapshot_Create ok p c s s' cfg w w' : snapshot_Create p c s w = (Ok s', w') →
  crows (db w) !! c = Some cfg → live (cfg_meta cfg) = true → cfg_ProjectID cfg = p →
  Good (db w) → current_where ok (db w) →
  Good (db w') ∧ current_where (λ y, ok y ∧ y ≠ c) (db w') ∧ evolves (db w) (db w').
Proof.
  intros (t & Hn & Ht & Hdb & _ & Hp & Hc & Hst & Hus & _)%snapshot_Create_rows Hcfg Hl Hcp.
  assert (srows (db w') = <[ID (snp_meta s') := s']> (srows (db w))) as Hs by by rewrite Hdb.
  assert (crows (db w') = crows (db w)) as Hcr by by rewrite Hdb.
  assert (∀ k y, srows (db w) !! k = Some y → srows (db w') !! k = Some y) as Hkeep.
  { intros k y Hy. rewrite Hs. apply lookup_insert_Some. right. split; [congruence|done]. }
  assert (∀ k, used (db w) k → used (db w') k) as Hused.
  { intros k (i & y & Hy & ?). exists i, y. split; [by apply Hkeep|done]. }
  intros [Hi Hk Hr Hpub] Hcur. split_and!; [split| |split; [| |done]].
  - unfold Inv. rewrite Hs, Hcr. apply inv_snapshot_insert; try done.
    exists cfg. rewrite Hc, Hp. done.
  - rewrite Hcr. apply Hk.
  - rewrite Hcr. apply Hr.
  - rewrite Hcr. intros k y Hy Hz. by apply Hused, (Hpub k y).
  - intros k y. rewrite Hs, lookup_insert_Some. intros [[<- <-]|[_ Hy]] Hly [Hok Hne]; [done|].
    destruct (Hcur k y Hy Hly Hok) as (k' & y' & Hy' & ?). exists k', y'.
    rewrite <-Hs. split; [by apply Hkeep|done].
  - intros k y Hy. exists y. split; [by apply Hkeep|done].
  - intros k y Hy. exists y. rewrite Hcr. split; [done|]. split; [done|].
    intros _ z. unfold serves. rewrite Hs. split.
    + intros (i & x & [[<- <-]|[_ Hx]]%lookup_insert_Some & Hrel & Hxc); [|eauto].
      unfold is_released in Hrel. by rewrite Hst, andb_false_r in Hrel.
    + intros (i & x & Hx & ?). exists i, x. rewrite <-Hs. split; [by apply Hkeep|done].
Qed.

(** ** config.go *)

Lemma sound_config_map ok p h w w' : configs_mapped p h w w' →
  (∀ c, cfg_ProjectID (h c) = cfg_ProjectID c ∧ cfg_Key (h c) = cfg_Key c ∧
        cfg_RuntimeVersion (h c) = cfg_RuntimeVersion c ∧
        live (cfg_meta (h c)) = live (cfg_meta c)) → sound_where ok (db w) (db w').
Proof.
  intros [Hc Hs]%configs_mapped_rows Hh. eapply sound_configs; [exact Hc|exact Hs| |].
  - intros Hi. unfold Inv. rewrite Hc, Hs. apply inv_config_map; [..|done];
      intros c; cbv beta; destruct (p c); try done; destruct (Hh c) as (? & ? & ? & ?); congruence.
  - intros k c _. cbv beta. destruct (p c); [|done]. by destruct (Hh c) as (? & ? & ? & ?).
Qed.

Lemma sound_config_Update ok e c u : steps (sound_where ok) (config_Update e c u).
Proof.
  intros w x w' (t & r & Hm & _)%config_Update_rows. by eapply sound_config_map.
Qed.
Lemma sound_config_UpdateValue ok e c u : steps (sound_where ok) (config_UpdateValue e c u).
Proof.
  intros w x w' (t & r & Hm & _)%config_UpdateValue_rows. by eapply sound_config_map.
Qed.

Lemma sound_config_Delete ok e c u x w w' : config_Delete e c u w = (Ok x, w') →
  ¬ used (db w) c → sound_where ok (db w) (db w').
Proof.
  intros (t1 & t2 & [Hc Hs]%configs_mapped_rows)%config_Delete_rows Hun.
  eapply sound_configs; [exact Hc|exact Hs| |intros k y _; cbv beta; by case_match].
  intros [Io Is Ir Ic]. unfold Inv. rewrite Hc, Hs. split; [|done..].
  intros k s Hk Hl. destruct (Io k s Hk Hl) as (y & Hy & Hyl & Hyp).
  exists y. rewrite lookup_fmap, Hy. simpl.
  destruct (ID (cfg_meta y) =? c) eqn:Hid; [|by rewrite andb_false_r]. bool_hyps.
  exfalso. apply Hun. exists k, s. split_and!; [done|done|].
  rewrite <-(config_key _ _ _ Hy). done.
Qed.

(** A soft-deleted configuration was never published. *)
Lemma deleted_unpublished d k c : Good d → crows d !! k = Some c →
  live (cfg_meta c) = false → cfg_RuntimeVersion c = 0 ∧ ¬ used d k.
Proof.
  intros HG Hc Hdel. assert (¬ used d k) as Hun.
  { intros (i & s & Hs & Hl & <-).
    destruct (inv_owner (good_inv _ HG) _ _ Hs Hl) as (c' & Hc' & Hl' & _). congruence. }
  split; [|done]. destruct (decide (cfg_RuntimeVersion c = 0)) as [?|Hn]; [done|].
  by destruct (Hun (good_published _ HG _ _ Hc Hn)).
Qed.

Lemma sound_config_created ok p config c w w' :
  srows (db w') = srows (db w) →
  config_created p config c (db w) (db w') → cfg_ProjectID config = p →
  cfg_RuntimeVersion config = 0 → sound_where ok (db w) (db w').
Proof.
  intros Hs (Hnone & Hn & Hc & Hrt & Hpc & Hkc) Hp0 Hzero [Hi Hk Hr Hpub] Hcur.
  assert (∀ k x, crows (db w) !! k = Some x → cfg_ProjectID x = cfg_ProjectID c →
    cfg_Key x ≠ cfg_Key c) as Hfresh.
  { intros k x Hx Hp Hkey. specialize (Hnone k x Hx ltac:(congruence)).
    rewrite Hkey, Hkc in Hnone. unfold text_eq in Hnone. by rewrite bool_decide_true in Hnone. }
  split_and!; [split|by apply (current_same _ (db w))|split; [| |intros k; by apply used_same]].
  - unfold Inv. rewrite Hs, Hc. by apply inv_config_insert.
  - intros k1 k2 c1 c2. rewrite Hc, !lookup_insert_Some.
    intros [[<- <-]|[_ H1]] [[<- <-]|[_ H2]] Hp Hkey; [done|exfalso..|by eapply Hk].
    + by eapply (Hfresh k2 c2).
    + by eapply (Hfresh k1 c1).
  - intros k x. rewrite Hc, lookup_insert_Some. intros [[<- <-]|[_ Hx]]; [|eauto].
    rewrite Hrt, Hzero. unfold max_int64. lia.
  - intros k x. rewrite Hc, lookup_insert_Some. intros [[<- <-]|[_ Hx]] Hx0; [congruence|].
    eapply used_same; [exact Hs|eauto].
  - intros k x Hx. exists x. by rewrite Hs.
  - intros k x Hx. exists x. rewrite Hc. split.
    { apply lookup_insert_Some. right. split; [congruence|done]. }
    split; [done|]. intros _ y. unfold serves. by rewrite Hs.
Qed.

Lemma sound_config_revived ok p config c w w' :
  srows (db w') = srows (db w) → config_revived p config c (db w) (db w') →
  cfg_RuntimeVersion config = 0 → sound_where ok (db w) (db w').
Proof.
  intros Hs (old & t & v & Hold & Hdel & _ & _ & Hc) Hzero HG Hcur.
  pose proof (deleted_unpublished _ _ _ HG Hold Hdel) as [Hr0 _].
  revert HG Hcur. eapply sound_configs; [exact Hc|exact Hs| |].
  - intros Hi. unfold Inv. rewrite Hs, Hc. apply inv_config_map; [| |done];
      intros y; cbv beta; by case_match.
  - intros k y Hy. cbv beta. case_match eqn:Hid; [|done]. bool_hyps. simpl.
    rewrite Hzero. pose proof (config_key _ _ _ Hy) as Hk.
    assert (y = old) as -> by congruence. done.
Qed.

(** A creation is sound even when it revives a soft-deleted row: its runtime
    generation starts again at zero, where it still was. *)
Lemma sound_config_Create ok e p config : cfg_ProjectID config = p →
  cfg_RuntimeVersion config = 0 → steps (sound_where ok) (config_Create e p config).
Proof.
  intros Hp Hz w c w' [Hs [Hc|Hc]]%config_Create_rows.
  - by eapply sound_config_created.
  - by eapply sound_config_revived.
Qed.
End evolution.

Notation sound := (sound_where anywhere).

Section publication.
Context {E : Engine} {EL : EngineLaws E} `{Collation} `{Store} `{Protojson} `{MapOrder}.

Lemma same_document_publish cid sid u t s : same_document s (publish_row cid sid u t s).
Proof.
  unfold publish_row. case_match; [|case_match; [|done]]; split; simpl; try done; lia.
Qed.
Lemma same_document_unpublish sid u t s : same_document s (unpublish_row sid u t s).
Proof. unfold unpublish_row. case_match; [|done]. split; simpl; try done; lia. Qed.

Lemma sound_publication request d d' cfg target at_ :
  publication request d d' cfg target at_ → sound d d'.
Proof.
  intros Hp HG Hcur. pose proof (good_inv _ HG) as HI.
  pose proof (pub_target _ _ _ _ _ _ Hp) as Ht. pose proof (pub_config _ _ _ _ _ _ Hp) as Hcfg.
  pose proof (config_key _ _ _ Hcfg) as Hcid.
  destruct (pub_crows _ _ _ _ _ _ Hp) as [at' Hc]. pose proof (pub_srows _ _ _ _ _ _ Hp) as Hs.
  pose proof (pub_valid _ _ _ _ _ _ Hp) as Hv. unfold validate in Hv. inv_ok.
  match goal with Hx : validateRuntimeVersion _ = _ |- _ =>
    apply validateRuntimeVersion_ok in Hx as [_ Hmax] end.
  assert (∀ k c, crows d !! k = Some c →
    later_config c (next_runtime_row (ID (cfg_meta cfg)) at' c) ∧
    0 ≤ cfg_RuntimeVersion (next_runtime_row (ID (cfg_meta cfg)) at' c) ≤ max_int64 ∧
    (ID (cfg_meta c) = ID (cfg_meta cfg) →
     cfg_RuntimeVersion (next_runtime_row (ID (cfg_meta cfg)) at' c) ≠ cfg_RuntimeVersion c))
    as Hnext.
  { intros k c Hk. pose proof (good_runtime _ HG _ _ Hk) as Hb. unfold next_runtime_row.
    pose proof (config_key _ _ _ Hk) as Hck.
    destruct (ID (cfg_meta c) =? ID (cfg_meta cfg)) eqn:Hid; bool_hyps;
      [|split_and!; [done|lia..|congruence]].
    assert (c = cfg) as -> by congruence. split_and!; [split| | |]; simpl; try done; lia. }
  match type of Hs with _ = ?f <$> _ => set (g := f) in Hs end.
  assert (∀ s, live (snp_meta (g s)) = live (snp_meta s) ∧ snp_IsUsing (g s) = snp_IsUsing s ∧
    snp_ConfigID (g s) = snp_ConfigID s) as Hg.
  { intros s. unfold g. case_match; unfold unpublish_row, publish_row; repeat case_match; done. }
  assert (∀ k, used d k → used d' k) as Hused.
  { intros k. eapply used_map; [exact Hs|]. intros i s _. by destruct (Hg s) as (? & ? & ?). }
  split_and!.
  - eapply good_map; [done|exact Hs|exact Hc|by eapply publication_inv|].
    intros k c Hk. destruct (next_runtime_same (ID (cfg_meta cfg)) at' c) as (-> & -> & _).
    destruct (Hnext k c Hk) as (_ & ? & Hne). split_and!; [done..|tauto|tauto|].
    intros Hnz. apply Hused. destruct (decide (k = snp_ConfigID target)) as [->|Hk'].
    + exists (pr_snapshotID request), target. split_and!; [done| |done].
      apply (pub_target_live _ _ _ _ _ _ Hp).
    + eapply (good_published _ HG); [exact Hk|]. unfold next_runtime_row in Hnz.
      pose proof (config_key _ _ _ Hk). destruct (_ =? _) eqn:Hid in Hnz; [|done].
      bool_hyps. congruence.
  - eapply current_map; [exact Hs| |exact Hcur]. intros k s _. apply Hg.
  - eapply evolves_map; [exact Hs|exact Hc| | | |exact Hused].
    + intros k s _. unfold g. case_match; [apply same_document_unpublish|apply same_document_publish].
    + intros k c Hk. by apply (Hnext k c Hk).
    + intros k s c Hk Hcs Hrt. destruct (Hnext _ _ Hcs) as (_ & _ & Hne).
      assert (snp_ConfigID s ≠ ID (cfg_meta cfg)) as Hoth.
      { intros Hx. apply Hne; [|done]. rewrite <-Hx. by eapply config_key. }
      assert (snapshot_id s =? pr_snapshotID request = false) as Hns.
      { apply Z.eqb_neq. unfold snapshot_id. intros Hx. apply Hoth.
        pose proof (snapshot_key _ _ _ Hk) as Hks. rewrite <-Hks, Hx, Ht in Hk.
        injection Hk as <-. by rewrite Hcid. }
      apply Z.eqb_neq in Hoth.
      unfold g. case_match; unfold unpublish_row, publish_row; rewrite Hns; [done|].
      by rewrite Hoth, andb_false_r.
Qed.
End publication.
