(* ===== verification/Coherence.v ===== *)
(** The cache of released content: an entry of a configuration's current
    generation holds what the configuration has released.  Reading keeps this,
    and so does every operation that evolves the database. *)

From S2P Require Import Prelude GoStd GoStrings Util Proto Codec Schema Engine Model Cache Convert World WorldLaws RepoScope Permission Credential RepoConfig RepoChild RepoSnapshot RepoProject RepoLaws LogicBase LogicPublish PublishLaws Evolution Jwt LogicAuth Middleware.
From Stdlib Require Import Ascii.

Local Open Scope Z_scope.

(** ** The names of cache entries

    Content keys and permission keys are injective in what they name, and never
    meet. *)

Definition colon_free (s : string) : bool :=
  forall_bytes (λ c, negb (bool_decide (c = ":"%char))) s.

Lemma digits_colon_free s acc n : parse_digits acc s = Some n → colon_free s = true.
Proof.
  revert acc. induction s as [|c s IH]; intros acc; simpl; [done|].
  destruct (is_digit c) eqn:Hc; [|done]. intros Hs. apply IH in Hs.
  unfold colon_free in *. simpl. rewrite Hs, andb_true_r.
  apply negb_true_iff, bool_decide_eq_false. by intros ->.
Qed.

Lemma format_int_colon_free z : colon_free (format_int z) = true.
Proof.
  assert (∀ n : N, colon_free (pretty n) = true) as HN.
  { intros n. pose proof (parse_uint_pretty n) as Hp. unfold parse_uint in Hp.
    destruct (pretty n) eqn:Hn; [done|]. rewrite <-Hn in *. by eapply digits_colon_free. }
  unfold format_int, pretty, pretty_Z. destruct z as [|p|p]; [done|apply (HN (Npos p))|].
  unfold colon_free. simpl. apply (HN (Npos p)).
Qed.

(** The text before the first colon. *)
Lemma colon_prefix a b a' b' :
  colon_free a = true → colon_free a' = true →
  a +:+ String ":" b = a' +:+ String ":" b' → a = a' ∧ b = b'.
Proof.
  revert a'. induction a as [|c a IH]; intros [|c' a'] Ha Ha' Heq;
    unfold colon_free in *; simpl in *.
  - by injection Heq.
  - injection Heq as <- _. simpl in Ha'. done.
  - injection Heq as -> _. simpl in Ha. done.
  - injection Heq as -> Heq. bool_hyps. destruct (IH a') as [-> ->]; done.
Qed.

(** The text after the last colon. *)
Lemma colon_suffix a b a' b' :
  colon_free b = true → colon_free b' = true →
  a +:+ String ":" b = a' +:+ String ":" b' → a = a' ∧ b = b'.
Proof.
  assert (∀ x y, colon_free (x +:+ String ":" y) = false) as Hnot.
  { intros x y. unfold colon_free. induction x as [|c x IH]; simpl; [done|].
    by rewrite IH, andb_false_r. }
  revert a'. induction a as [|c a IH]; intros [|c' a'] Hb Hb' Heq; simpl in *.
  - by injection Heq.
  - injection Heq as _ Heq. rewrite Heq, Hnot in Hb. done.
  - injection Heq as _ Heq. rewrite <-Heq, Hnot in Hb'. done.
  - injection Heq as -> Heq. destruct (IH a') as [-> ->]; done.
Qed.

Lemma format_int_inj a b : format_int a = format_int b → a = b.
Proof. apply (inj pretty). Qed.

Lemma contentCacheKey_inj p k v p' k' v' :
  contentCacheKey p k v = contentCacheKey p' k' v' → p = p' ∧ k = k' ∧ v = v'.
Proof.
  unfold contentCacheKey. intros Heq. apply (inj (String.append _)) in Heq.
  change (":" +:+ k +:+ ":" +:+ format_int v) with (String ":" (k +:+ String ":" (format_int v)))
    in Heq.
  change (":" +:+ k' +:+ ":" +:+ format_int v')
    with (String ":" (k' +:+ String ":" (format_int v'))) in Heq.
  apply colon_prefix in Heq as [Hp Heq]; [|apply format_int_colon_free..].
  apply colon_suffix in Heq as [-> Hv]; [|apply format_int_colon_free..].
  by apply format_int_inj in Hp, Hv.
Qed.

Lemma permissionContentKey_inj u e v u' e' v' :
  permissionContentKey u e v = permissionContentKey u' e' v' → u = u' ∧ e = e' ∧ v = v'.
Proof.
  unfold permissionContentKey. intros Heq. apply (inj (String.append _)) in Heq.
  change (":environment:" +:+ ?x) with (String ":" ("environment:" +:+ x)) in Heq.
  apply colon_prefix in Heq as [Hu Heq]; [|apply format_int_colon_free..].
  apply (inj (String.append _)) in Heq.
  change (":version:" +:+ ?x) with (String ":" ("version:" +:+ x)) in Heq.
  apply colon_prefix in Heq as [He Heq]; [|apply format_int_colon_free..].
  apply (inj (String.append _)) in Heq.
  apply format_int_inj in Hu, He, Heq. done.
Qed.

Lemma content_not_permission p k v : ¬ permission_key (contentCacheKey p k v).
Proof. by intros (u & e & n & Hk). Qed.

(** The counters of login attempts. *)
Definition login_key (k : string) : Prop := ∃ s, k = "auth:login:" +:+ s.

(** The counters of the request limits. *)
Definition rate_key (k : string) : Prop := ∃ s, k = "rate:" +:+ s.
Definition counter_key (k : string) : Prop := login_key k ∨ rate_key k.

(** What operations other than a runtime read write to the cache. *)
Definition administrative (k : string) : Prop := permission_key k ∨ counter_key k.

Lemma content_not_administrative p k v : ¬ administrative (contentCacheKey p k v).
Proof. by intros [(u & e & n & Hk)|[(s & Hk)|(s & Hk)]]. Qed.
Lemma counter_not_permission k : counter_key k → ¬ permission_key k.
Proof. by intros [(s & ->)|(s & ->)] (u & e & n & Hk). Qed.
Lemma loginRateKey_counter `{SHA256} `{UnicodeLower} u ip : counter_key (loginRateKey u ip).
Proof. left. by eexists. Qed.
Lemma rateKey_counter `{SHA256} n s : counter_key (rateKey n s).
Proof. right. by eexists. Qed.

(** Entries of the shared cache never collide: a content key determines the
    project, the configuration key and the generation (whatever text the
    configuration key is), a permission key determines the user, the environment
    and the generation, and no key is of two of the four kinds content,
    permission, login counter and request counter. *)
Theorem cache_keys_injective `{SHA256} `{UnicodeLower} :
  (∀ p k v p' k' v', contentCacheKey p k v = contentCacheKey p' k' v' →
     p = p' ∧ k = k' ∧ v = v') ∧
  (∀ u e v u' e' v', permissionContentKey u e v = permissionContentKey u' e' v' →
     u = u' ∧ e = e' ∧ v = v') ∧
  (∀ p k v u e n, contentCacheKey p k v ≠ permissionContentKey u e n) ∧
  (∀ k, counter_key k → (∀ p c v, k ≠ contentCacheKey p c v) ∧
     (∀ u e n, k ≠ permissionContentKey u e n)) ∧
  (∀ name ip space subject, loginRateKey name ip ≠ rateKey space subject).
Proof.
  split_and!; [apply contentCacheKey_inj|apply permissionContentKey_inj|..].
  - intros p k v u e n Heq. apply (content_not_permission p k v). by exists u, e, n.
  - intros k Hk. split; [intros p c v ->|intros u e n ->].
    + apply (content_not_administrative p c v). by right.
    + apply (counter_not_permission _ Hk). by exists u, e, n.
  - done.
Qed.


Section coherence.
Context {E : Engine} {EL : EngineLaws E} `{Collation} {St : Store} {SL : StoreLaws St}
  `{Protojson} `{Pepper}.

(** [content] is a snapshot of the configuration [cid] with the key [k] of the
    project [p], and [x] the value it gives the configuration. *)
Definition value_in (cid p : Z) (k content x : string) : Prop :=
  ∃ sn c, DecodeConfigSnapshot content = Ok sn ∧ sc_Config sn = Some c ∧
    Config_Id c = cid ∧ Config_ProjectId c = p ∧ Config_Key c = k ∧ Config_Value c = x.

(** What the configuration [cid] has released says [x]. *)
Definition released_value (d : DB) (cid : Z) (c : ConfigRow) (x : string) : Prop :=
  ∃ content, serves d cid content ∧ value_in cid (cfg_ProjectID c) (cfg_Key c) content x.

Definition Coherent (w : World) : Prop :=
  ∀ p k v x, holds (cache w) (contentCacheKey p k v) x →
    ∃ cid c, crows (db w) !! cid = Some c ∧ cfg_ProjectID c = p ∧ cfg_Key c = k ∧
      v ≤ cfg_RuntimeVersion c ∧
      (v = cfg_RuntimeVersion c → released_value (db w) cid c x).

(** Entries the step added are permissions or counters. *)
Definition adds_no_content (w w' : World) : Prop :=
  ∀ k v, holds (cache w') k v → holds (cache w) k v ∨ administrative k.

Lemma coherent_step w w' :
  evolves (db w) (db w') → adds_no_content w w' → Coherent w → Coherent w'.
Proof.
  intros [_ Hev _] Hadd Hco p k v x Hx. destruct (Hadd _ _ Hx) as [Hold|Hp];
    [|by apply content_not_administrative in Hp].
  destruct (Hco p k v x Hold) as (cid & c & Hc & <- & <- & Hle & Hval).
  destruct (Hev _ _ Hc) as (c' & Hc' & [Hp' Hk' Hr'] & Hserves).
  exists cid, c'. split_and!; [done..|lia|]. intros ->.
  destruct Hval as (content & Hs & Hv); [lia|]. exists content.
  rewrite Hp', Hk'. split; [|done]. apply Hserves; [lia|done].
Qed.

Lemma coherent_same w w' : db w' = db w → cache w' = cache w → Coherent w → Coherent w'.
Proof. unfold Coherent. by intros -> ->. Qed.

Lemma coherent_no_cache w : (∀ k v, ¬ holds (cache w) k v) → Coherent w.
Proof. intros Hn p k v x Hx. by apply Hn in Hx. Qed.

(** ** [readConfig] *)

Lemma run_FindRuntimeConfig p k c w w' : FindRuntimeConfig p k w = (Ok c, w') →
  crows (db w) !! ID (cfg_meta c) = Some c ∧ live (cfg_meta c) = true ∧
  cfg_ProjectID c = p ∧ text_eq (cfg_Key c) k = true ∧ same_store w w'.
Proof.
  intros Hr. unfold FindRuntimeConfig in Hr. inv_run.
  match goal with Hx : get _ _ = _ |- _ => apply run_get in Hx as [Hq Hst] end.
  symmetry in Hq. apply head_select in Hq as [Hrow Hp]. bool_hyps. done.
Qed.

Lemma run_releasedContent c x w w' : releasedContent c w = (Ok x, w') →
  released_value (db w) (ID (cfg_meta c)) c x ∧ same_store w w'.
Proof.
  intros Hr. unfold releasedContent in Hr.
  apply run_bind in Hr as (s & w1 & Hf & Hr). unfold FindReleasedSnapshot in Hf. inv_run.
  match goal with Hx : get _ _ = _ |- _ => apply run_get in Hx as [Hq Hst] end.
  symmetry in Hq. apply last_select in Hq as (Hrow & Hp & _). bool_hyps.
  match goal with Hx : wrap_err _ (DecodeConfigSnapshot _) = Ok ?d |- _ =>
    unfold wrap_err in Hx; destruct (DecodeConfigSnapshot _) as [d'|] eqn:Hd; [|done];
    injection Hx as -> end.
  match goal with Hx : match sc_Config ?d with _ => _ end _ = _ |- _ =>
    destruct (sc_Config d) as [cc|] eqn:Hcc; [|by apply run_throw in Hx] end.
  inv_run. bool_hyps. split; [|done].
  exists (snp_Content s). split.
  - exists (ID (snp_meta s)), s. split_and!; try done. unfold is_released.
    match goal with Hx : live _ = true |- _ => rewrite Hx end. by apply Z.eqb_eq.
  - eexists _, cc. split_and!; done.
Qed.

Lemma quiet_releasedContent c : quiet (releasedContent c).
Proof. unfold releasedContent, FindReleasedSnapshot. quiet. Qed.
Lemma quiet_FindRuntimeConfig p k : quiet (FindRuntimeConfig p k).
Proof. unfold FindRuntimeConfig. quiet. Qed.

Lemma readConfig_eq p k : readConfig p k =
  (config ← FindRuntimeConfig p k;
   version ← lift (wrap_err "runtime config version is invalid: "
                     (Safeint.Uint64FromInt64 (cfg_RuntimeVersion config)));
   let key := contentCacheKey p (cfg_Key config) (cfg_RuntimeVersion config) in
   content ← attempt (cache_get key);
   match content with
   | Ok content => mret {| rr_Content := content; rr_Version := version |}
   | Er e =>
       if negb (is_CacheNotFound e) then throw (EWrap "read runtime content cache: " e)
       else
         value ← releasedContent config;
         handle (EWrap "write runtime content cache: ") (cache_set key value contentTTL);;
         mret {| rr_Content := value; rr_Version := version |}
   end).
Proof. reflexivity. Qed.

Lemma reads_readConfig p k : reads (readConfig p k).
Proof.
  rewrite readConfig_eq. apply reads_bind; [apply reads_quiet, quiet_FindRuntimeConfig|intros c].
  apply reads_bind; [reads|intros v]. apply reads_bind; [reads|intros [x|e]]; [reads|].
  case_match; [reads|].
  apply reads_bind; [apply reads_quiet, quiet_releasedContent|intros x].
  apply reads_bind; [|reads]. apply reads_handle, reads_cache_set.
Qed.

Lemma coherent_get key w r w' : cache_get key w = (r, w') → Coherent w → Coherent w'.
Proof.
  unfold cache_get. destruct (Get _ _ _) as [x c] eqn:Hg. intros [= <- <-] Hco p k v y Hy.
  simpl in *. by eapply Hco, get_shrinks.
Qed.

(** Storing what a configuration has released under its current generation. *)
Lemma coherent_set c x ttl w r w' :
  cache_set (contentCacheKey (cfg_ProjectID c) (cfg_Key c) (cfg_RuntimeVersion c)) x ttl w
    = (r, w') →
  crows (db w) !! ID (cfg_meta c) = Some c → released_value (db w) (ID (cfg_meta c)) c x →
  Coherent w → Coherent w'.
Proof.
  unfold cache_set. destruct (Set_ _ _ _ _ _) as [y s] eqn:Hs. intros [= <- <-] Hc Hv Hco p k v z Hz.
  simpl in *. eapply set_holds in Hz as [Hz|[[-> [-> ->]]%contentCacheKey_inj ->]];
    [by apply Hco| |exact Hs].
  exists (ID (cfg_meta c)), c. done.
Qed.

Lemma coherent_quiet {A} (m : M A) w r w' : quiet m → m w = (r, w') → Coherent w → Coherent w'.
Proof. intros Hm [? ?]%Hm. by apply coherent_same. Qed.

Lemma coherent_readConfig p k w r w' :
  readConfig p k w = (r, w') → Coherent w → Coherent w'.
Proof.
  intros Hr Hco. rewrite readConfig_eq in Hr. unfold mbind at 1, M_bind in Hr.
  destruct (FindRuntimeConfig p k w) as [[c|e] w1] eqn:Hf;
    pose proof (quiet_run _ _ _ _ (quiet_FindRuntimeConfig p k) Hf) as Hst;
    [|injection Hr as <- <-; by eapply coherent_same; [apply Hst..|]].
  apply run_FindRuntimeConfig in Hf as (Hc & _ & Hp & _ & [Hd1 Hc1]).
  apply (coherent_same w w1) in Hco; [|done..]. rewrite <-Hd1 in Hc. clear Hst Hd1 Hc1.
  unfold mbind at 1, M_bind in Hr. destruct (lift _ w1) as [[v|e] w2] eqn:Hv;
    injection Hv as Hv <-; [|by injection Hr as <- <-].
  cbv zeta in Hr. unfold mbind at 1, M_bind, attempt in Hr.
  destruct (cache_get _ w1) as [got w3] eqn:Hg.
  pose proof (reads_run _ _ _ _ (reads_cache_get _) Hg) as Hd3. rewrite <-Hd3 in Hc.
  eapply coherent_get in Hco; [|exact Hg]. clear Hg.
  destruct got as [x|e]; [by injection Hr as <- <-|].
  destruct (negb _); [by injection Hr as <- <-|].
  unfold mbind at 1, M_bind in Hr. destruct (releasedContent c w3) as [[x|e'] w4] eqn:Hrel.
  - apply run_releasedContent in Hrel as [Hval [Hd4 Hc4]].
    apply (coherent_same w3 w4) in Hco; [|done..]. rewrite <-Hd4 in Hc, Hval.
    unfold mbind, M_bind, handle in Hr. subst p.
    destruct (cache_set _ _ _ w4) as [[u|e'] w5] eqn:Hset;
      (eapply coherent_set in Hset; [|done..]); by injection Hr as <- <-.
  - injection Hr as <- <-. by eapply coherent_quiet; [apply quiet_releasedContent| |].
Qed.

Lemma readConfig_correct p k w res w' :
  readConfig p k w = (Ok res, w') → Good (db w) → Coherent w →
  ∃ cid c, crows (db w) !! cid = Some c ∧ live (cfg_meta c) = true ∧ cfg_ProjectID c = p ∧
    text_eq (cfg_Key c) k = true ∧ rr_Version res = cfg_RuntimeVersion c ∧
    released_value (db w) cid c (rr_Content res).
Proof.
  intros Hr HG Hco. rewrite readConfig_eq in Hr. apply run_bind in Hr as (c & w1 & Hf & Hr).
  apply run_FindRuntimeConfig in Hf as (Hc & Hl & Hp & Hk & [Hd1 Hc1]).
  exists (ID (cfg_meta c)), c. apply (coherent_same w w1) in Hco; [|done..].
  rewrite <-Hd1 in *. clear Hd1 Hc1. split_and!; try done.
  all: apply run_bind in Hr as (v & w2 & Hv & Hr); apply run_lift in Hv as [Hv ->];
    apply run_bind in Hr as (got & w3 & Hg & Hr); unfold attempt in Hg.
  all: match type of Hg with (let '(_, _) := cache_get ?key ?s in _) = _ =>
      destruct (cache_get key s) as [x s1] eqn:Hget end; injection Hg as -> <-.
  - assert (v = cfg_RuntimeVersion c) as ->.
    { pose proof (good_runtime _ HG _ _ Hc). unfold wrap_err in Hv.
      destruct (Safeint.Uint64FromInt64 _) as [u|eu] eqn:Hu; [injection Hv as ->|discriminate Hv].
      unfold Safeint.Uint64FromInt64 in Hu. destruct (_ <? 0) in Hu; [discriminate Hu|]. injection Hu as <-.
      apply Safeint.uint64_id. unfold Safeint.unsigned, max_int64 in *. lia. }
    destruct got as [x|e]; [by inv_run|]. case_match; inv_run. done.
  - destruct got as [x|e].
    + inv_run. simpl. unfold cache_get in Hget.
      destruct (Get _ _ _) as [y s] eqn:Hy. injection Hget as -> _.
      apply get_holds in Hy. apply Hco in Hy as (cid' & c' & Hc' & Hp' & Hk' & _ & Hval).
      assert (cid' = ID (cfg_meta c)) as ->
        by (eapply (good_keys _ HG _ _ c' c); [done|done|congruence|done]).
      rewrite Hc in Hc'. injection Hc' as <-. by apply Hval.
    + pose proof (reads_run _ _ _ _ (reads_cache_get _) Hget) as Hd.
      case_match; inv_run. simpl. rewrite <-Hd.
      match goal with Hx : releasedContent _ _ = _ |- _ =>
        apply run_releasedContent in Hx as [Hval _]; exact Hval end.
Qed.
End coherence.
