(* ===== verification/SampleWorld.v ===== *)
(** A concrete installation for the witnesses: the map engine, the in-memory
    cache, one project with an enabled environment, a member who may publish,
    and a configuration with a released and an unreleased snapshot. *)

From S2P Require Import Prelude GoStd GoStrings Json Proto Codec CodecLaws Schema SchemaSpec Engine Model Cache Convert World WorldLaws RepoScope Permission Credential Password Jwt RepoLaws LogicBase LogicAuth LogicPublish ObjectStore.
Import Sample.

Local Open Scope Z_scope.

Module SampleWorld.

#[export] Instance engine : Engine := map_engine.
#[export] Instance engine_laws : EngineLaws engine := map_engine_laws.
#[export] Instance collation : Collation := λ s, s.
#[export] Instance store : Store := Memory.memory_store.
#[export] Instance store_laws : StoreLaws store := Memory.memory_laws.

Definition first_value : string := marshal (JString "v1").
Definition message : Config := config (base STRING) false first_value.

(** A codec for one value of each message: its text is the empty object. *)
Definition constant {A} (m : A) : ProtoJSON A :=
  {| proto_marshal _ _ := Ok "{}"; proto_unmarshal _ := Ok m |}.
#[export] Instance codec : Protojson := {|
  field_type_json := constant {| Kind := Some (Field_Type_BaseType STRING) |};
  field_json := constant (mk_field "name" "name" "" false (base STRING));
  config_json := constant message;
  structure_json := constant owner;
  enum_json := constant colour;
  tree_json := constant (Node None []);
|}.

Definition document : string :=
  json_object [("config", "{}"); ("structures", "[]"); ("enums", "[]"); ("tree", "{}")].

Definition meta (id version : Z) : Meta :=
  {| ID := id; CreatedBy := 1; UpdatedBy := 1; CreatedAt := 0; UpdatedAt := 0;
     Version := version; DeletedAt := None |}.
Definition record (id : Z) : RecordMeta := {| r_ID := id; r_CreatedAt := 0; r_UpdatedAt := 0 |}.

Definition project : ProjectRow :=
  {| prj_meta := meta 1 1; prj_EnvironmentID := 0; prj_Key := "shop"; prj_Name := "Shop";
     prj_Description := "" |}.
Definition environment : EnvironmentRow :=
  {| env_meta := meta 1 1; env_ProjectID := 1; env_Key := "prod"; env_Name := "Production";
     env_Description := ""; env_Enabled := true |}.
Definition main : ConfigRow :=
  {| cfg_meta := meta 1 1; cfg_ProjectID := 1; cfg_Key := "main"; cfg_Description := "";
     cfg_IsArray := false; cfg_TypeJSON := "{}"; cfg_Value := first_value;
     cfg_RuntimeVersion := 1 |}.
Definition snapshot (id status : Z) (using_ : bool) : SnapshotRow :=
  {| snp_meta := meta id 1; snp_ProjectID := 1; snp_ConfigID := 1; snp_ConfigKey := "main";
     snp_Description := ""; snp_Content := document; snp_Status := status;
     snp_TagsJSON := "[]"; snp_IsUsing := using_; snp_PublishedAt := None;
     snp_PublishedBy := None |}.
Definition member : UserRow :=
  {| usr_meta := meta 7 1; usr_Username := "ann"; usr_DisplayName := "Ann";
     usr_PasswordHash := ""; usr_Enabled := true; usr_IsSystemAdmin := false;
     usr_MustChangePassword := false; usr_LastLoginAt := None |}.
Definition publisher : RoleRow :=
  {| rol_meta := meta 1 1; rol_Key := "publisher"; rol_Name := "Publisher";
     rol_Description := ""; rol_Builtin := false |}.
Definition may_publish : PermissionRow :=
  {| prm_meta := record 1; prm_Key := SnapshotPublish; prm_Name := ""; prm_Description := "" |}.
Definition grant : RolePermissionRow :=
  {| rpm_meta := record 1; rpm_RoleID := 1; rpm_PermissionID := 1; rpm_CreatedBy := 1 |}.
Definition assignment : UserEnvironmentRoleRow :=
  {| uer_meta := record 1; uer_UserID := 7; uer_EnvironmentID := 1; uer_RoleID := 1;
     uer_CreatedBy := 1 |}.

(** Stand-ins for the cryptographic functions: a text cut or filled up to a
    length. *)
Fixpoint dots (n : nat) : string := match n with O => "" | S n => "." +:+ dots n end.
Definition fit (n : nat) (s : string) : string := String.substring 0 n (s +:+ dots n).
#[export] Instance argon2 : Argon2 := λ plain salt _ _ _ n,
  fit (Z.to_nat n) (plain +:+ "/" +:+ salt).
Lemma dots_length n : String.length (dots n) = n.
Proof. induction n as [|n IH]; [done|]. change (S (String.length (dots n)) = S n). by rewrite IH. Qed.
Lemma substring_length n s : (n ≤ String.length s)%nat →
  String.length (String.substring 0 n s) = n.
Proof.
  revert n. induction s as [|a s IH]; intros [|n] Hn; simpl in *; try done; [lia|].
  by rewrite IH by lia.
Qed.
Lemma fit_length n s : len (fit n s) = Z.of_nat n.
Proof.
  unfold len, fit. f_equal. apply substring_length. rewrite app_length_s, dots_length. lia.
Qed.
#[export] Instance argon2_laws : Argon2Laws argon2.
Proof. intros plain salt t m p n Hn. unfold IDKey, argon2. rewrite fit_length. lia. Qed.
#[export] Instance sha : SHA256 := λ s, fit 32 s.
#[export] Instance lower : UnicodeLower := λ r, r.

(** UUIDs are their canonical text. *)
#[export] Instance uuid : UUIDLib := λ s,
  if (len s =? 36) && forall_bytes uuid_char s then Some s else None.
#[export] Instance uuid_laws : UUIDLaws uuid.
Proof.
  intros s t. unfold uuid_text, uuid. destruct (_ && _) eqn:Hb; [|done]. intros [= ->].
  by bool_hyps.
Qed.

(** A token library that knows one token. *)
Definition signing_key : string := "a signing key of thirty-two bytes".
Definition known_claims : Claims :=
  {| cl_SessionID := fit 32 "session"; cl_Issuer := "kirby"; cl_Subject := "7";
     cl_Audience := [Audience]; cl_ExpiresAt := Some AccessTTL; cl_NotBefore := Some 0;
     cl_IssuedAt := Some 0; cl_ID := "id" |}.
#[export] Instance claims_eq_dec : EqDecision Claims.
Proof. solve_decision. Defined.
#[export] Instance jwt_library : JWTLib := {|
  SignedString kid key c :=
    if decide (kid = "k1" ∧ key = signing_key ∧ c = known_claims) then Ok "token"
    else Er (EOther "unknown claims");
  ParseWithClaims keyfunc accepts text :=
    if bool_decide (text = "token") && bool_decide (keyfunc (Some "k1") = Some signing_key)
       && accepts known_claims then Some known_claims else None;
|}.
#[export] Instance jwt_library_laws : JWTLaws jwt_library.
Proof.
  split.
  2:{ intros kid key c text kf accepts c'. simpl. case_decide as Hd; [|done].
      destruct Hd as (_ & _ & ->). intros _. case_match; [|done]. by intros [= <-]. }
  2:{ intros kid key c text. simpl. case_decide; [|done]. by intros [= <-]. }
  - intros kid key c text kf accepts. simpl. case_decide as Hd; [|done].
    destruct Hd as (-> & -> & ->). intros [= <-] Hk Ha. by rewrite !bool_decide_true, Ha.
  - intros kf accepts text c. simpl. destruct (accepts known_claims) eqn:Ha;
      rewrite ?andb_false_r; [|done]. case_match; [|done]. by intros [= <-].
Qed.

Definition manager : Manager :=
  {| issuer := "kirby"; audience := Audience; activeKID := "k1"; accessTTL := AccessTTL;
     signing_keys := {["k1" := signing_key]} |}.
#[export] Instance deployment : Deployment :=
  {| passwords := NewDefault; tokens := manager; refreshTTL := refreshTokenTTL;
     dummyHash := hash_with NewDefault (fit 16 "salt") "no password" |}.

(** A keyed digest for the credentials, and the key of a reading client. *)
#[export] Instance pepper : Pepper := λ full, "digest of " +:+ full.
Definition client : Generated :=
  Generate "public entropy.." "secret entropy, thirty-two bytes".
Definition client_key : ProjectAPIKeyRow :=
  {| key_meta := record 1; key_ProjectID := 1; key_PublicID := PublicID client;
     key_Name := "client"; key_SecretHash := Hash client;
     key_SecretSuffix := SecretSuffix client; key_CreatedBy := 1; key_LastUsedAt := None;
     key_RevokedAt := None |}.

Definition database : DB :=
  {| environments := {[1 := environment]} : gmap Z _; users := {[7 := member]} : gmap Z _;
     roles := {[1 := publisher]} : gmap Z _; permissions := {[1 := may_publish]} : gmap Z _;
     user_environment_roles := {[1 := assignment]} : gmap Z _;
     role_permissions := {[1 := grant]} : gmap Z _; refresh_tokens := (∅ : gmap Z _);
     projects := {[1 := project]} : gmap Z _; project_api_keys := {[1 := client_key]} : gmap Z _;
     configs := {[1 := main]} : gmap Z _; structures := (∅ : gmap Z _);
     config_enums := (∅ : gmap Z _);
     snapshots := {[1 := snapshot 1 SnapshotStatusReleased false;
                    2 := snapshot 2 SnapshotStatusUnreleased true]} : gmap Z _;
     import_records := (∅ : gmap Z _); audit_logs := (∅ : gmap Z _);
     application_secrets := (∅ : gmap Z _) |}.

Definition world : World :=
  {| db := database; cache := Memory.newMemory : cstate; faults := [];
     clock := λ n, Z.of_nat n + 100; ticks := 0; entropy := λ _, ""; drawn := 0 |}.

Definition ann : Actor := {| UserID := 7; RequestID := "r" |}.

Example publish_runs : (Publish ann 1 2 1 world).1 =
  Ok {| snp_meta := {| ID := 2; CreatedBy := 1; UpdatedBy := 7; CreatedAt := 0;
          UpdatedAt := 102; Version := 2; DeletedAt := None |};
        snp_ProjectID := 1; snp_ConfigID := 1; snp_ConfigKey := "main";
        snp_Description := ""; snp_Content := document;
        snp_Status := SnapshotStatusReleased; snp_TagsJSON := "[]"; snp_IsUsing := true;
        snp_PublishedAt := Some 102; snp_PublishedBy := Some 7 |}.
Proof. vm_compute. reflexivity. Qed.

Example publish_needs_permission :
  (Publish {| UserID := 8; RequestID := "r" |} 1 2 1 world).1 = Er EForbidden.
Proof. vm_compute. reflexivity. Qed.

Example publish_stale : (Publish ann 1 2 5 world).1 = Er (EConflict "snapshot version is stale").
Proof. vm_compute. reflexivity. Qed.

Lemma database_inv : Inv (E := engine) database.
Proof.
  assert (srows (E := engine) database =
    {[1 := snapshot 1 SnapshotStatusReleased false;
      2 := snapshot 2 SnapshotStatusUnreleased true]}) as Hs by (vm_compute; reflexivity).
  assert (crows (E := engine) database = {[1 := main]}) as Hc by (vm_compute; reflexivity).
  unfold Inv. rewrite Hs, Hc. split.
  - intros k s Hk _. exists main.
    apply lookup_insert_Some in Hk as [[<- <-]|[_ [<- <-]%lookup_singleton_Some]]; done.
  - intros k s Hk.
    apply lookup_insert_Some in Hk as [[<- <-]|[_ [<- <-]%lookup_singleton_Some]];
      [by right|by left].
  - intros k1 k2 s1 s2 H1 H2.
    apply lookup_insert_Some in H1 as [[<- <-]|[_ [<- <-]%lookup_singleton_Some]];
    apply lookup_insert_Some in H2 as [[<- <-]|[_ [<- <-]%lookup_singleton_Some]]; done.
  - intros k1 k2 s1 s2 H1 H2.
    apply lookup_insert_Some in H1 as [[<- <-]|[_ [<- <-]%lookup_singleton_Some]];
    apply lookup_insert_Some in H2 as [[<- <-]|[_ [<- <-]%lookup_singleton_Some]]; done.
Qed.

End SampleWorld.
