(* ===== verification/CodecSpec.v ===== *)
(** The documents kept in text columns are read back as written: snapshot
    contents, field lists, enumeration options and snapshot tags. *)

From Stdlib Require Import Ascii.
From S2P Require Import Prelude GoStd GoStrings Json Proto Codec CodecLaws Schema Engine Model Convert World SchemaSpec SampleWorld.

Local Open Scope Z_scope.

(** ** Numbers as the scanner reads them *)

Definition digits (s : string) : bool := forall_bytes is_digit s.

Lemma parse_digits_digits s acc n : parse_digits acc s = Some n → digits s = true.
Proof.
  revert acc. induction s as [|c s IH]; intros acc; simpl; [done|].
  destruct (is_digit c) eqn:Hc; [|done]. intros Hs. apply IH in Hs.
  unfold digits in *. simpl. by rewrite Hc.
Qed.

Lemma take_digits_closes s r : digits s = true → closes r → take_digits (s +:+ r) = (s, r).
Proof.
  unfold digits. intros Hs Hr. induction s as [|c s IH]; simpl in *.
  - rewrite app_empty_s. destruct r as [|c r]; [done|]. simpl.
    by destruct Hr as [->|[->| ->]].
  - apply andb_true_iff in Hs as [Hc Hs]. by rewrite Hc, IH.
Qed.

Lemma pretty_N_go_head n s : (0 < n)%N →
  ∃ c t, pretty_N_go n s = String c t ∧ is_digit c = true ∧ c ≠ "0"%char.
Proof.
  revert s. induction (N.lt_wf_0 n) as [n _ IH]; intros s Hn.
  rewrite pretty_N_go_step by done.
  destruct (N.eq_0_gt_0_cases (n `div` 10)%N) as [Hz|Hp].
  - rewrite Hz, pretty_N_go_0. eexists _, _. split; [done|].
    apply N.div_small_iff in Hz; [|done]. rewrite N.mod_small by done.
    destruct (pretty_char_digit n Hz) as [Hd Hb]. split; [done|].
    intros Heq. rewrite Heq in Hb. change (byte "0"%char - 48) with 0 in Hb. lia.
  - apply IH; [|done]. by apply N.div_lt.
Qed.

(** The texts of [strconv.Itoa]: zero, or digits that do not start with zero. *)
Lemma pretty_number (n : N) : pretty n = "0" ∨
  ∃ c t, pretty n = String c t ∧ is_digit c = true ∧ c ≠ "0"%char ∧ digits t = true.
Proof.
  destruct (decide (n = 0)%N) as [->|Hn]; [by left|]. right.
  destruct (pretty_N_go_head n "") as (c & t & Ht & Hc & Hz); [lia|].
  assert (pretty n = String c t) as Hp.
  { rewrite <-Ht. unfold pretty, pretty_N. by rewrite decide_False. }
  exists c, t. split_and!; try done. pose proof (parse_uint_pretty n) as Hu.
  rewrite Hp in Hu. apply parse_digits_digits in Hu. unfold digits in *. simpl in Hu.
  by bool_hyps.
Qed.

Lemma take_int_nonzero c t : c ≠ "0"%char → is_digit c = true →
  take_int (String c t) = Some (take_digits (String c t)).
Proof.
  intros Hz Hd. unfold take_int. rewrite Hd.
  destruct c as [[] [] [] [] [] [] [] []]; done.
Qed.

Lemma take_int_pretty (n : N) r : closes r → take_int (pretty n +:+ r) = Some (pretty n, r).
Proof.
  intros Hr. destruct (pretty_number n) as [->|(c & t & -> & Hc & Hz & Ht)]; [done|].
  rewrite app_cons_s, take_int_nonzero by done. f_equal. rewrite <-app_cons_s.
  apply take_digits_closes; [|done]. unfold digits. simpl. by rewrite Hc.
Qed.

Lemma rest_closes r : closes r → take_frac r = Some ("", r) ∧ take_exp r = Some ("", r).
Proof. destruct r as [|c r]; [done|]. by intros [->|[->| ->]]. Qed.

Lemma format_int_cases z : (∃ n : N, format_int z = pretty n) ∨
  ∃ n : N, format_int z = String "-" (pretty n).
Proof.
  destruct z as [|p|p]; [by left; exists 0%N|by left; exists (Npos p)|by right; exists (Npos p)].
Qed.

Lemma take_number_format z r : closes r →
  take_number (format_int z +:+ r) = Some (format_int z, r).
Proof.
  intros Hr. destruct (rest_closes r Hr) as [Hfrac Hexp]. unfold take_number.
  destruct (format_int_cases z) as [[n ->]|[n ->]].
  - assert (∀ X, (match pretty n +:+ r with String "-" s' => ("-", s') | _ => ("", X) end) =
      (EmptyString, X)) as ->.
    { intros X. destruct (pretty_number n) as [->|(c & t & -> & Hc & _)]; [done|].
      rewrite app_cons_s. by destruct c as [[] [] [] [] [] [] [] []]. }
    rewrite take_int_pretty by done. cbn [mbind option_bind]. rewrite Hfrac. cbn [mbind option_bind].
    rewrite Hexp. cbn [mbind option_bind]. by rewrite app_empty_s, !app_nil_s.
  - rewrite app_cons_s. rewrite take_int_pretty by done. cbn [mbind option_bind]. rewrite Hfrac.
    cbn [mbind option_bind]. rewrite Hexp. cbn [mbind option_bind]. by rewrite !app_nil_s.
Qed.

Lemma format_int_head z : ∃ c t, format_int z = String c t ∧
  (is_digit c = true ∨ c = "-"%char).
Proof.
  destruct (format_int_cases z) as [[n ->]|[n ->]]; [|by eexists _, _; eauto].
  destruct (pretty_number n) as [->|(c & t & -> & Hc & _)]; eexists _, _; eauto.
Qed.

Lemma number_raw z : raw_text 0 (format_int z).
Proof.
  destruct (format_int_head z) as (c & t & Hz & Hc).
  assert (is_ws c = false ∧ c ≠ "]"%char ∧ c ≠ "}"%char ∧ c ≠ "{"%char ∧ c ≠ "["%char ∧
    c ≠ quote ∧ c ≠ "t"%char ∧ c ≠ "f"%char ∧ c ≠ "n"%char) as (Hw & ? & ? & ? & ? & ? & ? & ? & ?).
  { destruct Hc as [Hc| ->]; [|done].
    split_and!; [by destruct c as [[] [] [] [] [] [] [] []]|by intros ->..]. }
  split; [by exists c, t|]. intros n d r _ Hn Hr. destruct n as [|n]; [lia|].
  pose proof (take_number_format z r Hr) as Htake.
  rewrite Hz, app_cons_s in *. cbn [scan_value skip_ws]. rewrite Hw.
  rewrite !decide_False by done. rewrite Htake. eauto.
Qed.

(** ** Tags *)

Lemma unmarshal_tag_format z : - 2 ^ 31 ≤ z ≤ 2 ^ 31 - 1 →
  unmarshal_tag (format_int z) = Some z.
Proof.
  intros Hz. destruct (format_int_head z) as (c & t & Hf & Hc). unfold unmarshal_tag.
  rewrite decide_False by (rewrite Hf; intros [= -> _]; by destruct Hc).
  rewrite Hf. cbn [mbind option_bind].
  assert (is_digit c || bool_decide (c = "-"%char) = true) as ->.
  { destruct Hc as [->| ->]; done. }
  rewrite <-Hf, parse_int64_format.
  - cbn [mbind option_bind]. rewrite (proj2 (in_range_spec _ _ _)); [done|lia].
  - unfold is_int64. apply in_range_spec. unfold min_int64, max_int64. lia.
Qed.

(** The readers turn a nil slice into an empty one. *)
Lemma tags_roundtrip l : Forall (λ z, - 2 ^ 31 ≤ z ≤ 2 ^ 31 - 1) (default [] l) →
  ∃ text, EncodeTags l = Ok text ∧ DecodeTags text = Ok (default [] l).
Proof.
  intros Hl. destruct l as [l|]; [|by exists "null"]. simpl in Hl.
  exists (json_array (format_int <$> l)). split; [done|]. unfold DecodeTags.
  rewrite (slice_array 0); [|done|done|apply Forall_fmap, Forall_true; apply number_raw].
  cbn [mbind option_bind of_option].
  assert (mapM unmarshal_tag (format_int <$> l) = Some l) as ->; [|done].
  apply mapM_Some, Forall2_fmap_l, Forall_Forall2_diag.
  eapply Forall_impl; [exact Hl|]. apply unmarshal_tag_format.
Qed.

(** ** Options *)

Definition plain_option (o : SelectOption) : Prop :=
  plain (Option_Label o) ∧ plain (Option_Value o) ∧ plain (Option_Description o).

Lemma string_raw s : plain s → raw_text 0 (marshal_string s).
Proof. intros Hs. by apply (canonical_raw (JString s)), canonical_string. Qed.

Lemma set_string_marshal s t : plain s → set_string t (marshal_string s) = Some s.
Proof.
  intros Hs. unfold set_string. change (marshal_string s) with (marshal (JString s)).
  by rewrite (decode_marshal (JString s)) by (done || by apply canonical_string).
Qed.

Lemma option_raw_members o : plain_option o →
  Forall (raw_member 0) ((λ '(k, v), (k, marshal_string v)) <$> option_members o).
Proof.
  intros (Hl & Hv & Hd). unfold option_members. apply Forall_fmap, Forall_forall.
  intros [k v] Hin. apply list_elem_of_In, filter_In in Hin as [Hin _].
  apply list_elem_of_In in Hin. rewrite !elem_of_cons in Hin.
  destruct Hin as [[= -> ->]|[[= -> ->]|[[= -> ->]|Hin]]]; [..|by apply elem_of_nil in Hin].
  all: split; [done|by apply string_raw].
Qed.

Lemma option_raw o : from_option plain_option True o → raw_text 1 (marshal_option o).
Proof.
  destruct o as [o|]; simpl; intros Ho.
  - apply (object_raw 0); [done|]. by apply option_raw_members.
  - apply (raw_text_weaken 0); [done|]. apply (canonical_raw JNull), canonical_null.
Qed.

Lemma set_label o s : plain s → set_option_member o ("label", marshal_string s) =
  Some {| Option_Label := s; Option_Value := Option_Value o;
          Option_Description := Option_Description o |}.
Proof.
  intros Hs. unfold set_option_member.
  replace (names_field "label" "label") with true by (vm_compute; reflexivity).
  by rewrite set_string_marshal.
Qed.
Lemma set_value o s : plain s → set_option_member o ("value", marshal_string s) =
  Some {| Option_Label := Option_Label o; Option_Value := s;
          Option_Description := Option_Description o |}.
Proof.
  intros Hs. unfold set_option_member.
  replace (names_field "value" "label") with false by (vm_compute; reflexivity).
  replace (names_field "value" "value") with true by (vm_compute; reflexivity).
  by rewrite set_string_marshal.
Qed.
Lemma set_description o s : plain s → set_option_member o ("description", marshal_string s) =
  Some {| Option_Label := Option_Label o; Option_Value := Option_Value o;
          Option_Description := s |}.
Proof.
  intros Hs. unfold set_option_member.
  replace (names_field "description" "label") with false by (vm_compute; reflexivity).
  replace (names_field "description" "value") with false by (vm_compute; reflexivity).
  replace (names_field "description" "description") with true by (vm_compute; reflexivity).
  by rewrite set_string_marshal.
Qed.

Lemma unmarshal_option_marshal o : from_option plain_option True o →
  unmarshal_option (marshal_option o) = Some o.
Proof.
  destruct o as [o|]; [|done]. simpl. intros Ho. unfold unmarshal_option.
  rewrite (open_object 0) by (done || by apply option_raw_members).
  cbn [mbind option_bind]. destruct Ho as (Hl & Hv & Hd), o as [l v d]; simpl in *.
  unfold option_members. cbn [Option_Label Option_Value Option_Description List.filter snd].
  destruct (decide (l = "")) as [->|Hl0]; destruct (decide (v = "")) as [->|Hv0];
    destruct (decide (d = "")) as [->|Hd0].
  all: repeat match goal with
    | Hx : ?x ≠ EmptyString |- _ => rewrite (bool_decide_false _ Hx); clear Hx
    end; rewrite ?(bool_decide_true ("" = "")) by done.
  all: cbn -[set_option_member marshal_string].
  all: repeat (first [rewrite set_label by done | rewrite set_value by done
    | rewrite set_description by done]; cbn -[set_option_member marshal_string]); done.
Qed.

Lemma options_roundtrip l : Forall (from_option plain_option True) (default [] l) →
  ∃ text, EncodeOptions l = Ok text ∧ DecodeOptions text = Ok (default [] l).
Proof.
  intros Hl. destruct l as [l|]; [|by exists "null"]. simpl in Hl.
  exists (json_array (marshal_option <$> l)). split; [done|]. unfold DecodeOptions.
  rewrite (slice_array 1); [|done|done|].
  2:{ apply Forall_fmap. eapply Forall_impl; [exact Hl|]. apply option_raw. }
  cbn [mbind option_bind of_option].
  assert (mapM unmarshal_option (marshal_option <$> l) = Some l) as ->; [|done].
  apply mapM_Some, Forall2_fmap_l, Forall_Forall2_diag.
  eapply Forall_impl; [exact Hl|]. apply unmarshal_option_marshal.
Qed.

(** ** Theorems *)

(** C37: what [EncodeConfigSnapshot] of entity/snapshot.go writes into a
    snapshot row, [DecodeConfigSnapshot] reads back unchanged: the
    configuration, its structures and enumerations in their order, and its
    tree, for messages that [protojson] itself round-trips within a nesting of
    9000. *)
Theorem snapshot_document_roundtrip `{Protojson} (config : Config) (tree : TreeNode)
    (structures : list Structure) (enums : list ConfigEnum)
    (Hc : storable true config) (Ht : storable true tree)
    (Hs : Forall (storable true) structures) (He : Forall (storable true) enums) :
  ∃ text, EncodeConfigSnapshot (Some {| sc_Config := Some config;
            sc_Structures := Some <$> structures; sc_Enums := Some <$> enums;
            sc_Tree := Some tree |}) = Ok text ∧
    DecodeConfigSnapshot text = Ok {| sc_Config := Some config;
      sc_Structures := Some <$> structures; sc_Enums := Some <$> enums; sc_Tree := Some tree |}.
Proof. exact (snapshot_roundtrip config tree structures enums Hc Ht Hs He). Qed.

(** The text columns of converter/json.go are read back as written.  The
    fields of a structure come back in order (for messages that [protojson]
    round-trips); so do the options of an enumeration, nil entries and omitted
    members included, when their texts need no escaping; so do the tags of a
    snapshot for all 32-bit numbers, negative ones too.  A nil slice comes back
    as an empty one. *)
Theorem columns_roundtrip `{Protojson} (fields : list Field)
    (options : option (list (option SelectOption))) (tags : option (list Z))
    (Hf : Forall (storable true) fields)
    (Ho : Forall (from_option plain_option True) (default [] options))
    (Ht : Forall (λ z, - 2 ^ 31 ≤ z ≤ 2 ^ 31 - 1) (default [] tags)) :
  (∃ text, EncodeFields (Some <$> fields) = Ok text ∧
           DecodeFields text = Ok (Some <$> fields)) ∧
  (∃ text, EncodeOptions options = Ok text ∧ DecodeOptions text = Ok (default [] options)) ∧
  (∃ text, EncodeTags tags = Ok text ∧ DecodeTags text = Ok (default [] tags)).
Proof.
  split; [by apply fields_roundtrip|]. split; [by apply options_roundtrip|by apply tags_roundtrip].
Qed.

(** ** Dates and times *)

(** A test of the numbers from [z] on. *)
Fixpoint all_from (n : nat) (z : Z) (p : Z → bool) : bool :=
  match n with O => true | S n => if p z then all_from n (z + 1) p else false end.
Lemma all_from_spec n z p x : all_from n z p = true → z ≤ x < z + Z.of_nat n → p x = true.
Proof.
  revert z. induction n as [|n IH]; intros z; [lia|]. simpl. destruct (p z) eqn:Hp; [|done].
  intros Ha Hx. destruct (decide (x = z)) as [->|]; [done|]. apply (IH (z + 1)); [done|lia].
Qed.

(** The year of a day within an era of 400 years: [civil] finds it by a
    division whose dividend grows with the day. *)
Definition era_days (yoe : Z) : Z := 365 * yoe + yoe / 4 - yoe / 100.
Definition corrected (doe : Z) : Z := doe - doe / 1460 + doe / 36524 - doe / 146096.

Lemma corrected_mono a b : a ≤ b → corrected a ≤ corrected b.
Proof.
  assert (∀ x, corrected x ≤ corrected (x + 1)) as Hs.
  { intros x. unfold corrected. Z.to_euclidean_division_equations. lia. }
  intros Hab. replace b with (a + Z.of_nat (Z.to_nat (b - a))) by lia.
  induction (Z.to_nat (b - a)) as [|n IH]; [by replace (a + Z.of_nat 0) with a by lia|].
  replace (a + Z.of_nat (S n)) with (a + Z.of_nat n + 1) by lia. by etrans.
Qed.
(** The last day of a year; the last year of an era is a leap year. *)
Definition era_last (yoe : Z) : Z := if yoe =? 399 then 146096 else era_days (yoe + 1) - 1.

Lemma era_years : all_from 400 0 (λ y,
  (corrected (era_days y) / 365 =? y) && (corrected (era_last y) / 365 =? y)
  && ((era_last y =? era_days y + 364) || (era_last y =? era_days y + 365) && is_leap (y + 1))) = true.
Proof. vm_compute. reflexivity. Qed.

Lemma era_year doe : 0 ≤ doe < 146097 → ∃ y, 0 ≤ y < 400 ∧ corrected doe / 365 = y ∧
  (0 ≤ doe - era_days y ≤ 364 ∨ doe - era_days y = 365 ∧ is_leap (y + 1) = true).
Proof.
  intros Hd. assert (∃ y, 0 ≤ y < 400 ∧ era_days y ≤ doe ≤ era_last y) as (y & Hy & Hb).
  { assert (∀ n, 0 ≤ Z.of_nat n < 400 → doe ≤ era_last (Z.of_nat n) →
      ∃ y, 0 ≤ y < 400 ∧ era_days y ≤ doe ≤ era_last y) as Hs.
    { induction n as [|n IH]; intros Hn Hl; [by exists 0; split; [lia|]; change (era_days 0) with 0; split; [lia|]|].
      destruct (decide (era_days (Z.of_nat (S n)) ≤ doe)) as [|Hlt]; [by exists (Z.of_nat (S n))|].
      apply IH; [lia|]. unfold era_last. destruct (Z.eqb_spec (Z.of_nat n) 399); [lia|].
      replace (Z.of_nat n + 1) with (Z.of_nat (S n)) by lia. lia. }
    apply (Hs 399%nat); [lia|]. unfold era_last. simpl. lia. }
  exists y. pose proof (all_from_spec _ _ _ y era_years ltac:(lia)) as Hc. cbv beta in Hc.
  apply andb_true_iff in Hc as [[H1%Z.eqb_eq H2%Z.eqb_eq]%andb_true_iff H3].
  pose proof (corrected_mono _ _ (proj1 Hb)) as Hm1. pose proof (corrected_mono _ _ (proj2 Hb)) as Hm2.
  apply (Z.div_le_mono _ _ 365) in Hm1, Hm2; [|done..].
  split; [done|]. split; [lia|]. apply orb_true_iff in H3 as [H3%Z.eqb_eq|[H3%Z.eqb_eq Hl]%andb_true_iff]; [lia|].
  destruct (decide (doe - era_days y = 365)); [right; done|left; lia].
Qed.

(** Month and day of a day of the year that begins in March. *)
Definition month_day (doy : Z) : Z * Z :=
  let mp := (5 * doy + 2) / 153 in
  (if mp <? 10 then mp + 3 else mp - 9, doy - (153 * mp + 2) / 5 + 1).
Lemma month_days : all_from 366 0 (λ doy, let '(m, d) := month_day doy in
  in_range 1 12 m && (1 <=? d)
  && (if m =? 2 then (d <=? 28) || (doy =? 365) && (d <=? 29) else d <=? days_in m 1)
  && ((doy <? 365) || (m =? 2))) = true.
Proof. vm_compute. reflexivity. Qed.

Lemma is_leap_era y e : is_leap (y + e * 400) = is_leap y.
Proof.
  unfold is_leap. replace (y + e * 400) with (y + (e * 100) * 4) at 1 by ring.
  rewrite Z.mod_add by done. replace (y + e * 400) with (y + (e * 4) * 100) at 1 by ring.
  rewrite Z.mod_add by done. by rewrite Z.mod_add.
Qed.


Definition good_date (date : Z * Z * Z) : bool :=
  let '(y, m, d) := date in in_range 1 12 m && in_range 1 (days_in m y) d.

(** Every day number has a date of the calendar. *)
Lemma civil_date days : good_date (civil days) = true.
Proof.
  unfold civil. set (z := days + 719468). set (doe := z mod 146097).
  assert (0 ≤ doe < 146097) as Hd by by apply Z.mod_pos_bound.
  destruct (era_year doe Hd) as (y & Hy & Hyoe & Hdoy). unfold corrected in Hyoe. rewrite Hyoe.
  change (365 * y + y / 4 - y / 100) with (era_days y). set (doy := doe - era_days y) in *.
  pose proof (all_from_spec _ _ _ doy month_days ltac:(lia)) as Hm. cbv beta in Hm.
  unfold month_day in Hm. cbv zeta in *.
  set (mp := (5 * doy + 2) / 153) in *. set (d := doy - (153 * mp + 2) / 5 + 1) in *.
  set (m := if mp <? 10 then mp + 3 else mp - 9) in *. clearbody m d. clear mp Hyoe.
  unfold good_date. bool_hyps. unfold in_range in *. bool_hyps.
  rewrite !andb_true_iff, !Z.leb_le. split_and!; [done..|].
  unfold days_in in *. destruct (Z.eqb_spec m 2) as [->|Hne].
  - replace (y + z / 146097 * 400 + (if 2 <=? 2 then 1 else 0)) with (y + 1 + z / 146097 * 400) by (simpl; ring).
    rewrite is_leap_era. destruct Hdoy as [Hdoy|[Hdoy ->]].
    + match goal with Hx : (d <=? 28) || _ = true |- _ => apply orb_true_iff in Hx as [Hx|Hx] end; bool_hyps; [|lia].
      destruct (is_leap _); lia.
    + match goal with Hx : (d <=? 28) || _ = true |- _ => apply orb_true_iff in Hx as [Hx|Hx] end; bool_hyps; lia.
  - match goal with Hx : (d <=? _) = true |- _ => apply Z.leb_le in Hx; exact Hx | _ => done end.
Qed.

(** *** Fields of fixed width *)

Lemma pad2 n : 0 ≤ n < 100 → ∃ a b, pad 2 n = String a (String b "") ∧
  ∀ fixed r, getnum fixed (String a (String b r)) = Some (n, r).
Proof.
  intros Hn. assert (all_from 100 0 (λ n, match pad 2 n with
    | String a (String b "") => is_digit a && is_digit b && ((byte a - 48) * 10 + (byte b - 48) =? n)
    | _ => false end) = true) as Hall by (vm_compute; reflexivity).
  apply (all_from_spec _ _ _ n) in Hall; [|lia]. cbv beta in Hall.
  destruct (pad 2 n) as [|a [|b [|]]]; try done. bool_hyps. exists a, b. split; [done|].
  intros fixed r. simpl. repeat match goal with Hx : is_digit _ = true |- _ => rewrite Hx end.
  by subst.
Qed.
Lemma pad4 n : 0 ≤ n < 10000 → ∃ a b c d, pad 4 n = String a (String b (String c (String d ""))) ∧
  ∀ r, get_year (String a (String b (String c (String d r)))) = Some (n, r).
Proof.
  intros Hn. assert (all_from (Z.to_nat 10000) 0 (λ n, match pad 4 n with
    | String a (String b (String c (String d ""))) =>
        bool_decide (parse_digits 0 (String a (String b (String c (String d "")))) = Some n)
    | _ => false end) = true) as Hall by (vm_compute; reflexivity).
  apply (all_from_spec _ _ _ n) in Hall; [|lia]. cbv beta in Hall.
  destruct (pad 4 n) as [|a [|b [|c [|d [|]]]]]; try done. apply bool_decide_eq_true in Hall.
  exists a, b, c, d. split; [done|]. intros r. unfold get_year. by rewrite Hall.
Qed.

Lemma format_digits z : 0 ≤ z → forall_bytes is_digit (format_int z) = true.
Proof. intros Hz. by apply format_uint. Qed.
Lemma pad_digits n z : 0 ≤ z → forall_bytes is_digit (pad n z) = true.
Proof.
  intros Hz. unfold pad. rewrite forall_bytes_app, format_digits, andb_true_r by done.
  induction (n - _)%nat; simpl; done.
Qed.
Lemma trim_zeros_digits s : forall_bytes is_digit s = true → forall_bytes is_digit (trim_zeros s) = true.
Proof.
  induction s as [|c s IH]; simpl; [done|]. intros [Hc Hs]%andb_true_iff. specialize (IH Hs).
  destruct (trim_zeros s); [case_bool_decide|]; simpl in *; by rewrite ?Hc, ?IH.
Qed.
Lemma take_digits_app s c r : forall_bytes is_digit s = true → is_digit c = false →
  take_digits (s +:+ String c r) = (s, String c r).
Proof.
  intros Hs Hc. induction s as [|a s IH]; simpl in *; [by rewrite Hc|].
  apply andb_true_iff in Hs as [-> Hs]. by rewrite IH.
Qed.

Definition fraction_text (f : string) : string := if bool_decide (f = "") then "" else "." +:+ f.
Lemma skip_fraction_text f : forall_bytes is_digit f = true →
  skip_fraction (fraction_text f +:+ "Z") = "Z".
Proof.
  intros Hf. unfold fraction_text. case_bool_decide as Hd; [done|]. destruct f as [|a f]; [done|].
  change (skip_fraction (String "." (String a (f +:+ "Z"))) = "Z"). unfold skip_fraction.
  pose proof Hf as Ha. simpl in Ha. apply andb_true_iff in Ha as [Ha _]. rewrite Ha.
  change (String a (f +:+ "Z")) with (String a f +:+ String "Z" ""). by rewrite take_digits_app.
Qed.

(** An instant of a year that four digits can write is written as its date, and
    the text is one that the layout accepts. *)
Lemma rfc3339_parses t y m d f : civil (t / 10 ^ 9 / 86400) = (y, m, d) → 0 ≤ y ≤ 9999 →
  parse_chunks rfc3339_layout f (rfc3339nano t) = Some {| cf_year := y; cf_month := m; cf_day := d |}.
Proof.
  intros Hc Hy. pose proof (civil_date (t / 10 ^ 9 / 86400)) as Hg. rewrite Hc in Hg. unfold good_date in Hg.
  apply andb_true_iff in Hg as [Hm Hd]. pose proof Hm as Hm'. pose proof Hd as Hd'.
  apply in_range_spec in Hm', Hd'.
  assert (days_in m y ≤ 31) as H31 by (unfold days_in; repeat case_match; lia).
  unfold rfc3339nano. rewrite Hc. rewrite (proj2 (Z.ltb_ge y 0)) by lia.
  pose proof (Z.mod_pos_bound (t / 10 ^ 9) 86400 ltac:(done)) as Hs.
  set (s := (t / 10 ^ 9) mod 86400) in *. set (frac := trim_zeros _).
  assert (forall_bytes is_digit frac = true) as Hfrac.
  { apply trim_zeros_digits, pad_digits, Z.mod_pos_bound. done. }
  clearbody frac. fold (fraction_text frac).
  destruct (pad4 y ltac:(lia)) as (y1 & y2 & y3 & y4 & -> & Hyear).
  destruct (pad2 m ltac:(lia)) as (m1 & m2 & -> & Hmonth).
  destruct (pad2 d ltac:(lia)) as (d1 & d2 & -> & Hday).
  destruct (pad2 (s / 3600)) as (h1 & h2 & -> & Hhour); [Z.to_euclidean_division_equations; lia|].
  destruct (pad2 (s / 60 mod 60)) as (i1 & i2 & -> & Hmin); [Z.to_euclidean_division_equations; lia|].
  destruct (pad2 (s mod 60)) as (s1 & s2 & -> & Hsec); [Z.to_euclidean_division_equations; lia|].
  rewrite !app_cons_s, !app_empty_s.
  unfold rfc3339_layout, date_layout, time_layout. cbn [app parse_chunks].
  rewrite Hyear. cbn [mbind option_bind]. rewrite !decide_True by done.
  unfold within. rewrite Hmonth. cbn [mbind option_bind]. rewrite Hm. cbn [mbind option_bind cf_year cf_month cf_day].
  rewrite !decide_True, Hday by done. cbn [mbind option_bind]. rewrite !decide_True by done.
  rewrite Hhour. cbn [mbind option_bind].
  assert (in_range 0 23 (s / 3600) = true) as -> by (apply in_range_spec; Z.to_euclidean_division_equations; lia).
  cbn [mbind option_bind]. rewrite !decide_True, Hmin by done. cbn [mbind option_bind].
  assert (in_range 0 59 (s / 60 mod 60) = true) as -> by (apply in_range_spec; Z.to_euclidean_division_equations; lia).
  cbn [mbind option_bind]. rewrite !decide_True, Hsec by done. cbn [mbind option_bind].
  assert (in_range 0 59 (s mod 60) = true) as -> by (apply in_range_spec; Z.to_euclidean_division_equations; lia).
  cbn [mbind option_bind]. by rewrite skip_fraction_text.
Qed.


Lemma digits_plain s : forall_bytes is_digit s = true → plain s.
Proof.
  apply forall_bytes_impl. intros c. unfold is_digit, html_safe, in_range. lia.
Qed.
Lemma plain_app a b : plain a → plain b → plain (a +:+ b).
Proof. unfold plain. intros Ha Hb. by rewrite forall_bytes_app, Ha, Hb. Qed.
Lemma rfc3339_plain t : plain (rfc3339nano t).
Proof.
  unfold rfc3339nano. cbv zeta. destruct (civil _) as [[y m] d] eqn:Hc.
  pose proof (civil_date (t / 10 ^ 9 / 86400)) as Hg. rewrite Hc in Hg. unfold good_date in Hg.
  apply andb_true_iff in Hg as [Hm%in_range_spec Hd%in_range_spec].
  pose proof (Z.mod_pos_bound (t / 10 ^ 9) 86400 ltac:(done)) as Hs.
  set (s := (t / 10 ^ 9) mod 86400) in *.
  assert (∀ n z, 0 ≤ z → plain (pad n z)) as Hp by (intros; by apply digits_plain, pad_digits).
  repeat match goal with |- plain (_ +:+ _) => apply plain_app end; try done;
    try (apply Hp; lia || (Z.to_euclidean_division_equations; lia)).
  - destruct (Z.ltb_spec y 0); [apply (plain_app "-"); [done|]|]; apply Hp; lia.
  - case_bool_decide; [done|]. apply (plain_app "."); [done|].
    apply digits_plain, trim_zeros_digits, pad_digits, Z.mod_pos_bound. done.
Qed.

(** ** At the sample codec *)

Section sample.
Import SampleWorld Sample.

Lemma object_stored {A} (m : A) : @storable A (constant m) true m.
Proof.
  exists "{}", "{}". split; [reflexivity|]. split; [vm_compute; reflexivity|].
  split; [|split; [discriminate|reflexivity]].
  apply (raw_text_weaken 1); [discriminate|].
  apply (canonical_raw (JObject [])). apply canonical_object; constructor.
Qed.

Lemma snapshot_document_roundtrip_witness :
  ∃ text, EncodeConfigSnapshot (Some {| sc_Config := Some message;
            sc_Structures := Some <$> [owner]; sc_Enums := Some <$> [colour];
            sc_Tree := Some (Node None []) |}) = Ok text ∧
    DecodeConfigSnapshot text = Ok {| sc_Config := Some message;
      sc_Structures := Some <$> [owner]; sc_Enums := Some <$> [colour];
      sc_Tree := Some (Node None []) |}.
Proof.
  apply (snapshot_document_roundtrip message (Node None []) [owner] [colour]).
  - apply object_stored.
  - apply object_stored.
  - constructor; [apply object_stored|constructor].
  - constructor; [apply object_stored|constructor].
Defined.

Definition red : SelectOption :=
  {| Option_Label := "Red"; Option_Value := "red"; Option_Description := "" |}.

Lemma columns_roundtrip_witness :
  ∃ text, EncodeOptions (Some [Some red; None]) = Ok text ∧
    DecodeOptions text = Ok [Some red; None].
Proof.
  apply (columns_roundtrip [] (Some [Some red; None]) (Some [0; -7; 2])).
  - constructor.
  - constructor; [repeat split|constructor; [exact I|constructor]].
  - repeat constructor; discriminate.
Defined.
End sample.
