(* ===== verification/PermissionSpec.v ===== *)
(** The permission check decides what the rows of users, environments, roles
    and permissions say, whether it reads them or the cache. *)

From stdpp Require Import sorting.
From S2P Require Import Prelude GoStd GoStrings Json Schema Engine Model Cache World WorldLaws RepoScope Permission LogicBase LogicPublish Coherence SchemaSpec SampleWorld.

Local Open Scope Z_scope.

(** ** Normalised key lists *)

Lemma elem_of_keep l kept k :
  k ∈ fold_left keep_key l kept ↔ k ∈ kept ∨ (k ∈ l ∧ k ≠ "").
Proof.
  revert kept. induction l as [|x l IH]; intros kept; simpl; [set_solver|].
  rewrite IH. unfold keep_key.
  destruct (bool_decide (x = "")) eqn:Hx; bool_hyps; simpl; [set_solver|].
  destruct (bool_decide (head kept = Some x)) eqn:Hh; bool_hyps; [|set_solver].
  apply head_Some_elem_of in Hh. set_solver.
Qed.

Lemma elem_of_normalize l k : k ∈ normalize l ↔ k ∈ l ∧ k ≠ "".
Proof.
  unfold normalize. rewrite list_elem_of_In, <-in_rev, <-list_elem_of_In, elem_of_keep.
  unfold sort_strings. rewrite (merge_sort_Permutation string_le l). set_solver.
Qed.

(** What is written to the cache is read back. *)
Lemma decode_encode l : Forall plain l →
  decodePermissions (encodePermissions l) = Some (normalize l).
Proof.
  intros Hl. unfold decodePermissions, encodePermissions, decodeJSON.
  rewrite decode_marshal.
  - simpl. assert (mapM string_of_json (JString <$> l) = Some l) as ->; [|done].
    apply mapM_Some, Forall2_fmap_l, Forall_Forall2_diag. by apply Forall_true.
  - apply canonical_array, Forall_fmap. eapply Forall_impl; [exact Hl|]. apply canonical_string.
  - cbn [nesting]. assert (foldr (λ x m, Z.max (nesting x) m) 0 (JString <$> l) = 0) as ->;
      [|done].
    clear Hl. induction l as [|x l IH]; [done|]. cbn. by rewrite IH.
Qed.

Section permission.
Context {E : Engine} {EL : EngineLaws E} `{Collation} {St : Store} {SL : StoreLaws St}.

(** ** The specification: what the rows say *)

(** Roles of [u] in [e] grant the key [k]. *)
Definition key_granted (d : DB) (u e : Z) (k : string) : Prop :=
  ∃ p, rows (permissions d) !! row_id p = Some p ∧ granted d u e p = true ∧ prm_Key p = k.

(** [u] is an enabled live user and [e] a live environment whose row is [env];
    [admin] says whether the user administers the system, and otherwise the
    environment is enabled and the user is a member of it. *)
Record identified (d : DB) (u e : Z) (admin : bool) (env : EnvironmentRow) : Prop := {
  id_user : ∃ user, rows (users d) !! u = Some user ∧ usr_Enabled user = true ∧
    live (usr_meta user) = true ∧ usr_IsSystemAdmin user = admin;
  id_positive : 0 < e;
  id_environment : rows (environments d) !! e = Some env;
  id_live : live (env_meta env) = true;
  id_version : 0 ≤ Version (env_meta env);
  id_member : admin = false → env_Enabled env = true ∧
    ∃ a, rows (user_environment_roles d) !! row_id a = Some a ∧ uer_UserID a = u ∧
         uer_EnvironmentID a = e;
}.

Definition allowed (d : DB) (u e : Z) (ks : list string) : Prop :=
  ∃ admin env, identified d u e admin env ∧
    (admin = false → ∀ k, k ∈ ks → key_granted d u e k).

(** The permission table holds the seeded keys, plain text all of them. *)
Definition plain_permissions (d : DB) : Prop :=
  ∀ k p, rows (permissions d) !! k = Some p → plain (prm_Key p).

(** An entry of an environment's current generation lists the granted keys. *)
Definition PermissionCoherent (w : World) : Prop :=
  ∀ u e v x env, holds (cache w) (permissionContentKey u e v) x →
    rows (environments (db w)) !! e = Some env → Version (env_meta env) = v →
    ∀ keys, decodePermissions x = Some keys →
      ∀ k, k ∈ keys ↔ k ≠ "" ∧ key_granted (db w) u e k.

Lemma permission_coherent_same w w' :
  same_store w w' → PermissionCoherent w → PermissionCoherent w'.
Proof. unfold PermissionCoherent. by intros [-> ->]. Qed.

(** ** Successful reads *)

Lemma run_enabledUser u user w w' : enabledUser u w = (Ok user, w') →
  rows (users (db w)) !! u = Some user ∧ usr_Enabled user = true ∧
  live (usr_meta user) = true.
Proof.
  intros Hr. unfold enabledUser in Hr. inv_run.
  match goal with Hx : get _ _ = _ |- _ => apply run_get in Hx as [Q _]; symmetry in Q end.
  apply head_select in Q as [Hrow Hp]. bool_hyps. simpl in *. split_and!; congruence.
Qed.

Lemma run_identity u e i w w' : identity u e w = (Ok i, w') →
  ∃ env, identified (db w) u e (SystemAdmin i) env ∧
    EnvironmentVersion i = Version (env_meta env).
Proof.
  intros Hr. unfold identity in Hr. apply run_bind in Hr as (x & w1 & Hi & Hr).
  apply run_handle in Hi. simpl in Hi. unfold db_Identity in Hi.
  apply run_bind in Hi as (user & w2 & Huser & Hi).
  assert (db w2 = db w) as Hd2.
  { eapply reads_run; [|exact Huser]. unfold enabledUser. reads. }
  apply run_enabledUser in Huser. destruct (Z.leb_spec e 0) as [He|He].
  { apply run_ret in Hi as [<- ->]. simpl in Hr. change (0 =? 0) with true in Hr.
    by apply run_throw in Hr. }
  apply run_bind in Hi as (found & w3 & Hf & Hi). apply run_handle, run_get in Hf as [Hf [Hd3 _]].
  apply run_bind in Hi as (member & w4 & Hm & Hi). apply run_handle, run_find in Hm as [Hm [Hd4 _]].
  apply run_ret in Hi as [<- ->]. simpl in Hr. rewrite Hd3, Hd2 in *.
  destruct found as [env|].
  2:{ change (0 =? 0) with true in Hr. by apply run_throw in Hr. }
  symmetry in Hf. apply head_select in Hf as [Hrow Hp]. simpl in Hrow. bool_hyps.
  destruct (ID (env_meta env) =? 0) eqn:Hz; [by apply run_throw in Hr|].
  destruct (negb (usr_IsSystemAdmin user) && _) eqn:Hmem; [by apply run_throw in Hr|].
  destruct (Version (env_meta env) <? 0) eqn:Hv; [by apply run_throw in Hr|].
  apply run_ret in Hr as [<- _]. simpl. bool_hyps. exists env. split; [|done]. split; try done.
  - exists user. destruct Huser as (? & ? & ?). done.
  - congruence.
  - intros Hadm. rewrite Hadm in Hmem. simpl in Hmem. bool_hyps. split; [done|].
    destruct member as [|a l]; [done|].
    assert (a ∈ a :: l) as Hin by by left. rewrite Hm in Hin.
    apply select_spec in Hin as [Ha Hpa]. bool_hyps. by exists a.
Qed.

Lemma run_keys u e keys w w' : db_KeysForUserEnvironment u e w = (Ok keys, w') →
  same_store w w' ∧ ∀ k, k ∈ keys ↔ key_granted (db w) u e k.
Proof.
  intros Hr. unfold db_KeysForUserEnvironment in Hr. apply run_handle, run_find in Hr as [-> Hst].
  split; [done|]. intros k. unfold sort_strings.
  rewrite (merge_sort_Permutation string_le _), elem_of_remove_dups, list_elem_of_fmap.
  unfold key_granted. setoid_rewrite select_spec. naive_solver.
Qed.

(** ** One attempt *)

(** The keys an attempt may answer. *)
Definition granted_list (d : DB) (u e : Z) (keys : list string) : Prop :=
  ∀ k, k ∈ keys ↔ k ≠ "" ∧ key_granted d u e k.

Lemma run_load u e key env keys cached w w' :
  loadPermissions u e key w = (Ok (keys, cached), w') →
  key = permissionContentKey u e (Version (env_meta env)) →
  rows (environments (db w)) !! e = Some env → PermissionCoherent w →
  granted_list (db w) u e keys ∧
  (cached = false → ∃ l, keys = normalize l ∧ ∀ k, k ∈ l → key_granted (db w) u e k).
Proof.
  intros Hr -> Henv Hco. unfold loadPermissions, cachedPermissions in Hr.
  apply run_bind in Hr as (c & w1 & Hc & Hr). apply run_bind in Hc as (got & w2 & Hg & Hc).
  apply run_ret in Hc as [<- ->]. unfold attempt in Hg.
  destruct (cache_get _ w) as [x w3] eqn:Hget. injection Hg as -> <-.
  assert (db w3 = db w) as Hd by by eapply reads_cache_get.
  destruct (match got with Ok x => decodePermissions x | Er _ => None end) as [l|] eqn:Hl.
  - apply run_ret in Hr as [[= -> <-] _]. split; [|done].
    destruct got as [x|]; [|done]. unfold cache_get in Hget.
    destruct (Get _ _ _) as [y s] eqn:Hy. injection Hget as -> _. apply get_holds in Hy.
    intros k. by apply (Hco _ _ _ _ _ Hy Henv eq_refl _ Hl).
  - apply run_bind in Hr as (ks & w4 & Hks & Hr). apply run_ret in Hr as [[= <- <-] _].
    apply run_keys in Hks as [_ Hks]. rewrite Hd in Hks. split.
    + intros k. rewrite elem_of_normalize, Hks. tauto.
    + intros _. exists ks. split; [done|]. intros k. apply Hks.
Qed.

Lemma run_attempt u e keys admin w w' :
  resolveAttempt u e w = (Ok (keys, admin), w') → PermissionCoherent w →
  ∃ env, identified (db w) u e admin env ∧ (admin = false → granted_list (db w) u e keys).
Proof.
  intros Hr Hco. unfold resolveAttempt in Hr.
  apply run_bind in Hr as (first & w1 & Hfirst & Hr).
  pose proof (quiet_run _ _ _ _ (quiet_identity u e) Hfirst) as Hst.
  apply run_identity in Hfirst as (env & Hid & Hv).
  apply (permission_coherent_same _ _ Hst) in Hco. destruct Hst as [Hd1 _].
  rewrite <-Hd1 in Hid |- *. clear Hd1.
  destruct (SystemAdmin first) eqn:Hadm.
  { apply run_bind in Hr as (ks & w2 & _ & Hr). apply run_ret in Hr as [[= <- <-] _].
    by exists env. }
  apply run_bind in Hr as ([ks cached] & w2 & Hload & Hr).
  assert (db w2 = db w1) as Hd2.
  { eapply reads_run; [|exact Hload]. unfold loadPermissions, cachedPermissions. reads. }
  eapply run_load in Hload as [Hks _]; [|by rewrite Hv|apply Hid|done].
  apply run_bind in Hr as (conf & w3 & Hconf & Hr).
  apply run_identity in Hconf as (env' & Hid' & Hv'). rewrite Hd2 in Hid'.
  destruct (SystemAdmin conf) eqn:Hadm'.
  { apply run_bind in Hr as (ks' & w4 & _ & Hr). apply run_ret in Hr as [[= <- <-] _].
    by exists env'. }
  destruct (negb _); [by apply run_throw in Hr|].
  apply run_bind in Hr as (x & w4 & _ & Hr). apply run_ret in Hr as [[= <- <-] _].
  by exists env.
Qed.

(** ** The cache stays coherent *)

Lemma permission_coherent_get k w r w' :
  cache_get k w = (r, w') → PermissionCoherent w → PermissionCoherent w'.
Proof.
  unfold cache_get. destruct (Get _ _ _) as [x c] eqn:Hg. intros [= <- <-] Hco u e v y env Hy.
  simpl in *. eapply Hco. by eapply get_shrinks.
Qed.

Lemma permission_coherent_put u e env l w r w' :
  cachePermissions (permissionContentKey u e (Version (env_meta env))) l w = (r, w') →
  rows (environments (db w)) !! e = Some env → Forall plain l →
  (∀ k, k ∈ l ∧ k ≠ "" ↔ k ≠ "" ∧ key_granted (db w) u e k) →
  PermissionCoherent w → PermissionCoherent w'.
Proof.
  intros Hr Henv Hplain Hl Hco. unfold cachePermissions, mbind, M_bind, attempt, cache_set in Hr.
  destruct (Set_ _ _ _ _ _) as [x c] eqn:Hs. injection Hr as <- <-.
  intros u' e' v' y env' Hy Henv' Hv keys Hkeys k. cbn [db cache] in *.
  destruct (set_holds _ _ _ _ _ _ _ Hs _ _ Hy) as
    [Hold|[[-> [-> Hv']]%permissionContentKey_inj ->]]; [by eapply Hco|].
  rewrite decode_encode in Hkeys by done. injection Hkeys as <-.
  rewrite elem_of_normalize. apply Hl.
Qed.

Lemma granted_plain d u e k : plain_permissions d → key_granted d u e k → plain k.
Proof. intros Hp (p & Hrow & _ & <-). by eapply Hp. Qed.

Lemma coherent_load u e key r w w' : loadPermissions u e key w = (r, w') →
  PermissionCoherent w → PermissionCoherent w'.
Proof.
  intros Hr Hco. unfold loadPermissions, cachedPermissions, mbind, M_bind, attempt, mret, M_ret in Hr.
  cbn [KeysForUserEnvironment repositorySource] in Hr.
  destruct (cache_get key w) as [x w1] eqn:Hg. apply permission_coherent_get in Hg; [|done].
  destruct (match x with Ok _ => _ | Er _ => None end); [by injection Hr as <- <-|].
  destruct (db_KeysForUserEnvironment u e w1) as [y w2] eqn:Hk.
  apply (quiet_run _ _ _ _ (quiet_db_Keys u e)) in Hk.
  destruct y; injection Hr as <- <-; by eapply permission_coherent_same.
Qed.

Lemma permission_coherent_quiet {A} (m : M A) r w w' :
  quiet m → m w = (r, w') → PermissionCoherent w → PermissionCoherent w'.
Proof. intros Hq Hm. eapply permission_coherent_same, quiet_run; eauto. Qed.

Lemma coherent_attempt u e w r w' : resolveAttempt u e w = (r, w') →
  plain_permissions (db w) → PermissionCoherent w → PermissionCoherent w'.
Proof.
  intros Hr Hplain Hco. unfold resolveAttempt in Hr. unfold mbind at 1, M_bind in Hr.
  destruct (identity u e w) as [[first|x] w1] eqn:Hfirst;
    pose proof (quiet_run _ _ _ _ (quiet_identity u e) Hfirst) as Hst;
    apply (permission_coherent_same _ _ Hst) in Hco; [|by injection Hr as <- <-].
  apply run_identity in Hfirst as (env & Hid & Hv). destruct Hst as [Hd1 _].
  rewrite <-Hd1 in Hid, Hplain. clear Hd1.
  destruct (SystemAdmin first).
  { eapply permission_coherent_same; [|exact Hco]. eapply quiet_run; [|exact Hr].
    apply quiet_bind; [apply quiet_all_keys|quiet]. }
  unfold mbind at 1, M_bind in Hr.
  destruct (loadPermissions u e _ w1) as [[[ks cached]|x] w2] eqn:Hload;
    pose proof (coherent_load _ _ _ _ _ _ Hload Hco) as Hco2; [|by injection Hr as <- <-].
  assert (db w2 = db w1) as Hd2.
  { eapply reads_run; [|exact Hload]. unfold loadPermissions, cachedPermissions. reads. }
  eapply run_load in Hload as [Hks Hfresh]; [|by rewrite Hv|apply Hid|done].
  unfold mbind at 1, M_bind in Hr. destruct (identity u e w2) as [[conf|x] w3] eqn:Hconf;
    pose proof (quiet_run _ _ _ _ (quiet_identity u e) Hconf) as [Hd3 _];
    pose proof (permission_coherent_quiet _ _ _ _ (quiet_identity u e) Hconf Hco2) as Hco3;
    [|by injection Hr as <- <-].
  destruct (SystemAdmin conf).
  { eapply permission_coherent_quiet; [|exact Hr|done]. apply quiet_bind; [apply quiet_all_keys|quiet]. }
  destruct (negb _); [by injection Hr as <- <-|].
  destruct cached; [by injection Hr as <- <-|].
  destruct (Hfresh eq_refl) as (l & -> & Hl).
  unfold mbind, M_bind in Hr.
  destruct (cachePermissions _ _ w3) as [[[]|x] w4] eqn:Hput; injection Hr as <- <-.
  all: rewrite Hv in Hput; eapply permission_coherent_put; [exact Hput|..|done].
  all: try (rewrite Hd3, Hd2; apply Hid).
  all: try (apply Forall_forall; intros k [Hk _]%elem_of_normalize; eapply granted_plain;
    [exact Hplain|by apply Hl]).
  all: intros k; rewrite Hd3, Hd2, (Hks k); tauto.
Qed.

(** ** Without failures the check answers *)

Lemma enabledUser_ok u user w : faults w = [] → rows (users (db w)) !! u = Some user →
  usr_Enabled user = true → live (usr_meta user) = true → enabledUser u w = (Ok user, w).
Proof.
  intros Hf Hu He Hl. unfold enabledUser, mbind, M_bind. unfold get. rewrite wrapped_query_ok by done.
  pose proof (rows_id _ _ _ Hu) as Hid. simpl in Hid.
  match goal with |- context [head ?l] => destruct (head l) as [x|] eqn:Hh end.
  - apply head_select in Hh as [Hx Hp]. bool_hyps. simpl in *. simpl. unfold mret, M_ret. congruence.
  - apply (head_select_None _ _ Hh) in Hu. rewrite He, Hl, Hid, Z.eqb_refl in Hu. done.
Qed.

Lemma identity_ok u e a env w : faults w = [] → identified (db w) u e a env →
  ∃ i, identity u e w = (Ok i, w) ∧ SystemAdmin i = a ∧
       EnvironmentVersion i = Version (env_meta env).
Proof.
  intros Hf [(user & Hu & Hen & Hl & Ha) He Henv Hlive Hver Hmem].
  unfold identity. cbn [Identity repositorySource]. unfold db_Identity, mbind, M_bind, handle.
  rewrite (enabledUser_ok u user w) by done. destruct (Z.leb_spec e 0); [lia|].
  unfold get, find. rewrite wrapped_query_ok by done.
  pose proof (rows_id _ _ _ Henv) as Hid. simpl in Hid.
  match goal with |- context [head ?l] => destruct (head l) as [x|] eqn:Hh end.
  2:{ apply (head_select_None _ _ Hh) in Henv. rewrite Hlive, Hid, Z.eqb_refl in Henv. done. }
  apply head_select in Hh as [Hx Hp]. bool_hyps. simpl in *.
  assert (x = env) as -> by congruence. rewrite wrapped_query_ok by done. cbn.
  destruct (Z.eqb_spec (ID (env_meta env)) 0); [lia|].
  destruct (Z.ltb_spec (Version (env_meta env)) 0); [lia|]. rewrite Ha.
  destruct a; [by eexists|]. destruct (Hmem eq_refl) as (-> & m & Hm & Hmu & Hme).
  match goal with |- context [bool_decide (?l = [])] => destruct l as [|y l'] eqn:Hsel end.
  - apply (rows_select (λ a, (uer_UserID a =? u) && (uer_EnvironmentID a =? e))) in Hm.
    + rewrite Hsel in Hm. by apply elem_of_nil in Hm.
    + by rewrite Hmu, Hme, !Z.eqb_refl.
  - cbn. by eexists.
Qed.

Lemma all_keys_ok w : faults w = [] → ∃ keys, allPermissionKeys w = (Ok keys, w).
Proof.
  intros Hf. unfold allPermissionKeys. cbn [List repositorySource].
  unfold db_PermissionList, mbind, M_bind, find. rewrite wrapped_query_ok by done. by eexists.
Qed.

Lemma load_ok u e key w : faults w = [] → ∃ keys cached w',
  loadPermissions u e key w = (Ok (keys, cached), w') ∧ faults w' = [] ∧ db w' = db w.
Proof.
  intros Hf. unfold loadPermissions, cachedPermissions. cbn [KeysForUserEnvironment repositorySource].
  unfold mbind, M_bind, attempt, cache_get. destruct (Get _ _ _) as [x c].
  cbn. destruct (match x with Ok _ => _ | Er _ => None end) as [l|]; [by repeat eexists|].
  unfold db_KeysForUserEnvironment, find. rewrite wrapped_query_ok by done. by repeat eexists.
Qed.

Lemma attempt_ok u e a env w : faults w = [] → identified (db w) u e a env →
  ∃ keys w', resolveAttempt u e w = (Ok (keys, a), w').
Proof.
  intros Hf Hid. destruct (identity_ok _ _ _ _ _ Hf Hid) as (i & Hi & Ha & Hv).
  unfold resolveAttempt. unfold mbind at 1, M_bind. rewrite Hi, Ha. destruct a.
  - destruct (all_keys_ok w Hf) as (keys & Hk). unfold mbind, M_bind. rewrite Hk. by repeat eexists.
  - unfold mbind at 1, M_bind. rewrite Hv.
    destruct (load_ok u e (permissionContentKey u e (Version (env_meta env))) w Hf)
      as (keys & cached & w1 & -> & Hf1 & Hd1).
    rewrite <-Hd1 in Hid. destruct (identity_ok _ _ _ _ _ Hf1 Hid) as (i' & Hi' & Ha' & Hv').
    unfold mbind at 1, M_bind. rewrite Hi', Ha', Hv', Z.eqb_refl. cbn [negb].
    unfold mbind, M_bind. destruct cached; [by repeat eexists|].
    unfold cachePermissions, mbind, M_bind, attempt. destruct (cache_set _ _ _ _). by repeat eexists.
Qed.

(** ** The loop *)

Lemma run_resolve n u e r w w' : resolve_from n u e w = (r, w') →
  plain_permissions (db w) → PermissionCoherent w →
  PermissionCoherent w' ∧
  ∀ keys a, r = Ok (keys, a) →
    ∃ env, identified (db w) u e a env ∧ (a = false → granted_list (db w) u e keys).
Proof.
  revert w. induction n as [|n IH]; intros w Hr Hp Hco; cbn in Hr; [by injection Hr as <- <-|].
  unfold mbind, M_bind, attempt in Hr.
  destruct (resolveAttempt u e w) as [x w1] eqn:Ha.
  pose proof (coherent_attempt _ _ _ _ _ Ha Hp Hco) as Hco1.
  assert (db w1 = db w) as Hd by by eapply reads_resolveAttempt.
  destruct x as [[keys a]|x].
  - injection Hr as <- <-. split; [done|]. intros keys' a' [= <- <-]. by eapply run_attempt.
  - destruct (is_ConcurrentChange x); [|by injection Hr as <- <-].
    rewrite <-Hd in Hp |- *. by apply IH.
Qed.

Lemma run_Require u e ks r w w' : Require u e ks w = (r, w') →
  plain_permissions (db w) → PermissionCoherent w →
  PermissionCoherent w' ∧ (r = Ok () → allowed (db w) u e ks).
Proof.
  intros Hr Hp Hco. unfold Require, mbind, M_bind in Hr.
  destruct (Resolve u e w) as [x w1] eqn:Hres.
  apply run_resolve in Hres as [Hco1 Hres]; [|done..].
  destruct x as [[keys a]|x]; [|by injection Hr as <- <-].
  destruct (Hres _ _ eq_refl) as (env & Hid & Hkeys). destruct a.
  { injection Hr as <- <-. split; [done|]. intros _. by exists true, env. }
  destruct (forallb _ ks) eqn:Hall; injection Hr as <- <-; (split; [done|]); [|done].
  intros _. exists false, env. split; [done|]. intros _ k Hk.
  rewrite forallb_True in Hall || rewrite forallb_forall in Hall.
  apply list_elem_of_In, Hall in Hk. bool_hyps. by apply Hkeys.
Qed.

Lemma Require_ok u e ks w : faults w = [] → plain_permissions (db w) → PermissionCoherent w →
  "" ∉ ks → allowed (db w) u e ks → (Require u e ks w).1 = Ok ().
Proof.
  intros Hf Hp Hco Hks (a & env & Hid & Hall).
  destruct (attempt_ok _ _ _ _ _ Hf Hid) as (keys & w1 & Hatt).
  unfold Require, Resolve, maxResolveRetry. unfold mbind at 1, M_bind.
  cbn [resolve_from]. unfold mbind at 1, M_bind, attempt. rewrite Hatt. cbn.
  destruct a; [done|].
  assert (forallb (λ key, bool_decide (key ∈ keys)) ks = true) as ->; [|done].
  apply forallb_forall. intros k Hk%list_elem_of_In. apply bool_decide_eq_true.
  destruct (run_attempt _ _ _ _ _ _ Hatt Hco) as (env' & _ & Hkeys).
  apply Hkeys; [done|]. split; [by intros ->|by apply Hall].
Qed.

(** C16: a permission check that passes is right.  When [Require] of
    permission/resolver.go answers nil, the user is enabled and live, the
    environment is live, and either the user administers the system or the
    environment is enabled, the user is a member of it, and a role of the user
    there grants every required key.  This holds whether the keys were read or
    came from the cache, whatever statements or cache calls failed on the way;
    and the check leaves the permission entries of the cache telling the truth
    for the generation they name. *)
Theorem Require_sound u e ks r w w' :
  Require u e ks w = (r, w') → plain_permissions (db w) → PermissionCoherent w →
  db w' = db w ∧ PermissionCoherent w' ∧ (r = Ok () → allowed (db w) u e ks).
Proof.
  intros Hr Hp Hco. split; [|by apply run_Require].
  exact (check_reads (AuthorizerLaws := resolver_laws) u e ks _ _ _ Hr).
Qed.

(** C22: without failing statements the permission check is complete: for keys
    that are not empty, [Require] of permission/resolver.go answers nil exactly
    when the rows allow the user to use them in the environment (any failure of
    the cache is absorbed by reading the rows again). *)
Theorem Require_complete u e ks w :
  faults w = [] → plain_permissions (db w) → PermissionCoherent w → "" ∉ ks →
  ((Require u e ks w).1 = Ok () ↔ allowed (db w) u e ks).
Proof.
  intros Hf Hp Hco Hks. split; [|by apply Require_ok].
  destruct (Require u e ks w) as [r w'] eqn:Hr. intros Hok. by eapply run_Require.
Qed.
End permission.

(** ** The sample installation *)

Section sample.
Import SampleWorld.

Lemma sample_plain : plain_permissions (db world).
Proof.
  intros k p Hp. change (rows (permissions (db world))) with ({[1 := may_publish]} : gmap Z _) in Hp.
  apply lookup_singleton_Some in Hp as [_ <-]. vm_compute. reflexivity.
Qed.

Lemma sample_permission_coherent : PermissionCoherent world.
Proof. intros u e v x env Hh. exfalso. destruct Hh as (y & Hy & _). discriminate Hy. Qed.

Lemma Require_sound_witness : allowed database 7 1 [SnapshotPublish].
Proof.
  destruct (Require_sound 7 1 [SnapshotPublish] (Require 7 1 [SnapshotPublish] world).1 world
    (Require 7 1 [SnapshotPublish] world).2 (surjective_pairing _)
    sample_plain sample_permission_coherent) as (_ & _ & H).
  apply H. vm_compute. reflexivity.
Defined.

Lemma Require_complete_witness : ¬ allowed database 8 1 [SnapshotPublish].
Proof.
  intros H. apply (Require_complete 8 1 [SnapshotPublish] world eq_refl sample_plain
    sample_permission_coherent) in H.
  - vm_compute in H. discriminate H.
  - intros Hin. apply list_elem_of_singleton in Hin. discriminate Hin.
Defined.
End sample.
