(* ===== verification/Ledger.v ===== *)
(** What the server never takes back: a consumed or revoked refresh token, a
    revoked API key, a completed import, the initialisation marker, the last
    system administrator, and the generation of an environment, which moves
    whenever somebody's rights in it do.  [progress] relates a database to any
    later one; each statement and repository operation is shown to keep it. *)

From stdpp Require Import sorting.
From S2P Require Import Prelude GoStd GoStrings Engine Model Cache World WorldLaws RepoScope Permission RepoProject RepoIdentity RepoSession LogicAuth PermissionSpec.

Local Open Scope Z_scope.

(** ** Rows *)

Record later_token (t t' : RefreshTokenRow) : Prop := {
  lt_hash : tok_TokenHash t' = tok_TokenHash t;
  lt_user : tok_UserID t' = tok_UserID t;
  lt_session : tok_SessionID t' = tok_SessionID t;
  lt_revoked : tok_RevokedAt t ≠ None → tok_RevokedAt t' ≠ None;
  lt_replaced : tok_ReplacedByID t ≠ None → tok_ReplacedByID t' ≠ None;
}.

Record later_key (k k' : ProjectAPIKeyRow) : Prop := {
  lk_project : key_ProjectID k' = key_ProjectID k;
  lk_revoked : key_RevokedAt k ≠ None →
    key_RevokedAt k' ≠ None ∧ key_PublicID k' = key_PublicID k;
}.

Record later_import (r r' : ImportRecordRow) : Prop := {
  li_claim : same_claim r r' = true;
  li_hash : imp_RequestHash r' = imp_RequestHash r;
  li_done : imp_Status r = ImportStatusSucceeded →
    imp_Status r' = ImportStatusSucceeded ∧ imp_TargetSnapshotID r' = imp_TargetSnapshotID r;
}.

Definition later_secrets (s s' : ApplicationSecretsRow) : Prop :=
  sec_AdminInitialized s = true → sec_AdminInitialized s' = true.

Lemma same_claim_spec r r' : same_claim r r' = true ↔
  imp_UserID r' = imp_UserID r ∧ imp_TargetEnvironmentID r' = imp_TargetEnvironmentID r ∧
  imp_IdempotencyKey r' = imp_IdempotencyKey r.
Proof.
  unfold same_claim. rewrite !andb_true_iff, !Z.eqb_eq, bool_decide_eq_true. tauto.
Qed.

#[export] Instance later_token_preorder : PreOrder later_token.
Proof.
  split; [intros t; by split|]. intros a b c [] []. split; first [congruence|auto].
Qed.
#[export] Instance later_key_preorder : PreOrder later_key.
Proof.
  split; [intros t; by split|]. intros a b c [Hp1 Hr1] [Hp2 Hr2]. split; [congruence|].
  intros [Hb ?]%Hr1. apply Hr2 in Hb as [? ?]. split; [done|congruence].
Qed.
#[export] Instance later_import_preorder : PreOrder later_import.
Proof.
  split; [intros t; split; [by apply same_claim_spec|done..]|].
  intros a b c [Hc1 ? H1] [Hc2 ? H2]. rewrite same_claim_spec in *.
  split; [apply same_claim_spec; naive_solver congruence|congruence|].
  intros [Hs ?]%H1. apply H2 in Hs as [? ?]. split; [done|congruence].
Qed.
#[export] Instance later_secrets_preorder : PreOrder later_secrets.
Proof. unfold later_secrets. split; [by intros s|]. intros a b c. auto. Qed.

(** ** Tables that only grow, with later rows *)

Section grows.
Context {R : Type} (L : R → R → Prop) `{!PreOrder L}.

Definition grows (m m' : gmap Z R) : Prop :=
  ∀ k r, m !! k = Some r → ∃ r', m' !! k = Some r' ∧ L r r'.

#[global] Instance grows_preorder : PreOrder grows.
Proof.
  split; [intros m k r Hr; by exists r|]. intros a b c Hab Hbc k r Hr.
  apply Hab in Hr as (r1 & Hr & ?). apply Hbc in Hr as (r2 & Hr & ?).
  exists r2. split; [done|by etrans].
Qed.

Lemma grows_map (p : R → bool) (f : R → R) m : (∀ r, p r = true → L r (f r)) →
  grows m ((λ r, if p r then f r else r) <$> m).
Proof.
  intros Hf k r Hr. rewrite lookup_fmap, Hr. eexists. split; [done|].
  destruct (p r) eqn:Hp; [by apply Hf|done].
Qed.

Lemma grows_insert k r m : m !! k = None → grows m (<[k := r]> m).
Proof.
  intros Hk k' r' Hr. exists r'. split; [|done]. apply lookup_insert_Some. right.
  split; [congruence|done].
Qed.
End grows.

(** No two rows share a value of a unique column. *)
Definition distinct {R A} (column : R → A) (m : gmap Z R) : Prop :=
  ∀ k1 k2 r1 r2, m !! k1 = Some r1 → m !! k2 = Some r2 → column r1 = column r2 → k1 = k2.

Definition claim_of (r : ImportRecordRow) : Z * Z * string :=
  (imp_UserID r, imp_TargetEnvironmentID r, imp_IdempotencyKey r).

Section ledger.
Context {E : Engine} {EL : EngineLaws E} `{Collation}.

(** ** Databases *)

(** Some live account is an enabled system administrator. *)
Definition has_admin (d : DB) : Prop :=
  ∃ k u, rows (users d) !! k = Some u ∧ is_admin u = true.

(** Every membership names a role that exists. *)
Definition links_closed (d : DB) : Prop :=
  ∀ k a, rows (user_environment_roles d) !! k = Some a →
    is_Some (rows (roles d) !! uer_RoleID a).

(** Somebody's rights in an environment change only together with the version
    of its row. *)
Definition rights_follow (d d' : DB) : Prop :=
  ∀ e env, rows (environments d) !! e = Some env →
    ∃ env', rows (environments d') !! e = Some env' ∧
      Version (env_meta env) ≤ Version (env_meta env') ∧
      (Version (env_meta env') = Version (env_meta env) →
       ∀ u k, key_granted d' u e k ↔ key_granted d u e k).

#[export] Instance rights_follow_preorder : PreOrder rights_follow.
Proof.
  split; [intros d e env He; exists env; done|]. intros a b c Hab Hbc e env He.
  apply Hab in He as (env1 & He & Hv1 & Hr1). apply Hbc in He as (env2 & He & Hv2 & Hr2).
  exists env2. split; [done|]. split; [lia|]. intros Hv u k. rewrite Hr2, Hr1 by lia. done.
Qed.

(** What holds of every database the server works on. *)
Record Ledger (d : DB) : Prop := {
  led_tokens : distinct tok_TokenHash (rows (refresh_tokens d));
  led_keys : distinct key_PublicID (rows (project_api_keys d));
  led_imports : distinct claim_of (rows (import_records d));
  led_links : links_closed d;
}.

(** What holds between a database and any later one. *)
Record later (d d' : DB) : Prop := {
  lat_tokens : grows later_token (rows (refresh_tokens d)) (rows (refresh_tokens d'));
  lat_keys : grows later_key (rows (project_api_keys d)) (rows (project_api_keys d'));
  lat_imports : grows later_import (rows (import_records d)) (rows (import_records d'));
  lat_secrets : grows later_secrets (rows (application_secrets d)) (rows (application_secrets d'));
  lat_rights : rights_follow d d';
  lat_permissions : rows (permissions d') = rows (permissions d);
  lat_admin : has_admin d → has_admin d';
}.

Definition progress (d d' : DB) : Prop := Ledger d → Ledger d' ∧ later d d'.

#[export] Instance later_preorder : PreOrder later.
Proof.
  split; [intros d; by split|]. intros a b c [] []. split; [by etrans..|congruence|auto].
Qed.
#[export] Instance progress_refl : Reflexive progress.
Proof. intros d Hd. done. Qed.
#[export] Instance progress_trans : Transitive progress.
Proof.
  intros a b c Hab Hbc Ha. destruct (Hab Ha) as [Hb ?]. destruct (Hbc Hb) as [Hc ?].
  split; [done|by etrans].
Qed.

(** ** Rights depend on the tables of roles only *)

Definition same_rights (d d' : DB) : Prop :=
  permissions d' = permissions d ∧ user_environment_roles d' = user_environment_roles d ∧
  role_permissions d' = role_permissions d ∧ roles d' = roles d.

Lemma same_rights_granted d d' u e k : same_rights d d' →
  key_granted d' u e k ↔ key_granted d u e k.
Proof. unfold key_granted, granted. by intros (-> & -> & -> & ->). Qed.

(** A key granted, in terms of rows. *)
Lemma key_granted_rows d u e k : key_granted d u e k ↔
  ∃ i p j a l rp r, rows (permissions d) !! i = Some p ∧ prm_Key p = k ∧
    rows (user_environment_roles d) !! j = Some a ∧ uer_UserID a = u ∧
    uer_EnvironmentID a = e ∧
    rows (role_permissions d) !! l = Some rp ∧ rpm_RoleID rp = uer_RoleID a ∧
    rpm_PermissionID rp = i ∧
    rows (roles d) !! uer_RoleID a = Some r ∧ live (rol_meta r) = true.
Proof.
  unfold key_granted, granted. split.
  - intros (p & Hp & Hg & <-). apply existsb_exists in Hg as (a & Ha & Hg).
    apply list_elem_of_In, select_spec in Ha as [Ha Hpa].
    apply existsb_exists in Hg as (rp & Hrp & Hg).
    apply list_elem_of_In, select_spec in Hrp as [Hrp _]. bool_hyps.
    match goal with Hx : select _ _ ≠ [] |- _ =>
      destruct (select _ (roles d)) as [|r l] eqn:Hr; [done|] end.
    assert (r ∈ r :: l) as Hin by by left. rewrite <-Hr in Hin.
    apply select_spec in Hin as [Hrow Hpr]. bool_hyps. simpl in *.
    exists (r_ID (prm_meta p)), p, (row_id a), a, (row_id rp), rp, r.
    split_and!; try done. congruence.
  - intros (i & p & j & a & l & rp & r & Hp & <- & Ha & <- & <- & Hrp & Hr1 & Hr2 & Hr & Hl).
    pose proof (rows_id _ _ _ Hp) as Hpid. pose proof (rows_id _ _ _ Ha) as Haid.
    pose proof (rows_id _ _ _ Hrp) as Hrid. pose proof (rows_id _ _ _ Hr) as Hoid. simpl in *.
    exists p. split_and!; [by rewrite Hpid| |done].
    apply existsb_exists. exists a. split.
    { apply list_elem_of_In, select_spec. simpl. by rewrite Haid, !Z.eqb_refl. }
    apply existsb_exists. exists rp. split.
    { apply list_elem_of_In, select_spec. simpl. by rewrite Hrid. }
    rewrite Hr1, Hr2, Hpid, !Z.eqb_refl. simpl. apply negb_true_iff, bool_decide_eq_false.
    intros Hn. assert (r ∈ select (λ x, (ID (rol_meta x) =? uer_RoleID a) && live (rol_meta x))
      (roles d)) as Hin.
    { apply select_spec. simpl. by rewrite Hoid, Hr, Hl, Z.eqb_refl. }
    rewrite Hn in Hin. by apply elem_of_nil in Hin.
Qed.

Lemma rights_same_rights d d' : environments d' = environments d → same_rights d d' →
  rights_follow d d'.
Proof.
  intros He Hs e env Henv. exists env. rewrite He. split; [done|]. split; [done|].
  intros _ u k. by apply same_rights_granted.
Qed.
End ledger.

Section distinct.
Context {R A : Type} (column : R → A).

Lemma distinct_map (g : R → R) m : (∀ r, column (g r) = column r) →
  distinct column m → distinct column (g <$> m).
Proof.
  intros Hg Hd k1 k2 r1 r2. rewrite !lookup_fmap, !fmap_Some.
  intros (x1 & H1 & ->) (x2 & H2 & ->). rewrite !Hg. by apply Hd.
Qed.

Lemma distinct_insert k r m : (∀ k' r', m !! k' = Some r' → column r' ≠ column r) →
  distinct column m → distinct column (<[k := r]> m).
Proof.
  intros Hfresh Hd k1 k2 r1 r2. rewrite !lookup_insert_Some.
  intros [[<- <-]|[_ H1]] [[<- <-]|[_ H2]] Heq; [done|exfalso..|by eapply Hd].
  - by eapply Hfresh.
  - by eapply Hfresh.
Qed.
End distinct.

Section laws.
Context {E : Engine} {EL : EngineLaws E} `{Collation} {St : Store}.

(** ** One table at a time *)

Lemma progress_tokens t d :
  (distinct tok_TokenHash (rows (refresh_tokens d)) → distinct tok_TokenHash (rows t) ∧
     grows later_token (rows (refresh_tokens d)) (rows t)) →
  progress d (put_table refresh_tokens_t t d).
Proof.
  intros Ht [Hd ? ? ?]. destruct (Ht Hd) as [? ?].
  split; [by split|split; [done|cbn; reflexivity..| |done|done]].
  by apply rights_same_rights.
Qed.

Lemma progress_keys t d :
  (distinct key_PublicID (rows (project_api_keys d)) → distinct key_PublicID (rows t) ∧
     grows later_key (rows (project_api_keys d)) (rows t)) →
  progress d (put_table project_api_keys_t t d).
Proof.
  intros Ht [? Hd ? ?]. destruct (Ht Hd) as [? ?].
  split; [by split|split; [cbn; reflexivity|done|cbn; reflexivity..| |done|done]].
  by apply rights_same_rights.
Qed.

Lemma progress_imports t d :
  (distinct claim_of (rows (import_records d)) → distinct claim_of (rows t) ∧
     grows later_import (rows (import_records d)) (rows t)) →
  progress d (put_table import_records_t t d).
Proof.
  intros Ht [? ? Hd ?]. destruct (Ht Hd) as [? ?].
  split; [by split|split; [cbn; reflexivity..|done|cbn; reflexivity| |done|done]].
  by apply rights_same_rights.
Qed.

Lemma progress_secrets t d : grows later_secrets (rows (application_secrets d)) (rows t) →
  progress d (put_table application_secrets_t t d).
Proof.
  intros Ht [? ? ? ?]. split; [by split|split; [cbn; reflexivity..|done| |done|done]].
  by apply rights_same_rights.
Qed.

Lemma progress_users t d : (has_admin d → has_admin (put_table users_t t d)) →
  progress d (put_table users_t t d).
Proof.
  intros Ht [? ? ? ?]. split; [by split|split; [cbn; reflexivity..| |done|done]].
  by apply rights_same_rights.
Qed.

Lemma progress_environments t d :
  (∀ e env, rows (environments d) !! e = Some env →
     ∃ env', rows t !! e = Some env' ∧ Version (env_meta env) ≤ Version (env_meta env')) →
  progress d (put_table environments_t t d).
Proof.
  intros Ht [? ? ? ?]. split; [by split|split; [cbn; reflexivity..| |done|done]].
  intros e env (env' & He & Hv)%Ht. by exists env'.
Qed.

(** The tables outside the ledger. *)
Lemma progress_outside d d' : refresh_tokens d' = refresh_tokens d →
  project_api_keys d' = project_api_keys d → import_records d' = import_records d →
  application_secrets d' = application_secrets d → users d' = users d →
  environments d' = environments d → same_rights d d' → progress d d'.
Proof.
  intros Ht Hk Hi Hs Hu He Hr [? ? ? Hl]. pose proof Hr as (Hp & Hm & Hrp & Hro). split.
  - split; [by rewrite ?Ht, ?Hk, ?Hi..|]. unfold links_closed. by rewrite Hm, Hro.
  - split; rewrite ?Ht, ?Hk, ?Hi, ?Hs, ?Hp; try reflexivity; [by apply rights_same_rights|].
    unfold has_admin. by rewrite Hu.
Qed.

(** ** Statements *)

Lemma steps_progress_update {R} `{Row R} (T : Field_of R) (p : DB → R → bool) (f : R → R) :
  keeps_id f →
  (∀ d t, rows t = (λ r, if p d r then f r else r) <$> rows (get_table T d) →
     (∀ k1 k2 r1 r2, rows t !! k1 = Some r1 → rows t !! k2 = Some r2 → k1 ≠ k2 →
        clash r1 r2 = false) →
     progress d (put_table T t d)) →
  steps progress (exec_update T p f).
Proof.
  intros Hf HT w n w' (t & Ht & -> & _)%run_update. pose proof (update_unique _ _ _ _ _ Ht).
  apply update_Some in Ht as [_ Hr]; [|done]. by apply HT.
Qed.

Lemma steps_progress_insert {R} `{Row R} (T : Field_of R) (r : R) :
  (∀ d t k, rows (get_table T d) !! k = None → rows t = <[k := with_id k r]> (rows (get_table T d)) →
     (∀ k' r', rows (get_table T d) !! k' = Some r' → clash r' r = false) →
     progress d (put_table T t d)) →
  steps progress (exec_insert T r).
Proof.
  intros HT w n w' (t & Ht & -> & _)%run_insert.
  apply insert_Some in Ht as (_ & Hn & Hr & Hc). by eapply HT.
Qed.

Lemma progress_token_update p f : keeps_id f → (∀ t, later_token t (f t)) →
  steps progress (exec_update refresh_tokens_t p f).
Proof.
  intros Hid Hf. apply steps_progress_update; [done|]. intros d t Ht _.
  apply progress_tokens. intros Hd. rewrite Ht. split.
  - apply distinct_map; [|done]. intros r. case_match; [apply Hf|done].
  - apply grows_map; [typeclasses eauto|auto].
Qed.
Lemma progress_token_revoke p t : steps progress (exec_update refresh_tokens_t p (token_revoke t)).
Proof. apply progress_token_update; [by intros r|]. intros k. by split. Qed.
Lemma progress_token_consume p n t :
  steps progress (exec_update refresh_tokens_t p (token_consume n t)).
Proof. apply progress_token_update; [by intros r|]. intros k. by split. Qed.
Lemma progress_token_insert r : steps progress (exec_insert refresh_tokens_t r).
Proof.
  apply steps_progress_insert. intros d t k Hn Ht Hc. apply progress_tokens. intros Hd.
  rewrite Ht. split; [|apply grows_insert; [typeclasses eauto|done]].
  apply distinct_insert; [|done]. intros k' r' Hr'. specialize (Hc _ _ Hr'). simpl in *.
  by bool_hyps.
Qed.

Lemma progress_key_update p f : keeps_id f → (∀ d k, p d k = true → later_key k (f k)) →
  steps progress (exec_update project_api_keys_t p f).
Proof.
  intros Hid Hf. apply steps_progress_update; [done|]. intros d t Ht Hu.
  apply progress_keys. intros _. split.
  - intros k1 k2 r1 r2 H1 H2 Heq. destruct (decide (k1 = k2)) as [?|Hne]; [done|].
    specialize (Hu _ _ _ _ H1 H2 Hne). simpl in Hu. by bool_hyps.
  - rewrite Ht. apply grows_map; [typeclasses eauto|]. intros r. apply Hf.
Qed.
Lemma progress_key_Rotate m r : steps progress
  (exec_update project_api_keys_t (λ d, apiKeyWriteScope d m) (key_rotate r)).
Proof.
  apply progress_key_update; [by intros k|]. intros d k Hp. unfold apiKeyWriteScope in Hp.
  bool_hyps. by split.
Qed.
Lemma progress_key_stamp p t used_ revoked : (∀ k, key_RevokedAt k ≠ None → revoked k ≠ None) →
  steps progress (exec_update project_api_keys_t p (λ r, key_stamp t (used_ r) (revoked r) r)).
Proof.
  intros Hr. apply progress_key_update; [by intros k|]. intros d k _. split; [done|].
  intros Hk. split; [by apply Hr|done].
Qed.
Lemma progress_key_insert r : steps progress (exec_insert project_api_keys_t r).
Proof.
  apply steps_progress_insert. intros d t k Hn Ht Hc. apply progress_keys. intros Hd.
  rewrite Ht. split; [|apply grows_insert; [typeclasses eauto|done]].
  apply distinct_insert; [|done]. intros k' r' Hr'. specialize (Hc _ _ Hr'). simpl in *.
  by bool_hyps.
Qed.

Lemma progress_claim_row (r : ImportRecordRow) (d : DB) k t :
  rows (import_records d) !! k = None → rows t = <[k := with_id k r]> (rows (import_records d)) →
  (∀ k' r', rows (import_records d) !! k' = Some r' → clash r' r = false) →
  progress d (put_table import_records_t t d).
Proof.
  intros Hn Ht Hc. apply progress_imports. intros Hd.
  rewrite Ht. split; [|apply grows_insert; [typeclasses eauto|done]].
  apply distinct_insert; [|done]. intros k' r' Hr' Heq. specialize (Hc _ _ Hr').
  unfold claim_of in Heq. simpl in *. injection Heq as Hu He Hk.
  by rewrite Hu, He, Hk, !Z.eqb_refl, bool_decide_true in Hc.
Qed.
Lemma progress_Complete p s j t : (∀ d r, p d r = true → imp_Status r = ImportStatusPending) →
  steps progress (exec_update import_records_t p (import_complete s j t)).
Proof.
  intros Hp. apply steps_progress_update; [by intros r|]. intros d tb Ht _.
  apply progress_imports. intros Hd. rewrite Ht. split.
  - apply distinct_map; [|done]. intros r. by case_match.
  - apply grows_map; [typeclasses eauto|]. intros r Hr. apply Hp in Hr.
    split; [by apply same_claim_spec|done|]. by rewrite Hr.
Qed.

Lemma progress_mark p : steps progress (exec_update application_secrets_t p mark_initialized).
Proof.
  apply steps_progress_update; [by intros r|]. intros d t Ht _. apply progress_secrets.
  rewrite Ht. by apply grows_map; [typeclasses eauto|].
Qed.

(** Account updates that keep administrators. *)
Lemma progress_user_update p f : keeps_id f →
  (∀ d u, p d u = true → is_admin u = true → is_admin (f u) = true) →
  steps progress (exec_update users_t p f).
Proof.
  intros Hid Hf. apply steps_progress_update; [done|]. intros d t Ht _. apply progress_users.
  intros (k & u & Hu & Ha). exists k. cbn. rewrite Ht. setoid_rewrite lookup_fmap.
  cbn. rewrite Hu. eexists. split; [done|]. case_match eqn:Hp; [by eapply Hf|done].
Qed.
Lemma progress_user_insert r : steps progress (exec_insert users_t r).
Proof.
  apply steps_progress_insert. intros d t k Hn Ht _. apply progress_users.
  intros (k' & u & Hu & Ha). exists k', u. cbn. rewrite Ht. split; [|done].
  apply lookup_insert_Some. right. split; [|done]. intros ->. cbn in Hn. congruence.
Qed.

Lemma progress_environment_update p f : keeps_id f →
  (∀ d e, p d e = true → Version (env_meta e) ≤ Version (env_meta (f e))) →
  steps progress (exec_update environments_t p f).
Proof.
  intros Hid Hf. apply steps_progress_update; [done|]. intros d t Ht _.
  apply progress_environments. intros e env He. cbn in Ht. rewrite Ht, lookup_fmap, He.
  eexists. split; [done|]. case_match eqn:Hp; [by eapply Hf|done].
Qed.
Lemma progress_environment_insert r : steps progress (exec_insert environments_t r).
Proof.
  apply steps_progress_insert. intros d t k Hn Ht _. apply progress_environments.
  intros e env He. exists env. split; [|done]. rewrite Ht. apply lookup_insert_Some. right.
  split; [|done]. intros ->. cbn in Hn. congruence.
Qed.

(** A change of a role that keeps it live or deleted. *)
Lemma progress_role_update p f : keeps_id f →
  (∀ r, live (rol_meta (f r)) = live (rol_meta r)) →
  steps progress (exec_update roles_t p f).
Proof.
  intros Hid Hf. apply steps_progress_update; [done|]. intros d t Ht _ [? ? ? Hl].
  assert (∀ i, (live ∘ rol_meta <$> rows t !! i) = (live ∘ rol_meta <$> rows (roles d) !! i))
    as Hlive.
  { intros i. cbn in Ht. rewrite Ht, lookup_fmap. destruct (rows (roles d) !! i); [|done].
    simpl. f_equal. by case_match. }
  split.
  - split; [done..|]. intros k a Ha. destruct (Hl k a Ha) as [r Hr].
    specialize (Hlive (uer_RoleID a)). rewrite Hr in Hlive. cbn.
    by destruct (rows t !! uer_RoleID a).
  - split; [cbn; reflexivity..| |done|done]. intros e env He. exists env.
    split_and!; [done..|]. intros _ u k. rewrite !key_granted_rows. cbn.
    split; intros (i & pm & j & a & l & rp & r & ? & ? & ? & ? & ? & ? & ? & ? & Hr & Hlv);
      specialize (Hlive (uer_RoleID a)); rewrite Hr in Hlive; simpl in Hlive.
    + destruct (rows (roles d) !! uer_RoleID a) as [r'|] eqn:Hr'; [|done].
      injection Hlive as Hlive. exists i, pm, j, a, l, rp, r'. split_and!; congruence.
    + destruct (rows t !! uer_RoleID a) as [r'|] eqn:Hr'; [|done].
      injection Hlive as Hlive. exists i, pm, j, a, l, rp, r'. split_and!; congruence.
Qed.

(** No membership names a role that does not exist yet. *)
Lemma progress_role_insert r : steps progress (exec_insert roles_t r).
Proof.
  apply steps_progress_insert. intros d t k Hn Ht _ [? ? ? Hl]. cbn in Hn, Ht.
  assert (∀ a j, rows (user_environment_roles d) !! j = Some a →
    rows t !! uer_RoleID a = rows (roles d) !! uer_RoleID a) as Hsame.
  { intros a j Ha. rewrite Ht. apply lookup_insert_ne. intros ->.
    destruct (Hl _ _ Ha) as [? ?]. congruence. }
  split.
  - split; [done..|]. intros j a Ha. cbn. rewrite (Hsame _ _ Ha). by eapply Hl.
  - split; [cbn; reflexivity..| |done|done]. intros e env He. exists env.
    split_and!; [done..|]. intros _ u x. rewrite !key_granted_rows. cbn.
    split; intros (i & pm & j & a & l & rp & r' & ? & ? & Ha & Hx);
      exists i, pm, j, a, l, rp, r'; [rewrite <-(Hsame _ _ Ha)|rewrite (Hsame _ _ Ha)]; done.
Qed.
End laws.

#[export] Hint Resolve progress_token_revoke progress_token_consume progress_token_insert
  progress_key_Rotate progress_key_insert progress_mark
  progress_user_insert progress_environment_insert progress_role_insert : steps.
