(* ===== verification/LedgerOps.v ===== *)
(** The repository operations on accounts, roles, memberships, sessions, API
    keys, projects, environments, import claims and setup keep the ledger. *)

From stdpp Require Import sorting.
From S2P Require Import Prelude GoStd GoStrings Engine Model Cache World WorldLaws RepoScope Permission Password RepoProject RepoIdentity RepoSession LogicAuth PermissionSpec Ledger.

Local Open Scope Z_scope.

Section ops.
Context {E : Engine} {EL : EngineLaws E} `{Collation} {St : Store}.

(** ** Audit records are outside the ledger *)

Lemma progress_RecordSystem log : steps progress (RecordSystem log).
Proof. unfold RecordSystem. steps. intros t d. by apply progress_outside. Qed.
Lemma progress_Record e log : steps progress (RecordForEnvironment e log).
Proof. apply progress_RecordSystem. Qed.
Lemma progress_record_system i log : steps progress (record_system i log).
Proof. apply progress_RecordSystem. Qed.
#[local] Hint Resolve progress_RecordSystem progress_Record progress_record_system : steps.

(** ** Several rows in one statement *)

Lemma insert_all_rows {R} `{Row R} (l : list R) (t t' : table R) : insert_all l t = Some t' →
  (∀ k r, rows t !! k = Some r → rows t' !! k = Some r) ∧
  (∀ k r, rows t' !! k = Some r → rows t !! k = Some r ∨ ∃ x, x ∈ l ∧ r = with_id k x).
Proof.
  revert t. induction l as [|x l IH]; simpl; intros t.
  { intros [= <-]. auto. }
  destruct (insert x t) as [[k0 t1]|] eqn:Hi; [|done]. intros Hl.
  apply insert_Some in Hi as (_ & Hn & Hr & _). apply IH in Hl as [Hk Hl]. split.
  - intros k r Hkr. apply Hk. rewrite Hr. apply lookup_insert_Some. right.
    split; [congruence|done].
  - intros k r [Hkr|(y & Hy & ->)]%Hl; [|right; exists y; split; [by right|done]].
    rewrite Hr in Hkr. apply lookup_insert_Some in Hkr as [[<- <-]|[_ ?]]; [right|by left].
    exists x. split; [by left|done].
Qed.

Lemma run_insert_all {R} `{Row R} (T : Field_of R) l u w w' :
  exec_insert_all T l w = (Ok u, w') → ∃ t,
    insert_all l (get_table T (db w)) = Some t ∧ db w' = put_table T t (db w) ∧
    cache w' = cache w.
Proof.
  intros (d & Hd & ? & ?)%run_statement. destruct (insert_all _ _) as [t|]; [|done].
  injection Hd as _ <-. eauto.
Qed.

(** The links a loop builds all come from its list. *)
Lemma run_stamped {A B} (f : Z → A → B) l ys w w' :
  collect_m (λ x, t ← now; mret (f t x)) l w = (Ok ys, w') →
  same_store w w' ∧ ∀ y, y ∈ ys → ∃ t x, x ∈ l ∧ y = f t x.
Proof.
  revert ys w. induction l as [|x l IH]; simpl; intros ys w Hr.
  { apply run_ret in Hr as [<- ->]. split; [done|]. by intros y ?%elem_of_nil. }
  apply run_bind in Hr as (y & w1 & Hy & Hr). apply run_bind in Hy as (t & w2 & Ht & Hy).
  apply run_now in Ht as [_ Hs2]. apply run_ret in Hy as [<- <-].
  apply run_bind in Hr as (ys' & w3 & Hl & Hr). apply run_ret in Hr as [<- <-].
  apply IH in Hl as [Hs3 Hl]. split; [by eapply same_store_trans|].
  intros z [->|Hz]%elem_of_cons; [exists t, x; split; [by left|done]|].
  apply Hl in Hz as (t' & x' & ? & ->). exists t', x'. split; [by right|done].
Qed.

(** ** The version of an environment *)

Definition bumped (d d' : DB) (e : Z) : Prop :=
  ∀ env, rows (environments d) !! e = Some env → ∃ env',
    rows (environments d') !! e = Some env' ∧ Version (env_meta env) < Version (env_meta env').

Lemma bumped_before d d1 d2 e : Ledger d → progress d d1 → bumped d1 d2 e → bumped d d2 e.
Proof.
  intros HL Hp Hb env He. destruct (Hp HL) as [_ Hl].
  destruct (lat_rights _ _ Hl _ _ He) as (env1 & He1 & Hv & _).
  destruct (Hb _ He1) as (env2 & He2 & Hv2). exists env2. split; [done|lia].
Qed.
Lemma bumped_after d d1 d2 e : Ledger d1 → bumped d d1 e → progress d1 d2 → bumped d d2 e.
Proof.
  intros HL Hb Hp env He. destruct (Hp HL) as [_ Hl]. destruct (Hb _ He) as (env1 & He1 & Hv).
  destruct (lat_rights _ _ Hl _ _ He1) as (env2 & He2 & Hv2 & _). exists env2.
  split; [done|lia].
Qed.

Lemma progress_env_touch p a t :
  steps progress (exec_update environments_t p (map_env_meta (touch_next a t))).
Proof. apply progress_environment_update; [by intros r|]. intros d r _. simpl. lia. Qed.
#[local] Hint Resolve progress_env_touch : steps.
Lemma progress_bump a e : steps progress (bumpEnvironmentPermissionGeneration a e).
Proof.
  unfold bumpEnvironmentPermissionGeneration. steps.
Qed.
#[local] Hint Resolve progress_bump : steps.

Lemma run_bump a e u w w' : bumpEnvironmentPermissionGeneration a e w = (Ok u, w') →
  bumped (db w) (db w') e.
Proof.
  intros Hr. unfold bumpEnvironmentPermissionGeneration in Hr. inv_run.
  match goal with Hx : now _ = _ |- _ => apply run_now in Hx as [_ [Hd _]] end.
  match goal with Hx : exec_update _ _ _ _ = _ |- _ =>
    apply update_rows in Hx as (t & Ht & Hn & Hdb & _); [|by intros r] end.
  rewrite Hd in *. intros env He. rewrite Hdb. cbn in Ht |- *. subst.
  match goal with Hx : Z.of_nat _ ≠ 0 |- _ => apply selected_row in Hx as (r & Hrow & Hp) end.
  cbn in Hrow, Hp. pose proof (rows_id _ _ _ He) as Hid. cbn in Hid.
  unfold environment_id in *. bool_hyps.
  assert (r = env) as ->.
  { match goal with Hx : ID (env_meta r) = e |- _ => rewrite Hx in Hrow end. congruence. }
  rewrite Ht, lookup_fmap, He. eexists. split; [done|].
  match goal with Hx : live (env_meta env) = true |- _ => rewrite Hx end.
  rewrite Hid, Z.eqb_refl. simpl. lia.
Qed.

Lemma progress_bumps ids a : steps progress (bumpEnvironmentPermissionGenerations ids a).
Proof. unfold bumpEnvironmentPermissionGenerations. steps. Qed.
#[local] Hint Resolve progress_bumps : steps.

Lemma run_bumps_list a l u w w' :
  each_m (bumpEnvironmentPermissionGeneration a) l w = (Ok u, w') → Ledger (db w) →
  ∀ e, e ∈ l → bumped (db w) (db w') e.
Proof.
  revert w. induction l as [|x l IH]; intros w Hr HL e He; [by apply elem_of_nil in He|].
  simpl in Hr. apply run_bind in Hr as ([] & w1 & Hx & Hl).
  pose proof (progress_bump _ _ _ _ _ Hx) as Hp1. destruct (Hp1 HL) as [HL1 _].
  assert (progress (db w1) (db w')) as Hp2.
  { eapply (steps_each progress); [|exact Hl]. intros y. apply progress_bump. }
  apply elem_of_cons in He as [->|He].
  - eapply bumped_after; [exact HL1|by eapply run_bump|done].
  - eapply bumped_before; [exact HL|exact Hp1|]. by eapply IH.
Qed.

Lemma run_bumps ids a u w w' : bumpEnvironmentPermissionGenerations ids a w = (Ok u, w') →
  Ledger (db w) → ∀ e, e ∈ ids → bumped (db w) (db w') e.
Proof.
  intros Hr HL e He. eapply run_bumps_list; [exact Hr|done|].
  rewrite (merge_sort_Permutation Z.le). by apply elem_of_remove_dups.
Qed.

(** A change of the role tables that concerns the environments [S], followed by
    steps that advance their versions. *)
Lemma progress_via (S : Z → Prop) d d1 d2 :
  refresh_tokens d1 = refresh_tokens d → project_api_keys d1 = project_api_keys d →
  import_records d1 = import_records d → application_secrets d1 = application_secrets d →
  users d1 = users d → environments d1 = environments d → permissions d1 = permissions d →
  (links_closed d → links_closed d1) →
  (∀ e u k, ¬ S e → key_granted d1 u e k ↔ key_granted d u e k) →
  progress d1 d2 → (Ledger d1 → ∀ e, S e → bumped d1 d2 e) → progress d d2.
Proof.
  intros Ht Hk Hi Hs Hu He Hp Hlinks Hrights Hprog Hbump HL.
  assert (Ledger d1) as HL1.
  { destruct HL as [? ? ? Hl]. split; rewrite ?Ht, ?Hk, ?Hi; auto. }
  destruct (Hprog HL1) as [HL2 [? ? ? ? Hrf Hperm Hadm]]. split; [done|].
  rewrite Ht, Hk, Hi, Hs, Hp in *. split; [done..| |done|].
  - intros e env Henv. rewrite <-He in Henv.
    destruct (Hrf _ _ Henv) as (env' & He' & Hv & Hsame). exists env'.
    split_and!; [done..|]. intros Heq u k. rewrite (Hsame Heq u k). apply Hrights. intros HS.
    destruct (Hbump HL1 e HS _ Henv) as (env2 & He2 & Hlt).
    assert (env2 = env') as -> by congruence. lia.
  - unfold has_admin in *. by rewrite Hu in Hadm.
Qed.

(** ** role.go *)

Lemma progress_role_touch p a t :
  steps progress (exec_update roles_t p (map_rol_meta (touch_next a t))).
Proof. by apply progress_role_update; [intros r|]. Qed.
Lemma progress_role_values p u t : steps progress (exec_update roles_t p (role_update u t)).
Proof. by apply progress_role_update; [intros r|]. Qed.
#[local] Hint Resolve progress_role_touch progress_role_values : steps.

Lemma progress_role_Create r log : steps progress (role_Create r log).
Proof. unfold role_Create. steps. Qed.
Lemma progress_role_Update k u log : steps progress (role_Update k u log).
Proof. unfold role_Update. steps. Qed.

Lemma quiet_role_find k : quiet (role_find k).
Proof. unfold role_find. quiet. Qed.
Lemma run_lockAssignments k l w w' : lockAssignments k w = (Ok l, w') →
  same_store w w' ∧ ∀ i a, rows (user_environment_roles (db w)) !! i = Some a →
    uer_RoleID a = k → {| pa_UserID := uer_UserID a; pa_EnvironmentID := uer_EnvironmentID a |} ∈ l.
Proof.
  intros Hr. unfold lockAssignments in Hr. inv_run.
  match goal with Hx : find _ _ = _ |- _ => apply run_find in Hx as [-> Hs] end.
  split; [done|]. intros i a Ha Hk. apply list_elem_of_fmap. exists a. split; [done|].
  eapply rows_select; [exact Ha|]. by apply Z.eqb_eq.
Qed.

(** Deleting a role nobody holds changes nobody's rights. *)
Lemma progress_role_Delete k a log : steps progress (role_Delete k a log).
Proof.
  intros w u w' Hr. unfold role_Delete in Hr. apply run_bind in Hr as (role & w1 & Hl & Hr).
  apply (quiet_run _ _ _ _ (quiet_role_find k)) in Hl as [Hd1 _].
  apply run_bind in Hr as (x & w2 & Hb & Hr). apply run_when_err in Hb as [_ ->].
  apply run_bind in Hr as (l & w3 & Hl & Hr). apply run_lockAssignments in Hl as [[Hd3 _] Hl].
  apply run_bind in Hr as (y & w4 & Hb & Hr). apply run_when_err in Hb as [Hb ->].
  apply run_bind in Hr as (t & w5 & Ht & Hr). apply run_now in Ht as [_ [Hd5 _]].
  apply run_bind in Hr as (n & w6 & Hu & Hr). apply run_handle in Hu.
  apply run_bind in Hr as (z & w7 & Hm & Hr). apply run_must_affect in Hm as [_ ->].
  apply progress_record_system in Hr. rewrite Hd1 in Hl. bool_hyps. subst l.
  assert (∀ i a, rows (user_environment_roles (db w)) !! i = Some a → uer_RoleID a ≠ k) as Hnone.
  { intros i m Hm Hk. by apply (not_elem_of_nil _ (Hl _ _ Hm Hk)). }
  etrans; [|exact Hr]. rewrite <-Hd1, <-Hd3, <-Hd5 in Hnone |- *. clear Hl Hr.
  apply update_rows in Hu as (tb & Htb & _ & -> & _); [|by intros r]. cbn in Htb.
  assert (∀ i, i ≠ k → rows tb !! i = rows (roles (db w5)) !! i) as Hsame.
  { intros i Hi. rewrite Htb, lookup_fmap. destruct (rows (roles (db w5)) !! i) as [r|] eqn:Hr;
      [|done]. pose proof (rows_id _ _ _ Hr) as Hid. cbn in Hid. simpl. unfold role_id.
    rewrite Hid. by destruct (Z.eqb_spec i k). }
  apply (progress_via (λ _, False) _ (put_table roles_t tb (db w5))); try done.
  - intros Hc i m Hm. cbn. rewrite (Hsame _ (Hnone _ _ Hm)). by eapply Hc.
  - intros e v key _. rewrite !key_granted_rows. cbn.
    split; intros (i & pm & j & m & q & rp & r & ? & ? & Ha & Hrest);
      exists i, pm, j, m, q, rp, r; split_and!; try done; try apply Hrest;
      [rewrite <-(Hsame _ (Hnone _ _ Ha))|rewrite (Hsame _ (Hnone _ _ Ha))]; apply Hrest.
Qed.

(** What replacing the permissions of a role leaves: every other role's links. *)
Lemma run_replacePermissions k ids a u w w' : replacePermissions k ids a w = (Ok u, w') →
  ∃ t, db w' = put_table role_permissions_t t (db w) ∧
    ∀ rp, rpm_RoleID rp ≠ k →
      (∃ i, rows t !! i = Some rp) ↔ (∃ i, rows (role_permissions (db w)) !! i = Some rp).
Proof.
  intros Hr. unfold replacePermissions in Hr. apply run_bind in Hr as (n & w1 & Hd & Hr).
  apply run_handle, run_delete in Hd as (t & Ht & Hdb & _). apply remove_spec in Ht as [_ Ht].
  cbn in Ht. assert (∀ rp, rpm_RoleID rp ≠ k → (∃ i, rows t !! i = Some rp) ↔
    (∃ i, rows (role_permissions (db w)) !! i = Some rp)) as Hkeep.
  { intros rp Hne. rewrite Ht. split; intros [i Hi].
    - exists i. apply map_lookup_filter_Some in Hi. tauto.
    - exists i. apply map_lookup_filter_Some. split; [done|]. by apply Z.eqb_neq. }
  case_bool_decide; [apply run_ret in Hr as [_ ->]; by exists t|].
  apply run_bind in Hr as (links & w2 & Hc & Hr). apply run_stamped in Hc as [[Hd2 _] Hl].
  apply run_handle, run_insert_all in Hr as (t' & Hi & Hdb' & _).
  rewrite Hd2, Hdb in Hi, Hdb'. cbn in Hi, Hdb'. apply insert_all_rows in Hi as [Hold Hnew].
  exists t'. split; [exact Hdb'|]. intros rp Hne. rewrite <-(Hkeep _ Hne). split; intros [i Hi].
  - apply Hnew in Hi as [Hi|(x & Hx & ->)]; [by exists i|]. exfalso. apply Hne.
    apply Hl in Hx as (t0 & y & _ & ->). done.
  - exists i. by apply Hold.
Qed.

Lemma progress_UpdatePermissions k ids a log : steps progress (UpdatePermissions k ids a log).
Proof.
  intros w u w' Hr. unfold UpdatePermissions in Hr.
  apply run_bind in Hr as (role & w1 & Hl & Hr).
  apply (quiet_run _ _ _ _ (quiet_role_find k)) in Hl as [Hd1 _].
  apply run_bind in Hr as (x & w2 & Hp & Hr).
  assert (quiet (lockPermissions ids)) as Hq by (unfold lockPermissions; quiet).
  apply (quiet_run _ _ _ _ Hq) in Hp as [Hd2 _].
  apply run_bind in Hr as (l & w3 & Hl & Hr). apply run_lockAssignments in Hl as [[Hd3 _] Hl].
  apply run_bind in Hr as (y & w4 & Hrep & Hr).
  apply run_replacePermissions in Hrep as (t & Hdb & Hkeep).
  apply run_bind in Hr as (z & w5 & Hadv & Hr). apply run_bind in Hr as (z' & w6 & Hlog & Hr).
  apply run_ret in Hr as [_ ->]. apply progress_record_system in Hlog.
  etrans; [|exact Hlog]. clear Hlog. rewrite <-Hd1, <-Hd2, <-Hd3. rewrite Hd3 in *.
  unfold advancePermissionGenerations in Hadv. apply run_bind in Hadv as (at_ & v1 & Ht & Hadv).
  apply run_now in Ht as [_ [Hdt _]]. apply run_bind in Hadv as (n & v2 & Hu & Hadv).
  apply run_handle, progress_role_touch in Hu. apply run_bind in Hadv as (m & v3 & Hm & Hadv).
  apply run_must_affect in Hm as [_ ->]. rewrite Hdt in Hu. clear Hdt.
  pose proof (progress_bumps _ _ _ _ _ Hadv) as Hb.
  eapply (progress_via (λ e, e ∈ pa_EnvironmentID <$> l) _ (db w4)); rewrite ?Hdb; try done.
  - intros e u' key Hne. rewrite !key_granted_rows. cbn.
    assert (∀ j b, rows (user_environment_roles (db w2)) !! j = Some b →
      uer_EnvironmentID b = e → uer_RoleID b ≠ k) as Hoth.
    { intros j b Hb' He Hk. apply Hne, list_elem_of_fmap.
      eexists. split; [|by eapply Hl]. by simpl. }
    split; intros (i & pm & j & b & q & rp & r & Hpm & Hpk & Hb' & Hbu & Hbe & Hrp & Hrest).
    + destruct (proj1 (Hkeep rp ltac:(destruct Hrest as [-> _]; by eapply Hoth)) (ex_intro _ q Hrp))
        as [q' Hq']. exists i, pm, j, b, q', rp, r. done.
    + destruct (proj2 (Hkeep rp ltac:(destruct Hrest as [-> _]; by eapply Hoth)) (ex_intro _ q Hrp))
        as [q' Hq']. exists i, pm, j, b, q', rp, r. done.
  - rewrite <-Hdb. etrans; [exact Hu|exact Hb].
  - rewrite <-Hdb. intros HL e He. destruct (Hu HL) as [HL2 _].
    eapply bumped_before; [exact HL|exact Hu|]. by eapply run_bumps.
Qed.

(** ** user_environment_role.go *)

Lemma quiet_ensureRoles ids : quiet (ensureRolesContainNoSystemPermissions ids).
Proof. unfold ensureRolesContainNoSystemPermissions. quiet. Qed.
#[local] Hint Resolve quiet_ensureRoles : quiet.
Lemma quiet_lockRoles ids : quiet (lockRoles ids).
Proof. unfold lockRoles. quiet. Qed.
Lemma quiet_lockMember e u : quiet (lockMember e u).
Proof. unfold lockMember. quiet. Qed.

(** Every role that was locked exists. *)
Lemma run_lockRoles ids u w w' : lockRoles ids w = (Ok u, w') →
  ∀ k, k ∈ ids → is_Some (rows (roles (db w)) !! k).
Proof.
  intros Hr k Hk. unfold lockRoles in Hr. case_bool_decide as Hn.
  { subst. by apply not_elem_of_nil in Hk. }
  apply run_bind in Hr as (found & w1 & Hf & Hr). apply run_handle, run_find in Hf as [Hf _].
  apply run_bind in Hr as (x & w2 & Hb & _). apply run_when_err in Hb as [Hb _]. bool_hyps.
  assert (ids ≡ₚ role_id <$> found) as Hperm.
  { symmetry. apply submseteq_length_Permutation; [|rewrite length_fmap; lia].
    apply NoDup_submseteq.
    - clear Hb. subst found. pose proof (select_sorted (λ r, bool_decide (role_id r ∈ ids)
        && live (rol_meta r)) (roles (db w))) as Hs.
      induction (select _ _) as [|r l IH]; [constructor|]. csimpl.
      apply StronglySorted_inv in Hs as [Hs Hall]. constructor; [|by apply IH].
      intros (r' & Heq & Hr')%list_elem_of_fmap. rewrite Forall_forall in Hall.
      specialize (Hall _ Hr'). simpl in Hall. unfold role_id in Heq. lia.
    - intros i (r & -> & Hr')%list_elem_of_fmap. subst found.
      apply select_spec in Hr' as [_ Hp]. by bool_hyps. }
  rewrite Hperm in Hk. apply list_elem_of_fmap in Hk as (r & -> & Hr').
  subst found. apply select_spec in Hr' as [Hrow _]. by exists r.
Qed.

(** What replacing a member's roles leaves: every other membership. *)
Lemma run_replaceLinks e u ids a x w w' : replaceLinks e u ids a w = (Ok x, w') →
  ∃ t, db w' = put_table user_environment_roles_t t (db w) ∧
    (∀ i m, rows t !! i = Some m →
       (∃ j, rows (user_environment_roles (db w)) !! j = Some m) ∨ uer_RoleID m ∈ ids) ∧
    (∀ m, uer_EnvironmentID m ≠ e →
       (∃ i, rows t !! i = Some m) ↔ (∃ i, rows (user_environment_roles (db w)) !! i = Some m)).
Proof.
  intros Hr. unfold replaceLinks in Hr. apply run_bind in Hr as (n & w1 & Hd & Hr).
  apply run_handle, run_delete in Hd as (t & Ht & Hdb & _). apply remove_spec in Ht as [_ Ht].
  cbn in Ht. assert (∀ i m, rows t !! i = Some m →
    rows (user_environment_roles (db w)) !! i = Some m) as Hsub.
  { intros i m. rewrite Ht, map_lookup_filter_Some. tauto. }
  assert (∀ m, uer_EnvironmentID m ≠ e → (∃ i, rows t !! i = Some m) ↔
    (∃ i, rows (user_environment_roles (db w)) !! i = Some m)) as Hkeep.
  { intros m Hne. split; intros [i Hi]; exists i; [by apply Hsub|].
    rewrite Ht, map_lookup_filter_Some. split; [done|]. simpl.
    apply Z.eqb_neq in Hne. by rewrite Hne, andb_false_r. }
  case_bool_decide.
  { apply run_ret in Hr as [_ ->]. exists t. split_and!; [done| |done].
    intros i m Hm. left. exists i. by apply Hsub. }
  apply run_bind in Hr as (links & w2 & Hc & Hr). apply run_stamped in Hc as [[Hd2 _] Hl].
  apply run_handle, run_insert_all in Hr as (t' & Hi & Hdb' & _).
  rewrite Hd2, Hdb in Hi, Hdb'. cbn in Hi, Hdb'. apply insert_all_rows in Hi as [Hold Hnew].
  exists t'. split_and!; [exact Hdb'| |].
  - intros i m [Hm|(y & Hy & ->)]%Hnew; [left; exists i; by apply Hsub|right].
    by apply Hl in Hy as (t0 & z & Hz & ->).
  - intros m Hne. rewrite <-(Hkeep _ Hne). split; intros [i Hi].
    + apply Hnew in Hi as [Hi|(y & Hy & ->)]; [by exists i|]. exfalso. apply Hne.
      by apply Hl in Hy as (t0 & z & _ & ->).
    + exists i. by apply Hold.
Qed.

Lemma progress_ReplaceRoles m log : steps progress (ReplaceRoles m log).
Proof.
  intros w u w' Hr. unfold ReplaceRoles in Hr. apply run_bind in Hr as (x & w1 & Hl & Hr).
  apply (quiet_run _ _ _ _ (quiet_lockMember _ _)) in Hl as [Hd1 _].
  apply run_bind in Hr as (y & w2 & Hroles & Hr).
  pose proof (run_lockRoles _ _ _ _ Hroles) as Hex.
  apply (quiet_run _ _ _ _ (quiet_lockRoles _)) in Hroles as [Hd2 _].
  apply run_bind in Hr as (z & w3 & Hrep & Hr).
  apply run_replaceLinks in Hrep as (t & Hdb & Hnew & Hkeep).
  apply run_bind in Hr as (z' & w4 & Hb & Hlog). apply progress_Record in Hlog.
  etrans; [|exact Hlog]. clear Hlog. rewrite <-Hd2 in Hex. rewrite <-Hd1, <-Hd2.
  pose proof (progress_bumps _ _ _ _ _ Hb) as Hp.
  apply (progress_via (λ e, e = mr_EnvironmentID m) _ (db w3)); rewrite ?Hdb; try done.
  - intros Hc i a Ha. cbn in Ha |- *. apply Hnew in Ha as [[j Hj]|Hin]; [by eapply Hc|].
    by apply Hex.
  - intros e u' key Hne. rewrite !key_granted_rows. cbn.
    split; intros (i & pm & j & b & q & rp & r & Hpm & Hpk & Hb' & Hbu & Hbe & Hrest).
    + destruct (proj1 (Hkeep b ltac:(congruence)) (ex_intro _ j Hb')) as [j' Hj'].
      exists i, pm, j', b, q, rp, r. done.
    + destruct (proj2 (Hkeep b ltac:(congruence)) (ex_intro _ j Hb')) as [j' Hj'].
      exists i, pm, j', b, q, rp, r. done.
  - by rewrite <-Hdb.
  - rewrite <-Hdb. intros HL e ->. eapply run_bumps; [exact Hb|done|by left].
Qed.

(** ** user.go *)

Lemma progress_user_login p t : steps progress (exec_update users_t p (user_login t)).
Proof. by apply progress_user_update; [intros r|]. Qed.
Lemma progress_user_password p h a t :
  steps progress (exec_update users_t p (user_password h a t)).
Proof. by apply progress_user_update; [intros r|]. Qed.
Lemma progress_user_rehash p h t : steps progress (exec_update users_t p (user_rehash h t)).
Proof. by apply progress_user_update; [intros r|]. Qed.
Lemma progress_user_promote p n h v t :
  steps progress (exec_update users_t p (user_promote n h v t)).
Proof. by apply progress_user_update; [intros r|]. Qed.
#[local] Hint Resolve progress_user_login progress_user_password progress_user_rehash
  progress_user_promote : steps.

Lemma progress_CreateManagedUser u log : steps progress (CreateManagedUser u log).
Proof. unfold CreateManagedUser. steps. Qed.
Lemma quiet_find_user p : quiet (find_user p).
Proof. unfold find_user. quiet. Qed.
#[local] Hint Resolve quiet_find_user : quiet.
Lemma progress_revokeUserSessions u t : steps progress (revokeUserSessions u t).
Proof. unfold revokeUserSessions. steps. Qed.
#[local] Hint Resolve progress_revokeUserSessions : steps.
Lemma progress_UpdateManagedPassword u h a log : steps progress (UpdateManagedPassword u h a log).
Proof. unfold UpdateManagedPassword, lockManagedUser. steps. Qed.
Lemma progress_UpdatePasswordHash u h n : steps progress (UpdatePasswordHash u h n).
Proof. unfold UpdatePasswordHash. steps. Qed.
Lemma progress_CreateOrPromote n d h : steps progress (CreateOrPromoteSystemAdmin n d h).
Proof.
  unfold CreateOrPromoteSystemAdmin, createSystemAdmin, promoteSystemAdmin, GetByID,
    lockManagedUser. steps.
Qed.

Lemma run_find_user p u w w' : find_user p w = (Ok u, w') →
  rows (users (db w)) !! user_id u = Some u ∧ p u = true ∧ same_store w w'.
Proof.
  intros Hr. unfold find_user in Hr. apply run_bind in Hr as (r & w1 & Hg & Hr).
  apply run_handle, run_get in Hg as [Hg Hs]. destruct r as [r|]; [|by apply run_throw in Hr].
  apply run_ret in Hr as [-> ->]. symmetry in Hg. by apply head_select in Hg as [? ?].
Qed.

(** Another administrator exists. *)
Lemma run_ensureLast k u w w' : ensureLastSystemAdmin k w = (Ok u, w') →
  same_store w w' ∧ ∃ i a, rows (users (db w)) !! i = Some a ∧ is_admin a = true ∧ i ≠ k.
Proof.
  intros Hr. unfold ensureLastSystemAdmin in Hr. apply run_bind in Hr as (l & w1 & Hl & Hr).
  apply run_handle, run_find in Hl as [-> Hs]. apply run_lift in Hr as [Hr ->].
  split; [done|]. unfold ensureSystemAdminSurvives in Hr.
  destruct (existsb _ _) eqn:Hex; [|done]. apply existsb_exists in Hex as (a & Ha & Hp).
  apply list_elem_of_In, elem_of_take in Ha as (i & Ha & _).
  apply list_elem_of_lookup_2, select_spec in Ha as [Ha _]. bool_hyps.
  exists (user_id a), a. done.
Qed.

(** The guarded update of an account keeps an administrator. *)
Lemma progress_managed u k f v w n w' d0 :
  updateManagedUser k f v w = (Ok n, w') → keeps_id f → db w = d0 →
  rows (users d0) !! k = Some u →
  (is_admin u = true → is_admin (f u) = true ∨
     ∃ i a, rows (users d0) !! i = Some a ∧ is_admin a = true ∧ i ≠ k) →
  progress d0 (db w').
Proof.
  intros Hr Hf <- Hu Hadm. unfold updateManagedUser in Hr.
  apply run_bind in Hr as (m & w1 & Hx & Hr). apply run_when_err in Hr as [_ ->].
  apply run_handle, update_rows in Hx as (t & Ht & _ & -> & _); [|done]. cbn in Ht.
  apply progress_users. intros (i & a & Ha & Hadma).
  assert (∀ j b, rows (users (db w)) !! j = Some b → j ≠ k → rows t !! j = Some b) as Hsame.
  { intros j b Hb Hj. rewrite Ht, lookup_fmap, Hb. simpl. pose proof (rows_id _ _ _ Hb) as Hid.
    cbn in Hid. unfold user_id. rewrite Hid. by destruct (Z.eqb_spec j k). }
  destruct (decide (i = k)) as [->|Hne]; [|exists i, a; split; [by apply Hsame|done]].
  assert (a = u) as -> by congruence. destruct (Hadm Hadma) as [Hfa|(j & b & Hb & ? & Hj)].
  2:{ exists j, b. split; [by apply Hsame|done]. }
  exists k. cbn. rewrite Ht. setoid_rewrite lookup_fmap. cbn in Hu. rewrite Hu.
  eexists. split; [done|]. by case_match.
Qed.

Lemma progress_UpdateManagedUser m log : steps progress (UpdateManagedUser m log).
Proof.
  intros w r w' Hr. unfold UpdateManagedUser, lockManagedUser in Hr.
  apply run_bind in Hr as (u & w1 & Hu & Hr). apply run_find_user in Hu as (Hu & Hp & [Hd1 _]).
  apply run_bind in Hr as (x & w2 & Hv & Hr). apply run_when_err in Hv as [_ ->].
  apply run_bind in Hr as (y & w3 & Hlast & Hr).
  assert (db w3 = db w ∧ (is_admin u = true → mu_SystemAdmin m = true ∨
    ∃ i a, rows (users (db w)) !! i = Some a ∧ is_admin a = true ∧ i ≠ mu_UserID m))
    as [Hd3 Hother].
  { bool_hyps. destruct (usr_Enabled u && usr_IsSystemAdmin u && negb (mu_SystemAdmin m)) eqn:Hb.
    - apply run_ensureLast in Hlast as [[Hd3 _] (i & a & Ha & ? & Hne)]. split; [congruence|].
      intros _. right. exists i, a. split_and!; congruence.
    - apply run_ret in Hlast as [_ ->]. split; [done|]. unfold is_admin. intros Hadm.
      bool_hyps. destruct (mu_SystemAdmin m); [by left|].
      repeat match goal with Hx : _ = true |- _ => rewrite Hx in Hb end. done. }
  apply run_bind in Hr as (t & w4 & Ht & Hr). apply run_now in Ht as [_ [Hd4 _]].
  apply run_bind in Hr as (n & w5 & Hup & Hr). apply run_bind in Hr as (z & w6 & Hlog & Hr).
  apply run_ret in Hr as [_ ->]. apply progress_record_system in Hlog.
  etrans; [|exact Hlog]. bool_hyps.
  eapply (progress_managed u); [exact Hup|by intros q|by rewrite Hd4| |]; [congruence|].
  intros Hadm. destruct (Hother Hadm) as [Hs|?]; [left|by right].
  unfold is_admin, user_update, user_with in *. simpl. rewrite Hs, andb_true_r. bool_hyps. by apply andb_true_iff.
Qed.

Lemma progress_UpdateManagedStatus m log : steps progress (UpdateManagedStatus m log).
Proof.
  intros w r w' Hr. unfold UpdateManagedStatus, lockManagedUser in Hr.
  apply run_bind in Hr as (u & w1 & Hu & Hr). apply run_find_user in Hu as (Hu & Hp & [Hd1 _]).
  apply run_bind in Hr as (x & w2 & Hv & Hr). apply run_when_err in Hv as [_ ->].
  apply run_bind in Hr as (y & w3 & Hlast & Hr).
  assert (db w3 = db w ∧ (is_admin u = true → ms_Enabled m = true ∨
    ∃ i a, rows (users (db w)) !! i = Some a ∧ is_admin a = true ∧ i ≠ ms_UserID m))
    as [Hd3 Hother].
  { bool_hyps. destruct (usr_Enabled u && usr_IsSystemAdmin u && negb (ms_Enabled m)) eqn:Hb.
    - apply run_ensureLast in Hlast as [[Hd3 _] (i & a & Ha & ? & Hne)]. split; [congruence|].
      intros _. right. exists i, a. split_and!; congruence.
    - apply run_ret in Hlast as [_ ->]. split; [done|]. unfold is_admin. intros Hadm.
      bool_hyps. destruct (ms_Enabled m); [by left|].
      repeat match goal with Hx : _ = true |- _ => rewrite Hx in Hb end. done. }
  apply run_bind in Hr as (t & w4 & Ht & Hr). apply run_now in Ht as [_ [Hd4 _]].
  apply run_bind in Hr as (n & w5 & Hup & Hr). bool_hyps.
  assert (progress (db w) (db w5)) as Hp5.
  { eapply (progress_managed u); [exact Hup|by intros q|by rewrite Hd4| |]; [congruence|].
    intros Hadm. destruct (Hother Hadm) as [Hs|?]; [left|by right].
    unfold is_admin, user_status, user_with in *. simpl. rewrite Hs. bool_hyps.
    by rewrite !andb_true_iff. }
  etrans; [exact Hp5|]. clear -Hr EL.
  match type of Hr with ?m _ = _ => assert (steps progress m) as Hs; [|by eapply Hs] end. steps.
Qed.
End ops.

Section ops.
Context {E : Engine} {EL : EngineLaws E} `{Collation} {St : Store}.

#[local] Hint Resolve progress_RecordSystem progress_Record progress_record_system
  progress_user_login progress_revokeUserSessions : steps.

(** ** refresh_token.go *)

Lemma quiet_lockToken h : quiet (lockTokenByHash h).
Proof. unfold lockTokenByHash. quiet. Qed.
#[local] Hint Resolve quiet_lockToken : quiet.
Lemma progress_revokeSession u s t : steps progress (revokeSession u s t).
Proof. unfold revokeSession. steps. Qed.
#[local] Hint Resolve progress_revokeSession : steps.
Lemma progress_checkRotation k t : steps progress (checkRotation k t).
Proof. unfold checkRotation. steps. Qed.
#[local] Hint Resolve progress_checkRotation : steps.
Lemma progress_CreateSession k t : steps progress (CreateSession k t).
Proof. unfold CreateSession. steps. Qed.
Lemma progress_Rotate h n t : steps progress (Rotate h n t).
Proof. unfold Rotate, consumeToken. steps. Qed.
Lemma progress_RevokeSession h t : steps progress (RevokeSessionByTokenHash h t).
Proof. unfold RevokeSessionByTokenHash. steps. Qed.

(** ** project_api_key.go *)

Lemma progress_key_Create e p k : steps progress (key_Create e p k).
Proof. unfold key_Create, lockScopedProject. steps. Qed.
Lemma progress_key_Rotate_op m r : steps progress (key_Rotate m r).
Proof. unfold key_Rotate. steps. Qed.
Lemma progress_revoke_stamp p t : steps progress (exec_update project_api_keys_t p
  (λ r, key_stamp t (key_LastUsedAt r) (Some t) r)).
Proof. by apply (progress_key_stamp _ _ key_LastUsedAt (λ _, Some t)). Qed.
Lemma progress_used_stamp p t : steps progress (exec_update project_api_keys_t p
  (λ r, key_stamp t (Some t) (key_RevokedAt r) r)).
Proof. by apply (progress_key_stamp _ _ (λ _, Some t) key_RevokedAt). Qed.
#[local] Hint Resolve progress_revoke_stamp progress_used_stamp : steps.
Lemma progress_key_Revoke m t : steps progress (key_Revoke m t).
Proof. unfold key_Revoke. steps. Qed.
Lemma progress_MarkUsed k t : steps progress (MarkUsed k t).
Proof. unfold MarkUsed. steps. Qed.

(** ** project.go, environment.go *)

Lemma progress_project_Create p : steps progress (project_Create p).
Proof. unfold project_Create. steps. intros tb d. by apply progress_outside. Qed.
Lemma progress_project_Update k u : steps progress (project_Update k u).
Proof. unfold project_Update. steps. intros tb d. by apply progress_outside. Qed.
Lemma progress_environment_Create v log : steps progress (environment_Create v log).
Proof. unfold environment_Create, recordAudit. steps. Qed.
Lemma progress_environment_values e u t : steps progress (exec_update environments_t
  (λ _ r, (environment_id r =? e) && (Version (env_meta r) =? eu_Version u) && live (env_meta r))
  (environment_update u t)).
Proof.
  apply progress_environment_update; [by intros r|]. intros d r Hp. bool_hyps. simpl. lia.
Qed.
#[local] Hint Resolve progress_environment_values : steps.
Lemma progress_environment_Update e u log : steps progress (environment_Update e u log).
Proof. unfold environment_Update, recordAudit. steps. Qed.

(** ** import_record.go *)

(** An insertion whose error the code looks at. *)
Lemma steps_attempt_insert (P : DB → DB → Prop) `{!Reflexive P} {R} `{Row R} (T : Field_of R)
    (r : R) : (∀ d k t, insert r (get_table T d) = Some (k, t) → P d (put_table T t d)) →
  steps P (attempt (exec_insert T r)).
Proof.
  intros HP w x w'. unfold attempt, exec_insert, statement.
  destruct (next_fault w) as [fault w1] eqn:Hf. apply next_fault_store in Hf as [Hd _].
  destruct (insert r (get_table T (db w1))) as [[k t]|] eqn:Hi;
    destruct fault as [[c []]|]; intros [= _ <-]; simpl; rewrite Hd in *; by eauto.
Qed.
Lemma progress_insertClaim r : steps progress (insertClaim r).
Proof.
  unfold insertClaim. steps. apply steps_attempt_insert; [typeclasses eauto|].
  intros d k t Hi. apply insert_Some in Hi as (_ & Hn & Hr & Hc). by eapply progress_claim_row.
Qed.
#[local] Hint Resolve progress_insertClaim : steps.
Lemma progress_Claim r : steps progress (Claim r).
Proof. unfold Claim, lockExistingClaim. steps. Qed.
Lemma progress_complete_pending k s j t : steps progress (exec_update import_records_t
  (λ _ r, (import_id r =? k) && bool_decide (imp_Status r = ImportStatusPending))
  (import_complete s j t)).
Proof. apply progress_Complete. intros d r Hp. by bool_hyps. Qed.
#[local] Hint Resolve progress_complete_pending : steps.
Lemma progress_Complete_op k s j : steps progress (Complete k s j).
Proof. unfold Complete. steps. Qed.

(** ** setup.go *)

Lemma quiet_loadState : quiet loadState.
Proof. unfold loadState. quiet. Qed.
#[local] Hint Resolve quiet_loadState : quiet.
Lemma progress_markInitialized : steps progress markInitialized.
Proof. unfold markInitialized. steps. Qed.
#[local] Hint Resolve progress_markInitialized : steps.
Lemma progress_MarkInitialized : steps progress MarkInitialized.
Proof. unfold MarkInitialized. steps. Qed.
Lemma progress_CreateInitialAdmin u : steps progress (repo_CreateInitialAdmin u).
Proof. unfold repo_CreateInitialAdmin. steps. Qed.
End ops.

#[export] Hint Resolve progress_RecordSystem progress_Record progress_record_system
  progress_role_Create progress_role_Update progress_role_Delete progress_UpdatePermissions
  progress_ReplaceRoles progress_CreateManagedUser progress_UpdateManagedPassword
  progress_UpdatePasswordHash progress_CreateOrPromote progress_UpdateManagedUser
  progress_UpdateManagedStatus progress_CreateSession progress_Rotate progress_RevokeSession
  progress_key_Create progress_key_Rotate_op progress_key_Revoke progress_MarkUsed
  progress_project_Create progress_project_Update progress_environment_Create
  progress_environment_Update progress_Claim progress_Complete_op progress_MarkInitialized
  progress_CreateInitialAdmin : steps.
