(* ===== verification/PublishSpec.v ===== *)
(** The properties of [server/internal/logic/publish.go]. *)

From S2P Require Import Prelude GoStd GoStrings Proto Codec Schema Engine Model Cache Convert World WorldLaws RepoScope Permission RepoConfig RepoChild RepoSnapshot RepoLaws LogicBase LogicPublish PublishLaws SchemaSpec SampleWorld.

Local Open Scope Z_scope.

Section publish.
Context {E : Engine} {EL : EngineLaws E} `{Collation} {St : Store} {SL : StoreLaws St}
  `{Protojson} `{MapOrder} {Au : Authorizer} {AL : AuthorizerLaws Au}.

Lemma reads_authorizedSnapshot request : reads (authorizedSnapshot request).
Proof.
  unfold authorizedSnapshot. apply reads_bind; [apply check_reads|].
  intros _. apply reads_quiet, quiet_snapshot_FindByID.
Qed.

Lemma reads_cleanup key : reads (cleanup key).
Proof. unfold cleanup, DeletePublishedConfigVersion. reads. Qed.

(** The database effect of [changePublication] in every outcome. *)
Lemma changePublication_effect request w r w' :
  changePublication request w = (r, w') → Inv (db w) → two_status (pr_status request) →
  match r with
  | Ok s => ∃ cfg target at_,
      publication request (db w) (db w') cfg target at_ ∧
      s = publication_result {| LogicPublish.request := request; config := cfg;
                                target := target; released := None; changedAt := at_ |}
  | Er _ => db w' = db w ∨
      ∃ cfg target at_, publication request (db w) (db w') cfg target at_
  end.
Proof.
  intros Hr HI Htwo. unfold changePublication in Hr. unfold mbind, M_bind in Hr.
  destruct (authorizedSnapshot request w) as [[found|e] w1] eqn:Ha;
    pose proof (reads_run _ _ _ _ (reads_authorizedSnapshot _) Ha) as Hd1;
    [|injection Hr as <- <-; by left].
  destruct (TX _ w1) as [[change|e] w2] eqn:Htx.
  - destruct (cleanup _ w2) as [[u|e] w3] eqn:Hcl;
      pose proof (reads_run _ _ _ _ (reads_cleanup _) Hcl) as Hd3;
      apply TX_Ok in Htx as (wa & wb & [Hda _] & Hop & [Hdb _]);
      rewrite <-Hd1, <-Hda in HI;
      apply (publication_spec _ (snp_ConfigID found)) in Hop as (Hreq & Hpub & _);
      try done; rewrite <-Hdb, <-Hd3, Hda, Hd1 in Hpub; injection Hr as <- <-.
    + eexists _, _, _. split; [exact Hpub|]. unfold publication_result. simpl.
      by rewrite Hreq.
    + right. eauto.
  - injection Hr as <- <-. apply TX_Er in Htx as [Hdb|(change & wa & wb & [Hda _] & Hop & [Hdb _])].
    { left. congruence. }
    right. rewrite <-Hd1, <-Hda in HI.
    apply (publication_spec _ (snp_ConfigID found)) in Hop as (Hreq & Hpub & _); [|done..].
    rewrite <-Hdb, Hda, Hd1 in Hpub. eauto.
Qed.

(** What is released in the configuration of [sid] in [d]. *)
Definition released_in (d : DB) (cid k : Z) : Prop :=
  ∃ s, srows d !! k = Some s ∧ is_released s = true ∧ snp_ConfigID s = cid.

Lemma publication_released request d d' cfg target at_ :
  publication request d d' cfg target at_ → two_status (pr_status request) → Inv d →
  ∀ k, released_in d' (ID (cfg_meta cfg)) k ↔
       pr_status request = SnapshotStatusReleased ∧ k = pr_snapshotID request.
Proof.
  intros Hp Htwo HI k. unfold released_in. rewrite (pub_srows _ _ _ _ _ _ Hp).
  pose proof (pub_target _ _ _ _ _ _ Hp) as Ht. pose proof (pub_config _ _ _ _ _ _ Hp) as Hc.
  pose proof (config_key _ _ _ Hc) as Hcid. pose proof (snapshot_key _ _ _ Ht) as Hid.
  pose proof (pub_target_live _ _ _ _ _ _ Hp) as Hl.
  pose proof (pub_valid _ _ _ _ _ _ Hp) as Hv. unfold validate in Hv. inv_ok.
  match goal with Hx : validateTarget _ _ _ = _ |- _ =>
    apply validateTarget_ok in Hx as (Hne & _) end.
  setoid_rewrite lookup_fmap. setoid_rewrite fmap_Some.
  destruct Htwo as [Hst|Hst]; rewrite Hst; simpl.
  - split; [|by intros [? _]]. intros (s & (x & Hx & ->) & Hrel & Hxc).
    pose proof (snapshot_key _ _ _ Hx) as Hxid.
    unfold unpublish_row, snapshot_id in Hrel, Hxc.
    destruct (ID (snp_meta x) =? pr_snapshotID request) eqn:Hxs.
    { unfold is_released in Hrel. simpl in Hrel. by rewrite andb_false_r in Hrel. }
    bool_hyps. exfalso. apply Hxs. rewrite Hxid.
    apply (inv_released HI k (pr_snapshotID request) x target); try done; [|congruence].
    unfold is_released. rewrite Hl. destruct (inv_status HI _ _ Ht) as [Hs|Hs]; [congruence|].
    by rewrite Hs.
  - split.
    + intros (s & (x & Hx & ->) & Hrel & Hxc). split; [done|].
      pose proof (snapshot_key _ _ _ Hx) as Hxid. unfold publish_row, snapshot_id in Hrel, Hxc.
      destruct (ID (snp_meta x) =? pr_snapshotID request) eqn:Hxs; [bool_hyps; congruence|].
      destruct (is_released x) eqn:Hxr; simpl in Hrel, Hxc; [|congruence].
      destruct (snp_ConfigID x =? ID (cfg_meta cfg)) eqn:Hxcc; bool_hyps; [|done].
      unfold is_released in Hrel. simpl in Hrel. by rewrite andb_false_r in Hrel.
    + intros [_ ->]. eexists. split; [by exists target|].
      unfold publish_row, snapshot_id. rewrite Hid, Z.eqb_refl.
      unfold is_released. simpl. split; [|congruence].
      change (live (touch_next ?a ?b ?m)) with (live m). by rewrite Hl.
Qed.

(** The response is the row as stored. *)
Lemma publication_stored request d d' cfg target at_ c :
  publication request d d' cfg target at_ → two_status (pr_status request) →
  srows d' !! pr_snapshotID request =
  Some (publication_result {| LogicPublish.request := request; config := c;
          target := target; released := None; changedAt := at_ |}).
Proof.
  intros Hp Htwo. rewrite (pub_srows _ _ _ _ _ _ Hp), lookup_fmap.
  rewrite (pub_target _ _ _ _ _ _ Hp). simpl.
  pose proof (snapshot_key _ _ _ (pub_target _ _ _ _ _ _ Hp)) as Hid.
  destruct Htwo as [Hst|Hst]; rewrite Hst; simpl;
    unfold unpublish_row, publish_row, snapshot_id; rewrite Hid, Z.eqb_refl;
    unfold publication_result; simpl; by rewrite Hst.
Qed.

Lemma publication_runtime request d d' cfg target at_ :
  publication request d d' cfg target at_ →
  ∃ c', crows d' !! snp_ConfigID target = Some c' ∧
    cfg_RuntimeVersion c' = cfg_RuntimeVersion cfg + 1 ∧
    cfg_Value c' = cfg_Value cfg ∧ cfg_Key c' = cfg_Key cfg ∧
    0 ≤ cfg_RuntimeVersion cfg ∧ cfg_RuntimeVersion cfg ≠ max_int64.
Proof.
  intros Hp. destruct (pub_crows _ _ _ _ _ _ Hp) as [at' Hc].
  pose proof (pub_config _ _ _ _ _ _ Hp) as Hcfg.
  pose proof (config_key _ _ _ Hcfg) as Hid.
  pose proof (pub_valid _ _ _ _ _ _ Hp) as Hv. unfold validate in Hv. inv_ok.
  match goal with Hx : validateRuntimeVersion _ = _ |- _ =>
    apply validateRuntimeVersion_ok in Hx as [? ?] end.
  exists (config_next_runtime at' cfg). rewrite Hc, lookup_fmap, Hcfg. simpl.
  split_and!; try done. unfold next_runtime_row. by rewrite Z.eqb_refl.
Qed.

Definition publish_request (actor : Actor) (environmentID snapshotID expectedVersion : Z) :=
  {| pr_actor := actor; pr_environmentID := environmentID; pr_snapshotID := snapshotID;
     pr_expectedVersion := expectedVersion; pr_status := SnapshotStatusReleased |}.
Definition unpublish_request (actor : Actor) (environmentID snapshotID expectedVersion : Z) :=
  {| pr_actor := actor; pr_environmentID := environmentID; pr_snapshotID := snapshotID;
     pr_expectedVersion := expectedVersion; pr_status := SnapshotStatusUnreleased |}.

(** ** Properties *)

(** C4: a publish that succeeds found the snapshot live, unreleased, at the
    version the caller expected and with content that is valid for its
    configuration; it has released exactly that snapshot of the configuration
    and retired what was released before, advanced the snapshot's version and
    the configuration's runtime generation by one, changed no other snapshot
    or configuration row, written one audit record, and it returns the stored
    row. *)
Theorem Publish_correct actor environmentID snapshotID expectedVersion w s w' :
  Inv (db w) →
  Publish actor environmentID snapshotID expectedVersion w = (Ok s, w') →
  ∃ cfg target at_ cfg',
    publication (publish_request actor environmentID snapshotID expectedVersion)
      (db w) (db w') cfg target at_ ∧
    snp_Status target = SnapshotStatusUnreleased ∧
    Version (snp_meta target) = expectedVersion ∧
    validateSnapshot target cfg = Ok tt ∧
    srows (db w') !! snapshotID = Some s ∧ Version (snp_meta s) = expectedVersion + 1 ∧
    (∀ k, released_in (db w') (snp_ConfigID s) k ↔ k = snapshotID) ∧
    crows (db w') !! snp_ConfigID s = Some cfg' ∧
    cfg_RuntimeVersion cfg' = cfg_RuntimeVersion cfg + 1 ∧
    cfg_RuntimeVersion cfg ≠ max_int64.
Proof.
  intros HI Hr. apply changePublication_effect in Hr as (cfg & target & at_ & Hp & ->);
    [|done|by right].
  destruct (publication_runtime _ _ _ _ _ _ Hp) as (cfg' & Hcfg' & Hrt & _ & _ & _ & Hmax).
  pose proof (publication_released _ _ _ _ _ _ Hp (or_intror eq_refl) HI) as Hrel.
  pose proof (publication_stored _ _ _ _ _ _ cfg Hp (or_intror eq_refl)) as Hst.
  pose proof (config_key _ _ _ (pub_config _ _ _ _ _ _ Hp)) as Hcid.
  pose proof (pub_valid _ _ _ _ _ _ Hp) as Hv. unfold validate in Hv. simpl in Hv. inv_ok.
  match goal with Hx : validateTarget _ _ _ = _ |- _ =>
    apply validateTarget_ok in Hx as (Hne & Hver & _) end. simpl in *.
  exists cfg, target, at_, cfg'. split_and!; try done.
  - destruct (inv_status HI _ _ (pub_target _ _ _ _ _ _ Hp)); [done|congruence].
  - rewrite Hver. done.
  - intros k. rewrite <-Hcid, Hrel. naive_solver.
Qed.

(** An unpublish that succeeds found the snapshot released at the expected
    version; afterwards the configuration has no released snapshot, its
    runtime generation is one higher (so no cached content is served for it),
    and the stored row is returned with no publication stamp. *)
Theorem Unpublish_correct actor environmentID snapshotID expectedVersion w s w' :
  Inv (db w) →
  Unpublish actor environmentID snapshotID expectedVersion w = (Ok s, w') →
  ∃ cfg target at_ cfg',
    publication (unpublish_request actor environmentID snapshotID expectedVersion)
      (db w) (db w') cfg target at_ ∧
    is_released target = true ∧ Version (snp_meta target) = expectedVersion ∧
    srows (db w') !! snapshotID = Some s ∧ snp_PublishedAt s = None ∧
    Version (snp_meta s) = expectedVersion + 1 ∧
    (∀ k, ¬ released_in (db w') (snp_ConfigID s) k) ∧
    crows (db w') !! snp_ConfigID s = Some cfg' ∧
    cfg_RuntimeVersion cfg' = cfg_RuntimeVersion cfg + 1.
Proof.
  intros HI Hr. apply changePublication_effect in Hr as (cfg & target & at_ & Hp & ->);
    [|done|by left].
  destruct (publication_runtime _ _ _ _ _ _ Hp) as (cfg' & Hcfg' & Hrt & _).
  pose proof (publication_released _ _ _ _ _ _ Hp (or_introl eq_refl) HI) as Hrel.
  pose proof (publication_stored _ _ _ _ _ _ cfg Hp (or_introl eq_refl)) as Hst.
  pose proof (config_key _ _ _ (pub_config _ _ _ _ _ _ Hp)) as Hcid.
  pose proof (pub_target_live _ _ _ _ _ _ Hp) as Hlive.
  pose proof (pub_valid _ _ _ _ _ _ Hp) as Hv. unfold validate in Hv. simpl in Hv. inv_ok.
  match goal with Hx : validateTarget _ _ _ = _ |- _ =>
    apply validateTarget_ok in Hx as (Hne & Hver & _) end. simpl in *.
  exists cfg, target, at_, cfg'. split_and!; try done.
  - unfold is_released. rewrite Hlive.
    destruct (inv_status HI _ _ (pub_target _ _ _ _ _ _ Hp)) as [Hs|Hs]; [congruence|].
    by rewrite Hs.
  - rewrite Hver. done.
  - intros k. rewrite <-Hcid, Hrel. by intros [? _].
Qed.

(** C23: whatever fails, publishing is all or nothing: a publish or unpublish
    that reports an error (a refused permission, a stale version, invalid
    content, a failed statement or commit, a failed cache clean-up) either left
    the database as it was, or the complete transition was committed and only
    its answer was lost; in every outcome the integrity of publication is
    kept. *)
Theorem changePublication_atomic request w r w' :
  Inv (db w) → two_status (pr_status request) →
  changePublication request w = (r, w') →
  (db w' = db w ∨ ∃ cfg target at_, publication request (db w) (db w') cfg target at_) ∧
  (is_ok r = true → ∃ cfg target at_, publication request (db w) (db w') cfg target at_) ∧
  Inv (db w').
Proof.
  intros HI Htwo Hr. apply changePublication_effect in Hr; [|done..].
  destruct r as [s|e].
  - destruct Hr as (cfg & target & at_ & Hp & _).
    split_and!; [by eauto 6..|]. by eapply publication_inv.
  - split_and!; [done|done|]. destruct Hr as [->|(cfg & target & at_ & Hp)]; [done|].
    by eapply publication_inv.
Qed.
End publish.

Import Sample SampleWorld.

Lemma Publish_correct_witness :
  Inv (db world) ∧ ∃ cfg target at_ cfg' s,
    publication (publish_request ann 1 2 1) (db world) (db (Publish ann 1 2 1 world).2)
      cfg target at_ ∧
    snp_Status target = SnapshotStatusUnreleased ∧ Version (snp_meta target) = 1 ∧
    validateSnapshot target cfg = Ok tt ∧
    srows (db (Publish ann 1 2 1 world).2) !! 2 = Some s ∧ Version (snp_meta s) = 1 + 1 ∧
    (∀ k, released_in (db (Publish ann 1 2 1 world).2) (snp_ConfigID s) k ↔ k = 2) ∧
    crows (db (Publish ann 1 2 1 world).2) !! snp_ConfigID s = Some cfg' ∧
    cfg_RuntimeVersion cfg' = cfg_RuntimeVersion cfg + 1 ∧
    cfg_RuntimeVersion cfg ≠ max_int64.
Proof.
  split; [exact database_inv|].
  destruct (Publish ann 1 2 1 world) as [r w'] eqn:Hr.
  assert (∃ s, r = Ok s) as [s ->].
  { change r with (r, w').1. rewrite <-Hr, publish_runs. by eexists. }
  destruct (Publish_correct ann 1 2 1 world s w' database_inv Hr) as (cfg & t & a & c & Hp).
  exists cfg, t, a, c, s. exact Hp.
Defined.

Lemma changePublication_atomic_witness :
  let r := changePublication (publish_request ann 1 2 5) world in
  Inv (db world) ∧ two_status SnapshotStatusReleased ∧
  (db r.2 = db world ∨ ∃ cfg target at_,
     publication (publish_request ann 1 2 5) (db world) (db r.2) cfg target at_) ∧
  (is_ok r.1 = true → ∃ cfg target at_,
     publication (publish_request ann 1 2 5) (db world) (db r.2) cfg target at_) ∧
  Inv (db r.2).
Proof.
  intros r. split; [exact database_inv|]. split; [by right|].
  exact (changePublication_atomic (publish_request ann 1 2 5) world r.1 r.2 database_inv
           (or_intror eq_refl) (surjective_pairing r)).
Defined.

(** The installation after [ann] has published the second snapshot. *)
Definition published_world : World := (Publish ann 1 2 1 world).2.

Lemma published_world_inv : Inv (db published_world).
Proof.
  destruct (Publish ann 1 2 1 world) as [r w'] eqn:Hr. unfold published_world. rewrite Hr.
  eapply changePublication_effect in Hr as Hp; [|exact database_inv|by right].
  destruct r as [s|e].
  - destruct Hp as (cfg & t & a & Hp & _). eapply publication_inv; [exact Hp|exact database_inv].
  - destruct Hp as [Hp|(cfg & t & a & Hp)]; [simpl; rewrite Hp; exact database_inv|].
    eapply publication_inv; [exact Hp|exact database_inv].
Qed.

Example unpublish_runs : is_ok (Unpublish ann 1 2 2 published_world).1 = true.
Proof. vm_compute. reflexivity. Qed.

Lemma Unpublish_correct_witness :
  ∃ s, (Unpublish ann 1 2 2 published_world).1 = Ok s ∧
    ∀ k, ¬ released_in (db (Unpublish ann 1 2 2 published_world).2) (snp_ConfigID s) k.
Proof.
  destruct (Unpublish ann 1 2 2 published_world) as [r w'] eqn:Hr.
  pose proof unpublish_runs as Hok. rewrite Hr in Hok. destruct r as [s|e]; [|discriminate Hok].
  exists s. split; [reflexivity|].
  destruct (Unpublish_correct ann 1 2 2 published_world s w' published_world_inv Hr)
    as (cfg & t & a & c & _ & _ & _ & _ & _ & _ & Hk & _). exact Hk.
Defined.
