(* ===== verification/ScopeSpec.v ===== *)
(** What the scope of an environment selects: the environments of a project
    share its rows.  Then the loop over pages: it ends with every row. *)

From stdpp Require Import sorting.
From S2P Require Import Prelude GoStd GoStrings Proto Codec Schema SchemaSpec Engine Model Cache Convert World WorldLaws RepoScope Permission RepoConfig RepoChild RepoSnapshot RepoLaws LogicBase LogicConfig SampleWorld.

Local Open Scope Z_scope.

Section scope.
Context {E : Engine} {EL : EngineLaws E} `{Collation}.

(** A select is empty when no row satisfies its predicate. *)
Lemma select_exists {R} `{Row R} (p : R → bool) (t : table R) :
  negb (bool_decide (select p t = [])) = true ↔
  ∃ k r, rows t !! k = Some r ∧ p r = true.
Proof.
  rewrite negb_true_iff, bool_decide_eq_false. split.
  - intros Hne. destruct (select p t) as [|r l] eqn:Hs; [done|].
    assert (r ∈ select p t) as Hin by (rewrite Hs; by left).
    apply select_spec in Hin as [Hr Hp]. eauto.
  - intros (k & r & Hr & Hp) Hs. pose proof (rows_select p t k r Hr Hp) as Hin.
    rewrite Hs in Hin. by apply elem_of_nil in Hin.
Qed.

(** [e] is a live environment of the live project [pid]. *)
Definition project_live_row (d : DB) (pid : Z) : Prop :=
  ∃ p, rows (projects d) !! pid = Some p ∧ live (prj_meta p) = true.
Definition environment_in (d : DB) (e pid : Z) : Prop :=
  ∃ env, rows (environments d) !! e = Some env ∧ live (env_meta env) = true ∧
    env_ProjectID env = pid.
Definition grants (d : DB) (e pid : Z) : Prop := environment_in d e pid ∧ project_live_row d pid.

(** A row found by a select on its identifier is the row of that identifier. *)
Lemma row_at {R} `{Row R} (t : table R) k r id :
  rows t !! k = Some r → row_id r = id → rows t !! id = Some r.
Proof. intros Hr <-. by rewrite (rows_id _ _ _ Hr). Qed.

Lemma project_live_spec d pid : project_live d pid = true ↔ project_live_row d pid.
Proof.
  unfold project_live. rewrite select_exists. split.
  - intros (k & p & Hp & Hq). bool_hyps. exists p. split; [by eapply row_at|done].
  - intros (p & Hp & Hl). exists pid, p. pose proof (rows_id _ _ _ Hp) as Hid. simpl in Hid.
    by rewrite Hid, Z.eqb_refl, Hl.
Qed.

Lemma environment_of_spec d e pid : environment_of d e pid = true ↔ environment_in d e pid.
Proof.
  unfold environment_of. rewrite select_exists. split.
  - intros (k & r & Hr & Hq). bool_hyps. exists r. split_and!; [by eapply row_at|done..].
  - intros (r & Hr & Hl & Hp). exists e, r. pose proof (rows_id _ _ _ Hr) as Hid. simpl in Hid.
    by rewrite Hid, Hp, !Z.eqb_refl, Hl.
Qed.

Lemma config_in_scope_spec d e c : config_in_scope d e c = true ↔
  live (cfg_meta c) = true ∧ grants d e (cfg_ProjectID c).
Proof.
  unfold config_in_scope, grants. rewrite !andb_true_iff, project_live_spec, environment_of_spec.
  tauto.
Qed.

Lemma config_joined_spec d e cid : config_joined d e cid = true ↔
  ∃ c, rows (configs d) !! cid = Some c ∧ live (cfg_meta c) = true ∧
    grants d e (cfg_ProjectID c).
Proof.
  unfold config_joined. rewrite select_exists. split.
  - intros (k & c & Hc & Hq). apply andb_true_iff in Hq as [Hid Hs]. bool_hyps.
    apply config_in_scope_spec in Hs. exists c. split; [by eapply row_at|done].
  - intros (c & Hc & Hs). exists cid, c. pose proof (rows_id _ _ _ Hc) as Hid. simpl in Hid.
    rewrite Hid, Z.eqb_refl. split; [done|]. by apply config_in_scope_spec.
Qed.

Lemma snapshot_in_scope_spec d e s : snapshot_in_scope d e s = true ↔
  live (snp_meta s) = true ∧ grants d e (snp_ProjectID s) ∧
  ∃ c, rows (configs d) !! snp_ConfigID s = Some c ∧ live (cfg_meta c) = true ∧
    cfg_ProjectID c = snp_ProjectID s.
Proof.
  unfold snapshot_in_scope, grants.
  rewrite !andb_true_iff, project_live_spec, environment_of_spec, select_exists. split.
  - intros [[[(k & c & Hc & Hq) ?] ?] ?]. bool_hyps. split_and!; try done. exists c.
    split_and!; [by eapply row_at|done..].
  - intros (? & [? ?] & c & Hc & Hl & Hp). split_and!; try done. exists (snp_ConfigID s), c.
    pose proof (rows_id _ _ _ Hc) as Hid. simpl in Hid. by rewrite Hid, Hp, !Z.eqb_refl, Hl.
Qed.

(** The scopes of repository/scope.go select exactly what an environment
    grants.  A configuration, structure, enumeration, snapshot, project or API
    key is found through an environment identifier if and only if the
    environment is live, its project is live and owns the row (through the live
    configuration for structures and enumerations, and with the snapshot's own
    project for snapshots), and the row itself is live where the scope asks for
    it: no row of another project is reachable and none of the project is
    missed. *)
Theorem scopes_exact (d : DB) (e : Z) :
  (∀ p c, c ∈ configScope e p d ↔ rows (configs d) !! ID (cfg_meta c) = Some c ∧
     live (cfg_meta c) = true ∧ grants d e (cfg_ProjectID c) ∧ p c = true) ∧
  (∀ p s, s ∈ snapshotScope e p d ↔ rows (snapshots d) !! ID (snp_meta s) = Some s ∧
     live (snp_meta s) = true ∧ grants d e (snp_ProjectID s) ∧
     (∃ c, rows (configs d) !! snp_ConfigID s = Some c ∧ live (cfg_meta c) = true ∧
        cfg_ProjectID c = snp_ProjectID s) ∧ p s = true) ∧
  (∀ p s, s ∈ structureScope e p d ↔ rows (structures d) !! ID (str_meta s) = Some s ∧
     live (str_meta s) = true ∧
     (∃ c, rows (configs d) !! str_ConfigID s = Some c ∧ live (cfg_meta c) = true ∧
        grants d e (cfg_ProjectID c)) ∧ p s = true) ∧
  (∀ p s, s ∈ enumScope e p d ↔ rows (config_enums d) !! ID (enm_meta s) = Some s ∧
     live (enm_meta s) = true ∧
     (∃ c, rows (configs d) !! enm_ConfigID s = Some c ∧ live (cfg_meta c) = true ∧
        grants d e (cfg_ProjectID c)) ∧ p s = true) ∧
  (∀ p r, r ∈ projectScope e p d ↔ rows (projects d) !! ID (prj_meta r) = Some r ∧
     live (prj_meta r) = true ∧ environment_in d e (ID (prj_meta r)) ∧ p r = true) ∧
  (∀ p k, k ∈ apiKeyScope e p d ↔ rows (project_api_keys d) !! r_ID (key_meta k) = Some k ∧
     grants d e (key_ProjectID k) ∧ p k = true).
Proof.
  unfold configScope, snapshotScope, structureScope, enumScope, projectScope, apiKeyScope.
  repeat apply conj; intros p x; rewrite select_spec, andb_true_iff.
  - rewrite config_in_scope_spec. tauto.
  - rewrite snapshot_in_scope_spec. tauto.
  - unfold structure_in_scope, structure_in_scope_deleted.
    rewrite andb_true_iff, config_joined_spec. tauto.
  - unfold enum_in_scope, enum_in_scope_deleted. rewrite andb_true_iff, config_joined_spec. tauto.
  - unfold project_in_scope. rewrite andb_true_iff, environment_of_spec. tauto.
  - unfold key_in_scope, grants. rewrite andb_true_iff, project_live_spec, environment_of_spec. tauto.
Qed.

Lemma environment_in_same d e1 e2 pid : environment_in d e1 pid → environment_in d e2 pid →
  ∀ q, environment_in d e1 q ↔ environment_in d e2 q.
Proof.
  intros (a & Ha & Hla & <-) (b & Hb & Hlb & Hab) q. split.
  - intros (a' & Ha' & _ & <-). exists b. assert (a' = a) as -> by congruence. done.
  - intros (b' & Hb' & _ & <-). exists a. assert (b' = b) as -> by congruence. done.
Qed.

(** The environments of a project are interchangeable.  Two live
    environments of the same project select the same rows through every scope,
    so configurations and snapshots belong to the project and not to one of its
    environments: a change made or a snapshot published through one environment
    is what every other environment of the project shows. *)
Theorem environments_share_rows (d : DB) (e1 e2 pid : Z) :
  environment_in d e1 pid → environment_in d e2 pid →
  (∀ p, configScope e1 p d = configScope e2 p d) ∧
  (∀ p, snapshotScope e1 p d = snapshotScope e2 p d) ∧
  (∀ p, structureScope e1 p d = structureScope e2 p d) ∧
  (∀ p, enumScope e1 p d = enumScope e2 p d) ∧
  (∀ p, projectScope e1 p d = projectScope e2 p d) ∧
  (∀ p, apiKeyScope e1 p d = apiKeyScope e2 p d).
Proof.
  intros H1 H2. pose proof (environment_in_same d e1 e2 pid H1 H2) as He.
  assert (∀ q, grants d e1 q ↔ grants d e2 q) as Hg by (intros q; unfold grants; by rewrite He).
  assert (∀ c, config_joined d e1 c = config_joined d e2 c) as Hj.
  { intros c. apply eq_true_iff_eq. rewrite !config_joined_spec. by setoid_rewrite Hg. }
  repeat apply conj; intros p; apply select_ext; intros r; f_equal.
  - apply eq_true_iff_eq. rewrite !config_in_scope_spec. by rewrite Hg.
  - apply eq_true_iff_eq. rewrite !snapshot_in_scope_spec. by rewrite Hg.
  - unfold structure_in_scope, structure_in_scope_deleted. by rewrite Hj.
  - unfold enum_in_scope, enum_in_scope_deleted. by rewrite Hj.
  - unfold project_in_scope. f_equal. apply eq_true_iff_eq. by rewrite !environment_of_spec, He.
  - unfold key_in_scope. f_equal. apply eq_true_iff_eq. by rewrite !environment_of_spec, He.
Qed.
End scope.

(** ** The sample installation *)

Section sample.
Import SampleWorld.

(** The sample project with a second environment. *)
Definition staging : EnvironmentRow :=
  {| env_meta := meta 2 1; env_ProjectID := 1; env_Key := "staging"; env_Name := "Staging";
     env_Description := ""; env_Enabled := true |}.
Definition two_environments : DB :=
  {| environments := {[1 := environment; 2 := staging]} : gmap Z _;
     users := users database; roles := roles database; permissions := permissions database;
     user_environment_roles := user_environment_roles database;
     role_permissions := role_permissions database; refresh_tokens := refresh_tokens database;
     projects := projects database; project_api_keys := project_api_keys database;
     configs := configs database; structures := structures database;
     config_enums := config_enums database; snapshots := snapshots database;
     import_records := import_records database; audit_logs := audit_logs database;
     application_secrets := application_secrets database |}.

Lemma environments_share_rows_witness :
  configScope 1 (λ _, true) two_environments = [main] ∧
  configScope 2 (λ _, true) two_environments = [main].
Proof.
  destruct (environments_share_rows two_environments 1 2 1) as [Hc _].
  - exists environment. split; [vm_compute; reflexivity|split; reflexivity].
  - exists staging. split; [vm_compute; reflexivity|split; reflexivity].
  - rewrite <-Hc. split; vm_compute; reflexivity.
Defined.
End sample.

Section pages.
Context {E : Engine} {EL : EngineLaws E} `{Collation} {St : Store}.

(** The error of a query is never the one that stands for lack of fuel. *)
Lemma wrapped_not_fuel {A} (m : M A) w e w' : wrapped m w = (Er e, w') → e ≠ EFuel.
Proof.
  unfold wrapped, handle. destruct (m w) as [[a|x] w1]; [done|]. intros [= <- _].
  unfold WrapDatabaseError. destruct (cause_of x) eqn:Hx; try done. by destruct x.
Qed.

(** One page. *)
Lemma run_paginate {A} (q : DB → list A) page r w w' : paginate q page w = (r, w') →
  db w' = db w ∧ (faults w = [] → faults w' = [] ∧ is_ok r = true) ∧
  match r with
  | Ok p => Total p = Z.of_nat (length (q (db w))) ∧
      Items p = take (Z.to_nat (Limit (NormalizePage page)))
                     (drop (Z.to_nat (Offset (NormalizePage page))) (q (db w)))
  | Er e => e ≠ EFuel
  end.
Proof.
  intros Hr. assert (reads (paginate q page)) as Hreads by (unfold paginate; reads).
  split; [by eapply Hreads|]. clear Hreads.
  unfold paginate in Hr. unfold mbind at 1, M_bind in Hr.
  destruct (wrapped (query _) w) as [[n|e] w1] eqn:Hq.
  2:{ injection Hr as <- <-. split; [|by eapply wrapped_not_fuel].
      intros Hf. unfold wrapped, handle in Hq. by rewrite query_no_faults in Hq. }
  assert (faults w = [] → faults w1 = []) as Hf1.
  { intros Hf. unfold wrapped, handle in Hq. rewrite query_no_faults in Hq by done.
    by injection Hq as <- <-. }
  apply run_handle, run_query in Hq as [-> [Hd1 _]].
  destruct (Z.eqb_spec (Z.of_nat (length (q (db w)))) 0) as [H0|H0].
  - injection Hr as <- <-. simpl. split; [by auto|]. split; [done|].
    destruct (q (db w)); [by rewrite drop_nil, take_nil|simpl in H0; lia].
  - unfold mbind, M_bind in Hr. destruct (wrapped (find _) w1) as [[l|e] w2] eqn:Hq.
    + assert (faults w1 = [] → faults w2 = []) as Hf2.
      { intros Hf. unfold wrapped, handle, find in Hq. rewrite query_no_faults in Hq by done.
        by injection Hq as <- <-. }
      apply run_handle, run_find in Hq as [-> _]. injection Hr as <- <-. simpl.
      rewrite Hd1. split; [by auto|]. done.
    + injection Hr as <- <-. split; [|by eapply wrapped_not_fuel].
      intros Hf. unfold wrapped, handle, find in Hq. by rewrite query_no_faults in Hq by auto.
Qed.

Lemma pages_from_complete {A} (q : DB → list A) n i w r w' :
  pages_from (paginate q) n (MaxPageSize * Z.of_nat i)
    (take (100 * i) (q (db w))) w = (r, w') →
  (S (length (q (db w)) - 100 * i) ≤ n)%nat →
  (faults w = [] → r = Ok (q (db w))) ∧
  match r with Ok l => l = q (db w) | Er e => e ≠ EFuel end.
Proof.
  revert i w. induction n as [|n IH]; intros i w Hr Hn; [lia|]. cbn [pages_from] in Hr.
  unfold mbind, M_bind in Hr.
  destruct (paginate q _ w) as [[p|e] w1] eqn:Hp; apply run_paginate in Hp as (Hd & Hf & Hp).
  2:{ injection Hr as <- <-. split; [|done]. by intros [_ ?]%Hf. }
  destruct Hp as [Htot Hitems].
  assert (NormalizePage {| Offset := MaxPageSize * Z.of_nat i; Limit := MaxPageSize |} =
    {| Offset := MaxPageSize * Z.of_nat i; Limit := MaxPageSize |}) as Hnorm.
  { unfold NormalizePage, MaxPageSize. simpl.
    destruct (Z.ltb_spec (100 * Z.of_nat i) 0); [lia|done]. }
  rewrite Hnorm in Hitems. cbn [Offset Limit] in Hitems.
  change (Z.to_nat MaxPageSize) with 100%nat in Hitems.
  replace (Z.to_nat (MaxPageSize * Z.of_nat i)) with (100 * i)%nat in Hitems
    by (unfold MaxPageSize; lia).
  assert (take (100 * i) (q (db w)) ++ Items p = take (100 * S i) (q (db w))) as Happ.
  { rewrite Hitems. replace (100 * S i)%nat with (100 * i + 100)%nat by lia.
    by rewrite take_take_drop. }
  rewrite Happ, Htot in Hr.
  destruct (_ || _)%bool eqn:Hstop.
  - assert (take (100 * S i) (q (db w)) = q (db w)) as Hall.
    { apply take_ge. apply orb_true_iff in Hstop as [Hle|Hnil]; bool_hyps.
      - rewrite length_take in Hle. lia.
      - rewrite Hitems, length_take, length_drop in Hnil. lia. }
    rewrite Hall in Hr. injection Hr as <- <-. done.
  - replace (MaxPageSize * Z.of_nat i + MaxPageSize) with (MaxPageSize * Z.of_nat (S i)) in Hr
      by lia.
    rewrite <-Hd in Hr |- *. apply IH in Hr as [Hok Hres]; [|].
    + split; [|done]. intros Hw. apply Hok. by apply Hf.
    + rewrite Hd. apply orb_false_iff in Hstop as [Hlt _]. bool_hyps.
      rewrite length_take in Hlt. lia.
Qed.

Lemma all_pages_complete {A R} `{Row R} (T : Field_of R) (q : DB → list A) w r w' :
  all_pages T (paginate q) w = (r, w') →
  (length (q (db w)) ≤ table_size T (db w))%nat →
  (faults w = [] → r = Ok (q (db w))) ∧
  match r with Ok l => l = q (db w) | Er e => e ≠ EFuel end.
Proof.
  intros Hr Hlen. unfold all_pages in Hr.
  eapply (pages_from_complete q _ 0); [exact Hr|]. lia.
Qed.

(** A narrower query has no more rows. *)
Lemma select_length {R} `{Row R} (p : R → bool) (t : table R) :
  (length (select p t) ≤ length (select (λ _, true) t))%nat.
Proof.
  apply submseteq_length, NoDup_submseteq.
  - apply select_NoDup.
  - intros r Hr. apply select_spec in Hr as [Hr _]. by apply select_spec.
Qed.

(** What the filter of a listing of configurations asks for. *)
Definition config_filter (filter : ConfigFilter) (d : DB) (c : ConfigRow) : bool :=
  eqIf Z.eqb (cfg_ProjectID c) (cf_ProjectID filter)
  && match cf_ProjectKey filter with
     | None => true
     | Some key => negb (bool_decide (select (λ p, (ID (prj_meta p) =? cfg_ProjectID c)
                     && text_eq (prj_Key p) key) (projects d) = []))
     end
  && eqIf text_eq (cfg_Key c) (cf_Key filter).

(** The loop over pages ends and misses nothing: listing all configurations
    of a filter returns, whatever the number of pages, exactly the live
    configurations in scope that satisfy the filter, each once and newest first;
    the only failures are those of its statements. *)
Theorem config_pages_complete environmentID filter w r w' :
  all_pages configs_t (config_List environmentID filter) w = (r, w') →
  (faults w = [] → is_ok r = true) ∧
  match r with
  | Ok items => items = rev (configScope environmentID (config_filter filter (db w)) (db w)) ∧
      NoDup items ∧
      ∀ c, c ∈ items ↔ crows (db w) !! ID (cfg_meta c) = Some c ∧
        config_in_scope (db w) environmentID c = true ∧ config_filter filter (db w) c = true
  | Er e => e ≠ EFuel
  end.
Proof.
  intros Hr.
  set (q := λ d, rev (configScope environmentID (config_filter filter d) d)).
  change (all_pages configs_t (paginate q) w = (r, w')) in Hr.
  apply all_pages_complete in Hr as [Hok Hr].
  2:{ unfold q. rewrite length_rev. apply select_length. }
  split; [by intros ->%Hok|]. destruct r as [items|e]; [|done]. subst items.
  split; [done|]. unfold q, configScope. split.
  - apply NoDup_ListNoDup, List.NoDup_rev, NoDup_ListNoDup, select_NoDup.
  - intros c. rewrite list_elem_of_In, <-in_rev, <-list_elem_of_In, select_spec.
    by rewrite andb_true_iff.
Qed.
End pages.

(** ** The sample installation *)

Section sample.
Import SampleWorld.

Definition any_config : ConfigFilter :=
  {| cf_ProjectID := None; cf_ProjectKey := None; cf_Key := None |}.

Lemma config_pages_complete_witness : ∃ items w',
  all_pages configs_t (config_List 1 any_config) world = (Ok items, w') ∧
  items = rev (configScope 1 (config_filter any_config database) database).
Proof.
  destruct (all_pages configs_t (config_List 1 any_config) world) as [r w'] eqn:Hr.
  destruct (config_pages_complete 1 any_config world r w' Hr) as [Hok Hitems].
  specialize (Hok eq_refl). destruct r as [items|e]; [|discriminate Hok].
  exists items, w'. split; [reflexivity|]. apply Hitems.
Defined.
End sample.
