(* ===== verification/Handlers.v ===== *)
(** Every operation of the logic layer moves the database soundly, whatever
    fails while it runs: it keeps the integrity of the database and relates it
    to the database it started from by [evolves].  What the operations do to
    the cache: they add permission entries only; the one that adds released
    content is [Read]. *)

From S2P Require Import Prelude GoStd GoStrings Proto Codec Schema Engine Model Cache Convert World WorldLaws RepoScope Permission RepoConfig RepoChild RepoSnapshot RepoLaws LogicBase LogicPublish LogicConfig LogicSnapshot LogicDefinition PublishLaws Evolution PublishSpec.

Local Open Scope Z_scope.

(** ** Functions that move the database along a relation in every outcome *)

Section moves.
Context `{Engine} `{Collation} `{Store} (P : DB → DB → Prop) `{!Reflexive P, !Transitive P}.

Definition moves {A} (m : M A) : Prop := ∀ w r w', m w = (r, w') → P (db w) (db w').

Lemma moves_reads {A} (m : M A) : reads m → moves m.
Proof. intros Hm w r w' ->%Hm. done. Qed.
Lemma moves_bind {A B} (m : M A) (k : A → M B) :
  moves m → (∀ a, moves (k a)) → moves (m ≫= k).
Proof.
  intros Hm Hk w r w'. unfold mbind, M_bind. destruct (m w) as [[a|e] w1] eqn:Hr.
  - intros Hk'. etrans; [by eapply Hm|by eapply Hk].
  - intros [= <- <-]. by eapply Hm.
Qed.
(** Around reads no transitivity is needed. *)
Lemma moves_after {A B} (m : M A) (k : A → M B) :
  reads m → (∀ a, moves (k a)) → moves (m ≫= k).
Proof using Reflexive0.
  intros Hm Hk w r w'. unfold mbind, M_bind. destruct (m w) as [[a|e] w1] eqn:Hr;
    apply Hm in Hr; rewrite <-Hr; [by intros ?%Hk|by intros [= <- <-]].
Qed.
Lemma moves_before {A B} (m : M A) (k : A → M B) :
  moves m → (∀ a, reads (k a)) → moves (m ≫= k).
Proof using Type.
  intros Hm Hk w r w'. unfold mbind, M_bind. destruct (m w) as [[a|e] w1] eqn:Hr;
    apply Hm in Hr; [by intros ->%Hk|by intros [= <- <-]].
Qed.
Lemma moves_TX {A} (op : M A) : steps P op → moves (TX op).
Proof using Reflexive0. intros Hop w r w' Hr. by eapply TX_steps. Qed.
End moves.

Create HintDb moves.
#[export] Hint Extern 5 (moves _ _) =>
  apply moves_reads; [typeclasses eauto|solve [auto with reads quiet]] : moves.

Ltac moves :=
  intros;
  repeat first
    [ solve [auto with moves reads quiet]
    | apply moves_bind; [typeclasses eauto..| |intros ?]
    | apply moves_TX; [typeclasses eauto..|]
    | match goal with
      | |- moves _ (if ?b then _ else _) => destruct b
      | |- moves _ (match ?x with _ => _ end) => destruct x
      | |- moves _ (let _ := _ in _) => cbv zeta
      end ].

Section handlers.
Context {E : Engine} {EL : EngineLaws E} `{Collation} {St : Store} {SL : StoreLaws St}
  `{Protojson} `{MapOrder} {Au : Authorizer} {AL : AuthorizerLaws Au}.


(** ** Reading functions of the logic layer *)

Lemma quiet_pages {A} (f : PageRequest → M (PageResult A)) :
  (∀ p, quiet (f p)) → ∀ n o l, quiet (pages_from f n o l).
Proof.
  intros Hf n. induction n as [|n IH]; intros o l; simpl; [quiet|].
  apply quiet_bind; [done|]. intros p. case_match; [quiet|done].
Qed.
Lemma quiet_all_pages {A R} `{Row R} (T : Field_of R) (f : PageRequest → M (PageResult A)) :
  (∀ p, quiet (f p)) → quiet (all_pages T f).
Proof. intros Hf w r w'. apply (quiet_pages f Hf). Qed.
Lemma quiet_resources_lock e c : quiet (resources_lock e c).
Proof.
  unfold resources_lock, structure_ListForConfig, enum_ListForConfig. quiet.
Qed.
#[local] Hint Resolve quiet_resources_lock : quiet.
Lemma quiet_lockedPreview e c : quiet (lockedPreview e c).
Proof. unfold lockedPreview. quiet. Qed.
Lemma quiet_preview_config p : quiet (preview_config p).
Proof. unfold preview_config. quiet. Qed.
#[local] Hint Resolve quiet_lockedPreview quiet_preview_config : quiet.

Lemma quiet_structure_FindByID e k : quiet (structure_FindByID e k).
Proof. apply quiet_child_FindByID. Qed.
Lemma quiet_enum_FindByID e k : quiet (enum_FindByID e k).
Proof. apply quiet_child_FindByID. Qed.
#[local] Hint Resolve quiet_structure_FindByID quiet_enum_FindByID : quiet.

(** ** The statements the operations are made of *)

Context (ok : Z → Prop).
#[local] Hint Resolve sound_SetCurrent sound_config_Update sound_config_UpdateValue
  sound_config_Create : steps.

Lemma steps_sound {A} (m : M A) : steps same_core m → steps (sound_where ok) m.
Proof. intros Hm w a w' Hr. by eapply sound_same_core, Hm. Qed.
Lemma sound_Record e log : steps (sound_where ok) (RecordForEnvironment e log).
Proof. apply steps_sound, steps_RecordForEnvironment. Qed.
Lemma structure_frame t d : same_core d (put_table (ck_table (R := StructureRow)) t d).
Proof. done. Qed.
Lemma enum_frame t d : same_core d (put_table (ck_table (R := EnumRow)) t d).
Proof. done. Qed.
Lemma sound_structure_Create e c i : steps (sound_where ok) (structure_Create e c i).
Proof. apply steps_sound, (steps_child_Create structure_frame). Qed.
Lemma sound_structure_Update e c i : steps (sound_where ok) (structure_Update e c i).
Proof. apply steps_sound, (steps_child_Update structure_frame). Qed.
Lemma sound_structure_Delete e c i : steps (sound_where ok) (structure_Delete e c i).
Proof. apply steps_sound, (steps_child_Delete structure_frame). Qed.
Lemma sound_structure_Reconcile e c i u : steps (sound_where ok) (structure_Reconcile e c i u).
Proof. apply steps_sound, (steps_child_Reconcile structure_frame). Qed.
Lemma sound_enum_Create e c i : steps (sound_where ok) (enum_Create e c i).
Proof. apply steps_sound, (steps_child_Create enum_frame). Qed.
Lemma sound_enum_Update e c i : steps (sound_where ok) (enum_Update e c i).
Proof. apply steps_sound, (steps_child_Update enum_frame). Qed.
Lemma sound_enum_Delete e c i : steps (sound_where ok) (enum_Delete e c i).
Proof. apply steps_sound, (steps_child_Delete enum_frame). Qed.
Lemma sound_enum_Reconcile e c i u : steps (sound_where ok) (enum_Reconcile e c i u).
Proof. apply steps_sound, (steps_child_Reconcile enum_frame). Qed.
Lemma sound_restoreConfig a e cfg content :
  steps (sound_where ok) (restoreConfig a e cfg content).
Proof.
  pose proof sound_structure_Reconcile. pose proof sound_enum_Reconcile.
  unfold restoreConfig. steps.
Qed.
End handlers.

Section logic.
Context {E : Engine} {EL : EngineLaws E} `{Collation} {St : Store} {SL : StoreLaws St}
  `{Protojson} `{MapOrder} {Au : Authorizer} {AL : AuthorizerLaws Au}.

Lemma reads_Check u e ks : reads (Check u e ks).
Proof. apply check_reads. Qed.
#[local] Hint Resolve reads_Check : reads.
#[local] Hint Resolve quiet_resources_lock quiet_lockedPreview quiet_preview_config
  quiet_structure_FindByID quiet_enum_FindByID : quiet.
#[local] Hint Resolve sound_SetCurrent sound_config_Update sound_config_UpdateValue
  sound_config_Create sound_restoreConfig : steps.
#[local] Hint Resolve sound_Record sound_structure_Create sound_structure_Update
  sound_structure_Delete sound_structure_Reconcile sound_enum_Create sound_enum_Update
  sound_enum_Delete sound_enum_Reconcile : steps.

(** ** structure.go, enum.go *)

Lemma moves_structure_Create a e i : moves sound (structure_logic_Create a e i).
Proof. unfold structure_logic_Create. moves. steps. Qed.
Lemma moves_structure_Update a e i : moves sound (structure_logic_Update a e i).
Proof.
  unfold structure_logic_Update, structure_prepareUpdate, structure_validateUpdate,
    structure_saveUpdate. moves. steps.
Qed.
Lemma moves_structure_Delete a e k : moves sound (structure_logic_Delete a e k).
Proof. unfold structure_logic_Delete. moves. steps. Qed.
Lemma moves_enum_Create a e i : moves sound (enum_logic_Create a e i).
Proof. unfold enum_logic_Create. moves. steps. Qed.
Lemma moves_enum_Update a e i : moves sound (enum_logic_Update a e i).
Proof.
  unfold enum_logic_Update, enum_prepareUpdate, enum_validateUpdate, enum_saveUpdate.
  moves. steps.
Qed.
Lemma moves_enum_Delete a e k : moves sound (enum_logic_Delete a e k).
Proof. unfold enum_logic_Delete. moves. steps. Qed.

(** ** config.go *)

Lemma moves_config_Update a e i : moves sound (config_logic_Update a e i).
Proof. unfold config_logic_Update. moves. steps. Qed.
Lemma moves_config_UpdateValue a e i : moves sound (config_logic_UpdateValue a e i).
Proof. unfold config_logic_UpdateValue. moves. steps. Qed.

Lemma moves_config_Create a e i : moves sound (config_logic_Create a e i).
Proof. unfold config_logic_Create. moves. steps. Qed.

(** A query that fails does not report an absent row. *)
Lemma query_not_missing {A} (q : DB → A) e w w' :
  wrapped (query q) w = (Er e, w') → is_NotFound e = false.
Proof.
  unfold wrapped, handle. destruct (query q w) as [[a|x] w1]; [done|]. intros [= <- _].
  unfold WrapDatabaseError, is_NotFound. by destruct (cause_of x) eqn:Hx; rewrite ?Hx.
Qed.

Lemma run_find_missing e c cond res x w w' :
  findForConfig e c cond res w = (Er x, w') → is_NotFound x = true →
  last (snapshotScope e (λ s, (snp_ConfigID s =? c) && cond s) (db w)) = None.
Proof.
  unfold findForConfig, mbind, M_bind. intros Hr Hx.
  destruct (wrapped _ w) as [[r|y] w1] eqn:Hq.
  - apply run_handle, run_get in Hq as [-> _]. by destruct (last _).
  - apply query_not_missing in Hq. injection Hr as -> _. congruence.
Qed.

(** Without any live snapshot of it, a configuration can be deleted. *)
Lemma none_unused e c cfg d : Inv d →
  crows d !! c = Some cfg → config_in_scope d e cfg = true →
  last (snapshotScope e (λ s, (snp_ConfigID s =? c) && true) d) = None → ¬ used d c.
Proof.
  intros HI Hcfg Hsc Hnone (k & s & Hs & Hl & Hc). pose proof (snapshot_key _ _ _ Hs) as Hk.
  pose proof (last_select_None _ _ Hnone k s Hs) as Hf. simpl in Hf.
  rewrite Hc, Z.eqb_refl in Hf. simpl in Hf. rewrite andb_true_r in Hf.
  assert (snapshot_in_scope d e s = true); [|congruence].
  pose proof (config_key _ _ _ Hcfg) as Hck.
  eapply snapshot_scope_complete; [done|exact Hsc|..]; congruence.
Qed.

Lemma moves_config_Delete a e c : moves sound (config_logic_Delete a e c).
Proof.
  unfold config_logic_Delete. moves. intros w u w' Hr HG Hcur.
  apply run_bind in Hr as (cfg & w1 & Hlock & Hr).
  apply run_config_LockByID in Hlock as (Hcfg & Hlive & Hsc & [Hd1 _]).
  apply run_bind in Hr as (any & w2 & Hany & Hr). rewrite <-Hd1 in Hcfg, Hsc, HG, Hcur |- *.
  unfold attempt in Hany. destruct (FindAnyForConfig e c w1) as [x w2'] eqn:Hfind.
  injection Hany as -> <-. apply run_bind in Hr as (u1 & w3 & Hthrow & Hr).
  destruct any as [s|x]; [by apply run_throw in Hthrow|].
  apply run_when_err in Hthrow as [Hnf ->]. apply negb_false_iff in Hnf.
  pose proof (run_find_missing _ _ _ _ _ _ _ Hfind Hnf) as Hnone.
  assert (db w3 = db w1) as Hd3.
  { eapply (reads_run (FindAnyForConfig e c)); [|exact Hfind]. reads. }
  apply run_bind in Hr as (u2 & w4 & Hdel & Hlog). apply (sound_Record anywhere) in Hlog.
  rewrite <-Hd3 in Hcfg, Hsc, HG, Hcur, Hnone |- *.
  apply (sound_config_Delete anywhere) in Hdel; [|by eapply none_unused; [apply HG|..]].
  by apply (sound_where_trans _ _ _ _ Hdel Hlog).
Qed.

(** ** snapshot.go *)

Lemma moves_snapshot_Delete a e k : moves sound (snapshot_logic_Delete a e k).
Proof.
  unfold snapshot_logic_Delete. moves. intros w u w' Hr.
  apply run_bind in Hr as (cfg & w1 & Hc & Hr).
  apply run_config_LockByID in Hc as (_ & _ & _ & [Hd1 _]).
  apply run_bind in Hr as (s & w2 & Hs & Hr).
  apply run_snapshot_LockByID in Hs as (Hs & _ & _ & [Hd2 _]). inv_run.
  match goal with Hx : snapshot_Delete _ _ _ _ = _ |- _ =>
    eapply sound_snapshot_Delete in Hx; [|by rewrite Hd2|done] end.
  match goal with Hx : RecordForEnvironment _ _ _ = _ |- _ =>
    apply (sound_Record anywhere) in Hx end.
  rewrite <-Hd1, <-Hd2. by etrans.
Qed.

Lemma run_resources_lock e c x w w' : resources_lock e c w = (Ok x, w') →
  crows (db w) !! c = Some x.1.1 ∧ live (cfg_meta x.1.1) = true ∧ ID (cfg_meta x.1.1) = c ∧
  db w' = db w.
Proof.
  intros Hr. pose proof (quiet_run _ _ _ _ (quiet_resources_lock e c) Hr) as [Hd _].
  unfold resources_lock in Hr. apply run_bind in Hr as (cfg & w1 & Hlock & Hr).
  apply run_config_LockByID in Hlock as (Hcfg & Hlive & _ & _). inv_run. simpl.
  pose proof (config_key _ _ _ Hcfg). done.
Qed.

Lemma buildPreview_project config structures enums preview :
  buildPreview config structures enums = Ok preview →
  ∃ c, sc_Config preview = Some c ∧ Config_ProjectId c = cfg_ProjectID config.
Proof.
  unfold buildPreview. intros Hb. inv_ok. eexists. split; [done|].
  match goal with Hx : ConfigToProto _ = Ok _ |- _ => unfold ConfigToProto in Hx end.
  inv_ok. by repeat case_match; simplify_eq.
Qed.

Lemma moves_snapshot_Create a e input : moves sound (snapshot_logic_Create a e input).
Proof.
  unfold snapshot_logic_Create. moves. intros w item w' Hr.
  apply run_bind in Hr as (preview & w1 & Hlock & Hr). unfold lockedPreview in Hlock.
  apply run_bind in Hlock as ([[cfg structures] enums] & w2 & Hlock & Hb).
  apply run_resources_lock in Hlock as (Hcfg & Hlive & Hid & Hd2). simpl in *.
  apply run_lift in Hb as [Hb ->]. apply buildPreview_project in Hb as (c & Hc & Hp).
  unfold preview_config in Hr. rewrite Hc in Hr. rewrite <-Hd2 in Hcfg |- *.
  clear Hd2 Hc. inv_run. intros HG Hcur.
  match goal with Hx : snapshot_Create _ _ _ _ = _ |- _ =>
    eapply (sound_snapshot_Create anywhere) in Hx as (HG1 & Hcur1 & Hev1);
      [|done|done|bool_hyps; congruence|done..] end.
  match goal with Hx : SetCurrent _ _ _ _ _ = _ |- _ =>
    eapply sound_select in Hx as (HG2 & Hcur2 & Hev2); [|done|exact Hcur1] end.
  match goal with Hx : RecordForEnvironment _ _ _ = _ |- _ =>
    apply (sound_Record anywhere) in Hx; destruct (Hx HG2 Hcur2) as (? & ? & ?) end.
  split_and!; [done..|]. etrans; [done|]. by etrans.
Qed.

Lemma sound_autoSave a e cfg preview w u w' :
  autoSave a e cfg preview w = (Ok u, w') →
  crows (db w) !! ID (cfg_meta cfg) = Some cfg → live (cfg_meta cfg) = true →
  Good (db w) → current_where anywhere (db w) →
  Good (db w') ∧ current_where (λ y, anywhere y ∧ y ≠ ID (cfg_meta cfg)) (db w') ∧
  evolves (db w) (db w').
Proof.
  intros Hr Hcfg Hlive HG Hcur. unfold autoSave in Hr.
  apply run_bind in Hr as (content & w1 & Henc & Hr). apply run_lift in Henc as [_ ->].
  apply run_bind in Hr as (found & w2 & Hfind & Hr).
  assert (db w2 = db w1) as Hd2.
  { eapply reads_run; [|exact Hfind]. reads. }
  apply run_bind in Hr as (u1 & w3 & Hthrow & Hr).
  assert (db w3 = db w2) as Hd3.
  { eapply reads_run; [|exact Hthrow]. destruct found; reads. }
  rewrite <-Hd2, <-Hd3 in Hcfg, HG, Hcur |- *. clear Hd2 Hd3 Hthrow Hfind.
  case_match.
  { inv_run. split_and!; [done| |done]. eapply current_weaken; [|exact Hcur]. by intros y [? _]. }
  inv_run.
  match goal with Hx : now _ = _ |- _ => apply run_now in Hx as [_ [Hd _]] end.
  rewrite <-Hd in Hcfg, HG, Hcur |- *.
  match goal with Hx : snapshot_Create _ _ _ _ = _ |- _ =>
    eapply (sound_snapshot_Create anywhere) in Hx as (HG1 & Hcur1 & Hev1); [|done..] end.
  match goal with Hx : RecordForEnvironment _ _ _ = _ |- _ =>
    eapply sound_Record in Hx; destruct (Hx HG1 Hcur1) as (? & ? & ?) end.
  split_and!; [done..|]. by etrans.
Qed.

Lemma moves_snapshot_Load a e c k : moves sound (snapshot_logic_Load a e c k).
Proof.
  unfold snapshot_logic_Load. moves. unfold loadSnapshot. intros w u w' Hr.
  apply run_bind in Hr as ([[cfg structures] enums] & w1 & Hlock & Hr).
  apply run_resources_lock in Hlock as (Hcfg & Hlive & Hid & Hd1). simpl in *.
  apply run_bind in Hr as (preview & w2 & Hb & Hr). apply run_lift in Hb as [_ ->].
  apply run_bind in Hr as (u1 & w3 & Hsave & Hr). rewrite <-Hd1 in Hcfg |- *.
  intros HG Hcur.
  apply sound_autoSave in Hsave as (HG1 & Hcur1 & Hev1); [|by rewrite ?Hid|done..].
  apply run_bind in Hr as (target & w4 & Hl & Hr).
  apply run_snapshot_LockByID in Hl as (_ & _ & _ & [Hd4 _]).
  apply run_bind in Hr as (u2 & w5 & Hw & Hr). apply run_when_err in Hw as [_ ->].
  apply run_bind in Hr as (content & w6 & Hw & Hr). apply run_lift in Hw as [_ ->].
  apply run_bind in Hr as (u3 & w7 & Hw & Hr). apply run_lift in Hw as [_ ->].
  apply run_bind in Hr as (u4 & w8 & Hrestore & Hr).
  apply run_bind in Hr as (u5 & w9 & Hsel & Hlog).
  rewrite <-Hd4 in HG1, Hcur1, Hev1.
  eapply sound_restoreConfig in Hrestore. destruct (Hrestore HG1 Hcur1) as (HG2 & Hcur2 & Hev2).
  rewrite Hid in Hcur2.
  eapply sound_select in Hsel as (HG3 & Hcur3 & Hev3); [|done|exact Hcur2].
  apply (sound_Record anywhere) in Hlog. destruct (Hlog HG3 Hcur3) as (? & ? & ?).
  split_and!; [done..|]. etrans; [done|]. etrans; [done|]. by etrans.
Qed.

(** ** publish.go *)

Lemma moves_changePublication request : two_status (pr_status request) →
  moves sound (changePublication request).
Proof.
  intros Htwo w r w' Hr HG Hcur. apply changePublication_effect in Hr; [|apply HG|done].
  destruct r as [s|x].
  - destruct Hr as (cfg & tgt & t & Hp & _). by eapply sound_publication.
  - destruct Hr as [->|(cfg & tgt & t & Hp)]; [done|]. by eapply sound_publication.
Qed.
Lemma moves_Publish a e s v : moves sound (Publish a e s v).
Proof. apply moves_changePublication. by right. Qed.
Lemma moves_Unpublish a e s v : moves sound (Unpublish a e s v).
Proof. apply moves_changePublication. by left. Qed.

(** ** The operations that only read *)

#[local] Hint Resolve quiet_all_pages : quiet.

Lemma quiet_paginate {A} (q : DB → list A) p : quiet (paginate q p).
Proof. unfold paginate. quiet. Qed.
#[local] Hint Resolve quiet_paginate : quiet.
Lemma quiet_child_List {R} {K : ChildKind R} e p c i g : quiet (child_List (R := R) e p c i g).
Proof. unfold child_List. quiet. Qed.
#[local] Hint Resolve quiet_child_List : quiet.

Lemma reads_config_List a e f : reads (config_logic_List a e f).
Proof.
  unfold config_logic_List. apply reads_bind; [reads|intros _].
  apply reads_quiet, quiet_bind; [apply quiet_all_pages; intros; unfold config_List; quiet|].
  intros l. unfold ListReleasedConfigIDs. quiet.
Qed.
Lemma quiet_structure_pages e p c :
  quiet (allStructures e p c).
Proof. apply quiet_all_pages. intros. unfold convert_page, structure_List. quiet. Qed.
Lemma quiet_config_resources e p c : quiet (config_resources e p c).
Proof.
  unfold config_resources. apply quiet_bind.
  - apply quiet_all_pages. intros. unfold convert_page, structure_List. quiet.
  - intros l. apply quiet_bind; [|quiet].
    apply quiet_all_pages. intros. unfold convert_page, enum_List. quiet.
Qed.
#[local] Hint Resolve quiet_config_resources quiet_structure_pages : quiet.
Lemma reads_config_Detail a e c : reads (config_logic_Detail a e c).
Proof. unfold config_logic_Detail. reads. Qed.
Lemma reads_structure_List a e i : reads (structure_logic_List a e i).
Proof. unfold structure_logic_List. reads. Qed.
Lemma reads_enum_List a e p c : reads (enum_logic_List a e p c).
Proof.
  unfold enum_logic_List. apply reads_bind; [reads|intros _]. apply reads_quiet.
  repeat (apply quiet_bind; [quiet|intros ?]). apply quiet_all_pages.
  intros. unfold enum_List. quiet.
Qed.
Lemma reads_snapshot_Get a e s : reads (snapshot_logic_Get a e s).
Proof. unfold snapshot_logic_Get. reads. Qed.
Lemma reads_snapshot_Current a e c : reads (snapshot_logic_Current a e c).
Proof. unfold snapshot_logic_Current, FindCurrentForConfig. reads. Qed.
Lemma reads_snapshot_Released a e c : reads (snapshot_logic_Released a e c).
Proof. unfold snapshot_logic_Released, FindReleasedForConfig. reads. Qed.
Lemma reads_snapshot_List a e i : reads (snapshot_logic_List a e i).
Proof. unfold snapshot_logic_List, snapshot_List. reads. Qed.
Lemma moves_snapshot_Preview a e c : moves sound (snapshot_logic_Preview a e c).
Proof. unfold snapshot_logic_Preview. moves. Qed.
End logic.

Section handlers.
Context `{Engine} `{Collation} {St : Store} {SL : StoreLaws St}
  `{Protojson} `{MapOrder} {Au : Authorizer} {AL : AuthorizerLaws Au}.

(** ** The repositories do not use the cache *)

Lemma cacheless_Record e log : cacheless (RecordForEnvironment e log).
Proof. unfold RecordForEnvironment, RecordSystem. cacheless. Qed.
Lemma cacheless_config_Create e p c : cacheless (config_Create e p c).
Proof.
  unfold config_Create, config_restore_row, lockScopedProject, lockConfigByKey,
    resetConfigChildren. cacheless.
Qed.
Lemma cacheless_config_Update e c u : cacheless (config_Update e c u).
Proof. unfold config_Update. cacheless. Qed.
Lemma cacheless_config_UpdateValue e c u : cacheless (config_UpdateValue e c u).
Proof. unfold config_UpdateValue. cacheless. Qed.
Lemma cacheless_config_Delete e c u : cacheless (config_Delete e c u).
Proof. unfold config_Delete. cacheless. Qed.
Lemma cacheless_snapshot_Create p c s : cacheless (snapshot_Create p c s).
Proof. unfold snapshot_Create. cacheless. Qed.
Lemma cacheless_snapshot_Delete e s u : cacheless (snapshot_Delete e s u).
Proof. unfold snapshot_Delete. cacheless. Qed.
Lemma cacheless_SetCurrent e c s u : cacheless (SetCurrent e c s u).
Proof. unfold SetCurrent. cacheless. Qed.
Lemma cacheless_SetReleased u : cacheless (SetReleased u).
Proof. unfold SetReleased. cacheless. Qed.
Lemma cacheless_SetUnreleased u : cacheless (SetUnreleased u).
Proof. unfold SetUnreleased. cacheless. Qed.
Lemma cacheless_IncrementRuntimeVersion e c : cacheless (IncrementRuntimeVersion e c).
Proof. unfold IncrementRuntimeVersion. cacheless. Qed.

Section child.
Context {R : Type} {K : ChildKind R}.
Lemma cacheless_child_Create e c (i : R) : cacheless (child_Create e c i).
Proof. unfold child_Create, child_restore, child_insert. cacheless. Qed.
Lemma cacheless_child_Update e k u : cacheless (child_Update (R := R) e k u).
Proof. unfold child_Update. cacheless. Qed.
Lemma cacheless_child_Delete e k u : cacheless (child_Delete (R := R) e k u).
Proof. unfold child_Delete. cacheless. Qed.
Lemma cacheless_child_Reconcile e c (l : list R) u : cacheless (child_Reconcile e c l u).
Proof.
  unfold child_Reconcile, child_removeObsolete, child_removeObsoleteItem,
    child_reconcileItem, child_insert. cacheless.
Qed.
End child.

#[local] Hint Resolve cacheless_Record cacheless_config_Create cacheless_config_Update
  cacheless_config_UpdateValue cacheless_config_Delete cacheless_snapshot_Create
  cacheless_snapshot_Delete cacheless_SetCurrent cacheless_SetReleased
  cacheless_SetUnreleased cacheless_IncrementRuntimeVersion cacheless_child_Create
  cacheless_child_Update cacheless_child_Delete cacheless_child_Reconcile : cacheless.
#[local] Hint Resolve quiet_resources_lock quiet_lockedPreview quiet_preview_config
  quiet_structure_FindByID quiet_enum_FindByID quiet_all_pages quiet_paginate
  quiet_child_List quiet_config_resources quiet_structure_pages : quiet.

Lemma confined_Check u e ks : confined permission_key (Check u e ks).
Proof. apply check_confined. Qed.
#[local] Hint Resolve confined_Check : confined.

(** ** The operations *)

Lemma confined_structure_Create a e i : confined permission_key (structure_logic_Create a e i).
Proof. unfold structure_logic_Create, structure_Create. confined. Qed.
Lemma confined_structure_Update a e i : confined permission_key (structure_logic_Update a e i).
Proof.
  unfold structure_logic_Update, structure_prepareUpdate, structure_validateUpdate,
    structure_saveUpdate, structure_Update. confined.
Qed.
Lemma confined_structure_Delete a e k : confined permission_key (structure_logic_Delete a e k).
Proof. unfold structure_logic_Delete, structure_Delete. confined. Qed.
Lemma confined_enum_Create a e i : confined permission_key (enum_logic_Create a e i).
Proof. unfold enum_logic_Create, enum_Create. confined. Qed.
Lemma confined_enum_Update a e i : confined permission_key (enum_logic_Update a e i).
Proof.
  unfold enum_logic_Update, enum_prepareUpdate, enum_validateUpdate, enum_saveUpdate,
    enum_Update. confined.
Qed.
Lemma confined_enum_Delete a e k : confined permission_key (enum_logic_Delete a e k).
Proof. unfold enum_logic_Delete, enum_Delete. confined. Qed.

Lemma confined_config_Create a e i : confined permission_key (config_logic_Create a e i).
Proof. unfold config_logic_Create. confined. Qed.
Lemma confined_config_Update a e i : confined permission_key (config_logic_Update a e i).
Proof. unfold config_logic_Update. confined. Qed.
Lemma confined_config_UpdateValue a e i :
  confined permission_key (config_logic_UpdateValue a e i).
Proof. unfold config_logic_UpdateValue. confined. Qed.
Lemma confined_config_Delete a e c : confined permission_key (config_logic_Delete a e c).
Proof. unfold config_logic_Delete, FindAnyForConfig. confined. Qed.
Lemma confined_config_List a e f : confined permission_key (config_logic_List a e f).
Proof.
  unfold config_logic_List. apply confined_bind; [confined|intros _].
  apply confined_cacheless, cacheless_quiet, quiet_bind;
    [apply quiet_all_pages; intros; unfold config_List; quiet|].
  intros l. unfold ListReleasedConfigIDs. quiet.
Qed.
Lemma confined_config_Detail a e c : confined permission_key (config_logic_Detail a e c).
Proof. unfold config_logic_Detail. confined. Qed.
Lemma confined_structure_List a e i : confined permission_key (structure_logic_List a e i).
Proof. unfold structure_logic_List. confined. Qed.
Lemma confined_enum_List a e p c : confined permission_key (enum_logic_List a e p c).
Proof.
  unfold enum_logic_List. apply confined_bind; [confined|intros _].
  apply confined_cacheless, cacheless_quiet.
  repeat (apply quiet_bind; [quiet|intros ?]). apply quiet_all_pages.
  intros. unfold enum_List. quiet.
Qed.

Lemma confined_snapshot_Create a e i : confined permission_key (snapshot_logic_Create a e i).
Proof. unfold snapshot_logic_Create. confined. Qed.
Lemma confined_snapshot_Preview a e c : confined permission_key (snapshot_logic_Preview a e c).
Proof. unfold snapshot_logic_Preview. confined. Qed.
Lemma confined_snapshot_Delete a e s : confined permission_key (snapshot_logic_Delete a e s).
Proof. unfold snapshot_logic_Delete. confined. Qed.
Lemma confined_snapshot_Get a e s : confined permission_key (snapshot_logic_Get a e s).
Proof. unfold snapshot_logic_Get. confined. Qed.
Lemma confined_snapshot_Load a e c s : confined permission_key (snapshot_logic_Load a e c s).
Proof.
  unfold snapshot_logic_Load, loadSnapshot, autoSave, restoreConfig, FindCurrentForConfig,
    structure_Reconcile, enum_Reconcile. confined.
Qed.
Lemma confined_snapshot_Current a e c : confined permission_key (snapshot_logic_Current a e c).
Proof. unfold snapshot_logic_Current, FindCurrentForConfig. confined. Qed.
Lemma confined_snapshot_Released a e c : confined permission_key (snapshot_logic_Released a e c).
Proof. unfold snapshot_logic_Released, FindReleasedForConfig. confined. Qed.
Lemma confined_snapshot_List a e i : confined permission_key (snapshot_logic_List a e i).
Proof. unfold snapshot_logic_List, snapshot_List. confined. Qed.

Lemma confined_changePublication request : confined permission_key (changePublication request).
Proof.
  unfold changePublication, authorizedSnapshot, cleanup, DeletePublishedConfigVersion.
  apply confined_bind; [confined|intros found].
  apply confined_bind; [|confined]. apply confined_TX, confined_cacheless.
  unfold preparePublication, lockResources, lockPublicationSchema, persistPublication,
    applyPublicationStatus, retireReleasedSnapshot, structure_ListForConfig,
    enum_ListForConfig. cacheless.
Qed.
End handlers.
