(* ===== verification/Secure.v ===== *)
(** Configurations, their definitions and snapshots are outside the ledger:
    their repository operations keep it.  The repository operations on accounts,
    roles, memberships, sessions, keys, projects, environments and claims leave
    the rows of configurations and snapshots alone, and none of them uses the
    cache.

    Then states in which permission checks are right: the ledger holds, and an
    entry of the permission cache names a generation its environment has
    reached, and tells the truth as long as the environment is still there.
    Functions that keep this, and what the check promises to the operations
    that rely on it, as an interface the resolver implements. *)

From S2P Require Import Prelude GoStd Json GoStrings Proto Codec Schema Engine Model Cache Convert World WorldLaws RepoScope Permission RepoConfig RepoChild RepoSnapshot RepoLaws Password RepoProject RepoIdentity RepoSession LogicAuth LogicBase LogicIdentity LogicPublish Coherence LogicSnapshot Evolution PermissionSpec Ledger LedgerOps Handlers.

Local Open Scope Z_scope.

Section config.
Context {E : Engine} {EL : EngineLaws E} `{Collation} {St : Store} `{Protojson} `{MapOrder}.

Lemma progress_configs_update p f : steps progress (exec_update configs_t p f).
Proof. apply steps_update. intros t d. by apply progress_outside. Qed.
Lemma progress_configs_insert r : steps progress (exec_insert configs_t r).
Proof. apply steps_insert. intros t d. by apply progress_outside. Qed.
Lemma progress_snapshots_update p f : steps progress (exec_update snapshots_t p f).
Proof. apply steps_update. intros t d. by apply progress_outside. Qed.
Lemma progress_snapshots_insert r : steps progress (exec_insert snapshots_t r).
Proof. apply steps_insert. intros t d. by apply progress_outside. Qed.
Lemma progress_structures_update p f : steps progress (exec_update structures_t p f).
Proof. apply steps_update. intros t d. by apply progress_outside. Qed.
Lemma progress_enums_update p f : steps progress (exec_update config_enums_t p f).
Proof. apply steps_update. intros t d. by apply progress_outside. Qed.
#[local] Hint Resolve progress_configs_update progress_configs_insert progress_snapshots_update
  progress_snapshots_insert progress_structures_update progress_enums_update : steps.

(** ** config.go *)

Lemma quiet_lockConfigByKey p k : quiet (lockConfigByKey p k).
Proof. unfold lockConfigByKey. quiet. Qed.
Lemma quiet_lockScopedProject e p : quiet (lockScopedProject e p).
Proof. unfold lockScopedProject. quiet. Qed.
#[local] Hint Resolve quiet_lockConfigByKey quiet_lockScopedProject : quiet.
Lemma progress_config_Create e p c : steps progress (config_Create e p c).
Proof. unfold config_Create, config_restore_row, resetConfigChildren. steps. Qed.
Lemma progress_config_Update e c u : steps progress (config_Update e c u).
Proof. unfold config_Update. steps. Qed.
Lemma progress_config_UpdateValue e c u : steps progress (config_UpdateValue e c u).
Proof. unfold config_UpdateValue. steps. Qed.
Lemma progress_config_Delete e c u : steps progress (config_Delete e c u).
Proof. unfold config_Delete. steps. Qed.

(** ** structure.go, enum.go *)

Section child.
Context {R : Type} {K : ChildKind R}
  (Hframe : ∀ t d, progress d (put_table (ck_table (R := R)) t d)).

Lemma progress_child_insert (item : R) : steps progress (child_insert item).
Proof. unfold child_insert. steps. Qed.
Lemma progress_child_Create e c (item : R) : steps progress (child_Create e c item).
Proof. unfold child_Create, child_restore. steps. Qed.
Lemma progress_child_Update e k u : steps progress (child_Update (R := R) e k u).
Proof. unfold child_Update. steps. Qed.
Lemma progress_child_Delete e k u : steps progress (child_Delete (R := R) e k u).
Proof. unfold child_Delete. steps. Qed.
Lemma progress_child_Reconcile e c (items : list R) u :
  steps progress (child_Reconcile e c items u).
Proof.
  unfold child_Reconcile, child_removeObsolete, child_removeObsoleteItem,
    child_reconcileItem. steps.
Qed.
End child.

Lemma progress_structures t d : progress d (put_table (ck_table (R := StructureRow)) t d).
Proof. by apply progress_outside. Qed.
Lemma progress_enums t d : progress d (put_table (ck_table (R := EnumRow)) t d).
Proof. by apply progress_outside. Qed.
Lemma progress_structure_Create e c i : steps progress (structure_Create e c i).
Proof. apply (progress_child_Create progress_structures). Qed.
Lemma progress_structure_Update e k u : steps progress (structure_Update e k u).
Proof. apply (progress_child_Update progress_structures). Qed.
Lemma progress_structure_Delete e k u : steps progress (structure_Delete e k u).
Proof. apply (progress_child_Delete progress_structures). Qed.
Lemma progress_structure_Reconcile e c l u : steps progress (structure_Reconcile e c l u).
Proof. apply (progress_child_Reconcile progress_structures). Qed.
Lemma progress_enum_Create e c i : steps progress (enum_Create e c i).
Proof. apply (progress_child_Create progress_enums). Qed.
Lemma progress_enum_Update e k u : steps progress (enum_Update e k u).
Proof. apply (progress_child_Update progress_enums). Qed.
Lemma progress_enum_Delete e k u : steps progress (enum_Delete e k u).
Proof. apply (progress_child_Delete progress_enums). Qed.
Lemma progress_enum_Reconcile e c l u : steps progress (enum_Reconcile e c l u).
Proof. apply (progress_child_Reconcile progress_enums). Qed.
#[local] Hint Resolve progress_structure_Reconcile progress_enum_Reconcile : steps.

(** ** snapshot.go *)

Lemma progress_snapshot_Create p c s : steps progress (snapshot_Create p c s).
Proof. unfold snapshot_Create. steps. Qed.
Lemma progress_snapshot_Delete e s u : steps progress (snapshot_Delete e s u).
Proof. unfold snapshot_Delete. steps. Qed.
Lemma progress_SetCurrent e c s u : steps progress (SetCurrent e c s u).
Proof. unfold SetCurrent. steps. Qed.
Lemma progress_SetReleased u : steps progress (SetReleased u).
Proof. unfold SetReleased. steps. Qed.
Lemma progress_SetUnreleased u : steps progress (SetUnreleased u).
Proof. unfold SetUnreleased. steps. Qed.
Lemma progress_IncrementRuntime e c : steps progress (IncrementRuntimeVersion e c).
Proof. unfold IncrementRuntimeVersion. steps. Qed.
#[local] Hint Resolve quiet_preview_config : quiet.
#[local] Hint Resolve progress_config_Update progress_config_UpdateValue
  progress_SetReleased progress_SetUnreleased progress_IncrementRuntime : steps.

Lemma progress_restoreConfig a e cfg content : steps progress (restoreConfig a e cfg content).
Proof. unfold restoreConfig. steps. Qed.
Lemma progress_persistPublication change : steps progress (persistPublication change).
Proof. unfold persistPublication, applyPublicationStatus, retireReleasedSnapshot. steps. Qed.
End config.

#[export] Hint Resolve progress_config_Create progress_config_Update progress_config_UpdateValue
  progress_config_Delete progress_snapshot_Create progress_snapshot_Delete progress_SetCurrent
  progress_SetReleased progress_SetUnreleased progress_IncrementRuntime
  progress_restoreConfig progress_persistPublication : steps.
#[export] Hint Resolve progress_structure_Create progress_structure_Update
  progress_structure_Delete progress_structure_Reconcile progress_enum_Create
  progress_enum_Update progress_enum_Delete progress_enum_Reconcile : steps.

(** Every table but those of configurations and snapshots. *)
Ltac frame_steps := steps; intros ? ?; done.

Section frames.
Context {E : Engine} {EL : EngineLaws E} `{Collation} {St : Store}.

#[local] Hint Resolve quiet_find_user quiet_lockToken quiet_loadState quiet_lockScopedProject
  quiet_ensureRoles : quiet.

Lemma core_RecordSystem log : steps same_core (RecordSystem log).
Proof. unfold RecordSystem. frame_steps. Qed.
Lemma cacheless_RecordSystem log : cacheless (RecordSystem log).
Proof. unfold RecordSystem. cacheless. Qed.
Lemma core_Record e log : steps same_core (RecordForEnvironment e log).
Proof. apply core_RecordSystem. Qed.
Lemma cacheless_RecordForEnvironment e log : cacheless (RecordForEnvironment e log).
Proof. apply cacheless_RecordSystem. Qed.
Lemma core_record_system i log : steps same_core (record_system i log).
Proof. apply core_RecordSystem. Qed.
Lemma cacheless_record_system i log : cacheless (record_system i log).
Proof. apply cacheless_RecordSystem. Qed.
Lemma core_bump a e : steps same_core (bumpEnvironmentPermissionGeneration a e).
Proof. unfold bumpEnvironmentPermissionGeneration. frame_steps. Qed.
Lemma cacheless_bump a e : cacheless (bumpEnvironmentPermissionGeneration a e).
Proof. unfold bumpEnvironmentPermissionGeneration. cacheless. Qed.
#[local] Hint Resolve core_RecordSystem core_Record core_record_system core_bump : steps.
#[local] Hint Resolve cacheless_RecordSystem cacheless_RecordForEnvironment
  cacheless_record_system cacheless_bump : cacheless.
Lemma core_bumps ids a : steps same_core (bumpEnvironmentPermissionGenerations ids a).
Proof. unfold bumpEnvironmentPermissionGenerations. steps. Qed.
Lemma cacheless_bumps ids a : cacheless (bumpEnvironmentPermissionGenerations ids a).
Proof. unfold bumpEnvironmentPermissionGenerations. cacheless. Qed.
Lemma core_insert_all {R} `{Row R} (T : Field_of R) l :
  (∀ t d, same_core d (put_table T t d)) → steps same_core (exec_insert_all T l).
Proof. intros HT w n w' (t & _ & -> & _)%run_insert_all. apply HT. Qed.
Lemma cacheless_insert_all {R} `{Row R} (T : Field_of R) l : cacheless (exec_insert_all T l).
Proof. apply cacheless_statement. Qed.
Lemma core_role_permissions l : steps same_core (exec_insert_all role_permissions_t l).
Proof. apply core_insert_all. by intros t d. Qed.
Lemma core_user_roles l : steps same_core (exec_insert_all user_environment_roles_t l).
Proof. apply core_insert_all. by intros t d. Qed.
Lemma core_revokeSession u s t : steps same_core (revokeSession u s t).
Proof. unfold revokeSession. frame_steps. Qed.
Lemma cacheless_revokeSession u s t : cacheless (revokeSession u s t).
Proof. unfold revokeSession. cacheless. Qed.
Lemma core_revokeUserSessions u t : steps same_core (revokeUserSessions u t).
Proof. unfold revokeUserSessions. frame_steps. Qed.
Lemma cacheless_revokeUserSessions u t : cacheless (revokeUserSessions u t).
Proof. unfold revokeUserSessions. cacheless. Qed.
Lemma core_insertClaim r : steps same_core (insertClaim r).
Proof. unfold insertClaim. steps. apply steps_attempt_insert; [typeclasses eauto|done]. Qed.
Lemma cacheless_insertClaim r : cacheless (insertClaim r).
Proof. unfold insertClaim. cacheless. Qed.
#[local] Hint Resolve core_bumps core_role_permissions core_user_roles core_revokeSession
  core_revokeUserSessions core_insertClaim : steps.
#[local] Hint Resolve cacheless_bumps cacheless_insert_all cacheless_revokeSession
  cacheless_revokeUserSessions cacheless_insertClaim : cacheless.

(** ** role.go, user_environment_role.go *)

Lemma core_role_Create r log : steps same_core (role_Create r log).
Proof. unfold role_Create. frame_steps. Qed.
Lemma cacheless_role_Create r log : cacheless (role_Create r log).
Proof. unfold role_Create. cacheless. Qed.
Lemma core_role_Update k u log : steps same_core (role_Update k u log).
Proof. unfold role_Update. frame_steps. Qed.
Lemma cacheless_role_Update k u log : cacheless (role_Update k u log).
Proof. unfold role_Update. cacheless. Qed.
Lemma core_role_Delete k a log : steps same_core (role_Delete k a log).
Proof. unfold role_Delete, role_find, lockAssignments. frame_steps. Qed.
Lemma cacheless_role_Delete k a log : cacheless (role_Delete k a log).
Proof. unfold role_Delete, role_find, lockAssignments. cacheless. Qed.
Lemma core_UpdatePermissions k ids a log : steps same_core (UpdatePermissions k ids a log).
Proof. unfold UpdatePermissions, role_find, lockPermissions, lockAssignments, replacePermissions, advancePermissionGenerations. frame_steps. Qed.
Lemma cacheless_UpdatePermissions k ids a log : cacheless (UpdatePermissions k ids a log).
Proof. unfold UpdatePermissions, role_find, lockPermissions, lockAssignments, replacePermissions, advancePermissionGenerations. cacheless. Qed.
Lemma core_ReplaceRoles m log : steps same_core (ReplaceRoles m log).
Proof. unfold ReplaceRoles, lockMember, lockRoles, replaceLinks. frame_steps. Qed.
Lemma cacheless_ReplaceRoles m log : cacheless (ReplaceRoles m log).
Proof. unfold ReplaceRoles, lockMember, lockRoles, replaceLinks. cacheless. Qed.

(** ** user.go *)

Lemma core_CreateManagedUser u log : steps same_core (CreateManagedUser u log).
Proof. unfold CreateManagedUser. frame_steps. Qed.
Lemma cacheless_CreateManagedUser u log : cacheless (CreateManagedUser u log).
Proof. unfold CreateManagedUser. cacheless. Qed.
Lemma core_UpdateManagedUser m log : steps same_core (UpdateManagedUser m log).
Proof. unfold UpdateManagedUser, lockManagedUser, ensureLastSystemAdmin, updateManagedUser. frame_steps. Qed.
Lemma cacheless_UpdateManagedUser m log : cacheless (UpdateManagedUser m log).
Proof. unfold UpdateManagedUser, lockManagedUser, ensureLastSystemAdmin, updateManagedUser. cacheless. Qed.
Lemma core_UpdateManagedStatus m log : steps same_core (UpdateManagedStatus m log).
Proof. unfold UpdateManagedStatus, lockManagedUser, ensureLastSystemAdmin, updateManagedUser. frame_steps. Qed.
Lemma cacheless_UpdateManagedStatus m log : cacheless (UpdateManagedStatus m log).
Proof. unfold UpdateManagedStatus, lockManagedUser, ensureLastSystemAdmin, updateManagedUser. cacheless. Qed.
Lemma core_UpdateManagedPassword u h a log : steps same_core (UpdateManagedPassword u h a log).
Proof. unfold UpdateManagedPassword, lockManagedUser. frame_steps. Qed.
Lemma cacheless_UpdateManagedPassword u h a log : cacheless (UpdateManagedPassword u h a log).
Proof. unfold UpdateManagedPassword, lockManagedUser. cacheless. Qed.
Lemma core_UpdatePasswordHash u h n : steps same_core (UpdatePasswordHash u h n).
Proof. unfold UpdatePasswordHash. frame_steps. Qed.
Lemma cacheless_UpdatePasswordHash u h n : cacheless (UpdatePasswordHash u h n).
Proof. unfold UpdatePasswordHash. cacheless. Qed.
Lemma core_CreateOrPromoteSystemAdmin n d h : steps same_core (CreateOrPromoteSystemAdmin n d h).
Proof. unfold CreateOrPromoteSystemAdmin, createSystemAdmin, promoteSystemAdmin, GetByID, lockManagedUser. frame_steps. Qed.
Lemma cacheless_CreateOrPromoteSystemAdmin n d h : cacheless (CreateOrPromoteSystemAdmin n d h).
Proof. unfold CreateOrPromoteSystemAdmin, createSystemAdmin, promoteSystemAdmin, GetByID, lockManagedUser. cacheless. Qed.

(** ** refresh_token.go *)

Lemma core_CreateSession k t : steps same_core (CreateSession k t).
Proof. unfold CreateSession. frame_steps. Qed.
Lemma cacheless_CreateSession k t : cacheless (CreateSession k t).
Proof. unfold CreateSession. cacheless. Qed.
Lemma core_Rotate h n t : steps same_core (Rotate h n t).
Proof. unfold Rotate, checkRotation, consumeToken. frame_steps. Qed.
Lemma cacheless_Rotate h n t : cacheless (Rotate h n t).
Proof. unfold Rotate, checkRotation, consumeToken. cacheless. Qed.
Lemma core_RevokeSessionByTokenHash h t : steps same_core (RevokeSessionByTokenHash h t).
Proof. unfold RevokeSessionByTokenHash. frame_steps. Qed.
Lemma cacheless_RevokeSessionByTokenHash h t : cacheless (RevokeSessionByTokenHash h t).
Proof. unfold RevokeSessionByTokenHash. cacheless. Qed.

(** ** project.go, environment.go, project_api_key.go *)

Lemma core_project_Create p : steps same_core (project_Create p).
Proof. unfold project_Create. frame_steps. Qed.
Lemma cacheless_project_Create p : cacheless (project_Create p).
Proof. unfold project_Create. cacheless. Qed.
Lemma core_project_Update k u : steps same_core (project_Update k u).
Proof. unfold project_Update. frame_steps. Qed.
Lemma cacheless_project_Update k u : cacheless (project_Update k u).
Proof. unfold project_Update. cacheless. Qed.
Lemma core_environment_Create v log : steps same_core (environment_Create v log).
Proof. unfold environment_Create, recordAudit. frame_steps. Qed.
Lemma cacheless_environment_Create v log : cacheless (environment_Create v log).
Proof. unfold environment_Create, recordAudit. cacheless. Qed.
Lemma core_environment_Update e u log : steps same_core (environment_Update e u log).
Proof. unfold environment_Update, recordAudit. frame_steps. Qed.
Lemma cacheless_environment_Update e u log : cacheless (environment_Update e u log).
Proof. unfold environment_Update, recordAudit. cacheless. Qed.
Lemma core_key_Create e p k : steps same_core (key_Create e p k).
Proof. unfold key_Create. frame_steps. Qed.
Lemma cacheless_key_Create e p k : cacheless (key_Create e p k).
Proof. unfold key_Create. cacheless. Qed.
Lemma core_key_Rotate m r : steps same_core (key_Rotate m r).
Proof. unfold key_Rotate. frame_steps. Qed.
Lemma cacheless_key_Rotate m r : cacheless (key_Rotate m r).
Proof. unfold key_Rotate. cacheless. Qed.
Lemma core_key_Revoke m t : steps same_core (key_Revoke m t).
Proof. unfold key_Revoke. frame_steps. Qed.
Lemma cacheless_key_Revoke m t : cacheless (key_Revoke m t).
Proof. unfold key_Revoke. cacheless. Qed.
Lemma core_MarkUsed k t : steps same_core (MarkUsed k t).
Proof. unfold MarkUsed. frame_steps. Qed.
Lemma cacheless_MarkUsed k t : cacheless (MarkUsed k t).
Proof. unfold MarkUsed. cacheless. Qed.

(** ** import_record.go, setup.go *)

Lemma core_Claim r : steps same_core (Claim r).
Proof. unfold Claim, lockExistingClaim. frame_steps. Qed.
Lemma cacheless_Claim r : cacheless (Claim r).
Proof. unfold Claim, lockExistingClaim. cacheless. Qed.
Lemma core_Complete k s j : steps same_core (Complete k s j).
Proof. unfold Complete. frame_steps. Qed.
Lemma cacheless_Complete k s j : cacheless (Complete k s j).
Proof. unfold Complete. cacheless. Qed.
Lemma core_MarkInitialized : steps same_core MarkInitialized.
Proof. unfold MarkInitialized, markInitialized. frame_steps. Qed.
Lemma cacheless_MarkInitialized : cacheless MarkInitialized.
Proof. unfold MarkInitialized, markInitialized. cacheless. Qed.
Lemma core_repo_CreateInitialAdmin u : steps same_core (repo_CreateInitialAdmin u).
Proof. unfold repo_CreateInitialAdmin, markInitialized. frame_steps. Qed.
Lemma cacheless_repo_CreateInitialAdmin u : cacheless (repo_CreateInitialAdmin u).
Proof. unfold repo_CreateInitialAdmin, markInitialized. cacheless. Qed.
End frames.

#[export] Hint Resolve core_RecordSystem core_Record core_record_system core_insertClaim
  core_role_Create core_role_Update core_role_Delete core_UpdatePermissions core_ReplaceRoles
  core_CreateManagedUser core_UpdateManagedUser core_UpdateManagedStatus
  core_UpdateManagedPassword core_UpdatePasswordHash core_CreateOrPromoteSystemAdmin
  core_CreateSession core_Rotate core_RevokeSessionByTokenHash core_project_Create
  core_project_Update core_environment_Create core_environment_Update core_key_Create
  core_key_Rotate core_key_Revoke core_MarkUsed core_Claim core_Complete core_MarkInitialized
  core_repo_CreateInitialAdmin : steps.
#[export] Hint Resolve cacheless_RecordSystem cacheless_RecordForEnvironment
  cacheless_record_system cacheless_insertClaim cacheless_role_Create cacheless_role_Update
  cacheless_role_Delete cacheless_UpdatePermissions cacheless_ReplaceRoles
  cacheless_CreateManagedUser cacheless_UpdateManagedUser cacheless_UpdateManagedStatus
  cacheless_UpdateManagedPassword cacheless_UpdatePasswordHash
  cacheless_CreateOrPromoteSystemAdmin cacheless_CreateSession cacheless_Rotate
  cacheless_RevokeSessionByTokenHash cacheless_project_Create cacheless_project_Update
  cacheless_environment_Create cacheless_environment_Update cacheless_key_Create
  cacheless_key_Rotate cacheless_key_Revoke cacheless_MarkUsed cacheless_Claim
  cacheless_Complete cacheless_MarkInitialized cacheless_repo_CreateInitialAdmin : cacheless.

Section secure.
Context {E : Engine} {EL : EngineLaws E} `{Collation} {St : Store} {SL : StoreLaws St}.

(** [k] is the key of the current generation of some environment. *)
Definition current_key (d : DB) (k : string) : Prop :=
  ∃ u e env, k = permissionContentKey u e (Version (env_meta env)) ∧
    rows (environments d) !! e = Some env.

(** No permission entry is ahead of its environment. *)
Definition Bounded (w : World) : Prop :=
  ∀ u e v x, holds (cache w) (permissionContentKey u e v) x →
    ∃ env, rows (environments (db w)) !! e = Some env ∧ v ≤ Version (env_meta env).

Record Secure (w : World) : Prop := {
  sec_ledger : Ledger (db w);
  sec_plain : plain_permissions (db w);
  sec_coherent : PermissionCoherent w;
  sec_bounded : Bounded w;
}.

Definition secured {A} (m : M A) : Prop := ∀ w r w', m w = (r, w') → Secure w →
  Secure w' ∧ later (db w) (db w').

(** ** Functions that write no permission entries *)

Definition foreign (k : string) : Prop := ¬ permission_key k.

Lemma plain_later d d' : later d d' → plain_permissions d → plain_permissions d'.
Proof. unfold plain_permissions. intros [] Hp. by rewrite lat_permissions. Qed.

(** The database moves on and the cache gains no permission entry. *)
Lemma secure_later w w' : Secure w → Ledger (db w') → later (db w) (db w') →
  (∀ u e v x, holds (cache w') (permissionContentKey u e v) x →
     holds (cache w) (permissionContentKey u e v) x) →
  Secure w'.
Proof.
  intros [HL Hp Hco Hb] HL' Hlat Hc. split; [done|by eapply plain_later| |].
  - intros u e v x env' Hx He' Hv keys Hk k. apply Hc in Hx.
    destruct (Hb _ _ _ _ Hx) as (env & He & Hle).
    destruct (lat_rights _ _ Hlat _ _ He) as (env1 & He1 & Hv1 & Hsame).
    assert (env1 = env') as -> by congruence.
    rewrite (Hco _ _ _ _ _ Hx He ltac:(lia) _ Hk k), Hsame by lia. done.
  - intros u e v x Hx. apply Hc in Hx. destruct (Hb _ _ _ _ Hx) as (env & He & Hle).
    destruct (lat_rights _ _ Hlat _ _ He) as (env1 & He1 & Hv1 & _). exists env1.
    split; [done|lia].
Qed.

Lemma secure_same w w' : same_store w w' → Secure w → Secure w'.
Proof.
  intros [Hd Hc] HS. eapply secure_later; [done|..]; rewrite ?Hd, ?Hc; [apply HS|done|done].
Qed.

Lemma secured_moves {A} (m : M A) : moves progress m → confined foreign m → secured m.
Proof.
  intros Hm Hc w r w' Hr HS. pose proof (Hm _ _ _ Hr (sec_ledger _ HS)) as [HL' Hl].
  split; [|done]. eapply secure_later; [done..|]. intros u e v x Hx.
  destruct (Hc _ _ _ Hr _ _ Hx) as [?|[]]; [done|]. by eexists _, _, _.
Qed.
Lemma secured_reads {A} (m : M A) : reads m → confined foreign m → secured m.
Proof. intros Hm. apply secured_moves, moves_reads; [typeclasses eauto|done]. Qed.
Lemma secured_quiet {A} (m : M A) : quiet m → secured m.
Proof.
  intros Hm. apply secured_reads; [by apply reads_quiet|].
  by apply confined_cacheless, cacheless_quiet.
Qed.
Lemma secured_bind {A B} (m : M A) (k : A → M B) :
  secured m → (∀ a, secured (k a)) → secured (m ≫= k).
Proof.
  intros Hm Hk w r w'. unfold mbind, M_bind. destruct (m w) as [[a|e] w1] eqn:Hr.
  - intros Hr2 HS. destruct (Hm _ _ _ Hr HS) as [HS1 ?]. destruct (Hk _ _ _ _ Hr2 HS1) as [? ?].
    split; [done|by etrans].
  - intros [= <- <-]. by eapply Hm.
Qed.
Lemma secured_handle {A} h (m : M A) : secured m → secured (handle h m).
Proof.
  intros Hm w r w'. unfold handle. destruct (m w) as [[a|e] w1] eqn:Hr;
    intros [= <- <-]; by eapply Hm.
Qed.
Lemma secured_attempt {A} (m : M A) : secured m → secured (attempt m).
Proof.
  intros Hm w r w'. unfold attempt. destruct (m w) as [x w1] eqn:Hr.
  intros [= <- <-]. by eapply Hm.
Qed.
Lemma secured_each {A} (f : A → M unit) l : (∀ x, secured (f x)) → secured (each_m f l).
Proof.
  intros Hf. induction l as [|x l IH]; [|by apply secured_bind].
  simpl. apply secured_reads; [reads|confined].
Qed.
Lemma secured_TX {A} (op : M A) : steps progress op → cacheless op → secured (TX op).
Proof.
  intros Hop Hc. apply secured_moves; [apply moves_TX; [typeclasses eauto|done]|].
  apply confined_cacheless. by apply cacheless_TX.
Qed.

(** ** The interface *)

(** [u] is an enabled live system administrator. *)
Definition administers (d : DB) (u : Z) : Prop :=
  ∃ user, rows (users d) !! u = Some user ∧ is_admin user = true.

Class SecureAuthorizer (Au : Authorizer) := {
  check_secured : ∀ u e ks, secured (Check u e ks);
  check_sound : ∀ u e ks w x w', Check u e ks w = (Ok x, w') → Secure w →
    allowed (db w) u e ks;
  check_system_secured : ∀ u k, secured (CheckSystem u k);
  check_system_sound : ∀ u k w x w', CheckSystem u k w = (Ok x, w') → administers (db w) u;
}.

Class PermissionCacheLaws (P : PermissionCache) := {
  resolve_reads : ∀ u e, reads (ResolveKeys u e);
  resolve_confined : ∀ u e, confined permission_key (ResolveKeys u e);
  resolve_secured : ∀ u e, secured (ResolveKeys u e);
  resolve_sound : ∀ u e w keys admin w', ResolveKeys u e w = (Ok (keys, admin), w') → Secure w →
    ∃ env, identified (db w) u e admin env ∧ (admin = false → granted_list (db w) u e keys);
  invalidate_reads : ∀ u e, reads (InvalidateEntry u e);
  invalidate_confined : ∀ P u e, confined P (InvalidateEntry u e);
}.

(** ** The resolver *)

Lemma current_key_bounded w w' : db w' = db w →
  (∀ k x, holds (cache w') k x → holds (cache w) k x ∨ current_key (db w) k) →
  Bounded w → Bounded w'.
Proof.
  intros Hd Hc Hb u e v x Hx. rewrite Hd. destruct (Hc _ _ Hx) as [Hold|(u' & e' & env & Hk & He)].
  - by eapply Hb.
  - apply permissionContentKey_inj in Hk as (-> & -> & ->). by exists env.
Qed.

Lemma resolveAttempt_adds u e w r w' : resolveAttempt u e w = (r, w') →
  ∀ k x, holds (cache w') k x → holds (cache w) k x ∨ current_key (db w) k.
Proof.
  intros Hr. unfold resolveAttempt in Hr. unfold mbind at 1, M_bind in Hr.
  destruct (identity u e w) as [[first|y] w1] eqn:Hfirst;
    pose proof (quiet_run _ _ _ _ (quiet_identity u e) Hfirst) as [Hd1 Hc1]; rewrite <-Hc1;
    [|injection Hr as <- <-; by left].
  apply run_identity in Hfirst as (env & Hid & Hv). apply id_environment in Hid.
  revert Hr. set (key := permissionContentKey _ _ _). intros Hr.
  assert (current_key (db w) key) as Hkey by (exists u, e, env; by rewrite <-Hv).
  destruct (SystemAdmin first).
  - assert (cache w' = cache w1) as ->; [|by left].
    eapply cacheless_quiet; [|exact Hr]. apply quiet_bind; [apply quiet_all_keys|quiet].
  - match type of Hr with ?m _ = _ => assert (confined (λ k, k = key) m) as Hconf end.
    { unfold loadPermissions, cachedPermissions, cachePermissions. confined.
      by apply confined_set. }
    intros k x Hx. destruct (Hconf _ _ _ Hr _ _ Hx) as [?| ->]; auto.
Qed.

Lemma resolve_from_adds n u e w r w' : resolve_from n u e w = (r, w') →
  ∀ k x, holds (cache w') k x → holds (cache w) k x ∨ current_key (db w) k.
Proof.
  revert w. induction n as [|n IH]; intros w Hr k x Hx; cbn in Hr;
    [injection Hr as <- <-; by left|].
  unfold mbind, M_bind, attempt in Hr. destruct (resolveAttempt u e w) as [y w1] eqn:Ha.
  pose proof (resolveAttempt_adds _ _ _ _ _ Ha) as Hadd.
  assert (db w1 = db w) as Hd by by eapply reads_resolveAttempt.
  destruct y as [a|y]; [injection Hr as <- <-; by eapply Hadd|].
  destruct (is_ConcurrentChange y); [|injection Hr as <- <-; by eapply Hadd].
  destruct (IH _ Hr _ _ Hx) as [Hold|Hcur]; [by apply Hadd|]. right. by rewrite <-Hd.
Qed.

Lemma secured_Resolve u e : secured (Resolve u e).
Proof.
  intros w r w' Hr HS. pose proof (reads_resolve_from _ _ _ _ _ _ Hr) as Hd.
  rewrite Hd. split; [|done]. destruct HS as [HL Hp Hco Hb].
  pose proof (run_resolve _ _ _ _ _ _ Hr Hp Hco) as [Hco' _].
  split; rewrite ?Hd; [done..|]. eapply current_key_bounded; [done| |done].
  by eapply resolve_from_adds.
Qed.

#[export] Instance resolver_secure : SecureAuthorizer (@resolver _ _ repositorySource).
Proof.
  split; simpl.
  - intros u e ks. unfold Require. apply secured_bind; [apply secured_Resolve|].
    intros [keys admin]. apply secured_reads; [reads|confined].
  - intros u e ks w [] w' Hr [_ Hp Hco _]. by apply run_Require in Hr as [_ ?]; [auto|..].
  - intros u k. apply secured_reads; [|unfold RequireSystem; confined].
    apply (check_system_reads (AuthorizerLaws := resolver_laws)).
  - intros u k w x w' Hr. unfold RequireSystem in Hr. case_match; [by apply run_throw in Hr|].
    apply run_bind in Hr as (b & w1 & Hb & Hr). apply run_handle in Hb.
    destruct b; [|by apply run_throw in Hr]. simpl in Hb. unfold db_SystemAdmin in Hb.
    apply run_bind in Hb as (user & w2 & Hu & Hb). apply run_ret in Hb as [Hadm _].
    apply run_enabledUser in Hu as (Hu & Hen & Hl). exists user. split; [done|].
    unfold is_admin. by rewrite Hen, Hl, Hadm.
Qed.

#[export] Instance resolver_cache_laws : PermissionCacheLaws (@resolver_cache _ _ repositorySource).
Proof.
  split; simpl.
  - intros u e. apply reads_resolve_from.
  - intros u e. apply confined_resolve_from.
  - apply secured_Resolve.
  - intros u e w keys admin w' Hr [_ Hp Hco _]. by eapply run_resolve in Hr as [_ Hk]; [apply Hk|..].
  - intros u e. unfold Invalidate. apply reads_bind; [|reads].
    apply reads_attempt, reads_quiet, quiet_db_Identity.
  - intros P u e. unfold Invalidate. apply confined_bind; [|confined].
    apply confined_attempt, confined_cacheless, cacheless_quiet, quiet_db_Identity.
Qed.
End secure.
