(* ===== verification/HandlersAccess.v ===== *)
(** The operations of the logic layer on accounts, roles, memberships, sessions,
    projects, keys and environments: they leave configurations and snapshots
    alone, add to the cache only permission entries and login counters, and
    keep permission checks right. *)

From S2P Require Import Prelude GoStd GoStrings Proto Codec Schema Engine Model Cache Convert World WorldLaws RepoScope Permission Password Jwt Credential RepoProject RepoIdentity RepoSession LogicAuth LogicBase LogicIdentity LogicProject Middleware LogicPublish Coherence RepoLaws PermissionSpec Evolution Handlers Ledger LedgerOps Secure.

Local Open Scope Z_scope.

(** ** Single statements outside a transaction *)

Section statement.
Context {E : Engine} {EL : EngineLaws E} `{Collation} {St : Store}
  (P : DB → DB → Prop) `{!Reflexive P}.

(** A statement in which an error changes nothing: if its success moves the
    database, so does every outcome. *)
Lemma moves_statement {A} (f : DB → result A * DB) :
  (∀ d e d', f d = (Er e, d') → d' = d) → steps P (statement f) → moves P (statement f).
Proof.
  intros Herr Hs w r w'. unfold statement. destruct (next_fault w) as [fault w1] eqn:Hf.
  apply next_fault_store in Hf as [Hd _].
  destruct (f (db w1)) as [[a|e] d] eqn:Hx.
  - assert (P (db w) d) as HP.
    { pose proof (statement_no_faults f (with_faults [] w) eq_refl) as Hrun. simpl in Hrun.
      rewrite <-Hd, Hx in Hrun. apply (Hs _ _ _ Hrun). }
    destruct fault as [[c []]|]; intros [= _ <-]; simpl; [done|by rewrite Hd|done].
  - apply Herr in Hx as ->. destruct fault as [[c []]|]; intros [= _ <-]; simpl; by rewrite Hd.
Qed.
Lemma moves_update {R} `{Row R} (T : Field_of R) p f :
  steps P (exec_update T p f) → moves P (exec_update T p f).
Proof.
  apply moves_statement. intros d e d'. destruct (update _ _ _) as [[n t]|]; by intros [= _ <-].
Qed.
Lemma moves_handle {A} h (m : M A) : moves P m → moves P (handle h m).
Proof.
  intros Hm w r w'. unfold handle. destruct (m w) as [[a|e] w1] eqn:Hr;
    intros [= _ <-]; by eapply Hm.
Qed.
Lemma moves_attempt {A} (m : M A) : moves P m → moves P (attempt m).
Proof.
  intros Hm w r w'. unfold attempt. destruct (m w) as [x w1] eqn:Hr.
  intros [= _ <-]. by eapply Hm.
Qed.
Lemma moves_each `{!Transitive P} {A} (f : A → M unit) l :
  (∀ x, moves P (f x)) → moves P (each_m f l).
Proof.
  intros Hf. induction l as [|x l IH]; simpl; [apply moves_reads; [done|reads]|].
  by apply moves_bind.
Qed.
End statement.

(** As [moves], through the remaining combinators. *)
Ltac runs :=
  intros; try (unfold wrapped, available);
  repeat first
    [ solve [auto with moves reads quiet]
    | apply moves_reads; [typeclasses eauto|solve [reads]]
    | apply moves_bind; [typeclasses eauto..| |intros ?]
    | apply moves_TX; [typeclasses eauto..|solve [auto with steps|steps]]
    | apply moves_handle; [typeclasses eauto..|] | apply moves_attempt; [typeclasses eauto..|]
    | apply moves_each; [typeclasses eauto..|intros ?]
    | apply moves_update; [typeclasses eauto..|]
    | match goal with
      | |- moves _ (if ?b then _ else _) => destruct b
      | |- moves _ (match ?x with _ => _ end) => destruct x
      | |- moves _ (let _ := _ in _) => cbv zeta
      end ].

(** A function is secured when its parts are. *)
Create HintDb secured.
Ltac secured :=
  intros; try (unfold wrapped, available);
  repeat first
    [ solve [auto with secured]
    | solve [apply secured_reads; [solve [reads]|solve [confined]]]
    | apply secured_TX; [solve [auto with steps|steps]|solve [cacheless]]
    | apply secured_bind; [|intros ?]
    | apply secured_handle | apply secured_attempt
    | apply secured_each; intros ?
    | match goal with
      | |- secured (if ?b then _ else _) => destruct b
      | |- secured (match ?x with _ => _ end) => destruct x
      | |- secured (let _ := _ in _) => cbv zeta
      end ].

Section handlers.
Context {E : Engine} {EL : EngineLaws E} `{Collation} {St : Store} {SL : StoreLaws St}
  `{Pepper} `{Argon2} `{JWTLib} `{SHA256} `{UnicodeLower}
  {Au : Authorizer} {AL : AuthorizerLaws Au} {SA : SecureAuthorizer Au}
  {PC : PermissionCache} {PL : PermissionCacheLaws PC} (hasher : Hasher) (l : AuthLogic).

#[local] Hint Extern 4 (steps (sound_where _) _) =>
  apply steps_sound; solve [auto with steps] : steps.

Lemma moves_core {A} (m : M A) : moves same_core m → moves sound m.
Proof. intros Hm w r w' Hr. by eapply sound_same_core, Hm. Qed.

Lemma checks_read u e ks : reads (Check u e ks).
Proof. apply check_reads. Qed.
Lemma system_checks_read u k : reads (CheckSystem u k).
Proof. apply check_system_reads. Qed.
Lemma keys_read u e : reads (ResolveKeys u e).
Proof. apply resolve_reads. Qed.
Lemma invalidation_reads u e : reads (InvalidateEntry u e).
Proof. apply invalidate_reads. Qed.
Lemma reads_increment k t : reads (cache_increment k t).
Proof. intros w r w'. unfold cache_increment. destruct (Increment _ _ _ _). by intros [= _ <-]. Qed.
#[local] Hint Resolve checks_read system_checks_read keys_read invalidation_reads
  reads_increment : reads.

Lemma checks_confined u e ks : confined administrative (Check u e ks).
Proof. eapply confined_weaken; [|apply check_confined]. by left. Qed.
Lemma system_checks_confined u k : confined administrative (CheckSystem u k).
Proof. eapply confined_weaken; [|apply check_system_confined]. by left. Qed.
Lemma keys_confined u e : confined administrative (ResolveKeys u e).
Proof. eapply confined_weaken; [|apply resolve_confined]. by left. Qed.
Lemma invalidation_confined P u e : confined P (InvalidateEntry u e).
Proof. apply invalidate_confined. Qed.
Lemma counter_administrative k t : counter_key k → confined administrative (cache_increment k t).
Proof. intros Hk. apply confined_increment. by right. Qed.
Lemma counter_foreign k t : counter_key k → confined foreign (cache_increment k t).
Proof. intros Hk. by apply confined_increment, counter_not_permission. Qed.
#[local] Hint Resolve loginRateKey_counter rateKey_counter : confined.
#[local] Hint Resolve checks_confined system_checks_confined keys_confined
  invalidation_confined counter_administrative counter_foreign : confined.

#[local] Hint Resolve check_secured check_system_secured resolve_secured : secured.

(** ** Reading functions *)

Lemma quiet_random_bytes n : quiet (random_bytes n).
Proof. unfold random_bytes. quiet. Qed.
#[local] Hint Resolve quiet_random_bytes : quiet.
Lemma quiet_password_Hash h p : quiet (password_Hash h p).
Proof. unfold password_Hash. quiet. Qed.
Lemma quiet_session_Generate : quiet session_Generate.
Proof. unfold session_Generate. quiet. Qed.
Lemma quiet_Issue m u s : quiet (Issue m u s).
Proof. unfold Issue. quiet. Qed.
Lemma quiet_generate_credential : quiet generate_credential.
Proof. unfold generate_credential. quiet. Qed.
Lemma quiet_permissionsForRole k : quiet (permissionsForRole k).
Proof. unfold permissionsForRole. quiet. Qed.
#[local] Hint Resolve quiet_permissionsForRole quiet_role_find : quiet.
Lemma quiet_role_FindByID k : quiet (role_FindByID k).
Proof. unfold role_FindByID. quiet. Qed.
Lemma quiet_rolesWithPermissions r : quiet (rolesWithPermissions r).
Proof. unfold rolesWithPermissions. quiet. Qed.
#[local] Hint Resolve quiet_rolesWithPermissions : quiet.
Lemma quiet_role_List : quiet role_List.
Proof. unfold role_List. quiet. Qed.
Lemma quiet_ListEnvironments u : quiet (ListEnvironments u).
Proof. unfold ListEnvironments. quiet. Qed.
Lemma quiet_rolesForMember e u : quiet (rolesForMember e u).
Proof. unfold rolesForMember. quiet. Qed.
#[local] Hint Resolve quiet_rolesForMember : quiet.
Lemma quiet_ListMembers e : quiet (ListMembers e).
Proof. unfold ListMembers. quiet. Qed.
Lemma quiet_project_pages like e k : quiet (all_pages projects_t (project_List like e k)).
Proof. apply quiet_all_pages. intros p. apply quiet_paginate. Qed.
#[local] Hint Resolve quiet_password_Hash quiet_session_Generate quiet_Issue
  quiet_generate_credential quiet_role_FindByID quiet_role_List quiet_ListEnvironments quiet_ListMembers
  quiet_project_pages quiet_find_user quiet_loadState quiet_db_List : quiet.

(** ** user.go *)

Lemma core_user_logic_List a : moves same_core (user_logic_List a).
Proof. unfold user_logic_List, ListManagedUsers. runs. Qed.
Lemma confined_user_logic_List a : confined administrative (user_logic_List a).
Proof. unfold user_logic_List, ListManagedUsers. confined. Qed.
Lemma secured_user_logic_List a : secured (user_logic_List a).
Proof. unfold user_logic_List, ListManagedUsers. secured. Qed.
Lemma core_user_logic_Create a i : moves same_core (user_logic_Create hasher a i).
Proof. unfold user_logic_Create, GetByID, lockManagedUser. runs. Qed.
Lemma confined_user_logic_Create a i : confined administrative (user_logic_Create hasher a i).
Proof. unfold user_logic_Create, GetByID, lockManagedUser. confined. Qed.
Lemma secured_user_logic_Create a i : secured (user_logic_Create hasher a i).
Proof. unfold user_logic_Create, GetByID, lockManagedUser. secured. Qed.
Lemma core_user_logic_Update a i : moves same_core (user_logic_Update a i).
Proof. unfold user_logic_Update. runs. Qed.
Lemma confined_user_logic_Update a i : confined administrative (user_logic_Update a i).
Proof. unfold user_logic_Update. confined. Qed.
Lemma secured_user_logic_Update a i : secured (user_logic_Update a i).
Proof. unfold user_logic_Update. secured. Qed.
Lemma core_user_logic_UpdatePassword a u p : moves same_core (user_logic_UpdatePassword hasher a u p).
Proof. unfold user_logic_UpdatePassword, unless_m. runs. Qed.
Lemma confined_user_logic_UpdatePassword a u p : confined administrative (user_logic_UpdatePassword hasher a u p).
Proof. unfold user_logic_UpdatePassword, unless_m. confined. Qed.
Lemma secured_user_logic_UpdatePassword a u p : secured (user_logic_UpdatePassword hasher a u p).
Proof. unfold user_logic_UpdatePassword, unless_m. secured. Qed.
Lemma core_user_logic_UpdateStatus a u b v : moves same_core (user_logic_UpdateStatus a u b v).
Proof. unfold user_logic_UpdateStatus. runs. Qed.
Lemma confined_user_logic_UpdateStatus a u b v : confined administrative (user_logic_UpdateStatus a u b v).
Proof. unfold user_logic_UpdateStatus. confined. Qed.
Lemma secured_user_logic_UpdateStatus a u b v : secured (user_logic_UpdateStatus a u b v).
Proof. unfold user_logic_UpdateStatus. secured. Qed.

(** ** role.go *)

Lemma core_role_logic_List : moves same_core role_logic_List.
Proof. unfold role_logic_List. runs. Qed.
Lemma confined_role_logic_List : confined administrative role_logic_List.
Proof. unfold role_logic_List. confined. Qed.
Lemma secured_role_logic_List : secured role_logic_List.
Proof. unfold role_logic_List. secured. Qed.
Lemma core_role_logic_Create a r : moves same_core (role_logic_Create a r).
Proof. unfold role_logic_Create. runs. Qed.
Lemma confined_role_logic_Create a r : confined administrative (role_logic_Create a r).
Proof. unfold role_logic_Create. confined. Qed.
Lemma secured_role_logic_Create a r : secured (role_logic_Create a r).
Proof. unfold role_logic_Create. secured. Qed.
Lemma core_role_logic_Update a k u : moves same_core (role_logic_Update a k u).
Proof. unfold role_logic_Update. runs. Qed.
Lemma confined_role_logic_Update a k u : confined administrative (role_logic_Update a k u).
Proof. unfold role_logic_Update. confined. Qed.
Lemma secured_role_logic_Update a k u : secured (role_logic_Update a k u).
Proof. unfold role_logic_Update. secured. Qed.
Lemma core_role_logic_Delete a k : moves same_core (role_logic_Delete a k).
Proof. unfold role_logic_Delete. runs. Qed.
Lemma confined_role_logic_Delete a k : confined administrative (role_logic_Delete a k).
Proof. unfold role_logic_Delete. confined. Qed.
Lemma secured_role_logic_Delete a k : secured (role_logic_Delete a k).
Proof. unfold role_logic_Delete. secured. Qed.
Lemma core_role_logic_ListPermissions a : moves same_core (role_logic_ListPermissions a).
Proof. unfold role_logic_ListPermissions. runs. Qed.
Lemma confined_role_logic_ListPermissions a : confined administrative (role_logic_ListPermissions a).
Proof. unfold role_logic_ListPermissions. confined. Qed.
Lemma secured_role_logic_ListPermissions a : secured (role_logic_ListPermissions a).
Proof. unfold role_logic_ListPermissions. secured. Qed.
Lemma core_role_logic_UpdatePermissions a k ids : moves same_core (role_logic_UpdatePermissions a k ids).
Proof. unfold role_logic_UpdatePermissions, cleanup_entry. runs. Qed.
Lemma confined_role_logic_UpdatePermissions a k ids : confined administrative (role_logic_UpdatePermissions a k ids).
Proof. unfold role_logic_UpdatePermissions, cleanup_entry. confined. Qed.
Lemma secured_role_logic_UpdatePermissions a k ids : secured (role_logic_UpdatePermissions a k ids).
Proof. unfold role_logic_UpdatePermissions, cleanup_entry. secured. Qed.

(** ** environment.go *)

Lemma core_environment_logic_List a : moves same_core (environment_logic_List a).
Proof. unfold environment_logic_List, environment_List, GetByID, lockManagedUser. runs. Qed.
Lemma confined_environment_logic_List a : confined administrative (environment_logic_List a).
Proof. unfold environment_logic_List, environment_List, GetByID, lockManagedUser. confined. Qed.
Lemma secured_environment_logic_List a : secured (environment_logic_List a).
Proof. unfold environment_logic_List, environment_List, GetByID, lockManagedUser. secured. Qed.
Lemma core_environment_logic_Create a v : moves same_core (environment_logic_Create a v).
Proof. unfold environment_logic_Create, environment_FindByID. runs. Qed.
Lemma confined_environment_logic_Create a v : confined administrative (environment_logic_Create a v).
Proof. unfold environment_logic_Create, environment_FindByID. confined. Qed.
Lemma secured_environment_logic_Create a v : secured (environment_logic_Create a v).
Proof. unfold environment_logic_Create, environment_FindByID. secured. Qed.
Lemma core_environment_logic_Update a e u : moves same_core (environment_logic_Update a e u).
Proof. unfold environment_logic_Update, environment_FindByID. runs. Qed.
Lemma confined_environment_logic_Update a e u : confined administrative (environment_logic_Update a e u).
Proof. unfold environment_logic_Update, environment_FindByID. confined. Qed.
Lemma secured_environment_logic_Update a e u : secured (environment_logic_Update a e u).
Proof. unfold environment_logic_Update, environment_FindByID. secured. Qed.
Lemma core_environment_logic_Permissions a e : moves same_core (environment_logic_Permissions a e).
Proof. unfold environment_logic_Permissions. runs. Qed.
Lemma confined_environment_logic_Permissions a e : confined administrative (environment_logic_Permissions a e).
Proof. unfold environment_logic_Permissions. confined. Qed.
Lemma secured_environment_logic_Permissions a e : secured (environment_logic_Permissions a e).
Proof. unfold environment_logic_Permissions. secured. Qed.
Lemma core_environment_logic_ListMembers a e : moves same_core (environment_logic_ListMembers a e).
Proof. unfold environment_logic_ListMembers. runs. Qed.
Lemma confined_environment_logic_ListMembers a e : confined administrative (environment_logic_ListMembers a e).
Proof. unfold environment_logic_ListMembers. confined. Qed.
Lemma secured_environment_logic_ListMembers a e : secured (environment_logic_ListMembers a e).
Proof. unfold environment_logic_ListMembers. secured. Qed.
Lemma core_UpdateMemberRoles a e u ids : moves same_core (UpdateMemberRoles a e u ids).
Proof. unfold UpdateMemberRoles, cleanup_entry. runs. Qed.
Lemma confined_UpdateMemberRoles a e u ids : confined administrative (UpdateMemberRoles a e u ids).
Proof. unfold UpdateMemberRoles, cleanup_entry. confined. Qed.
Lemma secured_UpdateMemberRoles a e u ids : secured (UpdateMemberRoles a e u ids).
Proof. unfold UpdateMemberRoles, cleanup_entry. secured. Qed.

(** ** project.go *)

Lemma core_project_logic_Create a e p : moves same_core (project_logic_Create a e p).
Proof. unfold project_logic_Create, project_FindByID. runs. Qed.
Lemma confined_project_logic_Create a e p : confined administrative (project_logic_Create a e p).
Proof. unfold project_logic_Create, project_FindByID. confined. Qed.
Lemma secured_project_logic_Create a e p : secured (project_logic_Create a e p).
Proof. unfold project_logic_Create, project_FindByID. secured. Qed.
Lemma core_project_logic_Update a k u : moves same_core (project_logic_Update a k u).
Proof. unfold project_logic_Update, project_FindByID. runs. Qed.
Lemma confined_project_logic_Update a k u : confined administrative (project_logic_Update a k u).
Proof. unfold project_logic_Update, project_FindByID. confined. Qed.
Lemma secured_project_logic_Update a k u : secured (project_logic_Update a k u).
Proof. unfold project_logic_Update, project_FindByID. secured. Qed.
Lemma core_project_logic_List like a e k : moves same_core (project_logic_List like a e k).
Proof. unfold project_logic_List, project_check. runs. Qed.
Lemma confined_project_logic_List like a e k : confined administrative (project_logic_List like a e k).
Proof. unfold project_logic_List, project_check. confined. Qed.
Lemma secured_project_logic_List like a e k : secured (project_logic_List like a e k).
Proof. unfold project_logic_List, project_check. secured. Qed.
Lemma core_project_logic_Detail a e p : moves same_core (project_logic_Detail a e p).
Proof. unfold project_logic_Detail, project_check, project_FindByID. runs. Qed.
Lemma confined_project_logic_Detail a e p : confined administrative (project_logic_Detail a e p).
Proof. unfold project_logic_Detail, project_check, project_FindByID. confined. Qed.
Lemma secured_project_logic_Detail a e p : secured (project_logic_Detail a e p).
Proof. unfold project_logic_Detail, project_check, project_FindByID. secured. Qed.

(** ** api_key.go *)

Lemma core_key_logic_List a e p : moves same_core (key_logic_List a e p).
Proof. unfold key_logic_List, key_List. runs. Qed.
Lemma confined_key_logic_List a e p : confined administrative (key_logic_List a e p).
Proof. unfold key_logic_List, key_List. confined. Qed.
Lemma secured_key_logic_List a e p : secured (key_logic_List a e p).
Proof. unfold key_logic_List, key_List. secured. Qed.
Lemma core_key_logic_Create a e p n : moves same_core (key_logic_Create a e p n).
Proof. unfold key_logic_Create. runs. Qed.
Lemma confined_key_logic_Create a e p n : confined administrative (key_logic_Create a e p n).
Proof. unfold key_logic_Create. confined. Qed.
Lemma secured_key_logic_Create a e p n : secured (key_logic_Create a e p n).
Proof. unfold key_logic_Create. secured. Qed.
Lemma core_key_logic_Rotate a e p k : moves same_core (key_logic_Rotate a e p k).
Proof. unfold key_logic_Rotate, lock_unrevoked, key_LockByID, key_FindByID. runs. Qed.
Lemma confined_key_logic_Rotate a e p k : confined administrative (key_logic_Rotate a e p k).
Proof. unfold key_logic_Rotate, lock_unrevoked, key_LockByID, key_FindByID. confined. Qed.
Lemma secured_key_logic_Rotate a e p k : secured (key_logic_Rotate a e p k).
Proof. unfold key_logic_Rotate, lock_unrevoked, key_LockByID, key_FindByID. secured. Qed.
Lemma core_key_logic_Revoke a e p k : moves same_core (key_logic_Revoke a e p k).
Proof. unfold key_logic_Revoke, lock_unrevoked, key_LockByID, key_FindByID. runs. Qed.
Lemma confined_key_logic_Revoke a e p k : confined administrative (key_logic_Revoke a e p k).
Proof. unfold key_logic_Revoke, lock_unrevoked, key_LockByID, key_FindByID. confined. Qed.
Lemma secured_key_logic_Revoke a e p k : secured (key_logic_Revoke a e p k).
Proof. unfold key_logic_Revoke, lock_unrevoked, key_LockByID, key_FindByID. secured. Qed.

(** ** auth.go *)

(** The upgrade of a password hash is a statement of its own. *)
Lemma core_rehash u h n : moves same_core (UpdatePasswordHash u h n).
Proof. unfold UpdatePasswordHash. runs. apply steps_update. by intros ? ?. Qed.
Lemma secured_rehash u h n : secured (UpdatePasswordHash u h n).
Proof.
  apply secured_moves; [|unfold UpdatePasswordHash; confined].
  unfold UpdatePasswordHash. runs. apply progress_user_rehash.
Qed.
#[local] Hint Resolve core_rehash : moves.
#[local] Hint Resolve secured_rehash : secured.

Lemma core_Login n p ip : moves same_core (Login l n p ip).
Proof. unfold Login, checkLoginLimit, verifyLogin, FindByUsername, rehashPassword, createSession, auth_revokeSession. runs. Qed.
Lemma confined_Login n p ip : confined administrative (Login l n p ip).
Proof. unfold Login, checkLoginLimit, verifyLogin, FindByUsername, rehashPassword, createSession, auth_revokeSession. confined. Qed.
Lemma secured_Login n p ip : secured (Login l n p ip).
Proof. unfold Login, checkLoginLimit, verifyLogin, FindByUsername, rehashPassword, createSession, auth_revokeSession. secured. Qed.
Lemma core_Refresh r : moves same_core (Refresh l r).
Proof. unfold Refresh, rotateRefresh, refreshedAccess, activeUser, GetByID, lockManagedUser, auth_revokeSession. runs. Qed.
Lemma confined_Refresh r : confined administrative (Refresh l r).
Proof. unfold Refresh, rotateRefresh, refreshedAccess, activeUser, GetByID, lockManagedUser, auth_revokeSession. confined. Qed.
Lemma secured_Refresh r : secured (Refresh l r).
Proof. unfold Refresh, rotateRefresh, refreshedAccess, activeUser, GetByID, lockManagedUser, auth_revokeSession. secured. Qed.
Lemma core_Logout r : moves same_core (Logout r).
Proof. unfold Logout, auth_revokeSession. runs. Qed.
Lemma confined_Logout r : confined administrative (Logout r).
Proof. unfold Logout, auth_revokeSession. confined. Qed.
Lemma secured_Logout r : secured (Logout r).
Proof. unfold Logout, auth_revokeSession. secured. Qed.
Lemma core_Me u : moves same_core (Me u).
Proof. unfold Me, activeUser, GetByID, lockManagedUser. runs. Qed.
Lemma confined_Me u : confined administrative (Me u).
Proof. unfold Me, activeUser, GetByID, lockManagedUser. confined. Qed.
Lemma secured_Me u : secured (Me u).
Proof. unfold Me, activeUser, GetByID, lockManagedUser. secured. Qed.

(** ** middleware *)

Lemma core_FixedWindowRateLimit n k t s : moves same_core (FixedWindowRateLimit n k t s).
Proof. unfold FixedWindowRateLimit. runs. Qed.
Lemma confined_FixedWindowRateLimit n k t s :
  confined administrative (FixedWindowRateLimit n k t s).
Proof. unfold FixedWindowRateLimit. confined. Qed.
Lemma secured_FixedWindowRateLimit n k t s : secured (FixedWindowRateLimit n k t s).
Proof. unfold FixedWindowRateLimit. secured. Qed.
Lemma quiet_AdminAuth m t : quiet (AdminAuth m t).
Proof. unfold AdminAuth, GetByID, lockManagedUser. quiet. Qed.

(** ** setup.go *)

Lemma core_GetSetupStatus : moves same_core GetSetupStatus.
Proof. unfold GetSetupStatus, IsInitialized. runs. Qed.
Lemma confined_GetSetupStatus : confined administrative GetSetupStatus.
Proof. unfold GetSetupStatus, IsInitialized. confined. Qed.
Lemma secured_GetSetupStatus : secured GetSetupStatus.
Proof. unfold GetSetupStatus, IsInitialized. secured. Qed.
Lemma core_CreateInitialAdmin n d p : moves same_core (CreateInitialAdmin hasher n d p).
Proof. unfold CreateInitialAdmin. runs. Qed.
Lemma confined_CreateInitialAdmin n d p : confined administrative (CreateInitialAdmin hasher n d p).
Proof. unfold CreateInitialAdmin. confined. Qed.
Lemma secured_CreateInitialAdmin n d p : secured (CreateInitialAdmin hasher n d p).
Proof. unfold CreateInitialAdmin. secured. Qed.
Lemma core_saveAdministrator n d h : moves same_core (saveAdministrator n d h).
Proof. unfold saveAdministrator. runs. Qed.
Lemma confined_saveAdministrator n d h : confined administrative (saveAdministrator n d h).
Proof. unfold saveAdministrator. confined. Qed.
Lemma secured_saveAdministrator n d h : secured (saveAdministrator n d h).
Proof. unfold saveAdministrator. secured. Qed.
End handlers.
