(* ===== verification/HandlersTransfer.v ===== *)
(** Import and export: an import keeps the integrity of the target, and like
    every other operation the ledger and the cache.  The operations on
    configurations, definitions, snapshots and publications, and the runtime
    read, keep permission checks right. *)

From S2P Require Import Prelude GoStd GoStrings Proto Codec Schema Engine Model Cache Convert World WorldLaws RepoScope Permission RepoConfig RepoChild RepoSnapshot RepoLaws Credential Password RepoProject RepoSession LogicBase LogicIdentity LogicAuth LogicPublish LogicConfig LogicSnapshot LogicTransfer LogicDefinition PublishLaws Evolution Coherence PermissionSpec Ledger LedgerOps Handlers Secure HandlersAccess.

Local Open Scope Z_scope.

Section transfer.
Context {E : Engine} {EL : EngineLaws E} `{Collation} {St : Store} {SL : StoreLaws St}
  `{Protojson} `{MapOrder} `{SHA256}
  {Au : Authorizer} {AL : AuthorizerLaws Au} {SA : SecureAuthorizer Au}.

#[local] Hint Resolve quiet_preview_config : quiet.
Lemma quiet_project_LockByID e p : quiet (project_LockByID e p).
Proof. unfold project_LockByID. quiet. Qed.
#[local] Hint Resolve quiet_project_LockByID : quiet.

(** ** The written configuration *)

(** A live row stands behind the configuration an import continues with. *)
Definition stands (c : ConfigRow) (d : DB) : Prop :=
  ∃ row, crows d !! ID (cfg_meta c) = Some row ∧ live (cfg_meta row) = true ∧
    cfg_ProjectID row = cfg_ProjectID c.

Lemma config_Create_result e p config c w w' : config_Create e p config w = (Ok c, w') →
  live (cfg_meta c) = live (cfg_meta config) ∧ cfg_ProjectID c = cfg_ProjectID config.
Proof.
  intros Hr. unfold config_Create in Hr. apply run_bind in Hr as (u & w1 & _ & Hr).
  apply run_bind in Hr as (existing & w2 & _ & Hr). destruct existing as [old|].
  - unfold config_restore_row in Hr. inv_run. done.
  - inv_run. done.
Qed.

Lemma created_stands e p config c w w' : config_Create e p config w = (Ok c, w') →
  live (cfg_meta config) = true → cfg_ProjectID config = p → stands c (db w').
Proof.
  intros Hr Hl Hp. destruct (config_Create_result _ _ _ _ _ _ Hr) as [Hlc Hpc].
  apply config_Create_rows in Hr as [_ [(_ & _ & Hrows & _)|Hr]].
  - exists c. rewrite Hrows, lookup_insert_eq. split_and!; congruence.
  - destruct Hr as (old & t & v & Hold & _ & Hproj & _ & Hrows).
    exists (config_restore config t v old). rewrite Hrows, lookup_fmap, Hold. simpl.
    pose proof (config_key _ _ _ Hold) as ->. rewrite Z.eqb_refl.
    split_and!; [done..|congruence].
Qed.

Lemma mapped_stands p f c w w' : configs_mapped p f w w' →
  (∀ r, live (cfg_meta (f r)) = live (cfg_meta r) ∧ cfg_ProjectID (f r) = cfg_ProjectID r) →
  stands c (db w) → stands c (db w').
Proof.
  intros [Hc _]%configs_mapped_rows Hf (row & Hrow & Hl & Hp).
  exists (if p row then f row else row). rewrite Hc, lookup_fmap, Hrow. split; [done|].
  destruct (Hf row) as [Hfl Hfp]. case_match; split; congruence.
Qed.
Lemma core_stands c d d' : same_core d d' → stands c d → stands c d'.
Proof. unfold stands. by intros [_ ->]. Qed.

Lemma writeConfig_stands a request source c w w' : writeConfig a request source w = (Ok c, w') →
  stands c (db w').
Proof.
  intros Hr. unfold writeConfig in Hr. apply run_bind in Hr as (ty & w1 & Hty & Hr).
  apply run_lift in Hty as [_ ->]. cbv zeta in Hr.
  destruct (ir_ConflictStrategy request =? StrategyFail).
  { by eapply created_stands; [exact Hr|..]. }
  destruct (ir_TargetConfigID request) as [k|]; [|by apply run_throw in Hr].
  apply run_bind in Hr as (tgt & w2 & Hlock & Hr).
  apply run_config_LockByID in Hlock as (Hrow & Hl & _ & [Hd2 _]).
  apply run_bind in Hr as (x & w3 & Hw & Hr). apply run_when_err in Hw as [_ ->].
  apply run_bind in Hr as (y & w4 & Hu & Hr). apply config_Update_rows in Hu as (t & r & Hu & _).
  apply run_bind in Hr as (z & w5 & Hv & Hr).
  apply config_UpdateValue_rows in Hv as (t' & r' & Hv & _). apply run_ret in Hr as [<- <-].
  eapply mapped_stands; [exact Hv|done|]. eapply mapped_stands; [exact Hu|done|].
  exists tgt. rewrite Hd2. simpl. rewrite (config_key _ _ _ Hrow). done.
Qed.

(** ** The steps of an import *)

Context (ok : Z → Prop).
#[local] Hint Resolve sound_config_Update sound_config_UpdateValue sound_config_Create
  sound_structure_Reconcile sound_enum_Reconcile : steps.
Lemma sound_writeConfig a request source : steps (sound_where ok) (writeConfig a request source).
Proof. unfold writeConfig. steps. Qed.
Lemma core_importResources a e c s : steps same_core (importResources a e c s).
Proof.
  pose proof (λ e c i u, steps_child_Reconcile structure_frame e c i u) as Hs.
  pose proof (λ e c i u, steps_child_Reconcile enum_frame e c i u) as He.
  unfold importResources, structure_Reconcile, enum_Reconcile. steps.
Qed.
Lemma core_claimImport a request h : steps same_core (claimImport a request h).
Proof. unfold claimImport. steps. Qed.

Lemma sound_prepareImport a request t w w' : prepareImport a request w = (Ok t, w') →
  sound_where ok (db w) (db w') ∧ stands (it_config t) (db w') ∧
  snp_ConfigID (it_snapshot t) = ID (cfg_meta (it_config t)) ∧
  snp_ProjectID (it_snapshot t) = cfg_ProjectID (it_config t).
Proof.
  intros Hr. unfold prepareImport in Hr. apply run_bind in Hr as (s & w1 & Hs & Hr).
  apply run_snapshot_LockByID in Hs as (_ & _ & _ & [Hd1 _]).
  apply run_bind in Hr as (source & w2 & Hv & Hr). apply run_lift in Hv as [_ ->].
  apply run_bind in Hr as (p & w3 & Hp & Hr).
  apply (quiet_run _ _ _ _ (quiet_project_LockByID _ _)) in Hp as [Hd3 _].
  apply run_bind in Hr as (c & w4 & Hc & Hr).
  apply (quiet_run _ _ _ _ (quiet_preview_config _)) in Hc as [Hd4 _].
  rewrite <-Hd1, <-Hd3, <-Hd4. apply run_bind in Hr as (cfg & w5 & Hw & Hr).
  pose proof (writeConfig_stands _ _ _ _ _ _ Hw) as Hst. apply sound_writeConfig in Hw.
  apply run_bind in Hr as (x & w6 & Hi & Hr). apply core_importResources in Hi.
  apply run_bind in Hr as (tags & w7 & Ht & Hr). apply run_lift in Ht as [_ ->].
  apply run_ret in Hr as [<- <-]. simpl. split_and!; [|by eapply core_stands|done..].
  etrans; [exact Hw|by apply sound_same_core].
Qed.

(** The new snapshot becomes the current one of its configuration. *)
Lemma sound_completeImport a request k t s w w' :
  completeImport a request k (it_snapshot t) w = (Ok s, w') → stands (it_config t) (db w) →
  snp_ConfigID (it_snapshot t) = ID (cfg_meta (it_config t)) →
  snp_ProjectID (it_snapshot t) = cfg_ProjectID (it_config t) →
  sound_where ok (db w) (db w').
Proof.
  intros Hr (row & Hrow & Hl & Hp) Hcid Hpid HG Hcur. unfold completeImport in Hr.
  apply run_bind in Hr as (created & w1 & Hc & Hr).
  pose proof (snapshot_Create_rows _ _ _ _ _ _ Hc) as (tc & _ & _ & _ & _ & _ & Hcc & _).
  eapply (sound_snapshot_Create ok) in Hc as (HG1 & Hcur1 & Hev1);
    [|by rewrite Hcid|done|congruence|done..].
  apply run_bind in Hr as (x & w2 & Hsel & Hr). rewrite Hcc in Hsel.
  eapply sound_select in Hsel as (HG2 & Hcur2 & Hev2); [|done|exact Hcur1].
  apply run_bind in Hr as (y & w3 & Hcomplete & Hr). apply core_Complete in Hcomplete.
  apply run_bind in Hr as (z & w4 & Hlog & Hr). apply core_Record in Hlog.
  apply run_ret in Hr as [_ <-].
  pose proof (sound_same_core ok _ _ (transitivity Hcomplete Hlog) HG2 Hcur2) as (? & ? & ?).
  split_and!; [done..|]. etrans; [done|]. by etrans.
Qed.

Lemma sound_importSnapshot a request h : steps (sound_where ok) (importSnapshot a request h).
Proof.
  intros w o w' Hr. unfold importSnapshot in Hr. apply run_bind in Hr as (claim & w1 & Hc & Hr).
  apply core_claimImport, (sound_same_core ok) in Hc.
  destruct claim as [record|k]; [|by apply run_ret in Hr as [_ <-]].
  apply run_bind in Hr as (t & w2 & Hp & Hr).
  apply sound_prepareImport in Hp as (Hp & Hst & Hcid & Hpid).
  apply run_bind in Hr as (s & w3 & Hdone & Hr). apply run_ret in Hr as [_ <-].
  eapply sound_completeImport in Hdone; [|done..]. etrans; [exact Hc|]. by etrans.
Qed.

(** ** The ledger *)

Lemma progress_claimImport a request h : steps progress (claimImport a request h).
Proof. unfold claimImport. steps. Qed.
Lemma progress_prepareImport a request : steps progress (prepareImport a request).
Proof. unfold prepareImport, writeConfig, importResources. steps. Qed.
#[local] Hint Resolve progress_claimImport progress_prepareImport : steps.
Lemma progress_importSnapshot a request h : steps progress (importSnapshot a request h).
Proof. unfold importSnapshot, completeImport. steps. Qed.
Lemma cacheless_importSnapshot a request h : cacheless (importSnapshot a request h).
Proof.
  pose proof cacheless_config_Create. pose proof cacheless_config_Update.
  pose proof cacheless_config_UpdateValue. pose proof cacheless_snapshot_Create.
  pose proof cacheless_SetCurrent.
  pose proof (λ e c (i : list StructureRow) u, cacheless_child_Reconcile e c i u).
  pose proof (λ e c (i : list EnumRow) u, cacheless_child_Reconcile e c i u).
  unfold importSnapshot, claimImport, prepareImport, writeConfig, importResources,
    completeImport, structure_Reconcile, enum_Reconcile. cacheless.
Qed.
End transfer.

(** ** The operations *)

Section operations.
Context {E : Engine} {EL : EngineLaws E} `{Collation} {St : Store} {SL : StoreLaws St}
  `{Protojson} `{MapOrder} `{SHA256}
  {Au : Authorizer} {AL : AuthorizerLaws Au} {SA : SecureAuthorizer Au}.

Lemma source_read u e : reads (RequireSourceRead u e).
Proof. apply check_reads. Qed.
Lemma target_read u e ks : reads (Check u e ks).
Proof. apply check_reads. Qed.
Lemma source_confined u e : confined administrative (RequireSourceRead u e).
Proof. apply checks_confined. Qed.
Lemma target_confined u e ks : confined administrative (Check u e ks).
Proof. apply checks_confined. Qed.
Lemma source_secured u e : secured (RequireSourceRead u e).
Proof. apply check_secured. Qed.
#[local] Hint Resolve source_read target_read : reads.
#[local] Hint Resolve source_confined target_confined : confined.
#[local] Hint Resolve source_secured check_secured : secured.
#[local] Hint Resolve cacheless_importSnapshot : cacheless.
#[local] Hint Resolve progress_importSnapshot sound_importSnapshot : steps.

Lemma reads_Export a e k : reads (Export a e k).
Proof. unfold Export. reads. Qed.
Lemma confined_Export a e k : confined administrative (Export a e k).
Proof. unfold Export. confined. Qed.
Lemma secured_Export a e k : secured (Export a e k).
Proof. unfold Export. secured. Qed.

Lemma reads_cleanupImport k : reads (cleanupImport k).
Proof. unfold cleanupImport, cleanup, DeletePublishedConfigVersion. reads. Qed.
Lemma confined_cleanupImport P k : confined P (cleanupImport k).
Proof. unfold cleanupImport, cleanup, DeletePublishedConfigVersion. confined. Qed.
#[local] Hint Resolve reads_cleanupImport : reads.
#[local] Hint Resolve confined_cleanupImport : confined.

Lemma moves_Import a request : moves sound (Import a request).
Proof. unfold Import. runs. Qed.
Lemma confined_Import a request : confined administrative (Import a request).
Proof. unfold Import. confined. Qed.
Lemma secured_Import a request : secured (Import a request).
Proof. unfold Import. secured. Qed.
End operations.

Section handlers.
Context {E : Engine} {EL : EngineLaws E} `{Collation} {St : Store} {SL : StoreLaws St}
  `{Protojson} `{MapOrder} `{Pepper}
  {Au : Authorizer} {AL : AuthorizerLaws Au} {SA : SecureAuthorizer Au}.

#[local] Hint Resolve check_secured : secured.
#[local] Hint Resolve cacheless_RecordForEnvironment cacheless_config_Create
  cacheless_config_Update cacheless_config_UpdateValue cacheless_config_Delete
  cacheless_snapshot_Create cacheless_snapshot_Delete cacheless_SetCurrent
  cacheless_SetReleased cacheless_SetUnreleased cacheless_IncrementRuntimeVersion : cacheless.
#[local] Hint Resolve quiet_resources_lock quiet_lockedPreview quiet_preview_config
  quiet_structure_FindByID quiet_enum_FindByID quiet_all_pages quiet_paginate
  quiet_child_List quiet_config_resources quiet_structure_pages : quiet.

Lemma cacheless_structure_Create e c i : cacheless (structure_Create e c i).
Proof. apply (cacheless_child_Create (R := StructureRow)). Qed.
Lemma cacheless_structure_Update e k u : cacheless (structure_Update e k u).
Proof. apply (cacheless_child_Update (R := StructureRow)). Qed.
Lemma cacheless_structure_Delete e k u : cacheless (structure_Delete e k u).
Proof. apply (cacheless_child_Delete (R := StructureRow)). Qed.
Lemma cacheless_structure_Reconcile e c l u : cacheless (structure_Reconcile e c l u).
Proof. apply (cacheless_child_Reconcile (R := StructureRow)). Qed.
Lemma cacheless_enum_Create e c i : cacheless (enum_Create e c i).
Proof. apply (cacheless_child_Create (R := EnumRow)). Qed.
Lemma cacheless_enum_Update e k u : cacheless (enum_Update e k u).
Proof. apply (cacheless_child_Update (R := EnumRow)). Qed.
Lemma cacheless_enum_Delete e k u : cacheless (enum_Delete e k u).
Proof. apply (cacheless_child_Delete (R := EnumRow)). Qed.
Lemma cacheless_enum_Reconcile e c l u : cacheless (enum_Reconcile e c l u).
Proof. apply (cacheless_child_Reconcile (R := EnumRow)). Qed.
#[local] Hint Resolve cacheless_structure_Create cacheless_structure_Update
  cacheless_structure_Delete cacheless_structure_Reconcile cacheless_enum_Create
  cacheless_enum_Update cacheless_enum_Delete cacheless_enum_Reconcile : cacheless.
Lemma progress_autoSave a e c p : steps progress (autoSave a e c p).
Proof. unfold autoSave, FindCurrentForConfig. steps. Qed.
Lemma cacheless_autoSave a e c p : cacheless (autoSave a e c p).
Proof. unfold autoSave, FindCurrentForConfig. cacheless. Qed.
#[local] Hint Resolve progress_autoSave : steps.
#[local] Hint Resolve cacheless_autoSave : cacheless.
Lemma progress_loadSnapshot a e c s : steps progress (loadSnapshot a e c s).
Proof. unfold loadSnapshot. steps. Qed.
Lemma cacheless_loadSnapshot a e c s : cacheless (loadSnapshot a e c s).
Proof. unfold loadSnapshot, restoreConfig. cacheless. Qed.
#[local] Hint Resolve progress_loadSnapshot : steps.
#[local] Hint Resolve cacheless_loadSnapshot : cacheless.

(** ** Administration *)

Lemma secured_config_logic_Create a e i : secured (config_logic_Create a e i).
Proof. unfold config_logic_Create. secured. Qed.
Lemma secured_config_logic_Update a e i : secured (config_logic_Update a e i).
Proof. unfold config_logic_Update. secured. Qed.
Lemma secured_config_logic_UpdateValue a e i : secured (config_logic_UpdateValue a e i).
Proof. unfold config_logic_UpdateValue. secured. Qed.
Lemma secured_config_logic_Delete a e c : secured (config_logic_Delete a e c).
Proof. unfold config_logic_Delete, FindAnyForConfig. secured. Qed.
Lemma secured_config_logic_List a e f : secured (config_logic_List a e f).
Proof.
  unfold config_logic_List. apply secured_bind; [secured|intros _]. apply secured_quiet, quiet_bind;
    [apply quiet_all_pages; intros; unfold config_List; quiet|].
  intros l. unfold ListReleasedConfigIDs. quiet.
Qed.
Lemma secured_config_logic_Detail a e c : secured (config_logic_Detail a e c).
Proof. unfold config_logic_Detail. secured. Qed.
Lemma secured_structure_logic_Create a e i : secured (structure_logic_Create a e i).
Proof. unfold structure_logic_Create. secured. Qed.
Lemma secured_structure_logic_Update a e i : secured (structure_logic_Update a e i).
Proof. unfold structure_logic_Update, structure_prepareUpdate, structure_validateUpdate,
  structure_saveUpdate. secured. Qed.
Lemma secured_structure_logic_Delete a e k : secured (structure_logic_Delete a e k).
Proof. unfold structure_logic_Delete. secured. Qed.
Lemma secured_structure_logic_List a e i : secured (structure_logic_List a e i).
Proof. unfold structure_logic_List. secured. Qed.
Lemma secured_enum_logic_Create a e i : secured (enum_logic_Create a e i).
Proof. unfold enum_logic_Create. secured. Qed.
Lemma secured_enum_logic_Update a e i : secured (enum_logic_Update a e i).
Proof. unfold enum_logic_Update, enum_prepareUpdate, enum_validateUpdate, enum_saveUpdate. secured. Qed.
Lemma secured_enum_logic_Delete a e k : secured (enum_logic_Delete a e k).
Proof. unfold enum_logic_Delete. secured. Qed.
Lemma secured_enum_logic_List a e p c : secured (enum_logic_List a e p c).
Proof.
  unfold enum_logic_List. apply secured_bind; [secured|intros _]. apply secured_quiet.
  repeat (apply quiet_bind; [quiet|intros ?]). apply quiet_all_pages.
  intros. unfold enum_List. quiet.
Qed.
Lemma secured_snapshot_logic_Create a e i : secured (snapshot_logic_Create a e i).
Proof. unfold snapshot_logic_Create. secured. Qed.
Lemma secured_snapshot_logic_Preview a e c : secured (snapshot_logic_Preview a e c).
Proof. unfold snapshot_logic_Preview. secured. Qed.
Lemma secured_snapshot_logic_Delete a e s : secured (snapshot_logic_Delete a e s).
Proof. unfold snapshot_logic_Delete. secured. Qed.
Lemma secured_snapshot_logic_Load a e c s : secured (snapshot_logic_Load a e c s).
Proof. unfold snapshot_logic_Load. secured. Qed.
Lemma secured_snapshot_logic_Get a e s : secured (snapshot_logic_Get a e s).
Proof. unfold snapshot_logic_Get. secured. Qed.
Lemma secured_snapshot_logic_Current a e c : secured (snapshot_logic_Current a e c).
Proof. unfold snapshot_logic_Current, FindCurrentForConfig. secured. Qed.
Lemma secured_snapshot_logic_Released a e c : secured (snapshot_logic_Released a e c).
Proof. unfold snapshot_logic_Released, FindReleasedForConfig. secured. Qed.
Lemma secured_snapshot_logic_List a e i : secured (snapshot_logic_List a e i).
Proof. unfold snapshot_logic_List, snapshot_List. secured. Qed.

(** ** Publication *)

Lemma steps_publication request configID : steps progress (
  change ← preparePublication request configID; persistPublication change;; mret change).
Proof. unfold preparePublication, lockResources, lockPublicationSchema. steps. Qed.
Lemma cacheless_publication request configID : cacheless (
  change ← preparePublication request configID; persistPublication change;; mret change).
Proof.
  unfold preparePublication, lockResources, lockPublicationSchema, persistPublication,
    applyPublicationStatus, retireReleasedSnapshot. cacheless.
Qed.
Lemma secured_changePublication request : secured (changePublication request).
Proof.
  unfold changePublication, authorizedSnapshot, cleanup, DeletePublishedConfigVersion.
  apply secured_bind; [secured|intros found]. apply secured_bind; [|secured].
  apply secured_TX; [apply steps_publication|apply cacheless_publication].
Qed.

(** ** The runtime read *)

Lemma foreign_content p k v : foreign (contentCacheKey p k v).
Proof. apply content_not_permission. Qed.
Lemma confined_readConfig p k : confined foreign (readConfig p k).
Proof.
  pose proof (quiet_FindRuntimeConfig p k). pose proof quiet_releasedContent.
  rewrite readConfig_eq. confined. apply confined_set, foreign_content.
Qed.
Lemma secured_MarkUsed k t : secured (MarkUsed k t).
Proof.
  apply secured_moves; [|unfold MarkUsed; confined].
  unfold MarkUsed. runs. apply progress_used_stamp.
Qed.
Lemma quiet_auth r : quiet (authenticate r).
Proof.
  unfold authenticate, unauthenticated_if_missing, LockRuntimeCredential, FindRuntimeProject.
  quiet.
Qed.
Lemma secured_Read c p k : secured (Read c p k).
Proof.
  pose proof secured_MarkUsed. unfold Read. destruct (credential_PublicID c) as [pub|e];
    [|secured]. apply secured_bind; [|secured]. apply secured_reads.
  - apply reads_TX, reads_bind; [apply reads_quiet, quiet_auth|]. intros. apply reads_readConfig.
  - apply confined_TX, confined_bind; [|intros; apply confined_readConfig].
    apply confined_cacheless, cacheless_quiet, quiet_auth.
Qed.
End handlers.
