(* ===== verification/Server.v ===== *)
(** The server as a transition system: the operations of the logic layer on
    configurations, structures, enums, snapshots and publications, on accounts,
    roles, members, environments, projects, keys and sessions, imports, the
    access check of uploads, the request limits and the runtime read, in any order, with any arguments and
    any failures; and the invariants of its runs. *)

From S2P Require Import Prelude GoStd GoStrings Util Proto Codec Schema Engine Model Cache Convert World WorldLaws RepoScope Permission Password Jwt Credential RepoConfig RepoChild RepoSnapshot RepoProject RepoIdentity RepoSession LogicAuth RepoLaws LogicBase LogicIdentity LogicProject Middleware LogicPublish LogicConfig LogicSnapshot LogicTransfer LogicDefinition Service Assets PublishLaws PublishSpec Evolution Coherence PermissionSpec Handlers Ledger Secure HandlersAccess HandlersTransfer.

Local Open Scope Z_scope.

Section server.
Context {E : Engine} {EL : EngineLaws E} `{Collation} {St : Store} {SL : StoreLaws St}
  `{Protojson} `{MapOrder} `{Pepper} `{Argon2} `{JWTLib} `{SHA256} `{UnicodeLower}
  {Au : Authorizer} {AL : AuthorizerLaws Au} {PC : PermissionCache} {PL : PermissionCacheLaws PC}
  {SA : SecureAuthorizer Au} `{Deployment}.

(** ** The check before an upload *)

Lemma quiet_actor p h : quiet (ActorFromContext p h).
Proof. unfold ActorFromContext. quiet. Qed.
Lemma reads_requireAccess ctx e p : reads (requireAccess ctx e p).
Proof.
  unfold requireAccess, HasEnvironmentPermission, ProjectExists, project_FindByID.
  pose proof (quiet_actor (cx_principal ctx) (Some (cx_request_id ctx))) as Ha%reads_quiet.
  pose proof check_reads as Hc. apply reads_bind; [apply reads_handle, reads_bind; [done|]|].
  - intros a. apply reads_bind; [apply reads_attempt; apply Hc|]. intros [x|e0]; [reads|]. case_match; reads.
  - intros b. reads. 
Qed.
Lemma confined_requireAccess ctx e p : confined permission_key (requireAccess ctx e p).
Proof.
  unfold requireAccess, HasEnvironmentPermission, ProjectExists, project_FindByID.
  assert (confined permission_key (ActorFromContext (cx_principal ctx) (Some (cx_request_id ctx)))) as Ha
    by apply confined_cacheless, cacheless_quiet, quiet_actor.
  apply confined_bind; [apply confined_handle, confined_bind; [done|intros a]|intros b; confined].
  apply confined_bind; [apply confined_attempt, check_confined|]. intros [x|x]; [confined|]. case_match; confined.
Qed.
Lemma secured_requireAccess ctx e p : secured (requireAccess ctx e p).
Proof.
  unfold requireAccess. apply secured_bind.
  - apply secured_handle. unfold HasEnvironmentPermission. apply secured_bind; [apply secured_quiet, quiet_actor|].
    intros a. apply secured_bind; [apply secured_attempt, check_secured|]. intros x. apply secured_quiet.
    case_match; [quiet|]. case_match; quiet.
  - intros b. apply secured_quiet. unfold ProjectExists, project_FindByID. quiet.
Qed.

(** An operation of the administration interface. *)
Inductive handler : ∀ {A}, M A → Prop :=
  | serve_config_Create a e i : handler (config_logic_Create a e i)
  | serve_config_Update a e i : handler (config_logic_Update a e i)
  | serve_config_UpdateValue a e i : handler (config_logic_UpdateValue a e i)
  | serve_config_Delete a e c : handler (config_logic_Delete a e c)
  | serve_config_List a e f : handler (config_logic_List a e f)
  | serve_config_Detail a e c : handler (config_logic_Detail a e c)
  | serve_structure_Create a e i : handler (structure_logic_Create a e i)
  | serve_structure_Update a e i : handler (structure_logic_Update a e i)
  | serve_structure_Delete a e k : handler (structure_logic_Delete a e k)
  | serve_structure_List a e i : handler (structure_logic_List a e i)
  | serve_enum_Create a e i : handler (enum_logic_Create a e i)
  | serve_enum_Update a e i : handler (enum_logic_Update a e i)
  | serve_enum_Delete a e k : handler (enum_logic_Delete a e k)
  | serve_enum_List a e p c : handler (enum_logic_List a e p c)
  | serve_snapshot_Create a e i : handler (snapshot_logic_Create a e i)
  | serve_snapshot_Preview a e c : handler (snapshot_logic_Preview a e c)
  | serve_snapshot_Delete a e s : handler (snapshot_logic_Delete a e s)
  | serve_snapshot_Load a e c s : handler (snapshot_logic_Load a e c s)
  | serve_snapshot_Get a e s : handler (snapshot_logic_Get a e s)
  | serve_snapshot_Current a e c : handler (snapshot_logic_Current a e c)
  | serve_snapshot_Released a e c : handler (snapshot_logic_Released a e c)
  | serve_snapshot_List a e i : handler (snapshot_logic_List a e i)
  | serve_Publish a e s v : handler (Publish a e s v)
  | serve_Unpublish a e s v : handler (Unpublish a e s v)
  | serve_Export a e k : handler (Export a e k)
  | serve_Import a i : handler (Import a i)
  | serve_user_List a : handler (user_logic_List a)
  | serve_user_Create a i : handler (user_logic_Create (passwords auth_logic) a i)
  | serve_user_Update a i : handler (user_logic_Update a i)
  | serve_user_UpdatePassword a u p :
      handler (user_logic_UpdatePassword (passwords auth_logic) a u p)
  | serve_user_UpdateStatus a u b v : handler (user_logic_UpdateStatus a u b v)
  | serve_role_List : handler role_logic_List
  | serve_role_Create a r : handler (role_logic_Create a r)
  | serve_role_Update a k u : handler (role_logic_Update a k u)
  | serve_role_Delete a k : handler (role_logic_Delete a k)
  | serve_role_ListPermissions a : handler (role_logic_ListPermissions a)
  | serve_role_UpdatePermissions a k l : handler (role_logic_UpdatePermissions a k l)
  | serve_environment_List a : handler (environment_logic_List a)
  | serve_environment_Create a v : handler (environment_logic_Create a v)
  | serve_environment_Update a e u : handler (environment_logic_Update a e u)
  | serve_environment_Permissions a e : handler (environment_logic_Permissions a e)
  | serve_environment_ListMembers a e : handler (environment_logic_ListMembers a e)
  | serve_UpdateMemberRoles a e u l : handler (UpdateMemberRoles a e u l)
  | serve_project_Create a e p : handler (project_logic_Create a e p)
  | serve_project_Update a k u : handler (project_logic_Update a k u)
  | serve_project_List like a e k : handler (project_logic_List like a e k)
  | serve_project_Detail a e p : handler (project_logic_Detail a e p)
  | serve_key_List a e p : handler (key_logic_List a e p)
  | serve_key_Create a e p n : handler (key_logic_Create a e p n)
  | serve_key_Rotate a e p k : handler (key_logic_Rotate a e p k)
  | serve_key_Revoke a e p k : handler (key_logic_Revoke a e p k)
  | serve_Login n p ip : handler (Login auth_logic n p ip)
  | serve_Refresh r : handler (Refresh auth_logic r)
  | serve_Logout r : handler (Logout r)
  | serve_Me u : handler (Me u)
  | serve_GetSetupStatus : handler GetSetupStatus
  | serve_CreateInitialAdmin n d p : handler (CreateInitialAdmin (passwords auth_logic) n d p)
  | serve_saveAdministrator n d h : handler (saveAdministrator n d h)
  | serve_limit n k t s : handler (FixedWindowRateLimit n k t s)
  | serve_authentication t : handler (AdminAuth (tokens auth_logic) t)
  | serve_asset_access ctx e p : handler (requireAccess ctx e p).

(** One step: an operation runs to its end, succeeding or failing; a client
    reads; or time passes, which may schedule failures and evict entries. *)
Inductive step (w w' : World) : Prop :=
  | step_handler {A} (m : M A) r : handler m → m w = (r, w') → step w w'
  | step_read c p k r : Read c p k w = (r, w') → step w w'
  | step_idle : db w' = db w → (∀ k v, holds (cache w') k v → holds (cache w) k v) →
      step w w'.

(** The integrity of one database state. *)
Definition Integrity (d : DB) : Prop := Good d ∧ current_where anywhere d.

Lemma sound_integrity d d' : sound d d' → Integrity d → Integrity d' ∧ evolves d d'.
Proof. intros Hs [HG Hc]. destruct (Hs HG Hc) as (? & ? & ?). by split. Qed.

Lemma handler_core {A} (m : M A) : handler m → moves sound m ∨ moves same_core m.
Proof.
  intros []; try by (left; eauto using moves_config_Create, moves_config_Update,
    moves_config_UpdateValue, moves_config_Delete, moves_structure_Create,
    moves_structure_Update, moves_structure_Delete, moves_enum_Create, moves_enum_Update,
    moves_enum_Delete, moves_snapshot_Create, moves_snapshot_Preview, moves_snapshot_Delete,
    moves_snapshot_Load, moves_Publish, moves_Unpublish, moves_Import).
  all: right; try solve [eauto using
    core_user_logic_List, core_user_logic_Create, core_user_logic_Update,
    core_user_logic_UpdatePassword, core_user_logic_UpdateStatus, core_role_logic_List,
    core_role_logic_Create, core_role_logic_Update, core_role_logic_Delete,
    core_role_logic_ListPermissions, core_role_logic_UpdatePermissions,
    core_environment_logic_List, core_environment_logic_Create,
    core_environment_logic_Update, core_environment_logic_Permissions,
    core_environment_logic_ListMembers, core_UpdateMemberRoles,
    core_project_logic_Create, core_project_logic_Update, core_project_logic_List,
    core_project_logic_Detail, core_key_logic_List, core_key_logic_Create,
    core_key_logic_Rotate, core_key_logic_Revoke, core_Login, core_Refresh, core_Logout,
    core_Me, core_GetSetupStatus, core_CreateInitialAdmin, core_saveAdministrator,
    core_FixedWindowRateLimit].
  all: apply moves_reads; [typeclasses eauto|].
  - apply reads_config_List.
  - apply reads_config_Detail.
  - apply reads_structure_List.
  - apply reads_enum_List.
  - apply reads_snapshot_Get.
  - apply reads_snapshot_Current.
  - apply reads_snapshot_Released.
  - apply reads_snapshot_List.
  - apply reads_Export.
  - apply reads_quiet, quiet_AdminAuth.
  - apply reads_requireAccess.
Qed.
Lemma handler_sound {A} (m : M A) : handler m → moves sound m.
Proof. intros [?|?]%handler_core; [done|by apply moves_core]. Qed.

Lemma handler_confined {A} (m : M A) : handler m → confined administrative m.
Proof.
  intros []; try solve [eapply (confined_weaken permission_key); [by left|eauto using
    confined_config_Create, confined_config_Update,
    confined_config_UpdateValue, confined_config_Delete, confined_config_List,
    confined_config_Detail, confined_structure_Create, confined_structure_Update,
    confined_structure_Delete, confined_structure_List, confined_enum_Create,
    confined_enum_Update, confined_enum_Delete, confined_enum_List, confined_snapshot_Create,
    confined_snapshot_Preview, confined_snapshot_Delete, confined_snapshot_Load,
    confined_snapshot_Get, confined_snapshot_Current, confined_snapshot_Released,
    confined_snapshot_List, confined_changePublication, confined_requireAccess]].
  all: try solve [eauto using confined_Export, confined_Import,
    confined_user_logic_List, confined_user_logic_Create, confined_user_logic_Update,
    confined_user_logic_UpdatePassword, confined_user_logic_UpdateStatus,
    confined_role_logic_List, confined_role_logic_Create, confined_role_logic_Update,
    confined_role_logic_Delete, confined_role_logic_ListPermissions,
    confined_role_logic_UpdatePermissions, confined_environment_logic_List,
    confined_environment_logic_Create, confined_environment_logic_Update,
    confined_environment_logic_Permissions, confined_environment_logic_ListMembers,
    confined_UpdateMemberRoles, confined_project_logic_Create,
    confined_project_logic_Update, confined_project_logic_List,
    confined_project_logic_Detail, confined_key_logic_List, confined_key_logic_Create,
    confined_key_logic_Rotate, confined_key_logic_Revoke, confined_Login,
    confined_Refresh, confined_Logout, confined_Me, confined_GetSetupStatus,
    confined_CreateInitialAdmin, confined_saveAdministrator,
    confined_FixedWindowRateLimit].
  apply confined_cacheless, cacheless_quiet, quiet_AdminAuth.
Qed.

Lemma handler_secured {A} (m : M A) : handler m → secured m.
Proof.
  intros []; try solve [eauto using secured_config_logic_Create, secured_config_logic_Update,
    secured_config_logic_UpdateValue, secured_config_logic_Delete, secured_config_logic_List,
    secured_config_logic_Detail, secured_structure_logic_Create,
    secured_structure_logic_Update, secured_structure_logic_Delete,
    secured_structure_logic_List, secured_enum_logic_Create, secured_enum_logic_Update,
    secured_enum_logic_Delete, secured_enum_logic_List, secured_snapshot_logic_Create,
    secured_snapshot_logic_Preview, secured_snapshot_logic_Delete,
    secured_snapshot_logic_Load, secured_snapshot_logic_Get, secured_snapshot_logic_Current,
    secured_snapshot_logic_Released, secured_snapshot_logic_List, secured_changePublication,
    secured_Export, secured_Import,
    secured_user_logic_List, secured_user_logic_Create, secured_user_logic_Update,
    secured_user_logic_UpdatePassword, secured_user_logic_UpdateStatus,
    secured_role_logic_List, secured_role_logic_Create, secured_role_logic_Update,
    secured_role_logic_Delete, secured_role_logic_ListPermissions,
    secured_role_logic_UpdatePermissions, secured_environment_logic_List,
    secured_environment_logic_Create, secured_environment_logic_Update,
    secured_environment_logic_Permissions, secured_environment_logic_ListMembers,
    secured_UpdateMemberRoles, secured_project_logic_Create,
    secured_project_logic_Update, secured_project_logic_List,
    secured_project_logic_Detail, secured_key_logic_List, secured_key_logic_Create,
    secured_key_logic_Rotate, secured_key_logic_Revoke, secured_Login, secured_Refresh,
    secured_Logout, secured_Me, secured_GetSetupStatus, secured_CreateInitialAdmin,
    secured_saveAdministrator, secured_FixedWindowRateLimit, secured_requireAccess].
  all: first [apply secured_changePublication|apply secured_quiet, quiet_AdminAuth].
Qed.

(** ** Reading *)

Lemma reads_read_TX r : reads (TX (project ← authenticate r;
  readConfig (project_id project) (rd_configKey r))).
Proof.
  apply reads_TX, reads_bind; [apply reads_quiet, quiet_auth|].
  intros. apply reads_readConfig.
Qed.
Lemma steps_MarkUsed k t : steps same_core (MarkUsed k t).
Proof. unfold MarkUsed. steps. done. Qed.

Lemma MarkUsed_core k t w r w' : MarkUsed k t w = (r, w') →
  same_core (db w) (db w') ∧ cache w' = cache w.
Proof.
  intros Hr. split.
  2:{ eapply (cacheless_bind (wrapped _)); [|intros ?|exact Hr]; cacheless. }
  unfold MarkUsed, wrapped, handle, mbind, M_bind in Hr.
  destruct (exec_update _ _ _ w) as [x w1] eqn:Hx.
  assert (same_core (db w) (db w1)); [|destruct x; injection Hr as <- <-; done].
  unfold exec_update, statement in Hx. destruct (next_fault w) as [f w0] eqn:Hf.
  apply next_fault_store in Hf as [Hd _].
  destruct (update _ _ _) as [[n tb]|]; destruct f as [[e []]|]; injection Hx as <- <-;
    simpl; rewrite <-Hd; done.
Qed.

Lemma Read_core c p k w r w' : Read c p k w = (r, w') → same_core (db w) (db w').
Proof.
  unfold Read. destruct (credential_PublicID c) as [pub|e]; [|by intros [= <- <-]].
  unfold mbind at 1, M_bind.
  match goal with |- context [TX ?op w] => destruct (TX op w) as [[x|e] w1] eqn:Htx end;
    pose proof (reads_run _ _ _ _ (reads_read_TX _) Htx) as Hd1;
    [|intros [= <- <-]; by rewrite Hd1].
  unfold mbind at 1, M_bind. destruct (now w1) as [[t|e] w2] eqn:Ht; [|done].
  injection Ht as _ <-. unfold mbind, M_bind.
  destruct (MarkUsed pub t _) as [[u|e] w3] eqn:Hm; apply MarkUsed_core in Hm as [Hm _];
    intros [= <- <-]; by rewrite <-Hd1.
Qed.

Lemma coherent_TX {A} (op : M A) w r w' :
  reads op → (∀ v x v', op v = (x, v') → Coherent v → Coherent v') →
  TX op w = (r, w') → Coherent w → Coherent w'.
Proof.
  intros Hreads Hop Hr Hco.
  pose proof (reads_TX _ Hreads _ _ _ Hr) as Hd.
  unfold TX in Hr. destruct (next_fault w) as [[x|] w0] eqn:Hf;
    apply next_fault_store in Hf as [Hd0 Hc0];
    [injection Hr as <- <-; by eapply coherent_same|].
  apply (coherent_same w w0) in Hco; [|done..].
  destruct (op w0) as [[a|e] w1] eqn:Hx; pose proof (Hop _ _ _ Hx Hco) as Hco1;
    pose proof (Hreads _ _ _ Hx) as Hd1.
  - destruct (next_fault w1) as [[x|] w2] eqn:Hf2; apply next_fault_store in Hf2 as [Hd2 Hc2];
      [destruct (applied x)|]; injection Hr as <- <-;
      (eapply coherent_same; [| |exact Hco1]); simpl in *; congruence.
  - injection Hr as <- <-. eapply coherent_same; [| |exact Hco1]; simpl in *; congruence.
Qed.

Lemma Read_coherent c p k w r w' : Read c p k w = (r, w') → Coherent w → Coherent w'.
Proof.
  unfold Read. destruct (credential_PublicID c) as [pub|e]; [|by intros [= <- <-]].
  intros Hr Hco. unfold mbind at 1, M_bind in Hr.
  match type of Hr with context [TX ?op w] => destruct (TX op w) as [x w1] eqn:Htx end.
  eapply coherent_TX in Htx; [| | |exact Hco].
  - destruct x as [x|e]; [|by injection Hr as <- <-].
    unfold mbind at 1, M_bind in Hr. destruct (now w1) as [[t|e] w2] eqn:Ht; [|done].
    assert (same_store w1 w2) as [Hd2 Hc2] by by injection Ht as _ <-.
    apply (coherent_same w1 w2) in Htx; [|done..]. unfold mbind, M_bind in Hr.
    destruct (MarkUsed pub t _) as [[u|e] w3] eqn:Hm; apply MarkUsed_core in Hm as [Hm Hc];
      injection Hr as <- <-; (eapply coherent_step; [by apply evolves_same_core| |exact Htx]);
      intros i y; rewrite Hc; by left.
  - apply reads_bind; [apply reads_quiet, quiet_auth|]. intros. apply reads_readConfig.
  - intros v y v' Hv Hcv. unfold mbind, M_bind in Hv.
    destruct (authenticate _ v) as [[q|e] v1] eqn:Ha;
      pose proof (quiet_run _ _ _ _ (quiet_auth _) Ha) as [Hd Hc];
      (apply (coherent_same v v1) in Hcv; [|done..]); [|by injection Hv as <- <-].
    by eapply coherent_readConfig.
Qed.

(** ** Steps *)

Lemma step_sound w w' : step w w' → Integrity (db w) →
  Integrity (db w') ∧ evolves (db w) (db w').
Proof.
  intros [A m r Hm Hr|c p k r Hr|Hd _] HI.
  - apply handler_sound in Hm. apply (sound_integrity _ _ (Hm _ _ _ Hr) HI).
  - apply Read_core in Hr. by apply (sound_integrity _ _ (sound_same_core _ _ _ Hr)).
  - by rewrite Hd.
Qed.

Lemma steps_sound_rtc w w' : rtc step w w' → Integrity (db w) →
  Integrity (db w') ∧ evolves (db w) (db w').
Proof.
  induction 1 as [w|w1 w2 w3 Hst _ IH]; [done|]. intros HI.
  apply step_sound in Hst as [HI2 Hev]; [|done]. destruct (IH HI2) as [? ?].
  split; [done|by etrans].
Qed.

Lemma step_coherent w w' : step w w' → Integrity (db w) → Coherent w → Coherent w'.
Proof.
  intros Hstep HI Hco. pose proof (step_sound _ _ Hstep HI) as [_ Hev].
  destruct Hstep as [A m r Hm Hr|c p k r Hr|Hd Hc].
  - eapply coherent_step; [exact Hev| |exact Hco].
    intros k v. by apply (handler_confined _ Hm _ _ _ Hr).
  - by eapply Read_coherent.
  - eapply coherent_step; [exact Hev| |exact Hco]. intros k v Hv. left. by apply Hc.
Qed.

Lemma steps_coherent w w' : rtc step w w' → Integrity (db w) → Coherent w → Coherent w'.
Proof.
  induction 1 as [w|w1 w2 w3 Hst _ IH]; [done|]. intros HI Hco.
  pose proof (step_sound _ _ Hst HI) as [HI2 _]. by apply IH; [|by eapply step_coherent].
Qed.

Lemma step_secure w w' : step w w' → Secure w → Secure w' ∧ later (db w) (db w').
Proof.
  intros [A m r Hm Hr|c p k r Hr|Hd Hc] HS.
  - by eapply handler_secured.
  - by eapply secured_Read.
  - rewrite Hd. split; [|done]. eapply secure_later; [done| |by rewrite Hd|];
      [rewrite Hd; apply HS|]. intros u e v x. apply Hc.
Qed.

Lemma steps_secure w w' : rtc step w w' → Secure w → Secure w' ∧ later (db w) (db w').
Proof.
  induction 1 as [w|w1 w2 w3 Hst _ IH]; [done|]. intros HS.
  apply step_secure in Hst as [HS2 ?]; [|done]. destruct (IH HS2) as [? ?].
  split; [done|by etrans].
Qed.
End server.
