(* ===== verification/ServerSpec.v ===== *)
(** Properties of the server on configurations and publications: what holds of
    every state it reaches, and what its clients read. *)

From S2P Require Import Prelude GoStd GoStrings Util Proto Codec Schema Engine Model Cache Convert World WorldLaws RepoScope Permission Password Jwt Credential RepoConfig RepoChild RepoSnapshot RepoProject RepoIdentity RepoSession LogicAuth RepoLaws LogicBase LogicIdentity LogicProject Middleware LogicPublish LogicConfig LogicSnapshot LogicTransfer LogicDefinition PublishLaws PublishSpec Evolution Coherence PermissionSpec Handlers Ledger Secure HandlersAccess HandlersTransfer Server SchemaSpec SampleWorld.

Local Open Scope Z_scope.

Section server.
Context {E : Engine} {EL : EngineLaws E} `{Collation} {St : Store} {SL : StoreLaws St}
  `{Protojson} `{MapOrder} `{Pepper} `{Argon2} `{JWTLib} `{SHA256} `{UnicodeLower}
  {Au : Authorizer} {AL : AuthorizerLaws Au} {PC : PermissionCache} {PL : PermissionCacheLaws PC}
  {SA : SecureAuthorizer Au} `{Deployment}.
(** C1: whatever operations the server runs, in whatever order, with whatever
    arguments and failures, its database keeps its integrity: a live snapshot
    belongs to a live configuration of the same project, a configuration has at
    most one released and at most one current snapshot, and exactly one current
    one as soon as it has snapshots; configuration keys stay unique in a
    project; runtime generations stay in the range of a 64-bit integer, and only
    a configuration with snapshots has a positive one. *)
Theorem server_integrity w w' :
  rtc step w w' → Integrity (db w) → Integrity (db w').
Proof. intros Hs HI. by apply steps_sound_rtc in Hs as [? _]. Qed.

(** C27: a stored snapshot is immutable: however the server goes on, its row is
    still there, with the same project, configuration, key, description,
    content, tags and author; its version never decreases, and a deleted
    snapshot never comes back. *)
Theorem snapshots_immutable w w' k s :
  rtc step w w' → Integrity (db w) → srows (db w) !! k = Some s →
  ∃ s', srows (db w') !! k = Some s' ∧ same_document s s'.
Proof. intros Hs HI. apply steps_sound_rtc in Hs as [_ Hev]; [|done]. apply (ev_snapshots _ _ Hev). Qed.

(** C28: a runtime generation identifies what a configuration serves: at any two
    moments at which a configuration has the same generation it has released the
    same content (or nothing at both), and the generation never decreases. *)
Theorem generation_determines_content w w' cid c :
  rtc step w w' → Integrity (db w) → crows (db w) !! cid = Some c →
  ∃ c', crows (db w') !! cid = Some c' ∧ cfg_RuntimeVersion c ≤ cfg_RuntimeVersion c' ∧
    (cfg_RuntimeVersion c' = cfg_RuntimeVersion c →
     ∀ content, serves (db w') cid content ↔ serves (db w) cid content).
Proof.
  intros Hs HI Hc. apply steps_sound_rtc in Hs as [_ Hev]; [|done].
  destruct (ev_configs _ _ Hev _ _ Hc) as (c' & Hc' & [_ _ Hr] & Hserves). eauto.
Qed.

(** A configuration that has a snapshot is permanent: whatever the server
    does next, it keeps a live snapshot, and the configuration is still there
    and live, under the same project and key. *)
Theorem used_config_survives w w' cid :
  rtc step w w' → Integrity (db w) → used (db w) cid →
  used (db w') cid ∧
  ∃ c c', crows (db w) !! cid = Some c ∧ crows (db w') !! cid = Some c' ∧
    live (cfg_meta c') = true ∧ cfg_ProjectID c' = cfg_ProjectID c ∧ cfg_Key c' = cfg_Key c.
Proof.
  intros Hs HI Hu. pose proof HI as [HG _]. apply steps_sound_rtc in Hs as [[HG' _] Hev]; [|done].
  pose proof (ev_used _ _ Hev _ Hu) as Hu'. split; [done|].
  destruct Hu as (k & s & Hs & Hl & <-), Hu' as (k' & s' & Hs' & Hl' & Heq).
  destruct (inv_owner (good_inv _ HG) _ _ Hs Hl) as (c & Hc & _).
  destruct (inv_owner (good_inv _ HG') _ _ Hs' Hl') as (c' & Hc' & Hcl & _).
  rewrite Heq in Hc'. exists c, c'. destruct (ev_configs _ _ Hev _ _ Hc) as (c'' & Hc'' & [] & _).
  rewrite Hc' in Hc''. injection Hc'' as <-. done.
Qed.

(** What an authentic credential proves. *)
Definition authentic (d : DB) (credential projectKey : string) (p : ProjectRow) : Prop :=
  ∃ publicID k, credential_PublicID credential = Ok publicID ∧
    rows (project_api_keys d) !! row_id k = Some k ∧ key_PublicID k = publicID ∧
    key_RevokedAt k = None ∧
    Verify credential (key_PublicID k) (key_SecretHash k) = true ∧
    rows (projects d) !! key_ProjectID k = Some p ∧ live (prj_meta p) = true ∧
    prj_Key p = projectKey ∧
    ∃ e, rows (environments d) !! row_id e = Some e ∧ env_ProjectID e = project_id p ∧
         env_Enabled e = true ∧ live (env_meta e) = true.

Lemma run_authenticate r p w w' : authenticate r w = (Ok p, w') →
  credential_PublicID (rd_fullCredential r) = Ok (rd_publicID r) →
  authentic (db w) (rd_fullCredential r) (rd_projectKey r) p ∧ same_store w w'.
Proof.
  intros Hr Hpub. split; [|by eapply quiet_run; [apply quiet_auth|]].
  unfold authenticate, unauthenticated_if_missing, LockRuntimeCredential, FindRuntimeProject in Hr.
  inv_run.
  repeat match goal with Hx : get _ _ = _ |- _ =>
    let Q := fresh "Q" in let D := fresh "D" in apply run_get in Hx as [Q [D ?]]; symmetry in Q;
    rewrite ?D in * end.
  repeat match goal with Hx : head (select _ _) = Some _ |- _ => apply head_select in Hx as [? ?] end.
  bool_hyps.
  match goal with k : ProjectAPIKeyRow |- _ => exists (rd_publicID r), k end.
  split_and!; try done.
  - by apply eq_None_not_Some.
  - match goal with Hx : project_id p = _ |- _ => by rewrite <-Hx end.
  - match goal with Hx : select _ (environments _) ≠ [] |- _ =>
      destruct (select _ (environments _)) as [|e l] eqn:He; [done|] end.
    exists e. assert (e ∈ e :: l) as Hin by by left. rewrite <-He in Hin.
    apply select_spec in Hin as [? ?]. bool_hyps. done.
Qed.

Lemma run_Read credential projectKey configKey res w w' :
  Integrity (db w) → Coherent w → Read credential projectKey configKey w = (Ok res, w') →
  ∃ p cid c, authentic (db w) credential projectKey p ∧
    crows (db w) !! cid = Some c ∧ live (cfg_meta c) = true ∧
    cfg_ProjectID c = project_id p ∧ text_eq (cfg_Key c) configKey = true ∧
    rr_Version res = cfg_RuntimeVersion c ∧
    released_value (db w) cid c (rr_Content res).
Proof.
  intros [HG _] Hcw Hr.
  unfold Read in Hr. destruct (credential_PublicID credential) as [pub|e] eqn:Hpub;
    [|by apply run_throw in Hr].
  apply run_bind in Hr as (x & w1 & Htx & Hr). inv_run.
  apply TX_Ok in Htx as (wa & wb & Ha & Hop & _).
  apply run_bind in Hop as (p & wc & Hauth & Hread).
  apply run_authenticate in Hauth as [Hacc Hc]; [|done]. simpl in *.
  pose proof (same_store_trans _ _ _ Ha Hc) as [Hdb Hcache].
  apply readConfig_correct in Hread as (cid & c & Hc' & ? & ? & ? & ? & Hval);
    [|by rewrite Hdb|by apply (coherent_same w)].
  rewrite Hdb in Hc', Hval. destruct Ha as [Hda _]. rewrite Hda in Hacc.
  exists p, cid, c. done.
Qed.

(** C2: a client that reads with an API key gets exactly what is released.  In
    every state the server reaches, a read that succeeds was made with a
    credential whose key is stored, not revoked and verified against the stored
    digest, for a live project with an enabled environment and the requested
    key; and it returns the generation of the project's live configuration of
    the requested key and the value in its released snapshot, whether the value
    came from the cache or from the database. *)
Theorem Read_correct w0 w credential projectKey configKey res w' :
  rtc step w0 w → Integrity (db w0) → Coherent w0 →
  Read credential projectKey configKey w = (Ok res, w') →
  ∃ p cid c, authentic (db w) credential projectKey p ∧
    crows (db w) !! cid = Some c ∧ live (cfg_meta c) = true ∧
    cfg_ProjectID c = project_id p ∧ text_eq (cfg_Key c) configKey = true ∧
    rr_Version res = cfg_RuntimeVersion c ∧
    released_value (db w) cid c (rr_Content res).
Proof.
  intros Hs HI Hco. apply run_Read; [by eapply steps_sound_rtc|by eapply steps_coherent].
Qed.

(** The configuration [cid] is the one the two keys of a read name: nothing else
    in a project of that key has that key.  The unique indexes of both tables see
    to it. *)
Definition named (d : DB) (projectKey configKey : string) (cid : Z) : Prop :=
  ∀ p k c, rows (projects d) !! project_id p = Some p → prj_Key p = projectKey →
    crows d !! k = Some c → cfg_ProjectID c = project_id p →
    text_eq (cfg_Key c) configKey = true → k = cid.

(** C14: publication takes effect at once: a read that follows a successful
    publish, with the keys of the project and of the configuration that was
    published, returns the value of the published snapshot and the generation
    after the one before the publication, whatever the cache held and even when
    its clean-up failed. *)
Theorem publish_then_read w0 w actor environmentID snapshotID version s w1
    credential projectKey configKey res w2 :
  rtc step w0 w → Integrity (db w0) → Coherent w0 →
  Publish actor environmentID snapshotID version w = (Ok s, w1) →
  named (db w1) projectKey configKey (snp_ConfigID s) →
  Read credential projectKey configKey w1 = (Ok res, w2) →
  ∃ old c, crows (db w) !! snp_ConfigID s = Some old ∧
    crows (db w1) !! snp_ConfigID s = Some c ∧
    rr_Version res = cfg_RuntimeVersion c ∧
    cfg_RuntimeVersion c = cfg_RuntimeVersion old + 1 ∧
    value_in (snp_ConfigID s) (cfg_ProjectID c) (cfg_Key c) (snp_Content s) (rr_Content res).
Proof.
  intros Hs HI Hco Hp Hnm Hr. pose proof (steps_coherent _ _ Hs HI Hco) as Hcw.
  apply steps_sound_rtc in Hs as [HIw _]; [|done].
  assert (step w w1) as Hst by (eapply step_handler; [apply serve_Publish|exact Hp]).
  pose proof (step_coherent _ _ Hst HIw Hcw) as Hco1.
  pose proof (step_sound _ _ Hst HIw) as [HI1 _]. pose proof HIw as [HGw _].
  destruct (run_Read _ _ _ _ _ _ HI1 Hco1 Hr)
    as (p & cid & c & Hauth & Hc & _ & Hpr & Hk & Hv & Hval).
  assert (cid = snp_ConfigID s) as ->.
  { destruct Hauth as (pub & key & _ & _ & _ & _ & _ & Hrow & _ & Hpk & _).
    pose proof (rows_id _ _ _ Hrow) as Hid. simpl in Hid. rewrite <-Hid in Hrow. by eapply Hnm. }
  apply changePublication_effect in Hp as (cfg & target & at_ & Hp & ->);
    [|apply HGw|by right].
  destruct (publication_runtime _ _ _ _ _ _ Hp) as (c2 & Hc2 & Hrt & _). simpl in *.
  rewrite Hc in Hc2. injection Hc2 as <-. exists cfg, c.
  split_and!; [apply (pub_config _ _ _ _ _ _ Hp)|done..|].
  destruct Hval as (content & (k & y & Hy & Hrel & Hyc & <-) & Hval).
  assert (k = snapshotID) as ->.
  { pose proof (config_key _ _ _ (pub_config _ _ _ _ _ _ Hp)) as Hid.
    eapply publication_released in Hp; [|by right|apply HGw].
    apply Hp. exists y. rewrite Hid. done. }
  pose proof (publication_stored _ _ _ _ _ _ cfg Hp (or_intror eq_refl)) as Hst'.
  simpl in Hst'. rewrite Hy in Hst'. injection Hst' as ->. exact Hval.
Qed.

(** ** A reader among other requests *)

(** Any number of steps of the server. *)
Definition interference (m : M unit) : Prop := ∀ w r w',
  m w = (r, w') → r = Ok tt ∧ rtc step w w'.

(** The configuration [c] is still there, and if its generation is the same it
    has released [x]. *)
Definition still (d : DB) (cid : Z) (c : ConfigRow) (x : string) : Prop :=
  ∃ c', crows d !! cid = Some c' ∧ later_config c c' ∧
    (cfg_RuntimeVersion c' = cfg_RuntimeVersion c → released_value d cid c' x).
Lemma still_evolves d d' cid c x : evolves d d' → still d cid c x → still d' cid c x.
Proof.
  intros Hev (c1 & Hc1 & [Hp1 Hk1 Hr1] & Hv). destruct (ev_configs _ _ Hev _ _ Hc1)
    as (c2 & Hc2 & [Hp2 Hk2 Hr2] & Hs2).
  exists c2. split; [done|]. split; [split; congruence || lia|]. intros Heq.
  destruct Hv as (content & Hs & Hval); [lia|]. exists content. rewrite Hp2, Hk2.
  split; [|done]. apply Hs2; [lia|done].
Qed.

Lemma interference_run m w r w' : interference m → m w = (r, w') → Integrity (db w) → Coherent w →
  r = Ok tt ∧ Integrity (db w') ∧ Coherent w' ∧ evolves (db w) (db w').
Proof.
  intros Hm Hr HI Hco. apply Hm in Hr as [-> Hs]. split; [done|].
  destruct (steps_sound_rtc _ _ Hs HI) as [? ?]. split_and!; [done| |done]. by eapply steps_coherent.
Qed.

(** Storing a value under the generation it was read with. *)
Lemma set_still c x ttl w r w' cid :
  cache_set (contentCacheKey (cfg_ProjectID c) (cfg_Key c) (cfg_RuntimeVersion c)) x ttl w
    = (r, w') →
  still (db w) cid c x → Coherent w → Coherent w' ∧ db w' = db w.
Proof.
  unfold cache_set. destruct (Set_ _ _ _ _ _) as [y st] eqn:Hs. intros [= <- <-].
  intros (c' & Hc' & [Hp Hk Hr] & Hv) Hco. split; [|done]. intros p k v z Hz. simpl in *.
  eapply set_holds in Hz as [Hz|[[-> [-> ->]]%contentCacheKey_inj ->]]; [by apply Hco| |exact Hs].
  exists cid, c'. split_and!; [done..|lia|]. intros ?. by apply Hv.
Qed.
(** What the cache holds under the generation of a row that was read before. *)
Lemma hit_still c x w : Integrity (db w) → Coherent w →
  (∃ c', crows (db w) !! ID (cfg_meta c) = Some c' ∧ later_config c c') →
  holds (cache w) (contentCacheKey (cfg_ProjectID c) (cfg_Key c) (cfg_RuntimeVersion c)) x →
  still (db w) (ID (cfg_meta c)) c x.
Proof.
  intros [HG _] Hco (c1 & Hc1 & Hl) Hh. apply Hco in Hh as (cid & c2 & Hc2 & Hp & Hk & _ & Hv).
  assert (cid = ID (cfg_meta c)) as ->.
  { destruct Hl as [Hp1 Hk1 _]. eapply (good_keys _ HG _ _ c2 c1); congruence. }
  rewrite Hc1 in Hc2. injection Hc2 as <-. exists c1. split_and!; [done..|]. intros Heq. by apply Hv.
Qed.

(** C29: a read that is overtaken by other requests does not spoil the cache.
    Let any steps of the server happen between any two accesses of
    [readConfig] to the database and the cache.  The cache stays coherent,
    whether the reader succeeds or fails; and if it succeeds, its generation is
    that of the requested configuration when the reader found it, and unless the
    configuration has another generation by the time the reader ends, its
    content is what the configuration has released. *)
Theorem slow_reader_coherent others p k w r w' :
  (∀ n, interference (others n)) → Integrity (db w) → Coherent w →
  readConfig_among others p k w = (r, w') →
  Coherent w' ∧ evolves (db w) (db w') ∧
  ∀ res, r = Ok res →
    ∃ cid c, crows (db w) !! cid = Some c ∧ live (cfg_meta c) = true ∧ cfg_ProjectID c = p ∧
      text_eq (cfg_Key c) k = true ∧ rr_Version res = cfg_RuntimeVersion c ∧
      still (db w') cid c (rr_Content res).
Proof.
  intros Hot HI Hco Hr. unfold readConfig_among in Hr. unfold mbind at 1, M_bind in Hr.
  destruct (FindRuntimeConfig p k w) as [[c|e] w1] eqn:Hf;
    pose proof (quiet_run _ _ _ _ (quiet_FindRuntimeConfig p k) Hf) as [Hd1 Hc1];
    apply (coherent_same w w1) in Hco as Hco1; try done;
    [|injection Hr as <- <-; split; [done|]; split; [by rewrite Hd1|done]].
  apply run_FindRuntimeConfig in Hf as (Hc & Hl & <- & Hk & _). rewrite <-Hd1 in HI, Hc |- *.
  pose proof (good_runtime _ (proj1 HI) _ _ Hc) as Hpos.
  unfold mbind at 1, M_bind in Hr. destruct (others 0%nat w1) as [x w2] eqn:Ho0.
  destruct (interference_run _ _ _ _ (Hot _) Ho0 HI Hco1) as (-> & HI2 & Hco2 & Hev2).
  unfold mbind at 1, M_bind in Hr. destruct (lift _ w2) as [[v|e] w2'] eqn:Hv;
    injection Hv as Hv <-; [|by injection Hr as <- <-].
  assert (v = cfg_RuntimeVersion c) as ->.
  { unfold wrap_err in Hv. destruct (Safeint.Uint64FromInt64 _) as [u|eu] eqn:Hu; [injection Hv as ->|discriminate Hv].
    unfold Safeint.Uint64FromInt64 in Hu. destruct (_ <? 0) in Hu; [discriminate Hu|]. injection Hu as <-.
    apply Safeint.uint64_id. unfold Safeint.unsigned, max_int64 in *. lia. }
  cbv zeta in Hr. unfold mbind at 1, M_bind, attempt in Hr.
  destruct (cache_get _ w2) as [got w3] eqn:Hg. pose proof (reads_run _ _ _ _ (reads_cache_get _) Hg) as Hd3.
  pose proof (coherent_get _ _ _ _ Hg Hco2) as Hco3. rewrite <-Hd3 in HI2, Hev2.
  destruct got as [x|e].
  - injection Hr as <- <-. split_and!; [done..|]. intros res [= <-]. exists (ID (cfg_meta c)), c.
    split_and!; try done. cbn [rr_Content]. rewrite Hd3 in *. apply hit_still; [done..| |].
    + destruct (ev_configs _ _ Hev2 _ _ Hc) as (c' & ? & ? & _). eauto.
    + unfold cache_get in Hg. destruct (Get _ _ _) as [y s] eqn:Hy. injection Hg as -> _. by eapply get_holds.
  - destruct (negb _); [by injection Hr as <- <-|].
    unfold mbind at 1, M_bind in Hr. destruct (others 1%nat w3) as [x w4] eqn:Ho1.
    destruct (interference_run _ _ _ _ (Hot _) Ho1 HI2 Hco3) as (-> & HI4 & Hco4 & Hev4).
    pose proof (transitivity Hev2 Hev4) as Hev.
    unfold mbind at 1, M_bind in Hr. destruct (releasedContent c w4) as [[x|e'] w5] eqn:Hrel;
      pose proof (quiet_run _ _ _ _ (quiet_releasedContent c) Hrel) as [Hd5 Hc5];
      apply (coherent_same w4 w5) in Hco4 as Hco5; try done; rewrite <-Hd5 in HI4, Hev;
      [|injection Hr as <- <-; by split].
    apply run_releasedContent in Hrel as [Hval _]. rewrite <-Hd5 in Hval.
    assert (still (db w5) (ID (cfg_meta c)) c x) as Hst.
    { destruct (ev_configs _ _ Hev _ _ Hc) as (c' & Hc' & Hlc & _). exists c'. split_and!; [done..|].
      intros _. destruct Hval as (content & ? & ?), Hlc as [Hp' Hk' _]. exists content. by rewrite Hp', Hk'. }
    unfold mbind at 1, M_bind in Hr. destruct (others 2%nat w5) as [y w6] eqn:Ho2.
    destruct (interference_run _ _ _ _ (Hot _) Ho2 HI4 Hco5) as (-> & HI6 & Hco6 & Hev6).
    apply (still_evolves _ _ _ _ _ Hev6) in Hst. pose proof (transitivity Hev Hev6) as Hev7.
    unfold mbind, M_bind, handle in Hr. destruct (cache_set _ _ _ w6) as [z w7] eqn:Hset.
    apply (set_still _ _ _ _ _ _ (ID (cfg_meta c))) in Hset as [Hco7 Hd7]; [|done..]. rewrite <-Hd7 in Hst, Hev7.
    destruct z as [[]|e']; injection Hr as <- <-; (split_and!; [done..|]); [|done].
    intros res [= <-]. exists (ID (cfg_meta c)), c. split_and!; done.
Qed.
End server.

(** ** The properties at a concrete run *)

Import Sample SampleWorld.

Lemma sample_integrity : Integrity (db world).
Proof.
  assert (srows (E := engine) database =
    {[1 := snapshot 1 SnapshotStatusReleased false;
      2 := snapshot 2 SnapshotStatusUnreleased true]}) as Hs by (vm_compute; reflexivity).
  assert (crows (E := engine) database = {[1 := main]}) as Hc by (vm_compute; reflexivity).
  assert (used (E := engine) database 1) as Hu.
  { exists 1, (snapshot 1 SnapshotStatusReleased false). rewrite Hs. done. }
  change (Integrity database). split; [split|].
  - exact database_inv.
  - intros k1 k2 c1 c2. rewrite Hc.
    intros [<- <-]%lookup_singleton_Some [<- <-]%lookup_singleton_Some. done.
  - intros k c. rewrite Hc. intros [<- <-]%lookup_singleton_Some. done.
  - intros k c. rewrite Hc. intros [<- <-]%lookup_singleton_Some _. exact Hu.
  - intros k s. rewrite Hs. intros Hk _ _. exists 2, (snapshot 2 SnapshotStatusUnreleased true).
    split_and!; [done..|].
    apply lookup_insert_Some in Hk as [[<- <-]|[_ [<- <-]%lookup_singleton_Some]]; done.
Qed.

Lemma sample_coherent : Coherent world.
Proof. apply coherent_no_cache. by intros k v (e & He & _). Qed.

(** A first read, a publication, and a second read. *)
Definition after_read : World := (Read (Full client) "shop" "main" world).2.
Definition after_publish : World := (Publish ann 1 2 1 after_read).2.
Definition after_second_read : World := (Read (Full client) "shop" "main" after_publish).2.

Example first_read : (Read (Full client) "shop" "main" world).1 =
  Ok {| rr_Content := first_value; rr_Version := 1 |}.
Proof. vm_compute. reflexivity. Qed.
Example second_read : (Read (Full client) "shop" "main" after_publish).1 =
  Ok {| rr_Content := first_value; rr_Version := 2 |}.
Proof. vm_compute. reflexivity. Qed.
Lemma second_read_run : Read (Full client) "shop" "main" after_publish =
  (Ok {| rr_Content := first_value; rr_Version := 2 |}, after_second_read).
Proof. unfold after_second_read. rewrite <-second_read. apply surjective_pairing. Qed.
Example wrong_secret : (Read (Full (Generate "public entropy.." "another entropy, of 32 bytes too"))
  "shop" "main" world).1 = Er EUnauthenticated.
Proof. vm_compute. reflexivity. Qed.
Example wrong_project : (Read (Full client) "other" "main" world).1 = Er EProjectMismatch.
Proof. vm_compute. reflexivity. Qed.

Lemma sample_run : rtc step world after_publish.
Proof.
  eapply rtc_l; [eapply (step_read _ after_read); apply surjective_pairing|].
  apply rtc_once. eapply step_handler; [apply (serve_Publish ann 1 2 1)|apply surjective_pairing].
Qed.

Lemma server_integrity_witness : Integrity (db world) ∧ Integrity (db after_publish).
Proof.
  split; [exact sample_integrity|].
  exact (server_integrity world after_publish sample_run sample_integrity).
Defined.

Lemma snapshots_immutable_witness :
  ∃ s s', srows (db world) !! 2 = Some s ∧ srows (db after_publish) !! 2 = Some s' ∧
    same_document s s'.
Proof.
  assert (srows (db world) !! 2 = Some (snapshot 2 SnapshotStatusUnreleased true)) as Hs
    by (vm_compute; reflexivity).
  destruct (snapshots_immutable world after_publish 2 _ sample_run sample_integrity Hs)
    as (s' & Hs' & Hd).
  exists (snapshot 2 SnapshotStatusUnreleased true), s'.
  split; [exact Hs|split; [exact Hs'|exact Hd]].
Defined.

Lemma sample_main : crows (db world) !! 1 = Some main.
Proof. vm_compute. reflexivity. Qed.

Lemma generation_determines_content_witness :
  ∃ c', crows (db after_publish) !! 1 = Some c' ∧
    cfg_RuntimeVersion main ≤ cfg_RuntimeVersion c' ∧
    (cfg_RuntimeVersion c' = cfg_RuntimeVersion main →
     ∀ content, serves (db after_publish) 1 content ↔ serves (db world) 1 content).
Proof.
  exact (generation_determines_content world after_publish 1 main sample_run sample_integrity
           sample_main).
Defined.

Lemma used_config_survives_witness : used (db after_publish) 1.
Proof.
  apply (used_config_survives world after_publish 1 sample_run sample_integrity).
  exists 1, (snapshot 1 SnapshotStatusReleased false).
  split; [vm_compute; reflexivity|]. split; reflexivity.
Defined.

Lemma Read_correct_witness :
  ∃ p cid c, authentic (db after_publish) (Full client) "shop" p ∧
    crows (db after_publish) !! cid = Some c ∧ live (cfg_meta c) = true ∧
    cfg_ProjectID c = project_id p ∧ text_eq (cfg_Key c) "main" = true ∧
    2 = cfg_RuntimeVersion c ∧ released_value (db after_publish) cid c first_value.
Proof.
  apply (Read_correct world after_publish (Full client) "shop" "main"
    {| rr_Content := first_value; rr_Version := 2 |} after_second_read
    sample_run sample_integrity sample_coherent).
  exact second_read_run.
Defined.

Lemma publish_runs_after_read : ∃ s, Publish ann 1 2 1 after_read = (Ok s, after_publish) ∧
  snp_ConfigID s = 1.
Proof.
  unfold after_publish. destruct (Publish ann 1 2 1 after_read) as [r w] eqn:Hr.
  assert (match r with Ok s => snp_ConfigID s = 1 | Er _ => False end) as H.
  { change r with (r, w).1. rewrite <-Hr. vm_compute. reflexivity. }
  destruct r as [s|e]; [|contradiction]. exists s. split; [reflexivity|exact H].
Qed.

Lemma shop_named s : snp_ConfigID s = 1 → named (db after_publish) "shop" "main" (snp_ConfigID s).
Proof.
  intros -> p k c _ _ Hc _ _.
  assert ((map_to_list (crows (db after_publish))).*1 = [1]) as H by (vm_compute; reflexivity).
  apply elem_of_map_to_list, (list_elem_of_fmap_2 fst) in Hc. rewrite H in Hc.
  by apply list_elem_of_singleton in Hc.
Qed.

Lemma publish_then_read_witness : ∃ s old c,
  crows (db after_read) !! snp_ConfigID s = Some old ∧
  crows (db after_publish) !! snp_ConfigID s = Some c ∧
  2 = cfg_RuntimeVersion c ∧ cfg_RuntimeVersion c = cfg_RuntimeVersion old + 1 ∧
  value_in (snp_ConfigID s) (cfg_ProjectID c) (cfg_Key c) (snp_Content s) first_value.
Proof.
  destruct publish_runs_after_read as (s & Hp & Hs). exists s.
  refine (publish_then_read world after_read ann 1 2 1 s after_publish (Full client) "shop" "main"
    {| rr_Content := first_value; rr_Version := 2 |} after_second_read _
    sample_integrity sample_coherent Hp (shop_named s Hs) _).
  - apply rtc_once. eapply (step_read _ after_read). apply surjective_pairing.
  - exact second_read_run.
Defined.

(** Ann publishes after the reader has missed the cache. *)
Definition publishing (n : nat) : M unit := λ w,
  (Ok tt, if (n =? 1)%nat then (Publish ann 1 2 1 w).2 else w).
Lemma publishing_interference n : interference (publishing n).
Proof.
  intros w r w' [= <- <-]. split; [done|]. destruct (n =? 1)%nat; [|done].
  apply rtc_once. eapply step_handler; [apply (serve_Publish ann 1 2 1)|apply surjective_pairing].
Qed.
Lemma slow_reader_coherent_witness :
  (readConfig_among publishing 1 "main" world).1 = Ok {| rr_Content := first_value; rr_Version := 1 |} ∧
  Coherent (readConfig_among publishing 1 "main" world).2.
Proof.
  split; [vm_compute; reflexivity|].
  apply (slow_reader_coherent publishing 1 "main" world _ _ publishing_interference
    sample_integrity sample_coherent (surjective_pairing _)).
Defined.
