(* ===== verification/AccessSpec.v ===== *)
(** Who may do what: every operation of the administration interface that
    demands a permission is refused, with the database untouched, unless the
    rows grant it at that moment; the ones that demand none tell only what every
    account may know; and a request that reaches an operation carries a valid
    token of an enabled account. *)

From S2P Require Import Prelude GoStd GoStrings Util Proto Codec Schema Engine Model Cache Convert World WorldLaws RepoScope Permission Password Jwt Credential RepoConfig RepoChild RepoSnapshot RepoProject RepoIdentity LogicBase LogicIdentity LogicProject LogicAuth Middleware LogicPublish LogicConfig LogicSnapshot LogicTransfer LogicDefinition ObjectStore Service Assets PermissionSpec ScopeSpec Ledger Secure HandlersAccess Server SchemaSpec SampleWorld.

Local Open Scope Z_scope.

Section access.
Context {E : Engine} {EL : EngineLaws E} `{Collation} {St : Store} {SL : StoreLaws St}
  `{Protojson} `{MapOrder} `{Pepper} `{Argon2} `{JWTLib} `{SHA256} `{UnicodeLower}
  {Au : Authorizer} {AL : AuthorizerLaws Au} {PC : PermissionCache} {PL : PermissionCacheLaws PC}
  {SA : SecureAuthorizer Au} `{Deployment}.

(** The right to list or read projects: of an environment, or everywhere. *)
Definition may_see_projects (u e : Z) (d : DB) : Prop :=
  if 0 <? e then allowed d u e [ProjectRead] else administers d u.

Lemma actor_of p h w a w' : ActorFromContext p h w = (Ok a, w') → p = Some (UserID a).
Proof.
  unfold ActorFromContext. destruct p as [u|]; [|by intros ?%run_throw].
  destruct (u <=? 0); [by intros ?%run_throw|]. destruct (validRequestID _).
  - by intros [<- _]%run_ret.
  - intros Hr. apply run_bind in Hr as (x & w1 & _ & [<- _]%run_ret). done.
Qed.

(** The caller is an account that may write assets of the environment, and the
    project is a live one of the environment. *)
Definition may_write_assets (ctx : Context_) (environmentID projectID : Z) (d : DB) : Prop :=
  (∃ u, cx_principal ctx = Some u ∧ allowed d u environmentID [PermissionAssetWrite]) ∧
  ∃ p, rows (projects d) !! projectID = Some p ∧ live (prj_meta p) = true ∧
    (0 < environmentID → environment_in d environmentID projectID).

Lemma attempt_run {A} (m : M A) x w w' : attempt m w = (Ok x, w') → m w = (x, w').
Proof. unfold attempt. destruct (m w) as [y w1]. by intros [= -> ->]. Qed.

Lemma run_HasEnvironmentPermission ctx e key b w w' : Secure w →
  HasEnvironmentPermission ctx e key w = (Ok b, w') →
  db w' = db w ∧ (b = true → ∃ u, cx_principal ctx = Some u ∧ allowed (db w) u e [key]).
Proof.
  unfold HasEnvironmentPermission. intros HS Hr. apply run_bind in Hr as (actor & w1 & Ha & Hr).
  pose proof (quiet_actor _ _ _ _ _ Ha) as Hsame. apply actor_of in Ha. pose proof Hsame as [Hd _].
  apply run_bind in Hr as (x & w2 & Hc & Hr). apply attempt_run in Hc.
  pose proof (check_reads _ _ _ _ _ _ Hc) as Hd2. destruct x as [y|err].
  - apply run_ret in Hr as [<- <-]. split; [congruence|]. intros _. exists (UserID actor). split; [done|].
    rewrite <-Hd. by eapply check_sound; [|eapply secure_same].
  - destruct (is_Forbidden err); [|by apply run_throw in Hr]. apply run_ret in Hr as [<- <-].
    split; [congruence|done].
Qed.
Lemma run_ProjectExists e p b w w' : ProjectExists e p w = (Ok b, w') →
  b = true → ∃ r, rows (projects (db w)) !! p = Some r ∧ live (prj_meta r) = true ∧
    (0 < e → environment_in (db w) e p).
Proof.
  unfold ProjectExists, project_FindByID. intros Hr ->. apply run_bind in Hr as (x & w2 & Hc & Hr).
  apply attempt_run in Hc. destruct x as [y|err].
  2:{ destruct (is_NotFound err); [by apply run_ret in Hr as [? _]|by apply run_throw in Hr]. }
  apply run_bind in Hc as (o & w3 & Hg & Hc). apply run_must_find in Hc as [-> _].
  apply run_handle, run_get in Hg as [Hh _]. symmetry in Hh. apply head_Some_elem_of in Hh.
  exists y. destruct (Z.ltb_spec 0 e).
  - unfold projectScope, project_in_scope in Hh. apply select_spec in Hh as [Hp Hrow]. unfold project_id in Hp.
    bool_hyps. subst. split_and!; [done..|]. intros _. by apply environment_of_spec.
  - apply select_spec in Hh as [Hp Hrow]. unfold project_id in Hp. bool_hyps. subst. split_and!; done || lia.
Qed.
Lemma run_requireAccess ctx e p u w w' : Secure w → requireAccess ctx e p w = (Ok u, w') →
  may_write_assets ctx e p (db w).
Proof.
  unfold requireAccess. intros HS Hr. apply run_bind in Hr as (b & w1 & Ha & Hr).
  apply run_handle in Ha. destruct (run_HasEnvironmentPermission _ _ _ _ _ _ HS Ha) as [Hd Hal].
  apply run_bind in Hr as (? & w2 & Hb & Hr). apply run_when_err in Hb as [Hb <-]. destruct b; [|done].
  apply run_bind in Hr as (b & w3 & Hp & Hr). apply run_handle in Hp.
  apply run_when_err in Hr as [Hb2 _]. destruct b; [|done]. split; [by apply Hal|].
  rewrite <-Hd. by eapply run_ProjectExists.
Qed.

(** What each operation demands of the rows. *)
Inductive demands : ∀ {A}, M A → (DB → Prop) → Prop :=
  | need_config_Create a e i : demands (config_logic_Create a e i)
      (λ d, allowed d (UserID a) e [ConfigWrite])
  | need_config_Update a e i : demands (config_logic_Update a e i)
      (λ d, allowed d (UserID a) e [ConfigWrite; ConfigRead])
  | need_config_UpdateValue a e i : demands (config_logic_UpdateValue a e i)
      (λ d, allowed d (UserID a) e [ConfigWrite; ConfigRead])
  | need_config_Delete a e c : demands (config_logic_Delete a e c)
      (λ d, allowed d (UserID a) e [ConfigWrite])
  | need_config_List a e f : demands (config_logic_List a e f)
      (λ d, allowed d (UserID a) e [ConfigRead])
  | need_config_Detail a e c : demands (config_logic_Detail a e c)
      (λ d, allowed d (UserID a) e [ConfigRead; StructureRead; EnumRead])
  | need_structure_Create a e i : demands (structure_logic_Create a e i)
      (λ d, allowed d (UserID a) e [StructureWrite])
  | need_structure_Update a e i : demands (structure_logic_Update a e i)
      (λ d, allowed d (UserID a) e [StructureWrite])
  | need_structure_Delete a e k : demands (structure_logic_Delete a e k)
      (λ d, allowed d (UserID a) e [StructureWrite])
  | need_structure_List a e i : demands (structure_logic_List a e i)
      (λ d, allowed d (UserID a) e [StructureRead])
  | need_enum_Create a e i : demands (enum_logic_Create a e i)
      (λ d, allowed d (UserID a) e [EnumWrite])
  | need_enum_Update a e i : demands (enum_logic_Update a e i)
      (λ d, allowed d (UserID a) e [EnumWrite])
  | need_enum_Delete a e k : demands (enum_logic_Delete a e k)
      (λ d, allowed d (UserID a) e [EnumWrite])
  | need_enum_List a e p c : demands (enum_logic_List a e p c)
      (λ d, allowed d (UserID a) e [EnumRead])
  | need_snapshot_Create a e i : demands (snapshot_logic_Create a e i)
      (λ d, allowed d (UserID a) e [SnapshotWrite; ConfigRead; StructureRead; EnumRead])
  | need_snapshot_Preview a e c : demands (snapshot_logic_Preview a e c)
      (λ d, allowed d (UserID a) e [SnapshotRead; ConfigRead; StructureRead; EnumRead])
  | need_snapshot_Delete a e s : demands (snapshot_logic_Delete a e s)
      (λ d, allowed d (UserID a) e [SnapshotWrite])
  | need_snapshot_Load a e c s : demands (snapshot_logic_Load a e c s)
      (λ d, allowed d (UserID a) e
              [SnapshotWrite; ConfigWrite; StructureWrite; EnumWrite;
               SnapshotRead; ConfigRead; StructureRead; EnumRead])
  | need_snapshot_Get a e s : demands (snapshot_logic_Get a e s)
      (λ d, allowed d (UserID a) e [SnapshotRead])
  | need_snapshot_Current a e c : demands (snapshot_logic_Current a e c)
      (λ d, allowed d (UserID a) e [SnapshotRead])
  | need_snapshot_Released a e c : demands (snapshot_logic_Released a e c)
      (λ d, allowed d (UserID a) e [SnapshotRead])
  | need_snapshot_List a e i : demands (snapshot_logic_List a e i)
      (λ d, allowed d (UserID a) e [SnapshotRead])
  | need_Publish a e s v : demands (Publish a e s v)
      (λ d, allowed d (UserID a) e [SnapshotPublish])
  | need_Unpublish a e s v : demands (Unpublish a e s v)
      (λ d, allowed d (UserID a) e [SnapshotPublish])
  | need_Export a e k : demands (Export a e k)
      (λ d, allowed d (UserID a) e
              [SnapshotExport; SnapshotRead; ConfigRead; StructureRead; EnumRead])
  | need_Import a r : demands (Import a r)
      (λ d, allowed d (UserID a) (ir_SourceEnvironmentID r)
              [SnapshotExport; SnapshotRead; ConfigRead; StructureRead; EnumRead] ∧
            allowed d (UserID a) (ir_TargetEnvironmentID r)
              [SnapshotImport; SnapshotWrite; ConfigWrite; StructureWrite; EnumWrite])
  | need_user_List a : demands (user_logic_List a) (λ d, administers d (UserID a))
  | need_user_Create h a i : demands (user_logic_Create h a i)
      (λ d, administers d (UserID a))
  | need_user_Update a i : demands (user_logic_Update a i) (λ d, administers d (UserID a))
  | need_user_UpdatePassword h a u p : demands (user_logic_UpdatePassword h a u p)
      (λ d, UserID a = u ∨ administers d (UserID a))
  | need_user_UpdateStatus a u b v : demands (user_logic_UpdateStatus a u b v)
      (λ d, administers d (UserID a))
  | need_role_Create a r : demands (role_logic_Create a r) (λ d, administers d (UserID a))
  | need_role_Update a k u : demands (role_logic_Update a k u)
      (λ d, administers d (UserID a))
  | need_role_Delete a k : demands (role_logic_Delete a k) (λ d, administers d (UserID a))
  | need_role_ListPermissions a : demands (role_logic_ListPermissions a)
      (λ d, administers d (UserID a))
  | need_role_UpdatePermissions a k l : demands (role_logic_UpdatePermissions a k l)
      (λ d, administers d (UserID a))
  | need_environment_Create a v : demands (environment_logic_Create a v)
      (λ d, administers d (UserID a))
  | need_environment_Update a e u : demands (environment_logic_Update a e u)
      (λ d, administers d (UserID a))
  | need_environment_ListMembers a e : demands (environment_logic_ListMembers a e)
      (λ d, allowed d (UserID a) e [EnvironmentMemberManage])
  | need_UpdateMemberRoles a e u l : demands (UpdateMemberRoles a e u l)
      (λ d, allowed d (UserID a) e [EnvironmentMemberManage])
  | need_project_Create a e p : demands (project_logic_Create a e p)
      (λ d, administers d (UserID a))
  | need_project_Update a k u : demands (project_logic_Update a k u)
      (λ d, administers d (UserID a))
  | need_project_List like a e k : demands (project_logic_List like a e k)
      (may_see_projects (UserID a) e)
  | need_project_Detail a e p : demands (project_logic_Detail a e p)
      (may_see_projects (UserID a) e)
  | need_key_List a e p : demands (key_logic_List a e p)
      (λ d, allowed d (UserID a) e [ProjectAPIKeyRead])
  | need_key_Create a e p n : demands (key_logic_Create a e p n)
      (λ d, allowed d (UserID a) e [ProjectAPIKeyManage])
  | need_key_Rotate a e p k : demands (key_logic_Rotate a e p k)
      (λ d, allowed d (UserID a) e [ProjectAPIKeyManage])
  | need_key_Revoke a e p k : demands (key_logic_Revoke a e p k)
      (λ d, allowed d (UserID a) e [ProjectAPIKeyManage])
  | need_asset_access ctx e p : demands (requireAccess ctx e p) (may_write_assets ctx e p).

(** An environment that [u] may see in the list: all of them for an administrator,
    and otherwise the enabled ones [u] is a member of.  (An account that is
    disabled does not get here over the interface.) *)
Definition may_see_environment (u : Z) (env : EnvironmentRow) (d : DB) : Prop :=
  rows (environments d) !! environment_id env = Some env ∧ live (env_meta env) = true ∧
  (administers d u ∨
   env_Enabled env = true ∧ ∃ user, rows (users d) !! u = Some user ∧ live (usr_meta user) = true ∧
     (usr_IsSystemAdmin user = true ∨
      ∃ a, rows (user_environment_roles d) !! row_id a = Some a ∧ uer_UserID a = u ∧
        uer_EnvironmentID a = environment_id env)).

(** The three operations that every signed-in account may ask for, with what
    they may tell it: the catalogue of roles, which is shared; the environments
    the account may see; and its own permissions in one of these. *)
Inductive discloses : ∀ {A}, M A → (DB → A → Prop) → Prop :=
  | open_role_List : discloses role_logic_List (λ d l, ∀ x, x ∈ l →
      rows (roles d) !! role_id (rwp_Role x) = Some (rwp_Role x) ∧ live (rol_meta (rwp_Role x)) = true)
  | open_environment_List a : discloses (environment_logic_List a)
      (λ d l, ∀ env, env ∈ l → may_see_environment (UserID a) env d)
  | open_environment_Permissions a e : discloses (environment_logic_Permissions a e)
      (λ d keys, ∃ admin env, identified d (UserID a) e admin env ∧
         (admin = false → granted_list d (UserID a) e keys)).

(** The operations that make or end a sign-in, which come before any
    permission: their guards are passwords, tokens and limits. *)
Inductive signs_in : ∀ {A}, M A → Prop :=
  | in_Login n p ip : signs_in (Login auth_logic n p ip)
  | in_Refresh r : signs_in (Refresh auth_logic r)
  | in_Logout r : signs_in (Logout r)
  | in_Me u : signs_in (Me u)
  | in_GetSetupStatus : signs_in GetSetupStatus
  | in_CreateInitialAdmin n d p : signs_in (CreateInitialAdmin (passwords auth_logic) n d p)
  | in_saveAdministrator n d h : signs_in (saveAdministrator n d h)
  | in_limit n k t s : signs_in (FixedWindowRateLimit n k t s)
  | in_authentication t : signs_in (AdminAuth (tokens auth_logic) t).

(** ** Guards *)

Definition guarded {A} (m : M A) (ok : DB → Prop) : Prop := ∀ w r w',
  Secure w → m w = (r, w') → ok (db w) ∨ (∃ e, r = Er e) ∧ db w' = db w.

Lemma guarded_bind {A B} (m : M A) (k : A → M B) ok : guarded m ok → guarded (m ≫= k) ok.
Proof.
  intros Hm w r w' HS. unfold mbind, M_bind. destruct (m w) as [[a|e] w1] eqn:Hr.
  - intros _. destruct (Hm _ _ _ HS Hr) as [?|[[e He] _]]; [by left|done].
  - intros [= <- <-]. destruct (Hm _ _ _ HS Hr) as [?|[_ ?]]; [by left|right]. eauto.
Qed.
Lemma guarded_check u e ks : guarded (Check u e ks) (λ d, allowed d u e ks).
Proof.
  intros w [x|e'] w' HS Hr; [left; by eapply check_sound|right].
  split; [eauto|by eapply check_reads].
Qed.
Lemma guarded_system u k : guarded (CheckSystem u k) (λ d, administers d u).
Proof.
  intros w [x|e'] w' HS Hr; [left; by eapply check_system_sound|right].
  split; [eauto|by eapply check_system_reads].
Qed.
Lemma guarded_true {A} (m : M A) (ok : DB → Prop) : (∀ d, ok d) → guarded m ok.
Proof. intros Hok w r w' _ _. by left. Qed.
Lemma guarded_weaken {A} (m : M A) (ok ok' : DB → Prop) : (∀ d, ok d → ok' d) →
  guarded m ok → guarded m ok'.
Proof. intros Hi Hm w r w' HS Hr. destruct (Hm _ _ _ HS Hr); auto. Qed.
(** A second guard after a first that only reads. *)
Lemma guarded_then {A B} (m : M A) (k : A → M B) ok ok' :
  reads m → secured m → guarded m ok → (∀ a, guarded (k a) ok') →
  guarded (m ≫= k) (λ d, ok d ∧ ok' d).
Proof.
  intros Hread Hsec Hm Hk w r w' HS. unfold mbind, M_bind.
  destruct (m w) as [[a|e] w1] eqn:Hr; pose proof (Hread _ _ _ Hr) as Hd.
  - intros Hr2. destruct (Hsec _ _ _ Hr HS) as [HS1 _].
    destruct (Hm _ _ _ HS Hr) as [?|[[e He] _]]; [|done].
    destruct (Hk a _ _ _ HS1 Hr2) as [Hok|[He Hd2]]; rewrite Hd in *; [by left|by right].
  - intros [= <- <-]. right. eauto.
Qed.
Lemma guarded_lift {A B} (x : result A) (k : A → M B) ok :
  (∀ a, guarded (k a) ok) → guarded (lift x ≫= k) ok.
Proof.
  intros Hk w r w' HS. destruct x as [a|e]; unfold mbind, M_bind, lift; [by apply Hk|].
  intros [= <- <-]. right. eauto.
Qed.

Lemma guarded_project_check a e : guarded (project_check a e) (may_see_projects (UserID a) e).
Proof.
  unfold project_check, may_see_projects. destruct (0 <? e);
    [apply guarded_check|apply guarded_system].
Qed.

Lemma demands_guarded {A} (m : M A) ok : demands m ok → guarded m ok.
Proof.
  intros []; try solve [repeat apply guarded_bind; apply guarded_check];
    try solve [apply guarded_bind; first [apply guarded_system|apply guarded_project_check]].
  - apply guarded_lift. intros [h tags]. simpl. apply guarded_then;
      [apply check_reads|apply check_secured|apply guarded_check|].
    intros _. apply guarded_bind, guarded_check.
  - unfold user_logic_UpdatePassword, unless_m. destruct (Z.eqb_spec (UserID a) u) as [Hu|Hu].
    + apply guarded_true. auto.
    + apply guarded_bind. eapply guarded_weaken; [|apply guarded_system]. auto.
  - intros w [u|err] w' HS Hr; [left; by eapply run_requireAccess|right].
    split; [eauto|by eapply reads_requireAccess].
Qed.

(** ** Operations without a demand *)

Lemma run_collect_fst {A B C} (f : A → M B) (g : B → C) (h : A → C) l bs w w' :
  (∀ a b w w', f a w = (Ok b, w') → g b = h a) →
  collect_m f l w = (Ok bs, w') → g <$> bs = h <$> l.
Proof.
  intros Hf. revert bs w w'. induction l as [|a l IH]; intros bs w w' Hr.
  - by apply run_ret in Hr as [<- _].
  - apply run_bind in Hr as (b & w1 & Hb & Hr). apply run_bind in Hr as (bs' & w2 & Hbs & Hr).
    apply run_ret in Hr as [<- _]. rewrite !fmap_cons, (Hf _ _ _ _ Hb). f_equal. by eapply IH.
Qed.

Lemma run_role_List l w w' : role_logic_List w = (Ok l, w') →
  ∀ x, x ∈ l → rows (roles (db w)) !! role_id (rwp_Role x) = Some (rwp_Role x) ∧
    live (rol_meta (rwp_Role x)) = true.
Proof.
  intros Hr x Hx. unfold role_logic_List, role_List in Hr.
  apply run_bind in Hr as (rs & w1 & Hrs & Hr). apply run_handle, run_find in Hrs as [-> _].
  unfold rolesWithPermissions in Hr. apply (run_collect_fst _ rwp_Role id) in Hr.
  - apply (list_elem_of_fmap_2 rwp_Role) in Hx. rewrite Hr, list_fmap_id in Hx.
    by apply select_spec in Hx as [? ?].
  - intros a b v v' Hv. apply run_bind in Hv as (ps & v1 & _ & Hv). by apply run_ret in Hv as [<- _].
Qed.

Lemma run_environment_List a l w w' : environment_logic_List a w = (Ok l, w') →
  ∀ env, env ∈ l → may_see_environment (UserID a) env (db w).
Proof.
  intros Hr env Hx. unfold environment_logic_List in Hr.
  apply run_bind in Hr as (x & w1 & Hc & Hr). unfold attempt in Hc.
  destruct (CheckSystem _ _ w) as [y w2] eqn:Hcs. injection Hc as -> <-.
  pose proof (check_system_reads _ _ _ _ _ Hcs) as Hd. destruct x as [u|e].
  - apply check_system_sound in Hcs. apply run_handle, run_find in Hr as [-> _]. rewrite Hd in Hx.
    apply select_spec in Hx as [Hrow Hl]. split_and!; [done..|by left].
  - destruct (is_Forbidden e); [|by apply run_throw in Hr].
    apply run_bind in Hr as (user & w3 & Hu & Hr).
    apply LedgerOps.run_find_user in Hu as (Hu & Hp & [Hd3 _]). rewrite Hd in *. bool_hyps.
    apply run_handle, run_find in Hr as [-> _]. rewrite Hd3 in Hx.
    apply select_spec in Hx as [Hrow Hl]. bool_hyps. split_and!; [done..|]. right. split; [done|].
    exists user. split_and!; [congruence|done|].
    match goal with Hx : _ || _ = true |- _ => apply orb_true_iff in Hx as [?|Hx] end; [by left|right].
    match goal with Hx : existsb _ _ = true |- _ => apply existsb_exists in Hx as (m & Hm & Hk) end.
    apply list_elem_of_In, select_spec in Hm as [Hm _]. bool_hyps. exists m. split_and!; congruence.
Qed.

Lemma run_Permissions a e l w w' : environment_logic_Permissions a e w = (Ok l, w') → Secure w →
  ∃ admin env, identified (db w) (UserID a) e admin env ∧
    (admin = false → granted_list (db w) (UserID a) e l).
Proof.
  intros Hr HS. apply run_bind in Hr as ([keys admin] & w1 & Hk & Hr). apply run_ret in Hr as [<- _].
  apply resolve_sound in Hk as (env & ? & ?); [|done]. by exists admin, env.
Qed.

Lemma run_discloses {A} (m : M A) shown w r w' : discloses m shown → m w = (r, w') → Secure w →
  db w' = db w ∧ ∀ a, r = Ok a → shown (db w) a.
Proof.
  intros Hm Hr HS. split.
  - eapply reads_run; [|exact Hr]. destruct Hm.
    + apply reads_quiet. unfold role_logic_List, role_List, rolesWithPermissions, permissionsForRole. quiet.
    + unfold environment_logic_List. apply reads_bind; [apply reads_attempt, check_system_reads|].
      intros [x|x]; [apply reads_quiet; unfold environment_List; quiet|].
      destruct (is_Forbidden x); [|apply reads_quiet; quiet]. apply reads_quiet.
      unfold GetByID, lockManagedUser, find_user, ListEnvironments. quiet.
    + apply reads_bind; [apply resolve_reads|]. intros [ks ad]. apply reads_quiet. quiet.
  - intros a ->. destruct Hm.
    + by eapply run_role_List.
    + by eapply run_environment_List.
    + by eapply run_Permissions.
Qed.

Lemma handler_kind {A} (m : M A) : handler m →
  (∃ ok, demands m ok) ∨ (∃ shown, discloses m shown) ∨ signs_in m.
Proof.
  intros []; first [left; by eexists; constructor | right; left; by eexists; constructor
                   | right; right; constructor].
Qed.

(** C3: no operation without its permission, at any time.  In every state the
    server reaches, an operation that demands a permission either finds it
    granted by the rows of users, environments, memberships, roles and
    permissions as they are at that moment (whatever the permission cache holds,
    so that a change of roles takes effect at once), or it reports an error and
    leaves the database as it is.  Three operations demand none: they change
    nothing, and tell an account no more than the shared catalogue of roles, the
    environments it may see, and its own permissions.  Every operation is of one
    of these kinds, or is one of sign-in, session and setup. *)
Theorem operations_authorised {A} w0 w (m : M A) r w' :
  rtc step w0 w → Secure w0 → handler m → m w = (r, w') →
  ((∃ ok, demands m ok) ∨ (∃ shown, discloses m shown) ∨ signs_in m) ∧
  (∀ ok, demands m ok → ok (db w) ∨ (∃ e, r = Er e) ∧ db w' = db w) ∧
  (∀ shown, discloses m shown → db w' = db w ∧ ∀ a, r = Ok a → shown (db w) a).
Proof.
  intros Hs HS Hm Hr. apply steps_secure in Hs as [HSw _]; [|done]. split_and!.
  - by apply handler_kind.
  - intros ok Hd. by eapply demands_guarded.
  - intros shown Hd. by eapply run_discloses.
Qed.

(** ** From the request to the operation *)

(** Passing the request limit takes one reading of the clock. *)
Lemma run_limit n k t s x w w' : FixedWindowRateLimit n k t s w = (Ok x, w') →
  db w' = db w ∧ clock w' = clock w ∧ ticks w' = S (ticks w).
Proof.
  intros Hr. unfold FixedWindowRateLimit in Hr. inv_run.
  match goal with Hx : cache_increment _ _ _ = _ |- _ => unfold cache_increment in Hx;
    destruct (Increment _ _ _ _); injection Hx as _ <- end. done.
Qed.

Lemma run_AdminAuth m t p w w' : AdminAuth m t w = (Ok p, w') →
  db w' = db w ∧ ∃ claims user,
    token_user m (clock w (ticks w)) (header t "Authorization") = Ok (claims, pl_UserID p) ∧
    pl_SessionID p = cl_SessionID claims ∧
    rows (users (db w)) !! pl_UserID p = Some user ∧ usr_Enabled user = true ∧
    live (usr_meta user) = true ∧
    (usr_MustChangePassword user = true → operation t = passwordOperation).
Proof.
  intros Hr. split; [by eapply quiet_run; [apply quiet_AdminAuth|]|]. unfold AdminAuth in Hr.
  apply run_bind in Hr as (at_ & w1 & Hnow & Hr). apply run_now in Hnow as [-> [Hd _]].
  apply run_bind in Hr as ([claims u] & w2 & Ht & Hr). apply run_lift in Ht as [Ht ->].
  apply run_bind in Hr as (user & w3 & Hu & Hr).
  apply run_handle, LedgerOps.run_find_user in Hu as (Hu & Hp & _).
  apply run_bind in Hr as (y & w4 & Hen & Hr). apply run_when_err in Hen as [Hen ->].
  apply run_bind in Hr as (z & w5 & Hmust & Hr). apply run_when_err in Hmust as [Hmust ->].
  apply run_ret in Hr as [<- _]. simpl. rewrite Hd in Hu. bool_hyps.
  exists claims, user. split_and!; try done; [congruence|].
  intros Hm. rewrite Hm in Hmust. simpl in Hmust. by bool_hyps.
Qed.

(** An administration request is served only to its owner.  A request that
    passes the chain of server/http.go and succeeds in an operation carries a
    bearer token that verifies at that time, with the configured issuer,
    audience and time bounds; the token names an account that is enabled and
    not deleted, which has to change its password only if the request is the
    one that changes it; and the operation's demand is granted to that account
    by the rows as they are. *)
Theorem admin_requests_authorised {A} w0 w translate t (serve : Actor → M A) ok a w'
    `{!JWTLaws H4} :
  rtc step w0 w → Secure w0 → (∀ actor, demands (serve actor) (ok actor)) →
  admin_chain translate (tokens auth_logic) t serve w = (Ok a, w') →
  ∃ actor claims user,
    token_user (tokens auth_logic) (clock w (S (ticks w))) (header t "Authorization")
      = Ok (claims, UserID actor) ∧
    within_bounds (tokens auth_logic) (clock w (S (ticks w))) claims = true ∧
    rows (users (db w)) !! UserID actor = Some user ∧ usr_Enabled user = true ∧
    live (usr_meta user) = true ∧
    (usr_MustChangePassword user = true → operation t = passwordOperation) ∧
    ok actor (db w).
Proof.
  intros Hs HS Hdem Hr. apply steps_secure in Hs as [HSw _]; [|done]. unfold admin_chain in Hr.
  apply run_bind in Hr as (principal & w1 & Hp & Hr). apply run_handle in Hr.
  apply run_bind in Hr as (actor & w2 & Hact & Hr).
  destruct (admin_selected (operation t)).
  2:{ apply run_ret in Hp as [<- ->]. by apply run_throw in Hact. }
  pose proof (secured_FixedWindowRateLimit "admin" adminRateLimit rateWindow
    (AuthorizationIdentity t)) as Hlim.
  apply run_bind in Hp as (x & w3 & Hl & Hp). pose proof (Hlim _ _ _ Hl HSw) as [HS3 _].
  apply run_limit in Hl as (Hd3 & Hck & Htk). apply run_bind in Hp as (p & w4 & Hauth & Hp).
  pose proof (secured_quiet _ (quiet_AdminAuth _ _) _ _ _ Hauth HS3) as [HS4 _].
  apply run_AdminAuth in Hauth as (Hd4 & claims & user & Htok & _ & Hu & Hen & Hlv & Hmust).
  apply run_ret in Hp as [<- <-]. rewrite Hck, Htk in Htok. rewrite Hd3 in Hu.
  assert (UserID actor = pl_UserID p ∧ db w2 = db w4 ∧ cache w2 = cache w4) as (Hid & Hd2 & Hc2).
  { simpl in Hact. destruct (pl_UserID p <=? 0); [by apply run_throw in Hact|].
    destruct (validRequestID _).
    - by apply run_ret in Hact as [<- <-].
    - inv_run. match goal with Hx : random _ = _ |- _ => apply run_random in Hx as [? ?] end.
      done. }
  assert (Secure w2) as HS2 by by eapply secure_same.
  exists actor, claims, user. rewrite Hid. split_and!; try done.
  - unfold token_user in Htok. destruct (fields _) as [|scheme [|encoded [|]]]; try done.
    apply bind_Ok in Htok as (y & _ & Htok).
    destruct (jwt_Verify _ _ encoded) as [c|e] eqn:Hv; [|done].
    destruct (claims_UserID c); [|done]. injection Htok as -> _. unfold jwt_Verify in Hv.
    destruct (blank encoded); [done|]. destruct (ParseWithClaims _ _ encoded) eqn:Hparse; [|done].
    apply parse_accepts in Hparse. repeat case_match; congruence.
  - destruct (demands_guarded _ _ (Hdem actor) _ _ _ HS2 Hr) as [Hok|[[e He] _]]; [|done].
    by rewrite Hd2, Hd4, Hd3 in Hok.
Qed.
End access.

(** ** The sample installation *)

Section sample.
Import Sample SampleWorld.

Lemma sample_secure : Secure world.
Proof.
  split.
  - split.
    + intros k1 k2 t1 t2 H1. change (rows (refresh_tokens (db world))) with (∅ : gmap Z RefreshTokenRow) in H1.
      by rewrite lookup_empty in H1.
    + intros k1 k2 t1 t2. change (rows (project_api_keys (db world))) with ({[1 := client_key]} : gmap Z _).
      intros [<- _]%lookup_singleton_Some [<- _]%lookup_singleton_Some _. done.
    + intros k1 k2 t1 t2 H1. change (rows (import_records (db world))) with (∅ : gmap Z ImportRecordRow) in H1.
      by rewrite lookup_empty in H1.
    + intros k a. change (rows (user_environment_roles (db world))) with ({[1 := assignment]} : gmap Z _).
      intros [_ <-]%lookup_singleton_Some. exists publisher. reflexivity.
  - exact sample_plain.
  - exact sample_permission_coherent.
  - intros u e v x Hh. exfalso. destruct Hh as (y & Hy & _). discriminate Hy.
Qed.

(** The same installation with ann as its administrator. *)
Definition administrator : UserRow :=
  {| usr_meta := meta 7 1; usr_Username := "ann"; usr_DisplayName := "Ann";
     usr_PasswordHash := ""; usr_Enabled := true; usr_IsSystemAdmin := true;
     usr_MustChangePassword := false; usr_LastLoginAt := None |}.
Definition managed : World :=
  {| db := put_table users_t ({[7 := administrator]} : gmap Z UserRow) database;
     cache := Memory.newMemory : cstate; faults := []; clock := λ n, Z.of_nat n + 100; ticks := 0;
     entropy := λ _, "token"; drawn := 0 |}.
Lemma managed_secure : Secure managed.
Proof.
  destruct sample_secure as [[? ? ? ?] ? ? Hb]. split; [by split|done| |done].
  intros u e v x env Hx. exfalso. destruct Hx as (y & Hy & _). discriminate Hy.
Qed.

(** A client has read; then ann publishes. *)
Definition read_before : World := (LogicPublish.Read (Credential.Full client) "shop" "main" world).2.
Lemma read_before_run : rtc step world read_before.
Proof. apply rtc_once. eapply (step_read _ read_before). apply surjective_pairing. Qed.

(** An account without permissions: refused, and it sees no environment. *)
Definition stranger : Actor := {| UserID := 8; RequestID := "r" |}.
Lemma operations_authorised_witness :
  allowed (db read_before) 7 1 [SnapshotPublish] ∧
  (Publish stranger 1 2 1 read_before).2.(db) = db read_before ∧
  (∃ env, may_see_environment 7 env (db read_before)).
Proof.
  split; [|split].
  - destruct (operations_authorised world read_before _ _ _ read_before_run sample_secure
      (serve_Publish ann 1 2 1) (surjective_pairing _)) as (_ & H & _).
    destruct (H _ (need_Publish ann 1 2 1)) as [Hok|[[e He] _]]; [exact Hok|].
    exfalso. vm_compute in He. discriminate He.
  - destruct (operations_authorised world read_before _ _ _ read_before_run sample_secure
      (serve_Publish stranger 1 2 1) (surjective_pairing _)) as (_ & H & _).
    destruct (H _ (need_Publish stranger 1 2 1)) as [Hok|[_ Hd]]; [|exact Hd].
    exfalso. destruct Hok as (admin & env & [(user & Hu & _) _ _ _ _ _] & _).
    vm_compute in Hu. discriminate Hu.
  - assert (match (environment_logic_List ann read_before).1 with Ok (_ :: _) => True | _ => False end)
      as Hok by (vm_compute; exact I).
    destruct (environment_logic_List ann read_before) as [r w'] eqn:Hr.
    destruct r as [[|env l]|e]; try contradiction.
    destruct (operations_authorised world read_before _ _ _ read_before_run sample_secure
      (serve_environment_List ann) Hr) as (_ & _ & H).
    exists env. apply (proj2 (H _ (open_environment_List ann)) _ eq_refl). left.
Defined.

Definition publish_request : Transport :=
  {| header name := if decide (name = "Authorization") then "bearer  token"
                    else if decide (name = "X-Request-ID") then "request-1" else "";
     operation := "/kirby.admin.v1.PublicationService/PublishSnapshot"; peer := "10.0.0.1" |}.
Definition served : World :=
  (admin_chain apiError manager publish_request (λ a, Publish a 1 2 1) read_before).2.

Lemma admin_requests_authorised_witness : ∃ actor, UserID actor = 7 ∧
  allowed (db read_before) (UserID actor) 1 [SnapshotPublish].
Proof.
  assert (match (admin_chain apiError manager publish_request (λ a, Publish a 1 2 1) read_before).1
          with Ok _ => True | Er _ => False end) as Hok by (vm_compute; exact I).
  destruct (admin_chain apiError manager publish_request (λ a, Publish a 1 2 1) read_before)
    as [r w'] eqn:Hr.
  destruct r as [s|e]; [|contradiction].
  destruct (admin_requests_authorised world read_before apiError publish_request
    (λ a, Publish a 1 2 1) (λ a d, allowed d (UserID a) 1 [SnapshotPublish]) s w'
    read_before_run sample_secure (λ a, need_Publish a 1 2 1) Hr)
    as (actor & claims & user & Htok & _ & _ & _ & _ & _ & Hall).
  exists actor. split; [|exact Hall].
  vm_compute in Htok. injection Htok as _ H. symmetry. exact H.
Defined.

(** The repository reports an account name that is taken as a conflict of keys
    (CreateManagedUser in repository/user.go); the translation that
    service/user.go and service/role.go use does not know that error. *)
Lemma taken_name_is_internal :
  match (user_logic_Create (passwords auth_logic) ann
    {| uc_Username := "ann"; uc_DisplayName := "Ann"; uc_PlainPassword := "secret";
       uc_SystemAdmin := false |}
    {| db := db managed; cache := Memory.newMemory : cstate; faults := [];
       clock := λ n, Z.of_nat n + 100; ticks := 0; entropy := λ _, fit 16 "salt"; drawn := 0 |}).1
  with
  | Ok _ => False
  | Er e => e = EKeyConflict "user" ∧ permission_APIError e = EApi Internal "operation failed" ∧
            apiError e = EApi Conflict "operation conflicts with current configuration"
  end.
Proof. vm_compute. split_and!; reflexivity. Qed.
End sample.
