(* ===== verification/ServiceSpec.v ===== *)
(** The HTTP interface as a whole: every endpoint, from the request to the
    operation of the logic layer; those of the asset service over any object
    storage.  A request moves the server by steps of [Server.step], so that what
    holds of every reachable state holds of the states requests lead to; one of
    the administration is refused unless the rows grant what the endpoint demands
    (for assets see [AssetSpec]); and what it reports as an error, once its
    message was read, is one of a fixed list. *)

From S2P Require Import Prelude GoStd GoStrings Util Json Proto Codec Schema Engine Model Cache Convert Requests World WorldLaws RepoScope Permission Credential Password Jwt RepoConfig RepoProject RepoIdentity LogicBase LogicIdentity LogicProject LogicAuth Middleware Netip Browser BrowserSpec LogicPublish LogicConfig LogicSnapshot LogicTransfer LogicDefinition ObjectStore Service Assets LocalStore Handlers PermissionSpec Ledger Secure HandlersAccess Server SchemaSpec SampleWorld AccessSpec.
From Stdlib Require Import Ascii.

Local Open Scope Z_scope.

Section endpoints.
Context {E : Engine} {EL : EngineLaws E} `{Collation} {St : Store} {SL : StoreLaws St}
  `{Protojson} `{MapOrder} `{Pepper} `{Argon2} {JL : JWTLib} `{SHA256} `{UnicodeLower} `{UUIDLib}
  {Au : Authorizer} {AL : AuthorizerLaws Au} {PC : PermissionCache} {PL : PermissionCacheLaws PC}
  {SA : SecureAuthorizer Au} `{Deployment}.

(** ** The endpoints

    [endpoint operation violation method need]: the handler registered for
    [operation] binds a request message whose [Validate] gives [violation] and
    calls [method]; [need u d] is what the account [u] must be granted by the
    rows of [d]. *)
Notation anyone := (λ _ _, True).
Notation grants e ks := (λ u d, allowed d u e ks).
Notation system := (λ u d, administers d u).
Inductive endpoint : ∀ {A}, string → option ValidationError → (Context_ → M A) →
    (Z → DB → Prop) → Prop :=
  | http_CreateConfig r : endpoint "/kirby.admin.v1.ConfigService/CreateConfig"
      (CreateConfigRequest_validate false r) (λ ctx, CreateConfig ctx r)
      (grants (CreateConfig_EnvironmentId r) [ConfigWrite])
  | http_UpdateConfig r : endpoint "/kirby.admin.v1.ConfigService/UpdateConfig"
      (UpdateConfigRequest_validate false r) (λ ctx, UpdateConfig ctx r)
      (grants (UpdateConfig_EnvironmentId r) [ConfigWrite; ConfigRead])
  | http_UpdateConfigValue r : endpoint "/kirby.admin.v1.ConfigService/UpdateConfigValue"
      (UpdateConfigValueRequest_validate false r) (λ ctx, UpdateConfigValue ctx r)
      (grants (UpdateConfigValue_EnvironmentId r) [ConfigWrite; ConfigRead])
  | http_ListConfig r : endpoint "/kirby.admin.v1.ConfigService/ListConfig"
      (ListConfigRequest_validate false r) (λ ctx, ListConfig ctx r)
      (grants (ListConfig_EnvironmentId r) [ConfigRead])
  | http_DeleteConfig r : endpoint "/kirby.admin.v1.ConfigService/DeleteConfig"
      (ConfigIDRequest_validate false r) (λ ctx, DeleteConfig ctx r)
      (grants (ConfigID_EnvironmentId r) [ConfigWrite])
  | http_ConfigDetail r : endpoint "/kirby.admin.v1.ConfigService/ConfigDetail"
      (ConfigIDRequest_validate false r) (λ ctx, ConfigDetail ctx r)
      (grants (ConfigID_EnvironmentId r) [ConfigRead; StructureRead; EnumRead])
  | http_CreateStructure r : endpoint "/kirby.admin.v1.StructureService/CreateStructure"
      (CreateStructureRequest_validate false r) (λ ctx, CreateStructure ctx r)
      (grants (CreateStructure_EnvironmentId r) [StructureWrite])
  | http_UpdateStructure r : endpoint "/kirby.admin.v1.StructureService/UpdateStructure"
      (UpdateStructureRequest_validate false r) (λ ctx, UpdateStructure ctx r)
      (grants (UpdateStructure_EnvironmentId r) [StructureWrite])
  | http_ListStructure r : endpoint "/kirby.admin.v1.StructureService/ListStructure"
      (ListStructureRequest_validate false r) (λ ctx, ListStructure ctx r)
      (grants (ListStructure_EnvironmentId r) [StructureRead])
  | http_DeleteStructure r : endpoint "/kirby.admin.v1.StructureService/DeleteStructure"
      (StructureIDRequest_validate false r) (λ ctx, DeleteStructure ctx r)
      (grants (StructureID_EnvironmentId r) [StructureWrite])
  | http_CreateEnum r : endpoint "/kirby.admin.v1.EnumService/CreateEnum"
      (CreateEnumRequest_validate false r) (λ ctx, CreateEnum ctx r)
      (grants (CreateEnum_EnvironmentId r) [EnumWrite])
  | http_UpdateEnum r : endpoint "/kirby.admin.v1.EnumService/UpdateEnum"
      (UpdateEnumRequest_validate false r) (λ ctx, UpdateEnum ctx r)
      (grants (UpdateEnum_EnvironmentId r) [EnumWrite])
  | http_ListEnum r : endpoint "/kirby.admin.v1.EnumService/ListEnum"
      (ListEnumRequest_validate false r) (λ ctx, ListEnum ctx r)
      (grants (ListEnum_EnvironmentId r) [EnumRead])
  | http_DeleteEnum r : endpoint "/kirby.admin.v1.EnumService/DeleteEnum"
      (EnumIDRequest_validate false r) (λ ctx, DeleteEnum ctx r)
      (grants (EnumID_EnvironmentId r) [EnumWrite])
  | http_CreateSnapshot r : endpoint "/kirby.admin.v1.SnapshotService/CreateSnapshot"
      (CreateSnapshotRequest_validate false r) (λ ctx, CreateSnapshot ctx r)
      (grants (CreateSnapshot_EnvironmentId r)
         [SnapshotWrite; ConfigRead; StructureRead; EnumRead])
  | http_PreviewCreatingSnapshot r :
      endpoint "/kirby.admin.v1.SnapshotService/PreviewCreatingSnapshot"
      (ConfigSnapshotRequest_validate false r) (λ ctx, PreviewCreatingSnapshot ctx r)
      (grants (ConfigSnapshot_EnvironmentId r)
         [SnapshotRead; ConfigRead; StructureRead; EnumRead])
  | http_DeleteSnapshot r : endpoint "/kirby.admin.v1.SnapshotService/DeleteSnapshot"
      (SnapshotIDRequest_validate false r) (λ ctx, DeleteSnapshot ctx r)
      (grants (SnapshotID_EnvironmentId r) [SnapshotWrite])
  | http_GetSnapshot r : endpoint "/kirby.admin.v1.SnapshotService/GetSnapshot"
      (SnapshotIDRequest_validate false r) (λ ctx, GetSnapshot ctx r)
      (grants (SnapshotID_EnvironmentId r) [SnapshotRead])
  | http_LoadSnapshot r : endpoint "/kirby.admin.v1.SnapshotService/LoadSnapshot"
      (LoadSnapshotRequest_validate false r) (λ ctx, LoadSnapshot ctx r)
      (grants (LoadSnapshot_EnvironmentId r)
         [SnapshotWrite; ConfigWrite; StructureWrite; EnumWrite;
          SnapshotRead; ConfigRead; StructureRead; EnumRead])
  | http_CurrentSnapshot r : endpoint "/kirby.admin.v1.SnapshotService/CurrentSnapshot"
      (ConfigSnapshotRequest_validate false r) (λ ctx, CurrentSnapshot ctx r)
      (grants (ConfigSnapshot_EnvironmentId r) [SnapshotRead])
  | http_ReleasedSnapshot r : endpoint "/kirby.admin.v1.SnapshotService/ReleasedSnapshot"
      (ConfigSnapshotRequest_validate false r) (λ ctx, ReleasedSnapshot ctx r)
      (grants (ConfigSnapshot_EnvironmentId r) [SnapshotRead])
  | http_ListSnapshot size r : endpoint "/kirby.admin.v1.SnapshotService/ListSnapshot"
      (ListSnapshotRequest_validate false r) (λ ctx, ListSnapshot size ctx r)
      (grants (ListSnapshot_EnvironmentId r) [SnapshotRead])
  | http_PublishSnapshot r : endpoint "/kirby.admin.v1.PublicationService/PublishSnapshot"
      (PublishSnapshotRequest_validate false r) (λ ctx, PublishSnapshot ctx r)
      (grants (PublishSnapshot_EnvironmentId r) [SnapshotPublish])
  | http_UnpublishSnapshot r : endpoint "/kirby.admin.v1.PublicationService/UnpublishSnapshot"
      (PublishSnapshotRequest_validate false r) (λ ctx, UnpublishSnapshot ctx r)
      (grants (PublishSnapshot_EnvironmentId r) [SnapshotPublish])
  | http_ExportSnapshot r :
      endpoint "/kirby.admin.v1.SnapshotTransferService/ExportSnapshot"
      (ExportSnapshotRequest_validate false r) (λ ctx, ExportSnapshot ctx r)
      (grants (ExportSnapshot_SourceEnvironmentId r)
         [SnapshotExport; SnapshotRead; ConfigRead; StructureRead; EnumRead])
  | http_ImportSnapshot r :
      endpoint "/kirby.admin.v1.SnapshotTransferService/ImportSnapshot"
      (ImportSnapshotRequest_validate false r) (λ ctx, ImportSnapshot ctx r)
      (λ u d, allowed d u (ImportSnapshot_SourceEnvironmentId r)
                [SnapshotExport; SnapshotRead; ConfigRead; StructureRead; EnumRead] ∧
              allowed d u (ImportSnapshot_TargetEnvironmentId r)
                [SnapshotImport; SnapshotWrite; ConfigWrite; StructureWrite; EnumWrite])
  | http_CreateProject r : endpoint "/kirby.admin.v1.ProjectService/CreateProject"
      (CreateProjectRequest_validate false r) (λ ctx, CreateProject ctx r) system
  | http_UpdateProject r : endpoint "/kirby.admin.v1.ProjectService/UpdateProject"
      (UpdateProjectRequest_validate false r) (λ ctx, UpdateProject ctx r) system
  | http_ListProject like r : endpoint "/kirby.admin.v1.ProjectService/ListProject"
      (ListProjectRequest_validate false r) (λ ctx, ListProject like ctx r)
      (λ u, may_see_projects u (default 0 (ListProject_EnvironmentId r)))
  | http_ProjectDetail r : endpoint "/kirby.admin.v1.ProjectService/ProjectDetail"
      (ProjectIDRequest_validate false r) (λ ctx, ProjectDetail ctx r)
      (λ u, may_see_projects u (default 0 (ProjectID_EnvironmentId r)))
  | http_ListProjectApiKeys r :
      endpoint "/kirby.admin.v1.ProjectApiKeyService/ListProjectApiKeys"
      (ProjectApiKeyScopeRequest_validate false r) (λ ctx, ListProjectApiKeys ctx r)
      (grants (ProjectApiKeyScope_EnvironmentId r) [ProjectAPIKeyRead])
  | http_CreateProjectApiKey r :
      endpoint "/kirby.admin.v1.ProjectApiKeyService/CreateProjectApiKey"
      (CreateProjectApiKeyRequest_validate false r) (λ ctx, CreateProjectApiKey ctx r)
      (grants (CreateProjectApiKey_EnvironmentId r) [ProjectAPIKeyManage])
  | http_RotateProjectApiKey r :
      endpoint "/kirby.admin.v1.ProjectApiKeyService/RotateProjectApiKey"
      (ProjectApiKeyIDRequest_validate false r) (λ ctx, RotateProjectApiKey ctx r)
      (grants (ProjectApiKeyID_EnvironmentId r) [ProjectAPIKeyManage])
  | http_RevokeProjectApiKey r :
      endpoint "/kirby.admin.v1.ProjectApiKeyService/RevokeProjectApiKey"
      (ProjectApiKeyIDRequest_validate false r) (λ ctx, RevokeProjectApiKey ctx r)
      (grants (ProjectApiKeyID_EnvironmentId r) [ProjectAPIKeyManage])
  | http_ListEnvironments r :
      endpoint "/kirby.admin.v1.EnvironmentService/ListEnvironments"
      (ListEnvironmentsRequest_validate false r) (λ ctx, ListEnvironments ctx r) anyone
  | http_CreateEnvironment r :
      endpoint "/kirby.admin.v1.EnvironmentService/CreateEnvironment"
      (CreateEnvironmentRequest_validate false r) (λ ctx, CreateEnvironment ctx r) system
  | http_UpdateEnvironment r :
      endpoint "/kirby.admin.v1.EnvironmentService/UpdateEnvironment"
      (UpdateEnvironmentRequest_validate false r) (λ ctx, UpdateEnvironment ctx r) system
  | http_MyPermissions r : endpoint "/kirby.admin.v1.EnvironmentService/MyPermissions"
      (EnvironmentIDRequest_validate false r) (λ ctx, MyPermissions ctx r) anyone
  | http_ListEnvironmentUsers r :
      endpoint "/kirby.admin.v1.EnvironmentService/ListEnvironmentUsers"
      (EnvironmentIDRequest_validate false r) (λ ctx, ListEnvironmentUsers ctx r)
      (grants (EnvironmentID_EnvironmentId r) [EnvironmentMemberManage])
  | http_UpdateEnvironmentUserRoles r :
      endpoint "/kirby.admin.v1.EnvironmentService/UpdateEnvironmentUserRoles"
      (UpdateEnvironmentUserRolesRequest_validate false r)
      (λ ctx, UpdateEnvironmentUserRoles ctx r)
      (grants (UpdateEnvironmentUserRoles_EnvironmentId r) [EnvironmentMemberManage])
  | http_ListRoles : endpoint "/kirby.admin.v1.RoleService/ListRoles" None ListRoles anyone
  | http_CreateRole r : endpoint "/kirby.admin.v1.RoleService/CreateRole"
      (CreateRoleRequest_validate false r) (λ ctx, CreateRole ctx r) system
  | http_UpdateRole r : endpoint "/kirby.admin.v1.RoleService/UpdateRole"
      (UpdateRoleRequest_validate false r) (λ ctx, UpdateRole ctx r) system
  | http_DeleteRole r : endpoint "/kirby.admin.v1.RoleService/DeleteRole"
      (RoleIDRequest_validate false r) (λ ctx, DeleteRole ctx r) system
  | http_ListPermissions :
      endpoint "/kirby.admin.v1.RoleService/ListPermissions" None ListPermissions system
  | http_UpdateRolePermissions r :
      endpoint "/kirby.admin.v1.RoleService/UpdateRolePermissions"
      (UpdateRolePermissionsRequest_validate false r) (λ ctx, UpdateRolePermissions ctx r) system
  | http_ListUsers : endpoint "/kirby.admin.v1.UserService/ListUsers" None ListUsers system
  | http_CreateUser r : endpoint "/kirby.admin.v1.UserService/CreateUser"
      (CreateUserRequest_validate false r)
      (λ ctx, CreateUser (passwords auth_logic) ctx r) system
  | http_UpdateUser r : endpoint "/kirby.admin.v1.UserService/UpdateUser"
      (UpdateUserRequest_validate false r) (λ ctx, UpdateUser ctx r) system
  | http_UpdateUserPassword r : endpoint "/kirby.admin.v1.UserService/UpdateUserPassword"
      (UpdateUserPasswordRequest_validate false r)
      (λ ctx, UpdateUserPassword (passwords auth_logic) ctx r)
      (λ u d, u = UpdateUserPassword_UserId r ∨ administers d u)
  | http_UpdateUserStatus r : endpoint "/kirby.admin.v1.UserService/UpdateUserStatus"
      (UpdateUserStatusRequest_validate false r) (λ ctx, UpdateUserStatus ctx r) system.

(** ** Requests move the server by steps *)

Definition walks {A} (m : M A) : Prop := ∀ w r w', m w = (r, w') → rtc step w w'.

Lemma walks_quiet {A} (m : M A) : quiet m → walks m.
Proof.
  intros Hm w r w' Hr. apply rtc_once. apply Hm in Hr as [Hd Hc].
  apply step_idle; [done|]. intros k v. by rewrite Hc.
Qed.
Lemma walks_handler {A} (m : M A) : handler m → walks m.
Proof. intros Hm w r w' Hr. apply rtc_once. by eapply step_handler. Qed.
Lemma walks_Read c p k : walks (LogicPublish.Read c p k).
Proof. intros w r w' Hr. apply rtc_once. by eapply step_read. Qed.
Lemma walks_bind {A B} (m : M A) (k : A → M B) : walks m → (∀ a, walks (k a)) → walks (m ≫= k).
Proof.
  intros Hm Hk w r w'. unfold mbind, M_bind. destruct (m w) as [[a|e] w1] eqn:Hr.
  - intros Hr2. etrans; [by eapply Hm|by eapply Hk].
  - intros [= <- <-]. by eapply Hm.
Qed.
Lemma walks_handle {A} h (m : M A) : walks m → walks (handle h m).
Proof.
  intros Hm w r w'. unfold handle. destruct (m w) as [[a|e] w1] eqn:Hr; intros [= <- <-];
    by eapply Hm.
Qed.
Lemma walks_lift {A} (x : result A) : walks (lift x).
Proof. apply walks_quiet, quiet_lift. Qed.

Lemma walks_with_actor {A} tr ctx (serve : Actor → M A) :
  (∀ a, walks (serve a)) → walks (with_actor tr ctx serve).
Proof.
  intros Hs. apply walks_bind; [|done]. apply walks_quiet, quiet_handle, quiet_actor.
Qed.
Lemma walks_replied {R P} (convert : R → result P) m : walks m → walks (replied convert m).
Proof.
  intros Hm. apply walks_bind; [by apply walks_handle|]. intros. apply walks_handle, walks_lift.
Qed.
Lemma walks_managed {R P} (convert : R → result P) m : walks m → walks (managed_reply convert m).
Proof.
  intros Hm. apply walks_bind; [by apply walks_handle|]. intros. apply walks_handle, walks_lift.
Qed.

#[local] Hint Constructors handler : core.
Ltac walks := repeat first
  [apply walks_with_actor; intros ? | apply walks_replied | apply walks_managed
  | apply walks_handle | apply walks_handler; by constructor].

Lemma endpoint_walks {A} op v (m : Context_ → M A) need ctx : endpoint op v m need → walks (m ctx).
Proof.
  intros []; try by walks.
  - apply walks_with_actor. intros a. apply walks_bind; [apply walks_handle, walks_lift|].
    intros page. by walks.
  - apply walks_with_actor. intros a. apply walks_bind; [|intros _; by walks].
    apply walks_quiet, quiet_handle. unfold VerifyProject. quiet.
Qed.

Lemma quiet_request_id t : quiet (request_id t).
Proof. unfold request_id. quiet. Qed.
Lemma walks_limit n k d s : walks (FixedWindowRateLimit n k d s).
Proof. by walks. Qed.
Lemma walks_principal t : walks (admin_principal (tokens auth_logic) t).
Proof.
  unfold admin_principal. case_match; [|apply walks_quiet, quiet_ret].
  apply walks_bind; [apply walks_limit|]. intros _.
  apply walks_bind; [by walks|]. intros. apply walks_quiet, quiet_ret.
Qed.
Lemma walks_credential t : walks (runtime_credential t).
Proof.
  unfold runtime_credential. case_match; [|apply walks_quiet, quiet_ret].
  apply walks_bind; [apply walks_limit|]. intros _. apply walks_quiet. quiet.
Qed.
Lemma walks_serve {A} t v (m : Context_ → M A) :
  (∀ ctx, walks (m ctx)) → walks (serve_http (tokens auth_logic) t v m).
Proof.
  intros Hm. apply walks_bind; [apply walks_quiet, quiet_request_id|]. intros rid.
  apply walks_bind. { apply walks_quiet. unfold validateRequest. case_match; quiet. }
  intros _. apply walks_bind; [unfold unless_m; case_match; [apply walks_quiet; quiet|apply walks_limit]|].
  intros _. apply walks_bind; [apply walks_principal|]. intros p.
  apply walks_bind; [apply walks_credential|]. intros c. apply Hm.
Qed.
Lemma walks_http {A} trusted http op v (m : Context_ → M A) :
  (∀ ctx, walks (m ctx)) → walks (handle_http (tokens auth_logic) trusted http op v m).
Proof.
  intros Hm. unfold handle_http. case_match; [by apply walks_serve|apply walks_quiet, quiet_throw].
Qed.
Lemma walks_runtime ctx r : walks (runtime_Config ctx r).
Proof.
  unfold runtime_Config. case_match; [|apply walks_quiet, quiet_throw].
  apply walks_bind; [apply walks_handle, walks_Read|]. intros. apply walks_quiet, quiet_ret.
Qed.

(** ** What a request demands *)

Lemma guarded_handle {A} h (m : M A) ok : guarded m ok → guarded (handle h m) ok.
Proof.
  intros Hm w r w' HS. unfold handle. destruct (m w) as [x w1] eqn:Hr.
  destruct (Hm _ _ _ HS Hr) as [Hok|[[e ->] Hd]]; [by left|]. intros [= <- <-]. right. eauto.
Qed.
Lemma guarded_demands {A} (m : M A) ok : demands m ok → guarded m ok.
Proof. apply demands_guarded. Qed.
Lemma guarded_replied {R P} (convert : R → result P) m ok :
  guarded m ok → guarded (replied convert m) ok.
Proof. intros Hm. by apply guarded_bind, guarded_handle. Qed.
Lemma guarded_managed {R P} (convert : R → result P) m ok :
  guarded m ok → guarded (managed_reply convert m) ok.
Proof. intros Hm. by apply guarded_bind, guarded_handle. Qed.
(** Behind a step that leaves the database and the cache alone. *)
Lemma guarded_after {A B} (m : M A) (k : A → M B) ok :
  quiet m → (∀ a, guarded (k a) ok) → guarded (m ≫= k) ok.
Proof.
  intros Hq Hk w r w' HS. unfold mbind, M_bind. destruct (m w) as [[a|e] w1] eqn:Hr;
    apply Hq in Hr as Hsame.
  - intros Hr2. destruct (Hk a _ _ _ (secure_same _ _ Hsame HS) Hr2) as [Hok|[He Hd]];
      destruct Hsame as [Hd1 _]; rewrite Hd1 in *; [by left|by right].
  - intros [= <- <-]. right. split; [eauto|apply Hsame].
Qed.

Lemma guarded_with_actor {A} tr ctx (serve : Actor → M A) (need : Z → DB → Prop) :
  (∀ a, guarded (serve a) (need (UserID a))) →
  guarded (with_actor tr ctx serve) (λ d, ∃ u, cx_principal ctx = Some u ∧ need u d).
Proof.
  intros Hs w r w' HS. unfold with_actor, mbind, M_bind.
  destruct (handle tr _ w) as [[a|e] w1] eqn:Hr;
    pose proof (quiet_handle tr _ (quiet_actor _ _) _ _ _ Hr) as Hsame.
  - apply run_handle, actor_of in Hr. intros Hr2.
    destruct (Hs a _ _ _ (secure_same _ _ Hsame HS) Hr2) as [Hok|[He Hd]];
      destruct Hsame as [Hd1 _]; rewrite Hd1 in *; [left; eauto|by right].
  - intros [= <- <-]. right. split; [eauto|apply Hsame].
Qed.

#[local] Hint Constructors demands : core.
Ltac guards := apply guarded_with_actor; intros a;
  first [apply guarded_true; done
        | repeat first [apply guarded_replied | apply guarded_managed | apply guarded_handle];
          first [apply guarded_demands; by constructor
                | eapply guarded_weaken; [|apply guarded_demands; by constructor]; naive_solver]].

Lemma endpoint_guarded {A} op v (m : Context_ → M A) need ctx : endpoint op v m need →
  guarded (m ctx) (λ d, ∃ u, cx_principal ctx = Some u ∧ need u d).
Proof.
  intros []; try by guards.
  - apply guarded_with_actor. intros a. apply guarded_after; [apply quiet_handle, quiet_lift|].
    intros page. apply guarded_replied, guarded_demands. constructor.
  - apply guarded_with_actor. intros a. apply guarded_after.
    + apply quiet_handle. unfold VerifyProject. quiet.
    + intros _. apply guarded_managed, guarded_demands. constructor.
Qed.

(** ** What a response may say *)

Definition public_errors : list Err :=
  [EApi Forbidden "permission denied"; EApi NotFound "resource not found";
   EApi BadRequest "invalid request"; EApi Conflict "operation conflicts with current state";
   EApi Internal "operation failed"; EApi BadRequest "invalid configuration data";
   EApi Conflict "operation conflicts with current configuration";
   EApi Unauthorized "API key authentication failed";
   EApi Forbidden "API key does not belong to requested project";
   EApi BadRequest "invalid runtime config request"; EApi NotFound "runtime config was not found";
   EApi Internal "runtime config read failed"; EApi Internal "rate limiting is unavailable";
   EApi TooManyRequests "request rate limit exceeded"; EApi Unauthorized "authentication failed";
   EApi Internal "authentication is unavailable"; EApi Forbidden "password change required";
   EApi Forbidden "request origin is not allowed"; EApi BadRequest "client address is invalid";
   EApi TooManyRequests "too many authentication attempts";
   EApi Internal "setup status is unavailable"; EApi Internal "administrator setup failed";
   EApi Conflict "administrator setup is already complete";
   EApi BadRequest "administrator credentials are invalid";
   EApi BadRequest "administrator name is invalid";
   EApi BadRequest "administrator password is invalid";
   EApi InvalidParam "asset request is invalid"; EApi Forbidden "asset operation is not permitted";
   EApi NotFound "asset scope was not found"; EApi Conflict "asset upload was already completed";
   EApi BadRequest "uploaded asset failed integrity validation";
   EApi Internal "asset operation failed"; EApi Internal "HTTP request is unavailable";
   EApi BadRequest "public request address is invalid"].
Definition public (e : Err) : Prop := e ∈ public_errors.
Definition discreet {A} (m : M A) : Prop := ∀ w e w', m w = (Er e, w') → public e.

Ltac listed := unfold public, public_errors; solve [repeat first [apply list_elem_of_here | apply list_elem_of_further]].
Lemma public_permission e : public (permission_APIError e).
Proof. unfold permission_APIError. repeat case_match; listed. Qed.
Lemma public_api e : public (apiError e).
Proof. unfold apiError. repeat case_match; try listed. apply public_permission. Qed.
Lemma public_runtime e : public (runtimePublicError e).
Proof. unfold runtimePublicError. repeat case_match; listed. Qed.

Lemma discreet_bind {A B} (m : M A) (k : A → M B) :
  discreet m → (∀ a, discreet (k a)) → discreet (m ≫= k).
Proof.
  intros Hm Hk w e w'. unfold mbind, M_bind. destruct (m w) as [[a|e'] w1] eqn:Hr.
  - apply Hk.
  - intros [= <- <-]. by eapply Hm.
Qed.
Lemma discreet_handle {A} h (m : M A) : (∀ e, public (h e)) → discreet (handle h m).
Proof.
  intros Hh w e w'. unfold handle. destruct (m w) as [[a|e'] w1]; [done|].
  intros [= <- <-]. apply Hh.
Qed.
Lemma discreet_ret {A} (a : A) : discreet (mret (M := M) a).
Proof. by intros w e w' [=]. Qed.
Lemma discreet_throw {A} e : public e → discreet (throw (A := A) e).
Proof. by intros He w e' w' [= <- _]. Qed.
Lemma discreet_when b e : public e → discreet (when_err b e).
Proof. intros He. unfold when_err. destruct b; [by apply discreet_throw|apply discreet_ret]. Qed.
Lemma discreet_lift {A} (x : result A) : (∀ e, x = Er e → public e) → discreet (lift x).
Proof. by intros Hx w e w' [= -> _]; apply Hx. Qed.
Lemma discreet_now : discreet now.
Proof. by intros w e w' [=]. Qed.

Lemma discreet_with_actor {A} tr ctx (serve : Actor → M A) :
  (∀ e, public (tr e)) → (∀ a, discreet (serve a)) → discreet (with_actor tr ctx serve).
Proof. intros Htr Hs. apply discreet_bind; [by apply discreet_handle|done]. Qed.
Lemma discreet_replied {R P} (convert : R → result P) m : discreet (replied convert m).
Proof. apply discreet_bind; intros; apply discreet_handle, public_api. Qed.
Lemma discreet_managed {R P} (convert : R → result P) m : discreet (managed_reply convert m).
Proof.
  apply discreet_bind; intros; apply discreet_handle; [apply public_permission|intros _; listed].
Qed.
#[local] Hint Resolve public_api public_permission public_runtime discreet_replied
  discreet_managed : core.

Lemma endpoint_discreet {A} op v (m : Context_ → M A) need ctx :
  endpoint op v m need → discreet (m ctx).
Proof.
  intros []; (apply discreet_with_actor; [auto|intros a]);
    try solve [apply discreet_replied|apply discreet_managed|apply discreet_handle; auto].
  - apply discreet_bind; [by apply discreet_handle|auto].
  - apply discreet_bind; [by apply discreet_handle|auto].
Qed.
Lemma discreet_runtime ctx r : discreet (runtime_Config ctx r).
Proof.
  unfold runtime_Config. case_match; [|apply discreet_throw; listed].
  apply discreet_bind; [by apply discreet_handle|intros; apply discreet_ret].
Qed.

Lemma discreet_limit n k t s : discreet (FixedWindowRateLimit n k t s).
Proof.
  unfold FixedWindowRateLimit. apply discreet_bind; [apply discreet_when; listed|intros _].
  apply discreet_bind; [apply discreet_handle; intros; listed|].
  intros. apply discreet_when. listed.
Qed.
Lemma token_user_discreet m t s e : token_user m t s = Er e → e = unauthorized.
Proof.
  unfold token_user. destruct (fields s) as [|scheme [|encoded [|]]]; try by intros [= <-].
  unfold guard_err. destruct (is_bearer scheme); simpl; [|by intros [= <-]].
  destruct (jwt_Verify m t encoded) as [claims|e']; [|by intros [= <-]].
  destruct (claims_UserID claims); [done|by intros [= <-]].
Qed.
Lemma discreet_AdminAuth m t : discreet (AdminAuth m t).
Proof.
  unfold AdminAuth. apply discreet_bind; [apply discreet_now|intros n].
  apply discreet_bind.
  { apply discreet_lift. intros e ->%token_user_discreet. unfold unauthorized. listed. }
  intros [claims u]. apply discreet_bind.
  { apply discreet_handle. intros e. case_match; unfold unauthorized; listed. }
  intros user. apply discreet_bind; [apply discreet_when; unfold unauthorized; listed|intros _].
  apply discreet_bind; [apply discreet_when; listed|intros _]. apply discreet_ret.
Qed.
Lemma discreet_principal m t : discreet (admin_principal m t).
Proof.
  unfold admin_principal. case_match; [|apply discreet_ret].
  apply discreet_bind; [apply discreet_limit|intros _].
  apply discreet_bind; [apply discreet_AdminAuth|intros p; apply discreet_ret].
Qed.
Lemma discreet_credential t : discreet (runtime_credential t).
Proof.
  unfold runtime_credential. case_match; [|apply discreet_ret].
  apply discreet_bind; [apply discreet_limit|intros _].
  apply discreet_bind; [|intros c; apply discreet_ret].
  apply discreet_lift. unfold HTTPAPIKey, guard_err. intros e. case_match; [|done].
  intros [= <-]. listed.
Qed.

(** Before the method runs: [v] is the violation of the message, if any. *)
Lemma serve_errors {A} m t v (method : Context_ → M A) w e w' :
  (∀ ctx, discreet (method ctx)) → serve_http m t v method w = (Er e, w') →
  public e ∨ ∃ violation, v = Some violation ∧ e = EApi BadRequest (Error violation).
Proof.
  intros Hm. unfold serve_http, mbind at 1, M_bind.
  destruct (request_id t w) as [[rid|e0] w1] eqn:Hid.
  2:{ unfold request_id in Hid. destruct (safeRequestID _); discriminate Hid. }
  destruct v as [violation|].
  { intros [= <- _]. right. eauto. }
  intros Hr. left. revert Hr.
  match goal with |- ?m w1 = _ → _ => assert (discreet m) as Hd; [|by apply Hd] end.
  apply discreet_bind; [apply discreet_ret|intros _].
  apply discreet_bind; [unfold unless_m; case_match; [apply discreet_ret|apply discreet_limit]|].
  intros _. apply discreet_bind; [apply discreet_principal|intros p].
  apply discreet_bind; [apply discreet_credential|intros c; apply Hm].
Qed.

Lemma http_errors {A} tok trusted http op v (method : Context_ → M A) w e w' :
  (∀ ctx, discreet (method ctx)) → handle_http tok trusted http op v method w = (Er e, w') →
  public e ∨ ∃ violation, v = Some violation ∧ e = EApi BadRequest (Error violation).
Proof.
  intros Hm. unfold handle_http. case_match; [by apply serve_errors|]. intros [= <- _]. left. listed.
Qed.

(** A method that answers ran. *)
Lemma http_ran {A} tok trusted http op v (method : Context_ → M A) w a w' :
  handle_http tok trusted http op v method w = (Ok a, w') → ∃ ctx w1, method ctx w1 = (Ok a, w').
Proof.
  unfold handle_http. case_match; [|done]. unfold serve_http. intros Hr.
  repeat match type of Hr with (_ ≫= _) _ = _ => apply run_bind in Hr as (? & ? & _ & Hr) end. eauto.
Qed.

(** ** Accounts

    The endpoints of the authentication and setup services.  They read the HTTP
    request itself, and answer with cookies. *)

Definition plain {A} (m : M A) : M (Answer A) := r ← attempt m; mret (answer [] r).

Inductive account_endpoint (trusted : list Prefix) (http : HTTPRequest) :
    ∀ {A}, string → option ValidationError → (Context_ → M (Answer A)) → Prop :=
  | http_Login r : account_endpoint trusted http OperationAuthServiceLogin
      (LoginRequest_validate false r) (λ _, service_Login auth_logic trusted http r)
  | http_Refresh : account_endpoint trusted http OperationAuthServiceRefresh
      None (λ _, service_Refresh auth_logic trusted http)
  | http_Logout : account_endpoint trusted http OperationAuthServiceLogout
      None (λ _, service_Logout trusted http)
  | http_Me : account_endpoint trusted http "/kirby.admin.v1.AuthService/Me"
      None (λ ctx, plain (service_Me ctx))
  | http_GetSetupStatus : account_endpoint trusted http OperationSetupServiceGetSetupStatus
      None (λ _, plain service_GetSetupStatus)
  | http_CreateInitialAdmin r : account_endpoint trusted http OperationSetupServiceCreateInitialAdmin
      (CreateInitialAdminRequest_validate false r)
      (λ _, plain (service_CreateInitialAdmin auth_logic trusted http r)).

Lemma walks_attempt {A} (m : M A) : walks m → walks (attempt m).
Proof.
  intros Hm w r w'. unfold attempt. destruct (m w) as [x w1] eqn:Hr. intros [= <- <-]. by eapply Hm.
Qed.
Lemma walks_ret {A} (a : A) : walks (mret (M := M) a).
Proof. apply walks_quiet, quiet_ret. Qed.
Lemma walks_plain {A} (m : M A) : walks m → walks (plain m).
Proof. intros Hm. apply walks_bind; [by apply walks_attempt|]. intros. apply walks_ret. Qed.
Lemma walks_signed_in o c a : walks (signed_in o c a).
Proof. apply walks_quiet. unfold signed_in. quiet. Qed.
#[local] Hint Resolve walks_ret walks_signed_in : core.

Lemma account_walks {A} trusted http op v (m : Context_ → M (Answer A)) ctx :
  account_endpoint trusted http op v m → walks (m ctx).
Proof.
  intros [].
  - unfold service_Login. case_match; [|auto]. case_match; [auto|]. case_match; [|auto].
    apply walks_bind; [apply walks_attempt, walks_handler; auto|]. intros [x|e]; auto.
  - unfold service_Refresh. case_match; [|auto]. destruct (request_Cookie http) as [[|c s]|]; [auto| |auto].
    apply walks_bind; [apply walks_handle, walks_handler; auto|]. intros [clear [x|e]]; auto.
  - unfold service_Logout. case_match; [|auto]. apply walks_bind; [|intros [x|e]; auto].
    destruct (request_Cookie http) as [[|c s]|]; [auto| |auto].
    apply walks_attempt, walks_handler; auto.
  - apply walks_plain. unfold service_Me. case_match; [|apply walks_quiet, quiet_throw].
    apply walks_bind; [apply walks_handle, walks_handler; auto|].
    intros. apply walks_handle, walks_lift.
  - apply walks_plain, walks_handle, walks_handler; auto.
  - apply walks_plain. unfold service_CreateInitialAdmin. case_match; [|apply walks_quiet, quiet_throw].
    apply walks_bind; [apply walks_lift|]. intros _. apply walks_handle, walks_handler; auto.
Qed.

(** *** Errors in an answer *)

Definition discreet_answer {A} (m : M (Answer A)) : Prop :=
  ∀ w r w', m w = (r, w') → match r with Ok (_, Er e) | Er e => public e | Ok (_, Ok _) => True end.

Lemma answer_ret {A} c (r : result A) : (∀ e, r = Er e → public e) →
  discreet_answer (mret (M := M) (answer c r)).
Proof. intros Hr w x w' [= <- <-]. destruct r; [done|by apply Hr]. Qed.
Lemma answer_bind {A B} (m : M B) (k : B → M (Answer A)) :
  discreet m → (∀ b, discreet_answer (k b)) → discreet_answer (m ≫= k).
Proof.
  intros Hm Hk w r w'. unfold mbind, M_bind. destruct (m w) as [[b|e] w1] eqn:Hr; [apply Hk|].
  intros [= <- <-]. by eapply Hm.
Qed.
Lemma answer_plain {A} (m : M A) : discreet m → discreet_answer (plain m).
Proof.
  intros Hm w r w'. unfold plain, attempt, mbind, M_bind. destruct (m w) as [[a|e] w1] eqn:Hr;
    intros [= <- <-]; [done|]. by eapply Hm.
Qed.
Lemma public_auth e : public (authAPIError e).
Proof. unfold authAPIError. repeat case_match; listed. Qed.
Lemma public_setup e : public (setupError e).
Proof. unfold setupError. case_match; listed. Qed.
Lemma public_origin trusted http e : validatedOriginRequest trusted http = Er e → public e.
Proof. unfold validatedOriginRequest. case_match; [done|]. intros [= <-]. listed. Qed.
Lemma loginReply_errors a t u e : loginReply a t u = Er e → public e.
Proof.
  unfold loginReply. case_match; [|intros [= <-]; apply public_auth].
  case_match; [|intros [= <-]; apply public_auth]. unfold guard_err. case_match; [|done].
  intros [= <-]. apply public_auth.
Qed.
Lemma initial_errors r e : validateInitialAdmin r = Er e → public e.
Proof.
  unfold validateInitialAdmin. intros He.
  assert (∀ b x y, guard_err b x = Er y → x = y) as Hguard by (by intros [] x y [=]).
  apply bind_Er in He as [He%Hguard|(_ & _ & He)]; [subst; listed|].
  apply bind_Er in He as [He%Hguard|(_ & _ & He)]; [subst; listed|].
  apply Hguard in He as <-. listed.
Qed.
Lemma answer_signed o c a : discreet_answer (signed_in o c a).
Proof. apply answer_bind; [apply discreet_now|]. intros t. apply answer_ret. intros e. apply loginReply_errors. Qed.
Lemma discreet_attempt {A} (m : M A) : discreet (attempt m).
Proof. intros w e w'. unfold attempt. by destruct (m w). Qed.
#[local] Hint Resolve public_auth public_setup answer_signed discreet_attempt : core.
Ltac said := apply answer_ret; intros ? [= <-]; first [by apply public_auth | unfold authenticationFailed; listed].

Lemma account_discreet {A} trusted http op v (m : Context_ → M (Answer A)) ctx :
  account_endpoint trusted http op v m → discreet_answer (m ctx).
Proof.
  intros [].
  - unfold service_Login. destruct (validatedOriginRequest trusted http) eqn:Ho;
      [|apply answer_ret; intros ? [= <-]; by eapply public_origin].
    case_match; [said|]. case_match; [|said]. apply answer_bind; [done|]. intros [x|e]; [auto|said].
  - unfold service_Refresh. destruct (validatedOriginRequest trusted http) eqn:Ho;
      [|apply answer_ret; intros ? [= <-]; by eapply public_origin].
    destruct (request_Cookie http) as [[|c s]|]; [said| |said].
    apply answer_bind; [by apply discreet_handle|]. intros [clear [x|e]]; [auto|said].
  - unfold service_Logout. destruct (validatedOriginRequest trusted http) eqn:Ho;
      [|apply answer_ret; intros ? [= <-]; by eapply public_origin].
    apply answer_bind; [|intros [x|e]; [by apply answer_ret|said]].
    destruct (request_Cookie http) as [[|c s]|]; [apply discreet_ret|auto|apply discreet_ret].
  - apply answer_plain. unfold service_Me. case_match; [|apply discreet_throw; unfold authenticationFailed; listed].
    apply discreet_bind; [by apply discreet_handle|]. intros. by apply discreet_handle.
  - apply answer_plain, discreet_handle. intros. listed.
  - apply answer_plain. unfold service_CreateInitialAdmin. case_match; [|apply discreet_throw; listed].
    apply discreet_bind; [|intros _; by apply discreet_handle].
    apply discreet_lift. intros e. apply initial_errors.
Qed.

(** ** Assets

    The endpoints of the asset service use the object storage besides the rows.
    [with_storage s m] is a method that finds the storage in the state [s]; it
    answers with the state it leaves. *)

Definition with_storage {Sto A} (s : Sto) (m : OM Sto A) : M (Sto * result A) := λ w,
  let '(r, s', w') := m s w in (Ok (s', r), w').

Section storage.
Context {Sto : Type} {OS : ObjectStorage Sto}.

Inductive asset_endpoint (sameOrigin : bool) (trusted : list Prefix) (http : HTTPRequest) :
    ∀ {A}, string → option ValidationError → (Context_ → OM Sto A) → Prop :=
  | http_PresignAsset r : asset_endpoint sameOrigin trusted http
      "/kirby.admin.v1.AssetService/PresignAsset"
      (PresignAssetRequest_validate false r) (λ ctx, PresignAsset ctx r)
  | http_CompleteAsset r : asset_endpoint sameOrigin trusted http
      "/kirby.admin.v1.AssetService/CompleteAsset"
      (CompleteAssetRequest_validate false r)
      (λ ctx, CompleteAsset sameOrigin trusted (Some http) ctx r).

Definition owalks {A} (m : OM Sto A) : Prop := ∀ s w r s' w', m s w = (r, s', w') → rtc step w w'.

Lemma owalks_outward {A} (m : OM Sto A) : outward m → owalks m.
Proof.
  intros Hm s w r s' w' Hr. apply rtc_once. apply Hm in Hr as [Hd Hc].
  apply step_idle; [done|]. intros k v. by rewrite Hc.
Qed.
Lemma owalks_bind {A B} (m : OM Sto A) (k : A → OM Sto B) :
  owalks m → (∀ a, owalks (k a)) → owalks (m ≫= k).
Proof.
  intros Hm Hk s w r s' w'. unfold mbind, OM_bind. destruct (m s w) as [[[a|e] s1] w1] eqn:Hr.
  - intros Hr2. etrans; [by eapply Hm|by eapply Hk].
  - intros [= <- <- <-]. by eapply Hm.
Qed.
Lemma owalks_handle {A} h (m : OM Sto A) : owalks m → owalks (o_handle h m).
Proof.
  intros Hm s w r s' w'. unfold o_handle. destruct (m s w) as [[[a|e] s1] w1] eqn:Hr;
    intros [= <- <- <-]; by eapply Hm.
Qed.
Lemma owalks_access ctx e p : owalks (on_world (requireAccess ctx e p)).
Proof.
  intros s w r s' w'. unfold on_world. destruct (requireAccess ctx e p w) as [x w1] eqn:Hr.
  intros [= <- <- <-]. exact (walks_handler _ (serve_asset_access ctx e p) _ _ _ Hr).
Qed.

Ltac owalks := repeat match goal with
  | |- owalks (o_handle _ _) => apply owalks_handle
  | |- owalks (on_world (requireAccess _ _ _)) => apply owalks_access
  | |- owalks (_ ≫= _) => apply owalks_bind; [|intros ?]
  | |- owalks (let _ := _ in _) => cbv zeta
  | |- owalks (match ?x with _ => _ end) => destruct x
  | |- owalks _ => apply owalks_outward; unfold completeObject, validatePublication, newID; outward
  end.
Lemma asset_walks `{!StorageLaws OS} {A} sameOrigin trusted http op v (m : Context_ → OM Sto A) ctx :
  asset_endpoint sameOrigin trusted http op v m → owalks (m ctx).
Proof.
  intros [].
  - unfold PresignAsset, asset_Presign. owalks.
  - unfold CompleteAsset, asset_Complete. owalks.
Qed.
Lemma walks_with_storage {A} s (m : OM Sto A) : owalks m → walks (with_storage s m).
Proof.
  intros Hm w r w'. unfold with_storage. destruct (m s w) as [[x s1] w1] eqn:Hr.
  intros [= <- <-]. by eapply Hm.
Qed.

(** *** What their answers may say *)

Definition odiscreet {A} (m : OM Sto A) : Prop := ∀ s w e s' w', m s w = (Er e, s', w') → public e.
Lemma odiscreet_bind {A B} (m : OM Sto A) (k : A → OM Sto B) :
  odiscreet m → (∀ a, odiscreet (k a)) → odiscreet (m ≫= k).
Proof.
  intros Hm Hk s w e s' w'. unfold mbind, OM_bind. destruct (m s w) as [[[a|x] s1] w1] eqn:Hr; [apply Hk|].
  intros [= <- <- <-]. by eapply Hm.
Qed.
Lemma odiscreet_handle {A} h (m : OM Sto A) : (∀ e, public (h e)) → odiscreet (o_handle h m).
Proof.
  intros Hh s w e s' w'. unfold o_handle. destruct (m s w) as [[[a|x] s1] w1]; [done|].
  intros [= <- _ _]. apply Hh.
Qed.
Lemma odiscreet_ret {A} (a : A) : odiscreet (mret a).
Proof. by intros s w e s' w' [=]. Qed.
Lemma public_asset e : public (assetPublicError e).
Proof. unfold assetPublicError. repeat case_match; listed. Qed.
Lemma assetOrigin_errors same trusted http e : assetOrigin same trusted http = Er e → public e.
Proof. unfold assetOrigin. repeat case_match; try done; intros [= <-]; listed. Qed.
#[local] Hint Resolve public_asset odiscreet_ret : core.

Lemma asset_discreet {A} sameOrigin trusted http op v (m : Context_ → OM Sto A) ctx :
  asset_endpoint sameOrigin trusted http op v m → odiscreet (m ctx).
Proof.
  intros [].
  - unfold PresignAsset. apply odiscreet_bind; [by apply odiscreet_handle|auto].
  - unfold CompleteAsset. apply odiscreet_bind.
    { intros s w e s' w' [= He _ _]. by eapply assetOrigin_errors. }
    intros origin. apply odiscreet_bind; [by apply odiscreet_handle|auto].
Qed.

(** ** The server as its clients see it *)

(** A request of any endpoint with any message and any headers, a runtime
    read, or what touches neither rows nor cache but for entries that expire: the
    passing of time, a request whose message cannot be read or that no route
    takes, and the files of the object storage. *)
Inductive request (sameOrigin : bool) (trusted : list Prefix) (w w' : World) : Prop :=
  | request_admin {A} op v (m : Context_ → M A) need http r :
      endpoint op v m need →
      handle_http (tokens auth_logic) trusted http op v m w = (r, w') → request sameOrigin trusted w w'
  | request_account {A} op v (m : Context_ → M (Answer A)) http r :
      account_endpoint trusted http op v m →
      handle_http (tokens auth_logic) trusted http op v m w = (r, w') → request sameOrigin trusted w w'
  | request_asset {A} op v (m : Context_ → OM Sto A) http s r :
      asset_endpoint sameOrigin trusted http op v m →
      handle_http (tokens auth_logic) trusted http op v (λ ctx, with_storage s (m ctx)) w = (r, w') →
      request sameOrigin trusted w w'
  | request_runtime q http r :
      handle_http (tokens auth_logic) trusted http OperationApiConfig (ConfigRequest_validate false q)
        (λ ctx, runtime_Config ctx q) w = (r, w') → request sameOrigin trusted w w'
  | request_idle : db w' = db w → (∀ k v, holds (cache w') k v → holds (cache w) k v) →
      request sameOrigin trusted w w'.

(** C38: the HTTP interface refines the transition system of the logic layer.
    However requests of all the endpoints follow each other, those of the asset
    service over any provider that keeps its state to itself included, and
    whatever their messages, headers and failures, the states they lead to are
    reachable by steps, so every theorem about reachable states holds of the
    server behind its interface. *)
Theorem requests_are_steps `{!StorageLaws OS} sameOrigin trusted w w' :
  rtc (request sameOrigin trusted) w w' → rtc step w w'.
Proof.
  induction 1 as [w|w1 w2 w3 Hq _ IH]; [done|]. etrans; [|exact IH]. clear IH.
  destruct Hq as [A op v m need http r He Hr|A op v m http r He Hr|A op v m http s r He Hr|q http r Hr|Hd Hc].
  - eapply walks_http; [|exact Hr]. intros ctx. by eapply endpoint_walks.
  - eapply walks_http; [|exact Hr]. intros ctx. by eapply account_walks.
  - eapply walks_http; [|exact Hr]. intros ctx. apply walks_with_storage. by eapply asset_walks.
  - eapply walks_http; [|exact Hr]. intros ctx. apply walks_runtime.
  - apply rtc_once. by apply step_idle.
Qed.

(** C36: no response carries an internal error.  Once the message of a request
    has been read, every error that an endpoint of the administration, of the
    accounts or of the assets, or the runtime API answers with is one of a fixed
    list of codes and texts, or names the field of the message that violates its
    rules.  (What the transport library says of a body, a query or a path it
    cannot decode is answered before any code of the server runs.) *)
Theorem errors_are_public sameOrigin trusted http w w' e :
  (∀ A op v (m : Context_ → M A) need, endpoint op v m need →
     handle_http (tokens auth_logic) trusted http op v m w = (Er e, w') →
     e ∈ public_errors ∨ ∃ x, v = Some x ∧ e = EApi BadRequest (Error x)) ∧
  (∀ A op v (m : Context_ → M (Answer A)) r, account_endpoint trusted http op v m →
     handle_http (tokens auth_logic) trusted http op v m w = (r, w') →
     r = Er e ∨ (∃ cookies, r = Ok (cookies, Er e)) →
     e ∈ public_errors ∨ ∃ x, v = Some x ∧ e = EApi BadRequest (Error x)) ∧
  (∀ A op v (m : Context_ → OM Sto A) s r, asset_endpoint sameOrigin trusted http op v m →
     handle_http (tokens auth_logic) trusted http op v (λ ctx, with_storage s (m ctx)) w = (r, w') →
     r = Er e ∨ (∃ s', r = Ok (s', Er e)) →
     e ∈ public_errors ∨ ∃ x, v = Some x ∧ e = EApi BadRequest (Error x)) ∧
  (∀ q, handle_http (tokens auth_logic) trusted http OperationApiConfig (ConfigRequest_validate false q)
       (λ ctx, runtime_Config ctx q) w = (Er e, w') →
     e ∈ public_errors ∨
     ∃ x, ConfigRequest_validate false q = Some x ∧ e = EApi BadRequest (Error x)).
Proof.
  split_and!.
  - intros A op v m need He Hr. eapply http_errors; [|exact Hr]. intros ctx. by eapply endpoint_discreet.
  - intros A op v m r He Hr [->|[cookies ->]].
    + eapply http_errors; [|exact Hr]. intros ctx w1 e1 w2 Hm.
      exact (account_discreet _ _ _ _ _ ctx He _ _ _ Hm).
    + left. apply http_ran in Hr as (ctx & w1 & Hr). exact (account_discreet _ _ _ _ _ ctx He _ _ _ Hr).
  - intros A op v m s r He Hr [->|[s' ->]].
    + eapply http_errors; [|exact Hr]. intros ctx w1 e1 w2. unfold with_storage.
      by destruct (m ctx s w1) as [[x s1] w3].
    + left. apply http_ran in Hr as (ctx & w1 & Hr). unfold with_storage in Hr.
      destruct (m ctx s w1) as [[x s1] w2] eqn:Hm. injection Hr as <- -> <-.
      by eapply asset_discreet.
  - intros q Hr. eapply http_errors; [|exact Hr]. intros ctx. apply discreet_runtime.
Qed.
End storage.

Lemma endpoint_selected {A} op v (m : Context_ → M A) need : endpoint op v m need →
  auth_selected op = false ∧ admin_selected op = true ∧ op ≠ OperationApiConfig.
Proof. intros []; split_and!; done || by vm_compute. Qed.

Lemma reads_limit n k d s : reads (FixedWindowRateLimit n k d s).
Proof.
  unfold FixedWindowRateLimit. apply reads_bind; [apply reads_quiet; quiet|]. intros _.
  apply reads_bind; [|intros; apply reads_quiet; quiet].
  intros w r w'. unfold handle. destruct (cache_increment _ _ w) as [[x|e] w1] eqn:Hr;
    intros [= _ <-]; by eapply reads_increment.
Qed.
Lemma run_request_id t w r w' : request_id t w = (r, w') →
  (∃ rid, r = Ok rid) ∧ same_store w w' ∧ clock w' = clock w ∧ ticks w' = ticks w.
Proof.
  intros Hr. pose proof (quiet_request_id t _ _ _ Hr) as Hs. unfold request_id in Hr.
  destruct (safeRequestID _); injection Hr as <- <-; eauto.
Qed.

(** The account a request is made for, by the token in its header: the token
    verifies at that moment and the account may use the operation. *)
Definition identified (t : Transport) (w : World) (u : Z) : Prop :=
  ∃ claims user,
    token_user (tokens auth_logic) (clock w (S (ticks w))) (header t "Authorization")
      = Ok (claims, u) ∧
    within_bounds (tokens auth_logic) (clock w (S (ticks w))) claims = true ∧
    rows (users (db w)) !! u = Some user ∧ usr_Enabled user = true ∧
    live (usr_meta user) = true ∧
    (usr_MustChangePassword user = true → operation t = passwordOperation).

Lemma token_bounds `{!JWTLaws JL} m t s claims u :
  token_user m t s = Ok (claims, u) → within_bounds m t claims = true.
Proof.
  unfold token_user. destruct (fields s) as [|scheme [|encoded [|]]]; try done.
  intros Htok. apply bind_Ok in Htok as (y & _ & Htok).
  destruct (jwt_Verify m t encoded) as [c|e] eqn:Hv; [|done].
  destruct (claims_UserID c); [|done]. injection Htok as -> _. unfold jwt_Verify in Hv.
  destruct (blank encoded); [done|]. destruct (ParseWithClaims _ _ encoded) eqn:Hparse; [|done].
  apply parse_accepts in Hparse. repeat case_match; congruence.
Qed.

(** What [admin_principal] finds, or why it stops, without touching the rows. *)
Lemma run_principal `{!JWTLaws JL} t w p w' : admin_selected (operation t) = true →
  admin_principal (tokens auth_logic) t w = (p, w') → Secure w →
  db w' = db w ∧ Secure w' ∧
  match p with Ok p => ∃ u, p = Some u ∧ identified t w u | Er _ => True end.
Proof.
  intros Hsel Hr HS. unfold admin_principal in Hr. rewrite Hsel in Hr. revert Hr.
  unfold mbind at 1, M_bind. destruct (FixedWindowRateLimit _ _ _ _ w) as [[x|e] w1] eqn:Hl;
    pose proof (reads_limit _ _ _ _ _ _ _ Hl) as Hd1;
    pose proof (secured_FixedWindowRateLimit _ _ _ _ _ _ _ Hl HS) as [HS1 _];
    [|by intros [= <- <-]].
  unfold mbind, M_bind. destruct (AdminAuth _ t w1) as [[q|e] w2] eqn:Ha;
    pose proof (quiet_AdminAuth _ _ _ _ _ Ha) as Hsame;
    intros [= <- <-]; (split_and!; [destruct Hsame; congruence|by eapply secure_same|]); [|done].
  apply run_limit in Hl as (_ & Hck & Htk).
  apply run_AdminAuth in Ha as (_ & claims & user & Htok & _ & Hu & Hen & Hlv & Hmust).
  rewrite Hck, Htk in Htok. rewrite Hd1 in Hu. exists (pl_UserID q). split; [done|].
  exists claims, user. split_and!; try done. by eapply token_bounds.
Qed.

(** C6: a request is served only to its owner.  In every state the server
    reaches, a request of an endpoint either carries a message that satisfies
    its rules and a bearer token that verifies at that moment, of an enabled
    account to which the rows grant what the endpoint demands, or it is
    answered with an error and leaves the database as it is. *)
Theorem requests_authorised `{!JWTLaws JL} {A} w0 w op v (m : Context_ → M A) need trusted http r w' :
  rtc step w0 w → Secure w0 → endpoint op v m need →
  handle_http (tokens auth_logic) trusted http op v m w = (r, w') →
  (v = None ∧ ∃ u, identified (transport_of http op) w u ∧ need u (db w)) ∨
  (∃ e, r = Er e) ∧ db w' = db w.
Proof.
  intros Hs HS He Hr. apply steps_secure in Hs as [HSw _]; [|done]. clear HS.
  destruct (endpoint_selected _ _ _ _ He) as (Hna & Hsel & Hnr). revert Hr. unfold handle_http.
  destruct (SameOrigin trusted http); [|intros [= <- <-]; eauto].
  assert (operation (transport_of http op) = op) as Hop by done. revert Hop.
  generalize (transport_of http op). intros t Hop. rewrite <-Hop in Hna, Hsel, Hnr.
  unfold serve_http, mbind at 1, M_bind.
  destruct (request_id t w) as [x w1] eqn:Hid.
  apply run_request_id in Hid as ([rid ->] & Hsame & Hck & Htk).
  pose proof (secure_same _ _ Hsame HSw) as HS1. destruct Hsame as [Hd1 _].
  destruct v as [e|]; unfold mbind at 1, M_bind; simpl; [intros [= <- <-]; eauto|].
  unfold unless_m. rewrite Hna. simpl. unfold mbind at 1, M_bind. simpl.
  unfold mbind at 1, M_bind. destruct (admin_principal _ t w1) as [p w2] eqn:Hp.
  destruct (run_principal t w1 p w2 Hsel Hp HS1) as (Hd2 & HS2 & Hid).
  destruct p as [p|e]; [|intros [= <- <-]; right; split; [eauto|congruence]].
  destruct Hid as (u & -> & Hid). unfold runtime_credential. rewrite bool_decide_false by done.
  unfold mbind, M_bind. simpl. intros Hr.
  destruct (endpoint_guarded _ _ _ _ _ He _ _ _ HS2 Hr) as [(u' & Hu & Hneed)|[? Hd3]].
  - left. split; [done|]. simpl in Hu. simplify_eq. exists u'. rewrite <-Hd1, <-Hd2. split; [|done].
    unfold identified in *. by rewrite Hck, Htk, Hd1 in Hid.
  - right. split; [done|congruence].
Qed.
(** ** Browsers *)

Lemma serve_refused {A} tok t v (m : Context_ → M (Answer A)) e0 w r w' :
  admin_selected (operation t) = false → operation t ≠ OperationApiConfig →
  (∀ ctx w1, m ctx w1 = (Ok ([], Er e0), w1)) → serve_http tok t v m w = (r, w') →
  db w' = db w ∧ ∃ e, r = Er e ∨ r = Ok ([], Er e).
Proof.
  intros Hsel Hnr Hm Hr. split.
  - assert (reads (serve_http tok t v m)) as Hreads; [|by apply Hreads in Hr]. unfold serve_http.
    apply reads_bind; [apply reads_quiet, quiet_request_id|intros rid].
    apply reads_bind; [apply reads_quiet; unfold validateRequest; case_match; quiet|intros _].
    apply reads_bind; [unfold unless_m; case_match; [apply reads_quiet; quiet|apply reads_limit]|intros _].
    unfold admin_principal, runtime_credential. rewrite Hsel, bool_decide_false by done.
    apply reads_bind; [apply reads_quiet; quiet|intros p].
    apply reads_bind; [apply reads_quiet; quiet|intros c].
    intros w1 x w2. rewrite Hm. by intros [= _ <-].
  - destruct r as [a|e]; [|eauto]. unfold serve_http in Hr.
    repeat match type of Hr with (_ ≫= _) _ = _ => apply run_bind in Hr as (? & ? & _ & Hr) end.
    rewrite Hm in Hr. injection Hr as <- _. eauto.
Qed.

(** C19: another site cannot act on a user's session.  A request to sign in, to
    refresh or end a session, or to set up the installation is refused without
    touching the database or setting a cookie unless its origin is the public
    address of the server ([same_origin_exact]). *)
Theorem cross_origin_refused {A} trusted http op v (m : Context_ → M (Answer A)) w r w' :
  account_endpoint trusted http op v m →
  op ∈ [OperationAuthServiceLogin; OperationAuthServiceRefresh; OperationAuthServiceLogout;
        OperationSetupServiceCreateInitialAdmin] →
  handle_http (tokens auth_logic) trusted http op v m w = (r, w') →
  origin_Validate trusted http = Ok tt ∨ db w' = db w ∧ ∃ e, r = Er e ∨ r = Ok ([], Er e).
Proof.
  intros He Hop Hr. destruct (origin_Validate trusted http) as [[]|e] eqn:Ho;
    [by left|right].
  assert (validatedOriginRequest trusted http = Er (EApi Forbidden "request origin is not allowed")) as Hv
    by (unfold validatedOriginRequest; by rewrite Ho).
  revert Hr. unfold handle_http. destruct (SameOrigin trusted http); [|intros [= <- <-]; eauto].
  assert (admin_selected op = false ∧ op ≠ OperationApiConfig ∧ ∃ e0, ∀ ctx w1, m ctx w1 = (Ok ([], Er e0), w1))
    as (Hsel & Hnr & e0 & Hm); [|by apply (serve_refused _ (transport_of http op) _ _ e0)].
  destruct He; try (exfalso; clear -Hop; set_solver); (split_and!; [by vm_compute|done|]); eexists; intros _ w1.
  - unfold service_Login. by rewrite Hv.
  - unfold service_Refresh. by rewrite Hv.
  - unfold service_Logout. by rewrite Hv.
  - unfold service_CreateInitialAdmin, plain, attempt. by rewrite Ho.
Qed.

(** A cookie for the browser of an accepted origin: scripts do not see it, it is
    sent to the authentication paths only, and in the clear only if the origin
    is served without TLS. *)
Definition confined_cookie (http : HTTPRequest) (c : SetCookie) : Prop :=
  ck_Name c = CookieName ∧ ck_Path c = CookiePath ∧ ck_HttpOnly c = true ∧ ck_SameSiteLax c = true ∧
  ∃ value scheme host port, Values http "Origin" = [value] ∧ origin_of value (scheme, host, port) ∧
    (ck_Secure c = true ↔ scheme = "https").
Definition sets_confined {A} (http : HTTPRequest) (m : M (Answer A)) : Prop :=
  ∀ w cookies reply w', m w = (Ok (cookies, reply), w') → Forall (confined_cookie http) cookies.

Lemma accepted_origin trusted http origin : validatedOriginRequest trusted http = Ok origin →
  ∃ scheme host port, Values http "Origin" = [origin] ∧ origin_of origin (scheme, host, port) ∧
    (SecureForOrigin origin = true ↔ scheme = "https").
Proof.
  unfold validatedOriginRequest, origin_Validate. destruct (Values http "Origin") as [|value [|]]; try done.
  destruct (normalizedOrigin value) as [o|] eqn:Ho; [|done]. cbn [mbind result_bind].
  case_match; [|done]. intros [= <-]. apply normalizedOrigin_iff in Ho as ([[scheme host] port] & Hof & _).
  exists scheme, host, port. split_and!; [done..|]. by apply secure_origin in Hof.
Qed.
Lemma confined_one http origin scheme host port c : Values http "Origin" = [origin] →
  origin_of origin (scheme, host, port) → (SecureForOrigin origin = true ↔ scheme = "https") →
  (∃ now token expires, c = session_Cookie now token expires (SecureForOrigin origin)) ∨
    c = ClearCookie (SecureForOrigin origin) → confined_cookie http c.
Proof. intros Hv Hof Hs [(n & t & x & ->)| ->]; (split_and!; [done..|]); exists origin, scheme, host, port; auto. Qed.
Lemma sets_none {A} http (r : result A) : sets_confined http (mret (M := M) (answer [] r)).
Proof. intros w c x w' [= <- _ _]. constructor. Qed.
Lemma sets_plain {A} http (m : M A) : sets_confined http (plain m).
Proof. intros w c x w' Hr. apply run_bind in Hr as (y & w1 & _ & [= <- _ _]). constructor. Qed.

(** The refresh cookie is confined.  Every cookie the server sets is the
    refresh cookie, unreadable for scripts, sent to the paths under /api/auth of
    the same site only, and marked Secure exactly when the accepted origin of the
    request is an https one. *)
Theorem session_cookies_confined {A} trusted http op v (m : Context_ → M (Answer A)) w cookies reply w' :
  account_endpoint trusted http op v m →
  handle_http (tokens auth_logic) trusted http op v m w = (Ok (cookies, reply), w') →
  Forall (confined_cookie http) cookies.
Proof.
  intros He (ctx & w1 & Hr)%http_ran. revert w1 cookies reply w' Hr.
  change (sets_confined http (m ctx)).
  assert (∀ origin, validatedOriginRequest trusted http = Ok origin → ∀ cs outcome,
    (∀ c, c ∈ cs → c = ClearCookie (SecureForOrigin origin)) → sets_confined http (signed_in origin cs outcome))
    as Hsigned.
  { intros origin (s & h & n & Hval & Hof & Hsec)%accepted_origin cs outcome Hcs w1 c x w2 Hr.
    apply run_bind in Hr as (t & w3 & _ & [= <- _ _]). apply Forall_app. split.
    - apply Forall_forall. intros c Hc. eapply confined_one; eauto.
    - repeat constructor; eapply confined_one; eauto 10. }
  destruct He; try apply sets_plain.
  - unfold service_Login. destruct (validatedOriginRequest trusted http) as [origin|] eqn:Ho; [|apply sets_none].
    case_match; [apply sets_none|]. case_match; [|apply sets_none].
    intros w1 c x w2 ([y|e] & w3 & _ & Hr)%run_bind; [|by eapply sets_none].
    eapply (Hsigned origin eq_refl []); [set_solver|exact Hr].
  - unfold service_Refresh. destruct (validatedOriginRequest trusted http) as [origin|] eqn:Ho; [|apply sets_none].
    destruct (request_Cookie http) as [[|d s]|]; [apply sets_none| |apply sets_none].
    intros w1 c x w2 ([clear [y|e]] & w3 & _ & Hr)%run_bind.
    + eapply (Hsigned origin eq_refl); [|exact Hr]. destruct clear; set_solver.
    + apply accepted_origin in Ho as (sc & h & n & Hval & Hof & Hsec). injection Hr as <- _ _.
      destruct clear; repeat constructor; eapply confined_one; eauto.
  - unfold service_Logout. destruct (validatedOriginRequest trusted http) as [origin|] eqn:Ho; [|apply sets_none].
    intros w1 c x w2 ([y|e] & w3 & _ & Hr)%run_bind; [|by eapply sets_none].
    apply accepted_origin in Ho as (sc & h & n & Hval & Hof & Hsec). injection Hr as <- _ _.
    repeat constructor; eapply confined_one; eauto.
Qed.

End endpoints.

(** ** Pages *)

(** Go decodes the numbers of a page as [uint32]. *)
Definition uint32_page (r : ListSnapshotRequest) : Prop :=
  Safeint.unsigned 32 (requested_page r).1 ∧ Safeint.unsigned 32 (requested_page r).2.

Lemma validated_page r : ListSnapshotRequest_validate false r = None →
  (requested_page r).1 ≠ 0 ∧ (requested_page r).2 ≠ 0 ∧ (requested_page r).2 ≤ 100.
Proof.
  unfold ListSnapshotRequest_validate. intros Hv%checked_None. do 3 apply Forall_cons in Hv as [_ Hv].
  apply Forall_cons in Hv as [Hp _]. unfold requested_page.
  destruct (ListSnapshot_Page r) as [[pg lm]|]; [|done].
  apply embedded_nil in Hp. unfold PaginationRequest_validate in Hp.
  apply checked_None, Forall_cons in Hp as [Hpg [Hlm _]%Forall_cons]. simpl in *.
  destruct pg as [pg|], lm as [lm|]; unfold optionally, positive, limit_rule in *; simpl;
    rewrite ?violated_nil in *; bool_hyps; lia.
Qed.

(** C40: the page arithmetic of the snapshot list does not wrap.  For a message
    that satisfies its rules the offset is (page - 1) * limit, computed in 64
    bits without overflow; the repository takes the page as it is; and only on
    a 32-bit platform an offset of 2^31 or more is refused. *)
Theorem page_request_exact (IntSize : Z) r :
  IntSize = 32 ∨ IntSize = 64 → uint32_page r → ListSnapshotRequest_validate false r = None →
  let offset := ((requested_page r).1 - 1) * (requested_page r).2 in
  match page_request IntSize r with
  | Ok page => page = {| Offset := offset; Limit := (requested_page r).2 |} ∧ 0 ≤ offset ∧
               NormalizePage page = page
  | Er _ => IntSize = 32 ∧ 2 ^ 31 ≤ offset
  end.
Proof.
  intros Hsize [Hp Hl] Hv%validated_page. unfold page_request.
  destruct (requested_page r) as [p l]. simpl in *. unfold Safeint.unsigned in *.
  destruct Hv as (Hp0 & Hl0 & Hl100). assert (0 ≤ (p - 1) * l < 2 ^ 40) as Ho.
  { split; [nia|]. change (2 ^ 40) with (2 ^ 32 * 256). nia. }
  assert (page_offset p l = (p - 1) * l) as ->.
  { unfold page_offset. rewrite (Safeint.uint64_id (p - 1)) by (unfold Safeint.unsigned; lia).
    apply Safeint.uint64_id. unfold Safeint.unsigned. lia. }
  unfold Safeint.IntFromUint64, Safeint.IntFromUint32, max_int64.
  assert (Hint : ∀ z, 0 ≤ z < 2 ^ (IntSize - 1) → Safeint.int_of IntSize z = z).
  { intros z Hz. apply Safeint.int_of_id; unfold Safeint.signed; destruct Hsize as [->| ->]; simpl in *; lia. }
  assert (Hnorm : NormalizePage {| Offset := (p - 1) * l; Limit := l |} = {| Offset := (p - 1) * l; Limit := l |}).
  { unfold NormalizePage, MaxPageSize. simpl. rewrite (proj2 (Z.ltb_ge _ 0)) by lia. simpl.
    rewrite (proj2 (Z.leb_gt _ _)) by lia. simpl. by rewrite (proj2 (Z.ltb_ge _ _)) by lia. }
  destruct Hsize as [->| ->]; simpl.
  - change (2 ^ 31 - 1) with 2147483647. destruct (Z.ltb_spec 2147483647 ((p - 1) * l)); simpl; [lia|].
    rewrite (proj2 (Z.ltb_ge _ _)) by lia. simpl. rewrite !Hint by (simpl; lia). split_and!; [done|lia|exact Hnorm].
  - rewrite (proj2 (Z.ltb_ge _ _)) by lia. simpl. rewrite !Hint by (simpl; lia). split_and!; [done|lia|exact Hnorm].
Qed.

Lemma page_request_exact_witness :
  let r := {| ListSnapshot_EnvironmentId := 1; ListSnapshot_ConfigId := 1; ListSnapshot_ProjectId := 1;
              ListSnapshot_Page := Some {| Pagination_Page := Some 4294967295;
                                           Pagination_Limit := Some 100 |} |} in
  page_request 64 r = Ok {| Offset := 429496729400; Limit := 100 |} ∧
  2 ^ 31 ≤ (4294967295 - 1) * 100.
Proof.
  intros r. assert (uint32_page r) as Hu by (split; vm_compute; intuition congruence).
  pose proof (page_request_exact 64 r (or_intror eq_refl) Hu ltac:(vm_compute; reflexivity)) as H64.
  pose proof (page_request_exact 32 r (or_introl eq_refl) Hu ltac:(vm_compute; reflexivity)) as H32.
  split.
  - destruct (page_request 64 r) as [p|e] eqn:Hp; [|by destruct H64]. destruct H64 as [-> _]. reflexivity.
  - destruct (page_request 32 r) as [p|e] eqn:Hp; [vm_compute in Hp; discriminate Hp|apply H32].
Defined.

(** ** The sample installation: ann publishes over HTTP *)

Section sample.
Import Sample SampleWorld.

Definition publication : PublishSnapshotRequest :=
  {| PublishSnapshot_EnvironmentId := 1; PublishSnapshot_SnapshotId := 2;
     PublishSnapshot_Version := 1 |}.
Definition operation_publish : string := "/kirby.admin.v1.PublicationService/PublishSnapshot".
Definition http_request (values : string → list string) : HTTPRequest :=
  {| Values := values; Host := "kirby.example"; RemoteAddr := "10.0.0.1:40000"; TLS := true |}.
Definition publish_http : HTTPRequest := http_request (λ name,
  if decide (name = "Authorization") then ["bearer  token"]
  else if decide (name = "X-Request-ID") then ["request-1"] else []).
(** The same request without its token. *)
Definition anonymous_request : HTTPRequest := http_request (λ _, []).
Definition exchange (http : HTTPRequest) : result Snapshot * World :=
  handle_http (tokens auth_logic) [] http operation_publish
    (PublishSnapshotRequest_validate false publication) (λ ctx, PublishSnapshot ctx publication)
    read_before.

Lemma requests_authorised_witness :
  (∃ u, identified (transport_of publish_http operation_publish) read_before u
     ∧ allowed (db read_before) u 1 [SnapshotPublish]) ∧
  db (exchange anonymous_request).2 = db read_before.
Proof.
  split.
  - destruct (requests_authorised world read_before _ _ _ _ [] publish_http _ _ read_before_run
      sample_secure (http_PublishSnapshot publication)
      (surjective_pairing (exchange publish_http))) as [[_ Hu]|[[e He] _]]; [exact Hu|].
    exfalso. vm_compute in He. discriminate He.
  - destruct (requests_authorised world read_before _ _ _ _ [] anonymous_request _ _ read_before_run
      sample_secure (http_PublishSnapshot publication)
      (surjective_pairing (exchange anonymous_request))) as [[_ (u & Hu & _)]|[_ Hd]]; [|exact Hd].
    exfalso. destruct Hu as (claims & user & Htok & _). vm_compute in Htok. discriminate Htok.
Defined.

(** On a server that stores its assets itself. *)
#[local] Instance ticket_mac : HMAC := λ key message, fit 32 (key +:+ message).
Definition asset_files : LocalStorage := {| ls_files := ∅; signingKey := fit 32 "secret" |}.
Definition operation_presign : string := "/kirby.admin.v1.AssetService/PresignAsset".
Definition upload_request (filename : string) : PresignAssetRequest :=
  {| PresignAsset_EnvironmentId := 1; PresignAsset_ProjectId := 1; PresignAsset_Filename := filename;
     PresignAsset_ContentType := "image/png"; PresignAsset_Size := 5 |}.
Definition presign_exchange (filename : string) (w : World) :
    result (LocalStorage * result PresignAssetReply) * World :=
  handle_http (tokens auth_logic) [] publish_http operation_presign
    (PresignAssetRequest_validate false (upload_request filename))
    (λ ctx, with_storage asset_files (PresignAsset ctx (upload_request filename))) w.

(** A publication, and then a request for a ticket. *)
Lemma requests_are_steps_witness :
  rtc step read_before (presign_exchange "picture.png" (exchange publish_http).2).2.
Proof.
  apply (requests_are_steps (Sto := LocalStorage) false []). eapply rtc_l; [|apply rtc_once].
  - exact (request_admin _ _ _ _ _ _ _ _ publish_http _ (http_PublishSnapshot publication)
      (surjective_pairing (exchange publish_http))).
  - exact (request_asset _ _ _ _ _ _ _ publish_http asset_files _
      (http_PresignAsset _ _ _ (upload_request "picture.png"))
      (surjective_pairing (presign_exchange "picture.png" (exchange publish_http).2))).
Defined.

Lemma errors_are_public_witness :
  (exchange anonymous_request).1 = Er (EApi Unauthorized "authentication failed") ∧
  EApi Unauthorized "authentication failed" ∈ public_errors ∧
  (presign_exchange "a/b.png" read_before).1
    = Ok (asset_files, Er (EApi InvalidParam "asset request is invalid")) ∧
  EApi InvalidParam "asset request is invalid" ∈ public_errors.
Proof.
  assert ((exchange anonymous_request).1 = Er (EApi Unauthorized "authentication failed")) as He
    by (vm_compute; reflexivity).
  assert ((presign_exchange "a/b.png" read_before).1
    = Ok (asset_files, Er (EApi InvalidParam "asset request is invalid"))) as Ha
    by (vm_compute; reflexivity).
  split; [exact He|]. split; [|split; [exact Ha|]].
  - destruct (exchange anonymous_request) as [r w'] eqn:Hr. simpl in He. subst r.
    destruct (proj1 (errors_are_public (Sto := LocalStorage) false [] anonymous_request read_before w' _)
      _ _ _ _ _ (http_PublishSnapshot publication) Hr) as [Hp|(x & Hx & _)]; [exact Hp|].
    vm_compute in Hx. discriminate Hx.
  - destruct (presign_exchange "a/b.png" read_before) as [r w'] eqn:Hr. simpl in Ha. subst r.
    destruct (proj1 (proj2 (proj2 (errors_are_public false [] publish_http read_before w' _)))
      _ _ _ _ _ _ (http_PresignAsset _ _ _ (upload_request "a/b.png")) Hr
      (or_intror (ex_intro _ asset_files eq_refl))) as [Hp|(x & Hx & _)]; [exact Hp|].
    vm_compute in Hx. discriminate Hx.
Defined.

(** A page at [origin] asks the server to end the session. *)
Definition sign_out (origin : string) : HTTPRequest := http_request (λ name,
  if decide (name = "Origin") then [origin]
  else if decide (name = "Cookie") then ["kirby_refresh=refresh-token"] else []).
Definition signed_out (origin : string) : result (Answer unit) * World :=
  handle_http (tokens auth_logic) [] (sign_out origin) OperationAuthServiceLogout None
    (λ _, service_Logout [] (sign_out origin)) read_before.

Lemma cross_origin_refused_witness : db (signed_out "https://evil.example").2 = db read_before.
Proof.
  destruct (cross_origin_refused [] (sign_out "https://evil.example") _ _ _ _ _ _
    (http_Logout _ _) ltac:(set_solver) (surjective_pairing (signed_out "https://evil.example")))
    as [Ho|[Hd _]]; [|exact Hd].
  vm_compute in Ho. discriminate Ho.
Defined.

Lemma session_cookies_confined_witness :
  ∃ cookies, (signed_out "https://kirby.example").1 = Ok (cookies, Ok tt) ∧ cookies ≠ [] ∧
    Forall (confined_cookie (sign_out "https://kirby.example")) cookies.
Proof.
  destruct (signed_out "https://kirby.example") as [r w'] eqn:Hr.
  assert (r = (signed_out "https://kirby.example").1) as H1 by (rewrite Hr; reflexivity).
  vm_compute in H1. subst r. eexists. split; [reflexivity|]. split; [discriminate|].
  exact (session_cookies_confined [] (sign_out "https://kirby.example") _ _ _ _ _ _ _
    (http_Logout _ _) Hr).
Defined.
End sample.
