(* ===== verification/LimitSpec.v ===== *)
(** The request limit on the in-process store: the counters kept as text with
    an expiry in a cache entry implement fixed windows, and a window admits
    exactly its quota. *)

From S2P Require Import Prelude GoStd GoStrings Engine Model Cache World WorldLaws LogicAuth Middleware SampleWorld.

Local Open Scope Z_scope.

(** ** The promise: fixed windows *)

Record Window := {
  admissions : Z;
  deadline : Z;
}.

Definition open_window (t : Z) (x : option Window) : option Window :=
  x ← x; if t <? deadline x then Some x else None.

(** A request opens a window, or counts in the open one, which it does not
    extend. *)
Definition count_request (t window : Z) (x : option Window) : Window :=
  match open_window t x with
  | Some x => {| admissions := admissions x + 1; deadline := deadline x |}
  | None => {| admissions := 1; deadline := t + window |}
  end.

Record Request := {
  rq_namespace : string;
  rq_limit : Z;
  rq_window : Z;
  rq_subject : string;
}.

(** A policy the server could be configured with: [limit int64]. *)
Record proper (q : Request) : Prop := {
  pr_namespace : rq_namespace q ≠ "";
  pr_limit : 0 < rq_limit q ≤ max_int64;
  pr_window : 0 < rq_window q;
}.

Section limit.
Context {E : Engine} `{Collation} `{SHA256}.
#[local] Existing Instance Memory.memory_store.

Definition request_key (q : Request) : string := rateKey (rq_namespace q) (rq_subject q).

Definition take_request (t : Z) (q : Request) (s : gmap string Window) : bool * gmap string Window :=
  let x := count_request t (rq_window q) (s !! request_key q) in
  (admissions x <=? rq_limit q, <[request_key q := x]> s).

(** Requests one after the other, at the times a clock tells. *)
Fixpoint take_requests (l : list Request) (times : nat → Z) (s : gmap string Window) :
    list bool * gmap string Window :=
  match l with
  | [] => ([], s)
  | q :: l =>
      let '(b, s) := take_request (times O) q s in
      let '(bs, s) := take_requests l (λ n, times (S n)) s in
      (b :: bs, s)
  end.

Lemma take_requests_ext l f g s : (∀ n, f n = g n) → take_requests l f s = take_requests l g s.
Proof.
  revert f g s. induction l as [|q l IH]; intros f g s Hfg; [done|]. simpl. rewrite Hfg.
  destruct (take_request (g O) q s) as [b s1]. by rewrite (IH _ (λ n, g (S n))).
Qed.

(** ** The code *)

Definition limited (q : Request) : M unit :=
  FixedWindowRateLimit (rq_namespace q) (rq_limit q) (rq_window q) (rq_subject q).

Fixpoint limit_all (l : list Request) (w : World) : list bool * World :=
  match l with
  | [] => ([], w)
  | q :: l =>
      let '(r, w) := limited q w in
      let '(bs, w) := limit_all l w in
      (is_ok r :: bs, w)
  end.

(** The text of a counter stops at the largest 64-bit integer. *)
Definition stored (x : Window) : Memory.memoryEntry :=
  {| Memory.value := format_int (Z.min max_int64 (admissions x));
     Memory.expiresAt := Some (deadline x) |}.

(** The counters of some keys are those of a state of windows. *)
Definition implements (keys : string → Prop) (c : Memory.memoryStore)
    (s : gmap string Window) : Prop :=
  ∀ k, keys k → Memory.entries c !! k = stored <$> s !! k ∧
                ∀ x, s !! k = Some x → 1 ≤ admissions x.

Lemma stored_counter x : 1 ≤ admissions x →
  parse_int64 (Memory.value (stored x)) = Some (Z.min max_int64 (admissions x)).
Proof.
  intros Hx. simpl. apply parse_int64_format. unfold is_int64, in_range.
  unfold min_int64, max_int64. lia.
Qed.

Lemma Increment_counts t k window x c :
  0 < window → Memory.entries c !! k = stored <$> x → (∀ y, x = Some y → 1 ≤ admissions y) →
  let x' := count_request t window x in
  1 ≤ admissions x' ∧
  Memory.entries (Memory.Increment t k window c).2 = <[k := stored x']> (Memory.entries c) ∧
  match (Memory.Increment t k window c).1 with
  | Ok n => n = admissions x'
  | Er _ => max_int64 < admissions x'
  end.
Proof.
  intros Hw Hc Hx x'. unfold Memory.Increment. destruct (Z.leb_spec window 0); [lia|].
  rewrite Hc. unfold count_request, open_window in x'. destruct x as [y|]; simpl in x' |- *.
  2:{ split; [done|]. split; [|done]. by unfold Memory.put. }
  specialize (Hx y eq_refl). unfold Memory.expired. simpl.
  destruct (t <? deadline y) eqn:Ht; simpl.
  2:{ split; [done|]. split; [|done]. apply insert_delete_eq. }
  pose proof (stored_counter y Hx) as Hp. simpl in Hp. rewrite Hp. destruct (Z.eqb_spec (Z.min max_int64 (admissions y)) max_int64).
  - simpl. split; [lia|]. split; [|lia]. symmetry. apply insert_id. rewrite Hc. simpl. f_equal.
    unfold stored, x'. simpl. do 2 f_equal. lia.
  - simpl. split; [lia|]. split; [|lia]. f_equal. unfold stored, x'. simpl. do 2 f_equal. lia.
Qed.

Lemma limited_admits (keys : string → Prop) q w s : proper q → keys (request_key q) →
  implements keys (cache w) s →
  let '(b, s') := take_request (clock w (ticks w)) q s in
  ∃ r w', limited q w = (r, w') ∧ is_ok r = b ∧ implements keys (cache w') s' ∧
    clock w' = clock w ∧ ticks w' = S (ticks w) ∧ db w' = db w.
Proof.
  intros [Hn Hl Hw] Hk Hs. unfold take_request. destruct (Hs _ Hk) as [Hc Hx].
  pose proof (Increment_counts (clock w (ticks w)) _ _ _ _ Hw Hc Hx) as Hinc.
  cbv zeta in Hinc. set (x' := count_request _ _ _) in *.
  unfold limited, FixedWindowRateLimit. rewrite bool_decide_false by done.
  destruct (Z.leb_spec (rq_limit q) 0); [lia|]. destruct (Z.leb_spec (rq_window q) 0); [lia|].
  simpl. unfold mbind at 1, M_bind. simpl. unfold mbind at 1, M_bind, handle, cache_increment.
  simpl. change (rateKey (rq_namespace q) (rq_subject q)) with (request_key q).
  destruct (Memory.Increment _ _ _ _) as [r c'] eqn:Hr. simpl in Hinc.
  destruct Hinc as (Hpos & He & Hcount).
  assert (implements keys c' (<[request_key q := x']> s)) as Hs'.
  { intros k Hkk. rewrite He. destruct (decide (k = request_key q)) as [->|Hne].
    - rewrite !lookup_insert_eq. split; [done|]. by intros x [= <-].
    - rewrite !lookup_insert_ne by done. by apply Hs. }
  destruct r as [n|e].
  - subst n. unfold when_err. destruct (Z.ltb_spec (rq_limit q) (admissions x'));
      eexists _, _; (split; [reflexivity|]); (split; [|by split_and!]); symmetry.
    + apply Z.leb_gt. lia.
    + apply Z.leb_le. lia.
  - eexists _, _. split; [reflexivity|]. split; [|by split_and!]. symmetry. apply Z.leb_gt. lia.
Qed.

Lemma limit_all_windows (l : list Request) w s (keys : string → Prop) :
  Forall proper l → (∀ q, q ∈ l → keys (request_key q)) → implements keys (cache w) s →
  (limit_all l w).1 = (take_requests l (λ n, clock w (ticks w + n)%nat) s).1 ∧
  implements keys (cache (limit_all l w).2)
    (take_requests l (λ n, clock w (ticks w + n)%nat) s).2 ∧
  db (limit_all l w).2 = db w.
Proof.
  intros Hl. revert w s. induction Hl as [|q l Hq Hl IH]; intros w s Hk Hs; [done|].
  pose proof (limited_admits keys q w s Hq (Hk q ltac:(by left)) Hs) as Hadm.
  cbn [limit_all take_requests]. rewrite Nat.add_0_r. destruct (take_request (clock w (ticks w)) q s) as [b s1].
  destruct Hadm as (r & w1 & -> & Hb & Hs1 & Hclk & Htk & Hd).
  destruct (IH w1 s1) as (IH1 & IH2 & IH3); [intros q' Hq'; apply Hk; by right|done|].
  rewrite Hclk, Htk in IH1, IH2.
  rewrite (take_requests_ext l _ (λ n, clock w (S (ticks w) + n)%nat)) by (intros n; f_equal; lia).
  destruct (limit_all l w1) as [bs w2]. destruct (take_requests l _ s1) as [bs' s2].
  simpl in *. split_and!; [congruence|done|congruence].
Qed.
(** ** A burst *)

(** What is left of the quota of an open window passes. *)
Definition burst (left n : nat) : list bool :=
  replicate (Nat.min n left) true ++ replicate (n - left) false.

Lemma burst_S left n : burst (S left) (S n) = true :: burst left n.
Proof. done. Qed.
Lemma burst_0 n : burst 0 n = replicate n false.
Proof. unfold burst. by rewrite Nat.min_0_r, Nat.sub_0_r. Qed.

Lemma take_open (n : nat) q (times : nat → Z) (s : gmap string Window) x :
  s !! request_key q = Some x → (∀ i, (i < n)%nat → times i < deadline x) →
  (take_requests (replicate n q) times s).1 = burst (Z.to_nat (rq_limit q - admissions x)) n.
Proof.
  revert times s x. induction n as [|n IH]; intros times s x Hx Ht; [done|].
  cbn [replicate take_requests]. unfold take_request. rewrite Hx. unfold count_request, open_window. simpl.
  rewrite (proj2 (Z.ltb_lt _ _) (Ht O ltac:(lia))). simpl.
  set (x' := {| admissions := admissions x + 1; deadline := deadline x |}).
  pose proof (IH (λ i, times (S i)) (<[request_key q := x']> s) x' (lookup_insert_eq _ _ _)
    (λ i Hi, Ht (S i) ltac:(lia))) as IH'.
  destruct (take_requests _ _ _) as [bs s']. simpl in *. rewrite IH'.
  destruct (Z.leb_spec (admissions x + 1) (rq_limit q)).
  - rewrite <-burst_S. f_equal. lia.
  - assert (Z.to_nat (rq_limit q - admissions x) = O) as -> by lia.
    assert (Z.to_nat (rq_limit q - (admissions x + 1)) = O) as -> by lia. by rewrite !burst_0.
Qed.

(** C34: the request limit implements fixed windows.  Whatever the order of the
    requests, their subjects, policies and times, the limiter on the in-process
    store admits exactly the requests that fixed windows admit: a window opens
    with the first request of a subject, is not extended by later ones, and a
    counter that has reached the largest integer still refuses. *)
Theorem limiter_refines_windows (l : list Request) w s (keys : string → Prop) :
  Forall proper l → (∀ q, q ∈ l → keys (request_key q)) → implements keys (cache w) s →
  (limit_all l w).1 = (take_requests l (λ n, clock w (ticks w + n)%nat) s).1 ∧
  implements keys (cache (limit_all l w).2)
    (take_requests l (λ n, clock w (ticks w + n)%nat) s).2 ∧
  db (limit_all l w).2 = db w.
Proof. apply limit_all_windows. Qed.

(** A burst of requests of one subject within one window passes up to the
    quota, and no further: of [n] requests that arrive before the window the
    first one opens has ended, the first [limit] are admitted and every later
    one is refused. *)
Theorem limiter_exact q (n : nat) w :
  proper q → Memory.entries (cache w) !! request_key q = None →
  (∀ i, (i < n)%nat → clock w (ticks w + i)%nat < clock w (ticks w) + rq_window q) →
  (limit_all (replicate n q) w).1 = burst (Z.to_nat (rq_limit q)) n.
Proof.
  intros Hq Hc Ht. destruct (limit_all_windows (replicate n q) w ∅ (λ k, k = request_key q))
    as (-> & _).
  - apply Forall_forall. by intros x [-> _]%elem_of_replicate.
  - by intros x [-> _]%elem_of_replicate.
  - intros k ->. rewrite lookup_empty, Hc. done.
  - destruct n as [|n]; [done|]. cbn [replicate take_requests]. unfold take_request.
    rewrite lookup_empty. simpl. rewrite Nat.add_0_r.
    set (x := {| admissions := 1; deadline := clock w (ticks w) + rq_window q |}).
    pose proof (take_open n q (λ i, clock w (ticks w + S i)%nat)
      (<[request_key q := x]> ∅) x (lookup_insert_eq _ _ _)
      (λ i Hi, Ht (S i) ltac:(lia))) as Hb.
    destruct (take_requests _ _ _) as [bs s']. simpl in *. rewrite Hb.
    destruct Hq as [_ Hl _]. destruct (Z.leb_spec 1 (rq_limit q)); [|lia].
    rewrite <-burst_S. f_equal. lia.
Qed.
End limit.

(** ** Witnesses *)

Section sample.
Import SampleWorld.

Definition policy (subject : string) : Request :=
  {| rq_namespace := "admin"; rq_limit := 2; rq_window := rateWindow; rq_subject := subject |}.
Lemma policy_proper subject : proper (policy subject).
Proof. split; simpl; [discriminate|split; [lia|unfold max_int64; lia]|vm_compute; reflexivity]. Qed.

(** Two subjects; the fourth request exceeds the quota of the first. *)
Lemma limiter_refines_windows_witness :
  (limit_all (policy <$> ["a"; "b"; "a"; "a"; "b"]) world).1 = [true; true; true; false; true].
Proof.
  destruct (limiter_refines_windows (policy <$> ["a"; "b"; "a"; "a"; "b"]) world ∅ (λ _, True))
    as (Hd & _ & _).
  - repeat constructor; try apply policy_proper; discriminate.
  - intros. exact I.
  - intros k _. split; [reflexivity|]. intros x Hx. discriminate Hx.
  - etransitivity; [exact Hd|vm_compute; reflexivity].
Defined.

Lemma limiter_exact_witness :
  (limit_all (replicate 5 (policy "a")) world).1 = [true; true; false; false; false].
Proof.
  refine (eq_trans (limiter_exact (policy "a") 5 world (policy_proper _) _ _) _).
  - vm_compute. reflexivity.
  - intros i Hi. change (Z.of_nat (0 + i) + 100 < Z.of_nat 0 + 100 + 60 * 10 ^ 9). lia.
  - vm_compute. reflexivity.
Defined.
End sample.
