(* ===== verification/ImportSpec.v ===== *)
(** An import with an idempotency key takes effect at most once: the claim that
    was completed answers every later request with the same key. *)

From S2P Require Import Prelude GoStd GoStrings Codec Schema Engine Model Cache Convert World WorldLaws RepoScope Permission Password Jwt Credential LogicIdentity RepoConfig RepoChild RepoSnapshot RepoProject RepoIdentity RepoSession RepoLaws LogicBase LogicPublish LogicAuth LogicTransfer PermissionSpec Ledger LedgerOps Secure Handlers HandlersAccess HandlersTransfer Server SchemaSpec SampleWorld AccessSpec.

Local Open Scope Z_scope.

(** The claim of a user on a key in a target environment. *)
Definition claimed_by (a : Actor) (request : ImportRequest) (r : ImportRecordRow) : Prop :=
  imp_UserID r = UserID a ∧ imp_TargetEnvironmentID r = ir_TargetEnvironmentID request ∧
  imp_IdempotencyKey r = ir_IdempotencyKey request.

Section imports.
Context {E : Engine} {EL : EngineLaws E} `{Collation} {St : Store} {SL : StoreLaws St}
  `{Protojson} `{MapOrder} `{SHA256} {Au : Authorizer} {AL : AuthorizerLaws Au}
  {SA : SecureAuthorizer Au}.

(** The claim is stored, for a request with the digest [h]. *)
Definition claimed (d : DB) a request (h : string) (i : Z) : Prop :=
  ∃ r, rows (import_records d) !! i = Some r ∧ claimed_by a request r ∧ imp_RequestHash r = h.

(** The claim was completed with the snapshot [s]. *)
Definition completed (d : DB) a request (h : string) (s : Z) : Prop :=
  ∃ i r, rows (import_records d) !! i = Some r ∧ claimed_by a request r ∧
    imp_RequestHash r = h ∧ imp_Status r = ImportStatusSucceeded ∧
    imp_TargetSnapshotID r = Some s.

Lemma claimed_later d d' a request h i : later d d' → claimed d a request h i →
  claimed d' a request h i.
Proof.
  intros Hl (r & Hr & (Hu & He & Hk) & Hh). destruct (lat_imports _ _ Hl _ _ Hr) as (r' & Hr' & []).
  match goal with Hc : same_claim _ _ = true |- _ => apply same_claim_spec in Hc as (? & ? & ?) end.
  exists r'. split; [done|]. split; [|congruence]. split_and!; congruence.
Qed.
Lemma completed_later d d' a request h s : later d d' → completed d a request h s →
  completed d' a request h s.
Proof.
  intros Hl (i & r & Hr & (Hu & He & Hk) & Hh & Hst & Ht).
  destruct (lat_imports _ _ Hl _ _ Hr) as (r' & Hr' & [Hc ? Hdone]).
  apply same_claim_spec in Hc as (? & ? & ?). destruct (Hdone Hst) as [? ?].
  exists i, r'. split; [done|]. split; [split_and!; congruence|]. split_and!; congruence.
Qed.

(** ** The first import *)

Lemma run_insertClaim r k w w' : insertClaim r w = (Ok (Some k), w') →
  rows (import_records (db w')) !! import_id k = Some k ∧ same_claim r k = true ∧
  imp_RequestHash k = imp_RequestHash r.
Proof.
  intros Hr. unfold insertClaim in Hr. apply run_bind in Hr as (t & w1 & _ & Hr).
  apply run_bind in Hr as (x & w2 & Hx & Hr). unfold attempt in Hx at 1.
  destruct (exec_insert _ _ w1) as [y w2'] eqn:Hi. injection Hx as -> ->.
  destruct x as [i|e]; [|by destruct (isDuplicateKeyError e)]. apply run_ret in Hr as [[= <-] ->].
  apply insert_rows in Hi as (tb & _ & _ & Htb & -> & _). cbn in *. split.
  - rewrite Htb. apply lookup_insert_eq.
  - split; [|done]. by apply same_claim_spec.
Qed.

Lemma run_Claim r k b w w' : Claim r w = (Ok (k, b), w') →
  rows (import_records (db w')) !! import_id k = Some k ∧ same_claim r k = true ∧
  (b = true → imp_RequestHash k = imp_RequestHash r).
Proof.
  intros Hr. unfold Claim in Hr. apply run_bind in Hr as (x & w1 & Hx & Hr).
  apply run_handle in Hx. destruct x as [y|].
  - apply run_ret in Hr as [[= -> <-] <-]. apply run_insertClaim in Hx as (? & ? & ?). done.
  - apply run_bind in Hr as (y & w2 & Hy & Hr). apply run_ret in Hr as [[= -> <-] <-].
    unfold lockExistingClaim in Hy. inv_run.
    match goal with Hg : get _ _ = _ |- _ => apply run_get in Hg as [Hh [Hd _]] end.
    symmetry in Hh. apply head_select in Hh as [? ?]. rewrite Hd. done.
Qed.

Lemma run_claimImport a request h x w w' : claimImport a request h w = (Ok x, w') →
  match x with
  | inl k => claimed (db w') a request h (import_id k)
  | inr s => completed (db w') a request h s
  end.
Proof.
  intros Hr. unfold claimImport in Hr. apply run_bind in Hr as (token & w1 & _ & Hr).
  apply run_bind in Hr as ([k b] & w2 & Hk & Hr). apply run_Claim in Hk as (Hrow & Hsame & _).
  apply run_bind in Hr as (y & w3 & Hy & Hr). apply run_when_err in Hy as [Hhash ->].
  apply same_claim_spec in Hsame as (? & ? & ?). bool_hyps.
  destruct (imp_TargetSnapshotID k) as [s|] eqn:Ht; [case_bool_decide|].
  - apply run_ret in Hr as [<- <-]. by exists (import_id k), k.
  - apply run_bind in Hr as (z & w4 & Hz & Hr). apply run_when_err in Hz as [_ ->].
    apply run_ret in Hr as [<- <-]. by exists k.
  - apply run_bind in Hr as (z & w4 & Hz & Hr). apply run_when_err in Hz as [_ ->].
    apply run_ret in Hr as [<- <-]. by exists k.
Qed.

Lemma run_Complete i s j u w w' a request h : Complete i s j w = (Ok u, w') →
  claimed (db w) a request h i → completed (db w') a request h s.
Proof.
  intros Hr (r & Hrow & Hc & Hh). unfold Complete in Hr. inv_run.
  match goal with Hn : now _ = _ |- _ => apply run_now in Hn as [_ [Hd _]] end.
  match goal with Hx : exec_update _ _ _ _ = _ |- _ =>
    apply update_rows in Hx as (tb & Htb & -> & -> & _); [|by intros ?] end.
  match goal with Hx : Z.of_nat _ ≠ 0 |- _ => apply selected_row in Hx as (r0 & Hr0 & Hp) end.
  rewrite Hd in *. cbn in Hr0, Htb. bool_hyps.
  assert (r0 = r) as ->.
  { change (rows (import_records (db w)) !! import_id r0 = Some r0) in Hr0. congruence. }
  eexists _, _. cbn. rewrite Htb, lookup_fmap, Hrow. simpl.
  assert ((import_id r =? i) = true) as -> by (by apply Z.eqb_eq).
  rewrite bool_decide_true by done. split; [reflexivity|]. split; [by destruct Hc|]. done.
Qed.

Lemma run_importSnapshot a request h out w w' : Ledger (db w) →
  importSnapshot a request h w = (Ok out, w') →
  completed (db w') a request h (io_snapshotID out).
Proof.
  intros HL Hr. unfold importSnapshot in Hr. apply run_bind in Hr as (claim & w1 & Hc & Hr).
  destruct (progress_claimImport _ _ _ _ _ _ Hc HL) as [HL1 _].
  apply run_claimImport in Hc. destruct claim as [k|s]; [|by apply run_ret in Hr as [<- <-]].
  apply run_bind in Hr as (t & w2 & Hp & Hr). apply run_bind in Hr as (sn & w3 & Hdone & Hr).
  apply run_ret in Hr as [<- <-]. simpl.
  destruct (progress_prepareImport _ _ _ _ _ Hp HL1) as [HL2 Hl2].
  unfold completeImport in Hdone. apply run_bind in Hdone as (s1 & w4 & Hs1 & Hdone).
  apply run_bind in Hdone as (x & w5 & Hx & Hdone). apply run_bind in Hdone as (y & w6 & Hy & Hdone).
  apply run_bind in Hdone as (z & w7 & Hz & Hdone). apply run_ret in Hdone as [<- <-].
  destruct (progress_snapshot_Create _ _ _ _ _ _ Hs1 HL2) as [HL4 Hl4].
  destruct (progress_SetCurrent _ _ _ _ _ _ _ Hx HL4) as [HL5 Hl5].
  pose proof Hy as Hdn. eapply run_Complete in Hy; [|by repeat (eapply claimed_later; [eassumption|])].
  eapply completed_later; [|exact Hy].
  destruct (progress_Complete_op _ _ _ _ _ _ Hdn HL5) as [HL6 _].
  by destruct (progress_Record _ _ _ _ _ Hz HL6).
Qed.
(** ** A later import with the same key *)

Lemma completed_refuses d a request h s r : completed d a request h s → claimed_by a request r →
  insert r (import_records d) = None.
Proof.
  intros (i & r0 & Hr0 & (Hu & He & Hk) & _) (Hu' & He' & Hk').
  destruct (insert r (import_records d)) as [[k t]|] eqn:Hi; [exfalso|done].
  apply insert_Some in Hi as (_ & _ & _ & Hc). specialize (Hc _ _ Hr0). simpl in Hc.
  by rewrite Hu, He, Hk, Hu', He', Hk', !Z.eqb_refl, bool_decide_true in Hc.
Qed.

Lemma claim_held a request h s h' token w r w' : completed (db w) a request h s →
  insertClaim (new_claim a request h' token) w = (r, w') →
  db w' = db w ∧ ∀ k, r ≠ Ok (Some k).
Proof.
  intros Hc Hr. unfold insertClaim in Hr. unfold mbind at 1, M_bind in Hr. simpl in Hr.
  unfold mbind at 1, M_bind, attempt, exec_insert, statement in Hr.
  destruct (next_fault _) as [fault w1] eqn:Hf. apply next_fault_store in Hf as [Hd _].
  simpl in Hd. rewrite Hd in Hr. cbn [get_table import_records_t] in Hr.
  rewrite (completed_refuses _ a request h s) in Hr; [|done|done].
  destruct fault as [[c []]|]; cbn in Hr;
    repeat (case_match; try done); injection Hr as <- <-; simpl; by rewrite ?Hd.
Qed.

Lemma held_Claim a request h s h' token w r w' : completed (db w) a request h s →
  Claim (new_claim a request h' token) w = (r, w') →
  db w' = db w ∧ ∀ k b, r = Ok (k, b) → b = false.
Proof.
  intros Hc Hr. unfold Claim in Hr. unfold mbind at 1, M_bind, wrapped, handle in Hr.
  destruct (insertClaim _ w) as [x w1] eqn:Hx. apply (claim_held a request h s) in Hx as [Hd Hn];
    [|done]. destruct x as [[k|]|e]; [by destruct (Hn k)| |by injection Hr as <- <-].
  split.
  - rewrite <-Hd. eapply quiet_run; [|exact Hr]. unfold lockExistingClaim. quiet.
  - intros k b ->. apply run_bind in Hr as (y & w2 & _ & Hr). by apply run_ret in Hr as [[= _ <-] _].
Qed.

Lemma completed_unique d a request h s h' s' : Ledger d →
  completed d a request h s → completed d a request h' s' → s = s' ∧ h = h'.
Proof.
  intros HL (i & r & Hr & (Hu & He & Hk) & Hh & _ & Ht)
    (i' & r' & Hr' & (Hu' & He' & Hk') & Hh' & _ & Ht').
  assert (i = i') as <-; [|split; congruence].
  eapply (led_imports _ HL); [done..|]. unfold claim_of. congruence.
Qed.

Lemma replayed_claim a request h s h' w r w' : Ledger (db w) →
  completed (db w) a request h s → claimImport a request h' w = (r, w') →
  db w' = db w ∧ ∀ x, r = Ok x → x = inr s ∧ h' = h.
Proof.
  intros HL Hcm Hr. unfold claimImport in Hr. unfold mbind at 1, M_bind in Hr. simpl in Hr.
  revert Hr. set (w1 := with_drawn _ w). intros Hr. change (db w) with (db w1) in *.
  unfold mbind at 1, M_bind in Hr.
  destruct (Claim _ w1) as [y w2] eqn:Hk. pose proof Hk as Hk2.
  apply (held_Claim a request h s) in Hk as [Hd Hn]; [|done].
  destruct y as [[k b]|e]; [|injection Hr as <- <-; by split].
  rewrite (Hn k b eq_refl) in Hk2, Hr. apply run_Claim in Hk2 as (Hrow & Hsame & _).
  assert (db w' = db w2) as Hd2 by (eapply quiet_run; [|exact Hr]; quiet).
  split; [congruence|]. intros x ->. apply same_claim_spec in Hsame as (Hu & He & Hkey).
  apply run_bind in Hr as (z & w3 & Hz & Hr). apply run_when_err in Hz as [Hz ->]. bool_hyps.
  destruct (imp_TargetSnapshotID k) as [s'|] eqn:Ht; [case_bool_decide|];
    try (apply run_bind in Hr as (? & ? & Hx & _); by apply run_when_err in Hx as [? _]).
  apply run_ret in Hr as [<- _].
  destruct (completed_unique (db w1) a request h s h' s') as [-> ->]; [done..| |done].
  exists (import_id k), k. rewrite <-Hd. done.
Qed.

Lemma replayed_importSnapshot a request h s h' w r w' : Ledger (db w) →
  completed (db w) a request h s → importSnapshot a request h' w = (r, w') →
  db w' = db w ∧ ∀ out, r = Ok out →
    out = {| io_snapshotID := s; io_replayed := true; io_cleanup := None |} ∧ h' = h.
Proof.
  intros HL Hc Hr. unfold importSnapshot in Hr. unfold mbind at 1, M_bind in Hr.
  destruct (claimImport _ _ _ w) as [y w1] eqn:Hk.
  apply (replayed_claim a request h s) in Hk as [Hd Hx]; [|done..].
  destruct y as [x|e]; [|injection Hr as <- <-; by split].
  destruct (Hx x eq_refl) as [-> ->]. injection Hr as <- <-. split; [done|]. by intros out [= <-].
Qed.

(** What an import leaves behind: nothing, or its completed claim; and when it
    answers a snapshot, that of the claim. *)
Lemma run_Import a request r w w' : Import a request w = (r, w') → Secure w →
  (∀ res, r ≠ Ok res) ∧ db w' = db w ∨
  ∃ h tags s, validateAndHash request = Ok (h, tags) ∧ completed (db w') a request h s ∧
    ∀ res, r = Ok res → ID (snp_meta (im_Snapshot res)) = s.
Proof.
  intros Hr HS. unfold Import in Hr.
  destruct (validateAndHash request) as [[h tags]|e] eqn:Hv; [|injection Hr as <- <-; by left].
  unfold mbind at 1, M_bind in Hr. cbn beta iota delta [lift] in Hr.
  unfold mbind at 1, M_bind in Hr. destruct (RequireSourceRead _ _ w) as [x w1] eqn:Hx.
  apply source_read in Hx as Hd1. destruct x as [x|e]; [|injection Hr as <- <-; by left].
  unfold mbind at 1, M_bind in Hr. destruct (Check _ _ _ w1) as [y w2] eqn:Hy.
  apply check_reads in Hy as Hd2. destruct y as [y|e]; [|injection Hr as <- <-; left; split; congruence].
  assert (db w2 = db w) as Hd by congruence.
  unfold mbind at 1, M_bind in Hr. destruct (TX _ w2) as [out w3] eqn:Ht. destruct out as [out|e].
  - right. apply TX_Ok in Ht as (wa & wb & [Hda _] & Ht & [Hdb _]).
    apply run_importSnapshot in Ht; [|rewrite Hda, Hd; apply HS].
    unfold mbind at 1, M_bind in Hr. destruct (cleanupImport _ w3) as [z w4] eqn:Hz.
    apply reads_cleanupImport in Hz as Hd4. exists h, tags, (io_snapshotID out).
    destruct z as [z|e]; [|injection Hr as <- <-; split; [done|]; rewrite Hd4, Hdb; by split].
    unfold mbind at 1, M_bind in Hr. destruct (snapshot_FindByID _ _ w4) as [sn w5] eqn:Hsn.
    pose proof (quiet_run _ _ _ _ (quiet_snapshot_FindByID _ _) Hsn) as [Hd5 _].
    split; [done|]. assert (w' = w5) as -> by (destruct sn; by injection Hr as _ <-).
    rewrite Hd5, Hd4, Hdb. split; [done|]. intros res ->. destruct sn as [sn|e]; [|done].
    injection Hr as <-. apply run_snapshot_FindByID in Hsn as (Hsn & _). by apply rows_id in Hsn.
  - injection Hr as <- <-.
    apply TX_Er in Ht as [?|(out & wa & wb & [Hda _] & Ht & [Hdb _])]; [left; split; congruence|].
    right. apply run_importSnapshot in Ht; [|rewrite Hda, Hd; apply HS].
    exists h, tags, (io_snapshotID out). by rewrite Hdb.
Qed.

Lemma replayed_TX a request h s h' w r w' : Ledger (db w) → completed (db w) a request h s →
  TX (importSnapshot a request h') w = (r, w') →
  db w' = db w ∧ ∀ out, r = Ok out →
    out = {| io_snapshotID := s; io_replayed := true; io_cleanup := None |} ∧ h' = h.
Proof.
  intros HL Hc Hr. destruct r as [out|e].
  - apply TX_Ok in Hr as (wa & wb & [Hda _] & Hr & [Hdb _]).
    apply (replayed_importSnapshot a request h s) in Hr as [Hd Hout]; [|by rewrite Hda..].
    split; [congruence|]. intros out' [= <-]. by apply Hout.
  - split; [|done]. apply TX_Er in Hr as [?|(out & wa & wb & [Hda _] & Hr & [Hdb _])]; [done|].
    apply (replayed_importSnapshot a request h s) in Hr as [Hd _]; [|by rewrite Hda..]. congruence.
Qed.

Lemma replayed_Import a request h s w r w' : Secure w → completed (db w) a request h s →
  Import a request w = (r, w') →
  db w' = db w ∧ ∀ res, r = Ok res → im_Replayed res = true ∧
    ID (snp_meta (im_Snapshot res)) = s ∧ ∃ tags, validateAndHash request = Ok (h, tags).
Proof.
  intros HS Hc Hr. unfold Import in Hr.
  destruct (validateAndHash request) as [[h' tags]|e] eqn:Hv; [|by injection Hr as <- <-].
  unfold mbind at 1, M_bind in Hr. cbn beta iota delta [lift] in Hr.
  unfold mbind at 1, M_bind in Hr. destruct (RequireSourceRead _ _ w) as [x w1] eqn:Hx.
  apply source_read in Hx as Hd1. destruct x as [x|e]; [|by injection Hr as <- <-].
  unfold mbind at 1, M_bind in Hr. destruct (Check _ _ _ w1) as [y w2] eqn:Hy.
  apply check_reads in Hy as Hd2. destruct y as [y|e]; [|by injection Hr as <- <-; split; [congruence|]].
  assert (db w2 = db w) as Hd by congruence.
  unfold mbind at 1, M_bind in Hr. destruct (TX _ w2) as [out w3] eqn:Ht.
  apply (replayed_TX a (with_tags tags request) h s) in Ht as [Hd3 Hout]; [|rewrite Hd; apply HS|by rewrite Hd].
  destruct out as [out|e]; [|by injection Hr as <- <-; split; [congruence|]].
  destruct (Hout out eq_refl) as [-> ->]. cbn [io_cleanup io_snapshotID io_replayed cleanupImport] in Hr.
  unfold mbind at 1, M_bind in Hr. simpl in Hr.
  unfold mbind at 1, M_bind in Hr. destruct (snapshot_FindByID _ _ w3) as [sn w4] eqn:Hsn.
  apply (quiet_run _ _ _ _ (quiet_snapshot_FindByID _ _)) in Hsn as Hd4. destruct Hd4 as [Hd4 _].
  destruct sn as [sn|e]; injection Hr as <- <-; (split; [congruence|]); [|done].
  intros res [= <-]. simpl. split; [done|]. apply run_snapshot_FindByID in Hsn as (Hsn & _).
  apply rows_id in Hsn. simpl in Hsn. split; [done|]. by exists tags.
Qed.
End imports.

Definition same_key (a : Actor) (request : ImportRequest) (a' : Actor) (request' : ImportRequest)
    : Prop :=
  UserID a' = UserID a ∧ ir_TargetEnvironmentID request' = ir_TargetEnvironmentID request ∧
  ir_IdempotencyKey request' = ir_IdempotencyKey request.

Section server.
Context {E : Engine} {EL : EngineLaws E} `{Collation} {St : Store} {SL : StoreLaws St}
  `{Protojson} `{MapOrder} `{Pepper} `{Argon2} `{JWTLib} `{SHA256} `{UnicodeLower}
  {Au : Authorizer} {AL : AuthorizerLaws Au} {PC : PermissionCache} {PL : PermissionCacheLaws PC}
  {SA : SecureAuthorizer Au} `{Deployment}.

(** C15: an import takes effect at most once.  Once an import has changed the
    database, whatever it answered (its commit may have been reported lost, or a
    statement after the commit failed), or has answered with a snapshot, there is
    one snapshot such that every later import of the same user into the same
    environment with the same idempotency key leaves the database as it is; and
    if it succeeds, it was made with a request of the same digest and answers
    with this snapshot, which is the one the first answered if it did, marked as
    replayed. *)
Theorem import_once w0 w a request r1 w1 :
  rtc step w0 w → Secure w0 → Import a request w = (r1, w1) →
  db w1 ≠ db w ∨ (∃ res, r1 = Ok res) →
  ∃ s, (∀ res, r1 = Ok res → ID (snp_meta (im_Snapshot res)) = s) ∧
  ∀ w2 a' request' r w3, rtc step w1 w2 →
    same_key a request a' request' → Import a' request' w2 = (r, w3) →
    db w3 = db w2 ∧
    match r with
    | Er _ => True
    | Ok res' => im_Replayed res' = true ∧ ID (snp_meta (im_Snapshot res')) = s ∧
        ∃ h tags tags', validateAndHash request = Ok (h, tags) ∧
          validateAndHash request' = Ok (h, tags')
    end.
Proof.
  intros Hs HS Hr Heff. apply steps_secure in Hs as [HSw _]; [|done].
  destruct (secured_Import a request _ _ _ Hr HSw) as [HS1 _].
  apply run_Import in Hr as [[Hn Hd]|(h & tags & s & Hv & Hc & Hres)]; [| |done].
  { destruct Heff as [?|[res ->]]; [done|]. by destruct (Hn res). }
  exists s. split; [done|]. intros w2 a' request' r w3 Hs2 (Hu & He & Hk) Hr2.
  apply steps_secure in Hs2 as [HS2 Hl2]; [|done].
  assert (completed (db w2) a' request' h s) as Hc2.
  { eapply completed_later; [exact Hl2|]. unfold completed, claimed_by. by rewrite Hu, He, Hk. }
  destruct (replayed_Import _ _ _ _ _ _ _ HS2 Hc2 Hr2) as [Hd Hres2]. split; [done|].
  destruct r as [res'|e]; [|done]. destruct (Hres2 res' eq_refl) as (? & ? & tags' & ?).
  split_and!; [done..|]. by exists h, tags, tags'.
Qed.
End server.

(** ** An administrator who imports a snapshot twice *)

Section sample.
Import Sample SampleWorld.

Definition copy (description : string) : ImportRequest :=
  {| ir_SourceEnvironmentID := 1; ir_SourceSnapshotID := 1; ir_TargetEnvironmentID := 1;
     ir_TargetProjectID := 1; ir_TargetConfigID := Some 1; ir_Description := description;
     ir_Tags := []; ir_IdempotencyKey := "key"; ir_ConflictStrategy := StrategyReplace |}.
Definition imported : World := (Import ann (copy "copy") managed).2.

Definition snapshot_of (r : result ImportResult) : option (Z * bool) :=
  match r with
  | Ok res => Some (ID (snp_meta (im_Snapshot res)), im_Replayed res)
  | Er _ => None
  end.

Lemma import_once_witness :
  snapshot_of (Import ann (copy "copy") managed).1 = Some (3, false) ∧
  snapshot_of (Import ann (copy "copy") imported).1 = Some (3, true) ∧
  db (Import ann (copy "copy") imported).2 = db imported.
Proof.
  split; [vm_compute; reflexivity|]. split; [vm_compute; reflexivity|].
  assert (snapshot_of (Import ann (copy "copy") managed).1 ≠ None) as Hok by (vm_compute; discriminate).
  unfold imported. destruct (Import ann (copy "copy") managed) as [[res|e] w1] eqn:Hr;
    [|by destruct Hok].
  destruct (import_once managed managed ann (copy "copy") _ w1
    (rtc_refl _ _) managed_secure Hr (or_intror (ex_intro _ res eq_refl))) as (s & _ & Hl).
  exact (proj1 (Hl w1 ann (copy "copy") _ _ (rtc_refl _ _) (conj eq_refl (conj eq_refl eq_refl))
    (surjective_pairing _))).
Defined.
End sample.
