(* ===== verification/LifetimeSpec.v ===== *)
(** What lasts: a revoked API key stays refused, and an installation that has
    been set up stays set up and administered. *)

From S2P Require Import Prelude GoStd GoStrings Engine Model Cache Convert World WorldLaws RepoScope Permission Password Jwt Credential RepoProject RepoIdentity RepoSession LogicAuth Codec Schema LogicBase LogicIdentity LogicProject LogicPublish PermissionSpec Ledger LedgerOps Handlers Secure HandlersAccess HandlersTransfer Server SchemaSpec SampleWorld AccessSpec.

Local Open Scope Z_scope.

Section lifetime.
Context {E : Engine} {EL : EngineLaws E} `{Collation} {St : Store} {SL : StoreLaws St}
  `{Protojson} `{MapOrder} `{Pepper} `{Argon2} `{JWTLib} `{SHA256} `{UnicodeLower}
  {Au : Authorizer} {AL : AuthorizerLaws Au} {PC : PermissionCache} {PL : PermissionCacheLaws PC}
  {SA : SecureAuthorizer Au} `{Deployment}.

(** ** API keys *)

(** A key with the public identifier exists and is revoked. *)
Definition dead_key (d : DB) (publicID : string) : Prop :=
  ∃ i k, rows (project_api_keys d) !! i = Some k ∧ key_PublicID k = publicID ∧
    key_RevokedAt k ≠ None.

Lemma dead_key_later d d' publicID : later d d' → dead_key d publicID → dead_key d' publicID.
Proof.
  intros Hl (i & k & Hk & <- & Hr). destruct (lat_keys _ _ Hl _ _ Hk) as (k' & Hk' & [_ Hrev]).
  destruct (Hrev Hr) as [? ?]. by exists i, k'.
Qed.

Lemma scoped_key e p i d k :
  head (apiKeyScope e (λ k, (key_ProjectID k =? p) && (key_id k =? i)) d) = Some k →
  rows (project_api_keys d) !! i = Some k.
Proof.
  intros Hh. apply head_select in Hh as [Hk Hp]. bool_hyps.
  change (row_id k) with (key_id k) in Hk. congruence.
Qed.

Lemma run_key_FindByID e p i k w w' : key_FindByID e p i w = (Ok k, w') →
  rows (project_api_keys (db w)) !! i = Some k ∧ same_store w w'.
Proof.
  intros Hr. unfold key_FindByID in Hr. inv_run.
  match goal with Hg : get _ _ = _ |- _ => apply run_get in Hg as [Hh Hs] end.
  symmetry in Hh. by apply scoped_key in Hh.
Qed.

Lemma run_key_Revoke m t u w w' k : key_Revoke m t w = (Ok u, w') →
  rows (project_api_keys (db w)) !! mu_KeyID m = Some k → key_PublicID k = mu_CurrentPublicID m →
  dead_key (db w') (key_PublicID k).
Proof.
  intros Hr Hk Hpub. unfold key_Revoke in Hr. inv_run.
  match goal with Hx : exec_update _ _ _ _ = _ |- _ =>
    apply update_rows in Hx as (tb & Htb & -> & -> & _); [|by intros ?] end.
  match goal with Hx : Z.of_nat _ ≠ 0 |- _ => apply selected_row in Hx as (r & Hrow & Hp) end.
  assert (r = k) as ->.
  { unfold apiKeyWriteScope in Hp. bool_hyps. cbn in Hrow.
    change (rows (project_api_keys (db w)) !! key_id r = Some r) in Hrow. congruence. }
  exists (mu_KeyID m), (key_stamp t (key_LastUsedAt k) (Some t) k). cbn in *.
  by rewrite Htb, lookup_fmap, Hk; simpl; rewrite Hp.
Qed.

Definition same_keys (d d' : DB) : Prop := project_api_keys d' = project_api_keys d.
#[local] Instance same_keys_preorder : PreOrder same_keys.
Proof. unfold same_keys. split; [by intros d|]. intros a b c. congruence. Qed.
Lemma keys_record e log : steps same_keys (RecordForEnvironment e log).
Proof. unfold RecordForEnvironment. steps. by intros t d. Qed.

Lemma run_key_logic_Revoke a e p i u w w' : key_logic_Revoke a e p i w = (Ok u, w') →
  ∃ k, rows (project_api_keys (db w)) !! i = Some k ∧ key_RevokedAt k = None ∧
    dead_key (db w') (key_PublicID k).
Proof.
  intros Hr. unfold key_logic_Revoke in Hr. apply run_bind in Hr as (x & w1 & Hx & Hr).
  apply check_reads in Hx. apply run_bind in Hr as (k & w2 & Hk & Hr).
  apply run_key_FindByID in Hk as [Hk [Hd2 _]]. apply run_bind in Hr as (y & w3 & Hy & Hr).
  apply run_when_err in Hy as [Hy ->]. apply run_bind in Hr as (t & w4 & Ht & Hr).
  apply run_now in Ht as [_ [Hd4 _]]. apply TX_Ok in Hr as (wa & wb & [Hda _] & Hr & [Hdb _]).
  apply run_bind in Hr as (locked & w5 & Hl & Hr).
  apply run_bind in Hr as (z & w7 & Hrev & Hlog). apply keys_record in Hlog.
  unfold lock_unrevoked in Hl. apply run_bind in Hl as (k' & w6 & Hk' & Hl).
  apply run_key_FindByID in Hk' as [Hk' [Hd6 _]]. inv_run. bool_hyps.
  assert (locked = k) as ->.
  { rewrite Hda, Hd4, Hd2, Hx in Hk'. rewrite Hx in Hk. congruence. }
  exists k. rewrite <-Hx. split; [done|]. split; [done|].
  eapply run_key_Revoke in Hrev; [|by rewrite Hd6|done].
  unfold dead_key. by rewrite Hdb, Hlog.
Qed.

(** A runtime read with a revoked key fails before anything is looked up. *)
Lemma dead_key_refused credential publicID pk ck w r w' : Ledger (db w) →
  dead_key (db w) publicID → credential_PublicID credential = Ok publicID →
  Read credential pk ck w = (r, w') → (∃ e, r = Er e) ∧ db w' = db w ∧ cache w' = cache w.
Proof.
  intros HL (i & k & Hk & Hpub & Hrev) Hc Hr. unfold Read in Hr. rewrite Hc in Hr.
  unfold mbind at 1, M_bind in Hr. destruct (TX _ w) as [x w1] eqn:Ht.
  assert ((∃ e, x = Er e) ∧ db w1 = db w ∧ cache w1 = cache w) as [[e ->] ?].
  2:{ injection Hr as <- <-. eauto. }
  unfold TX in Ht. destruct (next_fault w) as [[f|] w0] eqn:Hf; apply next_fault_store in Hf as [Hd0 Hc0];
    [injection Ht as <- <-; eauto|].
  unfold mbind at 1, M_bind in Ht. destruct (authenticate _ w0) as [[p|e] w2] eqn:Ha.
  - exfalso. unfold authenticate, unauthenticated_if_missing, LockRuntimeCredential in Ha. inv_run.
    match goal with Hx : get _ _ = _ |- _ => apply run_get in Hx as [Hh _] end.
    symmetry in Hh. apply head_select in Hh as [Hrow Hp]. bool_hyps. rewrite Hd0 in Hrow.
    match type of Hrow with _ = Some ?x =>
      assert (row_id x = i) as Hi by (eapply (led_keys _ HL); [done..|simpl in *; congruence]);
      rewrite Hi in Hrow; assert (x = k) as -> by congruence end.
    match goal with Hx : ¬ is_Some (key_RevokedAt k) |- _ => apply Hx end.
    by destruct (key_RevokedAt k).
  - injection Ht as <- <-. apply (quiet_run _ _ _ _ (quiet_auth _)) in Ha as [_ Hca].
    split; [eauto|]. split; [done|]. simpl. congruence.
Qed.

(** C20: revoking an API key is final.  After a successful revocation every
    runtime read with the key's credential fails in every later state, whatever
    is cached, and touches neither the database nor the cache. *)
Theorem revoked_key_refused w0 w actor e p i k w1 w2 credential project config r w3 :
  rtc step w0 w → Secure w0 → key_logic_Revoke actor e p i w = (Ok tt, w1) →
  rows (project_api_keys (db w)) !! i = Some k → rtc step w1 w2 →
  credential_PublicID credential = Ok (key_PublicID k) →
  Read credential project config w2 = (r, w3) →
  (∃ err, r = Er err) ∧ db w3 = db w2 ∧ cache w3 = cache w2.
Proof.
  intros Hs HS Hr Hk Hs2 Hc Hread. apply steps_secure in Hs as [HSw _]; [|done].
  destruct (handler_secured _ (serve_key_Revoke actor e p i) _ _ _ Hr HSw) as [HS1 _].
  apply steps_secure in Hs2 as [HS2 Hl]; [|done].
  apply run_key_logic_Revoke in Hr as (k' & Hk' & _ & Hdead).
  assert (k' = k) as -> by congruence.
  eapply dead_key_refused; [apply HS2|by eapply dead_key_later|done..].
Qed.

(** ** Installation *)

(** The permanent marker is set. *)
Definition initialized (d : DB) : Prop :=
  ∃ s, rows (application_secrets d) !! 1 = Some s ∧ sec_AdminInitialized s = true.

Lemma initialized_later d d' : later d d' → initialized d → initialized d'.
Proof.
  intros Hl (s & Hs & Hi). destruct (lat_secrets _ _ Hl _ _ Hs) as (s' & Hs' & Hs2).
  exists s'. auto.
Qed.

Lemma run_loadState s w w' : loadState w = (Ok s, w') →
  rows (application_secrets (db w)) !! 1 = Some s ∧ same_store w w'.
Proof.
  intros Hr. unfold loadState in Hr. apply run_bind in Hr as (x & w1 & Hx & Hr).
  apply run_handle, run_get in Hx as [Hx Hs]. destruct x as [y|]; [|by apply run_throw in Hr].
  apply run_ret in Hr as [-> ->]. split; [|done]. symmetry in Hx.
  apply head_select in Hx as [Hrow Hp]. apply Z.eqb_eq in Hp.
  change (row_id s) with (sec_ID s) in Hrow. by rewrite Hp in Hrow.
Qed.

Lemma run_markInitialized s u w w' : markInitialized w = (Ok u, w') →
  rows (application_secrets (db w)) !! 1 = Some s →
  initialized (db w') ∧ users (db w') = users (db w).
Proof.
  intros Hr Hs. unfold markInitialized in Hr. apply run_bind in Hr as (n & w1 & Hx & Hr).
  apply run_when_err in Hr as [_ <-]. apply run_handle, update_rows in Hx as (tb & Htb & _ & Hd & _);
    [|by intros r]. rewrite Hd. split; [|done]. exists (mark_initialized s). cbn in *.
  rewrite Htb, lookup_fmap, Hs. pose proof (rows_id _ _ _ Hs) as Hid. simpl in *. by rewrite Hid.
Qed.

Lemma run_CreateInitialAdmin_repo user u w w' : repo_CreateInitialAdmin user w = (Ok u, w') →
  is_admin (map_usr_meta (PrepareInsert 0) user) = true →
  initialized (db w') ∧ has_admin (db w').
Proof.
  intros Hr Hadm. unfold repo_CreateInitialAdmin in Hr.
  apply run_bind in Hr as (s & w1 & Hs & Hr). apply run_loadState in Hs as [Hs [Hd1 _]].
  apply run_bind in Hr as (x & w2 & Hx & Hr). apply run_when_err in Hx as [_ ->].
  apply run_bind in Hr as (t & w3 & Ht & Hr). apply run_now in Ht as [_ [Hd3 _]].
  apply run_bind in Hr as (k & w4 & Hk & Hr). apply run_handle, insert_rows in Hk
    as (tb & _ & _ & Htb & Hd4 & _).
  apply (run_markInitialized s) in Hr as [Hi Hu]; [|by rewrite Hd4; cbn; rewrite Hd3, Hd1].
  split; [done|]. unfold has_admin. rewrite Hu, Hd4. cbn in Htb |- *. rewrite Htb.
  eexists k, _. by rewrite lookup_insert_eq.
Qed.

Lemma run_promotion n d h x w w' : Ledger (db w) →
  CreateOrPromoteSystemAdmin n d h w = (Ok x, w') → has_admin (db w').
Proof.
  intros HL Hr. unfold CreateOrPromoteSystemAdmin in Hr.
  apply run_bind in Hr as (y & w1 & Hy & Hr). apply run_handle, run_get in Hy as [_ [Hd1 _]].
  destruct y as [user|].
  - apply run_bind in Hr as (z & w2 & Hz & Hr). apply run_bind in Hr as (p & w3 & Hp & Hr).
    apply run_ret in Hr as [_ <-]. unfold GetByID in Hp. apply run_find_user in Hp as (_ & _ & [Hd3 _]).
    rewrite Hd3. unfold promoteSystemAdmin in Hz. apply run_bind in Hz as (t & w4 & Ht & Hz).
    apply run_now in Ht as [_ [Hd4 _]]. apply run_bind in Hz as (k & w5 & Hk & Hz).
    apply run_bind in Hz as (y & w6 & Hy & Hz). apply run_must_affect in Hy as [Hn ->].
    apply run_handle in Hk. pose proof (progress_user_promote _ _ _ _ _ _ _ _ Hk) as Hpk.
    apply update_rows in Hk as (tb & Htb & -> & Hd5 & _); [|by intros r].
    apply selected_row in Hn as (r & Hr & Hp). destruct Hpk as [HL5 _]; [by rewrite Hd4, Hd1|].
    destruct (progress_revokeUserSessions _ _ _ _ _ Hz HL5) as [_ Hl]. apply (lat_admin _ _ Hl).
    unfold has_admin. rewrite Hd5. cbn in Htb, Hr |- *. rewrite Htb.
    eexists (ID (usr_meta r)), _. rewrite lookup_fmap, Hr. simpl. by rewrite Hp.
  - apply run_bind in Hr as (u & w2 & Hu & Hr). apply run_ret in Hr as [_ <-].
    unfold createSystemAdmin in Hu. apply run_bind in Hu as (t & w3 & _ & Hu).
    apply run_bind in Hu as (k & w4 & Hk & Hu). apply run_ret in Hu as [_ <-].
    apply run_handle, insert_rows in Hk as (tb & _ & _ & Htb & Hd4 & _). unfold has_admin.
    rewrite Hd4. cbn in Htb |- *. rewrite Htb. eexists k, _. by rewrite lookup_insert_eq.
Qed.

(** The two ways an installation gets its first administrator. *)
Inductive sets_up : ∀ {A}, M A → Prop :=
  | setup_by_browser n d p : sets_up (CreateInitialAdmin (passwords auth_logic) n d p)
  | setup_by_command n d h : sets_up (saveAdministrator n d h).

Lemma sets_up_result {A} (m : M A) x w w' : sets_up m → Secure w → m w = (Ok x, w') →
  initialized (db w') ∧ has_admin (db w').
Proof.
  intros Hm HS Hr. destruct Hm as [n d p|n d h].
  - unfold CreateInitialAdmin in Hr. apply run_bind in Hr as (hash & w1 & _ & Hr).
    apply TX_Ok in Hr as (wa & wb & _ & Hr & [Hd _]). rewrite Hd.
    by apply run_CreateInitialAdmin_repo in Hr.
  - unfold saveAdministrator in Hr. apply TX_Ok in Hr as (wa & wb & [Hda _] & Hr & [Hd _]).
    rewrite Hd. apply run_bind in Hr as (y & w1 & Hy & Hr).
    destruct (progress_MarkInitialized _ _ _ Hy) as [HL1 _]; [rewrite Hda; apply HS|].
    split; [|by eapply run_promotion].
    destruct (progress_CreateOrPromote _ _ _ _ _ _ Hr HL1) as [_ Hl].
    eapply initialized_later; [exact Hl|]. unfold MarkInitialized in Hy.
    apply run_bind in Hy as (s & w2 & Hs & Hy). apply run_loadState in Hs as [Hs [Hd2 _]].
    destruct (sec_AdminInitialized s) eqn:Hi.
    + apply run_ret in Hy as [_ <-]. exists s. by rewrite Hd2.
    + apply (run_markInitialized s) in Hy as [Hy _]; [done|by rewrite Hd2].
Qed.

Lemma initialized_refuses n d p w r w' : initialized (db w) →
  CreateInitialAdmin (passwords auth_logic) n d p w = (r, w') →
  (∃ e, r = Er e) ∧ db w' = db w.
Proof.
  intros Hi Hr. unfold CreateInitialAdmin in Hr. unfold mbind at 1, M_bind in Hr.
  destruct (handle _ _ w) as [x w1] eqn:Hx.
  apply (quiet_handle _ _ (quiet_password_Hash _ _)) in Hx as [Hd1 _].
  destruct x as [hash|e]; [|by injection Hr as <- <-; eauto]. rewrite <-Hd1 in Hi |- *.
  assert (∀ user v y v', initialized (db v) → repo_CreateInitialAdmin user v = (y, v') →
    (∃ e, y = Er e) ∧ db v' = db v) as Hop.
  { clear. intros user v y v' (s & Hs & Hin) Hr. unfold repo_CreateInitialAdmin in Hr.
    unfold mbind at 1, M_bind in Hr. destruct (loadState v) as [[s'|e] v1] eqn:Hl.
    - apply run_loadState in Hl as [Hs' [Hd _]]. assert (s' = s) as -> by congruence.
      rewrite Hin in Hr. injection Hr as <- <-. eauto.
    - apply (quiet_run _ _ _ _ quiet_loadState) in Hl as [Hd _]. injection Hr as <- <-. eauto. }
  destruct r as [y|e].
  - exfalso. apply TX_Ok in Hr as (wa & wb & [Hda _] & Hr & _).
    apply Hop in Hr as [[e He] _]; [done|by rewrite Hda].
  - split; [eauto|]. apply TX_Er in Hr as [?|(y & wa & wb & [Hda _] & Hr & _)]; [done|].
    apply Hop in Hr as [[e' He] _]; [done|by rewrite Hda].
Qed.

(** C17: an installation is set up once and never loses its last administrator.
    After a successful first-run setup or create-admin command, in every later
    state some live account is an enabled system administrator, the browser's
    setup reports the installation as initialised, and any further attempt to
    create an initial administrator fails and changes nothing. *)
Theorem setup_is_permanent {A} w0 w (m : M A) x w1 w2 :
  rtc step w0 w → Secure w0 → sets_up m → m w = (Ok x, w1) → rtc step w1 w2 →
  has_admin (db w2) ∧
  (∀ b w3, GetSetupStatus w2 = (Ok b, w3) → b = true) ∧
  ∀ n d p r w3, CreateInitialAdmin (passwords auth_logic) n d p w2 = (r, w3) →
    (∃ e, r = Er e) ∧ db w3 = db w2.
Proof.
  intros Hs HS Hm Hr Hs2. apply steps_secure in Hs as [HSw _]; [|done].
  destruct (sets_up_result _ _ _ _ Hm HSw Hr) as [Hi Ha].
  assert (handler m) as Hh by (destruct Hm; constructor).
  destruct (handler_secured _ Hh _ _ _ Hr HSw) as [HS1 _].
  apply steps_secure in Hs2 as [HS2 Hl]; [|done]. split; [by apply (lat_admin _ _ Hl)|].
  pose proof (initialized_later _ _ Hl Hi) as Hi2. split.
  - intros b w3 Hb. unfold GetSetupStatus, IsInitialized in Hb. inv_run.
    match goal with Hx : loadState _ = _ |- _ => apply run_loadState in Hx as [Hx _] end.
    destruct Hi2 as (s & Hs & Hi2). congruence.
  - intros n d p r w3 Hc. by eapply initialized_refuses.
Qed.
End lifetime.

(** ** A revocation, and a first run *)

Section sample.
Import Sample SampleWorld.

(** The client has read, then its key is revoked. *)
Definition read_once : World := (Read (Full client) "shop" "main" managed).2.
Definition revoked : World := (key_logic_Revoke ann 1 1 1 read_once).2.

Lemma read_once_run : rtc step managed read_once.
Proof. apply rtc_once. eapply (step_read _ read_once). apply surjective_pairing. Qed.

Lemma revoked_key_refused_witness :
  (Read (Full client) "shop" "main" managed).1 = Ok {| rr_Content := first_value; rr_Version := 1 |} ∧
  ∃ err, (Read (Full client) "shop" "main" revoked).1 = Er err.
Proof.
  split; [vm_compute; reflexivity|].
  assert ((key_logic_Revoke ann 1 1 1 read_once).1 = Ok tt) as Hok by (vm_compute; reflexivity).
  unfold revoked. destruct (key_logic_Revoke ann 1 1 1 read_once) as [x w1] eqn:Hr. simpl in *.
  subst x. destruct (rows (project_api_keys (db read_once)) !! 1) as [k|] eqn:Hk;
    [|exfalso; vm_compute in Hk; discriminate Hk].
  assert (credential_PublicID (Full client) = Ok (key_PublicID k)) as Hc.
  { assert (key_PublicID k = PublicID client) as ->
      by (vm_compute in Hk; injection Hk as <-; vm_compute; reflexivity).
    vm_compute. reflexivity. }
  destruct (revoked_key_refused managed read_once ann 1 1 1 k w1 w1 (Full client) "shop" "main"
    (Read (Full client) "shop" "main" w1).1 (Read (Full client) "shop" "main" w1).2
    read_once_run managed_secure Hr Hk (rtc_refl _ _) Hc (surjective_pairing _)) as [He _].
  exact He.
Defined.

(** An installation before its first run. *)
Definition secrets : ApplicationSecretsRow :=
  {| sec_ID := 1; sec_JWTKeyID := "k1"; sec_JWTSigningKey := signing_key;
     sec_APIKeyPepper := "pepper"; sec_AdminInitialized := false |}.
Definition unconfigured : World :=
  {| db := put_table application_secrets_t ({[1 := secrets]} : gmap Z ApplicationSecretsRow) database;
     cache := Memory.newMemory : cstate; faults := []; clock := λ n, Z.of_nat n + 100; ticks := 0;
     entropy := λ _, fit 16 "salt"; drawn := 0 |}.
Lemma unconfigured_secure : Secure unconfigured.
Proof.
  destruct sample_secure as [[? ? ? ?] ? ? Hb]. split; [by split|done| |].
  - intros u e v x env Hx. exfalso. destruct Hx as (y & Hy & _). discriminate Hy.
  - intros u e v x Hx. exfalso. destruct Hx as (y & Hy & _). discriminate Hy.
Qed.

Definition first_run : M unit := CreateInitialAdmin (passwords auth_logic) "root" "Root" "secret".

Lemma setup_is_permanent_witness :
  (GetSetupStatus unconfigured).1 = Ok false ∧ has_admin (db (first_run unconfigured).2) ∧
  ∃ e, (first_run (first_run unconfigured).2).1 = Er e.
Proof.
  split; [vm_compute; reflexivity|].
  assert ((first_run unconfigured).1 = Ok tt) as Hok by (vm_compute; reflexivity).
  destruct (first_run unconfigured) as [x w1] eqn:Hr. simpl in *. subst x.
  destruct (setup_is_permanent unconfigured unconfigured first_run tt w1 w1 (rtc_refl _ _)
    unconfigured_secure (setup_by_browser _ _ _) Hr (rtc_refl _ _)) as (Ha & _ & Hno).
  split; [exact Ha|].
  destruct (Hno "root" "Root" "secret" _ _ (surjective_pairing _)) as [He _]. exact He.
Defined.
End sample.
