(* ===== verification/SessionSpec.v ===== *)
(** Browser sessions over time: a refresh token is good for one exchange, its
    replay ends the session, and signing out is final for them.  Then access tokens and
    password hashes: what is issued is accepted, for as long as it should be. *)

From S2P Require Import Prelude GoStd Util Json GoStrings Codec CodecLaws Schema SchemaSpec Engine Model Cache Convert World WorldLaws RepoScope Permission Credential Password Jwt CredentialLaws RepoProject RepoIdentity RepoSession LogicBase LogicIdentity LogicAuth Middleware LogicPublish SampleWorld CodecSpec PermissionSpec Ledger LedgerOps Handlers Secure HandlersAccess Server AccessSpec.
From Stdlib Require Import Ascii.

Local Open Scope Z_scope.

Section session.
Context {E : Engine} {EL : EngineLaws E} `{Collation} {St : Store} {SL : StoreLaws St}
  `{Protojson} `{MapOrder} `{Pepper} `{Argon2} `{JWTLib} `{SHA256} `{UnicodeLower}
  {Au : Authorizer} {AL : AuthorizerLaws Au} {PC : PermissionCache} {PL : PermissionCacheLaws PC}
  {SA : SecureAuthorizer Au} `{Deployment}.

(** A token row with the digest [h] exists and is revoked. *)
Definition dead (d : DB) (h : string) : Prop :=
  ∃ k t, rows (refresh_tokens d) !! k = Some t ∧ tok_TokenHash t = h ∧ tok_RevokedAt t ≠ None.

(** The bearer text is not accepted for a new session token. *)
Definition refused (plain : string) (w : World) : Prop :=
  ∀ clear x w', Refresh auth_logic plain w ≠ (Ok (clear, Ok x), w').

Lemma dead_later d d' h : later d d' → dead d h → dead d' h.
Proof.
  intros Hl (k & t & Ht & <- & Hr). destruct (lat_tokens _ _ Hl _ _ Ht) as (t' & Ht' & []).
  exists k, t'. auto.
Qed.

(** ** Rotation *)

Lemma run_lockToken h k w w' : lockTokenByHash h w = (Ok k, w') →
  same_store w w' ∧ match k with
  | Some t => rows (refresh_tokens (db w)) !! token_id t = Some t ∧ tok_TokenHash t = h
  | None => ∀ i t, rows (refresh_tokens (db w)) !! i = Some t → tok_TokenHash t ≠ h
  end.
Proof.
  intros Hr. unfold lockTokenByHash in Hr. apply run_handle, run_get in Hr as [Hk Hs].
  split; [done|]. symmetry in Hk. destruct k as [t|].
  - apply head_select in Hk as [? ?]. by bool_hyps.
  - intros i t Ht Heq. apply (head_select_None _ _ Hk) in Ht.
    by rewrite bool_decide_true in Ht.
Qed.

Lemma run_Rotate h next t k w w' : Rotate h next t w = (Ok k, w') →
  ∃ i c, rows (refresh_tokens (db w)) !! i = Some c ∧ tok_TokenHash c = h ∧
    tok_RevokedAt c = None ∧ t < tok_ExpiresAt c ∧ tok_UserID k = tok_UserID c ∧
    tok_SessionID k = tok_SessionID c ∧
    ∃ c', rows (refresh_tokens (db w')) !! i = Some c' ∧ tok_TokenHash c' = h ∧
      tok_RevokedAt c' ≠ None.
Proof.
  intros Hr. unfold Rotate in Hr. apply run_bind in Hr as (x & w1 & Hx & Hr).
  apply run_when_err in Hx as [_ ->]. apply run_bind in Hr as (y & w2 & Hy & Hr).
  apply run_when_err in Hy as [_ ->]. apply run_bind in Hr as (cur & w3 & Hl & Hr).
  apply run_lockToken in Hl as [[Hd3 _] Hl]. apply run_bind in Hr as (c & w4 & Hc & Hr).
  assert (cur = Some c ∧ w4 = w3 ∧ unrevoked c = true ∧ t < tok_ExpiresAt c)
    as (-> & -> & Hun & Hexp).
  { unfold checkRotation in Hc. destruct cur as [c'|]; [|by apply run_throw in Hc].
    apply run_bind in Hc as (z & v & Hz & Hc). apply run_when_err in Hz as [Hz ->].
    destruct (unrevoked c') eqn:Hu; [apply run_ret in Hc as [-> ->]|].
    - simpl in Hz. bool_hyps. split_and!; first [done|lia].
    - apply run_bind in Hc as (z' & v' & _ & Hc). apply run_bind in Hc as (z2 & v2 & _ & Hc).
      by apply run_throw in Hc. }
  destruct Hl as [Hrow Hh]. rewrite <-Hd3 in Hrow |- *. clear Hd3.
  apply run_bind in Hr as (at_ & w5 & Hn & Hr). apply run_now in Hn as [_ [Hd5 _]].
  apply run_bind in Hr as (i & w6 & Hi & Hr). apply run_handle, insert_rows in Hi
    as (tb & _ & Hfree & Htb & Hdb & _). apply run_bind in Hr as (z & w7 & Hcon & Hr).
  apply run_ret in Hr as [<- <-]. unfold consumeToken in Hcon.
  apply run_bind in Hcon as (n & w8 & Hu & Hcon). apply run_when_err in Hcon as [_ ->].
  apply run_handle, update_rows in Hu as (tb' & Htb' & _ & Hdb' & _); [|by intros r].
  exists (token_id c), c. rewrite Hd5 in *. cbn in Hfree, Htb, Htb'.
  assert (rows tb !! token_id c = Some c) as Hc'.
  { rewrite Htb. apply lookup_insert_Some. right. split; [|done]. intros ->. congruence. }
  unfold unrevoked in Hun. apply bool_decide_eq_true in Hun.
  split_and!; try done. exists (token_consume i t c). split_and!; [|done..].
  rewrite Hdb'. cbn. rewrite Htb', Hdb. cbn. rewrite lookup_fmap, Hc'. simpl.
  rewrite Z.eqb_refl. unfold unrevoked. by rewrite Hun.
Qed.

Lemma run_Refresh plain clear x w w' : Refresh auth_logic plain w = (Ok (clear, Ok x), w') →
  ∃ i c, rows (refresh_tokens (db w)) !! i = Some c ∧
    tok_TokenHash c = session_Hash plain ∧ tok_RevokedAt c = None ∧
    clock w (ticks w) < tok_ExpiresAt c ∧ dead (db w') (session_Hash plain) ∧
    user_id (ar_User x) = tok_UserID c ∧ usr_Enabled (ar_User x) = true.
Proof.
  intros Hr. unfold Refresh in Hr. apply run_bind in Hr as (t & w1 & Ht & Hr).
  apply run_now in Ht as [-> [Hd1 _]]. apply run_bind in Hr as (g & w2 & Hg & Hr).
  unfold attempt in Hg at 1. destruct (available _ session_Generate w1) as [g' w2'] eqn:Hgen.
  injection Hg as -> ->. apply (quiet_handle _ _ quiet_session_Generate) in Hgen as [Hd2 _].
  destruct g as [[plainNext nextHash]|e]; [|by apply run_ret in Hr as [? _]].
  apply run_bind in Hr as (rot & w3 & Hrot & Hr). unfold attempt in Hrot at 1.
  destruct (rotateRefresh _ _ _ w2) as [rot' w3'] eqn:Hrr. injection Hrot as -> ->.
  destruct rot as [k|e]; [|destruct (refreshFailure e); by apply run_ret in Hr as [? _]].
  unfold rotateRefresh in Hrr. apply run_bind in Hrr as (r' & w4 & Htx & Hrr).
  unfold attempt in Htx at 1. destruct (TX _ w2) as [r4 w4'] eqn:Htx'. injection Htx as -> ->.
  destruct r' as [k'|e].
  2:{ exfalso. destruct (is_Replay e); [|by apply run_throw in Hrr].
      apply run_bind in Hrr as (z & v & _ & Hrr). destruct z; by apply run_throw in Hrr. }
  apply run_ret in Hrr as [-> ->]. apply TX_Ok in Htx' as (wa & wb & [Hda _] & Hop & [Hdb _]).
  apply run_Rotate in Hop as (i & c & Hc & Hh & Hun & Hexp & Hu & _ & c' & Hc' & Hh' & Hrv).
  assert (db wa = db w) as Hdaw by congruence. rewrite Hdaw in Hc.
  apply run_bind in Hr as (res & w5 & Hres & Hr). unfold attempt in Hres at 1.
  destruct (refreshedAccess _ _ _ _) as [res' w5'] eqn:Hacc. injection Hres as -> ->.
  destruct res as [y|e].
  2:{ apply run_bind in Hr as (z & v & _ & Hr). by apply run_ret in Hr as [? _]. }
  apply run_ret in Hr as [[= _ ->] ->]. unfold refreshedAccess in Hacc.
  apply run_bind in Hacc as (user & w6 & Hact & Hacc). unfold activeUser in Hact.
  apply run_bind in Hact as (user' & w7 & Hact & Hen).
  apply run_handle, run_find_user in Hact as (_ & Hp & [Hd7 _]).
  apply run_bind in Hen as (z & w8 & Hen & Hret). apply run_when_err in Hen as [Hen ->].
  apply run_ret in Hret as [-> ->]. apply run_bind in Hacc as ([tok ttl] & w9 & Hiss & Hacc).
  apply run_handle in Hiss. apply (quiet_run _ _ _ _ (quiet_Issue _ _ _)) in Hiss as [Hd9 _].
  apply run_ret in Hacc as [<- ->]. simpl. bool_hyps.
  exists i, c. split_and!; try done; [|congruence].
  exists i, c'. split_and!; try done. by rewrite Hd9, Hd7, Hdb.
Qed.

(** A dead token is refused. *)
Lemma dead_refused plain w : Ledger (db w) → dead (db w) (session_Hash plain) → refused plain w.
Proof.
  intros HL (k & t & Ht & Hh & Hrv) clear x w' Hr.
  apply run_Refresh in Hr as (i & c & Hc & Hch & Hun & _).
  assert (i = k) as -> by (eapply (led_tokens _ HL); [done..|congruence]). congruence.
Qed.

(** C5: a refresh token can be exchanged once.  After an exchange that
    succeeded, the same token is refused in every later state of the server,
    whatever operations ran in between and whatever failed; and the exchange
    itself was made with a stored token that was neither revoked nor expired,
    for an enabled account. *)
Theorem refresh_single_use w0 w plain clear x w1 w2 :
  rtc step w0 w → Secure w0 → Refresh auth_logic plain w = (Ok (clear, Ok x), w1) →
  rtc step w1 w2 →
  refused plain w2 ∧
  ∃ i c, rows (refresh_tokens (db w)) !! i = Some c ∧ tok_TokenHash c = session_Hash plain ∧
    tok_RevokedAt c = None ∧ clock w (ticks w) < tok_ExpiresAt c ∧
    user_id (ar_User x) = tok_UserID c ∧ usr_Enabled (ar_User x) = true.
Proof.
  intros Hs HS Hr Hs2. apply steps_secure in Hs as [HSw _]; [|done].
  destruct (secured_Refresh auth_logic _ _ _ _ Hr HSw) as [HS1 _].
  apply steps_secure in Hs2 as [HS2 Hl2]; [|done].
  apply run_Refresh in Hr as (i & c & Hc & Hh & Hun & Hexp & Hdead & Hu & Hen). split.
  - apply dead_refused; [apply HS2|]. by eapply dead_later.
  - by exists i, c.
Qed.
(** ** Ending sessions *)

(** No token of the kind is left that could be exchanged. *)
Definition ended (which : RefreshTokenRow → Prop) (d : DB) : Prop :=
  ∀ k t, rows (refresh_tokens d) !! k = Some t → which t → tok_RevokedAt t ≠ None.

Definition same_tokens (d d' : DB) : Prop := refresh_tokens d' = refresh_tokens d.
#[local] Instance same_tokens_preorder : PreOrder same_tokens.
Proof. unfold same_tokens. split; [by intros d|]. intros a b c. congruence. Qed.
Lemma ended_same which d d' : same_tokens d d' → ended which d → ended which d'.
Proof. unfold ended, same_tokens. by intros ->. Qed.
Lemma tokens_record i log : steps same_tokens (record_system i log).
Proof. unfold record_system, RecordSystem. steps. by intros t d. Qed.

Lemma run_revoke (p : RefreshTokenRow → bool) t n w w' :
  exec_update refresh_tokens_t (λ _ k, p k && unrevoked k) (token_revoke t) w = (Ok n, w') →
  ended (λ k, p k = true) (db w').
Proof.
  intros (tb & Htb & _ & -> & _)%update_rows; [|by intros r]. intros k r Hr Hp. cbn in Hr, Htb.
  rewrite Htb, lookup_fmap in Hr. apply fmap_Some in Hr as (r0 & _ & ->).
  destruct (p r0 && unrevoked r0) eqn:Hb; [done|]. rewrite Hp in Hb. simpl in Hb.
  unfold unrevoked in Hb. by bool_hyps.
Qed.
Lemma ended_weaken (p q : RefreshTokenRow → Prop) d : (∀ t, q t → p t) → ended p d → ended q d.
Proof. intros Hpq He k t Ht Hq. eapply He; eauto. Qed.

Lemma run_revokeSession u s t x w w' : revokeSession u s t w = (Ok x, w') →
  ended (λ k, tok_UserID k = u ∧ tok_SessionID k = s) (db w').
Proof.
  intros Hr. unfold revokeSession in Hr. inv_run.
  match goal with Hx : exec_update _ _ _ _ = _ |- _ => apply run_revoke in Hx end.
  eapply ended_weaken; [|done]. intros k [Hu Hs]. unfold session_tokens.
  by rewrite Hu, Hs, Z.eqb_refl, bool_decide_true.
Qed.
Lemma run_revokeUser u t x w w' : revokeUserSessions u t w = (Ok x, w') →
  ended (λ k, tok_UserID k = u) (db w').
Proof.
  intros Hr. unfold revokeUserSessions in Hr. inv_run.
  match goal with Hx : exec_update _ _ _ _ = _ |- _ =>
    apply (run_revoke (λ k, tok_UserID k =? u)) in Hx end.
  eapply ended_weaken; [|done]. intros k Hu. by apply Z.eqb_eq.
Qed.

Lemma run_UpdatePassword u h a log x w w' : UpdateManagedPassword u h a log w = (Ok x, w') →
  ended (λ k, tok_UserID k = u) (db w').
Proof.
  intros Hr. unfold UpdateManagedPassword, lockManagedUser in Hr.
  apply run_bind in Hr as (user & w1 & Hu & Hr). apply run_find_user in Hu as (_ & Hp & _).
  apply run_bind in Hr as (t & w2 & _ & Hr). apply run_bind in Hr as (n & w3 & _ & Hr).
  apply run_bind in Hr as (y & w4 & _ & Hr). apply run_bind in Hr as (z & w5 & Hrv & Hlog).
  apply run_revokeUser in Hrv. apply tokens_record in Hlog. bool_hyps.
  eapply ended_same; [exact Hlog|]. eapply ended_weaken; [|exact Hrv]. simpl. congruence.
Qed.
Lemma run_UpdateStatus m log x w w' : UpdateManagedStatus m log w = (Ok x, w') →
  ms_Enabled m = false → ended (λ k, tok_UserID k = ms_UserID m) (db w').
Proof.
  intros Hr Hen. unfold UpdateManagedStatus, lockManagedUser in Hr. rewrite Hen in Hr.
  apply run_bind in Hr as (user & w1 & Hu & Hr). apply run_find_user in Hu as (_ & Hp & _).
  apply run_bind in Hr as (y & w2 & _ & Hr). apply run_bind in Hr as (z & w3 & _ & Hr).
  apply run_bind in Hr as (t & w4 & _ & Hr). apply run_bind in Hr as (n & w5 & _ & Hr).
  apply run_bind in Hr as (y' & w6 & Hrv & Hr). apply run_bind in Hrv as (t' & w7 & _ & Hrv).
  apply run_bind in Hr as (y2 & w8 & Hlog & Hr). apply run_ret in Hr as [_ <-].
  apply run_revokeUser in Hrv. apply tokens_record in Hlog. bool_hyps.
  eapply ended_same; [exact Hlog|]. eapply ended_weaken; [|exact Hrv]. simpl. congruence.
Qed.
Definition same_users (d d' : DB) : Prop := users d' = users d.
#[local] Instance same_users_preorder : PreOrder same_users.
Proof. unfold same_users. split; [by intros d|]. intros a b c. congruence. Qed.
Lemma users_record i log : steps same_users (record_system i log).
Proof. unfold record_system, RecordSystem. steps. by intros t d. Qed.
Lemma users_revoke u t : steps same_users (revokeUserSessions u t).
Proof. unfold revokeUserSessions. steps. by intros tb d. Qed.

(** The account [u] is there and disabled. *)
Definition disabled (d : DB) (u : Z) : Prop :=
  ∃ user, rows (users d) !! u = Some user ∧ usr_Enabled user = false.
Lemma run_disabled m log x w w' : UpdateManagedStatus m log w = (Ok x, w') →
  ms_Enabled m = false → disabled (db w') (ms_UserID m).
Proof.
  intros Hr Hen. unfold UpdateManagedStatus, lockManagedUser in Hr. rewrite Hen in Hr.
  apply run_bind in Hr as (user & w1 & Hu & Hr). apply run_find_user in Hu as (Hrow & Hp & [Hd1 _]).
  apply run_bind in Hr as (y & w2 & Hv & Hr). apply run_when_err in Hv as [Hv <-].
  apply run_bind in Hr as (z & w3 & He & Hr).
  assert (same_store w1 w3) as [Hd3 _]
    by (revert He; apply quiet_run; unfold ensureLastSystemAdmin; case_match; quiet).
  apply run_bind in Hr as (t & w4 & Ht & Hr). apply run_now in Ht as [_ [Hd4 _]].
  apply run_bind in Hr as (n & w5 & Hup & Hr). unfold updateManagedUser in Hup.
  apply run_bind in Hup as (k & w5' & Hup & Hw). apply run_when_err in Hw as [_ <-].
  apply run_handle, update_rows in Hup as (tb & Htb & _ & Hd5 & _); [|by intros r].
  apply run_bind in Hr as (y' & w6 & Hrv & Hr). apply run_bind in Hrv as (t' & w7 & Hnow & Hrv).
  apply run_now in Hnow as [_ [Hd7 _]].
  apply run_bind in Hr as (y2 & w8 & Hlog & Hr). apply run_ret in Hr as [_ <-].
  apply users_revoke in Hrv. apply users_record in Hlog. unfold same_users in Hrv, Hlog.
  cbn in Htb. bool_hyps. exists (user_status m t user). split; [|done].
  rewrite Hlog, Hrv, Hd7, Hd5. cbn. rewrite Htb, Hd4, Hd3, Hd1, lookup_fmap.
  match goal with Hid : user_id user = _, Hlive : live _ = true |- _ =>
    rewrite <-Hid, Hrow; cbn; by rewrite Hlive, Hv, !Z.eqb_refl end.
Qed.
Lemma disabled_refused d u tok t p w w' : disabled d u → db w = d →
  AdminAuth tok t w = (Ok p, w') → pl_UserID p ≠ u.
Proof.
  intros (user & Hu & Hoff) <- (_ & claims & user' & _ & _ & Hu' & Hon & _)%run_AdminAuth <-. congruence.
Qed.

Lemma run_RevokeSession h t x w w' : RevokeSessionByTokenHash h t w = (Ok x, w') →
  len h = 32 → ∀ k c, rows (refresh_tokens (db w)) !! k = Some c → tok_TokenHash c = h →
  Ledger (db w) →
  ended (λ k, tok_UserID k = tok_UserID c ∧ tok_SessionID k = tok_SessionID c) (db w').
Proof.
  intros Hr Hlen k c Hc Hh HL. unfold RevokeSessionByTokenHash in Hr. rewrite Hlen in Hr.
  simpl in Hr. apply run_bind in Hr as (cur & w1 & Hl & Hr).
  apply run_lockToken in Hl as [[Hd _] Hl]. destruct cur as [t0|].
  - destruct Hl as [Ht0 Hh0].
    assert (token_id t0 = k) as Hk by (eapply (led_tokens _ HL); [done..|congruence]).
    rewrite Hk in Ht0. assert (t0 = c) as -> by congruence. by eapply run_revokeSession.
  - by apply Hl in Hc.
Qed.

(** The refresh tokens an operation ends when it succeeds in the state [d], and
    the accounts it disables. *)
Inductive ends (d : DB) : ∀ {A}, M A → (RefreshTokenRow → Prop) → (Z → Prop) → Prop :=
  | ends_logout plain k c : rows (refresh_tokens d) !! k = Some c →
      tok_TokenHash c = session_Hash plain → len (session_Hash plain) = 32 →
      ends d (Logout plain)
        (λ t, tok_UserID t = tok_UserID c ∧ tok_SessionID t = tok_SessionID c) (λ _, False)
  | ends_password h a u p :
      ends d (user_logic_UpdatePassword h a u p) (λ t, tok_UserID t = u) (λ _, False)
  | ends_disabled a u v :
      ends d (user_logic_UpdateStatus a u false v) (λ t, tok_UserID t = u) (λ x, x = u).

Lemma TX_ended {A} (op : M A) which x w w' :
  (∀ v y v', op v = (Ok y, v') → db v = db w → ended which (db v')) →
  TX op w = (Ok x, w') → ended which (db w').
Proof.
  intros Hop (w0 & w1 & [Hd0 _] & Hr & [Hd1 _])%TX_Ok. rewrite Hd1. by eapply Hop.
Qed.

Lemma ends_ended {A} (m : M A) which off x w w' : ends (db w) m which off → Secure w →
  m w = (Ok x, w') → ended which (db w').
Proof.
  intros Hm HS. destruct Hm as [plain k c Hc Hh Hlen|h a u p|a u v]; intros Hr.
  - unfold Logout, auth_revokeSession in Hr. apply run_bind in Hr as (t & w1 & Ht & Hr).
    apply run_now in Ht as [_ [Hd _]]. apply run_handle in Hr. rewrite <-Hd in Hc.
    eapply TX_ended; [|exact Hr]. intros w2 y w3 Hop Hd2.
    eapply run_RevokeSession; [exact Hop|done|by rewrite Hd2|done|].
    rewrite Hd2, Hd. apply HS.
  - unfold user_logic_UpdatePassword in Hr. apply run_bind in Hr as (y & w1 & _ & Hr).
    apply run_bind in Hr as (hash & w2 & _ & Hr). eapply TX_ended; [|exact Hr].
    intros w3 z w4 Hop _. by eapply run_UpdatePassword.
  - unfold user_logic_UpdateStatus in Hr. apply run_bind in Hr as (y & w1 & _ & Hr).
    eapply TX_ended; [|exact Hr]. intros w3 z w4 Hop _. by eapply run_UpdateStatus in Hop.
Qed.

Lemma ends_disables {A} (m : M A) which off x w w' : ends (db w) m which off →
  m w = (Ok x, w') → ∀ u, off u → disabled (db w') u.
Proof.
  intros Hm Hr u Hoff. destruct Hm; try done. subst. unfold user_logic_UpdateStatus in Hr.
  apply run_bind in Hr as (y & w1 & _ & (w2 & w3 & _ & Hop & [Hd _])%TX_Ok). rewrite Hd.
  by eapply run_disabled in Hop.
Qed.

(** C18: signing out is for ever.  After a logout that succeeded, every refresh
    token of its session, and after a new password or the disabling of an account
    that succeeded, every refresh token of the account that exists at that
    moment, is refused in every later state of the server (enabling the account
    again does not revive it); and a disabled account is disabled at once, and
    as long as it is, none of its access tokens is accepted either.  (Access
    tokens issued before a logout or a new password are not looked up: they stay
    valid until their fifteen minutes are over, see [token_lifetime].) *)
Theorem sign_out_is_final {A} w0 w (m : M A) which off x w1 :
  rtc step w0 w → Secure w0 → handler m → ends (db w) m which off → m w = (Ok x, w1) →
  (∀ k t plain w2, rows (refresh_tokens (db w1)) !! k = Some t → which t →
     tok_TokenHash t = session_Hash plain → rtc step w1 w2 → refused plain w2) ∧
  (∀ u, off u → disabled (db w1) u ∧ ∀ tok request p w2 w3, disabled (db w2) u →
     AdminAuth tok request w2 = (Ok p, w3) → pl_UserID p ≠ u).
Proof.
  intros Hs HS Hh Hm Hr. apply steps_secure in Hs as [HSw _]; [|done]. split.
  - intros k t plain w2 Ht Hw Hhash Hs2.
    pose proof (ends_ended _ _ _ _ _ _ Hm HSw Hr _ _ Ht Hw) as Hrv.
    destruct (handler_secured _ Hh _ _ _ Hr HSw) as [HS1 _].
    apply steps_secure in Hs2 as [HS2 Hl]; [|done].
    apply dead_refused; [apply HS2|]. eapply dead_later; [exact Hl|]. by exists k, t.
  - intros u Hoff. split; [by eapply ends_disables|]. intros tok request p w2 w3 Hd.
    by apply (disabled_refused _ _ _ _ _ _ _ Hd).
Qed.

(** ** Replay *)

(** The token of the row [c] and everything issued after it in its session. *)
Definition session_of (c t : RefreshTokenRow) : Prop :=
  tok_UserID t = tok_UserID c ∧ tok_SessionID t = tok_SessionID c.

Lemma lockToken_ok h k c w : faults w = [] → Ledger (db w) →
  rows (refresh_tokens (db w)) !! k = Some c → tok_TokenHash c = h →
  lockTokenByHash h w = (Ok (Some c), w).
Proof.
  intros Hf HL Hc Hh. unfold lockTokenByHash, get. rewrite wrapped_query_ok by done.
  match goal with |- context [head ?l] => destruct (head l) as [x|] eqn:Hx end.
  - apply head_select in Hx as [Hx Hp]. apply bool_decide_eq_true in Hp.
    assert (row_id x = k) as Hk by (eapply (led_tokens _ HL); [done..|congruence]).
    rewrite Hk in Hx. congruence.
  - apply (head_select_None _ _ Hx) in Hc. by rewrite bool_decide_true in Hc.
Qed.

Lemma revokeSession_ok u s t w : faults w = [] → Ledger (db w) →
  ∃ w', revokeSession u s t w = (Ok tt, w') ∧ faults w' = [].
Proof.
  intros Hf HL. unfold revokeSession.
  destruct (update_runs refresh_tokens_t (λ _ k, session_tokens u s k && unrevoked k)
    (token_revoke t) w Hf) as (n & w' & Hr & Hf' & _).
  { intros k1 k2 r1 r2 Hne Hr1 Hr2. apply bool_decide_eq_false. intros Heq. apply Hne.
    eapply (led_tokens _ HL); [done..|]. by repeat case_match. }
  exists w'. split; [|done]. erewrite goes_on; [done|]. by apply unhandled.
Qed.

Lemma Rotate_replay h next t k c w : faults w = [] → Ledger (db w) → len h = 32 →
  len (tok_TokenHash next) = 32 → t < tok_ExpiresAt next →
  rows (refresh_tokens (db w)) !! k = Some c → tok_TokenHash c = h →
  tok_RevokedAt c ≠ None → tok_ReplacedByID c ≠ None →
  ∃ w', Rotate h next t w = (Er ERefreshTokenReplay, w') ∧ faults w' = [].
Proof.
  intros Hf HL Hlen Hlen' Hexp Hc Hh Hrv Hrp. unfold Rotate. rewrite Hlen, Hlen'.
  assert (t <? tok_ExpiresAt next = true) as -> by (by apply Z.ltb_lt). simpl.
  destruct (revokeSession_ok (tok_UserID c) (tok_SessionID c) t w Hf HL) as (w' & Hr & Hf').
  exists w'. split; [|done]. unfold mbind at 1, M_bind. simpl.
  unfold mbind at 1, M_bind. simpl.
  rewrite (goes_on _ _ _ _ _ (lockToken_ok _ _ _ _ Hf HL Hc Hh)). apply stops. unfold checkRotation.
  unfold unrevoked. rewrite bool_decide_false by done. simpl.
  rewrite bool_decide_false by done. unfold mbind at 1, M_bind. simpl.
  unfold mbind at 1, M_bind. simpl. by rewrite (goes_on _ _ _ _ _ Hr).
Qed.

Lemma RevokeSession_ok h t k c w : faults w = [] → Ledger (db w) → len h = 32 →
  rows (refresh_tokens (db w)) !! k = Some c → tok_TokenHash c = h →
  ∃ w', TX (RevokeSessionByTokenHash h t) w = (Ok tt, w') ∧ ended (session_of c) (db w').
Proof.
  intros Hf HL Hlen Hc Hh.
  destruct (revokeSession_ok (tok_UserID c) (tok_SessionID c) t w Hf HL) as (w' & Hr & Hf').
  exists w'. split; [|by eapply run_revokeSession]. apply TX_commits; [done| |done].
  unfold RevokeSessionByTokenHash. rewrite Hlen. simpl.
  by rewrite (goes_on _ _ _ _ _ (lockToken_ok _ _ _ _ Hf HL Hc Hh)).
Qed.

(** C24: presenting a used refresh token again ends the whole session.  When no
    statement fails and the random source delivers, a second use of a consumed
    token is answered by a failed authentication that clears the cookie, and
    from then on every token of its session, the one the first use produced
    included, is refused for ever. *)
Theorem replay_ends_session w0 w plain k c :
  rtc step w0 w → Secure w0 →
  (∀ s, len (sha256 s) = 32) → 0 < refreshTTL auth_logic →
  faults w = [] → len (entropy w (drawn w)) = tokenLength →
  rows (refresh_tokens (db w)) !! k = Some c → tok_TokenHash c = session_Hash plain →
  tok_RevokedAt c ≠ None → tok_ReplacedByID c ≠ None →
  ∃ w', Refresh auth_logic plain w = (Ok (true, Er EAuthFailed), w') ∧
  ∀ i t other w2, rows (refresh_tokens (db w)) !! i = Some t → session_of c t →
    tok_TokenHash t = session_Hash other → rtc step w' w2 → refused other w2.
Proof.
  intros Hs HS Hsha Httl Hf Hrand Hc Hh Hrv Hrp. apply steps_secure in Hs as [HSw _]; [|done].
  assert (∃ w', Refresh auth_logic plain w = (Ok (true, Er EAuthFailed), w') ∧
    ended (session_of c) (db w')) as (w' & Hr & He).
  - pose proof (sec_ledger _ HSw) as HL. unfold Refresh.
    set (wa := with_ticks (S (ticks w)) w). set (wb := with_drawn (S (drawn wa)) wa).
    rewrite (goes_on now _ w _ wa eq_refl).
    assert (session_Generate wa = (Ok (b64_encode (entropy w (drawn w)),
      session_Hash (b64_encode (entropy w (drawn w)))), wb)) as Hgen.
    { unfold session_Generate, random_bytes. unfold handle, mbind, M_bind. simpl.
      by rewrite Hrand. }
    erewrite goes_on; [|by apply attempted, unhandled]. cbn beta iota.
    set (next := {| tok_meta := _ |}). set (t := clock w (ticks w)) in *.
    destruct (Rotate_replay (session_Hash plain) next t k c wb) as (wc & Hrot & Hfc);
      [done|done|apply Hsha|apply Hsha|simpl; lia|done..|].
    destruct (RevokeSession_ok (session_Hash plain) t k c (with_db (db wb) wc))
      as (wd & Hrev & He); [done|done|apply Hsha|done..|].
    exists wd. split; [|done]. erewrite goes_on; [|apply attempted].
    2:{ unfold rotateRefresh. erewrite goes_on; [|apply attempted, (TX_fails (Rotate (session_Hash plain) next t) wb _ _ Hf Hrot)].
        cbn beta iota. change (is_Replay ERefreshTokenReplay) with true. cbn beta iota.
        erewrite goes_on; [|apply attempted; exact Hrev]. reflexivity. }
    reflexivity.
  - exists w'. split; [done|]. intros i t other w2 Ht Hst Hot Hs2.
    destruct (secured_Refresh auth_logic _ _ _ _ Hr HSw) as [HS1 Hl1].
    apply steps_secure in Hs2 as [HS2 Hl2]; [|done].
    destruct (lat_tokens _ _ Hl1 _ _ Ht) as (t1 & Ht1 & [Hh1 Hu1 Hs1 _ _]).
    apply dead_refused; [apply HS2|]. eapply dead_later; [exact Hl2|].
    exists i, t1. split_and!; [done|congruence|]. apply (He _ _ Ht1).
    destruct Hst. split; congruence.
Qed.
End session.

(** ** A signed-in account *)

Section sample.
Import Sample SampleWorld.

Definition token_row : RefreshTokenRow :=
  {| tok_meta := record 1; tok_UserID := 7; tok_SessionID := fit 32 "session";
     tok_TokenHash := session_Hash "bearer"; tok_ExpiresAt := refreshTokenTTL;
     tok_LastUsedAt := None; tok_RevokedAt := None; tok_ReplacedByID := None |}.
Definition signed_in : World :=
  {| db := put_table refresh_tokens_t ({[1 := token_row]} : gmap Z RefreshTokenRow) database;
     cache := Memory.newMemory : cstate; faults := []; clock := λ n, Z.of_nat n + 100; ticks := 0;
     entropy := λ n, match n with 1%nat => "id" | _ => fit 32 "new token" end; drawn := 0 |}.

Lemma signed_in_secure : Secure signed_in.
Proof.
  destruct sample_secure as [[? ? ? ?] ? ? ?]. split; [split|..]; try assumption.
  intros k1 k2 t1 t2. change (rows (refresh_tokens (db signed_in))) with ({[1 := token_row]} : gmap Z RefreshTokenRow).
  by intros [<- _]%lookup_singleton_Some [<- _]%lookup_singleton_Some _.
Qed.

Definition exchanged := Refresh auth_logic "bearer" signed_in.
Definition exchanged_again := Refresh auth_logic "bearer" exchanged.2.

Lemma refresh_single_use_witness :
  (∃ x, exchanged.1 = Ok (false, Ok x)) ∧ refused "bearer" exchanged_again.2.
Proof.
  assert (match exchanged.1 with Ok (false, Ok _) => True | _ => False end) as Hok
    by (vm_compute; exact I).
  unfold exchanged_again. destruct exchanged as [r w1] eqn:Hr. simpl in *.
  destruct r as [[[] [x|e]]|e]; try contradiction. split; [by exists x|].
  destruct (refresh_single_use signed_in signed_in "bearer" false x w1
    (Refresh auth_logic "bearer" w1).2 (rtc_refl _ _) signed_in_secure Hr) as [H _]; [|exact H].
  apply rtc_once. eapply step_handler. 2: apply surjective_pairing. constructor.
Defined.

(** Ann logs out; the administrator of the sample has disabled nobody. *)
Definition signed_out : World := (Logout "bearer" signed_in).2.

Lemma sign_out_is_final_witness : refused "bearer" signed_out.
Proof.
  assert (match (Logout "bearer" signed_in).1 with Ok _ => True | _ => False end) as Hok
    by (vm_compute; exact I).
  unfold signed_out. destruct (Logout "bearer" signed_in) as [r w1] eqn:Hr. simpl in *.
  destruct r as [[]|e]; [|contradiction].
  assert (∃ t, rows (refresh_tokens (db w1)) !! 1 = Some t ∧ tok_UserID t = 7 ∧
    tok_SessionID t = fit 32 "session" ∧ tok_TokenHash t = session_Hash "bearer")
    as (t & Ht & Hu & Hsn & Hh).
  { assert (db w1 = db (Logout "bearer" signed_in).2) as -> by (by rewrite Hr).
    eexists. split; [vm_compute; reflexivity|]. split_and!; vm_compute; reflexivity. }
  assert (ends (db signed_in) (Logout "bearer")
    (λ t, tok_UserID t = tok_UserID token_row ∧ tok_SessionID t = tok_SessionID token_row) (λ _, False)) as He
    by (apply (ends_logout _ "bearer" 1 token_row); vm_compute; reflexivity).
  eapply (proj1 (sign_out_is_final signed_in signed_in (Logout "bearer") _ _ tt w1
    (rtc_refl _ _) signed_in_secure ltac:(constructor) He Hr) 1 t "bearer").
  - exact Ht.
  - split; [exact Hu|exact Hsn].
  - exact Hh.
  - reflexivity.
Defined.
(** Whoever copied the bearer text of ann uses it after her. *)
Lemma replay_ends_session_witness : ∃ w',
  Refresh auth_logic "bearer" exchanged.2 = (Ok (true, Er EAuthFailed), w') ∧
  refused (b64_encode (fit 32 "new token")) w'.
Proof.
  destruct (replay_ends_session signed_in exchanged.2 "bearer" 1
    (token_consume 2 100 token_row)) as (w' & Hr & Hall).
  - apply rtc_once. eapply step_handler. 2: apply surjective_pairing. constructor.
  - exact signed_in_secure.
  - intros s. apply fit_length.
  - reflexivity.
  - vm_compute. reflexivity.
  - vm_compute. reflexivity.
  - vm_compute. reflexivity.
  - reflexivity.
  - discriminate.
  - discriminate.
  - exists w'. split; [exact Hr|].
    destruct (rows (refresh_tokens (db exchanged.2)) !! 2) as [t|] eqn:Ht.
    2:{ exfalso. vm_compute in Ht. discriminate Ht. }
    apply (Hall 2 t _ w' Ht); [..|reflexivity]; vm_compute in Ht; injection Ht as <-;
      [split|]; vm_compute; reflexivity.
Defined.
End sample.

(** ** Base64 with the standard alphabet *)

Definition std_digit (c : ascii) : bool :=
  digit (url_char c) && negb (bool_decide (c = "-"%char)) && negb (bool_decide (c = "_"%char)).

Lemma std_char_digit c : digit c = true → std_digit (std_char c) = true ∧ url_char (std_char c) = c.
Proof. destruct c as [[] [] [] [] [] [] [] []]; vm_compute; by split. Qed.

Lemma std_encode_digits s : forall_bytes std_digit (std_encode s) = true.
Proof.
  unfold std_encode. pose proof (b64_encode_digits s) as Hs. revert Hs.
  generalize (b64_encode s). intros t. induction t as [|c t IH]; simpl; [done|].
  intros [Hc Ht]%andb_true_iff. by rewrite (proj1 (std_char_digit c Hc)), IH.
Qed.

Lemma std_roundtrip s : std_decode (std_encode s) = Some s.
Proof.
  unfold std_decode. pose proof (std_encode_digits s) as Hs.
  rewrite (count_none "-" std_digit), (count_none "_" std_digit) by done. simpl.
  assert (map_bytes url_char (std_encode s) = b64_encode s) as ->; [|apply b64_roundtrip].
  unfold std_encode. pose proof (b64_encode_digits s) as Hd. revert Hd.
  generalize (b64_encode s). clear. intros t. induction t as [|c t IH]; simpl; [done|].
  intros [Hc Ht]%andb_true_iff. by rewrite (proj2 (std_char_digit c Hc)), IH.
Qed.

Lemma b64_encode_len s : len (b64_encode s) = encoded_len (len s).
Proof.
  unfold encoded_len, len. induction s as [|a|a b|a b c s IH] using blocks_ind; [done..|].
  cbn [b64_encode String.length]. rewrite !Nat2Z.inj_succ, IH. clear IH.
  set (n := Z.of_nat _). replace (Z.succ (Z.succ (Z.succ n))) with (n + 1 * 3) by lia.
  rewrite Z.div_add, Z.mod_add by lia. lia.
Qed.
Lemma map_bytes_len f s : len (map_bytes f s) = len s.
Proof. unfold len. induction s as [|c s IH]; simpl; [done|]. lia. Qed.
Lemma encoded_len_mono a b : 0 ≤ a ≤ b → encoded_len a ≤ encoded_len b.
Proof. unfold encoded_len. intros Hab. pose proof (Z.div_mod a 3). pose proof (Z.div_mod b 3).
  pose proof (Z.mod_pos_bound a 3). pose proof (Z.mod_pos_bound b 3).
  pose proof (Z.div_le_mono a b 3). 
  assert (∀ x, 0 ≤ x < 3 → (x * 8 + 5) / 6 = if x =? 0 then 0 else x + 1) as Hx.
  { intros x Hx. destruct (decide (x = 0)) as [->|]; [done|]. destruct (decide (x = 1)) as [->|]; [done|].
    by assert (x = 2) as -> by lia. }
  rewrite !Hx by lia. destruct (Z.eqb_spec (a mod 3) 0), (Z.eqb_spec (b mod 3) 0); lia.
Qed.

Lemma decodePart_encode s : 0 < len s ≤ maxDecodedPart → decodePart (std_encode s) = Ok s.
Proof.
  intros Hs. unfold decodePart. rewrite std_roundtrip.
  assert (len (std_encode s) = encoded_len (len s)) as Hl
    by (unfold std_encode; by rewrite map_bytes_len, b64_encode_len).
  pose proof (encoded_len_mono (len s) maxDecodedPart). rewrite bool_decide_false.
  - rewrite Hl. destruct (Z.ltb_spec (encoded_len maxDecodedPart) (encoded_len (len s))); [lia|].
    simpl. destruct (Z.eqb_spec (len s) 0); [lia|].
    by destruct (Z.ltb_spec maxDecodedPart (len s)); [lia|].
  - intros He. rewrite He in Hl. pose proof (encoded_len_mono 1 (len s)) as Hm.
    change (encoded_len 1) with 2 in Hm. change (len "") with 0 in Hl. lia.
Qed.

(** ** Numbers *)

Lemma format_nat z : 0 ≤ z → ∃ n : N, format_int z = pretty n ∧ z = Z.of_N n.
Proof.
  intros Hz. exists (Z.to_N z). split; [|lia]. unfold format_int, pretty, pretty_Z. by destruct z.
Qed.
Lemma pretty_digits (n : N) : digits (pretty n) = true.
Proof.
  pose proof (parse_uint_pretty n) as Hp. destruct (pretty n) as [|c s]; [done|].
  by apply parse_digits_digits in Hp.
Qed.
Lemma scan_uint_format bound z r : 0 ≤ z ≤ bound → closes r →
  scan_uint bound (format_int z +:+ r) = Some (z, r).
Proof.
  intros Hz Hr. destruct (format_nat z) as (n & -> & Hn); [lia|]. unfold scan_uint.
  rewrite take_digits_closes; [|apply pretty_digits|done]. rewrite parse_uint_pretty. cbn.
  rewrite <-Hn. by destruct (Z.leb_spec z bound); [|lia].
Qed.
Lemma format_dollar z : 0 ≤ z → count_byte "$" (format_int z) = 0.
Proof.
  intros Hz. destruct (format_nat z Hz) as (n & -> & _).
  apply (count_none _ is_digit); [apply pretty_digits|done].
Qed.

(** ** The text of a hash *)

Lemma scan_cost_text m t p : 0 ≤ m ≤ max_uint32 → 0 ≤ t ≤ max_uint32 → 0 ≤ p ≤ 255 →
  scan_cost (cost_text m t p) = Some (m, t, p).
Proof.
  intros Hm Ht Hp. unfold scan_cost, cost_text. rewrite cut_prefix_app. cbn [mbind option_bind].
  rewrite scan_uint_format; [|done|by left]. cbn [mbind option_bind].
  rewrite cut_prefix_app. cbn [mbind option_bind].
  rewrite scan_uint_format; [|done|by left]. cbn [mbind option_bind].
  rewrite cut_prefix_app. cbn [mbind option_bind].
  pose proof (scan_uint_format 255 p "" Hp I) as Hs. rewrite app_nil_s in Hs. by rewrite Hs.
Qed.

Lemma validParams p : validateParams p = Ok tt →
  8192 ≤ MemoryKiB p ≤ maxMemoryKiB ∧ 1 ≤ Iterations p ≤ maxIterations ∧
  1 ≤ Parallelism p ≤ maxParallelism ∧ 16 ≤ SaltLength p ≤ maxDecodedPart ∧
  16 ≤ KeyLength p ≤ maxDecodedPart.
Proof. unfold validateParams. intros Hv. inv_ok. bool_hyps. lia. Qed.

Lemma cost_dollar m t p : 0 ≤ m → 0 ≤ t → 0 ≤ p → count_byte "$" (cost_text m t p) = 0.
Proof.
  intros Hm Ht Hp. unfold cost_text. by rewrite !count_app, !format_dollar by done.
Qed.
Lemma std_dollar s : count_byte "$" (std_encode s) = 0.
Proof. apply (count_none _ std_digit); [apply std_encode_digits|done]. Qed.

Lemma split_hash m t p salt key : 0 ≤ m → 0 ≤ t → 0 ≤ p →
  split_on "$" ("$argon2id$v=" +:+ format_int argon2_Version +:+ "$" +:+ cost_text m t p
                +:+ "$" +:+ std_encode salt +:+ "$" +:+ std_encode key) =
  [""; "argon2id"; "v=" +:+ format_int argon2_Version; cost_text m t p; std_encode salt;
   std_encode key].
Proof.
  intros Hm Ht Hp. set (cost := cost_text m t p).
  match goal with |- split_on _ ?x = _ =>
    change x with ("" +:+ String "$" ("argon2id" +:+ String "$"
      (("v=" +:+ format_int argon2_Version) +:+ String "$" (cost +:+ String "$"
        (std_encode salt +:+ String "$" (std_encode key)))))) end.
  rewrite !split_on_app; try done; [|by apply std_dollar|by apply cost_dollar].
  rewrite split_on_last by apply std_dollar. done.
Qed.

Lemma parse_hash_text p salt key : validateParams p = Ok tt →
  len salt = SaltLength p → len key = KeyLength p →
  parse_hash (hash_text p salt key) = Ok (p, salt, key).
Proof.
  intros Hv Hs Hk. pose proof (validParams p Hv) as (Hm & Ht & Hp & Hsl & Hkl).
  unfold maxMemoryKiB, maxIterations, maxParallelism in *. unfold parse_hash, hash_text.
  rewrite split_hash by lia.
  rewrite scan_cost_text by (unfold max_uint32; lia). rewrite !decodePart_encode by lia.
  rewrite !bool_decide_true by done. cbn. rewrite Hs, Hk. destruct p. simpl in *. by rewrite Hv.
Qed.

(** ** Passwords *)

Section password.
Context {A2 : Argon2} {A2L : Argon2Laws A2} {E : Engine} `{Collation} {St : Store}.

(** The key a hasher derives. *)
Definition derived (h : Hasher) (salt plain : string) : string :=
  IDKey plain salt (Iterations (params h)) (MemoryKiB (params h)) (Parallelism (params h))
    (KeyLength (params h)).

Lemma Verify_hash h h' salt plain plain' : validateParams (params h) = Ok tt →
  len salt = SaltLength (params h) →
  password_Verify h' (hash_with h salt plain) plain' =
    Ok (bool_decide (derived h salt plain' = derived h salt plain),
        negb (bool_decide (params h = params h'))).
Proof.
  intros Hv Hs. pose proof (validParams _ Hv) as (_ & _ & _ & _ & Hk).
  unfold password_Verify, hash_with. fold (derived h salt plain).
  assert (len (derived h salt plain) = KeyLength (params h)) as Hl by (apply IDKey_length; lia).
  rewrite parse_hash_text by done. cbn. by rewrite Hl.
Qed.

(** A password verifies against its own hash.  Whatever [Hash] returns is a
    text that [Verify] reads back, under any policy: the answer is yes exactly
    when the presented password derives the same key, in particular for the
    password itself, and the flag for rehashing is raised exactly when the
    policy has changed. *)
Theorem password_roundtrip h h' plain plain' encoded w w' :
  newHasher (params h) = Ok h → password_Hash h plain w = (Ok encoded, w') →
  ∃ salt, password_Verify h' encoded plain' =
    Ok (bool_decide (derived h salt plain' = derived h salt plain),
        negb (bool_decide (params h = params h'))) ∧
  password_Verify h encoded plain = Ok (true, false).
Proof.
  intros Hn Hr. unfold newHasher in Hn. inv_ok. unfold password_Hash in Hr.
  apply run_bind in Hr as (salt & w1 & Hs & Hr). apply run_ret in Hr as [<- _].
  apply run_handle in Hs. unfold random_bytes in Hs. apply run_bind in Hs as (s & w2 & _ & Hs).
  destruct (Z.eqb_spec (len s) (SaltLength (params h))); [|by apply run_throw in Hs].
  apply run_ret in Hs as [-> _]. exists salt. rewrite !Verify_hash by done.
  split; [done|]. by rewrite !bool_decide_true.
Qed.
End password.

(** ** Access tokens *)

Section token.
Context {J : JWTLib} {JL : JWTLaws J} {E : Engine} `{Collation} {St : Store}.

Lemma blank_not_empty s : blank s = false → s ≠ "".
Proof. by intros Hb ->. Qed.

Lemma manager_facts cfg m : jwt_New cfg = Ok m →
  ∃ key, signing_keys m !! activeKID m = Some key ∧ blank (activeKID m) = false ∧
  accessTTL m = AccessTTL.
Proof.
  intros Hn. unfold jwt_New, newManager in Hn. inv_ok. simpl. bool_hyps.
  destruct (jc_Keys cfg !! jc_ActiveKID cfg) as [key|] eqn:Hk; [|done].
  exists key. split_and!; done.
Qed.

Lemma numeric_date_le t : numeric_date t ≤ t.
Proof. unfold numeric_date. pose proof (Z.mul_div_le t (10 ^ 9)). lia. Qed.

Lemma run_Issue m u s x w w' : Issue m u s w = (Ok x, w') →
  0 < u ∧ blank s = false ∧
  SignedString (activeKID m) (default "" (signing_keys m !! activeKID m))
    (issue_claims m u s (clock w (ticks w)) (entropy w (drawn w))) = Ok x.1 ∧
  x.2 = clock w (ticks w) + accessTTL m.
Proof.
  intros Hr. unfold Issue in Hr. apply run_bind in Hr as (y & w1 & Hy & Hr).
  apply run_when_err in Hy as [Hy ->]. apply run_bind in Hr as (t & w2 & Ht & Hr).
  injection Ht as ??; subst. apply run_bind in Hr as (id & w3 & Hid & Hr). injection Hid as ??; subst.
  apply run_bind in Hr as (signed & w4 & Hs & Hr). apply run_lift in Hs as [Hs <-].
  apply run_ret in Hr as [<- _]. apply orb_false_iff in Hy as [Hu Hb]. apply Z.leb_gt in Hu.
  simpl in *. split_and!; [done|done| |done]. by destruct (SignedString _ _ _).
Qed.

(** C35: an access token is good from its issue until it expires, and for nothing
    else.  A token that a configured manager issued is accepted at every time
    from its issue to its whole-second expiry fifteen minutes later, and yields
    the user and the session it was issued for; at no other time is it
    accepted by a manager of the same issuer. *)
Theorem token_lifetime cfg m userID sessionID text expires w w' :
  jwt_New cfg = Ok m → userID ≤ max_int64 → entropy w (drawn w) ≠ "" →
  Issue m userID sessionID w = (Ok (text, expires), w') →
  expires = clock w (ticks w) + AccessTTL ∧
  (∀ t, clock w (ticks w) ≤ t < numeric_date expires → ∃ claims,
     jwt_Verify m t text = Ok claims ∧ claims_UserID claims = Ok userID ∧
     cl_SessionID claims = sessionID) ∧
  (∀ t, numeric_date expires ≤ t → jwt_Verify m t text = Er ErrInvalidToken).
Proof.
  intros Hn Hu Hid Hr. destruct (manager_facts _ _ Hn) as (key & Hk & Hkb & Httl).
  apply run_Issue in Hr as (Hpos & Hs & Hsign & Hexp). simpl in Hsign, Hexp. rewrite Hk in Hsign.
  simpl in Hsign. set (c := issue_claims _ _ _ _ _) in *. rewrite Httl in Hexp.
  assert (claims_UserID c = Ok userID) as Hc.
  { unfold claims_UserID, c. simpl. rewrite parse_int64_format.
    - by destruct (Z.leb_spec userID 0); [lia|].
    - unfold is_int64. rewrite in_range_spec. unfold min_int64. lia. }
  assert (∀ t, within_bounds m t c = true ↔ numeric_date (clock w (ticks w)) ≤ t < numeric_date expires)
    as Hwithin.
  { intros t. unfold within_bounds, c. simpl. rewrite !bool_decide_true by (done || by left).
    rewrite Httl, <-Hexp. simpl. rewrite !andb_true_iff, Z.ltb_lt, Z.leb_le. lia. }
  split; [done|]. split.
  - intros t Ht. exists c. split; [|done]. unfold jwt_Verify.
    rewrite (signed_visible _ _ _ _ Hsign), (parse_signed (activeKID m) key c text); [|done|..].
    + rewrite !bool_decide_false; try done; [by rewrite Hc|by apply blank_not_empty].
    + unfold keyfunc. by rewrite Hkb.
    + apply Hwithin. pose proof (numeric_date_le (clock w (ticks w))). lia.
  - intros t Ht. unfold jwt_Verify. rewrite (signed_visible _ _ _ _ Hsign).
    destruct (ParseWithClaims _ _ text) as [c'|] eqn:Hp; [exfalso|done].
    pose proof (signed_claims _ _ _ _ _ _ _ Hsign Hp) as ->.
    apply parse_accepts, Hwithin in Hp. lia.
Qed.
End token.

(** ** Witnesses *)

Section sample.
Import SampleWorld.

Definition issuing : World :=
  {| db := database; cache := Memory.newMemory : cstate; faults := [];
     clock := λ n, Z.of_nat n + 100; ticks := 0; entropy := λ _, "id"; drawn := 0 |}.
Definition salting : World :=
  {| db := database; cache := Memory.newMemory : cstate; faults := [];
     clock := λ n, Z.of_nat n + 100; ticks := 0; entropy := λ _, fit 16 "salt"; drawn := 0 |}.

Lemma password_roundtrip_witness : ∃ encoded,
  (password_Hash NewDefault "secret" salting).1 = Ok encoded ∧
  password_Verify NewDefault encoded "secret" = Ok (true, false).
Proof.
  assert (is_ok (password_Hash NewDefault "secret" salting).1 = true) as Hok
    by (vm_compute; reflexivity).
  destruct (password_Hash NewDefault "secret" salting) as [[encoded|e] w'] eqn:Hr;
    [|discriminate Hok].
  exists encoded. split; [reflexivity|].
  destruct (password_roundtrip NewDefault NewDefault "secret" "secret" encoded salting w'
    eq_refl Hr) as (salt & _ & H). exact H.
Defined.

Definition jwt_config : JwtConfig :=
  {| jc_Issuer := "kirby"; jc_ActiveKID := "k1"; jc_AccessTTL := AccessTTL;
     jc_Keys := {["k1" := signing_key]} |}.

Lemma token_lifetime_witness :
  (Issue manager 7 (fit 32 "session") issuing).1 = Ok ("token", 100 + AccessTTL) ∧
  (∃ claims, jwt_Verify manager 200 "token" = Ok claims ∧ claims_UserID claims = Ok 7) ∧
  jwt_Verify manager (2 * AccessTTL) "token" = Er ErrInvalidToken.
Proof.
  assert ((Issue manager 7 (fit 32 "session") issuing).1 = Ok ("token", 100 + AccessTTL)) as Hok
    by (vm_compute; reflexivity).
  split; [exact Hok|].
  destruct (Issue manager 7 (fit 32 "session") issuing) as [x w'] eqn:Hr. simpl in Hok. subst x.
  destruct (token_lifetime jwt_config manager 7 (fit 32 "session") "token" (100 + AccessTTL)
    issuing w') as (_ & Hin & Hout).
  - vm_compute. reflexivity.
  - vm_compute. discriminate.
  - vm_compute. discriminate.
  - exact Hr.
  - split.
    + destruct (Hin 200) as (claims & Hv & Hu & _); [vm_compute; split; [discriminate|reflexivity]|].
      exists claims. split; [exact Hv|exact Hu].
    + apply Hout. vm_compute. discriminate.
Defined.
End sample.
