(* ===== verification/ObjectKeySpec.v ===== *)
(** Asset names: what [ParseObjectKey] accepts is exactly what the scope it
    reports formats to, so a key belongs to one environment and project. *)

From S2P Require Import Prelude GoStd GoStrings Json CodecLaws Codec CodecSpec CredentialLaws SampleWorld Engine Model Cache World ObjectStore.
From Stdlib Require Import Ascii.

Local Open Scope Z_scope.

(** ** Extensions *)

Definition ext_char (c : ascii) : bool := extension_rune (byte c).

Lemma runes_ext s : forallb extension_rune (runes s) = forall_bytes ext_char s.
Proof. apply runes_ascii. unfold extension_rune, in_range. lia. Qed.

Lemma ext_char_lower c : ext_char c = true → lower_ascii c = true.
Proof. unfold ext_char, extension_rune, lower_ascii, ascii_byte, is_upper, in_range. lia. Qed.

(** ** Elements of a path *)

Lemma path_ext_app a t : count_byte "." t = 0 → count_byte "/" t = 0 →
  path_ext (a +:+ String "." t) = String "." t.
Proof.
  intros Hd Hs. assert (path_ext t = "") as Ht.
  { clear Hs. revert Hd. induction t as [|c t IH]; [done|]. simpl. pose proof (count_nonneg "." t).
    case_decide; [lia|]. intros. apply IH. lia. }
  induction a as [|c a IH]; simpl.
  - rewrite Ht, Hs. done.
  - rewrite IH. case_decide; [|done]. by rewrite bool_decide_false.
Qed.

Lemma path_ext_spec s : path_ext s = "" ∨ ∃ a t, s = a +:+ path_ext s ∧ path_ext s = String "." t ∧
  count_byte "." t = 0 ∧ count_byte "/" t = 0.
Proof.
  assert (∀ s, path_ext s = "" → count_byte "/" s = 0 → count_byte "." s = 0) as Hnone.
  { clear. induction s as [|c s IH]; [done|]. simpl. intros He Hs.
    pose proof (count_nonneg "/" s). assert (count_byte "/" s = 0) as Hs' by (case_decide; lia).
    destruct (decide (c = "."%char)); [|by rewrite IH].
    rewrite Hs' in He. case_bool_decide; simpl in He; congruence. }
  induction s as [|c s IH]; [by left|]. simpl.
  destruct IH as [He|(a & t & Hs & Ht & Hd & Hsl)].
  - rewrite He. case_decide as Hc; [|by left]. simpl.
    destruct (Z.eqb_spec (count_byte "/" s) 0); [|by left]. right.
    exists "", s. subst. split_and!; [done..|by apply Hnone|done].
  - right. exists (String c a), t. case_decide as Hc.
    + rewrite bool_decide_false by (rewrite Ht; done).
      split_and!; [|done..]. rewrite app_cons_s. f_equal. exact Hs.
    + split_and!; [|done..]. rewrite app_cons_s. f_equal. exact Hs.
Qed.

Lemma trim_suffix_app a b : trim_suffix (a +:+ b) b = a.
Proof.
  unfold trim_suffix. rewrite app_length_s.
  replace (String.length a + String.length b - String.length b)%nat with (String.length a) by lia.
  by rewrite substring_prefix, decide_True.
Qed.

(** ** Paths of plain elements *)

Definition plain_part (s : string) : Prop :=
  s ≠ "" ∧ s ≠ "." ∧ s ≠ ".." ∧ count_byte "/" s = 0.

Lemma clean_plain rooted l stack : Forall plain_part l →
  foldl (clean_step rooted) stack l = rev l ++ stack.
Proof.
  intros Hl. revert stack. induction Hl as [|x l (H1 & H2 & H3 & _) _ IH]; intros stack; [done|].
  simpl. rewrite IH. unfold clean_step. rewrite !bool_decide_false by done. simpl.
  by rewrite <-app_assoc.
Qed.

Lemma split_on_join d s : sep_concat (String d "") (split_on d s) = s.
Proof.
  induction s as [|c s IH]; [done|]. simpl. destruct (split_on_cons d s) as (x & l & Hs).
  rewrite Hs in *. case_decide as Hc; [subst c|].
  - change (String d (sep_concat (String d "") (x :: l)) = String d s). by rewrite IH.
  - simpl in IH |- *. destruct l; simpl in *; by rewrite <-IH.
Qed.

Lemma split_on_parts l : l ≠ [] → Forall plain_part l → split_on "/" (sep_concat "/" l) = l.
Proof.
  intros Hne Hl. induction Hl as [|x l (_ & _ & _ & Hx) Hl IH]; [done|]. destruct l as [|y l].
  - by apply split_on_last.
  - change (sep_concat "/" (x :: y :: l)) with (x +:+ String "/" (sep_concat "/" (y :: l))).
    rewrite split_on_app by done. by rewrite IH.
Qed.

Lemma prefix_slash c s : c ≠ "/"%char → String.prefix "/" (String c s) = false.
Proof. intros Hc. destruct c as [[] [] [] [] [] [] [] []]; done. Qed.
Lemma plain_unrooted l : l ≠ [] → Forall plain_part l → String.prefix "/" (sep_concat "/" l) = false.
Proof.
  intros Hne Hl. destruct Hl as [|x l (H1 & _ & _ & Hx) _]; [done|].
  destruct x as [|c x]; [done|]. simpl in Hx. pose proof (count_nonneg "/" x).
  assert (c ≠ "/"%char) as Hc by (intros ->; rewrite decide_True in Hx by done; lia).
  destruct l as [|y l]; [by apply prefix_slash|].
  change (sep_concat "/" _) with (String c (x +:+ String "/" (sep_concat "/" (y :: l)))).
  by apply prefix_slash.
Qed.
Lemma path_clean_plain l : l ≠ [] → Forall plain_part l → path_clean (sep_concat "/" l) = sep_concat "/" l.
Proof.
  intros Hne Hl. unfold path_clean.
  rewrite split_on_parts, clean_plain, app_nil_r, rev_involutive, plain_unrooted by done.
  rewrite bool_decide_false; [done|].
  destruct Hl as [|x l (H1 & _) _]; [done|]. destruct x; [done|]. by destruct l.
Qed.

(** ** Keys *)

(** The elements of a key. *)
Definition key_parts (o : ObjectScope) : list string :=
  (if os_Temporary o then ["uploads"] else []) ++
  ["environments"; format_int (os_EnvironmentID o); "projects"; format_int (os_ProjectID o);
   "assets"; os_ObjectID o +:+ os_Extension o].
Definition key_of (o : ObjectScope) : string :=
  object_key (os_EnvironmentID o) (os_ProjectID o) (os_ObjectID o) (os_Extension o) (os_Temporary o).

Lemma key_of_parts o : key_of o = sep_concat "/" (key_parts o).
Proof.
  unfold key_of, object_key, key_parts. by destruct (os_Temporary o).
Qed.

Definition good_extension (x : string) : Prop :=
  ∃ t, x = String "." t ∧ forall_bytes ext_char t = true.

Definition good_dot (x : string) : Prop := ∃ t, x = String "." t.
Definition key_byte (c : ascii) : bool := ext_char c || in_range 45 47 (byte c).

Section keys.
Context `{U : UUIDLib} {UL : UUIDLaws U} `{UnicodeLower}.

(** What both directions ask of the parts of a key. *)
Definition well_scoped (o : ObjectScope) : Prop :=
  0 < os_EnvironmentID o ∧ 0 < os_ProjectID o ∧ canonical_uuid (os_ObjectID o) = true ∧
  good_extension (os_Extension o).

Lemma good_lower x : good_extension x → to_lower x = x.
Proof.
  intros (t & -> & Ht). apply to_lower_ascii. simpl. clear - Ht.
  induction t as [|c t IH]; simpl in *; [done|]. apply andb_true_iff in Ht as [Hc Ht].
  by rewrite (ext_char_lower _ Hc), IH.
Qed.

Lemma uuid_bytes s : canonical_uuid s = true → len s = 36 ∧ forall_bytes uuid_char s = true.
Proof. intros Hs%bool_decide_eq_true. by apply UL in Hs. Qed.

Lemma buildObjectKey_spec o key :
  buildObjectKey (os_EnvironmentID o) (os_ProjectID o) (os_ObjectID o) (os_Extension o)
    (os_Temporary o) = Ok key ↔
  well_scoped o ∧ os_Extension o ≠ "." ∧ key = key_of o.
Proof.
  unfold buildObjectKey, well_scoped. split.
  - intros Hb. inv_ok. bool_hyps. rewrite runes_ext in *.
    destruct (os_Extension o) as [|c x] eqn:Hx; [done|].
    assert (c = "."%char) as ->.
    { destruct (decide (c = "."%char)) as [->|Hc]; [done|].
      destruct c as [[] [] [] [] [] [] [] []]; done. }
    split_and!; try done; [by exists x|by intros [= ->]|]. unfold key_of. by rewrite Hx.
  - intros ((He & Hp & Ho & x & Hx & Ht) & Hne & ->). rewrite good_lower, Hx by (by exists x).
    rewrite !(proj2 (Z.leb_gt _ _)), Ho by done. simpl.
    assert ((len (String "." x) <? 2) = false) as ->.
    { destruct x; [by rewrite Hx in Hne|]. apply Z.ltb_ge. unfold len. simpl. lia. }
    rewrite bool_decide_true by done. simpl. rewrite runes_ext, Ht. unfold key_of. rewrite Hx. by destruct x.
Qed.

(** *** The bytes of a key *)

Lemma digits_key z : 0 < z → forall_bytes is_digit (format_int z) = true ∧ format_int z ≠ "".
Proof.
  intros Hz. destruct z as [|p|p]; try lia. change (format_int (Zpos p)) with (pretty (Npos p)).
  destruct (pretty_number (Npos p)) as [->|(c & t & -> & Hc & _ & Ht)]; [done|].
  simpl. rewrite Hc. by split.
Qed.

Lemma key_bytes o : well_scoped o → forall_bytes key_byte (key_of o) = true.
Proof.
  intros (He & Hp & [_ Ho]%uuid_bytes & t & Hx & Ht). unfold key_of, object_key. rewrite Hx.
  apply digits_key in He as [He _], Hp as [Hp _].
  apply (forall_bytes_impl _ key_byte) in He, Hp, Ho, Ht.
  - rewrite !forall_bytes_app. rewrite He, Hp, Ho. destruct (os_Temporary o); simpl; by rewrite Ht.
  - intros c Hc. unfold key_byte. by rewrite Hc.
  - intros c Hc. unfold key_byte, ext_char, extension_rune, uuid_char, is_digit, in_range in *.
    destruct (decide (c = "-"%char)) as [->|]; [done|]. rewrite bool_decide_false in Hc by done. lia.
  - intros c Hc. unfold key_byte, ext_char, extension_rune, is_digit, in_range in *. lia.
  - intros c Hc. unfold key_byte, ext_char, extension_rune, is_digit, in_range in *. lia.
Qed.

Lemma plain_digits z : 0 < z → plain_part (format_int z).
Proof.
  intros [Hd Hne]%digits_key. pose proof (count_none "/" _ _ Hd eq_refl).
  split_and!; [done|intros Heq; by rewrite Heq in Hd..|done].
Qed.

Lemma plain_parts o : well_scoped o → Forall plain_part (key_parts o).
Proof.
  intros (He & Hp & [Hl Ho]%uuid_bytes & t & Hx & Ht). unfold key_parts. apply Forall_app. split.
  { destruct (os_Temporary o); [|done]. by repeat constructor. }
  assert (plain_part (os_ObjectID o +:+ os_Extension o)) as Hlast.
  { unfold plain_part. rewrite count_app, Hx. unfold len in Hl.
    rewrite (count_none "/" _ _ Ho) by done. simpl. rewrite (count_none "/" _ _ Ht) by done.
    destruct (os_ObjectID o) as [|c1 [|c2 [|c3 s]]]; [done..|]. by split_and!. }
  repeat constructor; try done; try apply plain_digits; try done; apply Hlast.
Qed.

(** *** Parsing *)

Lemma parseCanonicalPositiveID_spec s n :
  parseCanonicalPositiveID s = Ok n ↔ 0 < n ∧ is_int64 n = true ∧ s = format_int n.
Proof.
  unfold parseCanonicalPositiveID. split.
  - destruct (parse_int64 s) as [m|] eqn:Hm; [|done]. apply parse_int64_range in Hm.
    destruct (_ || _) eqn:Hb; [done|]. intros [= ->]. bool_hyps. auto.
  - intros (Hn & Hi & ->). rewrite parse_int64_format by done.
    by rewrite bool_decide_true, (proj2 (Z.leb_gt _ _)).
Qed.

Lemma parts_canonical o : well_scoped o → len (key_of o) ≤ 512 → canonical_path (key_of o) = true.
Proof.
  intros Ho Hl. pose proof (key_bytes o Ho) as Hb. unfold canonical_path, contains_any. simpl.
  rewrite !(count_none _ _ _ Hb) by done. rewrite (proj2 (Z.ltb_ge _ _)) by done.
  rewrite key_of_parts, path_clean_plain, plain_unrooted by
    (done || (by apply plain_parts) || by (unfold key_parts; destruct (os_Temporary o))).
  rewrite bool_decide_false by (unfold key_parts; by destruct (os_Temporary o)).
  by rewrite bool_decide_true.
Qed.

Lemma split_name s : path_ext s ≠ "" → good_dot (path_ext s) ∧ s = trim_suffix s (path_ext s) +:+ path_ext s.
Proof.
  intros Hne. destruct (path_ext_spec s) as [He|(a & t & Hs & Ht & _)]; [done|]. split; [by exists t|].
  clear - Hs. revert Hs. generalize (path_ext s) as e. intros e ->. by rewrite trim_suffix_app.
Qed.

Lemma name_split o : well_scoped o → path_ext (os_ObjectID o +:+ os_Extension o) = os_Extension o.
Proof.
  intros (_ & _ & _ & t & -> & Ht). by apply path_ext_app; eapply count_none.
Qed.

(** What is done with the six elements behind a possible [uploads]. *)
Definition scope_of (temporary : bool) (parts : list string) : result ObjectScope :=
  match parts with
  | [p0; p1; p2; p3; p4; p5] =>
      guard_err (negb (bool_decide (p0 = "environments")) || negb (bool_decide (p2 = "projects"))
                 || negb (bool_decide (p4 = "assets")))
        (object_invalid "object key has an invalid scope");;
      environmentID ← parseCanonicalPositiveID p1;
      projectID ← parseCanonicalPositiveID p3;
      let extension := path_ext p5 in
      let objectID := trim_suffix p5 extension in
      guard_err (negb (canonical_uuid objectID) || bool_decide (extension = "")
                 || negb (bool_decide (extension = to_lower extension)))
        (object_invalid "object filename is invalid");;
      guard_err (negb (forallb extension_rune (runes (extension_tail extension))))
        (object_invalid "object extension is invalid");;
      Ok {| os_EnvironmentID := environmentID; os_ProjectID := projectID;
            os_ObjectID := objectID; os_Extension := extension; os_Temporary := temporary |}
  | _ => Er (object_invalid "object key has an invalid scope")
  end.

Definition int64_scope (o : ObjectScope) : Prop :=
  is_int64 (os_EnvironmentID o) = true ∧ is_int64 (os_ProjectID o) = true.
Definition name_of (o : ObjectScope) : string := os_ObjectID o +:+ os_Extension o.
Definition six_parts (o : ObjectScope) : list string :=
  ["environments"; format_int (os_EnvironmentID o); "projects"; format_int (os_ProjectID o);
   "assets"; name_of o].

Lemma scope_of_spec b parts o :
  scope_of b parts = Ok o ↔
  well_scoped o ∧ int64_scope o ∧ parts = six_parts o ∧ os_Temporary o = b.
Proof.
  split.
  - destruct parts as [|p0 [|p1 [|p2 [|p3 [|p4 [|p5 [|]]]]]]]; try done. unfold scope_of.
    intros Hs. inv_ok. bool_hyps. rewrite runes_ext in *. subst.
    repeat match goal with
      | Hi : parseCanonicalPositiveID _ = Ok _ |- _ => apply parseCanonicalPositiveID_spec in Hi as (? & ? & ->)
      end.
    destruct (split_name p5) as [[t Ht] Hp5]; [done|].
    unfold well_scoped, int64_scope, six_parts, name_of. simpl. split_and!; try done.
    + exists t. split; [done|]. by rewrite Ht in *.
    + by rewrite <-Hp5.
  - intros (Ho & [He Hp] & -> & Hb). pose proof (name_split o Ho) as Hn.
    pose proof (good_lower _ (proj2 (proj2 (proj2 Ho)))) as Hlo.
    destruct Ho as (He0 & Hp0 & Hu & x & Hx & Hs). unfold six_parts, scope_of, name_of. simpl.
    rewrite (proj2 (parseCanonicalPositiveID_spec (format_int (os_EnvironmentID o)) (os_EnvironmentID o))) by auto. simpl.
    rewrite (proj2 (parseCanonicalPositiveID_spec (format_int (os_ProjectID o)) (os_ProjectID o))) by auto. simpl.
    rewrite Hn, trim_suffix_app, Hu, Hlo. simpl. rewrite bool_decide_false by (by rewrite Hx).
    rewrite bool_decide_true by done. simpl. rewrite Hx, runes_ext. simpl. rewrite Hs. simpl.
    rewrite <-Hx, <-Hb. by destruct o.
Qed.

Lemma ParseObjectKey_spec key o :
  ParseObjectKey key = Ok o ↔
  well_scoped o ∧ int64_scope o ∧ len key ≤ 512 ∧ key = key_of o.
Proof.
  assert (ParseObjectKey key =
    (guard_err (negb (canonical_path key)) (object_invalid "object key is not canonical");;
    let parts := split_on "/" key in
    let b := (length parts =? 7)%nat && bool_decide (head parts = Some "uploads") in
    scope_of b (if b then tail parts else parts))) as -> by done.
  split.
  - intros Hp. inv_ok. bool_hyps. pose proof (split_on_join "/" key) as Hk.
    apply scope_of_spec in H1 as (Ho & Hi & Hs & Hb). split_and!; [done..| |].
    { unfold canonical_path in *. bool_hyps. lia. }
    rewrite key_of_parts, <-Hk. f_equal. unfold key_parts. rewrite Hb.
    destruct (_ && _) eqn:Ht; [|by rewrite Hs]. bool_hyps.
    destruct (split_on "/" key) as [|p l]; [done|]. simpl in *. by simplify_eq.
  - intros (Ho & Hi & Hl & ->). rewrite parts_canonical by done. simpl.
    assert (split_on "/" (key_of o) = key_parts o) as ->.
    { rewrite key_of_parts, split_on_parts; [done| |by apply plain_parts].
      unfold key_parts. by destruct (os_Temporary o). }
    apply scope_of_spec. split_and!; [done..| |]; unfold key_parts; by destruct (os_Temporary o).
Qed.

(** C39: an asset key determines its owner, both ways.  A key the server builds
    parses to the scope it was built for.  A key that parses is the one the
    server builds for the reported scope, except that an extension of a lone
    dot parses and is never built.  So no two scopes share a key. *)
Theorem object_key_roundtrip key o :
  (len key ≤ 512 ∧ int64_scope o ∧
   buildObjectKey (os_EnvironmentID o) (os_ProjectID o) (os_ObjectID o) (os_Extension o)
     (os_Temporary o) = Ok key) ↔
  (ParseObjectKey key = Ok o ∧ os_Extension o ≠ ".").
Proof. rewrite buildObjectKey_spec, ParseObjectKey_spec. naive_solver. Qed.
End keys.

Import SampleWorld.

Example object_key_roundtrip_witness :
  let key := "environments/1/projects/2/assets/9b2e7c1a-0d4f-4c55-8a11-2f6f1f0a77d3.png" in
  ∃ o, BuildObjectKey 1 2 (os_ObjectID o) (os_Extension o) = Ok key ∧ ParseObjectKey key = Ok o.
Proof.
  exists {| os_EnvironmentID := 1; os_ProjectID := 2; os_Extension := ".png"; os_Temporary := false;
            os_ObjectID := "9b2e7c1a-0d4f-4c55-8a11-2f6f1f0a77d3" |}.
  split; [by vm_compute|]. apply object_key_roundtrip.
  split_and!; [by vm_compute|done..|by vm_compute].
Defined.
