(* ===== verification/LocalSpec.v ===== *)
(** The object storage on one server: nothing that is stored is ever
    overwritten, a file appears under an asset key only by an upload with a
    valid ticket for it, tickets verify to what they were issued for, and a
    successful upload leaves the asset, which every read then finds. *)

From S2P Require Import Prelude GoStd GoStrings Netip Util Json Codec CodecLaws CodecSpec Credential CredentialLaws Engine Model Cache Convert World WorldLaws ObjectStore LocalStore ObjectKeySpec SampleWorld.
From Stdlib Require Import Ascii.

Local Open Scope Z_scope.

(** ** Runs that use the storage *)

Section runs.
Context `{Engine} `{Collation} {St : Store} {S : Type}.
Implicit Types (s : S) (w : World).

Lemma orun_bind {A B} (m : OM S A) (k : A → OM S B) s w b s' w' :
  (m ≫= k) s w = (Ok b, s', w') ↔
  ∃ a s1 w1, m s w = (Ok a, s1, w1) ∧ k a s1 w1 = (Ok b, s', w').
Proof. unfold mbind, OM_bind. destruct (m s w) as [[[a|e] s1] w1]; naive_solver. Qed.
Lemma orun_ret {A} (a b : A) s w s' w' :
  mret (M := OM S) a s w = (Ok b, s', w') ↔ a = b ∧ s = s' ∧ w = w'.
Proof. unfold mret, OM_ret. naive_solver. Qed.
Lemma orun_lift {A} (x : result A) a s w s' w' :
  o_lift x s w = (Ok a, s', w') ↔ x = Ok a ∧ s = s' ∧ w = w'.
Proof. unfold o_lift. naive_solver. Qed.
Lemma orun_throw {A} e (a : A) s w s' w' : o_throw e s w = (Ok a, s', w') ↔ False.
Proof. unfold o_throw. naive_solver. Qed.
Lemma orun_handle {A} h (m : OM S A) a s w s' w' :
  o_handle h m s w = (Ok a, s', w') ↔ m s w = (Ok a, s', w').
Proof. unfold o_handle. destruct (m s w) as [[[]]]; naive_solver. Qed.
Lemma orun_attempt {A} (m : OM S A) x s w s' w' :
  o_attempt m s w = (Ok x, s', w') → m s w = (x, s', w').
Proof. unfold o_attempt. destruct (m s w) as [[]]; naive_solver. Qed.
Lemma orun_world {A} (m : M A) a s w s' w' :
  on_world m s w = (Ok a, s', w') ↔ m w = (Ok a, w') ∧ s = s'.
Proof. unfold on_world. destruct (m w); naive_solver. Qed.
Lemma attempt_bind {A B} (m : OM S A) (k : result A → OM S B) s w :
  (o_attempt m ≫= k) s w = let '(x, s', w') := m s w in k x s' w'.
Proof. unfold mbind, OM_bind, o_attempt. by destruct (m s w) as [[]]. Qed.
End runs.

Ltac inv_orun :=
  repeat match goal with
  | H : (_ ≫= _) _ _ = (Ok _, _, _) |- _ => apply orun_bind in H; destruct H as (? & ? & ? & ? & H)
  | H : mret _ _ _ = (Ok _, _, _) |- _ => apply orun_ret in H; destruct H as (? & ? & ?); subst
  | H : o_lift _ _ _ = (Ok _, _, _) |- _ => apply orun_lift in H; destruct H as (? & ? & ?); subst
  | H : o_throw _ _ _ = (Ok _, _, _) |- _ => apply orun_throw in H; destruct H
  | H : o_handle _ _ _ _ = (Ok _, _, _) |- _ => apply orun_handle in H
  | H : o_attempt _ _ _ = (Ok _, _, _) |- _ => apply orun_attempt in H
  | H : on_world _ _ _ = (Ok _, _, _) |- _ => apply orun_world in H; destruct H as [? ?]; subst
  end.

(** ** How a call changes the files

    [evo K Q s s']: the nodes at the paths of [K] are kept, and every other
    node of [s'] satisfies [Q]. *)
Definition evo (K : string → Prop) (Q : string → Node → Prop) (s s' : LocalStorage) : Prop :=
  signingKey s' = signingKey s ∧
  (∀ p n, K p → ls_files s !! p = Some n → ls_files s' !! p = Some n) ∧
  (∀ p n, ls_files s' !! p = Some n → ls_files s !! p = Some n ∨ Q p n).

#[export] Instance evo_refl K Q : Reflexive (evo K Q).
Proof. intros s. split_and!; auto. Qed.
#[export] Instance evo_trans K Q : Transitive (evo K Q).
Proof.
  intros s1 s2 s3 (Hk1 & Ha1 & Hb1) (Hk2 & Ha2 & Hb2). split_and!; [congruence|auto|].
  intros p n Hp. apply Hb2 in Hp as [Hp|]; [|by right]. by apply Hb1.
Qed.
Lemma evo_weaken (K K' : string → Prop) (Q Q' : string → Node → Prop) s s' :
  (∀ p, K' p → K p) → (∀ p n, Q p n → Q' p n) → evo K Q s s' → evo K' Q' s s'.
Proof.
  intros HK HQ (Hk & Ha & Hb). split_and!; [done|auto|]. intros p n Hp. destruct (Hb _ _ Hp); auto.
Qed.
(** A path that was free loses nothing. *)
Lemma evo_free (K : string → Prop) Q p s s' : evo (λ q, K q ∧ q ≠ p) Q s s' →
  ls_files s !! p = None → evo K Q s s'.
Proof.
  intros (Hk & Ha & Hb) Hn. split_and!; [done| |done]. intros q n HK Hq.
  apply Ha; [|done]. split; [done|]. congruence.
Qed.

Definition always : string → Prop := λ _, True.

Section triples.
Context `{Engine} `{Collation} {St : Store} (K : string → Prop) (Q : string → Node → Prop).
Notation LM := (OM LocalStorage).

(** From a state with [P], a run changes the files by [K] and [Q], and a
    successful one ends with [R]. *)
Definition triple {A} (P : LocalStorage → Prop) (m : LM A) (R : A → LocalStorage → Prop) : Prop :=
  ∀ s w r s' w', P s → m s w = (r, s', w') → evo K Q s s' ∧ ∀ a, r = Ok a → R a s'.

(** Nothing is asked of the states. *)
Definition evolves {A} (m : LM A) : Prop := triple (λ _, True) m (λ _ _, True).

Lemma triple_bind {A B} P (m : LM A) R (k : A → LM B) R' :
  triple P m R → (∀ a, triple (R a) (k a) R') → triple P (m ≫= k) R'.
Proof.
  intros Hm Hk s w r s' w' HP. unfold mbind, OM_bind. destruct (m s w) as [[[a|e] s1] w1] eqn:Hr.
  - intros Hr2. apply Hm in Hr as [He HR]; [|done]. apply Hk in Hr2 as [He2 HR2]; [|by apply HR].
    split; [by etrans|done].
  - intros [= <- <- <-]. apply Hm in Hr as [He _]; [|done]. done.
Qed.
Lemma triple_ret {A} (a : A) P (R : A → LocalStorage → Prop) : (∀ s, P s → R a s) → triple P (mret a) R.
Proof. intros HR s w r s' w' HP [= <- <- <-]. split; [done|]. intros b [= <-]. auto. Qed.
Lemma triple_throw {A} e P R : triple (A := A) P (o_throw e) R.
Proof. intros s w r s' w' HP [= <- <- <-]. done. Qed.
Lemma triple_lift {A} (x : result A) P (R : A → LocalStorage → Prop) :
  (∀ a s, x = Ok a → P s → R a s) → triple P (o_lift x) R.
Proof. intros HR s w r s' w' HP [= <- <- <-]. split; [done|]. auto. Qed.
Lemma triple_world {A} (m : M A) (P : LocalStorage → Prop) : triple P (on_world m) (λ _, P).
Proof.
  intros s w r s' w' HP. unfold on_world. destruct (m w) as [x w1]. intros [= <- <- <-]. done.
Qed.
Lemma triple_attempt {A} (m : LM A) P R :
  triple P m R → triple P (o_attempt m) (λ x s, ∀ a, x = Ok a → R a s).
Proof.
  intros Hm s w r s' w' HP. unfold o_attempt. destruct (m s w) as [[x s1] w1] eqn:Hr.
  intros [= <- <- <-]. apply Hm in Hr as [He HR]; [|done]. split; [done|]. by intros a [= <-].
Qed.
Lemma triple_handle {A} h (m : LM A) P R : triple P m R → triple P (o_handle h m) R.
Proof.
  intros Hm s w r s' w' HP. unfold o_handle. destruct (m s w) as [[[a|e] s1] w1] eqn:Hr;
    intros [= <- <- <-]; apply Hm in Hr as [He HR]; done.
Qed.
Lemma triple_weaken {A} (m : LM A) (P P' : LocalStorage → Prop) (R R' : A → LocalStorage → Prop) :
  (∀ s, P' s → P s) → (∀ a s, R a s → R' a s) → triple P m R → triple P' m R'.
Proof.
  intros HP HR Hm s w r s' w' Hs Hr. apply Hm in Hr as [He Ha]; [|auto]. split; [done|]. auto.
Qed.
Lemma triple_pure {A} (φ : Prop) P (m : LM A) R : (φ → triple P m R) → triple (λ s, φ ∧ P s) m R.
Proof. intros Hm s w r s' w' [? ?]. by apply Hm. Qed.
Lemma triple_exists {A X} (P : X → LocalStorage → Prop) (m : LM A) R :
  (∀ x, triple (P x) m R) → triple (λ s, ∃ x, P x s) m R.
Proof. intros Hm s w r s' w' [x ?]. by apply (Hm x). Qed.
Lemma triple_any {A} (m : LM A) P : evolves m → triple P m (λ _ _, True).
Proof. intros Hm. eapply triple_weaken; [| |exact Hm]; done. Qed.

(** A call of the file system by what it does when it runs. *)
Lemma triple_call {A} (f : FileSystem → (FsErr + A) * FileSystem) (P : LocalStorage → Prop)
    (R : FsErr + A → LocalStorage → Prop) :
  (∀ s x fs, P s → f (ls_files s) = (x, fs) →
     evo K Q s (with_files fs s) ∧ R x (with_files fs s) ∧ R (inl ErrIO) s ∧
     R (inl ErrIO) (with_files fs s)) →
  triple P (fs_call f) R.
Proof.
  intros Hf s w r s' w' HP. unfold fs_call. destruct (next_fault w) as [fault w1].
  destruct (f (ls_files s)) as [x fs] eqn:Hx. destruct (Hf _ _ _ HP Hx) as (He & H1 & H2 & H3).
  destruct fault as [[e b]|]; [destruct b|]; intros [= <- <- <-]; (split; [done|]);
    by intros a [= <-].
Qed.
Lemma triple_read {A} (f : FileSystem → FsErr + A) (P : LocalStorage → Prop) :
  triple P (fs_read f) (λ x s, P s ∧ ∀ a, x = inr a → f (ls_files s) = inr a).
Proof.
  apply triple_call. intros [fs k] x fs' HP [= <- <-]. split_and!; try done.
Qed.
Lemma triple_nothing (P : LocalStorage → Prop) : triple P fs_nothing (λ _, P).
Proof. eapply triple_weaken; [| |apply triple_read]; [done|]. naive_solver. Qed.
Lemma triple_checked {A} e (m : LM (FsErr + A)) P (R : A → LocalStorage → Prop) :
  triple P m (λ x s, ∀ a, x = inr a → R a s) → triple P (checked_call e m) R.
Proof.
  intros Hm. eapply triple_bind; [exact Hm|]. intros [x|a]; [apply triple_throw|].
  apply triple_ret. naive_solver.
Qed.

Lemma evolves_bind {A B} (m : LM A) (k : A → LM B) :
  evolves m → (∀ a, evolves (k a)) → evolves (m ≫= k).
Proof. intros. by eapply triple_bind. Qed.
Lemma evolves_ret {A} (a : A) : evolves (mret a).
Proof. by apply triple_ret. Qed.
Lemma evolves_throw {A} e : evolves (A := A) (o_throw e).
Proof. apply triple_throw. Qed.
Lemma evolves_lift {A} (x : result A) : evolves (o_lift x).
Proof. by apply triple_lift. Qed.
Lemma evolves_world {A} (m : M A) : evolves (on_world m).
Proof. apply triple_world. Qed.
Lemma evolves_attempt {A} (m : LM A) : evolves m → evolves (o_attempt m).
Proof. intros Hm. eapply triple_weaken; [| |apply triple_attempt; exact Hm]; done. Qed.
Lemma evolves_handle {A} h (m : LM A) : evolves m → evolves (o_handle h m).
Proof. apply triple_handle. Qed.
Lemma evolves_read {A} (f : FileSystem → FsErr + A) : evolves (fs_read f).
Proof. eapply (triple_weaken _ (λ _, True)); [| |apply triple_read]; done. Qed.
Lemma evolves_nothing : evolves fs_nothing.
Proof. apply triple_nothing. Qed.
Lemma evolves_checked {A} e (m : LM (FsErr + A)) : evolves m → evolves (checked_call e m).
Proof. intros Hm. eapply triple_checked, triple_weaken; [| |exact Hm]; done. Qed.
(** Creating overwrites nothing. *)
Lemma evolves_create p n : Q p n → evolves (fs_call (os_create p n)).
Proof.
  intros HQ. apply triple_call. intros s x fs' _. unfold os_create.
  assert (with_files (ls_files s) s = s) as Hs by by destruct s.
  destruct (ls_files s !! p) eqn:Hp; [intros [= <- <-]; by rewrite Hs|].
  destruct (is_dir _ _); intros [= <- <-]; [|by rewrite Hs].
  split; [|done]. split_and!; [done|..]; intros q m; cbn [with_files ls_files].
  - intros _ Hq. rewrite lookup_insert_ne; [done|]. congruence.
  - rewrite lookup_insert_Some. naive_solver.
Qed.
Lemma evolves_remove p : ¬ K p → evolves (fs_call (os_Remove p)).
Proof.
  intros HK. apply triple_call. intros s x fs' _. unfold os_Remove.
  assert (with_files (ls_files s) s = s) as Hs by by destruct s.
  assert (evo K Q s (with_files (delete p (ls_files s)) s)) as Hd.
  { split_and!; [done|..]; intros q m; cbn [with_files ls_files].
    - intros ??. rewrite lookup_delete_ne; [done|]. congruence.
    - rewrite lookup_delete_Some. naive_solver. }
  destruct (ls_files s !! p) as [[]|]; [case_bool_decide|..]; intros [= <- <-]; by rewrite ?Hs.
Qed.
Lemma triple_taken p n n' : triple (λ s, ls_files s !! p = Some n') (fs_call (os_create p n))
  (λ x s, ∀ u, x = inr u → False).
Proof.
  apply triple_call. intros s x fs' Hp. unfold os_create. rewrite Hp. intros [= <- <-].
  assert (with_files (ls_files s) s = s) as -> by by destruct s. done.
Qed.
Lemma triple_absurd {A} (m : LM A) R : triple (λ _, False) m R.
Proof. by intros s w r s' w' ?. Qed.
(** Overwriting a file that need not be kept. *)
Lemma triple_write p content t P : ¬ K p → (∀ c, Q p (File c t)) →
  triple P (fs_call (os_write p content t))
    (λ x s, ∀ u, x = inr u → ls_files s !! p = Some (File content t)).
Proof.
  intros HK HQ. apply triple_call. intros s x fs' _. unfold os_write.
  assert (with_files (ls_files s) s = s) as Hs by by destruct s.
  destruct (ls_files s !! p) as [[]|]; intros [= <- <-]; rewrite ?Hs; try done.
  assert (evo K Q s (with_files (<[p := File content t]> (ls_files s)) s)) as He.
  { split_and!; [done|..]; intros q m; cbn [with_files ls_files].
    - intros ??. rewrite lookup_insert_ne; [done|]. congruence.
    - rewrite lookup_insert_Some. naive_solver. }
  split_and!; try done. intros u _. apply lookup_insert_eq.
Qed.
Lemma evolves_over_dirs step current parts :
  (∀ p, evolves (step p)) → evolves (over_dirs step current parts).
Proof.
  intros Hs. revert current. induction parts as [|x l IH]; intros current; simpl.
  - apply evolves_ret.
  - by apply evolves_bind.
Qed.
End triples.

Create HintDb evolves.
#[export] Hint Resolve evolves_create : evolves.

Ltac evolves :=
  repeat match goal with
  | |- evolves _ _ (_ ≫= _) => apply evolves_bind; [|intros ?]
  | |- evolves _ _ (mret _) => apply evolves_ret
  | |- evolves _ _ (o_throw _) => apply evolves_throw
  | |- evolves _ _ (o_lift _) => apply evolves_lift
  | |- evolves _ _ (on_world _) => apply evolves_world
  | |- evolves _ _ (fs_read _) => apply evolves_read
  | |- evolves _ _ fs_nothing => apply evolves_nothing
  | |- evolves _ _ (checked_call _ _) => apply evolves_checked
  | |- evolves _ _ (o_attempt _) => apply evolves_attempt
  | |- evolves _ _ (o_handle _ _) => apply evolves_handle
  | |- evolves _ _ (over_dirs _ _ _) => apply evolves_over_dirs; intros ?
  | |- evolves _ _ (if ?b then _ else _) => destruct b
  | |- evolves _ _ (match ?x with _ => _ end) => destruct x
  | |- evolves _ _ (let _ := _ in _) => cbv zeta
  end;
  auto with evolves.

(** ** The operations *)

(** A path that no key parses to. *)
Definition no_key `{UUIDLib} `{UnicodeLower} (p : string) : Prop := ∀ o, ParseObjectKey p ≠ Ok o.

Section storage.
Context `{Engine} `{Collation} {St : Store} `{HMAC} {U : UUIDLib} {UL : UUIDLaws U} `{UnicodeLower}.
Notation LM := (OM LocalStorage).

Lemma evolves_safePath_read K Q key : evolves K Q (safePath key false).
Proof. unfold safePath, rejectSymlinkPath, no_symlink. evolves. Qed.
Lemma evolves_safePath_write K (Q : string → Node → Prop) key :
  (∀ p, Q p Dir) → evolves K Q (safePath key true).
Proof.
  intros HQ. unfold safePath, createSafeDirectories, safe_directory, createLocalDirectory. evolves.
Qed.
Lemma evolves_ReadMetadata K Q key : evolves K Q (local_ReadMetadata key).
Proof.
  pose proof (evolves_safePath_read K Q). unfold local_ReadMetadata, not_canceled, regular. evolves.
Qed.
Lemma evolves_CompleteUpload K Q key : evolves K Q (local_CompleteUpload key).
Proof. pose proof (evolves_ReadMetadata K Q). unfold local_CompleteUpload. evolves. Qed.
Lemma evolves_PresignUpload K Q input : evolves K Q (local_PresignUpload input).
Proof. unfold local_PresignUpload, not_canceled. evolves. by intros s w r s' w' _ [= <- <- <-]. Qed.

Lemma evolves_exclusive K (Q : string → Node → Prop) path contents :
  (∀ content t, Q path (File content t)) → evolves K Q (writeExclusiveFile path contents).
Proof.
  intros HQ s w r s' w' _ Hr.
  assert (∃ K' : string → Prop, (∀ q, K' q ↔ K q ∧ q ≠ path)) as [K' HK]
    by by exists (λ q, K q ∧ q ≠ path).
  destruct (ls_files s !! path) as [n|] eqn:Hp.
  - (* nothing is created *)
    revert Hr. apply (triple_weaken K Q _ (λ s, ls_files s !! path = Some n)
      (λ s, ls_files s !! path = Some n) (λ _ _, True) (λ _ _, True)); try done.
    eapply triple_bind; [apply triple_world|]. intros t.
    eapply triple_bind; [eapply triple_checked, triple_taken|]. intros. apply triple_absurd.
  - split; [|done]. apply (evo_free K Q path); [|done].
    assert (¬ K' path) as HK' by naive_solver.
    assert (∀ t, evolves K' Q (fs_call (os_write path contents t))) as Hw.
    { intros t. eapply triple_weaken; [| |apply (triple_write K' Q path contents t (λ _, True))]; auto. }
    assert (evolves K' Q (fs_call (os_Remove path))) as Hrm by by apply evolves_remove.
    assert (evolves K' Q (writeExclusiveFile path contents)) as Hm by (unfold writeExclusiveFile; evolves).
    destruct (Hm _ _ _ _ _ I Hr) as [He _]. eapply evo_weaken; [| |exact He]; [|done]. naive_solver.
Qed.

(** *** Names beside the keys *)

Lemma key_ext key o : ParseObjectKey key = Ok o → path_ext key = os_Extension o.
Proof.
  intros (Hw & _ & _ & ->)%ParseObjectKey_spec. destruct Hw as (_ & _ & _ & t & Ht & Hb).
  unfold key_of, object_key. rewrite Ht, <-!app_assoc_s.
  rewrite path_ext_app; [done|..].
  - by apply (count_none _ ext_char).
  - by apply (count_none _ ext_char).
Qed.
Lemma no_key_ext p x : path_ext p = x → ¬ good_extension x → no_key p.
Proof.
  intros Hp Hx o Ho. pose proof (key_ext _ _ Ho) as He. apply ParseObjectKey_spec in Ho as ((_ & _ & _ & Hg) & _).
  apply Hx. by rewrite <-Hp, He.
Qed.
Lemma no_key_metadata p : no_key (p +:+ localMetadataSuffix).
Proof.
  eapply no_key_ext; [by apply (path_ext_app p "kirby-metadata")|].
  intros (t & [= <-] & Ht). by vm_compute in Ht.
Qed.
Definition temporary_name (directory : string) (n : Z) : string :=
  path_join directory (".kirby-upload-" +:+ format_int n).
Lemma no_key_temporary directory n : 0 ≤ n → no_key (temporary_name directory n).
Proof.
  intros Hn. apply format_digits in Hn.
  assert (∀ c, is_digit c = false → count_byte c (format_int n) = 0) as Hc
    by (intros; by apply (count_none _ is_digit)).
  assert (∃ a, temporary_name directory n = a +:+ String "." ("kirby-upload-" +:+ format_int n)) as [a ->].
  { unfold temporary_name, path_join. case_bool_decide; [by exists ""|].
    exists (directory +:+ "/"). by rewrite app_assoc_s. }
  eapply no_key_ext.
  - apply path_ext_app; rewrite count_app, Hc by done; done.
  - intros (t & [= <-] & Ht). by vm_compute in Ht.
Qed.

Lemma path_clean_key key o : ParseObjectKey key = Ok o → path_clean key = key.
Proof.
  intros (Hw & _ & Hl & ->)%ParseObjectKey_spec. pose proof (parts_canonical o Hw Hl) as Hc.
  unfold canonical_path in Hc. apply negb_true_iff in Hc. bool_hyps.
  repeat match goal with Hx : _ || _ = false |- _ => apply orb_false_iff in Hx as [? ?] end.
  bool_hyps. done.
Qed.

(** *** Writing *)

Lemma create_result p n s w x s1 w1 : fs_call (os_create p n) s w = (x, s1, w1) →
  (∀ u, x = Ok (inr u) → ls_files s !! p = None) ∧ (x = Ok (inl ErrExist) → s1 = s).
Proof.
  unfold fs_call, os_create. destruct (next_fault w) as [fault w2].
  assert (with_files (ls_files s) s = s) as Hs by by destruct s.
  destruct (ls_files s !! p) eqn:Hp; [|destruct (is_dir _ _)];
    (destruct fault as [[e []]|]; intros [= <- <- <-]; split; by intros; rewrite ?Hs).
Qed.

Lemma create_temp_free K (Q : string → Node → Prop) tries directory s w r s' w' :
  (∀ n t, 0 ≤ n → Q (temporary_name directory n) (File "" t)) →
  create_temp tries directory s w = (r, s', w') →
  evo K Q s s' ∧ ∀ name, r = Ok (inr name) → ls_files s !! name = None ∧
    ∃ n, 0 ≤ n ∧ name = temporary_name directory n.
Proof.
  intros HQ. revert s w. induction tries as [|tries IH]; intros s w; simpl; [by intros [= <- <- <-]|].
  unfold mbind at 1, OM_bind at 1, on_world at 1, random. intros Hr.
  unfold mbind at 1, OM_bind at 1, on_world at 1, now in Hr.
  unfold mbind at 1, OM_bind at 1 in Hr.
  set (n := text_number _) in Hr. assert (0 ≤ n) as Hn by (apply Z.mod_pos_bound; lia).
  match goal with H : context [fs_call (os_create ?p ?nd) ?st ?w0] |- _ =>
    change p with (temporary_name directory n) in H;
    destruct (fs_call (os_create (temporary_name directory n) nd) st w0) as [[x s1] w1] eqn:Hc end.
  destruct (evolves_create K Q _ _ (HQ _ _ Hn) _ _ _ _ _ I Hc) as [He _].
  apply create_result in Hc as [Hfree Hsame].
  destruct x as [[[]|y]|e].
  - injection Hr as <- <- <-. done.
  - rewrite (Hsame eq_refl) in Hr. by apply IH in Hr.
  - injection Hr as <- <- <-. done.
  - injection Hr as <- <- <-. split; [done|]. intros name [= <-]. split; [by apply (Hfree y)|by exists n].
  - injection Hr as <- <- <-. done.
Qed.

(** What an upload may leave: directories, files beside the keys, and the body
    under the key of its claims. *)
Definition uploaded (claims : localUploadClaims) (body : string) (p : string) (n : Node) : Prop :=
  n = Dir ∨ no_key p ∨
  p = lc_Key claims ∧ len body = lc_Size claims ∧ ∃ t, n = File body t.

Lemma limited_exact n body : 0 ≤ n → len (limited (n + 1) body) = n → limited (n + 1) body = body.
Proof.
  unfold limited. intros Hn. destruct (Z.leb_spec (len body) (n + 1)); [done|].
  unfold len in *. rewrite SampleWorld.substring_length by lia. lia.
Qed.

Lemma triple_link K (Q : string → Node → Prop) old new n P : Q new n →
  (∀ s, P s → ls_files s !! old = Some n) →
  triple K Q P (fs_call (os_Link old new)) (λ _ _, True).
Proof.
  intros HQ HP s w r s' w' Hs Hr. split; [|done].
  assert (fs_call (os_create new n) s w = (r, s', w')) as Hc.
  { revert Hr. unfold fs_call, os_Link. by rewrite (HP _ Hs). }
  by destruct (evolves_create K Q _ _ HQ _ _ _ _ _ I Hc) as [He _].
Qed.

Lemma receive_triple K claims body temporary : ¬ K temporary → 0 ≤ lc_Size claims → no_key temporary →
  triple K (uploaded claims body) (λ _, True) (receive_file claims body temporary)
    (λ received s, (len received = lc_Size claims → received = body) ∧
       ∃ t, ls_files s !! temporary = Some (File received t)).
Proof.
  intros HK Hsize Htemp.
  assert (∀ A e P R, triple K (uploaded claims body) P (fs_nothing;; o_throw (A := A) e) R) as Hfail.
  { intros. eapply triple_bind; [apply triple_nothing|]. intros. apply triple_throw. }
  unfold receive_file. eapply triple_bind; [apply triple_nothing|]. intros [e|u]; [apply Hfail|].
  destruct (Safeint.Int64FromUint64 (lc_Size claims)) as [limit|e] eqn:Hl; [|apply Hfail].
  destruct (limit =? max_int64); [apply Hfail|].
  assert (limit = lc_Size claims) as ->.
  { unfold Safeint.Int64FromUint64 in Hl. destruct (Z.ltb_spec max_int64 (lc_Size claims)); [done|].
    injection Hl as <-. apply wrap64_id, in_range_spec. unfold min_int64. lia. }
  eapply triple_bind; [apply triple_world|]. intros t. cbv zeta.
  eapply triple_bind; [apply triple_write; [done|]; intros c; by right; left|]. intros copied.
  eapply triple_bind; [apply triple_nothing|]. intros closed.
  destruct copied as [e|v]; [apply triple_throw|]. destruct closed; [apply triple_throw|].
  apply triple_ret. intros s Hs. split; [by apply limited_exact|]. exists t. by apply (Hs v).
Qed.

Lemma publish_triple K claims body received temporary : ¬ K (lc_Key claims) →
  triple K (uploaded claims body)
    (λ s, (len received = lc_Size claims → received = body) ∧
       ∃ t, ls_files s !! temporary = Some (File received t))
    (publish_object claims received (lc_Key claims) temporary) (λ _ _, True).
Proof.
  intros HK.
  assert (evolves K (uploaded claims body) (fs_call (os_Remove (lc_Key claims)))) as Hrm
    by by apply evolves_remove.
  assert (∀ k text, evolves K (uploaded claims body) (writeExclusiveFile (k +:+ localMetadataSuffix) text))
    as Hmeta.
  { intros k text. apply evolves_exclusive. intros ? ?. right; left. apply no_key_metadata. }
  unfold publish_object. eapply triple_bind.
  { apply (triple_lift _ _ _ _ (λ _ s, len received = lc_Size claims ∧ received = body ∧
      ∃ t, ls_files s !! temporary = Some (File received t))).
    intros u s Hg%guard_err_Ok [Hb Ht]. bool_hyps. split_and!; auto. }
  intros u. apply triple_pure. intros Hlen. apply triple_pure. intros ->. apply triple_exists. intros t.
  eapply triple_bind.
  { apply (triple_checked _ _ _ _ _ (λ _ _, True)). eapply (triple_weaken _ _ _ (λ s, ls_files s !! temporary = Some (File body t))
      _ (λ _ _, True)); [done|done|].
    apply (triple_link _ _ _ _ (File body t)); [|done]. right; right. split_and!; [done..|]. by eexists. }
  intros ?. apply triple_any. evolves.
Qed.

Lemma triple_absent K Q p (P : LocalStorage → Prop) :
  triple K Q P (fs_read (os_Lstat p)) (λ x s, x = inl ErrNotExist → ls_files s !! p = None).
Proof.
  apply triple_call. intros s x fs _ [= <- <-].
  assert (with_files (ls_files s) s = s) as -> by by destruct s. split_and!; try done.
  unfold os_Lstat. by destruct (_ !! _).
Qed.

Lemma safePath_key K (Q : string → Node → Prop) key : (∀ p, Q p Dir) →
  triple K Q (λ _, True) (safePath key true) (λ p _, p = key).
Proof.
  intros HQ s w r s' w' _ Hr. split; [by destruct (evolves_safePath_write K Q key HQ _ _ _ _ _ I Hr)|].
  intros p ->. unfold safePath in Hr. inv_orun.
  match goal with Hx : ParseObjectKey _ = Ok _ |- _ => by apply path_clean_key in Hx end.
Qed.

(** From the free object path on, two names may change, and both were free. *)
Lemma write_free claims body : 0 ≤ lc_Size claims →
  triple always (uploaded claims body) (λ s, ls_files s !! lc_Key claims = None)
    (created ← create_temp max_tries (parent (lc_Key claims));
     match created with
     | inl _ => o_throw (unavailable "create local upload")
     | inr temporary =>
         r ← o_attempt (received ← receive_file claims body temporary;
                        publish_object claims received (lc_Key claims) temporary);
         fs_call (os_Remove temporary);;
         o_lift r
     end) (λ _ _, True).
Proof.
  intros Hsize s w r s' w' Hnone Hr. split; [|done].
  unfold mbind at 1, OM_bind at 1 in Hr.
  destruct (create_temp max_tries _ s w) as [[x s1] w1] eqn:Hc.
  apply (create_temp_free always (uploaded claims body)) in Hc as [He1 Hfree].
  2:{ intros n t Hn. right; left. by apply no_key_temporary. }
  destruct x as [[e|temporary]|e]; try by injection Hr as _ <- _.
  destruct (Hfree temporary eq_refl) as (Ht & n & Hn & ->).
  set (temporary := temporary_name _ n) in *.
  set (K := λ p, (True ∧ p ≠ temporary) ∧ p ≠ lc_Key claims).
  assert (no_key temporary) as Hnt by by apply no_key_temporary.
  apply (evo_free always _ (lc_Key claims)); [|done]. apply (evo_free _ _ temporary); [|done].
  eapply (evo_weaken K _ (uploaded claims body)); [unfold K; naive_solver|done|].
  etrans; [eapply (evo_weaken always); [by intros|done|exact He1]|]. revert Hr.
  match goal with |- ?m s1 w1 = _ → _ => assert (evolves K (uploaded claims body) m) as Hm end.
  { apply evolves_bind.
    - apply evolves_attempt. eapply triple_bind.
      + apply receive_triple; [|done|done]. unfold K. naive_solver.
      + intros received. apply publish_triple. unfold K. naive_solver.
    - intros r1. apply evolves_bind; [|intros; apply evolves_lift]. apply evolves_remove. unfold K. naive_solver. }
  intros Hr. by destruct (Hm _ _ _ _ _ I Hr).
Qed.

Lemma writeUpload_evolves claims body : 0 ≤ lc_Size claims →
  evolves always (uploaded claims body) (writeUpload claims body).
Proof.
  intros Hsize. unfold writeUpload, not_canceled. apply evolves_bind; [evolves|]. intros _.
  eapply triple_bind; [apply safePath_key; by left|]. intros p. 
  intros s w r s' w' -> Hr. revert Hr.
  match goal with |- ?m s w = _ → _ =>
    assert (triple always (uploaded claims body) (λ _, True) m (λ _ _, True)) as Hm end.
  { eapply triple_bind; [apply triple_absent|]. intros [[]|n]; try apply triple_throw.
    eapply triple_weaken; [| |apply (write_free claims body Hsize)]; [naive_solver|done]. }
  by apply Hm.
Qed.

(** ** Tickets *)

Lemma parse_uint_nonneg s n : parse_uint s = Some n → 0 ≤ n.
Proof.
  assert (∀ s acc, 0 ≤ acc → parse_digits acc s = Some n → 0 ≤ n) as Hd.
  { clear. induction s as [|c s IH]; simpl; intros acc Hacc; [naive_solver|].
    destruct (is_digit c) eqn:Hc; [|done]. apply in_range_spec in Hc. apply IH. lia. }
  destruct s; [done|]. by apply Hd.
Qed.
Lemma set_claim_size c kv c' : set_claim c kv = Some c' → 0 ≤ lc_Size c → 0 ≤ lc_Size c'.
Proof.
  destruct kv as [k v]. unfold set_claim. intros Hs Hc.
  repeat match type of Hs with (if ?b then _ else _) = _ => destruct b end;
    try (apply bind_Some in Hs as (x & Hx & [= <-]); simpl; try done).
  - unfold set_number in Hx. case_decide; [by injection Hx as <-|]. unfold parse_uint64 in Hx.
    apply bind_Some in Hx as (n & Hn & Hx). case_match; [|done]. injection Hx as <-.
    by apply parse_uint_nonneg in Hn.
  - by injection Hs as <-.
Qed.
Lemma unmarshal_claims_size text c : unmarshal_claims text = Some c → 0 ≤ lc_Size c.
Proof.
  unfold unmarshal_claims, unmarshal_struct. destruct (unmarshal_raw text) as [[]|]; try done.
  - by intros [= <-].
  - match goal with |- context [fold_option _ _ ?c0] => assert (0 ≤ lc_Size c0) as Hc0 by done; revert Hc0;
      generalize c0 end.
    induction members as [|kv l IH]; intros c0 Hc0; simpl; [by intros [= <-]|].
    intros (c1 & Hc1 & Hr)%bind_Some. eapply IH; [|exact Hr]. by eapply set_claim_size.
Qed.

(** What the text of a valid ticket says. *)
Definition ticketed (key : string) (now : Z) (token : string) (claims : localUploadClaims) : Prop :=
  ∃ payload signature text,
    token = payload +:+ "." +:+ signature ∧
    b64_decode signature = Some (hmac_sha256 key payload) ∧
    b64_decode payload = Some text ∧ unmarshal_claims text = Some claims ∧
    now < unix_time (lc_ExpiresAt claims) ∧
    is_ok (ParseObjectKey (lc_Key claims)) = true ∧ 0 < lc_Size claims ≤ MaxUploadSize.

Lemma verifyToken_Ok key now token claims :
  verifyToken key now token = Ok claims → ticketed key now token claims.
Proof.
  unfold verifyToken. destruct (split_on "." token) as [|payload [|signature [|]]] eqn:Hs; try done.
  intros Hr. inv_ok. bool_hyps.
  repeat match goal with Hx : of_option _ ?x = Ok _ |- _ =>
    let He := fresh "He" in destruct x eqn:He; [injection Hx as ->|done] end.
  match goal with Hx : unmarshal_claims _ = Some ?c |- _ => pose proof (unmarshal_claims_size _ _ Hx) end.
  match goal with Hx : is_ok (validatePresignInput _) = true |- _ => unfold validatePresignInput in Hx;
    apply is_ok_Ok in Hx as [? ?]; inv_ok end. simpl in *. bool_hyps.
  exists payload, signature. eexists. split_and!; try done; [..|lia].
  - by rewrite <-(split_on_join "." token), Hs.
  - apply is_ok_Ok; eauto.
Qed.

(** ** What requests do to the files *)

(** A request that uploads the body for a ticket with these claims. *)
Definition uploads (key : string) (now : Z) (request : LocalRequest) (claims : localUploadClaims) : Prop :=
  lr_Method request = "PUT" ∧ lr_Path request = LocalUploadPath ∧
  lr_Header request "Authorization" = "" ∧ lr_Header request "X-Kirby-API-Key" = "" ∧
  lr_Header request "Cookie" = "" ∧
  ticketed key now (lr_Query request "token") claims ∧
  to_lower <$> ParseMediaType (lr_Header request "Content-Type") = Some (lc_ContentType claims) ∧
  (0 ≤ lr_ContentLength request → Safeint.uint64 (lr_ContentLength request) = lc_Size claims).

Lemma handleUpload_run request s w r s' w' :
  lr_Path request = LocalUploadPath → handleUpload request s w = (r, s', w') →
  (s' = s ∧ (∀ a, r = Ok a → rs_Status a ≠ 204)) ∨
  ∃ claims x w1, uploads (signingKey s) (clock w (ticks w)) request claims ∧
    verifyToken (signingKey s) (clock w (ticks w)) (lr_Query request "token") = Ok claims ∧
    w1 = with_ticks (Datatypes.S (ticks w)) w ∧
    writeUpload claims (lr_Body request) s w1 = (x, s', w') ∧
    (∀ a, r = Ok a → rs_Status a = 204 → x = Ok tt).
Proof.
  intros Hpath. unfold handleUpload.
  assert (∀ x, (mret x : OM LocalStorage Response) s w = (r, s', w') → rs_Status x ≠ 204 →
    s' = s ∧ (∀ a, r = Ok a → rs_Status a ≠ 204)) as Hret.
  { intros x [= <- <- <-] Hx. split; [done|]. by intros a [= <-]. }
  destruct (bool_decide (lr_Method request = "PUT")) eqn:Hm; simpl; [|intros Hr; left; by eapply Hret].
  destruct (negb _ || _) eqn:Hc; [intros Hr; left; by eapply Hret|].
  unfold mbind at 1, OM_bind at 1, the_key, mbind at 1, OM_bind at 1, on_world, now.
  destruct (verifyToken _ _ _) as [claims|e] eqn:Hv.
  2:{ intros [= <- <- <-]. left. split; [done|]. by intros a [= <-]. }
  destruct (negb (bool_decide (_ = Some (lc_ContentType claims)))) eqn:Ht.
  { intros [= <- <- <-]. left. split; [done|]. by intros a [= <-]. }
  destruct ((0 <=? lr_ContentLength request) && _) eqn:Hl.
  { intros [= <- <- <-]. left. split; [done|]. by intros a [= <-]. }
  unfold mbind at 1, OM_bind at 1, o_attempt.
  destruct (writeUpload claims (lr_Body request) s _) as [[x s1] w1] eqn:Hw.
  intros Hr. right. exists claims, x. eexists. 
  assert (s1 = s' ∧ w1 = w' ∧ (∀ a, r = Ok a → rs_Status a = 204 → x = Ok tt)) as (-> & -> & Hx).
  { destruct x as [[]|e]; [by injection Hr as <- <- <-|].
    destruct (_ || _) in Hr; injection Hr as <- <- <-; split_and!; try done; by intros a [= <-]. }
  split_and!; try done. bool_hyps.
  repeat match goal with Hy : _ || _ = false |- _ => apply orb_false_iff in Hy as [? ?] end. bool_hyps.
  split_and!; try done; [by apply verifyToken_Ok|]. intros Hlen.
  apply andb_false_iff in Hl as [Hl|Hl]; [lia|]. bool_hyps.
  unfold Safeint.Uint64FromInt64 in Hl. destruct (Z.ltb_spec (lr_ContentLength request) 0); [lia|].
  by bool_hyps.
Qed.

Lemma evolves_handleObject K Q request : evolves K Q (handleObject request).
Proof.
  pose proof (evolves_CompleteUpload K Q) as Hc. unfold handleObject, openLocalObject. evolves.
Qed.

(** What a request may leave that was not there. *)
Definition sent (key : string) (now : Z) (request : LocalRequest) (p : string) (n : Node) : Prop :=
  n = Dir ∨ no_key p ∨ ∃ claims t, uploads key now request claims ∧ p = lc_Key claims ∧
    len (lr_Body request) = lc_Size claims ∧ n = File (lr_Body request) t.

Lemma ServeHTTP_evo request s w r s' w' : ServeHTTP request s w = (r, s', w') →
  evo always (sent (signingKey s) (clock w (ticks w)) request) s s'.
Proof.
  unfold ServeHTTP. case_bool_decide as Hp.
  - intros Hr. destruct (handleUpload_run _ _ _ _ _ _ Hp Hr) as
      [[-> _]|(claims & x & w1 & Hup & _ & -> & Hw & _)]; [done|].
    assert (0 ≤ lc_Size claims) as Hsz.
    { destruct Hup as (_ & _ & _ & _ & _ & (? & ? & ? & Htk) & _). destruct_and! Htk. lia. }
    destruct (writeUpload_evolves claims (lr_Body request) Hsz _ _ _ _ _ I Hw) as [He _].
    eapply evo_weaken; [done| |exact He]. intros p n [?|[?|(-> & Hl & t & ->)]]; [by left|by right; left|].
    right; right. by exists claims, t.
  - match goal with |- ?m s w = _ → _ => assert (evolves always (λ _ _, False) m) as Hm end.
    { pose proof (evolves_handleObject always (λ _ _, False) request). evolves. }
    intros Hr. destruct (Hm _ _ _ _ _ I Hr) as [He _]. by eapply evo_weaken; [| |exact He].
Qed.

(** C9: only a ticket stores anything, and nothing is overwritten.  Whatever an
    HTTP request to the local object storage is, and whichever calls of the file
    system fail under it, every node that was there remains as it was; and a
    file that appears under an asset key was sent by that very request, a PUT
    without management credentials whose token is signed by the server's key,
    has not expired, and names this key, the media type of the request and the
    exact length of the body. *)
Theorem uploads_need_tickets request s w r s' w' :
  ServeHTTP request s w = (r, s', w') →
  signingKey s' = signingKey s ∧
  (∀ p n, ls_files s !! p = Some n → ls_files s' !! p = Some n) ∧
  (∀ p o c t, ParseObjectKey p = Ok o → ls_files s' !! p = Some (File c t) →
     ls_files s !! p = Some (File c t) ∨
     ∃ claims, uploads (signingKey s) (clock w (ticks w)) request claims ∧
       p = lc_Key claims ∧ c = lr_Body request ∧ len c = lc_Size claims).
Proof.
  intros (Hk & Ha & Hb)%ServeHTTP_evo. split_and!; [done|by intros; apply Ha|]. intros p o c t Ho Hf.
  destruct (Hb _ _ Hf) as [?|[?|[Hno|(claims & t' & ? & -> & ? & [= -> ->])]]];
    [by left|done|by eapply Hno in Ho|]. right. by exists claims.
Qed.

(** ** JSON of the claims and of the metadata *)

Lemma unmarshal_object {A} (zero : A) set l : Forall (raw_member 0) l →
  unmarshal_struct zero set (json_object l) = fold_option set l zero.
Proof.
  intros Hl. unfold unmarshal_struct. rewrite (unmarshal_text 1);
    [by rewrite (open_object 0)|by apply (object_raw 0)|done].
Qed.
Lemma raw_string k s : plain k → plain s → raw_member 0 (k, marshal_string s).
Proof. intros. split; [done|]. by apply string_raw. Qed.
Lemma raw_number k z : plain k → raw_member 0 (k, format_int z).
Proof. intros. split; [done|]. apply number_raw. Qed.

Lemma format_not_null z : format_int z ≠ "null".
Proof.
  intros Hz. destruct z as [|p|p]; [done| |done]. pose proof (format_digits (Zpos p) ltac:(done)) as Hd.
  by rewrite Hz in Hd.
Qed.
Lemma set_uint64_format z current : 0 ≤ z ≤ max_uint64 →
  set_number parse_uint64 current (format_int z) = Some z.
Proof.
  intros Hz. unfold set_number. rewrite decide_False by apply format_not_null.
  unfold parse_uint64. destruct (format_uint z) as [-> _]; [lia|]. cbn [mbind option_bind].
  by rewrite (proj2 (Z.leb_le _ _)) by lia.
Qed.
Lemma set_int64_format z current : is_int64 z = true →
  set_number parse_int64 current (format_int z) = Some z.
Proof.
  intros Hz. unfold set_number. rewrite decide_False by apply format_not_null. by rewrite parse_int64_format.
Qed.

(** Decoding the members one by one. *)
Ltac json_fields :=
  unfold fold_option;
  repeat first
    [ match goal with |- context [names_field ?a ?b] =>
        let x := eval vm_compute in (names_field a b) in
        replace (names_field a b) with x by (vm_compute; reflexivity) end
    | rewrite set_string_marshal by done
    | rewrite set_uint64_format by done
    | rewrite set_int64_format by done
    | progress cbn [mbind option_bind set_claim set_metadata lc_Key lc_ContentType lc_Size
        lc_ExpiresAt lm_ContentType lm_DeclaredContentType lm_DeclaredSize] ].

Lemma claims_roundtrip c : plain (lc_Key c) → plain (lc_ContentType c) →
  0 ≤ lc_Size c ≤ max_uint64 → is_int64 (lc_ExpiresAt c) = true →
  unmarshal_claims (marshal_claims c) = Some c.
Proof.
  intros Hk Ht Hs He. unfold unmarshal_claims, marshal_claims.
  rewrite unmarshal_object.
  2:{ repeat apply Forall_cons_2; try apply Forall_nil_2;
        first [by apply raw_string|by apply raw_number]. }
  json_fields. by destruct c.
Qed.

Lemma marshal_time_spec t text : marshal_time t = Some text →
  text = marshal_string (rfc3339nano t) ∧ unmarshal_time text = Some tt.
Proof.
  unfold marshal_time. destruct (civil _) as [[y m] d] eqn:Hc. destruct (in_range 0 9999 y) eqn:Hy; [|done].
  intros [= <-]. apply in_range_spec in Hy. split.
  - unfold marshal_string. by rewrite escape_plain by (done || apply rfc3339_plain).
  - unfold unmarshal_time. rewrite decide_False by done. unfold without_last.
    rewrite cut_last_app by done. cbn [mbind option_bind]. rewrite bool_decide_true by done.
    unfold time_parse_ok. erewrite rfc3339_parses by done. cbn [cf_month cf_year cf_day].
    pose proof (civil_date (t / 10 ^ 9 / 86400)) as Hg. rewrite Hc in Hg. unfold good_date in Hg.
    apply andb_true_iff in Hg as [_ ->]. done.
Qed.

Lemma metadata_roundtrip m t text : plain (lm_ContentType m) → plain (lm_DeclaredContentType m) →
  0 ≤ lm_DeclaredSize m ≤ max_uint64 → marshal_metadata m t = Some text →
  unmarshal_metadata text = Some m.
Proof.
  intros Hc Hd Hs. unfold marshal_metadata. intros (tt_ & Ht & [= <-])%bind_Some.
  apply marshal_time_spec in Ht as [-> Ht]. unfold unmarshal_metadata.
  rewrite unmarshal_object.
  2:{ repeat apply Forall_cons_2; try apply Forall_nil_2;
        first [apply raw_string; [done|apply rfc3339_plain]|by apply raw_string|by apply raw_number]. }
  json_fields. rewrite Ht. by destruct m.
Qed.

(** ** Reading what is stored *)

(** The directories above a path. *)
Fixpoint dir_paths (current : string) (parts : list string) : list string :=
  match parts with
  | [] => []
  | part :: parts => let current := path_join current part in current :: dir_paths current parts
  end.
Definition has_dirs (s : LocalStorage) (key : string) : Prop :=
  Forall (λ d, ls_files s !! d = Some Dir) (dir_paths "" (parent_parts key)).

Definition declared (content type : string) : localMetadata :=
  {| lm_ContentType := type; lm_DeclaredContentType := type; lm_DeclaredSize := len content |}.

(** An asset: its file under its key, with metadata that declare it. *)
Definition asset_at (s : LocalStorage) (key content type : string) (t : Z) : Prop :=
  is_ok (ParseObjectKey key) = true ∧ has_dirs s key ∧
  ls_files s !! key = Some (File content t) ∧
  (∃ text t', ls_files s !! (key +:+ localMetadataSuffix) = Some (File text t') ∧
     unmarshal_metadata text = Some (declared content type)) ∧
  normalizeContentType type = Ok type ∧ 0 < len content ≤ MaxUploadSize.

Definition asset_metadata (key content type : string) (t : Z) : Metadata :=
  {| md_Key := key; md_URL := LocalObjectPathPrefix +:+ key; md_ETag := "";
     md_ContentType := type; md_Size := len content; md_DeclaredContentType := type;
     md_DeclaredSize := len content; md_LastModified := t |}.

(** An error that says nothing of the asset. *)
Definition benign (e : Err) : Prop :=
  e = ECanceled ∨ (∃ msg, e = unavailable msg) ∨ ∃ msg, e = EOther msg.

(** A read of [s] changes nothing, fails only when the system does, and otherwise
    has a result in [R]. *)
Definition reads_as {A} (s : LocalStorage) (m : LM A) (R : A → Prop) : Prop :=
  ∀ w r s' w', m s w = (r, s', w') →
    s' = s ∧ match r with Ok a => R a | Er e => benign e end ∧
    (faults w = [] → is_ok r = true ∧ faults w' = []).

Lemma reads_as_bind {A B} s (m : LM A) R (k : A → LM B) R' :
  reads_as s m R → (∀ a, R a → reads_as s (k a) R') → reads_as s (m ≫= k) R'.
Proof.
  intros Hm Hk w r s' w'. unfold mbind, OM_bind. destruct (m s w) as [[[a|e] s1] w1] eqn:Hr;
    apply Hm in Hr as (-> & HR & Hf).
  - intros Hr2. apply Hk in Hr2 as (-> & HR2 & Hf2); [|done]. split_and!; [done..|].
    intros Hw. apply Hf2. by apply Hf.
  - intros [= <- <- <-]. done.
Qed.
Lemma reads_as_ret {A} s (a : A) (R : A → Prop) : R a → reads_as s (mret a) R.
Proof. intros HR w r s' w' [= <- <- <-]. done. Qed.
Lemma reads_as_lift {A} s (x : result A) a : x = Ok a → reads_as s (o_lift x) (eq a).
Proof. intros -> w r s' w' [= <- <- <-]. done. Qed.
Lemma fs_read_run {A} (f : FileSystem → FsErr + A) s w r s' w' : fs_read f s w = (r, s', w') →
  s' = s ∧ (r = Ok (f (ls_files s)) ∨ r = Ok (inl ErrIO)) ∧
  (faults w = [] → r = Ok (f (ls_files s)) ∧ faults w' = []).
Proof.
  unfold fs_read, fs_call. destruct (next_fault w) as [fault w1] eqn:Hf.
  assert (with_files (ls_files s) s = s) as Hs by by destruct s.
  assert (faults w = [] → fault = None ∧ w1 = w) as Hn.
  { unfold next_fault in Hf. intros Hw. rewrite Hw in Hf. by injection Hf as <- <-. }
  destruct fault as [[c []]|]; intros [= <- <- <-]; rewrite ?Hs; split_and!; auto;
    intros Hw; destruct (Hn Hw) as [? ->]; done.
Qed.
Lemma reads_as_checked {A} s e (f : FileSystem → FsErr + A) a :
  benign (e ErrIO) → f (ls_files s) = inr a → reads_as s (checked_call e (fs_read f)) (eq a).
Proof.
  intros He Hf w r s' w'. unfold checked_call, mbind, OM_bind.
  destruct (fs_read f s w) as [[x s1] w1] eqn:Hr. apply fs_read_run in Hr as (-> & Hx & Hn).
  rewrite Hf in *. destruct Hx as [-> | ->]; intros [= <- <- <-]; split_and!; try done;
    intros Hw; by destruct (Hn Hw).
Qed.
Lemma reads_as_directory s p : ls_files s !! p = Some Dir → reads_as s (no_symlink p) (λ _, True).
Proof.
  intros Hd w r s' w'. unfold no_symlink, mbind, OM_bind.
  destruct (fs_read _ s w) as [[x s1] w1] eqn:Hr. apply fs_read_run in Hr as (-> & Hx & Hn).
  unfold os_Lstat in *. rewrite Hd in *.
  destruct Hx as [-> | ->]; intros [= <- <- <-]; split_and!; try done;
    [|right; left; by eexists|]; intros Hw; by destruct (Hn Hw).
Qed.
Lemma reads_as_directories s current parts :
  Forall (λ d, ls_files s !! d = Some Dir) (dir_paths current parts) →
  reads_as s (over_dirs no_symlink current parts) (λ _, True).
Proof.
  revert current. induction parts as [|p l IH]; intros current; simpl; [by intros; apply reads_as_ret|].
  intros [Hp Hl]%Forall_cons. eapply reads_as_bind; [by apply reads_as_directory|]. intros. by apply IH.
Qed.

Lemma key_relative key : is_ok (ParseObjectKey key) = true →
  path_clean key = key ∧
  bool_decide (key = ".") || bool_decide (key = "..") || String.prefix "../" key || String.prefix "/" key = false.
Proof.
  intros [o Ho]%is_ok_Ok. split; [by eapply path_clean_key|].
  apply ParseObjectKey_spec in Ho as (_ & _ & _ & ->). unfold key_of, object_key.
  by destruct (os_Temporary o).
Qed.

Lemma reads_as_safePath s key : is_ok (ParseObjectKey key) = true → has_dirs s key →
  reads_as s (safePath key false) (eq key).
Proof.
  intros Hk Hd. pose proof (key_relative _ Hk) as [Hc Hp]. apply is_ok_Ok in Hk as [o Ho].
  unfold safePath. eapply reads_as_bind; [by apply reads_as_lift|]. intros _ _. cbv zeta. rewrite Hc.
  eapply reads_as_bind; [apply reads_as_lift; by rewrite Hp|]. intros _ _.
  eapply reads_as_bind; [by apply reads_as_directories|]. intros _ _. by apply reads_as_ret.
Qed.

Lemma reads_as_asset s key content type t : asset_at s key content type t →
  reads_as s (local_CompleteUpload key) (eq (asset_metadata key content type t)).
Proof.
  intros (Hk & Hd & Hf & (text & t' & Hm & Hu) & Hn & Hl).
  assert (∀ e, benign (classifyLocalReadError e) ∨ e = ErrNotExist) as Hb.
  { intros []; [by right|left; right; left; by eexists..]. }
  assert (benign (classifyLocalReadError ErrIO)) as Hio by (right; left; by eexists).
  unfold local_CompleteUpload. eapply (reads_as_bind _ _ (eq (asset_metadata key content type t))).
  - unfold local_ReadMetadata, not_canceled, fs_nothing.
    eapply reads_as_bind; [apply reads_as_checked; [by left|done]|]. intros _ _.
    eapply reads_as_bind; [by apply reads_as_safePath|]. intros _ _.
    eapply reads_as_bind; [by apply reads_as_checked|]. intros _ _.
    eapply reads_as_bind; [apply (reads_as_checked _ _ _ (File content t)); [done|by unfold os_Lstat; rewrite Hf]|].
    intros _ <-. eapply reads_as_bind; [by apply (reads_as_ret _ _ (eq (content, t)))|]. intros _ <-.
    eapply reads_as_bind; [apply (reads_as_checked _ _ _ (File text t')); [done|by unfold os_Lstat; rewrite Hm]|].
    intros _ <-. eapply reads_as_bind; [by apply (reads_as_ret _ _ (eq (text, t')))|]. intros _ _.
    eapply reads_as_bind; [apply (reads_as_checked _ _ _ text); [done|by unfold os_ReadFile; rewrite Hm]|].
    intros _ <-. eapply reads_as_bind; [apply reads_as_lift; by rewrite Hu|]. intros _ <-.
    assert (Safeint.Uint64FromInt64 (len content) = Ok (len content)) as Hsz.
    { unfold Safeint.Uint64FromInt64. rewrite (proj2 (Z.ltb_ge _ _)) by lia.
      rewrite Safeint.uint64_id; [done|]. unfold Safeint.unsigned, MaxUploadSize in *. lia. }
    rewrite Hsz. eapply (reads_as_bind _ _ (eq (len content))); [by intros w r s' w' [= <- <- <-]|].
    intros _ <-. by apply reads_as_ret.
  - intros _ <-. apply reads_as_lift. unfold validateCompletedMetadata, asset_metadata.
    cbn [md_Size md_DeclaredSize md_ContentType md_DeclaredContentType].
    rewrite (proj2 (Z.eqb_neq (len content) 0)) by lia. rewrite Z.eqb_refl. cbn [orb negb guard_err mbind result_bind].
    rewrite Hn. by rewrite bool_decide_true.
Qed.

End storage.

(** ** Media types *)

Lemma token_char_lower c : is_token_char (lower_char c) = is_token_char c.
Proof. destruct c as [[] [] [] [] [] [] [] []]; reflexivity. Qed.
Lemma token_char_ascii c : is_token_char c = true → ascii_byte c = true.
Proof. unfold is_token_char, ascii_byte. lia. Qed.
Lemma token_char_dense c : is_token_char c = true → dense c = true.
Proof. destruct c as [[] [] [] [] [] [] [] []]; (reflexivity || discriminate). Qed.

Lemma mime_token_lower s :
  mime_token (map_bytes lower_char s) =
  (map_bytes lower_char (mime_token s).1, map_bytes lower_char (mime_token s).2).
Proof.
  induction s as [|c s IH]; [done|]. simpl. rewrite token_char_lower. destruct (is_token_char c); [|done].
  rewrite IH. by destruct (mime_token s).
Qed.
Lemma mime_token_all p s t r : mime_token s = (t, r) → forall_bytes p s = true →
  forall_bytes p t = true ∧ forall_bytes p r = true.
Proof.
  revert t r. induction s as [|c s IH]; simpl; intros t r; [by intros [= <- <-]|].
  destruct (is_token_char c); [|intros [= <- <-] Hs; by simpl; rewrite Hs].
  destruct (mime_token s) as [t' r'] eqn:Hs. intros [= <- <-] [Hc Hp]%andb_true_iff.
  destruct (IH t' r' eq_refl Hp). simpl. by rewrite Hc.
Qed.
Lemma mime_token_split s t r : mime_token s = (t, r) → s = t +:+ r ∧ forall_bytes is_token_char t = true.
Proof.
  revert t r. induction s as [|c s IH]; simpl; intros t r; [by intros [= <- <-]|].
  destruct (is_token_char c) eqn:Hc; [|by intros [= <- <-]].
  destruct (mime_token s) as [t' r'] eqn:Hs. intros [= <- <-]. destruct (IH t' r' eq_refl) as [-> Ht].
  simpl. by rewrite app_cons_s, Hc.
Qed.

(** A token, or two with a slash between them. *)
Definition media_byte (c : ascii) : bool := is_token_char c || bool_decide (c = "/"%char).

Lemma media_bytes s : checkMediaTypeDisposition s = true → forall_bytes media_byte s = true.
Proof.
  assert (∀ t, forall_bytes is_token_char t = true → forall_bytes media_byte t = true) as Htok.
  { intros t. apply forall_bytes_impl. unfold media_byte. intros c ->. done. }
  unfold checkMediaTypeDisposition. destruct (mime_token s) as [t r] eqn:Hs.
  apply mime_token_split in Hs as [-> Ht]. intros [_ Hr]%andb_true_iff.
  rewrite forall_bytes_app, Htok by done. destruct r as [|c r]; [done|].
  assert (c = "/"%char) as -> by (by destruct c as [[] [] [] [] [] [] [] []]).
  destruct (mime_token r) as [t2 r2] eqn:Hs. apply mime_token_split in Hs as [-> Ht2].
  bool_hyps. subst. rewrite app_nil_s. simpl. by apply Htok.
Qed.
Lemma check_lower s : checkMediaTypeDisposition (map_bytes lower_char s) = checkMediaTypeDisposition s.
Proof.
  assert (∀ t, bool_decide (map_bytes lower_char t = "") = bool_decide (t = "")) as Hempty by (by intros []).
  unfold checkMediaTypeDisposition. rewrite mime_token_lower. destruct (mime_token s) as [t r]. simpl.
  rewrite Hempty. f_equal. destruct r as [|c r]; [done|]. simpl. rewrite mime_token_lower.
  destruct (mime_token r) as [t2 r2]. simpl. rewrite !Hempty.
  by destruct c as [[] [] [] [] [] [] [] []].
Qed.

Lemma media_type_checked `{UnicodeLower} value m : ParseMediaType value = Some m →
  checkMediaTypeDisposition m = true.
Proof.
  unfold ParseMediaType. destruct (match cut _ _ with Some _ => _ | None => _ end) as [base params].
  destruct (checkMediaTypeDisposition _) eqn:Hc; [|done]. destruct (media_params _ _ _); [|done].
  by intros [= <-].
Qed.
Lemma media_ascii s : forall_bytes media_byte s = true → forall_bytes ascii_byte s = true.
Proof.
  apply forall_bytes_impl. intros c [?%token_char_ascii|Hs]%orb_true_iff; [done|]. by bool_hyps; subst.
Qed.
Lemma media_dense s : forall_bytes media_byte s = true → forall_bytes dense s = true.
Proof.
  apply forall_bytes_impl. intros c [?%token_char_dense|Hs]%orb_true_iff; [done|]. by bool_hyps; subst.
Qed.
Lemma media_lower `{UnicodeLower} m : checkMediaTypeDisposition m = true →
  to_lower m = map_bytes lower_char m.
Proof. intros Hc. by apply to_lower_bytes, media_ascii, media_bytes. Qed.
(** A media type in lower case parses to itself. *)
Lemma media_canonical `{UnicodeLower} m : checkMediaTypeDisposition m = true →
  forall_bytes media_byte (to_lower m) = true ∧ ParseMediaType (to_lower m) = Some (to_lower m) ∧
  to_lower (to_lower m) = to_lower m.
Proof.
  intros Hc. assert (to_lower (to_lower m) = to_lower m) as Hl
    by by apply to_lower_ascii, to_lower_lower, media_ascii, media_bytes.
  assert (checkMediaTypeDisposition (to_lower m) = true) as Hc' by by rewrite media_lower, check_lower.
  pose proof (media_bytes _ Hc') as Hb. split_and!; [done| |done]. unfold ParseMediaType.
  rewrite cut_none by (by apply (count_none _ media_byte)).
  by rewrite Hl, trim_space_dense, Hc' by by apply media_dense.
Qed.

Lemma count_slash_lower s : count_byte "/" (map_bytes lower_char s) = count_byte "/" s.
Proof.
  induction s as [|c s IH]; [done|]. simpl. rewrite IH.
  destruct c as [[] [] [] [] [] [] [] []]; reflexivity.
Qed.
Lemma contains_any_none l s p : forall_bytes p s = true → forallb (λ c, negb (p c)) l = true →
  contains_any l s = false.
Proof.
  intros Hs Hl. unfold contains_any. induction l as [|c l IH]; [done|]. simpl in *. bool_hyps.
  by rewrite (count_none _ p), IH.
Qed.
Lemma normalize_canonical `{UnicodeLower} value type : normalizeContentType value = Ok type →
  forall_bytes media_byte type = true ∧ normalizeContentType type = Ok type.
Proof.
  unfold normalizeContentType. intros (_ & _ & Hr)%bind_Ok.
  destruct (ParseMediaType value) as [m|] eqn:Hm; [|done]. apply bind_Ok in Hr as (? & Hs & [= <-]).
  apply media_type_checked in Hm. destruct (media_canonical _ Hm) as (Hb & Hp & Hl). split; [done|].
  rewrite Hp, Hl, (contains_any_none _ _ media_byte), trim_space_dense by done || by apply media_dense.
  rewrite !bool_decide_true by done. rewrite bool_decide_false.
  - rewrite media_lower, count_slash_lower by done. by rewrite Hs.
  - intros He. rewrite media_lower in He by done. destruct m; [|done]. by apply guard_err_Ok in Hs.
Qed.
(** The type that an upload's request must have is the one of its claims. *)
Lemma type_canonical `{UnicodeLower} value type n : to_lower <$> ParseMediaType value = Some type →
  normalizeContentType type = Ok n → n = type.
Proof.
  intros (m & Hm & ->)%fmap_Some. apply media_type_checked in Hm.
  destruct (media_canonical _ Hm) as (_ & Hp & Hl). unfold normalizeContentType. rewrite Hp, Hl.
  intros (? & _ & (? & _ & [= <-])%bind_Ok)%bind_Ok. done.
Qed.

Section uploads.
Context `{Engine} `{Collation} {St : Store} `{HMAC} {U : UUIDLib} {UL : UUIDLaws U} `{UnicodeLower}.
Notation LM := (OM LocalStorage).

(** ** A successful upload stores its asset *)

Lemma orun_call {A} (f : FileSystem → (FsErr + A) * FileSystem) s w a s' w' :
  fs_call f s w = (Ok (inr a), s', w') →
  ∃ fs, f (ls_files s) = (inr a, fs) ∧ s' = with_files fs s.
Proof.
  unfold fs_call. destruct (next_fault w) as [fault w1]. destruct (f (ls_files s)) as [x fs].
  destruct fault as [[c []]|]; intros [= <- <- <-]; eauto.
Qed.
Lemma orun_checked {A} e (m : LM (FsErr + A)) s w a s' w' :
  checked_call e m s w = (Ok a, s', w') → m s w = (Ok (inr a), s', w').
Proof.
  unfold checked_call. intros Hr. inv_orun. destruct x as [x|x]; [by apply orun_throw in Hr|].
  by apply orun_ret in Hr as (-> & -> & ->).
Qed.

Lemma safe_directory_run p s w u s' w' : safe_directory p s w = (Ok u, s', w') →
  ls_files s' !! p = Some Dir.
Proof.
  unfold safe_directory. intros Hr. apply orun_bind in Hr as (info & s1 & w1 & Hi & Hr).
  apply fs_read_run in Hi as (-> & Hi & _). apply orun_bind in Hr as (x & s2 & w2 & Hx & Hr).
  apply orun_attempt in Hx. destruct x as [[]|]; try by apply orun_throw in Hr.
  apply orun_ret in Hr as (_ & <- & <-). destruct info as [[]|n]; try by apply orun_throw in Hx.
  - unfold createLocalDirectory in Hx. apply orun_bind in Hx as (y & s3 & w3 & _ & Hx).
    assert (checked_call (λ _, EOther "lstat") (fs_read (os_Lstat p)) s3 w3 = (Ok Dir, s2, w2)) as Hl
      by (by destruct y as [[]|]; try by apply orun_throw in Hx).
    apply orun_checked, fs_read_run in Hl as (-> & Hl & _). unfold os_Lstat in Hl.
    destruct (ls_files s3 !! p); by destruct Hl; simplify_eq.
  - apply orun_ret in Hx as (-> & <- & _). unfold os_Lstat in Hi.
    destruct (ls_files s !! p); by destruct Hi; simplify_eq.
Qed.
Lemma safe_directories_run parts current s w u s' w' :
  over_dirs safe_directory current parts s w = (Ok u, s', w') →
  Forall (λ d, ls_files s' !! d = Some Dir) (dir_paths current parts).
Proof.
  revert current s w. induction parts as [|p l IH]; intros current s w; simpl; [by intros; constructor|].
  intros (v & s1 & w1 & Hd & Hr)%orun_bind. constructor; [|by eapply IH].
  apply safe_directory_run in Hd.
  assert (evolves always (λ _ n, n = Dir) (over_dirs safe_directory (path_join current p) l)) as He.
  { unfold safe_directory, createLocalDirectory. evolves. }
  destruct (He _ _ _ _ _ I Hr) as [(_ & Ha & _) _]. by apply Ha.
Qed.
Lemma safePath_run key s w p s' w' : safePath key true s w = (Ok p, s', w') →
  p = key ∧ is_ok (ParseObjectKey key) = true ∧ has_dirs s' key.
Proof.
  unfold safePath. intros Hr. inv_orun.
  match goal with Hx : ParseObjectKey _ = Ok _ |- _ => pose proof (path_clean_key _ _ Hx) as Hc;
    rewrite Hc in * end.
  split_and!; [done|apply is_ok_Ok; eauto|]. by eapply safe_directories_run.
Qed.

Lemma exclusive_run p text s w u s' w' : writeExclusiveFile p text s w = (Ok u, s', w') →
  ls_files s !! p = None ∧ ∃ t, s' = with_files (<[p := File text t]> (ls_files s)) s.
Proof.
  unfold writeExclusiveFile. intros Hr. apply orun_bind in Hr as (t & s1 & w1 & Ht & Hr).
  apply orun_world in Ht as [_ <-]. apply orun_bind in Hr as (v & s2 & w2 & Hc & Hr).
  apply orun_checked, orun_call in Hc as (fs & Hc & ->). unfold os_create in Hc.
  destruct (ls_files s !! p); [done|]. split; [done|]. destruct (is_dir _ _); [|done]. injection Hc as <- <-.
  apply orun_bind in Hr as (x & s3 & w3 & Hw & Hr). destruct x as [e|y].
  { apply orun_bind in Hr as (? & ? & ? & _ & Hr). apply orun_bind in Hr as (? & ? & ? & _ & Hr).
    by apply orun_throw in Hr. }
  apply orun_call in Hw as (fs & Hw & ->). unfold os_write in Hw. cbn [with_files ls_files] in Hw.
  rewrite lookup_insert_eq in Hw. injection Hw as _ <-.
  apply orun_bind in Hr as (c & s4 & w4 & Hcl & Hr). apply fs_read_run in Hcl as (-> & _).
  destruct c as [e|y']; [apply orun_bind in Hr as (? & ? & ? & _ & Hr); by apply orun_throw in Hr|].
  apply orun_ret in Hr as (_ & <- & _). exists t. unfold with_files. cbn [ls_files signingKey].
  by rewrite insert_insert_eq.
Qed.

Definition claims_metadata (claims : localUploadClaims) : localMetadata :=
  {| lm_ContentType := lc_ContentType claims; lm_DeclaredContentType := lc_ContentType claims;
     lm_DeclaredSize := lc_Size claims |}.

Lemma append_ne p : p +:+ localMetadataSuffix ≠ p.
Proof.
  intros Hp. apply (f_equal String.length) in Hp. rewrite app_length_s in Hp. simpl in Hp. lia.
Qed.
Lemma publish_run claims received key temporary n s w u s' w' :
  publish_object claims received key temporary s w = (Ok u, s', w') →
  ls_files s !! temporary = Some n →
  len received = lc_Size claims ∧ ls_files s !! (key +:+ localMetadataSuffix) = None ∧
  ∃ text c t, marshal_metadata (claims_metadata claims) c = Some text ∧
    s' = with_files (<[key +:+ localMetadataSuffix := File text t]> (<[key := n]> (ls_files s))) s.
Proof.
  unfold publish_object. intros Hr Hn. apply orun_bind in Hr as (v & s1 & w1 & Hg & Hr).
  apply orun_lift in Hg as (Hg & <- & <-). apply guard_err_Ok in Hg. bool_hyps.
  apply orun_bind in Hr as (v' & s2 & w2 & Hl & Hr). apply orun_checked, orun_call in Hl as (fs & Hl & ->).
  unfold os_Link in Hl. rewrite Hn in Hl. unfold os_create in Hl.
  destruct (ls_files s !! key); [done|]. destruct (is_dir _ _); [|done]. injection Hl as _ <-.
  apply orun_bind in Hr as (c & s3 & w3 & Hc & Hr). apply orun_world in Hc as [_ <-]. cbv zeta in Hr.
  destruct (marshal_metadata _ _) as [text|] eqn:Hm.
  2:{ apply orun_bind in Hr as (? & ? & ? & _ & Hr). by apply orun_throw in Hr. }
  apply orun_bind in Hr as (x & s4 & w4 & Hx & Hr). apply orun_attempt in Hx.
  destruct x as [y|e]; [|apply orun_bind in Hr as (? & ? & ? & _ & Hr); by apply orun_throw in Hr].
  apply orun_ret in Hr as (_ & <- & _). apply exclusive_run in Hx as (Hfree & t & ->).
  cbn [with_files ls_files] in Hfree. rewrite lookup_insert_ne in Hfree by (intros Hq; by apply (append_ne key)).
  split_and!; [done..|]. by exists text, c, t.
Qed.

Lemma remove_keeps p q s w r s' w' n : fs_call (os_Remove p) s w = (r, s', w') → p ≠ q →
  ls_files s !! q = Some n → ls_files s' !! q = Some n.
Proof.
  intros Hr Hne Hq. assert (evolves (λ x, x = q) (λ _ _, True) (fs_call (os_Remove p))) as He
    by by apply evolves_remove.
  destruct (He _ _ _ _ _ I Hr) as [(_ & Ha & _) _]. by apply Ha.
Qed.

(** The outcome of a successful upload, but for the directories. *)
Lemma write_run claims body s w u s' w' : 0 < lc_Size claims ≤ MaxUploadSize →
  (created ← create_temp max_tries (parent (lc_Key claims));
   match created with
   | inl _ => o_throw (unavailable "create local upload")
   | inr temporary =>
       r ← o_attempt (received ← receive_file claims body temporary;
                      publish_object claims received (lc_Key claims) temporary);
       fs_call (os_Remove temporary);;
       o_lift r
   end) s w = (Ok u, s', w') →
  is_ok (ParseObjectKey (lc_Key claims)) = true →
  len body = lc_Size claims ∧ ∃ t text c t',
    ls_files s' !! lc_Key claims = Some (File body t) ∧
    ls_files s' !! (lc_Key claims +:+ localMetadataSuffix) = Some (File text t') ∧
    marshal_metadata (claims_metadata claims) c = Some text.
Proof.
  intros Hsize Hr [o Hk]%is_ok_Ok. apply orun_bind in Hr as (x & s1 & w1 & Hc & Hr).
  apply (create_temp_free (λ _, True) (λ _ _, True)) in Hc as [_ Hfree]; [|done].
  destruct x as [e|temporary]; [by apply orun_throw in Hr|].
  destruct (Hfree temporary eq_refl) as (_ & n & Hn & ->). set (temporary := temporary_name _ n) in *.
  assert (no_key temporary) as Hnt by by apply no_key_temporary.
  apply orun_bind in Hr as (x & s2 & w2 & Hx & Hr). apply orun_attempt in Hx.
  apply orun_bind in Hr as (v & s3 & w3 & Hrm & Hr). apply orun_lift in Hr as (-> & <- & _).
  apply orun_bind in Hx as (received & s4 & w4 & Hrec & Hpub).
  destruct (receive_triple (λ _, False) claims body temporary ltac:(tauto) ltac:(lia) Hnt
    _ _ _ _ _ I Hrec) as [_ Hrec'].
  destruct (Hrec' received eq_refl) as [Hbody [t Ht]]. eapply publish_run in Hpub; [|done].
  destruct Hpub as (Hl & Hfm & text & c & t' & Hm & ->). rewrite <-Hbody by done. split; [done|].
  exists t, text, c, t'. split_and!; [| |done].
  - eapply remove_keeps; [exact Hrm| |].
    + intros Hq. rewrite Hq in Hnt. by apply (Hnt o).
    + cbn. rewrite lookup_insert_ne by apply append_ne. apply lookup_insert_eq.
  - eapply remove_keeps; [exact Hrm| |].
    + intros Hq. rewrite <-Hq in Hfm. congruence.
    + apply lookup_insert_eq.
Qed.

Lemma writeUpload_stores claims body s w u s' w' :
  writeUpload claims body s w = (Ok u, s', w') → 0 < lc_Size claims ≤ MaxUploadSize →
  normalizeContentType (lc_ContentType claims) = Ok (lc_ContentType claims) →
  len body = lc_Size claims ∧
  (plain (lc_ContentType claims) → ∃ t, asset_at s' (lc_Key claims) body (lc_ContentType claims) t).
Proof.
  unfold writeUpload. intros Hr Hsize Hnorm. apply orun_bind in Hr as (? & s0 & w0 & _ & Hr).
  apply orun_bind in Hr as (p & s1 & w1 & Hp & Hr). apply safePath_run in Hp as (-> & Hk & Hd).
  apply orun_bind in Hr as (info & s2 & w2 & Hx & Hr). apply fs_read_run in Hx as (-> & Hx & _).
  destruct info as [[]|]; try by apply orun_throw in Hr.
  assert (ls_files s1 !! lc_Key claims = None) as Hnone.
  { unfold os_Lstat in Hx. destruct (ls_files s1 !! _); [by destruct Hx|done]. }
  pose proof (write_free claims body ltac:(lia) _ _ _ _ _ Hnone Hr) as [(_ & Ha & _) _].
  apply write_run in Hr as (Hl & t & text & c & t' & Hf & Hm & Htext); [|done..].
  split; [done|]. intros Hplain. exists t. split_and!; try done; [| |lia..].
  - eapply Forall_impl; [exact Hd|]. intros d. by apply Ha.
  - exists text, t'. split; [done|]. unfold declared. rewrite Hl.
    apply (metadata_roundtrip (claims_metadata claims) c); try done. simpl. unfold MaxUploadSize, max_uint64 in *. lia.
Qed.

(** ** What a ticket is worth *)

Lemma verifyToken_type key now token claims : verifyToken key now token = Ok claims →
  ∃ n, normalizeContentType (lc_ContentType claims) = Ok n.
Proof.
  unfold verifyToken. destruct (split_on "." token) as [|payload [|signature [|]]]; try done.
  intros Hr. inv_ok. bool_hyps.
  match goal with Hx : is_ok (validatePresignInput _) = true |- _ => apply is_ok_Ok in Hx as [? Hx];
    unfold validatePresignInput in Hx end. inv_ok. eauto.
Qed.

Lemma plain_media s : forall_bytes media_byte s = true → count_byte "&" s = 0 → plain s.
Proof.
  unfold plain. induction s as [|c s IH]; [done|]. simpl. pose proof (count_nonneg "&" s).
  intros [Hc Hs]%andb_true_iff Hn. assert (c ≠ "&"%char ∧ count_byte "&" s = 0) as [Hne Hz]
    by (case_decide; subst; (split; [congruence|lia]) || lia).
  rewrite IH by done.
  clear -Hc Hne. destruct c as [[] [] [] [] [] [] [] []]; (reflexivity || discriminate || done).
Qed.

(** An upload that is answered 204 has stored the asset: its token was valid,
    and under the key the token names there is now a file with exactly the body
    of the request, below plain directories and beside a metadata file that
    declares its type and its length (the type is one without an ampersand,
    which JSON would escape). *)
Lemma upload_stores request s w reply s' w' :
  ServeHTTP request s w = (Ok reply, s', w') → lr_Path request = LocalUploadPath → rs_Status reply = 204 →
  ∃ claims, verifyToken (signingKey s) (clock w (ticks w)) (lr_Query request "token") = Ok claims ∧
    len (lr_Body request) = lc_Size claims ∧
    (count_byte "&" (lc_ContentType claims) = 0 →
     ∃ t, asset_at s' (lc_Key claims) (lr_Body request) (lc_ContentType claims) t).
Proof.
  unfold ServeHTTP. intros Hr Hp Hst. rewrite bool_decide_true in Hr by done.
  destruct (handleUpload_run _ _ _ _ _ _ Hp Hr) as [[_ Hno]|(claims & x & w1 & Hup & Hv & -> & Hw & Hx)].
  { by destruct (Hno _ eq_refl). }
  rewrite (Hx _ eq_refl Hst) in Hw. exists claims. split; [done|].
  destruct Hup as (_ & _ & _ & _ & _ & (? & ? & ? & Htk) & Hty & _). destruct_and! Htk.
  destruct (verifyToken_type _ _ _ _ Hv) as [n Hn]. pose proof (type_canonical _ _ _ Hty Hn) as ->.
  apply normalize_canonical in Hn as [Hb Hn].
  destruct (writeUpload_stores _ _ _ _ _ _ _ Hw ltac:(lia) Hn) as [Hl Hs]. split; [done|].
  intros Hamp. by apply Hs, plain_media.
Qed.

Lemma plain_key key o : ParseObjectKey key = Ok o → plain key.
Proof.
  intros (Hw & _ & _ & ->)%ParseObjectKey_spec. unfold plain. eapply forall_bytes_impl; [|by apply key_bytes].
  intros c Hc. clear -Hc. destruct c as [[] [] [] [] [] [] [] []]; (reflexivity || discriminate).
Qed.

Lemma b64_nonempty s : s ≠ "" → b64_encode s ≠ "".
Proof. intros Hs He. pose proof (b64_roundtrip s) as Hr. rewrite He in Hr. by injection Hr as <-. Qed.

(** A code of HMAC-SHA256 has 32 bytes. *)
Definition codes_32 : Prop := ∀ key message, len (hmac_sha256 key message) = 32.

Lemma verify_signed key now claims : codes_32 →
  is_ok (validatePresignInput {| pu_Key := lc_Key claims; pu_ContentType := lc_ContentType claims;
           pu_Size := lc_Size claims; pu_ExpiresIn := 10 ^ 9 |}) = true →
  plain (lc_ContentType claims) → 0 ≤ lc_Size claims → is_int64 (lc_ExpiresAt claims) = true →
  verifyToken key now (signClaims key claims) =
    if now <? unix_time (lc_ExpiresAt claims) then Ok claims else Er (EOther "expired upload ticket").
Proof.
  intros Hcode Hv Ht Hs He.
  assert (plain (lc_Key claims) ∧ lc_Size claims ≤ MaxUploadSize) as [Hk Hmax].
  { pose proof Hv as [? Hr]%is_ok_Ok. unfold validatePresignInput in Hr. inv_ok. cbn in *. bool_hyps.
    split; [by eapply plain_key|lia]. }
  assert (marshal_claims claims ≠ "") as Hm by done.
  unfold verifyToken, signClaims. set (payload := b64_encode _). set (code := hmac_sha256 key payload).
  change (payload +:+ "." +:+ b64_encode code) with (payload +:+ String "." (b64_encode code)).
  rewrite split_on_app, split_on_last by (apply count_digits, b64_encode_digits).
  rewrite !bool_decide_false.
  2:{ apply b64_nonempty. intros Hc. specialize (Hcode key payload). fold code in Hcode. by rewrite Hc in Hcode. }
  2:{ by apply b64_nonempty. }
  assert (b64_decode payload = Some (marshal_claims claims)) as -> by apply b64_roundtrip.
  rewrite b64_roundtrip. cbn [guard_err orb of_option mbind result_bind]. rewrite bool_decide_true by done.
  rewrite claims_roundtrip; [|done..| |done].
  2:{ unfold MaxUploadSize, max_uint64 in *. lia. }
  cbn [guard_err orb of_option mbind result_bind negb]. rewrite Hv. cbn [guard_err negb mbind result_bind].
  by destruct (now <? _).
Qed.

Lemma validate_again input type : validatePresignInput input = Ok type →
  is_ok (validatePresignInput {| pu_Key := pu_Key input; pu_ContentType := type;
           pu_Size := pu_Size input; pu_ExpiresIn := 10 ^ 9 |}) = true.
Proof.
  unfold validatePresignInput. intros (o & Ho & (u & Hs & (n & Hn & Hr)%bind_Ok)%bind_Ok)%bind_Ok.
  apply bind_Ok in Hr as (? & _ & [= <-]). apply normalize_canonical in Hn as [_ Hn].
  unfold mbind, result_bind. cbn [pu_Key pu_ContentType pu_Size pu_ExpiresIn]. by rewrite Ho, Hs, Hn.
Qed.

(** The ticket and the claims it carries. *)
Lemma presign_run input s w ticket s' w' : local_PresignUpload input s w = (Ok ticket, s', w') →
  s' = s ∧ ut_Key ticket = pu_Key input ∧ ut_Method ticket = "PUT" ∧
  ∃ claims, ut_URL ticket = LocalUploadPath +:+ "?token=" +:+ signClaims (signingKey s) claims ∧
    lc_Key claims = pu_Key input ∧ lc_Size claims = pu_Size input ∧
    validatePresignInput input = Ok (lc_ContentType claims) ∧
    ut_Headers ticket = {["Content-Type" := lc_ContentType claims]} ∧
    lc_ExpiresAt claims = ut_ExpiresAt ticket / 10 ^ 9.
Proof.
  unfold local_PresignUpload. intros Hr. apply orun_bind in Hr as ([] & s1 & w1 & Hr1 & Hr).
  apply orun_checked, fs_read_run in Hr1 as (-> & _).
  apply orun_bind in Hr as (type & s2 & w2 & Hv & Hr). apply orun_lift in Hv as (Hv & <- & <-).
  apply orun_bind in Hr as (t & s3 & w3 & Ht & Hr). apply orun_world in Ht as [_ <-].
  apply orun_bind in Hr as (key & s4 & w4 & [= <- <- <-] & Hr). cbv zeta in Hr.
  apply orun_ret in Hr as (<- & <- & _). split_and!; [done..|].
  by eexists {| lc_Key := pu_Key input; lc_ContentType := type; lc_Size := pu_Size input;
                lc_ExpiresAt := (t + pu_ExpiresIn input) / 10 ^ 9 |}.
Qed.
Lemma verify_presigned input claims key now : codes_32 → 0 ≤ pu_Size input →
  lc_Key claims = pu_Key input → lc_Size claims = pu_Size input →
  validatePresignInput input = Ok (lc_ContentType claims) → is_int64 (lc_ExpiresAt claims) = true →
  count_byte "&" (lc_ContentType claims) = 0 →
  verifyToken key now (signClaims key claims) =
    if now <? unix_time (lc_ExpiresAt claims) then Ok claims else Er (EOther "expired upload ticket").
Proof.
  intros Hcode Hs Hk Hsize Hv He Ha. apply verify_signed; [done| | |lia|done].
  - rewrite Hk, Hsize. by eapply validate_again.
  - unfold validatePresignInput in Hv. inv_ok. apply plain_media; [|done].
    by eapply normalize_canonical.
Qed.

(** A presigned ticket is the permission it describes, until it expires.  What
    [PresignUpload] returns for an upload it accepts is a PUT to the server's
    own upload path whose token, at any time before the announced expiry (in
    whole seconds), verifies to claims for exactly the key, the size and the
    normal form of the content type that were asked for, and from then on is
    refused as expired (for a type without an ampersand, which JSON would
    escape). *)
Theorem tickets_verify input s w ticket s' w' :
  local_PresignUpload input s w = (Ok ticket, s', w') → codes_32 → 0 ≤ pu_Size input →
  is_int64 (ut_ExpiresAt ticket / 10 ^ 9) = true →
  ut_Key ticket = pu_Key input ∧ ut_Method ticket = "PUT" ∧
  ∃ claims token, ut_URL ticket = LocalUploadPath +:+ "?token=" +:+ token ∧
    lc_Key claims = pu_Key input ∧ lc_Size claims = pu_Size input ∧
    normalizeContentType (pu_ContentType input) = Ok (lc_ContentType claims) ∧
    ut_Headers ticket = {["Content-Type" := lc_ContentType claims]} ∧
    (count_byte "&" (lc_ContentType claims) = 0 →
     ∀ now, verifyToken (signingKey s) now token =
       if now <? unix_time (ut_ExpiresAt ticket / 10 ^ 9) then Ok claims
       else Er (EOther "expired upload ticket")).
Proof.
  intros (_ & -> & -> & claims & -> & Hk & Hs & Hv & -> & He)%presign_run Hcode Hsize Hexp.
  split_and!; [done..|]. exists claims, (signClaims (signingKey s) claims).
  assert (normalizeContentType (pu_ContentType input) = Ok (lc_ContentType claims)) as Hn
    by (unfold validatePresignInput in Hv; by inv_ok).
  split_and!; [done..|]. intros Ha now. rewrite <-He in *. by eapply verify_presigned.
Qed.
End uploads.
