(* ===== verification/AssetSpec.v ===== *)
(** Assets: only an account that may write them obtains a ticket or completes an
    upload, what is completed is within the policy, and on a server that stores
    its objects itself, what an accepted upload stored stays and is served,
    whatever else the server is asked to do. *)

From S2P Require Import Prelude GoStd Util Json GoStrings Netip Codec CodecLaws Schema Engine Model Cache Convert Requests World WorldLaws RepoScope Permission Credential Password Jwt CredentialLaws RepoProject LogicBase LogicIdentity LogicProject LogicAuth Middleware Browser ObjectStore Coherence Service Assets LocalStore SampleWorld CodecSpec PermissionSpec Ledger ScopeSpec Secure HandlersAccess Server SchemaSpec AccessSpec ServiceSpec ObjectKeySpec LocalSpec.
From Stdlib Require Import Ascii.

Local Open Scope Z_scope.

(** ** Who may upload *)

Section access.
Context {E : Engine} {EL : EngineLaws E} `{Collation} {St : Store} {SL : StoreLaws St}
  `{Protojson} `{MapOrder} `{Pepper} `{Argon2} `{JWTLib} `{SHA256} `{UnicodeLower} `{UUIDLib}
  {Au : Authorizer} {AL : AuthorizerLaws Au} {PC : PermissionCache} {PL : PermissionCacheLaws PC}
  {SA : SecureAuthorizer Au} `{Deployment} {S : Type} {OS : ObjectStorage S}.

(** ** The operations *)

(** [ok] holds of the rows, or there is an error and nothing has changed. *)
Definition oguarded {A} (m : OM S A) (ok : DB → Prop) : Prop := ∀ s w r s' w',
  Secure w → m s w = (r, s', w') → ok (db w) ∨ (∃ e, r = Er e) ∧ s' = s ∧ db w' = db w.

Lemma oguarded_lift {A B} (x : result A) (k : A → OM S B) (ok : DB → Prop) :
  (∀ a, x = Ok a → oguarded (k a) ok) → oguarded (o_lift x ≫= k) ok.
Proof.
  intros Hk s w r s' w' HS. destruct x as [a|e]; unfold mbind, OM_bind, o_lift; [by apply Hk|].
  intros [= <- <- <-]. right. eauto.
Qed.
Lemma oguarded_handle {A} h (m : OM S A) ok : oguarded m ok → oguarded (o_handle h m) ok.
Proof.
  intros Hm s w r s' w' HS. unfold o_handle. destruct (m s w) as [[[a|e] s1] w1] eqn:Hr;
    intros [= <- <- <-]; destruct (Hm _ _ _ _ _ HS Hr) as [?|([e0 He] & ? & ?)]; eauto 6; done.
Qed.
Lemma oguarded_bind {A B} (m : OM S A) (k : A → OM S B) ok : oguarded m ok → oguarded (m ≫= k) ok.
Proof.
  intros Hm s w r s' w' HS. unfold mbind, OM_bind. destruct (m s w) as [[[a|e] s1] w1] eqn:Hr.
  - intros _. destruct (Hm _ _ _ _ _ HS Hr) as [?|[[e He] _]]; [by left|done].
  - intros [= <- <- <-]. destruct (Hm _ _ _ _ _ HS Hr) as [?|[_ ?]]; [by left|right]. eauto.
Qed.
Lemma oguarded_scope {A B} h (x : result A) (k : A → OM S B) (ok : DB → Prop) :
  (∀ a, x = Ok a → oguarded (k a) ok) → oguarded (o_handle h (o_lift x) ≫= k) ok.
Proof.
  intros Hk s w r s' w' HS. destruct x as [a|e]; unfold mbind, OM_bind, o_handle, o_lift; [by apply Hk|].
  intros [= <- <- <-]. right. eauto.
Qed.
Lemma oguarded_access ctx e p : oguarded (on_world (requireAccess ctx e p)) (may_write_assets ctx e p).
Proof.
  intros s w r s' w' HS. unfold on_world. destruct (requireAccess ctx e p w) as [x w1] eqn:Hr.
  intros [= <- <- <-]. destruct x as [u|err]; [left; by eapply run_requireAccess|right].
  split_and!; [eauto|done|by eapply reads_requireAccess].
Qed.
Lemma oguarded_weaken {A} (m : OM S A) (ok ok' : DB → Prop) : (∀ d, ok d → ok' d) →
  oguarded m ok → oguarded m ok'.
Proof. intros Hi Hm s w r s' w' HS Hr. destruct (Hm _ _ _ _ _ HS Hr); auto. Qed.

(** What each request for an upload demands. *)
Inductive asset_demands : ∀ {A}, OM S A → (DB → Prop) → Prop :=
  | need_PresignAsset ctx request : asset_demands (PresignAsset ctx request)
      (may_write_assets ctx (PresignAsset_EnvironmentId request) (PresignAsset_ProjectId request))
  | need_CompleteAsset sameOrigin trusted http ctx request :
      asset_demands (CompleteAsset sameOrigin trusted http ctx request) (λ d,
        may_write_assets ctx (CompleteAsset_EnvironmentId request) (CompleteAsset_ProjectId request) d ∧
        ∃ scope, ParseObjectKey (CompleteAsset_ObjectKey request) = Ok scope ∧
          os_EnvironmentID scope = CompleteAsset_EnvironmentId request ∧
          os_ProjectID scope = CompleteAsset_ProjectId request).

(** C8: no asset without permission.  In every state the server reaches, and
    whatever provider stores the objects, a request for a ticket or to complete
    an upload is made by an account to which the rows as they are at that moment
    grant [asset:write] on the environment, for a live project of that
    environment, and (to complete) for a key that belongs to both; or it is
    answered with an error, and leaves the storage and the database as they
    are. *)
Theorem assets_authorised {A} w0 w (m : OM S A) ok s r s' w' :
  rtc step w0 w → Secure w0 → asset_demands m ok → m s w = (r, s', w') →
  ok (db w) ∨ (∃ e, r = Er e) ∧ s' = s ∧ db w' = db w.
Proof.
  intros Hs HS Hm. apply steps_secure in Hs as [HSw _]; [|done]. revert HSw. generalize w. clear w HS.
  assert (oguarded m ok) as Hg; [|intros w; by apply Hg]. destruct Hm.
  - unfold PresignAsset, asset_Presign. apply oguarded_bind, oguarded_handle, oguarded_lift. intros [x t] _.
    apply oguarded_bind, oguarded_access.
  - unfold CompleteAsset, asset_Complete. apply oguarded_lift. intros origin _.
    apply oguarded_bind, oguarded_handle, oguarded_scope. intros scope Ho. apply oguarded_lift. intros ? Hg.
    apply guard_err_Ok in Hg. bool_hyps. 
    eapply oguarded_weaken; [|apply oguarded_bind, oguarded_access]. intros d Hd. split; [done|].
    exists scope. split_and!; [done|lia..].
Qed.
Lemma validateCompleted_spec policy x metadata u : validateCompleted policy x metadata = Ok u →
  md_Size metadata ≠ 0 ∧ md_Size metadata ≤ MaxSize policy ∧ ∃ types mediaType type,
    AllowedByExt policy !! x = Some types ∧ ParseMediaType (md_ContentType metadata) = Some mediaType ∧
    type ∈ types ∧ EqualFold mediaType type = true.
Proof.
  unfold validateCompleted. intros (? & Hs & Hr)%bind_Ok. apply guard_err_Ok in Hs. bool_hyps.
  split; [lia|]. split; [lia|]. destruct (AllowedByExt _ !! _) as [types|]; [|done].
  destruct (ParseMediaType _) as [m|]; [|done]. apply guard_err_Ok in Hr. apply negb_false_iff in Hr.
  apply existsb_exists in Hr as (type & Hin & He). exists types, m, type.
  split_and!; [done..|by apply list_elem_of_In|done].
Qed.
Lemma validatePublication_spec policy scope metadata s w u s' w' :
  validatePublication policy scope metadata s w = (Ok u, s', w') →
  published_scope scope metadata = true ∧
  validateCompleted policy (os_Extension scope) metadata = Ok tt.
Proof.
  unfold validatePublication. intros Hr. apply orun_bind in Hr as (? & s1 & w1 & Hg & Hr).
  apply orun_lift in Hg as (Hg & _ & _). apply guard_err_Ok in Hg. apply negb_false_iff in Hg. split; [done|].
  destruct (validateCompleted _ _ _) as [[]|err]; [done|].
  apply orun_bind in Hr as (d & s2 & w2 & _ & Hr). destruct d; by apply orun_throw in Hr.
Qed.

(** What is completed is in scope and within the policy, whatever the storage
    provider answers.  When completing an upload succeeds, the key that was asked
    for belongs to the environment and the project of the request; the object it
    is published under belongs to the same two, is not a temporary one, and has
    the same extension; and its size and media type are ones that the policy
    allows for this extension. *)
Theorem completed_assets_conform policy ctx e p key s w metadata s' w' :
  asset_Complete policy ctx e p key s w = (Ok metadata, s', w') →
  ∃ scope published types mediaType type,
    ParseObjectKey key = Ok scope ∧ os_EnvironmentID scope = e ∧ os_ProjectID scope = p ∧
    ParseObjectKey (md_Key metadata) = Ok published ∧ os_Temporary published = false ∧
    os_EnvironmentID published = e ∧ os_ProjectID published = p ∧
    os_Extension published = os_Extension scope ∧
    md_Size metadata ≠ 0 ∧ md_Size metadata ≤ MaxSize policy ∧
    AllowedByExt policy !! os_Extension scope = Some types ∧
    ParseMediaType (md_ContentType metadata) = Some mediaType ∧
    type ∈ types ∧ EqualFold mediaType type = true.
Proof.
  unfold asset_Complete. intros Hr. apply orun_bind in Hr as (scope & s1 & w1 & Hs & Hr).
  apply orun_handle, orun_lift in Hs as (Hs & _ & _). apply orun_bind in Hr as (? & s2 & w2 & Hg & Hr).
  apply orun_lift in Hg as (Hg & _ & _). apply guard_err_Ok in Hg. bool_hyps.
  apply orun_bind in Hr as (? & s3 & w3 & _ & Hr). apply orun_bind in Hr as (m & s4 & w4 & _ & Hr).
  apply orun_bind in Hr as (? & s5 & w5 & Hv & Hr). apply orun_ret in Hr as (-> & _ & _).
  apply validatePublication_spec in Hv as [Hp (? & ? & types & mt & type & ? & ? & ? & ?)%validateCompleted_spec].
  unfold published_scope in Hp. destruct (ParseObjectKey (md_Key metadata)) as [published|] eqn:Hm; [|done].
  bool_hyps. exists scope, published, types, mt, type. split_and!; done || lia || congruence.
Qed.
End access.

Section assets.
Context `{Engine} `{Collation} {St : Store} `{HMAC} {U : UUIDLib} {UL : UUIDLaws U} `{UnicodeLower} `{!Authorizer}.
Notation LM := (OM LocalStorage).

(** ** The paths of an asset *)

Definition part_of (key p : string) : Prop :=
  p ∈ dir_paths "" (parent_parts key) ∨ p = key ∨ p = key +:+ localMetadataSuffix.

Lemma dir_paths_clear current parts d : count_byte "." current = 0 →
  Forall (λ p, count_byte "." p = 0) parts → d ∈ dir_paths current parts → count_byte "." d = 0.
Proof.
  intros Hc Hp. revert current Hc. induction Hp as [|x l Hx _ IH]; intros current Hc; simpl;
    [by intros ?%elem_of_nil|].
  assert (count_byte "." (path_join current x) = 0) as Hj.
  { unfold path_join. case_bool_decide; [done|]. by rewrite !count_app, Hc, Hx. }
  intros [-> |Hd]%elem_of_cons; [done|]. by eapply IH.
Qed.
Lemma dirs_clear key o d : ParseObjectKey key = Ok o → d ∈ dir_paths "" (parent_parts key) →
  count_byte "." d = 0.
Proof.
  intros (Hw & _ & _ & ->)%ParseObjectKey_spec. apply dir_paths_clear; [done|].
  unfold parent_parts. rewrite key_of_parts, split_on_parts;
    [|by unfold key_parts; destruct (os_Temporary o)|by apply plain_parts].
  destruct Hw as (He%digits_key & Hp%digits_key & _).
  assert (∀ n, forall_bytes is_digit (format_int n) = true → count_byte "." (format_int n) = 0) as Hd
    by (intros; by apply (count_none _ is_digit)).
  unfold key_parts. destruct (os_Temporary o); simpl; repeat apply Forall_cons_2; try done; apply Hd; naive_solver.
Qed.
Lemma no_key_clear d : count_byte "." d = 0 → no_key d.
Proof.
  intros Hd. destruct (path_ext_spec d) as [He|(a & t & Hs & Ht & _)].
  - eapply no_key_ext; [exact He|]. by intros (t & ? & _).
  - rewrite Hs, Ht, count_app in Hd. simpl in Hd. pose proof (count_nonneg "." a). pose proof (count_nonneg "." t).
    lia.
Qed.

(** Another key and its metadata are no part of the asset. *)
Lemma part_of_other key o key' o' : ParseObjectKey key = Ok o → ParseObjectKey key' = Ok o' → key' ≠ key →
  ¬ part_of key key' ∧ ¬ part_of key (key' +:+ localMetadataSuffix).
Proof.
  intros Hk Hk' Hne. split; intros [Hd|[Hq|Hq]].
  - by apply (no_key_clear key' (dirs_clear _ _ _ Hk Hd) o').
  - done.
  - by apply (no_key_metadata key o'); rewrite <-Hq.
  - eapply dirs_clear in Hd; [|done]. rewrite count_app in Hd. pose proof (count_nonneg "." key'). simpl in Hd. lia.
  - by apply (no_key_metadata key' o); rewrite Hq.
  - apply Hne. by rewrite <-(trim_suffix_app key' localMetadataSuffix), Hq, trim_suffix_app.
Qed.

(** ** What leaves an asset alone *)

Definition anything : string → Node → Prop := λ _ _, True.

Section keeps.
Variables (key content type : string) (t : Z) (o : ObjectScope).
Hypothesis (Hkey : ParseObjectKey key = Ok o).
Notation stored := (λ s, asset_at s key content type t).

Lemma asset_evo s s' : evo (part_of key) anything s s' → stored s → stored s'.
Proof.
  intros (_ & Ha & _) (Hk & Hd & Hf & (text & t' & Hm & Hu) & Hn & Hl).
  split; [done|]. split; [|split; [|split; [|done]]].
  - apply Forall_forall. intros d Hin. apply Ha; [by left|]. exact (proj1 (Forall_forall _ _) Hd d Hin).
  - apply Ha; [by right; left|done].
  - exists text, t'. split; [|done]. apply Ha; [by right; right|done].
Qed.

(** A run from a state that stores the asset leaves it there. *)
Definition keeps {A} (m : LM A) (R : A → Prop) : Prop :=
  ∀ s w r s' w', stored s → m s w = (r, s', w') → stored s' ∧ ∀ a, r = Ok a → R a.

Lemma keeps_bind {A B} (m : LM A) R (k : A → LM B) R' :
  keeps m R → (∀ a, R a → keeps (k a) R') → keeps (m ≫= k) R'.
Proof.
  intros Hm Hk s w r s' w' HP. unfold mbind, OM_bind. destruct (m s w) as [[[a|e] s1] w1] eqn:Hr.
  - intros Hr2. apply Hm in Hr as [He HR]; [|done]. by apply Hk in Hr2; [|apply HR|].
  - intros [= <- <- <-]. by apply Hm in Hr as [He _].
Qed.
Lemma keeps_evolves {A} (m : LM A) : evolves (part_of key) anything m → keeps m (λ _, True).
Proof. intros Hm s w r s' w' HP Hr. apply Hm in Hr as [He _]; [|done]. split; [by eapply asset_evo|done]. Qed.
Lemma keeps_throw {A} e (R : A → Prop) : keeps (o_throw e) R.
Proof. by intros s w r s' w' HP [= <- <- <-]. Qed.
Lemma keeps_ret {A} (a : A) (R : A → Prop) : R a → keeps (mret a) R.
Proof. intros HR s w r s' w' HP [= <- <- <-]. split; [done|]. by intros b [= <-]. Qed.
Lemma keeps_lift {A} (x : result A) (R : A → Prop) : (∀ a, x = Ok a → R a) → keeps (o_lift x) R.
Proof. intros HR s w r s' w' HP [= <- <- <-]. split; [done|]. auto. Qed.
Lemma keeps_world {A} (m : M A) : keeps (on_world m) (λ _, True).
Proof. apply keeps_evolves. apply evolves_world. Qed.
Lemma keeps_handle {A} h (m : LM A) R : keeps m R → keeps (o_handle h m) R.
Proof.
  intros Hm s w r s' w' HP. unfold o_handle. destruct (m s w) as [[[a|e] s1] w1] eqn:Hr;
    intros [= <- <- <-]; apply Hm in Hr as [He HR]; done.
Qed.
Lemma keeps_weaken {A} (m : LM A) (R R' : A → Prop) : (∀ a, R a → R' a) → keeps m R → keeps m R'.
Proof. intros HR Hm s w r s' w' HP Hr. apply Hm in Hr as [? ?]; [|done]. split; auto. Qed.

(** Deleting what is stored under another key. *)
Lemma evolves_delete_other key' : key' ≠ key →
  evolves (part_of key) anything (local_DeleteIncomplete key').
Proof.
  intros Hne. unfold local_DeleteIncomplete, not_canceled. apply evolves_bind; [evolves|]. intros _.
  intros s w r s' w' _ Hr. unfold mbind at 1, OM_bind at 1 in Hr.
  destruct (safePath key' false s w) as [[x s1] w1] eqn:Hp.
  pose proof (evolves_safePath_read (part_of key) anything key' _ _ _ _ _ I Hp) as [He _].
  destruct x as [p|e]; [|by injection Hr as <- <- <-].
  assert (∃ o', ParseObjectKey key' = Ok o' ∧ p = key') as (o' & Hk' & ->).
  { unfold safePath in Hp. inv_orun. eexists. split; [done|]. by eapply path_clean_key. }
  destruct (part_of_other _ _ _ _ Hkey Hk' Hne) as [Hp1 Hp2]. split; [|done]. etrans; [exact He|].
  assert (∀ p, ¬ part_of key p → evolves (part_of key) anything (fs_call (os_Remove p)))
    as Hrm by apply evolves_remove.
  eapply (evolves_bind _ _ _ _ (Hrm _ Hp1)); [|done|exact Hr]. intros r1.
  apply evolves_bind; [by apply Hrm|]. intros r2. destruct r1 as [[]|], r2 as [[]|]; evolves.
Qed.

Lemma complete_key key' s w m s' w' : local_CompleteUpload key' s w = (Ok m, s', w') → md_Key m = key'.
Proof.
  unfold local_CompleteUpload. intros Hr. inv_orun.
  match goal with Hv : validateCompletedMetadata ?m0 = _ |- _ => assert (md_Key m0 = key') as Hk;
    [clear Hv|rename Hv into Hval] end.
  - unfold local_ReadMetadata in *. inv_orun. repeat case_match; subst; inv_orun; done.
  - unfold validateCompletedMetadata in Hval. apply bind_Ok in Hval as (_ & _ & Hval).
    destruct (normalizeContentType _) as [ct|]; [|done]. destruct (normalizeContentType _) as [ct'|]; [|done].
    apply bind_Ok in Hval as (_ & _ & [= <-]). done.
Qed.

(** The check of an upload, for any key. *)
Lemma keeps_completeObject key' : 
  keeps (completeObject key') (λ m, md_Key m = key' ∧
    (key' = key → m = asset_metadata key content type t)).
Proof.
  intros s w r s' w' Hs Hr. unfold completeObject in Hr. unfold mbind at 1, OM_bind at 1, o_attempt at 1 in Hr.
  cbn [CompleteUpload local_storage] in Hr.
  destruct (local_CompleteUpload key' s w) as [[x s1] w1] eqn:Hc.
  pose proof (evolves_CompleteUpload (part_of key) anything key' _ _ _ _ _ I Hc) as [He _].
  assert (stored s1) as Hs1 by by eapply asset_evo.
  destruct x as [m|e].
  - injection Hr as <- <- <-. split; [done|]. intros a [= <-]. split; [by eapply complete_key|].
    intros ->. by apply (reads_as_asset _ _ _ _ _ Hs) in Hc as (_ & <- & _).
  - destruct (decide (key' = key)) as [->|Hne].
    + apply (reads_as_asset _ _ _ _ _ Hs) in Hc as (_ & Hb & _).
      by destruct Hb as [->|[[msg ->]|[msg ->]]]; injection Hr as <- <- <-.
    + pose proof (evolves_delete_other _ Hne) as Hd. revert Hr.
      match goal with |- ?m s1 w1 = _ → _ => assert (keeps m (λ _, False)) as Hk end.
      { cbn [DeleteIncomplete local_storage]. repeat case_match; try apply keeps_throw.
        eapply keeps_bind; [apply keeps_evolves; by apply evolves_attempt|].
        intros [] _; apply keeps_throw. }
      intros Hr. apply Hk in Hr as [? Hno]; [|done]. split; [done|]. by intros a ?%Hno.
Qed.

(** The asset is one that the policy of the server accepts. *)
Definition acceptable : Prop :=
  os_Temporary o = false ∧
  ∀ t, is_ok (validateCompleted DefaultPolicy (os_Extension o) (asset_metadata key content type t)) = true.

Lemma keeps_publication scope m key' : ParseObjectKey key' = Ok scope → md_Key m = key' →
  (key' = key → m = asset_metadata key content type t) → acceptable →
  keeps (validatePublication DefaultPolicy scope m) (λ _, True).
Proof.
  intros Hk' Hm Heq [Htemp Hok]. unfold validatePublication.
  eapply keeps_bind; [by apply (keeps_lift _ (λ _, True))|]. intros _ _.
  destruct (decide (key' = key)) as [->|Hne].
  - rewrite Hkey in Hk'. injection Hk' as <-. rewrite (Heq eq_refl).
    specialize (Hok t). apply is_ok_Ok in Hok as [[] ->]. by apply keeps_ret.
  - destruct (validateCompleted _ _ _); [by apply keeps_ret|].
    eapply keeps_bind; [apply keeps_evolves, evolves_attempt|].
    + rewrite Hm. by apply evolves_delete_other.
    + intros [] _; apply keeps_throw.
Qed.

Lemma keeps_Complete ctx e p key' : acceptable →
  keeps (asset_Complete DefaultPolicy ctx e p key') (λ m, md_Key m = key' ∧
    (key' = key → m = asset_metadata key content type t)).
Proof.
  intros Hok. unfold asset_Complete.
  eapply keeps_bind; [apply keeps_handle, (keeps_lift _ (λ scope, ParseObjectKey key' = Ok scope)); naive_solver|].
  intros scope Hs. eapply keeps_bind; [by apply (keeps_lift _ (λ _, True))|]. intros _ _.
  eapply keeps_bind; [apply keeps_world|]. intros _ _.
  eapply keeps_bind; [apply keeps_completeObject|]. intros m [Hm Heq].
  eapply keeps_bind; [apply (keeps_publication scope m key' Hs Hm Heq Hok)|]. intros _ _. by apply keeps_ret.
Qed.
Lemma keeps_ServeHTTP request : keeps (ServeHTTP request) (λ _, True).
Proof.
  intros s w r s' w' Hs Hr%ServeHTTP_evo. split; [|done]. eapply asset_evo; [|exact Hs].
  by eapply (evo_weaken always).
Qed.

(** The answer to a GET of the asset. *)
Definition asset_reply (content type : string) : Response :=
  {| rs_Status := 200;
     rs_Headers := [("Content-Type", type); ("Content-Length", format_int (len content));
                    ("X-Content-Type-Options", "nosniff")];
     rs_Body := content |}.

Lemma asset_served request s w r s' w' : stored s → lr_Method request = "GET" →
  lr_Path request = LocalObjectPathPrefix +:+ key → ServeHTTP request s w = (r, s', w') →
  s' = s ∧ ∃ reply, r = Ok reply ∧
    (reply = asset_reply content type ∨ reply = not_found ∨ reply = server_error) ∧
    (faults w = [] → reply = asset_reply content type).
Proof.
  intros Hs Hm Hp. unfold ServeHTTP. rewrite bool_decide_false by (rewrite Hp; done).
  rewrite Hp, cut_prefix_app. unfold handleObject. rewrite Hp, cut_prefix_app, Hm. cbn [from_option id]. unfold id.
  rewrite !bool_decide_true by done. cbn [negb andb].
  rewrite attempt_bind. destruct (local_CompleteUpload key s w) as [[x s1] w1] eqn:Hc.
  apply (reads_as_asset _ _ _ _ _ Hs) in Hc as (-> & Hx & Hn). destruct x as [m|e].
  - subst m. rewrite attempt_bind.
    assert (reads_as s (openLocalObject key) (eq content)) as Hread.
    { destruct Hs as (_ & _ & Hf & _). eapply reads_as_bind.
      - apply reads_as_checked; [by right; right; eexists|done].
      - intros _ _. apply reads_as_checked; [by right; right; eexists|]. unfold os_ReadFile. by rewrite Hf. }
    destruct (openLocalObject key s w1) as [[y s2] w2] eqn:Hr. apply Hread in Hr as (-> & Hy & Hn2).
    destruct y as [c|e]; [subst c|]; intros [= <- <- <-]; (split; [done|]); eexists; (split; [done|]).
    + split; [by left|done].
    + split; [by right; left|]. intros Hw. apply Hn in Hw as [_ Hw]. by apply Hn2 in Hw as [? _].
  - destruct Hx as [->|[[msg ->]|[msg ->]]]; intros [= <- <- <-]; (split; [done|]); eexists; (split; [done|]);
      (split; [by right; right|]); intros Hw; by apply Hn in Hw as [? _].
Qed.
End keeps.

(** ** What the server does with its storage *)

Inductive storage_step : LocalStorage → LocalStorage → Prop :=
  | step_http request s w r s' w' : ServeHTTP request s w = (r, s', w') → storage_step s s'
  | step_presign ctx request s w r s' w' :
      PresignAsset ctx request s w = (r, s', w') → storage_step s s'
  | step_complete sameOrigin trusted http ctx request s w r s' w' :
      CompleteAsset sameOrigin trusted http ctx request s w = (r, s', w') → storage_step s s'.

Lemma evolves_Presign K Q ctx input : evolves K Q (asset_Presign DefaultPolicy ctx input).
Proof.
  pose proof (evolves_PresignUpload K Q) as Hp. unfold asset_Presign. cbn [PresignUpload local_storage]. evolves.
Qed.

Lemma keeps_step key content type t o s s' : ParseObjectKey key = Ok o →
  acceptable key content type o → storage_step s s' →
  asset_at s key content type t → asset_at s' key content type t.
Proof.
  intros Hk Hok Hs Ha. destruct Hs as [request s w r s' w' Hr|ctx request s w r s' w' Hr
    |sameOrigin trusted http ctx request s w r s' w' Hr].
  - by eapply keeps_ServeHTTP.
  - assert (keeps key content type t (PresignAsset ctx request) (λ _, True)) as Hm;
      [|by apply Hm in Hr as [? _]]. apply keeps_evolves.
    unfold PresignAsset. apply evolves_bind; [apply evolves_handle, evolves_Presign|]. intros. evolves.
  - assert (keeps key content type t (CompleteAsset sameOrigin trusted http ctx request) (λ _, True)) as Hm;
      [|by apply Hm in Hr as [? _]]. unfold CompleteAsset. eapply keeps_bind.
    + by apply (keeps_lift _ _ _ _ _ (λ _, True)).
    + intros origin _. eapply keeps_bind; [by apply keeps_handle, (keeps_Complete _ _ _ _ o)|].
      intros m _. by apply (keeps_ret _ _ _ _ _ (λ _, True)).
Qed.

(** The signing key never changes. *)
Lemma evolves_Delete key : evolves (λ _, False) anything (local_DeleteIncomplete key).
Proof.
  pose proof (evolves_safePath_read (λ _, False) anything) as Hp.
  assert (∀ p, evolves (λ _, False) anything (fs_call (os_Remove p))) as Hrm
    by (intros p; apply evolves_remove; tauto).
  unfold local_DeleteIncomplete, not_canceled. apply evolves_bind; [evolves|]. intros _.
  apply evolves_bind; [done|]. intros p. apply evolves_bind; [done|]. intros r1.
  apply evolves_bind; [done|]. intros r2. destruct r1 as [[]|], r2 as [[]|]; evolves.
Qed.
Lemma step_key s s' : storage_step s s' → signingKey s' = signingKey s.
Proof.
  assert (∀ A (m : LM A), evolves (λ _, False) anything m → ∀ s w r s' w', m s w = (r, s', w') →
    signingKey s' = signingKey s) as Hev.
  { intros A m Hm s1 w1 r1 s2 w2 Hr. by destruct (Hm _ _ _ _ _ I Hr) as [[Hk _] _]. }
  intros [request s1 w r s2 w' Hr|ctx request s1 w r s2 w' Hr
    |sameOrigin trusted http ctx request s1 w r s2 w' Hr].
  - by apply ServeHTTP_evo in Hr as [Hk _].
  - eapply Hev; [|exact Hr]. unfold PresignAsset.
    apply evolves_bind; [apply evolves_handle, evolves_Presign|]. intros. evolves.
  - pose proof (evolves_CompleteUpload (λ _, False) anything) as Hc. pose proof evolves_Delete as Hd.
    eapply Hev; [|exact Hr]. unfold CompleteAsset, asset_Complete, completeObject, validatePublication.
    cbn [CompleteUpload DeleteIncomplete local_storage]. evolves.
Qed.
Lemma steps_key s s' : rtc storage_step s s' → signingKey s' = signingKey s.
Proof. induction 1 as [|s s' s'' Hs _ IH]; [done|]. rewrite IH. by apply step_key. Qed.
Lemma steps_keep key content type t o s s' : ParseObjectKey key = Ok o →
  acceptable key content type o → rtc storage_step s s' →
  asset_at s key content type t → asset_at s' key content type t.
Proof.
  intros Hk Hok Hs. induction Hs as [|s s' s'' Hs _ IH]; [done|]. intros Ha. apply IH. by eapply keeps_step.
Qed.

(** ** What the policy accepts *)

Lemma key_of_inj o o' : well_scoped o → well_scoped o' → key_of o = key_of o' → o = o'.
Proof.
  intros Ho Ho' Hk. rewrite !key_of_parts in Hk. apply (f_equal (split_on "/")) in Hk.
  assert (∀ x, key_parts x ≠ []) as Hne by (intros x; unfold key_parts; by destruct (os_Temporary x)).
  rewrite !split_on_parts in Hk by (done || by apply plain_parts).
  assert (os_Temporary o = os_Temporary o' ∧ os_EnvironmentID o = os_EnvironmentID o' ∧
    os_ProjectID o = os_ProjectID o' ∧
    os_ObjectID o +:+ os_Extension o = os_ObjectID o' +:+ os_Extension o') as (Ht & He & Hp & Hn).
  { unfold key_parts in Hk. destruct (os_Temporary o), (os_Temporary o'); simplify_eq/=;
      split_and!; try done; by apply format_int_inj. }
  assert (os_Extension o = os_Extension o') as Hx.
  { pose proof (name_split o Ho) as Hs. by rewrite Hn, (name_split o' Ho') in Hs. }
  assert (os_ObjectID o = os_ObjectID o') as Hi.
  { rewrite <-(trim_suffix_app (os_ObjectID o) (os_Extension o)), Hn, Hx. apply trim_suffix_app. }
  destruct o, o'; simpl in *; by subst.
Qed.

Lemma policy_plain x types : AllowedByExt DefaultPolicy !! x = Some types →
  ∀ type, type ∈ types → count_byte "&" type = 0.
Proof.
  intros Hx%elem_of_list_to_map_2.
  assert (forallb (λ e, forallb (λ type, count_byte "&" type =? 0) e.2) default_types = true) as Hall
    by by vm_compute.
  rewrite forallb_forall in Hall. apply list_elem_of_In in Hx. apply Hall in Hx. cbn in Hx.
  rewrite forallb_forall in Hx. intros type Ht%list_elem_of_In%Hx. by bool_hyps.
Qed.

Lemma validateUpload_spec name value size x type :
  validateUpload DefaultPolicy name value size = Ok (x, type) →
  ∃ types, AllowedByExt DefaultPolicy !! x = Some types ∧ type ∈ types ∧
    ParseMediaType type = Some type ∧ to_lower type = type ∧ size ≠ 0 ∧ size ≤ MaxUploadSize.
Proof.
  unfold validateUpload. intros Hr. do 3 (apply bind_Ok in Hr as (? & _ & Hr)). cbv zeta in Hr.
  destruct (AllowedByExt _ !! _) as [types|] eqn:Hx; [|done]. apply bind_Ok in Hr as (? & Hs & Hr).
  destruct (ParseMediaType value) as [m|] eqn:Hm; [|done]. inv_ok. bool_hyps. exists types.
  apply media_type_checked in Hm. destruct (media_canonical _ Hm) as (_ & Hp & Hl).
  split_and!; try done; cbn in *; lia.
Qed.

(** What [asset_Presign] hands out a ticket for. *)
Lemma presigned_acceptable ctx input s w ticket s' w' :
  asset_Presign DefaultPolicy ctx input s w = (Ok ticket, s', w') →
  s' = s ∧ ∃ o pre claims, ParseObjectKey (ut_Key ticket) = Ok o ∧
    os_EnvironmentID o = pi_EnvironmentID input ∧ os_ProjectID o = pi_ProjectID input ∧
    ut_URL ticket = LocalUploadPath +:+ "?token=" +:+ signClaims (signingKey s) claims ∧
    lc_Key claims = ut_Key ticket ∧ lc_Size claims = pi_Size input ∧
    ut_Headers ticket = {["Content-Type" := lc_ContentType claims]} ∧
    lc_ExpiresAt claims = ut_ExpiresAt ticket / 10 ^ 9 ∧
    lc_Key claims = pu_Key pre ∧ lc_Size claims = pu_Size pre ∧
    validatePresignInput pre = Ok (lc_ContentType claims) ∧
    count_byte "&" (lc_ContentType claims) = 0 ∧
    ∀ content, len content = pi_Size input →
      acceptable (ut_Key ticket) content (lc_ContentType claims) o.
Proof.
  unfold asset_Presign. intros Hr. apply orun_bind in Hr as ([x type] & s1 & w1 & Hv & Hr).
  apply orun_lift in Hv as (Hv & <- & <-).
  apply validateUpload_spec in Hv as (types & Hx & Htype & Hp & Hlow & Hz & Hmax).
  apply orun_bind in Hr as (? & s2 & w2 & Hacc & Hr). apply orun_world in Hacc as [_ <-].
  apply orun_bind in Hr as (id & s3 & w3 & Hid & Hr). apply orun_handle, orun_world in Hid as [_ <-].
  apply orun_bind in Hr as (key & s4 & w4 & Hb & Hr). apply orun_handle, orun_lift in Hb as (Hb & <- & <-).
  apply orun_handle, presign_run in Hr as (-> & Hkey & _ & claims & Hurl & Hk & Hs & Hval & Hh & He).
  split; [done|].
  apply (buildObjectKey_spec {| os_EnvironmentID := pi_EnvironmentID input; os_ProjectID := pi_ProjectID input;
    os_ObjectID := id; os_Extension := x; os_Temporary := false |}) in Hb as (Hw & _ & ->).
  set (o := {| os_EnvironmentID := _ |}) in *.
  pose proof Hval as Hpre. unfold validatePresignInput in Hpre.
  apply bind_Ok in Hpre as (o' & Hpar & Hpre). apply bind_Ok in Hpre as (_ & _ & Hpre).
  apply bind_Ok in Hpre as (n & Hn & Hpre). apply bind_Ok in Hpre as (_ & _ & [= ->]).
  cbn [pu_Key pu_ContentType pu_Size pu_ExpiresIn] in *.
  pose proof Hpar as (Hw' & _ & _ & Hko)%ParseObjectKey_spec. apply key_of_inj in Hko as <-; [|done..].
  assert (lc_ContentType claims = type) as Hty.
  { apply (type_canonical type); [|done]. rewrite Hp. cbn. by rewrite Hlow. }
  exists o, {| pu_Key := key_of o; pu_ContentType := type; pu_Size := pi_Size input;
               pu_ExpiresIn := UploadLifetime DefaultPolicy |}, claims.
  rewrite Hkey. split_and!; try done.
  - rewrite Hty. by apply (policy_plain x types).
  - rewrite Hty. intros content Hl. split; [done|]. intros t. unfold validateCompleted. cbn [os_Extension o].
    rewrite Hx. cbn [asset_metadata md_Size md_ContentType MaxSize DefaultPolicy]. rewrite Hp, Hl.
    rewrite (proj2 (Z.eqb_neq _ _)), (proj2 (Z.ltb_ge _ _)) by done. cbn [orb guard_err mbind result_bind].
    replace (existsb (EqualFold type) types) with true; [done|]. symmetry. apply existsb_exists.
    exists type. split; [by apply list_elem_of_In|]. by apply bool_decide_eq_true.
Qed.

(** C10: the life of an asset on a server that stores its objects itself.  Once
    [AssetLogic] has issued a ticket under the server's policy, and a PUT to the
    upload path with that ticket's token is answered 204, whatever happened in
    between, the body has the declared length; and after any further sequence of
    HTTP requests and of presign and complete calls, by anyone and under any
    failures of the file system, a GET of the object's path changes nothing and
    is answered with exactly that body and the ticket's content type, or, only
    when the system fails, with an error.  (A code of HMAC-SHA256 has 32 bytes;
    the expiry is in the range of 64-bit seconds.) *)
Theorem asset_lifecycle ctx input s0 w0 ticket s1 w1 s2 put w2 reply s3 w3 s4 get w4 r s5 w5 :
  asset_Presign DefaultPolicy ctx input s0 w0 = (Ok ticket, s1, w1) →
  codes_32 → is_int64 (ut_ExpiresAt ticket / 10 ^ 9) = true → 0 ≤ pi_Size input →
  rtc storage_step s1 s2 →
  lr_Path put = LocalUploadPath →
  ut_URL ticket = LocalUploadPath +:+ "?token=" +:+ lr_Query put "token" →
  ServeHTTP put s2 w2 = (Ok reply, s3, w3) → rs_Status reply = 204 →
  rtc storage_step s3 s4 →
  lr_Method get = "GET" → lr_Path get = LocalObjectPathPrefix +:+ ut_Key ticket →
  ServeHTTP get s4 w4 = (r, s5, w5) →
  len (lr_Body put) = pi_Size input ∧ s5 = s4 ∧
  ∃ type answer, ut_Headers ticket = {["Content-Type" := type]} ∧ r = Ok answer ∧
    (answer = asset_reply (lr_Body put) type ∨ answer = not_found ∨ answer = server_error) ∧
    (faults w4 = [] → answer = asset_reply (lr_Body put) type).
Proof.
  intros Hpre Hcode He Hsize Hsteps Hpath Hurl Hput Hst Hsteps' Hm Hgp Hget.
  apply presigned_acceptable in Hpre as (-> & o & pre & claims & Ho & _ & _ & Hurl' & Hk & Hs & Hh & Hexp &
    Hpk & Hps & Hval & Hamp & Hacc).
  rewrite Hurl' in Hurl. apply (inj (String.append LocalUploadPath)), (inj (String.append "?token=")) in Hurl.
  apply upload_stores in Hput as (claims' & Hv & Hlen & Hstored); [|done..].
  rewrite <-Hurl, (steps_key _ _ Hsteps), (verify_presigned pre) in Hv by (congruence || lia).
  destruct (_ <? _) in Hv; [|done]. injection Hv as <-. rewrite Hs in Hlen. specialize (Hacc _ Hlen).
  destruct (Hstored Hamp) as [t Ha]. rewrite Hk in Ha.
  eapply steps_keep in Ha; [|done..]. split; [done|].
  destruct (asset_served _ _ _ _ _ _ _ _ _ _ Ha Hm Hgp Hget) as (-> & answer & -> & Han & Hf).
  split; [done|]. by exists (lc_ContentType claims), answer.
Qed.
End assets.

(** ** An upload *)

Import Sample SampleWorld.
#[local] Instance mac : HMAC := λ key message, fit 32 (key +:+ message).
Lemma sample_codes : codes_32.
Proof. intros key message. apply fit_length. Qed.

Definition may_write : PermissionRow :=
  {| prm_meta := record 1; prm_Key := PermissionAssetWrite; prm_Name := ""; prm_Description := "" |}.
Definition asset_world : World :=
  {| db := put_table permissions_t ({[1 := may_write]} : gmap Z PermissionRow) database;
     cache := Memory.newMemory : cstate; faults := []; clock := λ n, Z.of_nat n + 100; ticks := 0;
     entropy := λ _, "00000000-0000-0000-0000-000000000001"; drawn := 0 |}.
Definition empty_storage : LocalStorage := {| ls_files := ∅; signingKey := fit 32 "secret" |}.
Definition member_context : Context_ :=
  {| cx_principal := Some 7; cx_credential := None; cx_request_id := "r" |}.
Definition picture : PresignInput :=
  {| pi_EnvironmentID := 1; pi_ProjectID := 1; pi_Filename := "Picture.PNG";
     pi_ContentType := "image/png"; pi_Size := 5 |}.
Definition issued : result UploadTicket * LocalStorage * World :=
  asset_Presign DefaultPolicy member_context picture empty_storage asset_world.
Definition ticket : UploadTicket :=
  match issued.1.1 with
  | Ok t => t
  | Er _ => {| ut_Key := ""; ut_URL := ""; ut_Method := ""; ut_Headers := ∅; ut_FormFields := ∅;
               ut_ExpiresAt := 0 |}
  end.
Definition asset_request (method path body : string) : LocalRequest :=
  {| lr_Method := method; lr_Path := path;
     lr_Header name := if decide (name = "Content-Type") then "image/png" else "";
     lr_Query _ := default "" (cut_prefix (LocalUploadPath +:+ "?token=") (ut_URL ticket));
     lr_ContentLength := len body; lr_Body := body |}.
Definition put_picture : LocalRequest := asset_request "PUT" LocalUploadPath "image".
Definition stored_picture : result Response * LocalStorage * World :=
  ServeHTTP put_picture issued.1.2 issued.2.
(** A second upload with the same ticket is refused. *)
Definition again : result Response * LocalStorage * World :=
  ServeHTTP (asset_request "PUT" LocalUploadPath "other") stored_picture.1.2 stored_picture.2.
Definition get_picture : LocalRequest :=
  asset_request "GET" (LocalObjectPathPrefix +:+ ut_Key ticket) "".

Lemma run3 {A B C} (x : A * B * C) : x = (x.1.1, x.1.2, x.2).
Proof. by destruct x as [[]]. Qed.
Lemma run_of {A} (x : result A * LocalStorage * World) a : x.1.1 = a → x = (a, x.1.2, x.2).
Proof. intros <-. apply run3. Qed.
Lemma stored_run : ServeHTTP put_picture issued.1.2 issued.2 =
  (stored_picture.1.1, stored_picture.1.2, stored_picture.2).
Proof. change (ServeHTTP put_picture issued.1.2 issued.2) with stored_picture. apply run3. Qed.
Lemma again_step : storage_step stored_picture.1.2 again.1.2.
Proof.
  apply (step_http (asset_request "PUT" LocalUploadPath "other") _ stored_picture.2 again.1.1 _ again.2).
  change (ServeHTTP (asset_request "PUT" LocalUploadPath "other") stored_picture.1.2 stored_picture.2) with again.
  apply run3.
Qed.

Definition presign_picture : PresignUploadInput :=
  {| pu_Key := ut_Key ticket; pu_ContentType := "Image/PNG"; pu_Size := 5; pu_ExpiresIn := DefaultUploadTTL |}.
Definition presigned : result UploadTicket * LocalStorage * World :=
  local_PresignUpload presign_picture empty_storage asset_world.

Lemma tickets_verify_witness : ∃ t token claims, presigned.1.1 = Ok t ∧
  ut_URL t = LocalUploadPath +:+ "?token=" +:+ token ∧
  normalizeContentType "Image/PNG" = Ok (lc_ContentType claims) ∧
  verifyToken (signingKey empty_storage) 0 token = Ok claims.
Proof.
  destruct presigned.1.1 as [t|e] eqn:Hr; [|vm_compute in Hr; discriminate Hr].
  assert (ut_ExpiresAt t = 900000000100) as Ht by (vm_compute in Hr; injection Hr as <-; reflexivity).
  destruct (tickets_verify presign_picture _ _ _ _ _ (run_of presigned _ Hr) sample_codes
    ltac:(vm_compute; discriminate) ltac:(rewrite Ht; vm_compute; reflexivity))
    as (_ & _ & claims & token & Hu & _ & _ & Hn & _ & Hv).
  exists t, token, claims. split; [reflexivity|]. split; [exact Hu|]. split; [exact Hn|].
  assert (normalizeContentType (pu_ContentType presign_picture) = Ok "image/png") as Hpng
    by (vm_compute; reflexivity).
  rewrite Hpng in Hn. injection Hn as Hn. rewrite Hv, Ht; [reflexivity|]. rewrite <-Hn. reflexivity.
Defined.

Lemma uploads_need_tickets_witness : ∃ claims,
  uploads (signingKey empty_storage) (clock issued.2 (ticks issued.2)) put_picture claims ∧
  lc_Key claims = ut_Key ticket ∧ lc_Size claims = 5.
Proof.
  destruct (uploads_need_tickets put_picture issued.1.2 issued.2 stored_picture.1.1 stored_picture.1.2
    stored_picture.2 stored_run)
    as (_ & _ & Hf).
  destruct (ParseObjectKey (ut_Key ticket)) as [o|e] eqn:Ho; [|vm_compute in Ho; discriminate Ho].
  destruct (ls_files stored_picture.1.2 !! ut_Key ticket) as [[|c t|]|] eqn:Hp;
    try (vm_compute in Hp; discriminate Hp).
  destruct (Hf _ _ _ _ Ho Hp) as [Hn|(claims & Hu & Hk & Hc & Hs)]; [vm_compute in Hn; discriminate Hn|].
  exists claims. split; [exact Hu|]. split; [symmetry; exact Hk|]. rewrite <-Hs, Hc. reflexivity.
Defined.

Lemma asset_lifecycle_witness :
  (ServeHTTP get_picture again.1.2 again.2).1.1 = Ok (asset_reply "image" "image/png").
Proof.
  pose (got := ServeHTTP get_picture again.1.2 again.2).
  destruct (stored_picture.1.1) as [reply|e] eqn:Hs; [|vm_compute in Hs; discriminate Hs].
  destruct (asset_lifecycle member_context picture empty_storage asset_world ticket issued.1.2 issued.2
    issued.1.2 put_picture issued.2 reply stored_picture.1.2 stored_picture.2 again.1.2 get_picture again.2
    got.1.1 got.1.2 got.2) as (_ & _ & type & answer & Ht & Ha & _ & Hf).
  - apply (run_of issued). vm_compute. reflexivity.
  - exact sample_codes.
  - vm_compute. reflexivity.
  - vm_compute. discriminate.
  - apply rtc_refl.
  - reflexivity.
  - vm_compute. reflexivity.
  - rewrite <-Hs. exact stored_run.
  - vm_compute in Hs. injection Hs as <-. reflexivity.
  - apply rtc_once, again_step.
  - reflexivity.
  - reflexivity.
  - change (ServeHTTP get_picture again.1.2 again.2) with got. apply run3.
  - fold got. rewrite Ha, Hf by (vm_compute; reflexivity). f_equal. f_equal.
    apply (f_equal (lookup "Content-Type")) in Ht. rewrite lookup_singleton_eq in Ht.
    vm_compute in Ht. injection Ht as <-. reflexivity.
Defined.

Lemma asset_world_secure : Secure asset_world.
Proof.
  destruct sample_secure as [[? ? ? ?] _ _ _]. split; [by split|..].
  - intros k p Hp.
    change (rows (permissions (db asset_world))) with ({[1 := may_write]} : gmap Z PermissionRow) in Hp.
    apply lookup_singleton_Some in Hp as [_ <-]. vm_compute. reflexivity.
  - intros u e v x env Hh. exfalso. destruct Hh as (y & Hy & _). discriminate Hy.
  - intros u e v x Hh. exfalso. destruct Hh as (y & Hy & _). discriminate Hy.
Qed.

Definition picture_request : PresignAssetRequest :=
  {| PresignAsset_EnvironmentId := 1; PresignAsset_ProjectId := 1; PresignAsset_Filename := "Picture.PNG";
     PresignAsset_ContentType := "image/png"; PresignAsset_Size := 5 |}.
Lemma assets_authorised_witness :
  may_write_assets member_context 1 1 (db asset_world).
Proof.
  destruct (assets_authorised asset_world asset_world (PresignAsset member_context picture_request) _
    empty_storage _ _ _ (rtc_refl _ _) asset_world_secure (need_PresignAsset _ _) (run3 _)) as [H|[[e He] _]];
    [exact H|exfalso; vm_compute in He; discriminate He].
Defined.

Definition completed : result Metadata * LocalStorage * World :=
  asset_Complete DefaultPolicy member_context 1 1 (ut_Key ticket) again.1.2 again.2.
Lemma completed_assets_conform_witness : ∃ metadata published, completed.1.1 = Ok metadata ∧
  ParseObjectKey (md_Key metadata) = Ok published ∧ os_Extension published = ".png".
Proof.
  destruct completed.1.1 as [m|e] eqn:Hr; [|vm_compute in Hr; discriminate Hr].
  assert (asset_Complete DefaultPolicy member_context 1 1 (ut_Key ticket) again.1.2 again.2
    = (Ok m, completed.1.2, completed.2)) as Hc.
  { change (asset_Complete DefaultPolicy member_context 1 1 (ut_Key ticket) again.1.2 again.2) with completed.
    by apply run_of. }
  destruct (completed_assets_conform _ _ _ _ _ _ _ _ _ _ Hc)
    as (scope & published & _ & _ & _ & Hs & _ & _ & Hp & _ & _ & _ & Hx & _).
  exists m, published. split; [reflexivity|]. split; [exact Hp|]. rewrite Hx.
  assert (ParseObjectKey (ut_Key ticket) = Ok {| os_EnvironmentID := 1; os_ProjectID := 1;
    os_ObjectID := "00000000-0000-0000-0000-000000000001"; os_Extension := ".png"; os_Temporary := false |})
    as Hq by (vm_compute; reflexivity).
  rewrite Hq in Hs. injection Hs as <-. reflexivity.
Defined.
