(* ===== verification/S3Spec.v ===== *)
(** Assets in an S3-compatible store.  The store is described by laws of the
    client's calls over a map from buckets and keys to objects; between any two
    calls, browsers may store what they like under temporary keys.  An object
    under a published key never changes, and what is published is the content
    of the upload that was checked.  And what a server can do with a configuration
    it has accepted. *)

From S2P Require Import Prelude GoStd Util Json GoStrings Netip Codec CodecLaws Schema Engine Model Cache Convert Requests World WorldLaws RepoScope Permission RepoProject LogicBase Credential Password Jwt LogicAuth CredentialLaws Middleware Browser ObjectStore Service Assets LocalStore Config S3Store SchemaSpec SampleWorld CodecSpec ObjectKeySpec LocalSpec AssetSpec.
From Stdlib Require Import Ascii.

Local Open Scope Z_scope.

(** ** The store *)

Record S3Object := {
  so_Content : string;
  so_ETag : string;
  so_ContentType : string;
  so_Metadata : gmap string string;
}.
(** By bucket and key. *)
Notation Objects := (gmap (string * string) S3Object).

Section laws.
Context `{Engine} `{Collation} `{Store} `{UnicodeLower} `{UUIDLib}.

Definition temporary_key (key : string) : Prop :=
  ∃ o, ParseObjectKey key = Ok o ∧ os_Temporary o = true.

(** What browsers change: their tickets are for temporary keys. *)
Definition posts (m m' : Objects) : Prop :=
  ∀ b k, ¬ temporary_key k → m' !! (b, k) = m !! (b, k).
#[export] Instance posts_refl : Reflexive posts.
Proof. by intros m b k. Qed.
#[export] Instance posts_trans : Transitive posts.
Proof. intros m1 m2 m3 H12 H23 b k Hk. by rewrite H23, H12. Qed.

(** An object written with [options] from what is at [from], where an entity
    tag may be asked for. *)
Definition puts (m : Objects) (from : string * string * option string) (at_ : string * string)
    (options : PutObjectOptions) (o : S3Object) : Prop :=
  (po_MatchETagExcept options = "*" → m !! at_ = None) ∧
  so_ContentType o = po_ContentType options ∧ so_Metadata o = po_UserMetadata options ∧
  ∃ version, m !! from.1 = Some version ∧ (∀ etag, from.2 = Some etag → so_ETag version = etag) ∧
    so_Content o = so_Content version.

(** What a HEAD request answers of an object. *)
Record described (info : ObjectInfo) (o : S3Object) : Prop := {
  desc_etag : oi_ETag info = so_ETag o;
  desc_size : oi_Size info = len (so_Content o);
  desc_type : oi_ContentType info = so_ContentType o;
  desc_metadata : oi_UserMetadata info ≡ₚ map_to_list (so_Metadata o);
}.

(** The documented behaviour of the calls.  An entity tag identifies a version
    of an object; a call that fails may have had its effect. *)
Class S3Laws {S : Type} (C : S3Client S) := {
  objects : S → Objects;
  matches : GetObjectOptions → option string;
  reads_from : Reader → string * string * option string;
  version : string → string → string → string;
  objects_tagged s b k o : objects s !! (b, k) = Some o → so_Content o = version b k (so_ETag o);
  set_law etag options : SetMatchETag etag NoGetOptions = inr options → matches options = Some etag;
  policy_law policy s w r s' w' : PresignedPostPolicy policy s w = (r, s', w') →
    posts (objects s) (objects s');
  exists_law b s w r s' w' : BucketExists b s w = (r, s', w') → posts (objects s) (objects s');
  stat_law b k s w r s' w' : StatObject b k s w = (r, s', w') →
    posts (objects s) (objects s') ∧
    ∀ info, r = inr info → oi_Size info ≤ max_int64 ∧
      ∃ seen o, posts (objects s) (objects seen) ∧ posts (objects seen) (objects s') ∧
        objects seen !! (b, k) = Some o ∧ described info o;
  get_law b k options s w r s' w' : GetObject b k options s w = (r, s', w') →
    posts (objects s) (objects s') ∧
    ∀ reader, r = inr reader → reads_from reader = (b, k, matches options);
  put_law b k reader size options s w r s' w' : PutObject b k reader size options s w = (r, s', w') →
    ∃ s1 m', posts (objects s) (objects s1) ∧ posts m' (objects s') ∧
      ((∃ e, r = inl e) ∧ m' = objects s1 ∨
       ∃ o, puts (objects s1) (reads_from reader) (b, k) options o ∧
         m' = <[(b, k) := o]> (objects s1) ∧ ∀ info, r = inr info → ui_ETag info = so_ETag o);
  remove_law b k s w r s' w' : RemoveObject b k s w = (r, s', w') →
    ∃ m m', posts (objects s) m ∧ posts m' (objects s') ∧ (m' = m ∨ m' = delete (b, k) m);
}.
End laws.

(** ** Runs that preserve a property of the storage *)

Section preserves.
Context `{Engine} `{Collation} `{Store} {S : Type} (I : S → Prop).

Definition preserves {A} (m : OM S A) (Q : A → Prop) : Prop :=
  ∀ s w r s' w', I s → m s w = (r, s', w') → I s' ∧ ∀ a, r = Ok a → Q a.

Lemma preserves_bind {A B} (m : OM S A) R (k : A → OM S B) Q :
  preserves m R → (∀ a, R a → preserves (k a) Q) → preserves (m ≫= k) Q.
Proof.
  intros Hm Hk s w r s' w' HI. unfold mbind, OM_bind. destruct (m s w) as [[[a|e] s1] w1] eqn:Hr.
  - apply Hm in Hr as [HI1 HR]; [|done]. by apply (Hk a (HR _ eq_refl)).
  - intros [= <- <- <-]. by apply Hm in Hr as [? _].
Qed.
Lemma preserves_throw {A} e (Q : A → Prop) : preserves (o_throw e) Q.
Proof. by intros s w r s' w' HI [= <- <- <-]. Qed.
Lemma preserves_ret {A} (a : A) (Q : A → Prop) : Q a → preserves (mret a) Q.
Proof. intros HQ s w r s' w' HI [= <- <- <-]. split; [done|]. by intros b [= <-]. Qed.
Lemma preserves_lift {A} (x : result A) (Q : A → Prop) : (∀ a, x = Ok a → Q a) → preserves (o_lift x) Q.
Proof. intros HQ s w r s' w' HI [= <- <- <-]. auto. Qed.
Lemma preserves_world {A} (m : M A) : preserves (on_world m) (λ _, True).
Proof. intros s w r s' w' HI. unfold on_world. destruct (m w). by intros [= _ <- _]. Qed.
Lemma preserves_handle {A} h (m : OM S A) Q : preserves m Q → preserves (o_handle h m) Q.
Proof.
  intros Hm s w r s' w' HI. unfold o_handle. destruct (m s w) as [[[a|e] s1] w1] eqn:Hr;
    intros [= <- <- <-]; by apply Hm in Hr as [? ?].
Qed.
Lemma preserves_attempt {A} (m : OM S A) Q : preserves m Q → preserves (o_attempt m) (λ x, ∀ a, x = Ok a → Q a).
Proof.
  intros Hm s w r s' w' HI. unfold o_attempt. destruct (m s w) as [[x s1] w1] eqn:Hr.
  intros [= <- <- <-]. apply Hm in Hr as [? ?]; [|done]. split; [done|]. by intros y [= <-].
Qed.
Lemma preserves_weaken {A} (m : OM S A) (R Q : A → Prop) :
  (∀ a, R a → Q a) → preserves m R → preserves m Q.
Proof. intros HQ Hm s w r s' w' HI Hr. apply Hm in Hr as [? ?]; [|done]. split; auto. Qed.
End preserves.

(** Binds and calls whose results do not matter. *)
Ltac preserving :=
  repeat match goal with
  | H : preserves _ ?m _ |- preserves _ ?m _ => exact H
  | |- preserves _ (_ ≫= _) _ => eapply (preserves_bind _ _ (λ _, True))
  | |- preserves _ (o_lift _) _ => by apply (preserves_lift _ _ (λ _, True))
  | |- preserves _ (o_throw _) _ => apply preserves_throw
  | |- preserves _ (mret _) _ => by apply (preserves_ret _ _ (λ _, True))
  | |- preserves _ (on_world _) _ => apply preserves_world
  | |- preserves _ (o_handle _ _) _ => apply preserves_handle
  | |- ∀ _, _ → preserves _ _ _ => intros ? _
  end.

Section s3.
Context `{Engine} `{Collation} {St : Store} {UL : UnicodeLower} {U : UUIDLib} {UU : UUIDLaws U} `{!Authorizer}
  {S : Type} {C : S3Client S} {L : S3Laws C} (s3 : S3Storage).
#[local] Instance here : ObjectStorage S := s3_storage s3.

Definition final_of (o : ObjectScope) : ObjectScope :=
  {| os_EnvironmentID := os_EnvironmentID o; os_ProjectID := os_ProjectID o;
     os_ObjectID := os_ObjectID o; os_Extension := os_Extension o; os_Temporary := false |}.

Lemma key_not_temporary key o : ParseObjectKey key = Ok o → os_Temporary o = false → ¬ temporary_key key.
Proof. intros Hp Ho (o' & Hp' & Ho'). congruence. Qed.
(** Building the final key of a temporary one. *)
Lemma final_key key o final : ParseObjectKey key = Ok o →
  BuildObjectKey (os_EnvironmentID o) (os_ProjectID o) (os_ObjectID o) (os_Extension o) = Ok final →
  ParseObjectKey final = Ok (final_of o).
Proof.
  intros (Hw & Hi & Hl & Hk)%ParseObjectKey_spec Hb.
  apply (buildObjectKey_spec (final_of o)) in Hb as (Hw' & _ & ->).
  apply ParseObjectKey_spec. split_and!; [done|done| |done]. subst key.
  revert Hl. unfold key_of, object_key. cbn [final_of os_Temporary os_EnvironmentID os_ProjectID os_ObjectID os_Extension].
  destruct (os_Temporary o); [|done]. unfold len. simpl. lia.
Qed.

(** *** A published object stays *)

Section stays.
Variables (b key : string) (o : S3Object).
Hypothesis (Hfinal : ¬ temporary_key key).
Notation stored := (λ s : S, objects s !! (b, key) = Some o).

Lemma posts_stored (m m' : Objects) : posts m m' → m !! (b, key) = Some o → m' !! (b, key) = Some o.
Proof. intros Hp Hm. by rewrite Hp. Qed.

Lemma preserves_call {A} operation (c : Call S A) :
  (∀ s w r s' w', c s w = (r, s', w') → posts (objects s) (objects s')) →
  preserves stored (s3_call operation c) (λ _, True).
Proof.
  intros Hc s w r s' w' HI. unfold s3_call. destruct (c s w) as [[x s1] w1] eqn:Hr.
  intros [= <- <- <-]. split; [|done]. by eapply posts_stored; [eapply Hc|].
Qed.
Lemma stored_remove k s s' w w' r : (bucket s3, k) ≠ (b, key) →
  RemoveObject (bucket s3) k s w = (r, s', w') → stored s → stored s'.
Proof.
  intros Hne (m & m' & Hp1 & Hp2 & Hm)%remove_law Hs. eapply posts_stored; [exact Hp2|].
  apply (posts_stored _ m) in Hs; [|done]. destruct Hm as [-> | ->]; [done|]. by rewrite lookup_delete_ne.
Qed.
Lemma preserves_ReadMetadata k : preserves stored (s3_ReadMetadata s3 k) (λ _, True).
Proof.
  assert (preserves stored (s3_call "read S3 object metadata" (StatObject (bucket s3) k)) (λ _, True))
    by (apply preserves_call; intros ? ? ? ? ? [? _]%stat_law; done).
  unfold s3_ReadMetadata. preserving.
Qed.
Lemma preserves_publish k finalKey metadata : (bucket s3, k) ≠ (b, key) →
  preserves stored (publish s3 k finalKey metadata)
    (λ m, md_Key m = finalKey ∧ (bucket s3, finalKey) ≠ (b, key)).
Proof.
  intros Hne. unfold publish. eapply (preserves_bind _ _ (λ _, True)).
  { apply preserves_call. intros s w r s' w'. unfold OpenObject. destruct (SetMatchETag _ _);
      [by intros [= <- <- <-]|]. by intros [? _]%get_law. }
  intros source _. eapply (preserves_bind _ _ (λ _, True)); [preserving|]. intros size _.
  eapply (preserves_bind _ _ (λ _, (bucket s3, finalKey) ≠ (b, key))).
  { intros s w r s' w' HI. unfold s3_call, PutObjectIfAbsent. cbn [ow_Bucket ow_Key ow_Source].
    destruct (PutObject _ _ _ _ _ s w) as [[x s1] w1] eqn:Hr. intros [= <- <- <-].
    apply put_law in Hr as (s2 & m' & Hp1 & Hp2 & Hm). apply (posts_stored _ (objects s2)) in HI; [|done].
    destruct Hm as [[[e ->] ->]|(o' & [Habs _] & -> & _)].
    - split; [by eapply posts_stored|done].
    - assert ((bucket s3, finalKey) ≠ (b, key)) as Hk by (intros Hk; rewrite <-Hk, Habs in HI; done).
      split; [|done]. eapply posts_stored; [exact Hp2|]. by rewrite lookup_insert_ne. }
  intros info Hk. cbv beta in Hk. eapply (preserves_bind _ _ (λ _, True)).
  { intros s w r s' w' HI. unfold s3_ignored. destruct (RemoveObject _ _ _ _) as [[x s1] w1] eqn:Hr.
    intros [= <- <- <-]. split; [|done]. exact (stored_remove _ _ _ _ _ _ Hne Hr HI). }
  intros _ _. by apply preserves_ret.
Qed.
Lemma temporary_ne k : temporary_key k → (bucket s3, k) ≠ (b, key).
Proof. intros Hk [= _ <-]. done. Qed.
Lemma preserves_CompleteUpload k scope : ParseObjectKey k = Ok scope →
  preserves stored (s3_CompleteUpload s3 k) (λ m, (bucket s3, md_Key m) ≠ (b, key)).
Proof.
  intros Hk. pose proof (preserves_ReadMetadata k). unfold s3_CompleteUpload. rewrite Hk.
  eapply preserves_bind; [apply (preserves_lift _ _ (λ x, x = scope)); by intros ? [= ->]|]. intros ? ->.
  eapply preserves_bind; [apply (preserves_lift _ _ (λ _, os_Temporary scope = true))|].
  { intros ? Hg%guard_err_Ok. by apply negb_false_iff in Hg. }
  intros ? Ht. preserving. eapply preserves_weaken; [|apply preserves_publish, temporary_ne; by exists scope].
  by intros m [-> ?].
Qed.
Lemma preserves_DeleteIncomplete k : (bucket s3, k) ≠ (b, key) →
  preserves stored (s3_DeleteIncomplete s3 k) (λ _, True).
Proof.
  intros Hne. unfold s3_DeleteIncomplete. eapply preserves_bind; [by apply (preserves_lift _ _ (λ _, True))|].
  intros _ _ s w r s' w' HI. unfold s3_call. destruct (RemoveObject _ _ _ _) as [[x s1] w1] eqn:Hr.
  intros [= <- <- <-]. split; [|done]. exact (stored_remove _ _ _ _ _ _ Hne Hr HI).
Qed.
Lemma preserves_completeObject k scope : ParseObjectKey k = Ok scope →
  preserves stored (completeObject k) (λ m, (bucket s3, md_Key m) ≠ (b, key)).
Proof.
  intros Hk. pose proof (preserves_CompleteUpload k scope Hk) as Hc. unfold completeObject.
  destruct (os_Temporary scope) eqn:Ht.
  - assert (preserves stored (s3_DeleteIncomplete s3 k) (λ _, True))
      by (apply preserves_DeleteIncomplete, temporary_ne; by exists scope).
    eapply preserves_bind; [by apply preserves_attempt|]. intros [m|e] Hm; [by apply preserves_ret, Hm|].
    repeat case_match; try apply preserves_throw. eapply preserves_bind; [by apply preserves_attempt|].
    intros [] _; apply preserves_throw.
  - intros s w r s' w' HI. rewrite attempt_bind. cbn [CompleteUpload here s3_storage]. unfold s3_CompleteUpload.
    rewrite Hk. unfold mbind, OM_bind, o_lift. cbn [guard_err negb]. rewrite Ht. by intros [= <- <- <-].
Qed.
Lemma preserves_Complete policy ctx e p k :
  preserves stored (asset_Complete policy ctx e p k) (λ _, True).
Proof.
  unfold asset_Complete. eapply preserves_bind.
  { apply preserves_handle, (preserves_lift _ _ (λ scope, ParseObjectKey k = Ok scope)). auto. }
  intros scope Hk. do 2 (eapply (preserves_bind _ _ (λ _, True)); [preserving|intros ? _]).
  eapply preserves_bind; [exact (preserves_completeObject k scope Hk)|]. intros m Hm.
  pose proof (preserves_DeleteIncomplete _ Hm). eapply preserves_bind.
  - unfold validatePublication. eapply preserves_bind; [by apply (preserves_lift _ _ (λ _, True))|].
    intros _ _. destruct (validateCompleted _ _ _); [by apply (preserves_ret _ _ (λ _, True))|].
    eapply preserves_bind; [by apply preserves_attempt|]. intros [] _; apply preserves_throw.
  - intros _ _. by apply preserves_ret.
Qed.
Lemma preserves_Presign ctx input : preserves stored (asset_Presign DefaultPolicy ctx input) (λ _, True).
Proof.
  assert (∀ policy, preserves stored (s3_call "presign S3 upload" (PresignedPostPolicy policy)) (λ _, True))
    as Hp by (intros policy; apply preserves_call, policy_law).
  unfold asset_Presign. eapply (preserves_bind _ _ (λ _, True)); [preserving|]. intros [x type] _.
  preserving. cbn [PresignUpload here s3_storage]. unfold s3_PresignUpload. preserving. apply Hp.
Qed.
Lemma preserves_PresignAsset ctx request : preserves stored (PresignAsset ctx request) (λ _, True).
Proof.
  pose proof (preserves_Presign ctx). unfold PresignAsset.
  eapply (preserves_bind _ _ (λ _, True)); [by apply preserves_handle|].
  intros x _. by apply (preserves_ret _ _ (λ _, True)).
Qed.
Lemma preserves_CompleteAsset sameOrigin trusted http ctx request :
  preserves stored (CompleteAsset sameOrigin trusted http ctx request) (λ _, True).
Proof.
  pose proof (preserves_Complete DefaultPolicy ctx). unfold CompleteAsset.
  eapply (preserves_bind _ _ (λ _, True)); [preserving|]. intros origin _.
  eapply (preserves_bind _ _ (λ _, True)); [by apply preserves_handle|].
  intros x _. by apply (preserves_ret _ _ (λ _, True)).
Qed.
End stays.

(** ** What the servers and the browsers do with the store *)

Inductive s3_step : S → S → Prop :=
  | s3_presign ctx request s w r s' w' : PresignAsset ctx request s w = (r, s', w') → s3_step s s'
  | s3_complete sameOrigin trusted http ctx request s w r s' w' :
      CompleteAsset sameOrigin trusted http ctx request s w = (r, s', w') → s3_step s s'
  | s3_post s s' : posts (objects s) (objects s') → s3_step s s'.

Lemma s3_steps_keep b key o s s' : ¬ temporary_key key → rtc s3_step s s' →
  objects s !! (b, key) = Some o → objects s' !! (b, key) = Some o.
Proof.
  intros Hk Hs. induction Hs as [|s s1 s2 Hs _ IH]; [done|]. intros Ho. apply IH. clear IH. destruct Hs
    as [ctx request s w r s' w' Hr|sameOrigin trusted http ctx request s w r s' w' Hr|s s' Hp].
  - by apply (preserves_PresignAsset b key o Hk) in Hr as [? _].
  - by apply (preserves_CompleteAsset b key o Hk) in Hr as [? _].
  - by rewrite Hp.
Qed.

(** C12: published assets in S3 are immutable.  Whatever any sequence of requests
    for tickets and to complete uploads, by anyone, failing or not, and of
    uploads by browsers under the temporary keys that tickets are for, an object
    stored under a final key stays there as it is: it is neither replaced nor
    removed. *)
Theorem s3_assets_immutable key scope b o s s' :
  ParseObjectKey key = Ok scope → os_Temporary scope = false → rtc s3_step s s' →
  objects s !! (b, key) = Some o → objects s' !! (b, key) = Some o.
Proof. intros Hp Ht. apply s3_steps_keep. by eapply key_not_temporary. Qed.

(** *** What is published *)

Lemma run_s3_call {A} operation (c : Call S A) s w a s' w' :
  s3_call operation c s w = (Ok a, s', w') ↔ c s w = (inr a, s', w').
Proof. unfold s3_call. destruct (c s w) as [[[e|x] s1] w1]; naive_solver. Qed.

(** The object a check saw at [key], and what the check read of it. *)
Record seen_upload (key : string) (s s1 : S) (info : ObjectInfo) (upload : S3Object) : Prop := {
  seen_answer : ∃ w w1, StatObject (bucket s3) key s w = (inr info, s1, w1);
  seen_object : ∃ seen, posts (objects s) (objects seen) ∧ posts (objects seen) (objects s1) ∧
    objects seen !! (bucket s3, key) = Some upload;
  seen_described : described info upload;
}.
(** The size and the type that the uploader declared in signed form fields are
    those of the object. *)
Definition as_declared (info : ObjectInfo) (size : Z) (type : string) : Prop :=
  oi_Size info = size ∧ normalizeContentType (oi_ContentType info) = Ok type ∧
  parse_uint64 (metadataValue (oi_UserMetadata info) declaredSizeHeader) = Some size ∧
  normalizeContentType (metadataValue (oi_UserMetadata info) declaredContentTypeHeader) = Ok type.

Lemma read_run k s w m s' w' : s3_ReadMetadata s3 k s w = (Ok m, s', w') →
  posts (objects s) (objects s') ∧ md_Key m = k ∧
  ∃ info upload, seen_upload k s s' info upload ∧ md_ETag m = oi_ETag info ∧ md_Size m = oi_Size info ∧
    md_ContentType m = oi_ContentType info ∧
    parse_uint64 (metadataValue (oi_UserMetadata info) declaredSizeHeader) = Some (md_DeclaredSize m) ∧
    metadataValue (oi_UserMetadata info) declaredContentTypeHeader = md_DeclaredContentType m.
Proof.
  unfold s3_ReadMetadata. cbv zeta. intros Hr. inv_orun.
  match goal with Hc : s3_call _ _ _ _ = (Ok ?i, _, _) |- _ => rename Hc into Hs, i into info end.
  apply run_s3_call in Hs. pose proof Hs as Hans. apply stat_law in Hs as [Hp Hi].
  destruct (Hi _ eq_refl) as (Hm & seen & upload & Hp1 & Hp2 & Hu & Hd).
  split; [done|]. split; [done|]. exists info, upload. split; [split; eauto|]. cbn [md_ETag md_Size md_ContentType
    md_DeclaredSize md_DeclaredContentType].
  match goal with Hu : Safeint.Uint64FromInt64 _ = Ok _ |- _ => unfold Safeint.Uint64FromInt64 in Hu;
    destruct (Z.ltb_spec (oi_Size info) 0); [done|]; injection Hu as <- end.
  split_and!; try done.
  - apply Safeint.uint64_id. unfold Safeint.unsigned, max_int64 in *. lia.
  - match goal with Hx : of_option _ ?x = Ok _ |- _ => by destruct x as [?|]; [injection Hx as ->|done] end.
Qed.
Lemma completed_metadata m m' : validateCompletedMetadata m = Ok m' →
  md_Key m' = md_Key m ∧ md_ETag m' = md_ETag m ∧ md_Size m' = md_Size m ∧
  md_DeclaredSize m' = md_Size m ∧ md_DeclaredContentType m' = md_ContentType m' ∧
  md_DeclaredSize m = md_Size m ∧
  normalizeContentType (md_ContentType m) = Ok (md_ContentType m') ∧
  normalizeContentType (md_DeclaredContentType m) = Ok (md_ContentType m').
Proof.
  unfold validateCompletedMetadata. intros (? & Hg & Hr)%bind_Ok. apply guard_err_Ok in Hg. bool_hyps.
  destruct (normalizeContentType _) as [t|]; [|done]. destruct (normalizeContentType _) as [t'|]; [|done].
  apply bind_Ok in Hr as (? & Ht & [= <-]). apply guard_err_Ok in Ht. bool_hyps. subst. cbn. split_and!; done || lia.
Qed.

Lemma s3_publish_run k final metadata s w m s' w' : temporary_key k → ¬ temporary_key final →
  publish s3 k final metadata s w = (Ok m, s', w') →
  objects s !! (bucket s3, final) = None ∧
  md_Key m = final ∧ md_URL m = publicURL s3 final ∧ md_ContentType m = md_ContentType metadata ∧
  md_Size m = md_Size metadata ∧ md_DeclaredSize m = md_DeclaredSize metadata ∧
  md_DeclaredContentType m = md_DeclaredContentType metadata ∧
  ∃ o, objects s' !! (bucket s3, final) = Some o ∧ so_ETag o = md_ETag m ∧
    so_Content o = version (bucket s3) k (md_ETag metadata) ∧ so_ContentType o = md_ContentType metadata.
Proof.
  intros Hk Hf. unfold publish, OpenObject, PutObjectIfAbsent. intros Hr.
  apply orun_bind in Hr as (source & s1 & w1 & Hget & Hr). apply run_s3_call in Hget.
  destruct (SetMatchETag _ _) as [|options] eqn:Hset; [done|]. apply get_law in Hget as [Hp1 Hsrc].
  apply set_law in Hset. specialize (Hsrc _ eq_refl). rewrite Hset in Hsrc.
  apply orun_bind in Hr as (size & ? & ? & Hsz & Hr). apply orun_handle, orun_lift in Hsz as (_ & <- & <-).
  apply orun_bind in Hr as (info & s2 & w2 & Hput & Hr). apply run_s3_call, put_law in Hput
    as (s3' & m' & Hp2 & Hp3 & [[[e He] _]|(o & Hputs & -> & Htag)]); [done|].
  cbn [ow_Bucket ow_Key ow_Source ow_Size ow_ContentType ow_Metadata] in *. rewrite Hsrc in Hputs.
  destruct Hputs as (Habs & Htype & _ & v & Hv & Hve & Hc). cbn [fst snd po_MatchETagExcept po_ContentType] in *.
  apply orun_bind in Hr as ([] & s4 & w4 & Hrm & Hr). apply orun_ret in Hr as (<- & -> & ->).
  cbn [md_Key md_URL md_ContentType md_Size md_DeclaredSize md_DeclaredContentType md_ETag].
  split; [rewrite <-(Hp1 _ _ Hf), <-(Hp2 _ _ Hf); by apply Habs|]. do 6 (split; [done|]).
  exists o. rewrite (Htag _ eq_refl), Hc, (objects_tagged _ _ _ _ Hv), (Hve _ eq_refl).
  split; [|done]. unfold s3_ignored in Hrm. destruct (RemoveObject _ _ _ _) as [[x s5] w5] eqn:Hrem.
  injection Hrm as <- <-. eapply (stored_remove _ final o Hf); [|exact Hrem|].
  - by apply temporary_ne.
  - rewrite <-(lookup_insert_eq (objects s3') (bucket s3, final) o). by apply Hp3.
Qed.

Lemma complete_run key s w m s' w' : s3_CompleteUpload s3 key s w = (Ok m, s', w') →
  ∃ scope s1 info upload o, ParseObjectKey key = Ok scope ∧ os_Temporary scope = true ∧
    ParseObjectKey (md_Key m) = Ok (final_of scope) ∧ md_URL m = publicURL s3 (md_Key m) ∧
    seen_upload key s s1 info upload ∧ as_declared info (md_Size m) (md_ContentType m) ∧
    md_DeclaredSize m = md_Size m ∧ md_DeclaredContentType m = md_ContentType m ∧
    objects s !! (bucket s3, md_Key m) = None ∧ objects s' !! (bucket s3, md_Key m) = Some o ∧
    so_Content o = so_Content upload ∧ so_ContentType o = md_ContentType m ∧ so_ETag o = md_ETag m.
Proof.
  unfold s3_CompleteUpload. intros Hr. apply orun_bind in Hr as (scope & ? & ? & Hp & Hr).
  apply orun_lift in Hp as (Hp & <- & <-). apply orun_bind in Hr as (? & ? & ? & Ht & Hr).
  apply orun_lift in Ht as (Ht%guard_err_Ok%negb_false_iff & <- & <-).
  apply orun_bind in Hr as (m0 & s1 & w1 & (Hp1 & Hk0 & info & upload & Hseen & He0 & Hs0 & Ht0 & Hds0 & Hdt0)%read_run & Hr).
  apply orun_bind in Hr as (m1 & ? & ? & Hv & Hr). apply orun_lift in Hv as (Hv & <- & <-).
  apply completed_metadata in Hv as (_ & He1 & Hs1 & Hd1 & Ht1 & Hd0 & Hn & Hdn).
  apply orun_bind in Hr as (final & ? & ? & Hb & Hr). apply orun_handle, orun_lift in Hb as (Hb & <- & <-).
  apply (final_key _ _ _ Hp) in Hb. assert (¬ temporary_key final) as Hf by by eapply key_not_temporary.
  apply s3_publish_run in Hr as (Habs & Hk & Hu & Hct & Hsz & Hds & Hdt & o & Ho & Hetag & Hc & Hty);
    [|by exists scope|done].
  exists scope, s1, info, upload, o. rewrite Hk. split_and!; try done; try congruence.
  - split_and!; congruence.
  - by rewrite <-(Hp1 _ _ Hf).
  - destruct Hseen as [_ (seen & _ & _ & Hobj) []]. rewrite Hc, He1, He0, (objects_tagged _ _ _ _ Hobj). congruence.
Qed.

(** C11: an upload to S3 that is completed is published, exactly as it was checked
    and for good.  When completing succeeds, the key asked for is a temporary one
    of the environment and the project.  The store was asked for the object
    there, and answered of one upload: its size and its type are what the
    uploader had declared, they are what completing answers, and the policy
    allows them for the extension.  The object published under the final key of
    the same scope, where there was nothing before, has the content of this very
    upload, even if browsers have replaced it since, its type, and the public
    URL of that key.  In every later state it is there, unchanged. *)
Theorem s3_upload_published policy ctx e p key s w metadata s' w' :
  asset_Complete policy ctx e p key s w = (Ok metadata, s', w') →
  ∃ scope s1 info upload o, ParseObjectKey key = Ok scope ∧ os_Temporary scope = true ∧
    os_EnvironmentID scope = e ∧ os_ProjectID scope = p ∧
    seen_upload key s s1 info upload ∧
    as_declared info (md_Size metadata) (md_ContentType metadata) ∧
    validateCompleted policy (os_Extension scope) metadata = Ok tt ∧
    ParseObjectKey (md_Key metadata) = Ok (final_of scope) ∧
    md_URL metadata = publicURL s3 (md_Key metadata) ∧
    objects s !! (bucket s3, md_Key metadata) = None ∧
    so_Content o = so_Content upload ∧ len (so_Content o) = md_Size metadata ∧
    so_ContentType o = md_ContentType metadata ∧ so_ETag o = md_ETag metadata ∧
    md_DeclaredSize metadata = md_Size metadata ∧
    md_DeclaredContentType metadata = md_ContentType metadata ∧
    ∀ s'', rtc s3_step s' s'' → objects s'' !! (bucket s3, md_Key metadata) = Some o.
Proof.
  unfold asset_Complete. intros Hr. apply orun_bind in Hr as (scope & ? & ? & Hs & Hr).
  apply orun_handle, orun_lift in Hs as (Hs & <- & <-). apply orun_bind in Hr as (? & ? & ? & Hg & Hr).
  apply orun_lift in Hg as (Hg%guard_err_Ok & <- & <-). bool_hyps.
  apply orun_bind in Hr as (? & ? & ? & Ha & Hr). apply orun_world in Ha as [_ <-].
  apply orun_bind in Hr as (m & s1 & w1 & Hc & Hr). unfold completeObject in Hc. rewrite attempt_bind in Hc.
  cbn [CompleteUpload here s3_storage] in Hc.
  destruct (s3_CompleteUpload s3 key _ _) as [[y s2] w2] eqn:Hcu. destruct y as [m'|err].
  2:{ repeat case_match; inv_orun. by repeat case_match; inv_orun. }
  apply orun_ret in Hc as (-> & -> & ->). apply orun_bind in Hr as (? & s3' & w3 & Hv & Hr).
  apply orun_ret in Hr as (-> & -> & ->).
  pose proof (validatePublication_spec _ _ _ _ _ _ _ _ Hv) as [_ Hpol].
  assert (s' = s1 ∧ True) as [-> _].
  { unfold validatePublication in Hv. inv_orun. destruct (validateCompleted _ _ _); inv_orun; [done|].
    by case_match; inv_orun. }
  apply complete_run in Hcu as (scope' & s1' & info & upload & o & Hs' & Ht & Hk & Hu & Hseen & Hdecl & Hd & Hdt & Habs & Ho & Hcv & Hty & Htg).
  assert (scope' = scope) as -> by congruence.
  exists scope, s1', info, upload, o. split_and!; try done; try lia.
  - rewrite Hcv, <-(desc_size _ _ (seen_described _ _ _ _ _ Hseen)). apply Hdecl.
  - intros s'' Hst. eapply s3_steps_keep; [by eapply key_not_temporary|exact Hst|exact Ho].
Qed.
End s3.

(** ** What a configuration is good for *)

Section deployment.
Context `{Engine} `{Collation} `{Store} `{UnicodeLower} `{YAML}.

(** What the settings of an accepted configuration satisfy. *)
Record sound_config (cfg : Config) : Prop := {
  sound_mode : co_Mode cfg = ModeSingle ∨
    co_Mode cfg = ModeMulti ∧ ca_Driver (co_Cache cfg) = "redis" ∧ ob_Driver (co_ObjectStorage cfg) = "s3";
  sound_timeouts : 0 < li_Timeout (co_HTTP cfg) ∧ 0 < li_Timeout (co_GRPC cfg);
  sound_driver : da_Driver (co_Database cfg) = DatabaseDriverMySQL ∨
    da_Driver (co_Database cfg) = DatabaseDriverPGSQL;
  sound_dsn : secret_Empty (da_DSN (co_Database cfg)) = false;
  sound_pool : 0 ≤ da_MaxIdleConns (co_Database cfg) ≤ da_MaxOpenConns (co_Database cfg) ∧
    0 < da_MaxOpenConns (co_Database cfg) ∧ 0 < da_ConnMaxLifetime (co_Database cfg);
  sound_tokens : blank (jw_Issuer (co_JWT cfg)) = false ∧
    0 < jw_AccessTTL (co_JWT cfg) < jw_RefreshTTL (co_JWT cfg);
}.

Lemma legacy_chosen c : chosen_database (legacy_database c) = (co_Database (legacy_database c), false).
Proof.
  unfold legacy_database.
  destruct (bool_decide (da_Driver (co_Database c) = "") && negb (secret_Empty (da_DSN (co_MySQL c)))) eqn:Hb;
    [done|]. unfold chosen_database. by rewrite Hb.
Qed.
Lemma listener_sound name l u : validateListener name l = Ok u → 0 < li_Timeout l.
Proof. unfold validateListener. intros Hv. inv_ok. by bool_hyps. Qed.
Lemma database_sound c u : chosen_database c = (co_Database c, false) → validate_database c = Ok u →
  let d := co_Database c in
  (da_Driver d = DatabaseDriverMySQL ∨ da_Driver d = DatabaseDriverPGSQL) ∧ secret_Empty (da_DSN d) = false ∧
  0 ≤ da_MaxIdleConns d ≤ da_MaxOpenConns d ∧ 0 < da_MaxOpenConns d ∧ 0 < da_ConnMaxLifetime d.
Proof.
  unfold validate_database. intros -> Hv. inv_ok. bool_hyps. set_unfold. split_and!; try done; lia || naive_solver.
Qed.
Lemma config_sound c : chosen_database c = (co_Database c, false) → config_Validate c = Ok tt → sound_config c.
Proof.
  intros Hc Hv. unfold config_Validate in Hv. inv_ok.
  repeat match goal with
  | H : validateListener _ _ = Ok _ |- _ => apply listener_sound in H
  | H : validate_database _ = Ok _ |- _ => apply (database_sound _ _ Hc) in H as (? & ? & ? & ? & ?)
  end.
  unfold jwt_validate in *. inv_ok. bool_hyps. split; try done.
  match goal with Hm : _ ∈ _ |- _ => set_unfold in Hm; destruct Hm as [Hm|[Hm|[]]]; [by left|right] end.
  rewrite (bool_decide_true (co_Mode c = ModeMulti)) in * by done. cbn [andb] in *. by bool_hyps.
Qed.

(** *** Secrets *)

Lemma hex_char x : 0 ≤ x < 16 → hex_val (hex_digit x) = Some x ∧ ∀ r, blank (String (hex_digit x) r) = false.
Proof.
  intros Hx. assert (x ∈ seqZ 0 16) as Hin by (apply elem_of_seqZ; lia). vm_compute in Hin. set_unfold in Hin.
  destruct_or! Hin; try done; subst x; by split.
Qed.
Lemma hex_round s : hex_DecodeString (hex_EncodeToString s) = Some s.
Proof.
  induction s as [|c s IH]; [done|]. pose proof (byte_range c). cbn [hex_EncodeToString hex_DecodeString].
  destruct (hex_char (byte c / 16)) as [-> _]; [split; [apply Z.div_pos|apply Z.div_lt_upper_bound]; lia|].
  destruct (hex_char (byte c mod 16)) as [-> _]; [apply Z.mod_pos_bound; lia|]. cbn [mbind option_bind].
  rewrite IH. cbn. do 2 f_equal. rewrite <-(chr_byte c) at 3. f_equal. pose proof (Z.div_mod (byte c) 16). lia.
Qed.
Lemma hex_length s : len (hex_EncodeToString s) = 2 * len s.
Proof. unfold len. induction s as [|c s IH]; [done|]. cbn [hex_EncodeToString String.length]. lia. Qed.
Lemma substring_len m n s : (m + n ≤ String.length s)%nat → len (String.substring m n s) = Z.of_nat n.
Proof.
  unfold len. revert m. induction s as [|c s IH]; intros [|m] Hl; simpl in Hl.
  - destruct n; [done|lia].
  - lia.
  - f_equal. apply SampleWorld.substring_length. simpl. lia.
  - apply IH. lia.
Qed.

Lemma generated_secrets w secrets w' : generateApplicationSecrets w = (Ok secrets, w') →
  validateApplicationSecrets secrets = Ok tt ∧ blank (sec_JWTKeyID secrets) = false ∧
  len (sec_JWTSigningKey secrets) = 64 ∧ len (sec_APIKeyPepper secrets) = 64.
Proof.
  unfold generateApplicationSecrets. intros Hr. apply run_bind in Hr as (entropy & w1 & He & Hr).
  apply run_handle in He. unfold random_bytes in He. apply run_bind in He as (s & w2 & _ & He).
  destruct (Z.eqb_spec (len s) 80) as [Hl|]; [|by apply run_throw in He].
  apply run_ret in He as [-> ->]. apply run_ret in Hr as [<- <-].
  assert (∀ m n, (m + n ≤ 80)%nat → len (String.substring m n entropy) = Z.of_nat n) as Hs.
  { intros m n Hmn. apply substring_len. unfold len in Hl. lia. }
  cbn [sec_JWTKeyID sec_JWTSigningKey sec_APIKeyPepper]. rewrite !hex_length, !Hs by lia.
  split_and!; [|..|done|done].
  - unfold validateApplicationSecrets, secret_size. cbn [each sec_JWTKeyID sec_JWTSigningKey sec_APIKeyPepper].
    by rewrite !hex_round, !Hs by lia.
  - pose proof (Hs 0%nat 16%nat ltac:(lia)) as H16. destruct (String.substring 0 16 entropy) as [|c r]; [done|].
    pose proof (byte_range c). cbn [hex_EncodeToString]. apply hex_char.
    split; [apply Z.div_pos|apply Z.div_lt_upper_bound]; lia.
Qed.
Lemma manager_starts cfg secrets : blank (jw_Issuer (co_JWT cfg)) = false → 0 < jw_AccessTTL (co_JWT cfg) →
  blank (sec_JWTKeyID secrets) = false → len (sec_JWTSigningKey secrets) = 64 →
  is_ok (ProvideJWTManager cfg secrets) = bool_decide (jw_AccessTTL (co_JWT cfg) = AccessTTL).
Proof.
  intros Hi Ht Hk Hl. unfold ProvideJWTManager, jwt_New, newManager.
  cbn [jc_Issuer jc_AccessTTL jc_ActiveKID jc_Keys]. rewrite Hi, Hk, (proj2 (Z.leb_gt _ _)) by done.
  cbn [guard_err mbind result_bind]. replace (blank Audience) with false by done. cbn [guard_err mbind result_bind].
  rewrite map_to_list_singleton. cbn [forallb]. unfold key_ok. cbn [fst snd]. rewrite Hk, Hl.
  rewrite (bool_decide_false (_ !! _ = None)) by by rewrite lookup_singleton_eq.
  destruct (Z.eqb_spec (jw_AccessTTL (co_JWT cfg)) AccessTTL) as [->|Hne].
  - by rewrite bool_decide_true.
  - by rewrite bool_decide_false.
Qed.

(** *** Providers *)

Lemma cache_starts c ping : cache_validate c = Ok tt →
  ca_Driver c = "memory" ∧ cache_Open c ping = Ok CacheMemory ∨
  ca_Driver c = "redis" ∧ cache_Open c ping =
    (wrap_err "connect to Redis: " ping;; Ok (CacheRedis (re_KeyPrefix (ca_Redis c)))).
Proof.
  unfold cache_validate, cache_Open. case_bool_decide as Hm; [by left|].
  case_bool_decide; [|done]. intros Hv. right. split; [done|]. inv_ok.
  rewrite !bool_decide_false; [done|..]; intros He; by rewrite He in *.
Qed.
Lemma s3_starts c created : s3_Validate c = Ok tt → is_ok (NewS3 c created) = created.
Proof.
  intros Hv. unfold NewS3. rewrite Hv. cbn [mbind result_bind]. destruct created; [|done].
  cbn [mbind result_bind negb guard_err]. unfold s3_Validate in Hv. inv_ok.
  case_bool_decide; [done|]. unfold validatePublicBaseURL in *. inv_ok.
  by destruct (parse_base _) as [[[parsed user] raw]|].
Qed.
Lemma open_shared {S} {C : S3Client S} `{!HMAC, !UUIDLib} cfg reached fs created (s : S) w provider s' w' :
  Open ModeMulti cfg reached fs created s w = (Ok provider, s', w') → ∃ st, provider = ProviderS3 st.
Proof.
  unfold Open. intros Hr. apply orun_bind in Hr as (? & ? & ? & Hg & Hr). apply orun_lift in Hg as (Hg & <- & <-).
  apply guard_err_Ok in Hg. rewrite bool_decide_true in Hg by done. cbn [andb] in Hg. rewrite Hg in Hr.
  destruct (bool_decide (ob_Driver cfg = "s3")); inv_orun. eauto.
Qed.
Lemma storage_starts c : storage_validate c = Ok tt → ob_Driver c = "s3" → s3_Validate (ob_S3 c) = Ok tt.
Proof. unfold storage_validate. intros Hv Hd. by rewrite Hd in Hv. Qed.
Lemma security_starts c : security_validate c = Ok tt → is_ok (NewClientIPResolver (se_TrustedProxies c)) = true.
Proof. unfold security_validate, NewClientIPResolver. by destruct (ParseTrustedProxyCIDRs _). Qed.

(** C13: what the server's own constructors make of a configuration it has
    loaded.  Its settings are sound: a deployment of several processes has a
    shared cache and a shared object storage, and opening its storage never gives
    the local one.  The validated section is the one that is handed to the
    database.  The trusted proxies parse.  The cache in memory opens, and a shared
    one fails only as its server fails to answer; the S3 client is refused only
    if the client library refuses its options.  Freshly generated secrets are
    accepted, and so is the pepper; but the manager of access tokens starts
    exactly when the access lifetime is 15 minutes, and the authentication logic
    only with a refresh lifetime of 7 days, although the configuration is accepted
    with any others. *)
Theorem loaded_config_starts {S} {C : S3Client S} `{!HMAC, !UUIDLib} read flagPath lookupEnv cfg :
  Load read flagPath lookupEnv = Ok cfg →
  sound_config cfg ∧
  (co_Mode cfg = ModeMulti → ∀ reached fs created (s : S) w provider s' w',
     Open (co_Mode cfg) (co_ObjectStorage cfg) reached fs created s w = (Ok provider, s', w') →
     ∃ st, provider = ProviderS3 st) ∧
  opened_database cfg = co_Database cfg ∧
  is_ok (NewClientIPResolver (se_TrustedProxies (co_Security cfg))) = true ∧
  (∀ ping, let cache := co_Cache cfg in
     ca_Driver cache = "memory" ∧ cache_Open cache ping = Ok CacheMemory ∨
     ca_Driver cache = "redis" ∧ cache_Open cache ping =
       (wrap_err "connect to Redis: " ping;; Ok (CacheRedis (re_KeyPrefix (ca_Redis cache))))) ∧
  (ob_Driver (co_ObjectStorage cfg) = "s3" →
     ∀ created, is_ok (NewS3 (ob_S3 (co_ObjectStorage cfg)) created) = created) ∧
  ∀ w secrets w', generateApplicationSecrets w = (Ok secrets, w') →
    validateApplicationSecrets secrets = Ok tt ∧ is_ok (ProvideCredentialManager secrets) = true ∧
    (is_ok (ProvideJWTManager cfg secrets) = true ↔ jw_AccessTTL (co_JWT cfg) = AccessTTL) ∧
    ∀ `{!Argon2} hasher manager w1 l w2,
      NewAuthLogic (jw_RefreshTTL (co_JWT cfg)) hasher manager w1 = (Ok l, w2) →
      jw_RefreshTTL (co_JWT cfg) = refreshTokenTTL.
Proof.
  unfold Load, LoadFile. intros Hl. apply bind_Ok in Hl as (path & _ & Hl). apply bind_Ok in Hl as (text & _ & Hl).
  apply bind_Ok in Hl as ([c rest] & _ & Hl). destruct (decode_next rest) as [[]|]; [done..|].
  apply bind_Ok in Hl as ([] & Hv & [= <-]). pose proof (legacy_chosen c) as Hc. revert Hc Hv.
  generalize (legacy_database c). clear c. intros c Hc Hv.
  assert (config_Validate c = Ok tt) as Hval by (unfold wrap_err in Hv; by destruct (config_Validate c) as [[]|]).
  pose proof (config_sound c Hc Hval) as Hsound. pose proof Hval as Hparts. unfold config_Validate in Hparts. inv_ok.
  split; [done|]. split; [intros ->; intros; by eapply open_shared|]. split.
  { unfold opened_database. rewrite bool_decide_false; [done|].
    by destruct (sound_driver _ Hsound) as [-> | ->]. }
  split; [by apply security_starts|]. split; [intros ping; by apply cache_starts|].
  split; [intros Hd created; by apply s3_starts, storage_starts|].
  intros w secrets w' (Hg & Hk & Hs & Hp)%generated_secrets. split; [done|].
  split; [unfold ProvideCredentialManager; by rewrite Hp|]. split.
  - destruct (sound_tokens _ Hsound) as [Hi [Ha _]]. rewrite manager_starts by done. apply bool_decide_eq_true.
  - intros ? hasher manager w1 l w2. unfold NewAuthLogic. intros Hr.
    apply run_bind in Hr as (? & w3 & Hw & _). apply run_when_err in Hw as [Hw _]. bool_hyps. lia.
Qed.
End deployment.

(** ** A store in memory

    The entity tag of an object is its content behind a mark. *)
Definition tag (content : string) : string := "tag:" +:+ content.
Definition mem_object (o : string * string * gmap string string) : S3Object :=
  {| so_Content := o.1.1; so_ETag := tag o.1.1; so_ContentType := o.1.2; so_Metadata := o.2 |}.
Notation MemState := (gmap (string * string) (string * string * gmap string string)).
Definition failed (code : string) (status : Z) : ProviderError :=
  {| pe_Canceled := false; pe_Code := code; pe_StatusCode := status |}.

Section memory.
Context `{Engine} `{Collation} `{Store} `{UnicodeLower} `{UUIDLib}.

Definition mem_stat (b k : string) : Call MemState ObjectInfo := λ s w,
  match s !! (b, k) with
  | Some o =>
      if len o.1.1 <=? max_int64
      then (inr {| oi_Size := len o.1.1; oi_ETag := tag o.1.1; oi_ContentType := o.1.2;
                   oi_UserMetadata := map_to_list o.2; oi_LastModified := 0 |}, s, w)
      else (inl (failed "InternalError" 500), s, w)
  | None => (inl (failed "NoSuchKey" 404), s, w)
  end.
Definition mem_put (b k : string) (reader : string * string * option string) (size : Z)
    (options : PutObjectOptions) : Call MemState UploadInfo := λ s w,
  match s !! reader.1 with
  | Some v =>
      if bool_decide (po_MatchETagExcept options = "*") && bool_decide (is_Some (s !! (b, k)))
      then (inl (failed "PreconditionFailed" 412), s, w)
      else if bool_decide (default (tag v.1.1) reader.2 = tag v.1.1) && (len v.1.1 =? size)
      then (inr {| ui_ETag := tag v.1.1; ui_LastModified := None |},
            <[(b, k) := (v.1.1, po_ContentType options, po_UserMetadata options)]> s, w)
      else (inl (failed "IncompleteBody" 400), s, w)
  | None => (inl (failed "NoSuchKey" 404), s, w)
  end.
#[global] Instance mem_client : S3Client MemState := {|
  PostPolicy := gmap string string;
  NewPostPolicy := ∅;
  SetBucket b p := Some (<["bucket" := b]> p);
  SetKey k p := Some (<["key" := k]> p);
  SetExpires t p := Some (<["expires" := format_int t]> p);
  SetContentType t p := Some (<["Content-Type" := t]> p);
  SetContentLengthRange low high p := Some (<["range" := format_int low +:+ "-" +:+ format_int high]> p);
  SetUserMetadata name value p := Some (<["x-amz-meta-" +:+ name := value]> p);
  PresignedPostPolicy p := λ s w, (inr p, s, w);
  GetObjectOptions := option string;
  NoGetOptions := None;
  SetMatchETag etag _ := if bool_decide (etag = "") then inl (failed "" 0) else inr (Some etag);
  Reader := string * string * option string;
  StatObject := mem_stat;
  GetObject b k options := λ s w, (inr (b, k, options), s, w);
  PutObject := mem_put;
  RemoveObject b k := λ s w, (inr tt, delete (b, k) s, w);
  BucketExists _ := λ s w, (inr true, s, w);
|}.
Lemma untag content : default "" (cut_prefix "tag:" (tag content)) = content.
Proof. unfold tag. by rewrite cut_prefix_app. Qed.
#[global] Instance mem_laws : S3Laws mem_client.
Proof.
  apply (Build_S3Laws MemState mem_client (fmap mem_object) (λ o, o) (λ r, r)
    (λ _ _ etag, default "" (cut_prefix "tag:" etag))).
  - intros s b k o. rewrite lookup_fmap. intros (v & _ & ->)%fmap_Some. cbn [mem_object so_Content so_ETag].
    by rewrite untag.
  - intros etag options. cbn. case_bool_decide; [done|]. by intros [= <-].
  - by intros policy s w r s' w' [= <- <- <-].
  - by intros b s w r s' w' [= <- <- <-].
  - intros b k s w r s' w'. unfold StatObject, mem_client, mem_stat. destruct (s !! _) as [o|] eqn:Ho; [|by intros [= <- <- <-]].
    destruct (Z.leb_spec (len o.1.1) max_int64); intros [= <- <- <-]; (split; [done|]); [|done].
    intros info [= <-]. split; [done|]. exists s, (mem_object o). split_and!; [done..| |by split].
    by rewrite lookup_fmap, Ho.
  - intros b k options s w r s' w' [= <- <- <-]. split; [done|]. by intros reader [= <-].
  - intros b k reader size options s w r s' w'. unfold PutObject, mem_client, mem_put. intros Hr. exists s.
    destruct (s !! reader.1) as [v|] eqn:Hv; [|injection Hr as <- <- <-; exists (mem_object <$> s); split_and!; [done|done|left; eauto]].
    revert Hr. destruct (_ && bool_decide (is_Some _)) eqn:Hg; [intros [= <- <- <-]; exists (mem_object <$> s); split_and!; [done|done|left; eauto]|].
    destruct (_ && (_ =? _)) eqn:Ht; [|intros [= <- <- <-]; exists (mem_object <$> s); split_and!; [done|done|left; eauto]]. intros [= <- <- <-].
    bool_hyps. eexists. split; [done|]. split; [reflexivity|]. right.
    exists (mem_object (v.1.1, po_ContentType options, po_UserMetadata options)).
    split; [|split; [by rewrite fmap_insert|by intros info [= <-]]]. split_and!; [|done|done|].
    + intros Hs. rewrite lookup_fmap. destruct (s !! (b, k)); [|done].
      rewrite bool_decide_true in Hg by done. by rewrite bool_decide_true in Hg.
    + exists (mem_object v). split; [by rewrite lookup_fmap, Hv|]. split; [|done].
      intros etag He. rewrite He in *. done.
  - intros b k s w r s' w' [= <- <- <-]. exists (mem_object <$> s), (mem_object <$> delete (b, k) s).
    split; [done|]. split; [done|]. right. by rewrite fmap_delete.
Defined.
#[global] Instance mem_remote : S3Remote.
Proof.
  split; intros; intros s w r s' w'.
  - by intros [= <- <- <-].
  - unfold StatObject, mem_client, mem_stat. repeat case_match; by intros [= <- <- <-].
  - by intros [= <- <- <-].
  - unfold PutObject, mem_client, mem_put. repeat case_match; by intros [= <- <- <-].
  - by intros [= <- <- <-].
Qed.
End memory.

(** ** An upload *)

Import Sample SampleWorld.

Definition shared : S3Storage :=
  {| bucket := "kirby";
     publicBaseURL := {| pb_Scheme := "https"; pb_Host := "cdn.example.test"; pb_Path := "/public/" |} |}.
Definition final_name : string :=
  "environments/1/projects/1/assets/00000000-0000-0000-0000-000000000001.png".
Definition upload_name : string := "uploads/" +:+ final_name.
Definition uploaded (content : string) : MemState :=
  {[ ("kirby", upload_name) := (content, "image/png",
       {[ "Kirby-Declared-Size" := "5"; "Kirby-Declared-Content-Type" := "image/png" ]}) ]}.
Definition complete_picture (s : MemState) : result Metadata * MemState * World :=
  asset_Complete (ObjectStorage0 := s3_storage shared) DefaultPolicy member_context 1 1 upload_name s asset_world.
Definition published_picture : MemState := (complete_picture (uploaded "image")).1.2.
Lemma complete_picture_run s : complete_picture s =
  ((complete_picture s).1.1, (complete_picture s).1.2, (complete_picture s).2).
Proof. by destruct (complete_picture s) as [[]]. Qed.

(** The browser posts again with its old ticket, and completes again. *)
Definition posted_again : MemState :=
  <[("kirby", upload_name) := ("other", "image/png",
     {[ "Kirby-Declared-Size" := "5"; "Kirby-Declared-Content-Type" := "image/png" ]})]> published_picture.
Lemma upload_name_temporary : temporary_key upload_name.
Proof.
  exists {| os_EnvironmentID := 1; os_ProjectID := 1; os_ObjectID := "00000000-0000-0000-0000-000000000001";
            os_Extension := ".png"; os_Temporary := true |}. by vm_compute.
Qed.
Lemma post_again : s3_step shared published_picture posted_again.
Proof.
  apply s3_post. intros b k Hk. unfold posted_again. unfold objects, mem_laws.
  rewrite fmap_insert, lookup_insert_ne; [done|]. intros [= _ <-]. by apply Hk, upload_name_temporary.
Qed.
Lemma s3_upload_published_witness : ∃ s1 info upload o,
  seen_upload shared upload_name (uploaded "image") s1 info upload ∧
  objects posted_again !! ("kirby", final_name) = Some o ∧ so_Content o = so_Content upload ∧
  len (so_Content o) = 5 ∧ so_ContentType o = "image/png".
Proof.
  destruct (complete_picture (uploaded "image")).1.1 as [m|e] eqn:Hm; [|vm_compute in Hm; discriminate Hm].
  pose proof (complete_picture_run (uploaded "image")) as Hr. rewrite Hm in Hr.
  destruct (s3_upload_published shared _ _ _ _ _ _ _ _ _ _ Hr)
    as (scope & s1 & info & upload & o & _ & _ & _ & _ & Hseen & _ & _ & _ & _ & _ & Hc & Hl & Ht & _ & _ & _ & Hs).
  exists s1, info, upload, o. split; [exact Hseen|]. vm_compute in Hm. injection Hm as <-.
  split; [|split; [exact Hc|split; [exact Hl|exact Ht]]].
  apply (Hs posted_again), rtc_once, post_again.
Defined.
Lemma s3_assets_immutable_witness : ∃ o,
  objects published_picture !! ("kirby", final_name) = Some o ∧
  objects posted_again !! ("kirby", final_name) = Some o.
Proof.
  destruct (objects published_picture !! ("kirby", final_name)) as [o|] eqn:Ho; [|vm_compute in Ho; discriminate Ho].
  exists o. split; [reflexivity|].
  apply (s3_assets_immutable shared final_name {| os_EnvironmentID := 1; os_ProjectID := 1;
    os_ObjectID := "00000000-0000-0000-0000-000000000001"; os_Extension := ".png"; os_Temporary := false |}
    "kirby" o published_picture posted_again); [vm_compute; reflexivity|reflexivity| |exact Ho].
  apply rtc_once, post_again.
Defined.

(** ** A configuration

    The database is configured under its old name. *)
#[local] Instance mac : HMAC := λ key message, fit 32 (key +:+ message).
Definition no_database : DatabaseConfig :=
  {| da_Driver := ""; da_DSN := ""; da_MaxOpenConns := 0; da_MaxIdleConns := 0; da_ConnMaxLifetime := 0 |}.
Definition shared_config : Config :=
  {| co_Mode := ModeMulti;
     co_HTTP := {| li_Address := "0.0.0.0:8000"; li_Timeout := 10 ^ 10 |};
     co_GRPC := {| li_Address := "0.0.0.0:9000"; li_Timeout := 10 ^ 10 |};
     co_Database := no_database;
     co_MySQL := {| da_Driver := ""; da_DSN := "kirby@tcp(mysql:3306)/kirby"; da_MaxOpenConns := 10;
                    da_MaxIdleConns := 5; da_ConnMaxLifetime := 10 ^ 12 |};
     co_Cache := {| ca_Driver := "redis";
                    ca_Redis := {| re_Address := "redis:6379"; re_Username := ""; re_Password := "";
                                   re_DB := 0; re_KeyPrefix := "kirby:" |} |};
     co_JWT := {| jw_Issuer := "kirby"; jw_AccessTTL := AccessTTL; jw_RefreshTTL := refreshTokenTTL |};
     co_Security := {| se_TrustedProxies := Some ["10.0.0.0/8"] |};
     co_ObjectStorage :=
       {| ob_Driver := "s3"; ob_Local_Directory := "";
          ob_S3 := {| s3_Endpoint := "minio:9000"; s3_Region := ""; s3_Bucket := "kirby"; s3_AccessKey := "a";
                      s3_SecretKey := "s"; s3_UseSSL := false;
                      s3_PublicBaseURL := "https://cdn.example.test/public/" |} |};
     co_Log_Level := "info" |}.
#[local] Instance one_document : YAML :=
  {| decode_config _ := Ok (shared_config, ""); decode_next _ := None |}.
Lemma shared_loaded : Load (λ _, Ok "") "/etc/kirby.yaml" None = Ok (legacy_database shared_config).
Proof. vm_compute. reflexivity. Qed.
Lemma loaded_config_starts_witness :
  da_Driver (co_Database (legacy_database shared_config)) = DatabaseDriverMySQL ∧
  (∀ created, is_ok (NewS3 (ob_S3 (co_ObjectStorage shared_config)) created) = created) ∧
  ∀ reached fs created (s : MemState) w provider s' w',
    Open ModeMulti (co_ObjectStorage shared_config) reached fs created s w = (Ok provider, s', w') →
    ∃ st, provider = ProviderS3 st.
Proof.
  destruct (loaded_config_starts (S := MemState) _ _ _ _ shared_loaded) as (_ & Ho & _ & _ & _ & Hs & _).
  split; [reflexivity|]. split; [exact (Hs eq_refl)|]. exact (Ho eq_refl).
Defined.
