(* ===== verification/Transports.v ===== *)
(** The way in from the network ([server/http.go], [filter.go], [web.go],
    [object_proxy.go], [grpc.go], [health/health.go]) and the routes of
    [server/api]: which request reaches what.  The router (gorilla/mux behind
    Kratos) and the file system are parameters. *)

From S2P Require Import Prelude GoStd GoStrings Netip Json Proto Codec Schema Engine Model Cache Convert Requests World WorldLaws RepoScope Permission Credential Password Jwt RepoProject LogicBase LogicIdentity LogicProject LogicTransfer LogicAuth LogicPublish Middleware Browser ObjectStore Service PermissionSpec Ledger ScopeSpec Secure HandlersAccess HandlersTransfer Server AccessSpec ServiceSpec SchemaSpec SampleWorld ObjectKeySpec.
From Stdlib Require Import Ascii.

Local Open Scope Z_scope.

(** ** The routes of server/api

    Every handler reads its message from the body where it has one, then from
    the query, then from the variables of the path; it names its operation and
    runs the middleware around the method of the service. *)

Definition GET : string := "GET".
Definition POST : string := "POST".
Definition PUT : string := "PUT".
Definition DELETE : string := "DELETE".

Inductive Binding := query_only | path_only | body_only | body_and_path.
Record Route := {
  rt_Method : string;
  rt_Template : string;
  rt_Binding : Binding;
  rt_Operation : string;
}.
Definition route (method template : string) (binding : Binding) (operation : string) : Route :=
  {| rt_Method := method; rt_Template := template; rt_Binding := binding; rt_Operation := operation |}.

Definition asset_routes : list Route :=
  [route POST "/admin/environments/{environment_id}/projects/{project_id}/assets/presign" body_and_path
     "/kirby.admin.v1.AssetService/PresignAsset";
   route POST "/admin/environments/{environment_id}/projects/{project_id}/assets/complete" body_and_path
     "/kirby.admin.v1.AssetService/CompleteAsset"].
Definition auth_routes : list Route :=
  [route POST "/auth/login" body_only
     "/kirby.admin.v1.AuthService/Login";
   route POST "/auth/refresh" body_only
     "/kirby.admin.v1.AuthService/Refresh";
   route POST "/auth/logout" body_only
     "/kirby.admin.v1.AuthService/Logout";
   route GET "/auth/me" query_only
     "/kirby.admin.v1.AuthService/Me"].
Definition config_routes : list Route :=
  [route POST "/admin/environments/{environment_id}/config/create" body_and_path
     "/kirby.admin.v1.ConfigService/CreateConfig";
   route POST "/admin/environments/{environment_id}/config/update" body_and_path
     "/kirby.admin.v1.ConfigService/UpdateConfig";
   route POST "/admin/environments/{environment_id}/config/updateValue" body_and_path
     "/kirby.admin.v1.ConfigService/UpdateConfigValue";
   route POST "/admin/environments/{environment_id}/config/list" body_and_path
     "/kirby.admin.v1.ConfigService/ListConfig";
   route POST "/admin/environments/{environment_id}/config/delete" body_and_path
     "/kirby.admin.v1.ConfigService/DeleteConfig";
   route POST "/admin/environments/{environment_id}/config/detail" body_and_path
     "/kirby.admin.v1.ConfigService/ConfigDetail"].
Definition enum_routes : list Route :=
  [route POST "/admin/environments/{environment_id}/enum/create" body_and_path
     "/kirby.admin.v1.EnumService/CreateEnum";
   route POST "/admin/environments/{environment_id}/enum/update" body_and_path
     "/kirby.admin.v1.EnumService/UpdateEnum";
   route POST "/admin/environments/{environment_id}/enum/list" body_and_path
     "/kirby.admin.v1.EnumService/ListEnum";
   route POST "/admin/environments/{environment_id}/enum/delete" body_and_path
     "/kirby.admin.v1.EnumService/DeleteEnum"].
Definition environment_routes : list Route :=
  [route GET "/admin/environments" query_only
     "/kirby.admin.v1.EnvironmentService/ListEnvironments";
   route POST "/admin/projects/{project_id}/environments" body_and_path
     "/kirby.admin.v1.EnvironmentService/CreateEnvironment";
   route PUT "/admin/projects/{project_id}/environments/{environment_id}" body_and_path
     "/kirby.admin.v1.EnvironmentService/UpdateEnvironment";
   route GET "/admin/environments/{environment_id}/my-permissions" path_only
     "/kirby.admin.v1.EnvironmentService/MyPermissions";
   route GET "/admin/environments/{environment_id}/users" path_only
     "/kirby.admin.v1.EnvironmentService/ListEnvironmentUsers";
   route PUT "/admin/environments/{environment_id}/users/{user_id}/roles" body_and_path
     "/kirby.admin.v1.EnvironmentService/UpdateEnvironmentUserRoles"].
Definition project_api_key_routes : list Route :=
  [route GET "/admin/environments/{environment_id}/projects/{project_id}/api-keys" path_only
     "/kirby.admin.v1.ProjectApiKeyService/ListProjectApiKeys";
   route POST "/admin/environments/{environment_id}/projects/{project_id}/api-keys" body_and_path
     "/kirby.admin.v1.ProjectApiKeyService/CreateProjectApiKey";
   route POST "/admin/environments/{environment_id}/projects/{project_id}/api-keys/{key_id}/rotate" body_and_path
     "/kirby.admin.v1.ProjectApiKeyService/RotateProjectApiKey";
   route DELETE "/admin/environments/{environment_id}/projects/{project_id}/api-keys/{key_id}" path_only
     "/kirby.admin.v1.ProjectApiKeyService/RevokeProjectApiKey"].
Definition project_routes : list Route :=
  [route POST "/admin/projects" body_only
     "/kirby.admin.v1.ProjectService/CreateProject";
   route PUT "/admin/projects/{id}" body_and_path
     "/kirby.admin.v1.ProjectService/UpdateProject";
   route GET "/admin/projects" query_only
     "/kirby.admin.v1.ProjectService/ListProject";
   route GET "/admin/projects/{id}" path_only
     "/kirby.admin.v1.ProjectService/ProjectDetail"].
Definition publication_routes : list Route :=
  [route POST "/admin/environments/{environment_id}/snapshots/{snapshot_id}/publish" body_and_path
     "/kirby.admin.v1.PublicationService/PublishSnapshot";
   route POST "/admin/environments/{environment_id}/snapshots/{snapshot_id}/unpublish" body_and_path
     "/kirby.admin.v1.PublicationService/UnpublishSnapshot"].
Definition role_routes : list Route :=
  [route GET "/admin/roles" query_only
     "/kirby.admin.v1.RoleService/ListRoles";
   route POST "/admin/roles" body_only
     "/kirby.admin.v1.RoleService/CreateRole";
   route PUT "/admin/roles/{role_id}" body_and_path
     "/kirby.admin.v1.RoleService/UpdateRole";
   route DELETE "/admin/roles/{role_id}" path_only
     "/kirby.admin.v1.RoleService/DeleteRole";
   route GET "/admin/permissions" query_only
     "/kirby.admin.v1.RoleService/ListPermissions";
   route PUT "/admin/roles/{role_id}/permissions" body_and_path
     "/kirby.admin.v1.RoleService/UpdateRolePermissions"].
Definition setup_routes : list Route :=
  [route GET "/setup/status" query_only
     "/kirby.admin.v1.SetupService/GetSetupStatus";
   route POST "/setup/admin" body_only
     "/kirby.admin.v1.SetupService/CreateInitialAdmin"].
Definition snapshot_routes : list Route :=
  [route POST "/admin/environments/{environment_id}/snapshot/create" body_and_path
     "/kirby.admin.v1.SnapshotService/CreateSnapshot";
   route POST "/admin/environments/{environment_id}/snapshot/previewCreating" body_and_path
     "/kirby.admin.v1.SnapshotService/PreviewCreatingSnapshot";
   route POST "/admin/environments/{environment_id}/snapshot/delete" body_and_path
     "/kirby.admin.v1.SnapshotService/DeleteSnapshot";
   route POST "/admin/environments/{environment_id}/snapshot/detail" body_and_path
     "/kirby.admin.v1.SnapshotService/GetSnapshot";
   route POST "/admin/environments/{environment_id}/snapshot/load" body_and_path
     "/kirby.admin.v1.SnapshotService/LoadSnapshot";
   route POST "/admin/environments/{environment_id}/snapshot/current" body_and_path
     "/kirby.admin.v1.SnapshotService/CurrentSnapshot";
   route POST "/admin/environments/{environment_id}/snapshot/released" body_and_path
     "/kirby.admin.v1.SnapshotService/ReleasedSnapshot";
   route POST "/admin/environments/{environment_id}/snapshot/list" body_and_path
     "/kirby.admin.v1.SnapshotService/ListSnapshot"].
Definition snapshot_transfer_routes : list Route :=
  [route GET "/admin/environments/{source_environment_id}/snapshots/{snapshot_id}/export" path_only
     "/kirby.admin.v1.SnapshotTransferService/ExportSnapshot";
   route POST "/admin/environments/{target_environment_id}/snapshot-imports" body_and_path
     "/kirby.admin.v1.SnapshotTransferService/ImportSnapshot"].
Definition structure_routes : list Route :=
  [route POST "/admin/environments/{environment_id}/structure/create" body_and_path
     "/kirby.admin.v1.StructureService/CreateStructure";
   route POST "/admin/environments/{environment_id}/structure/update" body_and_path
     "/kirby.admin.v1.StructureService/UpdateStructure";
   route POST "/admin/environments/{environment_id}/structure/list" body_and_path
     "/kirby.admin.v1.StructureService/ListStructure";
   route POST "/admin/environments/{environment_id}/structure/delete" body_and_path
     "/kirby.admin.v1.StructureService/DeleteStructure"].
Definition user_routes : list Route :=
  [route GET "/admin/users" query_only
     "/kirby.admin.v1.UserService/ListUsers";
   route POST "/admin/users" body_only
     "/kirby.admin.v1.UserService/CreateUser";
   route PUT "/admin/users/{user_id}" body_and_path
     "/kirby.admin.v1.UserService/UpdateUser";
   route PUT "/admin/users/{user_id}/password" body_and_path
     "/kirby.admin.v1.UserService/UpdateUserPassword";
   route PUT "/admin/users/{user_id}/status" body_and_path
     "/kirby.admin.v1.UserService/UpdateUserStatus"].
Definition runtime_routes : list Route :=
  [route GET "/v1/config" query_only
     "/kirby.runtime.v1.Api/Config"].

(** [registerHTTP] *)
Definition all_routes : list Route :=
  auth_routes ++ setup_routes ++ environment_routes ++ user_routes ++ role_routes ++ project_routes
  ++ config_routes ++ structure_routes ++ enum_routes ++ snapshot_routes ++ publication_routes
  ++ asset_routes ++ project_api_key_routes ++ snapshot_transfer_routes ++ runtime_routes.

Definition has_body (b : Binding) : bool := match b with body_only | body_and_path => true | _ => false end.
Definition has_vars (b : Binding) : bool := match b with path_only | body_and_path => true | _ => false end.

(** A handler over the binders of the transport. *)
Section handler.
Context `{Engine} `{Store} {A B : Type} (Bind BindQuery BindVars : A → result A).

Definition bound (b : Binding) (zero : A) : result A :=
  in_ ← (if has_body b then Bind zero else Ok zero);
  in_ ← BindQuery in_;
  if has_vars b then BindVars in_ else Ok in_.
Definition http_handler (zero : A) (middleware : string → A → M B) (r : Route) : M B :=
  in_ ← lift (bound (rt_Binding r) zero);
  middleware (rt_Operation r) in_.
End handler.

(** ** The router *)

Inductive Pattern :=
  | Template (method template : string)
  | Exact (path : string)
  | Under (prefix : string).

(** A variable stands for one segment that is not empty. *)
Definition is_variable (segment : string) : bool := has_prefix "{" segment.
Fixpoint match_segments (template path : list string) : bool :=
  match template, path with
  | [], [] => true
  | t :: template, p :: path =>
      (if is_variable t then negb (bool_decide (p = "")) else bool_decide (t = p))
      && match_segments template path
  | _, _ => false
  end.
Definition pattern_matches (pattern : Pattern) (method path : string) : bool :=
  match pattern with
  | Template m t => bool_decide (m = method) && match_segments (split_on "/" t) (split_on "/" path)
  | Exact p => bool_decide (p = path)
  | Under p => has_prefix p path
  end.

Inductive Matched := ToEntry (i : nat) | ToRedirect | NoRoute | NoMethod.
Class Mux := mux : list Pattern → string → string → Matched.
(** Routes are tried in the order of their registration. *)
Class MuxLaws (X : Mux) := mux_first : ∀ patterns method path i,
  mux patterns method path = ToEntry i →
  ∃ p, patterns !! i = Some p ∧ pattern_matches p method path = true ∧
    ∀ j q, (j < i)%nat → patterns !! j = Some q → pattern_matches q method path = false.

(** ** server/object_proxy.go, health/health.go *)

Definition trim_slashes (s : string) : string :=
  let fix left s := match s with String "/" r => left r | _ => s end in
  let fix right s :=
    match s with
    | EmptyString => ""
    | String c r => match right r with
                    | "" => if decide (c = "/"%char) then "" else String c ""
                    | r => String c r
                    end
    end in
  right (left s).
(** The prefix of the paths that are handed to the object storage. *)
Definition newObjectStorageProxy (bucket : string) : result string :=
  let prefix := "/" +:+ trim_slashes bucket in
  guard_err (bool_decide (prefix = "/")) (EOther "object storage bucket is empty");;
  Ok prefix.

Definition livenessPath : string := "/healthz".
Definition readinessPath : string := "/readyz".
Definition liveness : Z * string := (200, "ok" +:+ String (chr 10) "").
Definition readiness (ready : bool) : Z * string :=
  if negb ready then (503, "not ready" +:+ String (chr 10) "") else (200, "ready" +:+ String (chr 10) "").

(** ** server/http.go *)

Inductive Target :=
  | ToOperation (operation : string)
  | ToLiveness
  | ToReadiness
  | ToLocalObjects
  | ToStorageProxy
  | ToWeb.

(** What is served besides the routes: the local object storage, the bucket of a
    shared one, and the browser application. *)
Record Served := {
  sv_local : bool;
  sv_proxy : option string;
  sv_web : bool;
}.
Definition registered (sv : Served) : list (Pattern * Target) :=
  ((λ r, (Template (rt_Method r) (rt_Template r), ToOperation (rt_Operation r))) <$> all_routes)
  ++ [(Exact livenessPath, ToLiveness); (Exact readinessPath, ToReadiness)]
  ++ (if sv_local sv then [(Exact LocalUploadPath, ToLocalObjects);
                           (Under LocalObjectPathPrefix, ToLocalObjects)] else [])
  ++ match sv_proxy sv with
     | Some prefix => [(Under (prefix +:+ "/"), ToStorageProxy); (Exact prefix, ToStorageProxy)]
     | None => []
     end
  ++ (if sv_web sv then [(Under "/", ToWeb)] else []).

(** A target with the path it sees and whether the request came by the API
    prefix; or the status of a plain answer. *)
Inductive Outcome :=
  | Reaches (target : Target) (path : string) (api : bool)
  | Plain (status : Z).

Definition http_dispatch `{UnicodeLower} `{Mux} (sv : Served) (trusted : list Prefix) (http : HTTPRequest)
    (method path : string) : Outcome :=
  match APIPrefix path with
  | None => Plain 404
  | Some (p, api) =>
      if negb (SameOrigin trusted http) then Plain 403
      else match mux (registered sv).*1 method p with
           | ToEntry i => match (registered sv).*2 !! i with
                          | Some target => Reaches target p api
                          | None => Plain 404
                          end
           | ToRedirect => Plain 301
           | NoRoute => Plain 404
           | NoMethod => Plain 405
           end
  end.

(** ** server/filter.go: the boundary *)

(** [validRequestID] *)
Definition validRequestID (value : string) : bool :=
  negb (bool_decide (value = "") || (128 <? len value)) && forallb safe_rune (runes value).

(** The headers of every response. *)
Definition boundary_headers (requestID : string) : list (string * string) :=
  [("X-Request-ID", requestID);
   ("X-Content-Type-Options", "nosniff");
   ("Content-Security-Policy", "default-src 'self'; base-uri 'self'; object-src 'none'; frame-ancestors 'none'; script-src 'self'; style-src 'self' 'unsafe-inline'; img-src 'self' data: blob:; font-src 'self' data:; connect-src 'self'; worker-src 'self' blob:; form-action 'self'");
   ("Referrer-Policy", "no-referrer");
   ("X-Frame-Options", "DENY")].

(** [responseStatusWriter] *)
Record StatusWriter := {
  sw_status : Z;
  sw_wroteHeader : bool;
}.
Definition new_writer : StatusWriter := {| sw_status := 200; sw_wroteHeader := false |}.
Definition WriteHeader (status : Z) (w : StatusWriter) : StatusWriter :=
  if sw_wroteHeader w then w else {| sw_status := status; sw_wroteHeader := true |}.
Definition Write (w : StatusWriter) : StatusWriter :=
  if sw_wroteHeader w then w else WriteHeader 200 w.

(** What a handler does to its response before it returns or panics. *)
Inductive Written := WroteHeader (status : Z) | WroteBody.
Definition written (w : StatusWriter) (a : Written) : StatusWriter :=
  match a with WroteHeader status => WriteHeader status w | WroteBody => Write w end.

(** The headers and the status of the response; a handler that panics before it
    wrote anything is answered for. *)
Definition HTTPBoundary `{Engine} `{Store} (requestID : string) (actions : list Written) (panicked : bool) :
    M (list (string * string) * Z) :=
  requestID ← (if validRequestID requestID then mret requestID else random);
  let w := foldl written new_writer actions in
  let w := if panicked && negb (sw_wroteHeader w) then Write (WriteHeader 500 w) else w in
  mret (boundary_headers requestID, sw_status w).

(** ** server/web.go *)

Definition immutableCacheControl : string := "public, max-age=31536000, immutable".

Inductive Stat := StatRegular | StatDirectory | StatOther | StatMissing | StatFailed.
(** A built application: whether its root can be opened, what [Stat] says of a
    path in it, and whether its index can be opened and examined. *)
Record WebRoot := {
  wr_open : bool;
  wr_stat : string → Stat;
  wr_index : bool;
}.
Inductive WebAnswer :=
  | WebStatus (status : Z)
  | WebFile (path cacheControl : string)
  | WebIndex (cacheControl : string).

(** [None] is no handler: the browser application is not served. *)
Definition NewWebHandler (root : string) (absolute : result string) (kind : string → Stat)
    (web : WebRoot) : result (option WebRoot) :=
  if blank root then Ok None
  else
    absoluteRoot ← wrap_err "resolve web root: " absolute;
    match kind absoluteRoot with
    | StatMissing | StatFailed => Er (EOther "stat web root")
    | StatDirectory =>
        guard_err (negb (wr_open web)) (EOther "open web root");;
        match wr_stat web "index.html" with
        | StatRegular => Ok (Some web)
        | StatMissing | StatFailed => Er (EOther "stat web index")
        | _ => Er (EOther "web index is not a regular file")
        end
    | _ => Er (EOther "web root is not a directory")
    end.

Definition reservedServerPath (requestPath : string) : bool :=
  existsb (λ prefix, under prefix requestPath) ["/admin"; "/auth"; "/healthz"; "/readyz"; "/v1"].
Definition serveWebIndex (web : WebRoot) : WebAnswer :=
  if wr_index web then WebIndex "no-cache" else WebStatus 500.
Definition serveWebRequest (web : WebRoot) (method path : string) (api : bool) : WebAnswer :=
  if negb (bool_decide (method ∈ ["GET"; "HEAD"])) then WebStatus 405
  else
    let cleanPath := path_clean ("/" +:+ path) in
    let normalizedRequestPath := if bool_decide (path = "/") then path else trim_suffix path "/" in
    if negb (bool_decide (cleanPath = normalizedRequestPath)) || has_byte (chr 0) path then WebStatus 400
    else if api || reservedServerPath cleanPath then WebStatus 404
    else if negb (wr_open web) then WebStatus 500
    else
      let candidate := default cleanPath (cut_prefix "/" cleanPath) in
      let candidate := if bool_decide (candidate = "") then "." else candidate in
      let assets := has_prefix "/assets/" cleanPath in
      match wr_stat web candidate with
      | StatRegular => WebFile cleanPath (if assets then immutableCacheControl else "no-cache")
      | StatFailed => WebStatus 500
      | _ => if assets || negb (bool_decide (path_ext cleanPath = "")) then WebStatus 404
             else serveWebIndex web
      end.

(** ** server/grpc.go *)

(** [metadata.MD]: values by name in lower case. *)
Notation MD := (gmap string (list string)).
Definition md_Get (md : MD) (key : string) : list string := default [] (md !! map_bytes lower_char key).
Definition grpc_Get (md : MD) (key : string) : string := default "" (head (md_Get md key)).
(** The peer is what [ClientIdentity] answers where there is no HTTP request. *)
Definition grpc_transport (md : MD) (fullMethod : string) : Transport :=
  {| header := grpc_Get md; operation := fullMethod; peer := "unknown" |}.

Definition GRPCMetadata : string := "x-kirby-api-key".

(** The chain of [NewGRPCServer] around a method of the runtime service, then
    [UnaryAPIKey]; the timeout is left out. *)
Definition serve_grpc `{Engine} `{Collation} `{Store} `{SHA256} {A} (md : MD) (fullMethod : string)
    (violation : option ValidationError) (method : Context_ → M A) : M A :=
  let t := grpc_transport md fullMethod in
  validateRequest violation;;
  requestID ← request_id t;
  unless_m (negb (bool_decide (fullMethod = OperationApiConfig)))
    (FixedWindowRateLimit "runtime" runtimeRateLimit rateWindow (RuntimeIdentity t));;
  credential ← lift (UnaryAPIKey (Some fullMethod) (md_Get md GRPCMetadata));
  method {| cx_principal := None; cx_credential := credential; cx_request_id := requestID |}.

(** ** Every path has at most one route *)

(** Some path matches both. *)
Fixpoint overlap (s t : list string) : bool :=
  match s, t with
  | [], [] => true
  | x :: s, y :: t => (is_variable x || is_variable y || bool_decide (x = y)) && overlap s t
  | _, _ => false
  end.
Lemma match_overlap s t p : match_segments s p = true → match_segments t p = true → overlap s t = true.
Proof.
  revert t p. induction s as [|x s IH]; intros [|y t] [|z p]; simpl; try done.
  intros [Hx Hs]%andb_true_iff [Hy Ht]%andb_true_iff. rewrite (IH _ _ Hs Ht), andb_true_r.
  destruct (is_variable x), (is_variable y); try done. bool_hyps. simpl. apply bool_decide_eq_true. congruence.
Qed.
Definition template_segments (r : Route) : list string := split_on "/" (rt_Template r).
Definition conflict (r r' : Route) : bool :=
  bool_decide (rt_Method r = rt_Method r') && overlap (template_segments r) (template_segments r').
#[export] Instance Binding_eq : EqDecision Binding.
Proof. solve_decision. Defined.
#[export] Instance Route_eq : EqDecision Route.
Proof. solve_decision. Defined.

Lemma routes_apart : forallb (λ r, forallb (λ r', negb (conflict r r') || bool_decide (r = r')) all_routes)
  all_routes = true.
Proof. vm_compute. reflexivity. Qed.

Definition route_matches (r : Route) (method path : string) : bool :=
  pattern_matches (Template (rt_Method r) (rt_Template r)) method path.
Lemma route_unique r r' method path : r ∈ all_routes → r' ∈ all_routes →
  route_matches r method path = true → route_matches r' method path = true → r = r'.
Proof.
  intros Hr%list_elem_of_In Hr'%list_elem_of_In. unfold route_matches, pattern_matches. intros Hm Hm'. bool_hyps.
  pose proof routes_apart as Ha. rewrite forallb_forall in Ha. apply Ha in Hr. rewrite forallb_forall in Hr.
  apply Hr, orb_true_iff in Hr' as [Hc|Hc]; [|by bool_hyps]. apply negb_true_iff, andb_false_iff in Hc as [Hc|Hc].
  - apply bool_decide_eq_false in Hc. congruence.
  - unfold template_segments in Hc. erewrite match_overlap in Hc; [done|done|done].
Qed.

(** ** Paths *)

Lemma split_head a rest p : split_on "/" p = a :: rest →
  p = match rest with [] => a | _ => a +:+ "/" +:+ sep_concat "/" rest end.
Proof. intros Hp. rewrite <-(split_on_join "/" p), Hp. by destruct rest. Qed.
Lemma under_first a rest p : split_on "/" p = "" :: a :: rest → under ("/" +:+ a) p = true.
Proof.
  intros Hp%split_head. subst p. unfold under. destruct rest as [|b rest]; [by rewrite bool_decide_true|].
  apply orb_true_iff. right. unfold has_prefix.
  assert (sep_concat "/" (a :: b :: rest) = a +:+ "/" +:+ sep_concat "/" (b :: rest)) as -> by done.
  generalize (sep_concat "/" (b :: rest)). intros z.
  replace ("" +:+ "/" +:+ a +:+ "/" +:+ z) with ((("/" +:+ a) +:+ "/") +:+ z) by by rewrite !app_assoc_s.
  by rewrite cut_prefix_app.
Qed.
Lemma under_second a p : count_byte "/" a = 0 → under ("/" +:+ a) p = true →
  ∃ rest, split_on "/" p = "" :: a :: rest.
Proof.
  intros Ha. unfold under, has_prefix. intros [Hp|Hp]%orb_true_iff.
  - apply bool_decide_eq_true in Hp. subst p. exists [].
    change ("/" +:+ a) with (String "/" a). simpl. by rewrite split_on_last.
  - destruct (cut_prefix _ p) as [r|] eqn:Hc; [|done]. apply cut_prefix_Some in Hc. subst p.
    exists (split_on "/" r).
    assert ((("/" +:+ a) +:+ "/") +:+ r = String "/" (a +:+ String "/" r)) as -> by by rewrite !app_assoc_s.
    change (split_on "/" (String "/" (a +:+ String "/" r))) with ("" :: split_on "/" (a +:+ String "/" r)).
    by rewrite split_on_app.
Qed.

(** A path that such a template matches is reserved. *)
Definition reserved_template (t : list string) : bool :=
  match t with
  | x :: a :: rest =>
      bool_decide (x = "")
      && (bool_decide (a ∈ ["admin"; "auth"])
          || bool_decide (a = "setup") && (bool_decide (rest = ["status"]) || bool_decide (rest = ["admin"])))
  | _ => false
  end.
Lemma literal_segment a t p : is_variable a = false → match_segments (a :: t) p = true →
  ∃ rest, p = a :: rest ∧ match_segments t rest = true.
Proof.
  intros Ha. destruct p as [|b p]; [done|]. cbn [match_segments]. rewrite Ha.
  intros [->%bool_decide_eq_true Hm]%andb_true_iff. eauto.
Qed.
Lemma reserved_under prefix p : prefix ∈ ["/admin"; "/auth"; "/setup/status"; "/setup/admin"] →
  under prefix p = true → reservedManagementPath p = true.
Proof. intros Hin Hu. apply existsb_exists. exists prefix. split; [by apply list_elem_of_In|done]. Qed.
Lemma match_reserved t p : reserved_template t = true → match_segments t (split_on "/" p) = true →
  reservedManagementPath p = true ∧ under "/api" p = false.
Proof.
  intros Ht Hm. destruct t as [|x [|a rest]]; [done|done|]. unfold reserved_template in Ht.
  apply andb_true_iff in Ht as [->%bool_decide_eq_true Ht].
  apply literal_segment in Hm as (l & Hp & Hm); [|done].
  assert (is_variable a = false ∧ a ≠ "api") as [Hv Ha].
  { apply orb_true_iff in Ht as [Ht|Ht]; bool_hyps; [|by subst].
    set_unfold in Ht. by destruct Ht as [-> |[-> |[]]]. }
  apply literal_segment in Hm as (l' & -> & Hm); [|done]. split.
  - apply orb_true_iff in Ht as [Ht|Ht]; bool_hyps.
    + apply (reserved_under ("/" +:+ a)); [|by eapply under_first].
      set_unfold in Ht. destruct Ht as [-> |[-> |[]]]; set_solver.
    + subst a. apply orb_true_iff in H0 as [Hr|Hr]; bool_hyps; subst rest;
        (apply literal_segment in Hm as (l & -> & Hm); [|done]); destruct l; try done;
        apply split_head in Hp; subst p; reflexivity.
  - destruct (under "/api" p) eqn:Hu; [|done].
    apply under_second in Hu as [rest' Hp']; [|done]. congruence.
Qed.

Lemma routes_reserved : forallb (λ r, reserved_template (template_segments r)
  || bool_decide (rt_Operation r = OperationApiConfig ∧ rt_Template r = "/v1/config")) all_routes = true.
Proof. vm_compute. reflexivity. Qed.
Lemma routes_guarded : forallb (λ r, admin_selected (rt_Operation r) || publicManagementOperation (rt_Operation r)
  || bool_decide (rt_Operation r = OperationApiConfig)) all_routes = true.
Proof. vm_compute. reflexivity. Qed.

Section confined.
Context `{UnicodeLower} {X : Mux} {XL : MuxLaws X}.

Lemma registered_route sv pattern op : (pattern, ToOperation op) ∈ registered sv →
  ∃ r, r ∈ all_routes ∧ rt_Operation r = op ∧ pattern = Template (rt_Method r) (rt_Template r).
Proof.
  unfold registered. rewrite !elem_of_app. intros [Hr|[Hr|[Hr|[Hr|Hr]]]].
  - apply list_elem_of_fmap in Hr as (r & [= -> ->] & Hr). eauto.
  - set_unfold in Hr. naive_solver.
  - destruct (sv_local sv); set_unfold in Hr; naive_solver.
  - destruct (sv_proxy sv); set_unfold in Hr; naive_solver.
  - destruct (sv_web sv); set_unfold in Hr; naive_solver.
Qed.
Lemma APIPrefix_spec path p api : APIPrefix path = Some (p, api) →
  path = "/api" +:+ p ∧ api = true ∨ path = p ∧ (under "/api" p = true ∨ reservedManagementPath p = false).
Proof.
  unfold APIPrefix. destruct (under "/api" path) eqn:Hu; cbn [negb].
  - destruct (_ || _) eqn:Hl; [intros [= <- <-]; auto|]. intros Hs.
    assert (p = default path (cut_prefix "/api" path) ∧ api = true) as [-> ->] by (split; congruence).
    left. split; [|done]. clear Hs Hl. unfold under, has_prefix in Hu. apply orb_true_iff in Hu as [Hu|Hu].
    { apply bool_decide_eq_true in Hu. by subst path. }
    destruct (cut_prefix ("/api" +:+ "/") path) as [r|] eqn:Hc; [|done]. apply cut_prefix_Some in Hc. subst path.
    assert (cut_prefix "/api" (("/api" +:+ "/") +:+ r) = Some (String "/" r)) as -> by exact (cut_prefix_app "/api" _).
    done.
  - case_match; [done|]. intros [= <- <-]. auto.
Qed.

(** C7: the way to the operations.  A request that reaches an operation passed
    the origin check, and exactly one route of the whole table matches its
    method and path, that of the operation.  For every operation but the runtime
    read, the request came by the API prefix, and the operation is either one of
    the five public ones or goes through the rate limit and the authentication of
    the administration: whatever else the server serves, there is no other way
    in. *)
Theorem operations_confined sv trusted http method path op p api :
  http_dispatch sv trusted http method path = Reaches (ToOperation op) p api →
  SameOrigin trusted http = true ∧
  ∃ r, r ∈ all_routes ∧ rt_Operation r = op ∧ route_matches r method p = true ∧
    (∀ r', r' ∈ all_routes → route_matches r' method p = true → r' = r) ∧
    (op ≠ OperationApiConfig →
       path = "/api" +:+ p ∧ api = true ∧ (admin_selected op = true ∨ publicManagementOperation op = true)).
Proof.
  unfold http_dispatch. destruct (APIPrefix path) as [[q b]|] eqn:Hp; [|done].
  destruct (SameOrigin trusted http); [|done]. cbn [negb].
  destruct (mux _ _ _) as [i| | |] eqn:Hm; [|done..]. apply mux_first in Hm as (pattern & Hi & Hpm & _).
  destruct ((registered sv).*2 !! i) as [target|] eqn:Ht; [|done]. intros [= -> -> ->]. split; [done|].
  rewrite list_lookup_fmap in Hi. rewrite list_lookup_fmap in Ht. destruct (registered sv !! i) as [[pat tgt]|] eqn:He; [|done].
  injection Hi as ->. injection Ht as ->. apply list_elem_of_lookup_2, registered_route in He as (r & Hr & Ho & ->).
  exists r. split_and!; [done|done|done|intros r' Hr' Hm'; by eapply route_unique|]. intros Hop.
  pose proof (proj1 (forallb_forall _ _) routes_reserved r (proj1 (list_elem_of_In _ _) Hr)) as Hres.
  apply orb_true_iff in Hres as [Hres|Hres]; [|by bool_hyps; destruct Hres; congruence].
  cbn [pattern_matches] in Hpm. apply andb_true_iff in Hpm as [_ Hpm].
  destruct (match_reserved _ _ Hres Hpm) as [Hrm Hna].
  destruct (APIPrefix_spec _ _ _ Hp) as [[-> ->]|[_ [?|?]]]; [|congruence..]. split; [done|]. split; [done|].
  pose proof (proj1 (forallb_forall _ _) routes_guarded r (proj1 (list_elem_of_In _ _) Hr)) as Hg.
  cbv beta in Hg. rewrite Ho in Hg. apply orb_true_iff in Hg as [Hg|Hg]; [by apply orb_true_iff in Hg|by bool_hyps].
Qed.
End confined.

(** ** The two ways to a runtime read *)

Section runtime.
Context `{Engine} `{Collation} `{Store} `{JWTLib} `{SHA256} `{UnicodeLower}.

(** The text before the first dot of a key is there. *)
Definition names_client (key : string) : Prop :=
  ∃ publicID secret rest, split_on "." key = publicID :: secret :: rest ∧ publicID ≠ "".
Lemma client_of_key t publicID secret rest : header t "X-Kirby-API-Key" ≠ "" →
  split_on "." (header t "X-Kirby-API-Key") = publicID :: secret :: rest → publicID ≠ "" →
  RuntimeIdentity t = publicID.
Proof.
  intros Hk Hs Hp. unfold RuntimeIdentity. rewrite (bool_decide_false (header t _ = "")) by done.
  by rewrite Hs, bool_decide_false.
Qed.
Lemma peer_of_key t : header t "x-kirby-api-key" = header t "X-Kirby-API-Key" →
  ¬ names_client (header t "X-Kirby-API-Key") → RuntimeIdentity t = peer t.
Proof.
  intros Hl Hn. unfold RuntimeIdentity. rewrite Hl.
  assert (∀ v : string, (if bool_decide (v = "") then v else v) = v) as -> by (intros; by case_bool_decide).
  destruct (split_on _ _) as [|a [|b l]] eqn:Hs; [done..|]. case_bool_decide; [done|].
  exfalso. apply Hn. by exists a, b, l.
Qed.

(** C21: gRPC and HTTP serve a runtime read alike.  For the same request (one API
    key, the same request identifier), whatever the message and the method of the
    runtime service: a message that violates its rules is refused over both with
    the same error, without a statement and without using the cache.  Otherwise,
    when the key names a client, the chain around the method does the same over
    both: the same result, the same statements, the same use of the rate limit,
    the clock and the random source.  A key that names no client, which no
    installation has issued, is where they differ: HTTP counts such requests by
    the address of the peer, and gRPC all of them together. *)
Theorem transports_agree {A} tokens trusted http md violation (method : Context_ → M A) w :
  SameOrigin trusted http = true →
  Values http HTTPHeader = md_Get md GRPCMetadata → length (md_Get md GRPCMetadata) = 1%nat →
  header (transport_of http OperationApiConfig) "X-Request-ID" = grpc_Get md "X-Request-ID" →
  header (transport_of http OperationApiConfig) "x-kirby-api-key" = grpc_Get md "x-kirby-api-key" →
  let over_http := handle_http tokens trusted http OperationApiConfig violation method w in
  let over_grpc := serve_grpc md OperationApiConfig violation method w in
  (∀ e, violation = Some e → over_http.1 = over_grpc.1 ∧
     db over_http.2 = db w ∧ db over_grpc.2 = db w ∧
     cache over_http.2 = cache w ∧ cache over_grpc.2 = cache w) ∧
  (violation = None → names_client (grpc_Get md GRPCMetadata) → over_http = over_grpc) ∧
  (¬ names_client (grpc_Get md GRPCMetadata) →
     RuntimeIdentity (transport_of http OperationApiConfig) = ClientIdentity http ∧
     RuntimeIdentity (grpc_transport md OperationApiConfig) = "unknown").
Proof.
  intros Ho Hkey Hone Hid Hlow. cbv zeta. unfold handle_http. rewrite Ho. unfold serve_http, serve_grpc.
  set (t1 := transport_of http OperationApiConfig) in *.
  set (t2 := grpc_transport md OperationApiConfig).
  assert (request_id t1 = request_id t2) as -> by (unfold request_id; by rewrite Hid).
  assert (header t1 HTTPHeader = grpc_Get md GRPCMetadata) as Hh by (cbn; by rewrite Hkey).
  assert (header t2 HTTPHeader = grpc_Get md GRPCMetadata) as Hh2 by done.
  split_and!.
  - intros e ->. destruct (request_id t2 w) as [x w1] eqn:Hx. pose proof (quiet_request_id t2 _ _ _ Hx) as [Hd Hc].
    assert (∃ rid, x = Ok rid) as [rid ->].
    { unfold request_id in Hx. destruct (safeRequestID _); injection Hx as <- _; eauto. }
    unfold mbind, M_bind. rewrite Hx. split_and!; done.
  - intros -> (a & b & l & Hs & Ha).
    assert (grpc_Get md GRPCMetadata ≠ "") as Hne by (intros Hn; rewrite Hn in Hs; discriminate Hs).
    assert (RuntimeIdentity t1 = RuntimeIdentity t2) as Hr.
    { rewrite (client_of_key t1 a b l), (client_of_key t2 a b l); change "X-Kirby-API-Key" with HTTPHeader; congruence. }
    assert (HTTPAPIKey t1 ≫= (λ v, Ok (Some v)) = UnaryAPIKey (Some OperationApiConfig) (md_Get md GRPCMetadata)) as Hk.
    { unfold HTTPAPIKey. rewrite Hh. unfold grpc_Get. revert Hone.
      destruct (md_Get md GRPCMetadata) as [|v [|? ?]]; [done| |done]. intros _.
      unfold UnaryAPIKey. change (default "" (head [v])) with v.
      replace (String.prefix "/kirby.runtime.v1.Api/" OperationApiConfig) with true by done.
      by destruct (blank v). }
    unfold validateRequest, admin_principal, runtime_credential.
    replace (auth_selected (operation t1)) with false by done.
    replace (admin_selected (operation t1)) with false by done.
    rewrite !(bool_decide_true (_ = OperationApiConfig)) by done. cbn [negb]. unfold unless_m. rewrite Hr, <-Hk.
    unfold mbind, M_bind, mret, M_ret, lift. destruct (request_id t2 w) as [[rid|e] w1]; [|done].
    destruct (FixedWindowRateLimit _ _ _ _ w1) as [[u|e] w2]; [|done]. by destruct (HTTPAPIKey t1).
  - intros Hn. split.
    + apply (peer_of_key t1); change "X-Kirby-API-Key" with HTTPHeader; rewrite Hh; [exact Hlow|exact Hn].
    + apply (peer_of_key t2); change "X-Kirby-API-Key" with HTTPHeader; rewrite Hh2; [done|exact Hn].
Qed.
End runtime.

(** ** The browser application *)

(** Pages of the application are served only to requests outside the API and the
    reserved paths; a file has a canonical path and is a regular file under the
    root, and only built assets are marked immutable. *)
Lemma web_confined web method path api a : serveWebRequest web method path api = a →
  (∀ status, a ≠ WebStatus status) →
  api = false ∧ reservedServerPath (path_clean ("/" +:+ path)) = false ∧ wr_open web = true ∧
  ∀ p cache, a = WebFile p cache → p = path_clean ("/" +:+ path) ∧ (∃ name, wr_stat web name = StatRegular) ∧
    cache = if has_prefix "/assets/" p then immutableCacheControl else "no-cache".
Proof.
  unfold serveWebRequest. destruct (negb (bool_decide (method ∈ _))); [intros <- Ha; by destruct (Ha 405)|].
  cbv zeta. set (clean := path_clean ("/" +:+ path)).
  destruct (negb _ || _) eqn:Hc; [intros <- Ha; by destruct (Ha 400)|].
  destruct (api || _) eqn:Hr; [intros <- Ha; by destruct (Ha 404)|]. apply orb_false_iff in Hr as [-> Hr].
  destruct (negb (wr_open web)) eqn:Ho; [intros <- Ha; by destruct (Ha 500)|]. apply negb_false_iff in Ho.
  intros Ha Hs. split_and!; [done..|]. intros p cache Hf. rewrite Hf in Ha. clear Hc Hs.
  destruct (wr_stat web _) eqn:Hst; try (injection Ha as <- <-; eauto); try discriminate Ha.
  all: destruct (_ || _); [discriminate Ha|]; unfold serveWebIndex in Ha; by destruct (wr_index web).
Qed.

(** A request of the interface of the administration always has a route. *)
Section endpoints.
Context {E : Engine} {EL : EngineLaws E} `{Collation} {St : Store} {SL : StoreLaws St}
  `{Protojson} `{MapOrder} `{Pepper} `{Argon2} {JL : JWTLib} `{SHA256} `{UnicodeLower}
  {Au : Authorizer} {AL : AuthorizerLaws Au} {PC : PermissionCache} {PL : PermissionCacheLaws PC}
  {SA : SecureAuthorizer Au} `{Deployment}.
Lemma endpoints_routed {A} op v (m : Context_ → M A) need : endpoint op v m need →
  op ∈ rt_Operation <$> all_routes.
Proof. intros []; apply (bool_decide_eq_true_1 _); vm_compute; reflexivity. Qed.
End endpoints.

(** ** Requests *)

Section sample.
Import Sample SampleWorld.

(** A router that tries the patterns in order. *)
Fixpoint first_match (i : nat) (patterns : list Pattern) (method path : string) : Matched :=
  match patterns with
  | [] => NoRoute
  | p :: patterns => if pattern_matches p method path then ToEntry i else first_match (S i) patterns method path
  end.
#[local] Instance in_order : Mux := first_match 0.
Lemma first_match_spec i patterns method path n : first_match i patterns method path = ToEntry n →
  ∃ j p, n = (i + j)%nat ∧ patterns !! j = Some p ∧ pattern_matches p method path = true ∧
    ∀ k q, (k < j)%nat → patterns !! k = Some q → pattern_matches q method path = false.
Proof.
  revert i. induction patterns as [|p l IH]; intros i; simpl; [done|].
  destruct (pattern_matches p method path) eqn:Hp.
  - intros [= <-]. exists 0%nat, p. split_and!; [lia|done|done|]. intros; lia.
  - intros (j & q & -> & Hj & Hq & Hlt)%IH. exists (S j), q. split_and!; [lia|done|done|].
    intros [|k] q' Hk Hq'; [by injection Hq' as <-|]. eapply Hlt; [|exact Hq']. lia.
Qed.
#[local] Instance in_order_laws : MuxLaws in_order.
Proof. intros patterns method path i (j & p & -> & Hj & Hp & Hlt)%first_match_spec. exists p. eauto. Qed.

Definition everything : Served := {| sv_local := true; sv_proxy := Some "/kirby"; sv_web := true |}.
Definition page_request_http : HTTPRequest :=
  {| Values := λ _, []; Host := "kirby.example"; RemoteAddr := "10.0.0.1:40000"; TLS := true |}.
Lemma role_dispatch : http_dispatch everything [] page_request_http "PUT" "/api/admin/roles/7" =
  Reaches (ToOperation "/kirby.admin.v1.RoleService/UpdateRole") "/admin/roles/7" true.
Proof. vm_compute. reflexivity. Qed.
Lemma operations_confined_witness :
  http_dispatch everything [] page_request_http "GET" "/admin/roles" = Plain 404 ∧
  http_dispatch everything [] page_request_http "GET" "/api/kirby/roles" = Reaches ToStorageProxy "/kirby/roles" true ∧
  ∃ r, r ∈ all_routes ∧ rt_Template r = "/admin/roles/{role_id}" ∧
    admin_selected (rt_Operation r) = true.
Proof.
  split; [reflexivity|]. split; [vm_compute; reflexivity|].
  destruct (operations_confined everything [] page_request_http "PUT" "/api/admin/roles/7"
    "/kirby.admin.v1.RoleService/UpdateRole" "/admin/roles/7" true role_dispatch)
    as (_ & r & Hr & Ho & _ & Hu & _).
  exists r. split; [exact Hr|]. rewrite Ho. split; [|reflexivity].
  rewrite <-(Hu (route PUT "/admin/roles/{role_id}" body_and_path "/kirby.admin.v1.RoleService/UpdateRole"));
    [reflexivity| |vm_compute; reflexivity].
  apply (bool_decide_eq_true_1 _). vm_compute. reflexivity.
Defined.

Definition runtime_http : HTTPRequest :=
  {| Values := λ name, if bool_decide (name ∈ ["X-Kirby-API-Key"; "x-kirby-api-key"]) then ["kirby_pk_a.b"] else [];
     Host := "kirby.example"; RemoteAddr := "10.0.0.1:40000"; TLS := true |}.
Definition runtime_md : MD := {[ "x-kirby-api-key" := ["kirby_pk_a.b"] ]}.
(** Over both, the key reaches the method. *)
Definition key_of (ctx : Context_) : M (option string) := mret (cx_credential ctx).
Lemma transports_agree_witness :
  handle_http (tokens auth_logic) [] runtime_http OperationApiConfig None key_of read_before =
  serve_grpc runtime_md OperationApiConfig None key_of read_before ∧
  (serve_grpc runtime_md OperationApiConfig None key_of read_before).1 = Ok (Some "kirby_pk_a.b").
Proof.
  split; [|vm_compute; reflexivity].
  apply (transports_agree (tokens auth_logic) [] runtime_http runtime_md None key_of read_before);
    try reflexivity.
  exists "kirby_pk_a", "b", []. split; [reflexivity|discriminate].
Defined.
End sample.
